(* ===== verification/_CoqProject ===== *)
-Q . S2P
Prelude.v
MD5.v
Wire.v
State.v
Conn.v
Response.v
ResponseSpec.v
Session.v
ReqParse.v
ReqParseSpec.v
ReqHeaders.v
ReqHeadersSpec.v
Frame.v
SuExec.v
SuExecSpec.v
ReqRead.v
ReqReadSpec.v
ReadReqSpec.v
Prefork.v
PreforkSpec.v
Worker.v
Env.v
WorkerSpec.v
EnvSpec.v
ThreadPool.v
ConnectionIO.v
StdMap.v
HttpUtils.v
HttpUtilsSpec.v
Sinks.v
SinksSpec.v
LsapiSink.v
LsapiSinkSpec.v
Metrics.v
MetricsSpec.v
HostContext.v
HostContextSpec.v
Filters.v
Modules.v
Samples.v
FiltersSpec.v
ModulesSpec.v
ChainFrame.v
ChainSpec.v
Handler.v
HandlerSpec.v
LsapiHandler.v
LsapiRequestSpec.v
LsapiHandlerSpec.v
LsapiLoop.v
LsapiLoopSpec.v
SamplesSpec.v
EventLoop.v
EventLoopSpec.v
Sys.v
Main.v
MainSpec.v
LsapiSys.v
