(* ===== verification/Prelude.v ===== *)
(** * Verification of lswasm

    lswasm is a FastCGI-like application server that runs WebAssembly filters.  It is
    reached in one of two ways: over the LSAPI protocol of the LiteSpeed web server
    ([src/lsapilib.c]), with a parent process that forks workers, or over HTTP
    ([src/main.cpp]), with one event loop and a pool of threads.  This library models
    both ways in, from the bytes on the socket through the filter chain to the bytes of
    the response, as pure definitions, and proves what they promise.  This file is the root:
    after this comment it holds the shared notions (byte strings, sub-ranges of a
    buffer, C integers, the lemmas and the tactics on them).

    ** The parts, and where they are

    The LSAPI side, on one state [State.st]: the request structure [LSAPI_Request]
    ([m_*] fields as in lsapilib.h), the static variables of lsapilib.c ([g_*]) and the
    kernel, with a state monad [M A := st -> option (A * st)].
    - [Wire]: the packet header, [verifyHeader], [lsapi_buildPacketHeader], the packet
      stream as the web server reads it (a specification).
    - [Conn]: [lsapi_read], [lsapi_close], [lsapi_writev], [allocateIovec] and the other
      allocations, [LSAPI_InitRequest], [LSAPI_Reset_r].
    - [Response], [ResponseSpec], [Session]: [LSAPI_AppendRespHeader_r] ...
      [LSAPI_Finish_r]; the invariant of the response half; the abstract response and
      the refinement.
    - [ReqParse], [ReqParseSpec]: [parseRequest] and its helpers on the bytes of the
      packet; the image of a request in either byte order.
    - [ReqHeaders], [ReqHeadersSpec]: [LSAPI_GetEnv_r], [LSAPI_GetHeader_r] and the
      [LSAPI_Foreach*] iterators with any callback.
    - [SuExec], [SuExecSpec]: [readSecret], [lsapi_suexec_auth], [lsapi_changeUGid],
      [lsapi_reopen_stderr].
    - [ReqRead], [ReqReadSpec], [ReadReqSpec]: [readReq], the body readers,
      [LSAPI_Accept_r].
    - [Prefork], [PreforkSpec]: [lsapi_prefork_server_accept] in the parent, its table of
      children, [lsapi_sigchild], [lsapi_check_child_status].
    - [Worker], [WorkerSpec]: the forked child and [LSAPI_Prefork_Accept_r].
    - [Env], [EnvSpec]: [LSAPI_Init_Env_Parameters] with [lsapi_initSuEXEC],
      [lsapi_initLVE] and [unset_lsapi_envs], over the environment as a list of strings.
    - [LsapiSink], [LsapiSinkSpec]: [LsapiResponseSink] of lsapi_response_sink.h, the
      instance of the sink interface over [Response].
    - [LsapiHandler], [LsapiRequestSpec], [LsapiHandlerSpec]: [lsapi_handle_request] of
      main.cpp, from the request of [ReqHeaders] through the filter chain to the sink.
    - [LsapiLoop], [LsapiLoopSpec]: [LSAPI_Init] and [run_lsapi_loop] of main.cpp, which
      put the worker, the environment, [readReq] and the handler together.
    - [LsapiSys]: [LSAPI_ParseSockAddr], [LSAPI_CreateListenSock] and the wrappers of
      single system calls, as programs of [Sys].
    - [MD5]: the digest of the suEXEC authentication.
    - [Frame]: what a computation leaves alone (rules by the shape of a computation).

    The HTTP side.
    - [ThreadPool]: [ThreadPool] of thread_pool.h as a step relation over its threads.
    - [ConnectionIO]: the object an event loop and a worker share (connection_io.h), a
      method a step.
    - [HttpUtils], [HttpUtilsSpec]: http_utils.h, [extract_content_length] and
      [HttpServer::parse_request].
    - [Sinks], [SinksSpec]: the interface of response_sink.h as a type class with laws,
      its HTTP instance, and its client, the streaming half of [LsWasmContext].
    - [Handler], [HandlerSpec]: [HttpServer::handle_request] and the responses it builds.
    - [EventLoop], [EventLoopSpec]: [HttpServer::accept_connections], its table of
      connections, the epoll set and its handlers, interleaved with worker steps, and the
      clean-up behind the loop.

    The filters, which both sides share.
    - [HostContext], [HostContextSpec]: [LsWasmContext], what a module can call: header
      maps, buffers, local responses, properties, streaming.  A module is any program of
      such calls ([HostContext.prog]).
    - [Metrics], [MetricsSpec]: [MetricStore] over any interleaving of threads.
    - [Filters], [FiltersSpec]: [HttpFilterContext] of http_filter.h, the scopes of a
      request and the loop of every phase, over any modules.
    - [Modules], [ModulesSpec]: [WasmModuleManager]: loading a module as its critical
      sections, unloading, [RequestScope::init], over any interleaving of threads; the
      store of metrics that a machine and its clones share.
    - [Samples], [SamplesSpec]: the three filters of samples/ as programs of host calls,
      and what they answer over LSAPI and over HTTP.
    - [ChainFrame], [ChainSpec]: what holds of the chain over any sink (the laws of
      [Sinks] are the interface), used by the theorems on both handlers.
    - [StdMap]: [std::map] as a sorted association list.

    The process.
    - [Sys]: programs of system calls, their traces, a weakest precondition over traces.
    - [Main], [MainSpec]: [main] of main.cpp from the command line to the exit code, with
      [log_init], the listeners, the frame of [accept_connections], the destructor of the
      server and the signal handler.

    How they meet.  [main] ([Main]) reads its options and either runs the LSAPI loop
    ([LsapiLoop]) or loads the module ([Modules]), starts the pool ([ThreadPool]) and the
    listener, and runs the event loop; these are single calls of its program.  [readReq] ([ReqRead]) reads a packet ([Conn]), checks it ([Wire]),
    parses it ([ReqParse]) and authenticates it ([SuExec] over [MD5]); a worker
    ([Worker]) does this in a loop below its parent ([Prefork]) and hands the request to
    the response side ([Response]).  The event loop ([EventLoop]) owns [ConnectionIO]
    objects, one per connection, and hands a request with its bridge to the pool; the
    worker writes through the HTTP sink ([Sinks]) to the same bridge.  Both handlers give
    the request to the chain ([Filters]), whose modules call the context ([HostContext]);
    a streaming module writes through the sink it was given.

    ** What the theorems show

    Each theorem states what it assumes; the properties that hold only of a restricted
    kernel, packet or module are listed with the restriction.

    - Responses: with memory and a kernel whose short counts leave out fewer than the 8
      bytes of a packet header in all, whatever response calls are made in the order the
      API asks for (no status and no header behind the end of the head), the packets on
      the wire are those of the abstract response, or a prefix of packets on a closed
      connection; what a streaming module sends over either sink decodes to what it asked
      for.
    - Requests: a request in either byte order, in any pieces of which the first holds a
      packet header, is parsed to itself and leaves the body to the body readers; variables
      are found by name, the known headers by their index; the iterators visit each
      variable and header once (of the known headers the first 24); line and character
      readers cut the body without loss.
    - LSAPI from end to end, for modules that do not stream and do not read the body when
      they are closed: the filters see the request of the packet, each header once; every
      module sees the same pieces of the body, with the end where it is; the answer is the
      response of the first module that gave one or that of the host, and this is what is on
      the wire.  On a connection that is kept alive, whose first pieces hold a packet header
      and whose kernel accepts every write, this goes on: one acknowledgement and one
      response for each request, in order, and the state behind each is fit for the next.
    - HTTP from end to end: the handler always comes to an end, and so does the destruction
      of the chain when no module reads the body then; a response that is not streamed has
      one head with the headers that are asked for, one Content-Length and its body; a
      streamed one is the head the module sent and a chunked body that decodes to the
      accepted chunks (the calls of the module are logged, so that what it asked for and
      what was accepted can be told apart).
    - Filters: over the life of a chain each module sees the phases in order and at most
      once; the first answer wins; the header maps are maps from case-insensitive names to
      lists of values; a metric loses no update, and where nothing is taken away a counter
      does not fall.
    - Modules: the table holds configured machines only, each name once; loads of different
      names do not disturb each other, and the machine of a load stays; a load alone does
      what its sequential form says.  The sample filters give back the body they were sent,
      from end to end.
    - The process: the command line reads back; every system call of [main] is well typed
      and works on descriptors that are open, whatever the system answers (but for the
      second close behind a listener that failed); if the loop is entered, the calls are
      exactly those that the help and the README promise for the command line ([--port]
      with the default path excepted), and every descriptor is given back.  An LSAPI
      listener for an address in one of the forms of [LsapiSys.address] is bound to what was
      written, or nothing is left open.
    - HTTP text: heads and marshalled header pairs round trip.
    - Privileges: a process configured with a secret leaves no variable of LSAPI and no
      default user that is root; only an authenticated request chooses a user; a change
      of user asks for the gid, the groups and the uid in that order, is never to root, and
      needs the gid and the uid to be granted (a failing setgroups is only logged); the
      secret is erased.  Without a usable secret the workers stay root.
    - Processes: whatever the children write to the shared memory, the table of every run
      of the parent is well formed, its sweep signals exactly the children that run away,
      and the shared counters are the numbers of slots marked so; the count of busy
      workers balances over the life of a worker, whatever the modules do that it runs;
      idle servers and workers stop; a worker keeps to its quota; a forked child starts
      in its own slot.
    - Threads: the pool runs every accepted task exactly once and comes to rest; no
      wake-up of the event loop is lost; the bytes written are the bytes sent; a worker
      is fed the body that arrived, up to its announced length; the clean-up of the loop
      leaves no worker blocked, so the pool can be drained.
    - Errors: the corner cases where the code does not do what it means to are stated as
      theorems about the same definitions (short first pieces, short counts, wake-ups
      without a connection, a crowded listener, workers that stay root, two loads of one
      name, a failed start that closes twice, a body read when it is gone).

    ** Representation

    A byte is a [Z] in [0, 256), a buffer a [list Z], a pointer into a buffer its offset;
    [load] and [store] answer [None] outside the allocation.  Machine integers are [Z]
    with [u8], [u16], [u32], [u64], [s16], [s32] written where C wraps (x86-64,
    little endian, [int] 32 bits).  A C string is its bytes before the NUL.  An undefined
    access ends a computation of [M] with [None]; C++ code is in the option monad where it
    indexes a string and total elsewhere.  Request pointers are never NULL: the checks
    of [pReq] against NULL are the only branches left out of a translated function.

    The kernel is data.  System calls answer from scripts in the state: a script of
    writes that is exhausted accepts everything, of reads is end of file, of accepts is
    an error, of select events a failure.  Theorems quantify over the state and so over
    every such script; [kernel_ok] and [at_rest] say what some of them ask of it.  Other
    processes and threads act between accesses: a turn of the parent carries what the
    children write to the shared table and counters ([t_writes], before [select] and in
    it), the events of a worker what others do to the shared counters, the handlers of
    the event loop take the worker's steps as an argument before each access.  The code
    around the loops ([Main], [LsapiSys]) is a program that asks for each answer, and its
    theorems hold for every list of answers.

    ** Bounds and fuel

    Loops that follow a list or a script recur on it.  Loops on counters take fuel, and the
    callers pass a bound the file proves sufficient: the length of the script of the
    kernel plus a constant in [lsapi_writev] and [readReq] (each turn uses up an answer
    or bytes), the size of the buffer in the parsers (each entry takes at least a byte),
    the number of blocks in [lsapi_MD5Update], the length of the body in the loop of
    [lsapi_handle_request] (each round takes a byte), the number of strings in
    [unset_lsapi_envs] (each round deletes one or passes one), the number of threads and queued tasks in
    the measure of [ThreadPool].  Where the C loop can run for ever (a kernel that only
    answers EINTR) the script is finite and the theorem covers every finite script.
    Allocation succeeds where the code does not test it, and is scripted where it does.

    ** What is not modelled

    The WASM virtual machine, proxy-wasm-cpp-host and the SDK of the filters (git
    submodules, not in the repository): the library and the SDK are records of functions,
    a module is a parameter, any program of the calls [LsWasmContext] offers.  What the
    clocks of [LsWasmContext] answer is not a call: a module that reads one is one program
    for each answer.  The moves of [RequestScope] between containers are left out.  Left out for good,
    as they keep no state: log lines and what is printed, [dlopen] of liblve and
    libpthread (the results are inputs), [LSAPI_Release_r], which only frees, [gsendfile]
    for systems other than Linux, and accessors that return a variable. *)

From Stdlib Require Export ZArith Lia.
From stdpp Require Export base list list_numbers numbers option strings.

Open Scope Z_scope.

(** ** Byte strings and lengths *)

(** A byte is a [Z] in [0, 256); a C buffer is a list of bytes. *)
Definition is_byte (b : Z) : Prop := 0 <= b < 256.
Abbreviation bytes := (Forall is_byte).

Definition zlen {A} (l : list A) : Z := Z.of_nat (length l).

Lemma zlen_nonneg {A} (l : list A) : 0 <= zlen l.
Proof. unfold zlen; lia. Qed.

Lemma zlen_app {A} (l k : list A) : zlen (l ++ k) = zlen l + zlen k.
Proof. unfold zlen. rewrite length_app. lia. Qed.

Lemma zlen_cons {A} (x : A) l : zlen (x :: l) = 1 + zlen l.
Proof. unfold zlen. cbn [length]. lia. Qed.

Lemma zlen_nil {A} : zlen (@nil A) = 0.
Proof. reflexivity. Qed.

Lemma zlen_0_inv {A} (l : list A) : zlen l = 0 -> l = [].
Proof. destruct l; [done|]. rewrite zlen_cons. pose proof (zlen_nonneg l). lia. Qed.

Lemma zlen_take {A} (l : list A) a : 0 <= a -> zlen (take (Z.to_nat a) l) = Z.min a (zlen l).
Proof. unfold zlen. rewrite length_take. lia. Qed.

Lemma zlen_drop {A} (l : list A) a : 0 <= a -> zlen (drop (Z.to_nat a) l) = Z.max 0 (zlen l - a).
Proof. unfold zlen. rewrite length_drop. lia. Qed.

(** ** Sub-ranges of a buffer: C pointer arithmetic with its bounds

    [load m off n] reads [n] bytes at offset [off] of the allocation [m];
    [store m off bs] overwrites the bytes at [off].  An access outside the
    allocation has no value: the model answers [None] where C has undefined
    behaviour. *)
Definition slice {A} (off n : Z) (l : list A) : list A :=
  take (Z.to_nat n) (drop (Z.to_nat off) l).

Definition in_range (off n size : Z) : bool :=
  (0 <=? off) && (0 <=? n) && (off + n <=? size).

Definition load {A} (m : list A) (off n : Z) : option (list A) :=
  if in_range off n (zlen m) then Some (slice off n m) else None.

Definition store {A} (m : list A) (off : Z) (bs : list A) : option (list A) :=
  if in_range off (zlen bs) (zlen m)
  then Some (slice 0 off m ++ bs ++ slice (off + zlen bs) (zlen m - (off + zlen bs)) m)
  else None.

Definition load8 (m : list Z) (off : Z) : option Z :=
  if in_range off 1 (zlen m) then m !! Z.to_nat off else None.

Lemma in_range_spec off n size :
  in_range off n size = true <-> 0 <= off /\ 0 <= n /\ off + n <= size.
Proof. unfold in_range. rewrite !andb_true_iff, !Z.leb_le. lia. Qed.

Lemma in_range_false off n size :
  in_range off n size = false <-> ~ (0 <= off /\ 0 <= n /\ off + n <= size).
Proof. rewrite <- in_range_spec. destruct (in_range off n size); intuition congruence. Qed.

Lemma zlen_slice {A} off n (l : list A) :
  0 <= off -> 0 <= n -> off + n <= zlen l -> zlen (slice off n l) = n.
Proof. unfold slice, zlen. rewrite length_take, length_drop. lia. Qed.

Lemma load_Some {A} (m : list A) off n :
  0 <= off -> 0 <= n -> off + n <= zlen m -> load m off n = Some (slice off n m).
Proof. intros. unfold load. by rewrite (proj2 (in_range_spec _ _ _)) by lia. Qed.

Lemma load_inv {A} (m : list A) off n l :
  load m off n = Some l ->
  0 <= off /\ 0 <= n /\ off + n <= zlen m /\ l = slice off n m.
Proof.
  unfold load. destruct (in_range _ _ _) eqn:E; [|done].
  apply in_range_spec in E. intros [= <-]. tauto.
Qed.

Lemma load_zlen {A} (m : list A) off n l : load m off n = Some l -> zlen l = n.
Proof. intros (?&?&?&->)%load_inv. by apply zlen_slice. Qed.

Lemma slice_all {A} (l : list A) : slice 0 (zlen l) l = l.
Proof. unfold slice, zlen. rewrite drop_0, Nat2Z.id. apply take_ge. lia. Qed.

Lemma slice_0_0 {A} off (l : list A) : slice off 0 l = [].
Proof. done. Qed.

Lemma slice_neg {A} off n (l : list A) : n <= 0 -> slice off n l = [].
Proof. intros. unfold slice. by rewrite Z2Nat.nonpos by lia. Qed.

Lemma slice_split {A} off n k (l : list A) :
  0 <= off -> 0 <= n -> 0 <= k -> slice off (n + k) l = slice off n l ++ slice (off + n) k l.
Proof.
  intros. unfold slice. rewrite !Z2Nat.inj_add by lia.
  rewrite <- (drop_drop l). symmetry. apply take_take_drop.
Qed.

Lemma slice_app_l {A} off n (l k : list A) :
  0 <= off -> off + n <= zlen l -> slice off n (l ++ k) = slice off n l.
Proof.
  unfold slice, zlen. intros. destruct (Z.leb_spec n 0).
  { by rewrite !Z2Nat.nonpos by lia. }
  rewrite drop_app_le by lia. apply take_app_le. rewrite length_drop. lia.
Qed.

Lemma slice_app_r {A} off n (l k : list A) :
  zlen l <= off -> slice off n (l ++ k) = slice (off - zlen l) n k.
Proof.
  unfold slice, zlen. intros. rewrite drop_app_ge by lia.
  do 2 f_equal. lia.
Qed.

Lemma slice_app_exact {A} (l k : list A) : slice 0 (zlen l) (l ++ k) = l.
Proof. rewrite slice_app_l by lia. apply slice_all. Qed.

Lemma slice_mid {A} (l m r : list A) : slice (zlen l) (zlen m) (l ++ m ++ r) = m.
Proof. rewrite slice_app_r by lia. rewrite Z.sub_diag. apply slice_app_exact. Qed.


Lemma slice_slice {A} o1 n1 o2 n2 (l : list A) :
  0 <= o1 -> 0 <= o2 -> o2 + n2 <= n1 ->
  slice o2 n2 (slice o1 n1 l) = slice (o1 + o2) n2 l.
Proof.
  intros. apply list_eq. intros i. unfold slice.
  destruct (decide (i < Z.to_nat n2)%nat) as [Hi|Hi].
  - rewrite !lookup_take_lt, !lookup_drop by done.
    rewrite lookup_take_lt by lia. rewrite lookup_drop. f_equal. lia.
  - rewrite !lookup_take_ge by lia. done.
Qed.

Lemma lookup_slice {A} off n i (l : list A) :
  0 <= off -> (Z.of_nat i < n) -> slice off n l !! i = l !! (Z.to_nat off + i)%nat.
Proof. intros. unfold slice. rewrite lookup_take_lt by lia. by rewrite lookup_drop. Qed.

Lemma load8_Some m off b :
  load8 m off = Some b <-> 0 <= off /\ off < zlen m /\ m !! Z.to_nat off = Some b.
Proof.
  unfold load8. destruct (in_range _ _ _) eqn:E.
  - apply in_range_spec in E. intuition lia.
  - apply in_range_false in E. split; [done|]. lia.
Qed.

Lemma load8_is_Some m off : 0 <= off -> off < zlen m -> exists b, load8 m off = Some b.
Proof.
  intros. destruct (lookup_lt_is_Some_2 m (Z.to_nat off)) as [b Hb].
  { unfold zlen in *. lia. }
  exists b. apply load8_Some. auto.
Qed.

(** *** Stores *)

Lemma store_Some {A} (m : list A) off bs :
  0 <= off -> off + zlen bs <= zlen m ->
  store m off bs =
    Some (slice 0 off m ++ bs ++ slice (off + zlen bs) (zlen m - (off + zlen bs)) m).
Proof.
  intros. unfold store. pose proof (zlen_nonneg bs).
  by rewrite (proj2 (in_range_spec _ _ _)) by lia.
Qed.

Lemma store_inv {A} (m : list A) off bs m' :
  store m off bs = Some m' ->
  0 <= off /\ off + zlen bs <= zlen m /\
  m' = slice 0 off m ++ bs ++ slice (off + zlen bs) (zlen m - (off + zlen bs)) m.
Proof.
  unfold store. destruct (in_range _ _ _) eqn:E; [|done].
  apply in_range_spec in E. intros [= <-]. intuition lia.
Qed.

Lemma store_zlen {A} (m : list A) off bs m' :
  store m off bs = Some m' -> zlen m' = zlen m.
Proof.
  intros (?&?&->)%store_inv. pose proof (zlen_nonneg bs).
  rewrite !zlen_app, !zlen_slice by lia. lia.
Qed.

(** What a store leaves in its own range, before it and behind it. *)
Lemma store_load_same {A} (m : list A) off bs m' :
  store m off bs = Some m' -> slice off (zlen bs) m' = bs.
Proof.
  intros (?&?&->)%store_inv. pose proof (zlen_nonneg bs).
  assert (zlen (slice 0 off m) = off) as E by (rewrite zlen_slice; lia).
  rewrite <- E at 1. apply slice_mid.
Qed.

Lemma store_load_before {A} (m : list A) off bs m' o n :
  store m off bs = Some m' -> 0 <= o -> o + n <= off -> slice o n m' = slice o n m.
Proof.
  intros (?&?&->)%store_inv ??. pose proof (zlen_nonneg bs).
  rewrite slice_app_l by (rewrite ?zlen_slice; lia).
  rewrite slice_slice by lia. done.
Qed.

Lemma store_load_after {A} (m : list A) off bs m' o n :
  store m off bs = Some m' -> off + zlen bs <= o -> o + n <= zlen m ->
  slice o n m' = slice o n m.
Proof.
  intros (?&?&->)%store_inv ??. pose proof (zlen_nonneg bs).
  destruct (Z.leb_spec n 0). { by rewrite !slice_neg by lia. }
  rewrite app_assoc, slice_app_r; rewrite zlen_app, zlen_slice by lia; [|lia].
  rewrite slice_slice by lia. f_equal. lia.
Qed.

(** Writing at the cursor of a buffer extends its used prefix. *)
Lemma store_prefix {A} (m : list A) off bs m' :
  store m off bs = Some m' -> slice 0 (off + zlen bs) m' = slice 0 off m ++ bs.
Proof.
  intros Hs. pose proof (store_inv _ _ _ _ Hs) as (?&?&_). pose proof (zlen_nonneg bs).
  rewrite slice_split by lia.
  rewrite (store_load_before _ _ _ _ _ _ Hs) by lia.
  by rewrite Z.add_0_l, (store_load_same _ _ _ _ Hs).
Qed.

(** Accesses to the middle piece of a concatenation. *)
Lemma load_mid {A} (l m r : list A) off n :
  zlen l = off -> zlen m = n -> load (l ++ m ++ r) off n = Some m.
Proof.
  intros <- <-. pose proof (zlen_nonneg l). pose proof (zlen_nonneg m). pose proof (zlen_nonneg r).
  rewrite load_Some by (rewrite ?zlen_app; lia). by rewrite slice_mid.
Qed.

Lemma store_mid {A} (l m r bs : list A) off :
  zlen l = off -> zlen m = zlen bs -> store (l ++ m ++ r) off bs = Some (l ++ bs ++ r).
Proof.
  intros <- E. pose proof (zlen_nonneg l). pose proof (zlen_nonneg m). pose proof (zlen_nonneg r).
  rewrite store_Some by (rewrite ?zlen_app; lia). rewrite slice_app_exact, <- E. do 3 f_equal.
  rewrite (app_assoc l m r), slice_app_r by (rewrite zlen_app; lia).
  rewrite !zlen_app. replace (zlen l + zlen m - (zlen l + zlen m)) with 0 by lia.
  replace (_ - _) with (zlen r) by lia. apply slice_all.
Qed.

Lemma Forall_slice {A} (P : A -> Prop) off n l : Forall P l -> Forall P (slice off n l).
Proof. intros. unfold slice. by apply Forall_take, Forall_drop. Qed.

Lemma load_bytes m off n l : bytes m -> load m off n = Some l -> bytes l.
Proof. intros Hm (?&?&?&->)%load_inv. by apply Forall_slice. Qed.

Lemma store_Forall {A} (P : A -> Prop) m off bs m' :
  store m off bs = Some m' -> Forall P m -> Forall P bs -> Forall P m'.
Proof.
  intros (?&?&->)%store_inv ??. rewrite !Forall_app. auto using Forall_slice.
Qed.

(** ** Fixed-width integers *)

Definition u8 (z : Z) : Z := z mod 2 ^ 8.
Definition u16 (z : Z) : Z := z mod 2 ^ 16.
Definition u32 (z : Z) : Z := z mod 2 ^ 32.
Definition u64 (z : Z) : Z := z mod 2 ^ 64.
Definition s8 (z : Z) : Z := (z + 2 ^ 7) mod 2 ^ 8 - 2 ^ 7.
Definition s16 (z : Z) : Z := (z + 2 ^ 15) mod 2 ^ 16 - 2 ^ 15.
Definition s32 (z : Z) : Z := (z + 2 ^ 31) mod 2 ^ 32 - 2 ^ 31.
Definition s64 (z : Z) : Z := (z + 2 ^ 63) mod 2 ^ 64 - 2 ^ 63.

Definition is_s32 (z : Z) : Prop := - 2 ^ 31 <= z < 2 ^ 31.

Lemma s32_id z : is_s32 z -> s32 z = z.
Proof. unfold s32, is_s32. intros. rewrite Z.mod_small; lia. Qed.

Lemma s32_range z : is_s32 (s32 z).
Proof. unfold s32, is_s32. pose proof (Z.mod_pos_bound (z + 2 ^ 31) (2 ^ 32)). lia. Qed.

Lemma s64_id z : - 2 ^ 63 <= z < 2 ^ 63 -> s64 z = z.
Proof. unfold s64. intros. rewrite Z.mod_small; lia. Qed.

Lemma u32_range z : 0 <= u32 z < 2 ^ 32.
Proof. apply Z.mod_pos_bound. lia. Qed.

Lemma s32_u32 z : s32 (u32 z) = s32 z.
Proof.
  unfold s32, u32. f_equal. apply Zplus_mod_idemp_l.
Qed.

Lemma u32_s32 z : u32 (s32 z) = u32 z.
Proof.
  unfold s32, u32. rewrite Zminus_mod_idemp_l. f_equal. lia.
Qed.

(** ** Little-endian codecs *)

Fixpoint le_bytes (n : nat) (z : Z) : list Z :=
  match n with
  | O => []
  | S n => z mod 256 :: le_bytes n (z / 256)
  end.

Fixpoint le_val (bs : list Z) : Z :=
  match bs with
  | [] => 0
  | b :: bs => b + 256 * le_val bs
  end.

Lemma length_le_bytes n z : length (le_bytes n z) = n.
Proof. revert z; induction n; intros; simpl; auto. Qed.

Lemma zlen_le_bytes n z : zlen (le_bytes n z) = Z.of_nat n.
Proof. unfold zlen. by rewrite length_le_bytes. Qed.

Lemma bytes_le_bytes n z : bytes (le_bytes n z).
Proof.
  revert z; induction n; intros; simpl; constructor; auto.
  apply Z.mod_pos_bound. lia.
Qed.

Lemma pow256_S n : 256 ^ Z.of_nat (S n) = 256 * 256 ^ Z.of_nat n.
Proof. rewrite Nat2Z.inj_succ, Z.pow_succ_r by lia. done. Qed.

Lemma pow256_pos n : 0 < 256 ^ Z.of_nat n.
Proof. apply Z.pow_pos_nonneg; lia. Qed.

Lemma le_val_le_bytes n z : le_val (le_bytes n z) = z mod 256 ^ Z.of_nat n.
Proof.
  revert z. induction n as [|n IH]; intros; cbn [le_bytes le_val].
  { by rewrite Z.mod_1_r. }
  rewrite IH, pow256_S. pose proof (pow256_pos n).
  rewrite Z.rem_mul_r by lia. done.
Qed.

Lemma le_val_bound bs : bytes bs -> 0 <= le_val bs < 256 ^ zlen bs.
Proof.
  induction 1 as [|b bs Hb Hbs IH]; cbn [le_val]; [done|].
  rewrite zlen_cons, (Z.pow_add_r 256 1) by (pose proof (zlen_nonneg bs); lia).
  unfold is_byte in Hb. lia.
Qed.

Lemma le_bytes_le_val bs : bytes bs -> le_bytes (length bs) (le_val bs) = bs.
Proof.
  induction 1 as [|b bs Hb Hbs IH]; cbn [le_val le_bytes length]; [done|].
  unfold is_byte in Hb. f_equal.
  - rewrite (Z.mul_comm 256), Z.mod_add, Z.mod_small; lia.
  - rewrite (Z.mul_comm 256), Z.div_add, Z.div_small by lia. done.
Qed.

Lemma le_val_app a b : le_val (a ++ b) = le_val a + 256 ^ zlen a * le_val b.
Proof.
  induction a as [|x a IH]; cbn [app le_val].
  { change (zlen []) with 0. lia. }
  rewrite IH, zlen_cons, (Z.pow_add_r 256 1 (zlen a)) by (pose proof (zlen_nonneg a); lia).
  lia.
Qed.

Lemma le_bytes_split n k z : le_bytes (n + k) z = le_bytes n z ++ le_bytes k (z / 256 ^ Z.of_nat n).
Proof.
  revert z. induction n as [|n IH]; intros z; cbn [Nat.add le_bytes app].
  { by rewrite Z.div_1_r. }
  rewrite IH, pow256_S. pose proof (pow256_pos n).
  by rewrite Z.div_div by lia.
Qed.

Lemma le_bytes_mod n z : le_bytes n (z mod 256 ^ Z.of_nat n) = le_bytes n z.
Proof.
  revert z. induction n as [|n IH]; intros z; cbn [le_bytes]; [done|].
  rewrite pow256_S. pose proof (pow256_pos n).
  rewrite Z.rem_mul_r by lia. f_equal.
  - rewrite (Z.mul_comm 256), Z.mod_add, Z.mod_mod by lia. done.
  - rewrite (Z.mul_comm 256), Z.div_add by lia.
    rewrite (Z.div_small (z mod 256)) by (apply Z.mod_pos_bound; lia). apply IH.
Qed.

Definition le16 (z : Z) : list Z := le_bytes 2 z.
Definition le32 (z : Z) : list Z := le_bytes 4 z.

#[global] Arguments le16 : simpl never.
#[global] Arguments le32 : simpl never.
#[global] Arguments zlen : simpl never.
#[global] Arguments slice : simpl never.

Lemma le32_shape z : exists p0 p1 p2 p3, le32 z = [p0; p1; p2; p3].
Proof. by repeat eexists. Qed.

Lemma zlen_le16 z : zlen (le16 z) = 2.
Proof. apply zlen_le_bytes. Qed.
Lemma zlen_le32 z : zlen (le32 z) = 4.
Proof. apply zlen_le_bytes. Qed.
Lemma le_val_le32 z : le_val (le32 z) = u32 z.
Proof. apply (le_val_le_bytes 4). Qed.
Lemma le_val_le16 z : le_val (le16 z) = u16 z.
Proof. apply (le_val_le_bytes 2). Qed.

(** Typed accesses: [int32_t], [uint32_t] and [uint16_t] at an offset. *)
Definition load_s32 (m : list Z) (off : Z) : option Z := (fun b => s32 (le_val b)) <$> load m off 4.
Definition load_u32 (m : list Z) (off : Z) : option Z := le_val <$> load m off 4.
Definition load_u16 (m : list Z) (off : Z) : option Z := le_val <$> load m off 2.
Definition store_32 (m : list Z) (off v : Z) : option (list Z) := store m off (le32 v).

(** C strings: the bytes before the first NUL at or after [off]. *)
Fixpoint c_str (l : list Z) : option (list Z) :=
  match l with
  | [] => None
  | b :: l => if b =? 0 then Some [] else cons b <$> c_str l
  end.

Definition load_str (m : list Z) (off : Z) : option (list Z) :=
  if in_range off 0 (zlen m) then c_str (drop (Z.to_nat off) m) else None.

Lemma c_str_app l k v : c_str l = Some v -> c_str (l ++ k) = Some v.
Proof.
  revert v. induction l as [|b l IH]; intros v E; cbn in *; [done|]. destruct (b =? 0); [done|].
  destruct (c_str l) as [u|]; [|done]. by rewrite (IH u).
Qed.

Lemma load_str_app m k off v : load_str m off = Some v -> load_str (m ++ k) off = Some v.
Proof.
  unfold load_str. destruct (in_range off 0 (zlen m)) eqn:R; [|done]. apply in_range_spec in R. pose proof (zlen_nonneg k).
  rewrite (proj2 (in_range_spec _ _ _)) by (rewrite zlen_app; lia). rewrite drop_app_le by (unfold zlen in *; lia). apply c_str_app.
Qed.

(** ASCII text as bytes. *)
Fixpoint str (s : string) : list Z :=
  match s with
  | EmptyString => []
  | String a s => Z.of_N (Ascii.N_of_ascii a) :: str s
  end.

(** A computable check that a list holds bytes, for concrete inputs. *)
Definition bytes_b (l : list Z) : bool := forallb (fun b => (0 <=? b) && (b <? 256)) l.

Lemma bytes_b_bytes l : bytes_b l = true -> bytes l.
Proof.
  unfold bytes_b. rewrite forallb_forall, Forall_forall. intros H x Hx.
  apply list_elem_of_In, H in Hx. unfold is_byte. lia.
Qed.

(** ** Automation *)

Create HintDb lsw.
Create Rewrite HintDb zlen.
#[export] Hint Resolve zlen_nonneg bytes_le_bytes s32_range Forall_slice : lsw.
#[export] Hint Rewrite @zlen_app @zlen_cons @zlen_nil zlen_le_bytes zlen_le16 zlen_le32 : zlen.

(** [zl] normalises lengths and calls [lia] with every length non-negative. *)
Ltac zlen_pos :=
  repeat match goal with
  | |- context [ zlen ?l ] =>
      lazymatch goal with H : 0 <= zlen l |- _ => fail | _ => pose proof (zlen_nonneg l) end
  | _ : context [ zlen ?l ] |- _ =>
      lazymatch goal with H : 0 <= zlen l |- _ => fail | _ => pose proof (zlen_nonneg l) end
  end.
Ltac zl := autorewrite with zlen in *; zlen_pos; lia.

(** [bsplit] turns the boolean tests of a branch into propositions. *)
Ltac bsplit :=
  repeat match goal with
  | H : _ && _ = true |- _ => apply andb_true_iff in H as [? ?]
  | H : _ || _ = false |- _ => apply orb_false_iff in H as [? ?]
  | H : (_ <=? _) = true |- _ => apply Z.leb_le in H
  | H : (_ <=? _) = false |- _ => apply Z.leb_gt in H
  | H : (_ <? _) = true |- _ => apply Z.ltb_lt in H
  | H : (_ <? _) = false |- _ => apply Z.ltb_ge in H
  | H : (_ =? _) = true |- _ => apply Z.eqb_eq in H
  | H : (_ =? _) = false |- _ => apply Z.eqb_neq in H
  | H : negb _ = true |- _ => apply negb_true_iff in H
  | H : negb _ = false |- _ => apply negb_false_iff in H
  end.

(** [s32s] removes conversions to [int] that do not change the value, innermost first. *)
Ltac s32s :=
  repeat match goal with
  | |- context [ s32 ?x ] =>
      lazymatch x with
      | context [ s32 _ ] => fail
      | _ => rewrite (s32_id x) by (unfold is_s32; lia)
      end
  end.

(** ** Bit operations as arithmetic *)

Lemma testbit_small b n i : 0 <= b < 2 ^ n -> n <= i -> Z.testbit b i = false.
Proof.
  intros Hb Hi. destruct (Z.ltb_spec n 0).
  { rewrite (Z.pow_neg_r 2 n) in Hb by lia. lia. }
  rewrite <- (Z.mod_small b (2 ^ n)) by lia. apply Z.mod_pow2_bits_high. lia.
Qed.

(** Or-ing a value below [2 ^ n] into a shifted one is addition. *)
Lemma lor_shiftl_add a b n :
  0 <= n -> 0 <= b < 2 ^ n -> Z.lor (Z.shiftl a n) b = a * 2 ^ n + b.
Proof.
  intros Hn Hb. rewrite <- Z.shiftl_mul_pow2 by lia.
  assert (Z.land (Z.shiftl a n) b = 0) as Hd.
  { apply Z.bits_inj'. intros i Hi. rewrite Z.land_spec, Z.bits_0.
    destruct (Z.ltb_spec i n); [by rewrite Z.shiftl_spec_low by lia|].
    by rewrite (testbit_small b n), andb_false_r by lia. }
  rewrite Z.add_nocarry_lxor by done. symmetry. by apply Z.lxor_lor.
Qed.

Lemma testbit_u32 z i : 0 <= i -> Z.testbit (u32 z) i = Z.testbit z i && (i <? 32).
Proof.
  intros. unfold u32. destruct (Z.ltb_spec i 32).
  - by rewrite Z.mod_pow2_bits_low, andb_true_r by lia.
  - by rewrite Z.mod_pow2_bits_high, andb_false_r by lia.
Qed.

Lemma u32_id z : 0 <= z < 2 ^ 32 -> u32 z = z.
Proof. intros. apply Z.mod_small. lia. Qed.

(** Bits of a 32-bit word above position 31 are clear. *)
Lemma testbit_high32 z i : 0 <= z < 2 ^ 32 -> 32 <= i -> Z.testbit z i = false.
Proof. intros. by apply (testbit_small z 32). Qed.
