(* ===== verification/MD5.v ===== *)
(** * MD5: the digest of the suEXEC authentication ([src/lsapilib.c], [lsapi_MD5Init]
    to [lsapi_MD5Transform])

    The context, the buffering [lsapi_MD5Update], the padding [lsapi_MD5Final] and the
    64 steps of [lsapi_MD5Transform] are translated as written; the end of the file
    proves that digesting a message in any sequence of pieces gives the RFC 1321
    digest of the whole message. *)

From S2P Require Import Prelude.

Open Scope Z_scope.

(** ** The context and the 32-bit operations *)

Record lsapi_MD5Context := mkMD5 {
  md5_buf : list Z;      (* uint32 buf[4] *)
  md5_bits0 : Z;         (* uint32 bits[2] *)
  md5_bits1 : Z;
  md5_in : list Z        (* unsigned char in[64] *)
}.

Definition add32 (x y : Z) : Z := u32 (x + y).
Definition not32 (x : Z) : Z := u32 (Z.lnot x).
Definition rotl32 (x s : Z) : Z := Z.lor (u32 (Z.shiftl x s)) (Z.shiftr x (32 - s)).

(** The four core functions. *)
Definition F1 (x y z : Z) : Z := Z.lxor z (Z.land x (Z.lxor y z)).
Definition F2 (x y z : Z) : Z := F1 z x y.
Definition F3 (x y z : Z) : Z := Z.lxor (Z.lxor x y) z.
Definition F4 (x y z : Z) : Z := Z.lxor y (Z.lor x (not32 z)).

(** MD5STEP(f, w, x, y, z, data, s): the value [w] gets. *)
Definition MD5STEP (f : Z -> Z -> Z -> Z) (w x y z data s : Z) : Z :=
  let w := add32 w (add32 (f x y z) data) in
  let w := rotl32 w s in
  add32 w x.

(** [byteReverse buf longs]: each of the first [longs] words is rebuilt from its
    bytes, least significant first, and stored as a native (little-endian) word. *)
Fixpoint byteReverse (buf : list Z) (longs : nat) {struct longs} : list Z :=
  match longs with
  | O => buf
  | S longs =>
      match buf with
      | b0 :: b1 :: b2 :: b3 :: buf =>
          let t := Z.lor (u32 (Z.shiftl (Z.lor (Z.shiftl b3 8) b2) 16)) (Z.lor (Z.shiftl b1 8) b0) in
          le32 t ++ byteReverse buf longs
      | _ => buf
      end
  end.

(** The [uint32 *] view of a byte buffer. *)
Fixpoint words (buf : list Z) : list Z :=
  match buf with
  | b0 :: b1 :: b2 :: b3 :: buf => le_val [b0; b1; b2; b3] :: words buf
  | _ => []
  end.

(** ** lsapi_MD5Transform

    One entry per MD5STEP line of the source: the function, the register that is
    written (the other three arguments follow it in the rotation a, b, c, d), the
    index into [in], the constant and the shift. *)
Inductive md5_reg := Ra | Rb | Rc | Rd.

Definition md5_steps : list ((Z -> Z -> Z -> Z) * md5_reg * nat * Z * Z) :=
  [
   (F1, Ra, 0%nat, 0xd76aa478, 7); (F1, Rd, 1%nat, 0xe8c7b756, 12);
   (F1, Rc, 2%nat, 0x242070db, 17); (F1, Rb, 3%nat, 0xc1bdceee, 22);
   (F1, Ra, 4%nat, 0xf57c0faf, 7); (F1, Rd, 5%nat, 0x4787c62a, 12);
   (F1, Rc, 6%nat, 0xa8304613, 17); (F1, Rb, 7%nat, 0xfd469501, 22);
   (F1, Ra, 8%nat, 0x698098d8, 7); (F1, Rd, 9%nat, 0x8b44f7af, 12);
   (F1, Rc, 10%nat, 0xffff5bb1, 17); (F1, Rb, 11%nat, 0x895cd7be, 22);
   (F1, Ra, 12%nat, 0x6b901122, 7); (F1, Rd, 13%nat, 0xfd987193, 12);
   (F1, Rc, 14%nat, 0xa679438e, 17); (F1, Rb, 15%nat, 0x49b40821, 22);
   (F2, Ra, 1%nat, 0xf61e2562, 5); (F2, Rd, 6%nat, 0xc040b340, 9);
   (F2, Rc, 11%nat, 0x265e5a51, 14); (F2, Rb, 0%nat, 0xe9b6c7aa, 20);
   (F2, Ra, 5%nat, 0xd62f105d, 5); (F2, Rd, 10%nat, 0x02441453, 9);
   (F2, Rc, 15%nat, 0xd8a1e681, 14); (F2, Rb, 4%nat, 0xe7d3fbc8, 20);
   (F2, Ra, 9%nat, 0x21e1cde6, 5); (F2, Rd, 14%nat, 0xc33707d6, 9);
   (F2, Rc, 3%nat, 0xf4d50d87, 14); (F2, Rb, 8%nat, 0x455a14ed, 20);
   (F2, Ra, 13%nat, 0xa9e3e905, 5); (F2, Rd, 2%nat, 0xfcefa3f8, 9);
   (F2, Rc, 7%nat, 0x676f02d9, 14); (F2, Rb, 12%nat, 0x8d2a4c8a, 20);
   (F3, Ra, 5%nat, 0xfffa3942, 4); (F3, Rd, 8%nat, 0x8771f681, 11);
   (F3, Rc, 11%nat, 0x6d9d6122, 16); (F3, Rb, 14%nat, 0xfde5380c, 23);
   (F3, Ra, 1%nat, 0xa4beea44, 4); (F3, Rd, 4%nat, 0x4bdecfa9, 11);
   (F3, Rc, 7%nat, 0xf6bb4b60, 16); (F3, Rb, 10%nat, 0xbebfbc70, 23);
   (F3, Ra, 13%nat, 0x289b7ec6, 4); (F3, Rd, 0%nat, 0xeaa127fa, 11);
   (F3, Rc, 3%nat, 0xd4ef3085, 16); (F3, Rb, 6%nat, 0x04881d05, 23);
   (F3, Ra, 9%nat, 0xd9d4d039, 4); (F3, Rd, 12%nat, 0xe6db99e5, 11);
   (F3, Rc, 15%nat, 0x1fa27cf8, 16); (F3, Rb, 2%nat, 0xc4ac5665, 23);
   (F4, Ra, 0%nat, 0xf4292244, 6); (F4, Rd, 7%nat, 0x432aff97, 10);
   (F4, Rc, 14%nat, 0xab9423a7, 15); (F4, Rb, 5%nat, 0xfc93a039, 21);
   (F4, Ra, 12%nat, 0x655b59c3, 6); (F4, Rd, 3%nat, 0x8f0ccc92, 10);
   (F4, Rc, 10%nat, 0xffeff47d, 15); (F4, Rb, 1%nat, 0x85845dd1, 21);
   (F4, Ra, 8%nat, 0x6fa87e4f, 6); (F4, Rd, 15%nat, 0xfe2ce6e0, 10);
   (F4, Rc, 6%nat, 0xa3014314, 15); (F4, Rb, 13%nat, 0x4e0811a1, 21);
   (F4, Ra, 4%nat, 0xf7537e82, 6); (F4, Rd, 11%nat, 0xbd3af235, 10);
   (F4, Rc, 2%nat, 0x2ad7d2bb, 15); (F4, Rb, 9%nat, 0xeb86d391, 21)
  ].

Definition md5_regs := (Z * Z * Z * Z)%type.

Definition md5_do_step (in_ : list Z) (r : md5_regs)
    (st : (Z -> Z -> Z -> Z) * md5_reg * nat * Z * Z) : md5_regs :=
  let '(a, b, c, d) := r in
  let '(f, w, k, t, s) := st in
  let data := add32 (nth k in_ 0) t in
  match w with
  | Ra => (MD5STEP f a b c d data s, b, c, d)
  | Rd => (a, b, c, MD5STEP f d a b c data s)
  | Rc => (a, b, MD5STEP f c d a b data s, d)
  | Rb => (a, MD5STEP f b c d a data s, c, d)
  end.

Definition lsapi_MD5Transform (buf in_ : list Z) : list Z :=
  match buf with
  | [b0; b1; b2; b3] =>
      let '(a, b, c, d) := foldl (md5_do_step in_) (b0, b1, b2, b3) md5_steps in
      [add32 b0 a; add32 b1 b; add32 b2 c; add32 b3 d]
  | _ => buf
  end.

(** ** Init, Update, Final *)

Definition lsapi_MD5Init (ctx : lsapi_MD5Context) : lsapi_MD5Context :=
  mkMD5 [0x67452301; 0xefcdab89; 0x98badcfe; 0x10325476] 0 0 (md5_in ctx).

(** memmove into [ctx->in] at [off]; the callers keep it inside the 64 bytes. *)
Definition in_put (in_ : list Z) (off : nat) (src : list Z) : list Z :=
  take off in_ ++ src ++ drop (off + length src) in_.

Definition md5_block (buf in_ : list Z) : list Z * list Z :=
  let in_ := byteReverse in_ 16 in
  (lsapi_MD5Transform buf (words in_), in_).

(** The loop over full 64-byte chunks; [fuel] bounds the number of chunks. *)
Fixpoint md5_chunks (fuel : nat) (hash in_ buf : list Z) : list Z * list Z * list Z :=
  match fuel with
  | O => (hash, in_, buf)
  | S fuel =>
      if (64 <=? length buf)%nat then
        let in_ := in_put in_ 0 (take 64 buf) in
        let '(hash, in_) := md5_block hash in_ in
        md5_chunks fuel hash in_ (drop 64 buf)
      else (hash, in_, buf)
  end.

Definition lsapi_MD5Update (ctx : lsapi_MD5Context) (buf : list Z) : lsapi_MD5Context :=
  let len := zlen buf in
  (* update the bit count *)
  let t := md5_bits0 ctx in
  let bits0 := u32 (t + u32 (Z.shiftl len 3)) in
  let bits1 := if bits0 <? t then u32 (md5_bits1 ctx + 1) else md5_bits1 ctx in
  let bits1 := u32 (bits1 + Z.shiftr len 29) in
  let t := Z.to_nat (Z.land (Z.shiftr t 3) 0x3f) in
  if (0 <? t)%nat then
    let p := t in
    let t := (64 - t)%nat in
    if (length buf <? t)%nat then
      mkMD5 (md5_buf ctx) bits0 bits1 (in_put (md5_in ctx) p buf)
    else
      let in_ := in_put (md5_in ctx) p (take t buf) in
      let '(hash, in_) := md5_block (md5_buf ctx) in_ in
      let '(hash, in_, rest) := md5_chunks (length buf) hash in_ (drop t buf) in
      mkMD5 hash bits0 bits1 (in_put in_ 0 rest)
  else
    let '(hash, in_, rest) := md5_chunks (length buf) (md5_buf ctx) (md5_in ctx) buf in
    mkMD5 hash bits0 bits1 (in_put in_ 0 rest).

(** The digest and the cleared context. *)
Definition lsapi_MD5Final (ctx : lsapi_MD5Context) : list Z * lsapi_MD5Context :=
  let count := Z.to_nat (Z.land (Z.shiftr (md5_bits0 ctx) 3) 0x3f) in
  let in_ := in_put (md5_in ctx) count [0x80] in
  let p := S count in
  let count := (64 - 1 - count)%nat in
  let '(hash, in_) :=
    if (count <? 8)%nat then
      let in_ := in_put in_ p (replicate count 0) in
      let '(hash, in_) := md5_block (md5_buf ctx) in_ in
      (hash, in_put in_ 0 (replicate 56 0))
    else (md5_buf ctx, in_put in_ p (replicate (count - 8) 0)) in
  let in_ := byteReverse in_ 14 in
  let in_ := in_put in_ 56 (le32 (md5_bits0 ctx) ++ le32 (md5_bits1 ctx)) in
  let hash := lsapi_MD5Transform hash (words in_) in
  (concat (le32 <$> hash), mkMD5 [0; 0; 0; 0] 0 0 (replicate 64 0)).

(** ** The reference digest (RFC 1321) *)

(** Step [i] of the RFC's loop: round function, message index and shift by
    formula, and the table of sine constants. *)
Definition rfc_T : list Z :=
  [
   0xd76aa478; 0xe8c7b756; 0x242070db; 0xc1bdceee; 0xf57c0faf; 0x4787c62a; 0xa8304613; 0xfd469501;
   0x698098d8; 0x8b44f7af; 0xffff5bb1; 0x895cd7be; 0x6b901122; 0xfd987193; 0xa679438e; 0x49b40821;
   0xf61e2562; 0xc040b340; 0x265e5a51; 0xe9b6c7aa; 0xd62f105d; 0x02441453; 0xd8a1e681; 0xe7d3fbc8;
   0x21e1cde6; 0xc33707d6; 0xf4d50d87; 0x455a14ed; 0xa9e3e905; 0xfcefa3f8; 0x676f02d9; 0x8d2a4c8a;
   0xfffa3942; 0x8771f681; 0x6d9d6122; 0xfde5380c; 0xa4beea44; 0x4bdecfa9; 0xf6bb4b60; 0xbebfbc70;
   0x289b7ec6; 0xeaa127fa; 0xd4ef3085; 0x04881d05; 0xd9d4d039; 0xe6db99e5; 0x1fa27cf8; 0xc4ac5665;
   0xf4292244; 0x432aff97; 0xab9423a7; 0xfc93a039; 0x655b59c3; 0x8f0ccc92; 0xffeff47d; 0x85845dd1;
   0x6fa87e4f; 0xfe2ce6e0; 0xa3014314; 0x4e0811a1; 0xf7537e82; 0xbd3af235; 0x2ad7d2bb; 0xeb86d391
  ].

Definition rfc_f (i : nat) : Z -> Z -> Z -> Z :=
  match (i / 16)%nat with
  | 0%nat => fun x y z => Z.lor (Z.land x y) (Z.land (not32 x) z)
  | 1%nat => fun x y z => Z.lor (Z.land x z) (Z.land y (not32 z))
  | 2%nat => fun x y z => Z.lxor (Z.lxor x y) z
  | _ => fun x y z => Z.lxor y (Z.lor x (not32 z))
  end.

Definition rfc_k (i : nat) : nat :=
  match (i / 16)%nat with
  | 0%nat => i
  | 1%nat => (5 * i + 1) mod 16
  | 2%nat => (3 * i + 5) mod 16
  | _ => (7 * i) mod 16
  end%nat.

Definition rfc_s (i : nat) : Z :=
  nth (4 * (i / 16) + i mod 4)%nat
    [7; 12; 17; 22; 5; 9; 14; 20; 4; 11; 16; 23; 6; 10; 15; 21] 0.

Definition rfc_step (in_ : list Z) (r : md5_regs) (i : nat) : md5_regs :=
  let '(a, b, c, d) := r in
  (d, add32 (rotl32 (add32 (add32 a (rfc_f i b c d)) (add32 (nth (rfc_k i) in_ 0) (nth i rfc_T 0))) (rfc_s i)) b, b, c).

Definition rfc_compress (hash : list Z) (block : list Z) : list Z :=
  match hash with
  | [a0; b0; c0; d0] =>
      let '(a, b, c, d) := foldl (rfc_step (words block)) (a0, b0, c0, d0) (seq 0 64) in
      [add32 a0 a; add32 b0 b; add32 c0 c; add32 d0 d]
  | _ => hash
  end.

Definition rfc_pad (m : list Z) : list Z :=
  m ++ [0x80] ++ replicate ((119 - length m mod 64) mod 64)%nat 0 ++ le_bytes 8 (8 * zlen m).

(** Hash the blocks of a message whose length is a multiple of 64. *)
Fixpoint rfc_blocks (n : nat) (hash m : list Z) : list Z :=
  match n with
  | O => hash
  | S n => rfc_blocks n (rfc_compress hash (take 64 m)) (drop 64 m)
  end.

Definition rfc_md5 (m : list Z) : list Z :=
  let p := rfc_pad m in
  concat (le32 <$> rfc_blocks (length p / 64) [0x67452301; 0xefcdab89; 0x98badcfe; 0x10325476] p).

(** ** The 64 steps compute the RFC compression function *)

Definition is_u32 (z : Z) : Prop := 0 <= z < 2 ^ 32.

Lemma add32_range x y : is_u32 (add32 x y).
Proof. apply u32_range. Qed.

Lemma add32_assoc x y z : add32 (add32 x y) z = add32 x (add32 y z).
Proof.
  unfold add32, u32. rewrite Zplus_mod_idemp_l, Zplus_mod_idemp_r. f_equal. lia.
Qed.

Lemma add32_assoc_l x y z : add32 x (add32 y z) = add32 (add32 x y) z.
Proof. symmetry. apply add32_assoc. Qed.

Lemma F1_rfc x y z : is_u32 z -> F1 x y z = Z.lor (Z.land x y) (Z.land (not32 x) z).
Proof.
  intros Hz. unfold F1, not32. apply Z.bits_inj'. intros i Hi.
  rewrite Z.lor_spec, !Z.land_spec, !Z.lxor_spec, Z.land_spec, Z.lxor_spec, testbit_u32, Z.lnot_spec by lia.
  destruct (Z.ltb_spec i 32).
  - destruct (Z.testbit x i), (Z.testbit y i), (Z.testbit z i); done.
  - rewrite (testbit_high32 z) by (done || lia).
    destruct (Z.testbit x i), (Z.testbit y i); done.
Qed.

Lemma F2_rfc x y z : is_u32 y -> F2 x y z = Z.lor (Z.land x z) (Z.land y (not32 z)).
Proof.
  intros Hy. unfold F2. rewrite F1_rfc by done.
  by rewrite (Z.land_comm z x), (Z.land_comm _ y).
Qed.

Definition code_f (i : nat) : Z -> Z -> Z -> Z :=
  match (i / 16)%nat with 0%nat => F1 | 1%nat => F2 | 2%nat => F3 | _ => F4 end.

Definition code_reg (i : nat) : md5_reg :=
  match (i mod 4)%nat with 0%nat => Ra | 1%nat => Rd | 2%nat => Rc | _ => Rb end.

(** The table of the source is the RFC's, row by row. *)
Lemma md5_steps_table :
  md5_steps =
  (fun i => (code_f i, code_reg i, rfc_k i, nth i rfc_T 0, rfc_s i)) <$> seq 0 64.
Proof. reflexivity. Qed.

(** The registers in the order w, x, y, z of the step that writes [w]. *)
Definition reg_view (w : md5_reg) (r : md5_regs) : md5_regs :=
  let '(a, b, c, d) := r in
  match w with
  | Ra => (a, b, c, d) | Rd => (d, a, b, c) | Rc => (c, d, a, b) | Rb => (b, c, d, a)
  end.

Definition regs_ok (r : md5_regs) : Prop :=
  let '(a, b, c, d) := r in is_u32 a /\ is_u32 b /\ is_u32 c /\ is_u32 d.

Lemma code_f_rfc i x y z :
  is_u32 x -> is_u32 y -> is_u32 z -> code_f i x y z = rfc_f i x y z.
Proof.
  intros. unfold code_f, rfc_f. destruct (i / 16)%nat as [|[|[|]]]; try reflexivity.
  - by apply F1_rfc.
  - by apply F2_rfc.
Qed.

Lemma code_reg_S i : exists w w',
  code_reg i = w /\ code_reg (S i) = w' /\
  (w, w') ∈ [(Ra, Rd); (Rd, Rc); (Rc, Rb); (Rb, Ra)].
Proof.
  unfold code_reg. eexists _, _. split; [done|]. split; [done|].
  replace (S i mod 4)%nat with (S (i mod 4) mod 4)%nat
    by (rewrite <- Nat.add_1_l, Nat.Div0.add_mod_idemp_r; done).
  assert (i mod 4 < 4)%nat as Hlt by (apply Nat.mod_upper_bound; lia).
  destruct (i mod 4)%nat as [|[|[|[|]]]]; [| | | |lia]; cbn;
    rewrite !list_elem_of_In; cbn; auto.
Qed.

Lemma md5_step_rfc in_ i r :
  regs_ok r ->
  let r' := md5_do_step in_ r (code_f i, code_reg i, rfc_k i, nth i rfc_T 0, rfc_s i) in
  regs_ok r' /\
  rfc_step in_ (reg_view (code_reg i) r) i = reg_view (code_reg (S i)) r'.
Proof.
  destruct r as [[[a b] c] d]. intros (Ha & Hb & Hc & Hd).
  destruct (code_reg_S i) as (w & w' & -> & -> & Hin).
  rewrite !list_elem_of_In in Hin. cbn in Hin.
  destruct Hin as [[= <- <-]|[[= <- <-]|[[= <- <-]|[[= <- <-]|[]]]]];
    cbn [md5_do_step reg_view regs_ok rfc_step]; unfold MD5STEP;
    rewrite !code_f_rfc, !add32_assoc by done; split; auto using add32_range;
    repeat split; auto using add32_range; try apply add32_range; assumption.
Qed.

Lemma md5_steps_rfc in_ n i r :
  regs_ok r ->
  let r' := foldl (md5_do_step in_) r
    ((fun i => (code_f i, code_reg i, rfc_k i, nth i rfc_T 0, rfc_s i)) <$> seq i n) in
  foldl (rfc_step in_) (reg_view (code_reg i) r) (seq i n) = reg_view (code_reg (i + n)) r'.
Proof.
  revert i r. induction n as [|n IH]; intros i r Hr; cbn [seq fmap list_fmap foldl].
  { by rewrite Nat.add_0_r. }
  destruct (md5_step_rfc in_ i r Hr) as [Hr' ->].
  rewrite IH by done. by rewrite Nat.add_succ_comm.
Qed.

Definition hash_ok (h : list Z) : Prop := length h = 4%nat /\ Forall is_u32 h.

Lemma transform_rfc hash block :
  hash_ok hash -> lsapi_MD5Transform hash (words block) = rfc_compress hash block.
Proof.
  intros [Hl Hh]. destruct hash as [|a [|b [|c [|d [|]]]]]; try done.
  rewrite !Forall_cons in Hh. destruct Hh as (Ha & Hb & Hc & Hd & _).
  unfold lsapi_MD5Transform, rfc_compress. rewrite md5_steps_table.
  pose proof (md5_steps_rfc (words block) 64 0 (a, b, c, d)) as E.
  cbn [reg_view] in E. change (code_reg 0) with Ra in E. change (code_reg (0 + 64)) with Ra in E.
  cbv zeta in E. cbn [reg_view] in E. rewrite E by exact (conj Ha (conj Hb (conj Hc Hd))).
  by destruct (foldl (md5_do_step _) _ _) as [[[? ?] ?] ?].
Qed.

Lemma rfc_compress_ok hash block : hash_ok hash -> hash_ok (rfc_compress hash block).
Proof.
  intros [Hl Hh]. destruct hash as [|a [|b [|c [|d [|]]]]]; try done.
  cbn [rfc_compress]. destruct (foldl _ _ _) as [[[? ?] ?] ?].
  split; [done|]. repeat constructor; apply add32_range.
Qed.

(** ** Byte reversal is the identity on a little-endian machine *)

Lemma byteReverse_word b0 b1 b2 b3 :
  bytes [b0; b1; b2; b3] ->
  le32 (Z.lor (u32 (Z.shiftl (Z.lor (Z.shiftl b3 8) b2) 16)) (Z.lor (Z.shiftl b1 8) b0))
  = [b0; b1; b2; b3].
Proof.
  intros Hb. pose proof (le_bytes_le_val _ Hb) as E.
  rewrite !Forall_cons in Hb. destruct Hb as (H0 & H1 & H2 & H3 & _). unfold is_byte in *.
  unfold le32. rewrite !lor_shiftl_add by lia.
  rewrite u32_id by (rewrite Z.shiftl_mul_pow2; lia).
  rewrite lor_shiftl_add by lia.
  etransitivity; [|exact E]. f_equal. cbn [le_val]. lia.
Qed.

Lemma byteReverse_id buf n : bytes buf -> byteReverse buf n = buf.
Proof.
  revert buf. induction n as [|n IH]; intros buf Hb; [done|].
  destruct buf as [|b0 [|b1 [|b2 [|b3 buf]]]]; try done.
  cbn [byteReverse].
  assert (bytes [b0; b1; b2; b3] /\ bytes buf) as [Hw Hr].
  { rewrite !Forall_cons in Hb. destruct Hb as (?&?&?&?&?). split; [|assumption]. repeat (apply Forall_cons_2; [assumption|]). by apply Forall_nil_2. }
  by rewrite byteReverse_word, IH.
Qed.

Lemma md5_block_rfc hash in_ :
  hash_ok hash -> bytes in_ -> md5_block hash in_ = (rfc_compress hash in_, in_).
Proof. intros. unfold md5_block. by rewrite byteReverse_id, transform_rfc. Qed.

(** ** Blocks of a message *)

Lemma rfc_blocks_ok n h m : hash_ok h -> hash_ok (rfc_blocks n h m).
Proof. revert h m. induction n; intros; cbn [rfc_blocks]; auto using rfc_compress_ok. Qed.

Lemma rfc_blocks_app n k h x y :
  length x = (64 * n)%nat -> rfc_blocks (n + k) h (x ++ y) = rfc_blocks k (rfc_blocks n h x) y.
Proof.
  revert h x. induction n as [|n IH]; intros h x Hx; cbn [rfc_blocks Nat.add].
  { destruct x; [done|discriminate]. }
  rewrite take_app_le, drop_app_le by lia. apply IH. rewrite length_drop. lia.
Qed.

Lemma rfc_blocks_take n h x y :
  (64 * n <= length x)%nat -> rfc_blocks n h (x ++ y) = rfc_blocks n h x.
Proof.
  revert h x. induction n as [|n IH]; intros h x Hx; cbn [rfc_blocks]; [done|].
  rewrite take_app_le, drop_app_le by lia. apply IH. rewrite length_drop. lia.
Qed.

Definition md5_iv : list Z := [0x67452301; 0xefcdab89; 0x98badcfe; 0x10325476].

Lemma md5_iv_ok : hash_ok md5_iv.
Proof. split; [done|]. repeat constructor; done. Qed.

(** The message hashed so far and the bytes that wait for a full block. *)
Definition whole (m : list Z) : nat := (length m / 64)%nat.
Definition tail (m : list Z) : list Z := drop (64 * whole m) m.
Definition hash_of (m : list Z) : list Z := rfc_blocks (whole m) md5_iv m.

Lemma length_tail m : length (tail m) = (length m mod 64)%nat.
Proof.
  unfold tail, whole. rewrite length_drop.
  pose proof (Nat.div_mod_eq (length m) 64). lia.
Qed.

(** Appending to a message only touches the pending tail. *)
Lemma whole_app m x : whole (m ++ x) = (whole m + whole (tail m ++ x))%nat.
Proof.
  unfold whole at 1 3. rewrite !length_app, length_tail.
  pose proof (Nat.div_mod_eq (length m) 64). unfold whole.
  rewrite <- Nat.div_add_l by lia. f_equal. lia.
Qed.

Lemma split_whole m : m = take (64 * whole m) m ++ tail m.
Proof. symmetry. apply take_drop. Qed.

Lemma length_take_whole m : length (take (64 * whole m) m) = (64 * whole m)%nat.
Proof.
  rewrite length_take. unfold whole. pose proof (Nat.div_mod_eq (length m) 64). lia.
Qed.

Lemma hash_of_app m x :
  hash_of (m ++ x) = rfc_blocks (whole (tail m ++ x)) (hash_of m) (tail m ++ x).
Proof.
  unfold hash_of at 1.
  transitivity (rfc_blocks (whole (m ++ x)) md5_iv (take (64 * whole m) m ++ (tail m ++ x))).
  { by rewrite app_assoc, <- split_whole. }
  rewrite whole_app, rfc_blocks_app by apply length_take_whole. f_equal.
  unfold hash_of. rewrite <- (rfc_blocks_take _ _ _ (tail m)) by (rewrite length_take_whole; done).
  by rewrite <- split_whole.
Qed.

Lemma tail_app m x : tail (m ++ x) = tail (tail m ++ x).
Proof.
  assert (m ++ x = take (64 * whole m) m ++ (tail m ++ x)) as E
    by (rewrite app_assoc, <- split_whole; done).
  transitivity (drop (64 * whole (m ++ x)) (take (64 * whole m) m ++ (tail m ++ x))).
  { by rewrite <- E. }
  rewrite whole_app, drop_app_ge by (rewrite length_take_whole; lia).
  rewrite length_take_whole. unfold tail at 3. f_equal. lia.
Qed.

(** ** The chunk loop *)

Lemma in_put_length in_ off src :
  (off + length src <= length in_)%nat -> length (in_put in_ off src) = length in_.
Proof. unfold in_put. rewrite !length_app, length_take, length_drop. lia. Qed.

Lemma in_put_bytes in_ off src : bytes in_ -> bytes src -> bytes (in_put in_ off src).
Proof. intros. unfold in_put. rewrite !Forall_app. auto using Forall_take, Forall_drop. Qed.

Lemma in_put_prefix in_ off src :
  (off <= length in_)%nat -> take (off + length src) (in_put in_ off src) = take off in_ ++ src.
Proof.
  intros. unfold in_put. rewrite app_assoc, take_app_length' ; [done|].
  rewrite length_app, length_take. lia.
Qed.

Lemma in_put_full in_ off src :
  (off + length src = length in_)%nat -> in_put in_ off src = take off in_ ++ src.
Proof. intros. unfold in_put. rewrite (drop_ge in_) by lia. by rewrite app_nil_r. Qed.

(** Lengths of nested buffer updates. *)
Ltac in_len :=
  rewrite ?length_app, ?length_take, ?length_replicate, ?length_le_bytes; cbn [length];
  first [lia | progress rewrite ?length_replicate; lia | rewrite in_put_length by in_len; in_len].

Definition in_ok (in_ : list Z) : Prop := length in_ = 64%nat /\ bytes in_.

Lemma in_put_ok in_ off src :
  (off + length src <= 64)%nat -> in_ok in_ -> bytes src -> in_ok (in_put in_ off src).
Proof. intros ? [? ?] ?. split; [rewrite in_put_length; lia|]. by apply in_put_bytes. Qed.

Lemma whole_large x :
  (64 <= length x)%nat -> whole x = S (whole (drop 64 x)) /\ tail (drop 64 x) = tail x.
Proof.
  intros Hl. assert (whole x = S (whole (drop 64 x))) as Hw.
  { unfold whole. rewrite length_drop.
    replace (length x) with (1 * 64 + (length x - 64))%nat at 1 by lia.
    rewrite Nat.div_add_l by lia. lia. }
  split; [done|]. unfold tail. rewrite Hw, drop_drop. f_equal. lia.
Qed.

Lemma md5_chunks_rfc fuel h in_ buf :
  (length buf <= 64 * fuel)%nat -> hash_ok h -> in_ok in_ -> bytes buf ->
  exists in', in_ok in' /\
    md5_chunks fuel h in_ buf = (rfc_blocks (whole buf) h buf, in', tail buf).
Proof.
  revert h in_ buf. induction fuel as [|fuel IH]; intros h in_ buf Hf Hh Hin Hb; cbn [md5_chunks].
  { destruct buf; [|cbn in Hf; lia]. eauto. }
  destruct (Nat.leb_spec 64 (length buf)) as [Hl|Hl].
  - assert (in_put in_ 0 (take 64 buf) = take 64 buf) as ->.
    { apply (in_put_full in_ 0). rewrite length_take. destruct Hin. lia. }
    rewrite md5_block_rfc by auto using Forall_take.
    destruct (IH (rfc_compress h (take 64 buf)) (take 64 buf) (drop 64 buf)) as (in' & Hin' & ->).
    { rewrite length_drop. lia. }
    { by apply rfc_compress_ok. }
    { split; [rewrite length_take; lia|by apply Forall_take]. }
    { by apply Forall_drop. }
    exists in'. split; [done|].
    destruct (whole_large buf Hl) as [Hw Ht]. rewrite Hw, <- Ht. done.
  - exists in_. split; [done|].
    assert (whole buf = 0%nat) as E by (unfold whole; apply Nat.div_small; lia).
    unfold tail. by rewrite E.
Qed.

(** ** The context represents the message hashed so far *)

Record md5_rep (ctx : lsapi_MD5Context) (m : list Z) : Prop := {
  rep_bits0 : md5_bits0 ctx = u32 (8 * zlen m);
  rep_bits1 : md5_bits1 ctx = u32 (8 * zlen m / 2 ^ 32);
  rep_buf : md5_buf ctx = hash_of m;
  rep_in : in_ok (md5_in ctx);
  rep_tail : take (length (tail m)) (md5_in ctx) = tail m
}.

Lemma md5_init_rep ctx : in_ok (md5_in ctx) -> md5_rep (lsapi_MD5Init ctx) [].
Proof. intros. split; done. Qed.

(** The number of pending bytes as the code computes it from the bit count. *)
Lemma pending_count m :
  Z.to_nat (Z.land (Z.shiftr (u32 (8 * zlen m)) 3) 0x3f) = length (tail m).
Proof.
  rewrite length_tail. change 0x3f with (Z.ones 6).
  rewrite Z.land_ones, Z.shiftr_div_pow2 by lia. unfold u32, zlen.
  rewrite <- Nat2Z.id. f_equal. rewrite Nat2Z.inj_mod.
  change (2 ^ 32) with (8 * 2 ^ 29). rewrite Z.mul_mod_distr_l by lia.
  rewrite (Z.mul_comm 8), Z.div_mul by lia.
  apply Z.mod_mod_divide. by exists (2 ^ 23).
Qed.

Lemma bits0_step a l :
  0 <= a -> 0 <= l < 2 ^ 32 ->
  u32 (u32 (8 * a) + u32 (Z.shiftl l 3)) = u32 (8 * (a + l)).
Proof.
  intros. rewrite Z.shiftl_mul_pow2 by lia. unfold u32.
  rewrite <- Zplus_mod. f_equal. lia.
Qed.

Lemma bits1_step a l :
  0 <= a -> 0 <= l < 2 ^ 32 ->
  u32 ((if u32 (8 * (a + l)) <? u32 (8 * a)
        then u32 (u32 (8 * a / 2 ^ 32) + 1) else u32 (8 * a / 2 ^ 32)) + Z.shiftr l 29)
  = u32 (8 * (a + l) / 2 ^ 32).
Proof.
  intros. rewrite Z.shiftr_div_pow2 by lia. unfold u32.
  destruct (Z.ltb_spec ((8 * (a + l)) mod 2 ^ 32) ((8 * a) mod 2 ^ 32)).
  - assert (8 * (a + l) / 2 ^ 32 = 8 * a / 2 ^ 32 + l / 2 ^ 29 + 1) as ->.
    { Z.to_euclidean_division_equations. lia. }
    rewrite Zplus_mod_idemp_l. rewrite <- Z.add_assoc, Zplus_mod_idemp_l. f_equal. lia.
  - assert (8 * (a + l) / 2 ^ 32 = 8 * a / 2 ^ 32 + l / 2 ^ 29) as ->.
    { Z.to_euclidean_division_equations. lia. }
    rewrite Zplus_mod_idemp_l. f_equal.
Qed.

Lemma bytes_tail m : bytes m -> bytes (tail m).
Proof. intros. by apply Forall_drop. Qed.

Lemma length_tail_lt m : (length (tail m) < 64)%nat.
Proof. rewrite length_tail. apply Nat.mod_upper_bound. lia. Qed.

Lemma hash_of_ok m : hash_ok (hash_of m).
Proof. apply rfc_blocks_ok, md5_iv_ok. Qed.

Lemma whole_small x : (length x < 64)%nat -> whole x = 0%nat /\ tail x = x.
Proof.
  intros. assert (whole x = 0%nat) as E by (unfold whole; apply Nat.div_small; lia).
  unfold tail. by rewrite E.
Qed.

(** Storing the bytes left over behind the processed blocks. *)
Lemma in_put_rest in_ x :
  in_ok in_ -> bytes x -> (length x < 64)%nat ->
  in_ok (in_put in_ 0 x) /\ take (length x) (in_put in_ 0 x) = x.
Proof.
  intros Hin Hx Hl. split; [apply in_put_ok; auto; lia|].
  apply (in_put_prefix in_ 0 x). lia.
Qed.

Lemma chunks_rep x h in_ :
  bytes x -> in_ok in_ -> hash_ok h ->
  exists in' hash,
    md5_chunks (length x) h in_ x = (hash, in', tail x) /\ hash = rfc_blocks (whole x) h x /\
    in_ok (in_put in' 0 (tail x)) /\ take (length (tail x)) (in_put in' 0 (tail x)) = tail x.
Proof.
  intros Hx Hin Hh.
  destruct (md5_chunks_rfc (length x) h in_ x) as (in' & Hin' & ->); [lia|done..|].
  eexists in', _. split; [done|]. split; [done|].
  apply in_put_rest; auto using bytes_tail, length_tail_lt.
Qed.

(** One update appends its bytes to the represented message. *)
Lemma md5_update_rep ctx m x :
  bytes m -> bytes x -> zlen x < 2 ^ 32 ->
  md5_rep ctx m -> md5_rep (lsapi_MD5Update ctx x) (m ++ x).
Proof.
  intros Hm Hx Hlen [H0 H1 Hb Hin Ht]. unfold lsapi_MD5Update.
  rewrite H0, H1, pending_count, Hb.
  rewrite bits0_step, bits1_step by (pose proof (zlen_nonneg m); pose proof (zlen_nonneg x); lia).
  rewrite <- zlen_app. pose proof (length_tail_lt m) as Htl.
  destruct (Nat.ltb_spec 0 (length (tail m))) as [Hpos|Hzero].
  - destruct (Nat.ltb_spec (length x) (64 - length (tail m))) as [Hs|Hs].
    + (* everything fits behind the pending bytes *)
      destruct (whole_small (tail m ++ x)) as [Hw Htt]; [rewrite length_app; lia|].
      split; cbn [md5_bits0 md5_bits1 md5_buf md5_in]; auto.
      * by rewrite hash_of_app, Hw.
      * apply in_put_ok; auto; lia.
      * rewrite tail_app, Htt, length_app, in_put_prefix, Ht by (destruct Hin; lia). done.
    + (* the pending block is completed, then whole chunks *)
      set (k := (64 - length (tail m))%nat).
      assert (in_put (md5_in ctx) (length (tail m)) (take k x) = take 64 (tail m ++ x)) as ->.
      { rewrite in_put_full, Ht by (rewrite length_take; destruct Hin; lia).
        rewrite take_app_ge by lia. done. }
      rewrite md5_block_rfc by (auto using hash_of_ok; apply Forall_take, Forall_app; auto using bytes_tail).
      assert (drop k x = drop 64 (tail m ++ x)) as -> by (rewrite drop_app_ge by lia; done).
      destruct (md5_chunks_rfc (length x) (rfc_compress (hash_of m) (take 64 (tail m ++ x)))
        (take 64 (tail m ++ x)) (drop 64 (tail m ++ x))) as (in' & Hin' & ->).
      { rewrite length_drop, length_app. lia. }
      { apply rfc_compress_ok, hash_of_ok. }
      { split; [rewrite length_take, length_app; lia|]. apply Forall_take, Forall_app; auto using bytes_tail. }
      { apply Forall_drop, Forall_app; auto using bytes_tail. }
      set (y := tail m ++ x) in *.
      destruct (whole_large y) as [Hw Hty]; [subst y; rewrite length_app; lia|].
      rewrite Hty.
      destruct (in_put_rest in' (tail y)) as [? ?]; auto using length_tail_lt.
      { apply bytes_tail, Forall_app; auto using bytes_tail. }
      split; cbn [md5_bits0 md5_bits1 md5_buf md5_in]; auto.
      * rewrite hash_of_app. fold y. by rewrite Hw.
      * by rewrite tail_app.
  - (* no pending bytes *)
    assert (tail m = []) as Hnil by (destruct (tail m); [done|cbn in Hzero; lia]).
    destruct (chunks_rep x (hash_of m) (md5_in ctx)) as (in' & hash & -> & -> & ? & ?);
      auto using hash_of_ok.
    split; cbn [md5_bits0 md5_bits1 md5_buf md5_in]; auto.
    + by rewrite hash_of_app, Hnil.
    + by rewrite tail_app, Hnil.
Qed.

(** ** Padding *)

Lemma length_field (m : list Z) :
  le32 (u32 (8 * zlen m)) ++ le32 (u32 (8 * zlen m / 2 ^ 32)) = le_bytes 8 (8 * zlen m).
Proof.
  rewrite (le_bytes_split 4 4). unfold le32, u32.
  change (2 ^ 32) with (256 ^ Z.of_nat 4). by rewrite !le_bytes_mod.
Qed.

Lemma whole_one x : length x = 64%nat -> whole x = 1%nat.
Proof. intros E. unfold whole. by rewrite E. Qed.

(** The digest of the padded message, block by block, from the pending tail. *)
Definition pad_zeros (m : list Z) : nat := ((119 - length (tail m)) mod 64)%nat.

Lemma rfc_pad_tail m :
  rfc_md5 m = concat (le32 <$>
    (let y := tail m ++ 0x80 :: replicate (pad_zeros m) 0 ++ le_bytes 8 (8 * zlen m) in
     rfc_blocks (whole y) (hash_of m) y)).
Proof.
  unfold rfc_md5. do 2 f_equal.
  change (rfc_blocks (length (rfc_pad m) / 64) _ _) with (hash_of (rfc_pad m)).
  unfold rfc_pad, pad_zeros. rewrite length_tail. apply hash_of_app.
Qed.

(** Short tail: one block; [55 - t] zeros and the length field fill it. *)
Lemma final_one_block m in_ :
  bytes m -> in_ok in_ -> take (length (tail m)) in_ = tail m -> (length (tail m) <= 55)%nat ->
  in_put (in_put (in_put in_ (length (tail m)) [0x80]) (S (length (tail m)))
                 (replicate (55 - length (tail m)) 0)) 56 (le_bytes 8 (8 * zlen m))
  = tail m ++ 0x80 :: replicate (pad_zeros m) 0 ++ le_bytes 8 (8 * zlen m).
Proof.
  intros Hm [Hl _] Ht Hs. unfold pad_zeros.
  assert ((119 - length (tail m)) mod 64 = 55 - length (tail m))%nat as ->.
  { replace (119 - length (tail m))%nat with ((55 - length (tail m)) + 1 * 64)%nat by lia.
    rewrite Nat.Div0.mod_add. apply Nat.mod_small. lia. }
  rewrite in_put_full by in_len.
  pose proof (in_put_prefix (in_put in_ (length (tail m)) [0x80]) (S (length (tail m)))
    (replicate (55 - length (tail m)) 0)) as E.
  rewrite length_replicate, in_put_length in E by in_len.
  replace (S (length (tail m)) + (55 - length (tail m)))%nat with 56%nat in E by lia.
  rewrite E by lia.
  pose proof (in_put_prefix in_ (length (tail m)) [0x80]) as E2.
  cbn [length] in E2. rewrite Nat.add_1_r in E2. rewrite E2, Ht by lia.
  by rewrite <- !app_assoc.
Qed.

(** Long tail: the marker and zeros fill the first block, the second holds 56
    zeros and the length field. *)
Lemma final_two_blocks m in_ :
  bytes m -> in_ok in_ -> take (length (tail m)) in_ = tail m -> (55 < length (tail m))%nat ->
  in_put (in_put in_ (length (tail m)) [0x80]) (S (length (tail m)))
         (replicate (63 - length (tail m)) 0)
    = tail m ++ 0x80 :: replicate (63 - length (tail m)) 0 /\
  tail m ++ 0x80 :: replicate (pad_zeros m) 0 ++ le_bytes 8 (8 * zlen m)
    = (tail m ++ 0x80 :: replicate (63 - length (tail m)) 0) ++
      (replicate 56 0 ++ le_bytes 8 (8 * zlen m)).
Proof.
  intros Hm [Hl _] Ht Hs. pose proof (length_tail_lt m). split.
  - rewrite in_put_full by in_len.
    pose proof (in_put_prefix in_ (length (tail m)) [0x80]) as E2.
    cbn [length] in E2. rewrite Nat.add_1_r in E2. rewrite E2, Ht by lia.
    by rewrite <- !app_assoc.
  - unfold pad_zeros. rewrite Nat.mod_small by lia.
    replace (119 - length (tail m))%nat with ((63 - length (tail m)) + 56)%nat by lia.
    rewrite replicate_add. by rewrite <- !app_assoc; cbn [app]; rewrite <- ?app_assoc.
Qed.

Lemma md5_final_rep ctx m :
  bytes m -> md5_rep ctx m -> (lsapi_MD5Final ctx).1 = rfc_md5 m.
Proof.
  intros Hm [H0 H1 Hb Hin Ht]. unfold lsapi_MD5Final.
  rewrite H0, H1, pending_count, Hb, length_field, rfc_pad_tail.
  set (t := length (tail m)) in *. set (L := le_bytes 8 (8 * zlen m)).
  pose proof (length_tail_lt m) as Htl. fold t in Htl.
  assert (bytes L) by apply bytes_le_bytes.
  assert (forall n, bytes (replicate n 0)) as Hz
    by (intros; apply Forall_replicate; unfold is_byte; lia).
  assert (bytes [0x80]) as H80 by (apply Forall_singleton; unfold is_byte; lia).
  assert (in_ok (in_put (md5_in ctx) t [0x80])) as Hin1 by (apply in_put_ok; auto; cbn [length]; lia).
  destruct (Nat.ltb_spec (64 - 1 - t) 8) as [Hc|Hc].
  - destruct (final_two_blocks m (md5_in ctx)) as [E1 E2]; auto; [subst t; lia|].
    fold t L in E1, E2. replace (64 - 1 - t)%nat with (63 - t)%nat by lia.
    assert (in_ok (tail m ++ 0x80 :: replicate (63 - t) 0)) as Hok.
    { split; [subst t; in_len|].
      apply Forall_app. split; [by apply bytes_tail|]. apply Forall_cons_2; [unfold is_byte; lia|auto]. }
    rewrite E1, md5_block_rfc by (apply hash_of_ok || apply Hok). cbn [fst].
    set (b1 := tail m ++ _) in *.
    rewrite byteReverse_id by (apply in_put_bytes; auto; apply Hok).
    rewrite (in_put_full _ 56) by (subst L; destruct Hok; in_len).
    pose proof (in_put_prefix b1 0 (replicate 56 0) ltac:(lia)) as Ep.
    rewrite length_replicate in Ep. change (0 + 56)%nat with 56%nat in Ep. rewrite Ep.
    rewrite transform_rfc by apply rfc_compress_ok, hash_of_ok.
    cbv zeta. rewrite E2.
    assert (whole (b1 ++ replicate 56 0 ++ L) = 2%nat) as ->.
    { unfold whole. rewrite !length_app, length_replicate. destruct Hok as [-> _].
      subst L. rewrite length_le_bytes. done. }
    cbn [rfc_blocks take app]. destruct Hok as [Hl _].
    rewrite take_app_length', drop_app_length' by lia.
    rewrite (take_ge (replicate 56 0 ++ L)) by (subst L; in_len). done.
  - pose proof (final_one_block m (md5_in ctx)) as E. fold t L in E.
    replace (64 - 1 - t - 8)%nat with (55 - t)%nat by lia. cbn [fst].
    rewrite byteReverse_id by (apply in_put_bytes; [apply Hin1|auto]).
    rewrite E by (auto; lia). rewrite transform_rfc by apply hash_of_ok. cbv zeta.
    set (y := tail m ++ _) in *.
    assert (length y = 64%nat) as Hy.
    { subst y. rewrite <- E by (auto; lia).
      subst L. destruct Hin. in_len. }
    rewrite (whole_one y Hy). cbn [rfc_blocks]. by rewrite take_ge by lia.
Qed.

(** Init, any number of updates, Final: how the callers use the context. *)
Definition md5_digest (ctx : lsapi_MD5Context) (chunks : list (list Z)) : list Z :=
  (lsapi_MD5Final (foldl lsapi_MD5Update (lsapi_MD5Init ctx) chunks)).1.

Lemma md5_updates_rep ctx m chunks :
  bytes m -> Forall (fun x => bytes x /\ zlen x < 2 ^ 32) chunks ->
  md5_rep ctx m -> md5_rep (foldl lsapi_MD5Update ctx chunks) (m ++ concat chunks).
Proof.
  intros Hm Hc. revert ctx m Hm. induction Hc as [|x xs [Hx Hl] Hxs IH]; intros ctx m Hm Hrep.
  - cbn. by rewrite app_nil_r.
  - cbn [foldl concat]. rewrite app_assoc. apply IH; [by apply Forall_app|].
    by apply md5_update_rep.
Qed.

Lemma md5_digest_rfc ctx chunks :
  in_ok (md5_in ctx) ->
  Forall (fun x => bytes x /\ zlen x < 2 ^ 32) chunks ->
  md5_digest ctx chunks = rfc_md5 (concat chunks).
Proof.
  intros Hin Hc. unfold md5_digest. apply md5_final_rep.
  - clear Hin. induction Hc as [|x xs [Hx _] _ IH]; [by apply Forall_nil_2|].
    cbn. by apply Forall_app.
  - apply (md5_updates_rep _ []); [by apply Forall_nil_2|done|by apply md5_init_rep].
Qed.

(** C33. However a message is cut into pieces for [lsapi_MD5Update], the digest is
    the RFC 1321 digest of the whole message: the buffering of partial blocks, the
    64-bit bit count kept in two 32-bit words, the two padding cases of
    [lsapi_MD5Final] and the 64 unrolled steps all agree with the reference. *)
Theorem md5_streaming ctx chunks :
  in_ok (md5_in ctx) ->
  Forall (fun x => bytes x /\ zlen x < 2 ^ 32) chunks ->
  md5_digest ctx chunks = rfc_md5 (concat chunks).
Proof. apply md5_digest_rfc. Qed.

(** The digest of "message digest" in two pieces, by the theorem and by the RFC's
    published value. *)
Lemma md5_streaming_witness :
  let ctx := mkMD5 [] 0 0 (replicate 64 7) in
  md5_digest ctx [str "message"; str " digest"] = rfc_md5 (str "message digest") /\
  rfc_md5 (str "message digest") =
    [0xf9; 0x6b; 0x69; 0x7d; 0x7c; 0xb7; 0x93; 0x8d; 0x52; 0x5a; 0x2f; 0x31; 0xaa; 0xf1; 0x61; 0xd0].
Proof.
  split; [|vm_compute; reflexivity].
  apply (md5_streaming (mkMD5 [] 0 0 (replicate 64 7)) [str "message"; str " digest"]).
  - split; [reflexivity|]. apply bytes_b_bytes. reflexivity.
  - repeat (apply Forall_cons_2; [split; [apply bytes_b_bytes|]; reflexivity|]).
    apply Forall_nil_2.
Defined.

(** Some context as it may lie on the stack, for concrete runs. *)
Definition ctx0 : lsapi_MD5Context := mkMD5 [] 0 0 (replicate 64 9).
