(* ===== verification/Wire.v ===== *)
(** * The LSAPI packet layer ([src/lsapidef.h], the header helpers of [src/lsapilib.c])

    Packet headers as records and as their eight bytes, the check of an incoming
    header with its byte swapping in place, and the packet stream as the web server
    reads it (the reference the response side is proved against). *)

From S2P Require Import Prelude.

Open Scope Z_scope.

(** ** Constants of lsapidef.h and lsapilib.c *)

Definition LSAPI_VERSION_B0 : Z := 76.   (* 'L' *)
Definition LSAPI_VERSION_B1 : Z := 83.   (* 'S' *)
Definition LSAPI_ENDIAN_LITTLE : Z := 0.
Definition LSAPI_ENDIAN_BIG : Z := 1.
Definition LSAPI_ENDIAN_BIT : Z := 1.
Definition LSAPI_ENDIAN : Z := LSAPI_ENDIAN_LITTLE.   (* x86 and x86-64 *)

Definition LSAPI_BEGIN_REQUEST : Z := 1.
Definition LSAPI_ABORT_REQUEST : Z := 2.
Definition LSAPI_RESP_HEADER : Z := 3.
Definition LSAPI_RESP_STREAM : Z := 4.
Definition LSAPI_RESP_END : Z := 5.
Definition LSAPI_STDERR_STREAM : Z := 6.
Definition LSAPI_REQ_RECEIVED : Z := 7.
Definition LSAPI_CONN_CLOSE : Z := 8.
Definition LSAPI_INTERNAL_ERROR : Z := 9.

Definition LSAPI_MAX_HEADER_LEN : Z := 65535.
Definition LSAPI_MAX_DATA_PACKET_LEN : Z := 16384.
Definition LSAPI_RESP_HTTP_HEADER_MAX : Z := 32768.
Definition LSAPI_PACKET_HEADER_LEN : Z := 8.
Definition LSAPI_MAX_RESP_HEADERS : Z := 1000.

Definition H_CONTENT_TYPE : Z := 6.
Definition H_CONTENT_LENGTH : Z := 7.
Definition H_TRANSFER_ENCODING : Z := 24.

(** ** Packet headers *)

Record lsapi_packet_header := mkPkt {
  m_versionB0 : Z;
  m_versionB1 : Z;
  m_type : Z;
  m_flag : Z;
  m_iLen : Z  (* m_packetLen, this header included *)
}.

Definition set_m_versionB0 (v : Z) (r : lsapi_packet_header) : lsapi_packet_header :=
  mkPkt v (m_versionB1 r) (m_type r) (m_flag r) (m_iLen r).
Definition set_m_versionB1 (v : Z) (r : lsapi_packet_header) : lsapi_packet_header :=
  mkPkt (m_versionB0 r) v (m_type r) (m_flag r) (m_iLen r).
Definition set_m_type (v : Z) (r : lsapi_packet_header) : lsapi_packet_header :=
  mkPkt (m_versionB0 r) (m_versionB1 r) v (m_flag r) (m_iLen r).
Definition set_m_flag (v : Z) (r : lsapi_packet_header) : lsapi_packet_header :=
  mkPkt (m_versionB0 r) (m_versionB1 r) (m_type r) v (m_iLen r).
Definition set_m_iLen (v : Z) (r : lsapi_packet_header) : lsapi_packet_header :=
  mkPkt (m_versionB0 r) (m_versionB1 r) (m_type r) (m_flag r) v.

(** The eight bytes of the struct in memory. *)
Definition pkt_bytes (p : lsapi_packet_header) : list Z :=
  [u8 (m_versionB0 p); u8 (m_versionB1 p); u8 (m_type p); u8 (m_flag p)] ++ le32 (m_iLen p).

(** [lsapi_buildPacketHeader]: every field of the header is overwritten. *)
Definition lsapi_buildPacketHeader (type len : Z) : lsapi_packet_header :=
  mkPkt LSAPI_VERSION_B0 LSAPI_VERSION_B1 (s8 type) LSAPI_ENDIAN (s32 len).

(** [finish_close]: the two static packets a response ends with. *)
Definition finish_close : list lsapi_packet_header :=
  [mkPkt 76 83 LSAPI_RESP_END LSAPI_ENDIAN LSAPI_PACKET_HEADER_LEN;
   mkPkt 76 83 LSAPI_CONN_CLOSE LSAPI_ENDIAN LSAPI_PACKET_HEADER_LEN].

Definition s_ack : lsapi_packet_header :=
  mkPkt 76 83 LSAPI_REQ_RECEIVED LSAPI_ENDIAN LSAPI_PACKET_HEADER_LEN.
Definition s_conn_close_pkt : lsapi_packet_header :=
  mkPkt 76 83 LSAPI_CONN_CLOSE LSAPI_ENDIAN LSAPI_PACKET_HEADER_LEN.

#[global] Arguments pkt_bytes : simpl never.
#[global] Arguments lsapi_buildPacketHeader : simpl never.

(** ** Byte swapping in place *)

(** The int at [off]: p[0] and p[3], p[1] and p[2] are exchanged. *)
Definition swapIntEndian (mem : list Z) (off : Z) : option (list Z) :=
  p ← load mem off 4;
  match p with
  | [p0; p1; p2; p3] => store mem off [p3; p2; p1; p0]
  | _ => None
  end.

(** The uint16 at [off] (the header lengths of [fixHeaderIndexEndian]). *)
Definition swapShortEndian (mem : list Z) (off : Z) : option (list Z) :=
  p ← load mem off 2;
  match p with
  | [p0; p1] => store mem off [p1; p0]
  | _ => None
  end.

(** [verifyHeader] on the packet header at the start of [mem]: the length (or -1)
    and the memory, whose length field is swapped when the sender's byte order
    differs. *)
Definition verifyHeader (mem : list Z) (pktType : Z) : option (Z * list Z) :=
  b0 ← load8 mem 0;
  b1 ← load8 mem 1;
  ty ← load8 mem 2;
  if negb (LSAPI_VERSION_B0 =? s8 b0) || negb (LSAPI_VERSION_B1 =? s8 b1) || negb (pktType =? s8 ty)
  then Some (-1, mem)
  else
    fl ← load8 mem 3;
    mem ← (if negb (LSAPI_ENDIAN =? Z.land (s8 fl) LSAPI_ENDIAN_BIT)
           then swapIntEndian mem 4 else Some mem);
    len ← load_s32 mem 4;
    Some (len, mem).

(** ** The packet stream, as its reader sees it

    The reference for everything the library sends: a packet is a header in native
    byte order followed by its payload, a stream is a sequence of packets. *)

Definition packet (type : Z) (payload : list Z) : list Z :=
  pkt_bytes (lsapi_buildPacketHeader type (LSAPI_PACKET_HEADER_LEN + zlen payload)) ++ payload.

#[global] Arguments packet : simpl never.

Definition split_packet (w : list Z) : option (Z * list Z * list Z) :=
  match w with
  | b0 :: b1 :: ty :: fl :: p0 :: p1 :: p2 :: p3 :: _ =>
      let len := s32 (le_val [p0; p1; p2; p3]) in
      if (b0 =? LSAPI_VERSION_B0) && (b1 =? LSAPI_VERSION_B1) && (fl =? LSAPI_ENDIAN)
         && (LSAPI_PACKET_HEADER_LEN <=? len) && (len <=? zlen w)
      then Some (ty, slice 8 (len - 8) w, drop (Z.to_nat len) w)
      else None
  | _ => None
  end.

Fixpoint read_packets (fuel : nat) (w : list Z) : option (list (Z * list Z)) :=
  match w with
  | [] => Some []
  | _ =>
      match fuel with
      | O => None
      | S fuel =>
          '(ty, payload, w) ← split_packet w;
          ps ← read_packets fuel w;
          Some ((ty, payload) :: ps)
      end
  end.

Definition decode_stream (w : list Z) : option (list (Z * list Z)) := read_packets (length w) w.

Definition packet_ok (p : Z * list Z) : Prop := 0 <= p.1 < 128 /\ zlen p.2 + 8 < 2 ^ 31.

Lemma pkt_bytes_build ty n :
  0 <= ty < 128 -> pkt_bytes (lsapi_buildPacketHeader ty n) = [76; 83; ty; 0] ++ le32 n.
Proof.
  intros. unfold pkt_bytes, lsapi_buildPacketHeader. cbn [m_versionB0 m_versionB1 m_type m_flag m_iLen].
  assert (u8 (s8 ty) = ty) as ->.
  { unfold u8, s8. rewrite (Z.mod_small (ty + 2 ^ 7)) by lia.
    replace (ty + 2 ^ 7 - 2 ^ 7) with ty by lia. apply Z.mod_small. lia. }
  assert (le32 (s32 n) = le32 n) as ->; [|done].
  unfold le32. rewrite <- (le_bytes_mod 4 (s32 n)), <- (le_bytes_mod 4 n). f_equal. apply u32_s32.
Qed.

Lemma zlen_pkt_bytes p : zlen (pkt_bytes p) = 8.
Proof. unfold pkt_bytes. rewrite zlen_app, zlen_le32. done. Qed.

Lemma zlen_packet ty pl : zlen (packet ty pl) = 8 + zlen pl.
Proof. unfold packet. by rewrite zlen_app, zlen_pkt_bytes. Qed.

Lemma split_packet_packet ty pl rest :
  packet_ok (ty, pl) -> split_packet (packet ty pl ++ rest) = Some (ty, pl, rest).
Proof.
  intros [Hty Hl]. cbn [fst snd] in *.
  assert (zlen (packet ty pl ++ rest) = 8 + zlen pl + zlen rest) as Hlen
    by (rewrite zlen_app, zlen_packet; lia).
  pose proof (zlen_nonneg pl). pose proof (zlen_nonneg rest).
  pose proof (zlen_packet ty pl) as Hp.
  unfold packet in *. rewrite pkt_bytes_build in * by lia.
  unfold LSAPI_PACKET_HEADER_LEN in *.
  pose proof (le_val_le32 (8 + zlen pl)) as Hv.
  rewrite u32_id in Hv by lia.
  destruct (le32_shape (8 + zlen pl)) as (p0 & p1 & p2 & p3 & E). rewrite E in *.
  set (w := (([76; 83; ty; 0] ++ [p0; p1; p2; p3]) ++ pl) ++ rest) in *.
  assert (split_packet w =
    if (LSAPI_PACKET_HEADER_LEN <=? s32 (le_val [p0; p1; p2; p3])) && (s32 (le_val [p0; p1; p2; p3]) <=? zlen w)
    then Some (ty, slice 8 (s32 (le_val [p0; p1; p2; p3]) - 8) w,
               drop (Z.to_nat (s32 (le_val [p0; p1; p2; p3]))) w) else None) as -> by done.
  rewrite Hv, s32_id by (unfold is_s32; lia). unfold LSAPI_PACKET_HEADER_LEN.
  rewrite !(proj2 (Z.leb_le _ _)) by lia. cbn [andb]. f_equal. f_equal; [f_equal|].
  - subst w. rewrite <- !app_assoc. replace (8 + zlen pl - 8) with (zlen pl) by lia.
    rewrite app_assoc. rewrite slice_app_r by done. apply slice_app_exact.
  - subst w. rewrite drop_app_length'; [done|]. clear -Hp. unfold zlen in *. lia.
Qed.

Lemma packet_nonempty ty pl : packet ty pl <> [].
Proof. intros E. pose proof (zlen_packet ty pl) as H. rewrite E in H. pose proof (zlen_nonneg pl). change (zlen []) with 0 in H. lia. Qed.

Definition packets (ps : list (Z * list Z)) : list Z := concat ((fun p => packet p.1 p.2) <$> ps).

Lemma packets_app ps qs : packets (ps ++ qs) = packets ps ++ packets qs.
Proof. unfold packets. by rewrite fmap_app, concat_app. Qed.

Lemma packets_cons p ps : packets (p :: ps) = packet p.1 p.2 ++ packets ps.
Proof. done. Qed.

Lemma read_packets_packets ps fuel :
  Forall packet_ok ps -> (length ps <= fuel)%nat -> read_packets fuel (packets ps) = Some ps.
Proof.
  intros Hp. revert fuel. induction Hp as [|[ty pl] ps Hok Hps IH]; intros fuel Hf.
  { by destruct fuel. }
  destruct fuel as [|fuel]; [cbn in Hf; lia|]. rewrite packets_cons. cbn [fst snd].
  pose proof (split_packet_packet ty pl (packets ps) Hok) as Hs.
  pose proof (packet_nonempty ty pl) as Hne.
  destruct (packet ty pl ++ packets ps) as [|b w] eqn:E.
  { apply app_eq_nil in E. tauto. }
  cbn [read_packets]. rewrite Hs. cbn. rewrite IH by (cbn in Hf; lia). done.
Qed.

(** A concatenation of well-formed packets decodes to exactly those packets. *)
Lemma decode_stream_packets ps : Forall packet_ok ps -> decode_stream (packets ps) = Some ps.
Proof.
  intros Hp. apply read_packets_packets; [done|].
  clear Hp. induction ps as [|[ty pl] ps IH]; [done|].
  rewrite packets_cons, length_app. cbn [length fst snd].
  pose proof (zlen_packet ty pl). pose proof (zlen_nonneg pl). unfold zlen in *. lia.
Qed.

(** ** The incoming header *)

Lemma s8_eqb ty b : 0 <= ty < 128 -> is_byte b -> (ty =? s8 b) = (b =? ty).
Proof.
  unfold is_byte, s8. intros.
  destruct (Z.eqb_spec b ty) as [->|].
  - apply Z.eqb_eq. rewrite Z.mod_small; lia.
  - apply Z.eqb_neq. Z.to_euclidean_division_equations. lia.
Qed.

Lemma s8_endian_bit b : is_byte b -> (LSAPI_ENDIAN =? Z.land (s8 b) LSAPI_ENDIAN_BIT) = Z.even b.
Proof.
  intros Hb. unfold LSAPI_ENDIAN, LSAPI_ENDIAN_LITTLE, LSAPI_ENDIAN_BIT, s8, is_byte in *.
  change (Z.land _ 1) with (Z.land ((b + 2 ^ 7) mod 2 ^ 8 - 2 ^ 7) (Z.ones 1)).
  rewrite Z.land_ones by lia. destruct (Z.even b) eqn:E.
  - apply Z.even_spec in E as [k ->]. apply Z.eqb_eq. Z.to_euclidean_division_equations. lia.
  - rewrite <- Z.negb_odd, negb_false_iff in E. apply Z.odd_spec in E as [k ->].
    apply Z.eqb_neq. Z.to_euclidean_division_equations. lia.
Qed.

(** [verifyHeader] accepts exactly a header that starts with 'L' 'S' and the
    expected type, whatever the byte order its flag announces: it answers the
    length in the announced order and leaves the length field in native order; any
    other header is answered -1 and left alone. *)
Theorem verifyHeader_spec b0 b1 t f p0 p1 p2 p3 rest ty :
  bytes [b0; b1; t; f; p0; p1; p2; p3] -> 0 <= ty < 128 ->
  verifyHeader ([b0; b1; t; f; p0; p1; p2; p3] ++ rest) ty =
  Some (if (b0 =? 76) && (b1 =? 83) && (t =? ty) then
          if Z.even f
          then (s32 (le_val [p0; p1; p2; p3]), [b0; b1; t; f; p0; p1; p2; p3] ++ rest)
          else (s32 (le_val [p3; p2; p1; p0]), [b0; b1; t; f; p3; p2; p1; p0] ++ rest)
        else (-1, [b0; b1; t; f; p0; p1; p2; p3] ++ rest)).
Proof.
  rewrite !Forall_cons. intros (H0 & H1 & H2 & H3 & _) Hty.
  assert (forall m k : list Z, zlen (m ++ k) = zlen m + zlen k) as Hl by (intros; apply zlen_app).
  pose proof (zlen_nonneg rest).
  assert (forall i v, ([b0; b1; t; f; p0; p1; p2; p3] ++ rest) !! i = Some v -> (i < 4)%nat ->
          load8 ([b0; b1; t; f; p0; p1; p2; p3] ++ rest) (Z.of_nat i) = Some v) as Hld.
  { intros i v Hi Hlt. apply load8_Some. rewrite Nat2Z.id, Hl.
    change (zlen [b0; b1; t; f; p0; p1; p2; p3]) with 8. repeat split; auto; lia. }
  unfold verifyHeader.
  change (load8 (?m ++ rest) 0) with (load8 (m ++ rest) (Z.of_nat 0)).
  change (load8 (?m ++ rest) 1) with (load8 (m ++ rest) (Z.of_nat 1)).
  change (load8 (?m ++ rest) 2) with (load8 (m ++ rest) (Z.of_nat 2)).
  change (load8 (?m ++ rest) 3) with (load8 (m ++ rest) (Z.of_nat 3)).
  rewrite (Hld 0%nat b0), (Hld 1%nat b1), (Hld 2%nat t), (Hld 3%nat f) by (done || lia).
  cbn [mbind option_bind]. rewrite !s8_eqb by (done || lia). rewrite s8_endian_bit by done.
  rewrite <- !negb_andb.
  unfold LSAPI_VERSION_B0, LSAPI_VERSION_B1.
  destruct ((b0 =? 76) && (b1 =? 83) && (t =? ty)); cbn [negb]; [|done].
  destruct (Z.even f); cbn [negb];
    change ([b0; b1; t; f; p0; p1; p2; p3] ++ rest) with ([b0; b1; t; f] ++ [p0; p1; p2; p3] ++ rest).
  - unfold load_s32. cbn [mbind option_bind]. rewrite load_mid by done. done.
  - unfold swapIntEndian. rewrite load_mid by done. cbn [mbind option_bind].
    rewrite store_mid by done. cbn [mbind option_bind].
    unfold load_s32. rewrite load_mid by done. done.
Qed.

Lemma verifyHeader_spec_witness :
  verifyHeader ([76; 83; 1; 1; 0; 0; 2; 8] ++ [9; 9]) LSAPI_BEGIN_REQUEST =
  Some (520, [76; 83; 1; 1; 8; 2; 0; 0] ++ [9; 9]).
Proof.
  apply (verifyHeader_spec 76 83 1 1 0 0 2 8 [9; 9] 1); [apply bytes_b_bytes; reflexivity|lia].
Defined.
