(* ===== verification/State.v ===== *)
(** * The process around the library: globals, kernel and the state monad

    C code that reads and writes the request, the library's static variables and
    the kernel is modelled by computations [M A]: functions from a state to an answer
    and a new state, or to [None] where C has undefined behaviour (an access
    outside an allocation, a read of an uninitialised slot).  The kernel answers
    system calls from scripts, so every theorem that quantifies over the state
    quantifies over the behaviour of the kernel. *)

From S2P Require Export Prelude Wire.

Open Scope Z_scope.

(** ** The kernel's side *)

Inductive errno := EINTR | EAGAIN | EPIPE | EOTHER.

#[export] Instance errno_eq_dec : EqDecision errno.
Proof. solve_decision. Defined.

(** The answers of [write]/[writev]: everything offered, a short count, an error.
    The flag of an event says whether SIGUSR1 was delivered during the call
    ([lsapi_siguser1] clears [g_running]). *)
Inductive wres := WAll | WN (n : Z) | WErr (e : errno).
Record wev := mkWev { w_stop : bool; w_res : wres }.

(** The answers of [read]: at most the bytes of a chunk (what does not fit stays
    for the next call), end of file, an error. *)
Inductive rres := RData (bs : list Z) | REof | RErr (e : errno).
Record rev := mkRev { r_stop : bool; r_res : rres }.

(** The answers of [close]. *)
Inductive cres := COk | CErr (e : errno).
Record cev := mkCev { c_stop : bool; c_res : cres }.

(** ** The library's globals *)

Definition LSAPI_STATE_IDLE : Z := 0.
Definition LSAPI_STATE_CONNECTED : Z := 1.
Definition LSAPI_STATE_ACCEPTING : Z := 2.

Record lsapi_child_status := mkChild {
  m_pid : Z;
  m_tmStart : Z;
  m_iKillSent : Z;
  m_inProcess : Z;
  m_state : Z;
  m_iReqCounter : Z;
  m_tmWaitBegin : Z;
  m_tmReqBegin : Z;
  m_tmLastCheckPoint : Z
}.

Definition set_m_pid (v : Z) (r : lsapi_child_status) : lsapi_child_status :=
  mkChild v (m_tmStart r) (m_iKillSent r) (m_inProcess r) (m_state r) (m_iReqCounter r)
     (m_tmWaitBegin r) (m_tmReqBegin r) (m_tmLastCheckPoint r).
Definition set_m_tmStart (v : Z) (r : lsapi_child_status) : lsapi_child_status :=
  mkChild (m_pid r) v (m_iKillSent r) (m_inProcess r) (m_state r) (m_iReqCounter r)
     (m_tmWaitBegin r) (m_tmReqBegin r) (m_tmLastCheckPoint r).
Definition set_m_iKillSent (v : Z) (r : lsapi_child_status) : lsapi_child_status :=
  mkChild (m_pid r) (m_tmStart r) v (m_inProcess r) (m_state r) (m_iReqCounter r)
     (m_tmWaitBegin r) (m_tmReqBegin r) (m_tmLastCheckPoint r).
Definition set_m_inProcess (v : Z) (r : lsapi_child_status) : lsapi_child_status :=
  mkChild (m_pid r) (m_tmStart r) (m_iKillSent r) v (m_state r) (m_iReqCounter r)
     (m_tmWaitBegin r) (m_tmReqBegin r) (m_tmLastCheckPoint r).
Definition set_m_state (v : Z) (r : lsapi_child_status) : lsapi_child_status :=
  mkChild (m_pid r) (m_tmStart r) (m_iKillSent r) (m_inProcess r) v (m_iReqCounter r)
     (m_tmWaitBegin r) (m_tmReqBegin r) (m_tmLastCheckPoint r).
Definition set_m_iReqCounter (v : Z) (r : lsapi_child_status) : lsapi_child_status :=
  mkChild (m_pid r) (m_tmStart r) (m_iKillSent r) (m_inProcess r) (m_state r) v
     (m_tmWaitBegin r) (m_tmReqBegin r) (m_tmLastCheckPoint r).
Definition set_m_tmWaitBegin (v : Z) (r : lsapi_child_status) : lsapi_child_status :=
  mkChild (m_pid r) (m_tmStart r) (m_iKillSent r) (m_inProcess r) (m_state r) (m_iReqCounter r)
     v (m_tmReqBegin r) (m_tmLastCheckPoint r).
Definition set_m_tmReqBegin (v : Z) (r : lsapi_child_status) : lsapi_child_status :=
  mkChild (m_pid r) (m_tmStart r) (m_iKillSent r) (m_inProcess r) (m_state r) (m_iReqCounter r)
     (m_tmWaitBegin r) v (m_tmLastCheckPoint r).
Definition set_m_tmLastCheckPoint (v : Z) (r : lsapi_child_status) : lsapi_child_status :=
  mkChild (m_pid r) (m_tmStart r) (m_iKillSent r) (m_inProcess r) (m_state r) (m_iReqCounter r)
     (m_tmWaitBegin r) (m_tmReqBegin r) v.

(** The system calls that change who the process is. *)
Inductive id_call :=
| CallEnter (uid : Z)       (* lve_enter *)
| CallJail (uid : Z)        (* jail of liblve *)
| CallSetgid (gid : Z)
| CallInitgroups (gid : Z)
| CallSetgroups (gid : Z)
| CallChroot (path : list Z)
| CallSetuid (uid : Z).

(** [realpath]: the resolved path, or an error (tolerated: ENOENT or EACCES) and what
    the buffer then holds. *)
Inductive realpath_res := RpOk (path : list Z) | RpErr (tolerated : bool) (left : list Z).

(** The statics of the suEXEC code and the answers of the kernel to it. *)
Record cred := mkCred {
  s_defaultUid : Z;
  s_defaultGid : Z;
  s_enable_lve : Z;
  s_lve : bool;
  fp_lve_jail : bool;
  k_getpwuid : Z -> option Z;  (* the primary group of a user *)
  k_ids : list Z;  (* answers of the calls below; exhausted: 0 *)
  k_id_calls : list id_call;  (* the calls made *)
  k_getcwd : option (list Z);
  k_realpath : list Z -> realpath_res;
  k_open : list Z -> Z;
  k_perror : list Z -> list Z  (* the text of an error message: ids, strerror *)
}.

Definition set_s_default (uid gid : Z) (c : cred) : cred :=
  mkCred uid gid (s_enable_lve c) (s_lve c) (fp_lve_jail c) (k_getpwuid c) (k_ids c) (k_id_calls c)
    (k_getcwd c) (k_realpath c) (k_open c) (k_perror c).
Definition set_k_ids (v : list Z) (c : cred) : cred :=
  mkCred (s_defaultUid c) (s_defaultGid c) (s_enable_lve c) (s_lve c) (fp_lve_jail c) (k_getpwuid c) v
    (k_id_calls c) (k_getcwd c) (k_realpath c) (k_open c) (k_perror c).
Definition set_k_id_calls (v : list id_call) (c : cred) : cred :=
  mkCred (s_defaultUid c) (s_defaultGid c) (s_enable_lve c) (s_lve c) (fp_lve_jail c) (k_getpwuid c)
    (k_ids c) v (k_getcwd c) (k_realpath c) (k_open c) (k_perror c).

(** [accept]: a connection (from an IP peer or a local one), a retry, an error. *)
Inductive accept_res := AccConn (fd : Z) (inet : bool) | AccRetry | AccErr.

(** The statics the request code uses, the scripts of the kernel and what it was sent. *)
Record sys := mkSys {
  g_running : bool;
  s_skip_write : bool;
  s_busy_workers : option Z;  (* the shared counter, None when the pointer is NULL *)
  s_worker_status : option lsapi_child_status;
  s_stderr_log_path : bool;  (* a log path is set *)
  s_uid : Z;
  s_secret : list Z;  (* 24 bytes *)
  s_accept_notify : bool;
  s_schedule_notify : bool;
  s_notify_scheduled : bool;
  s_notified_pid : bool;
  k_reads : list rev;  (* exhausted: end of file *)
  k_writes : list wev;  (* exhausted: everything is accepted *)
  k_closes : list cev;  (* exhausted: success *)
  k_allocs : list bool;  (* exhausted: success *)
  k_junk : nat -> Z;  (* the contents of fresh memory *)
  k_sent : list (Z * list Z);  (* descriptor and bytes of every accepted write *)
  k_closed : list Z;  (* descriptors closed *)
  s_cred : cred;
  k_accepts : list accept_res  (* exhausted: an error *)
}.

Definition set_g_running (v : bool) (r : sys) : sys :=
  mkSys v (s_skip_write r) (s_busy_workers r) (s_worker_status r) (s_stderr_log_path r)
     (s_uid r) (s_secret r) (s_accept_notify r) (s_schedule_notify r) (s_notify_scheduled r)
     (s_notified_pid r) (k_reads r) (k_writes r) (k_closes r) (k_allocs r) (k_junk r) (k_sent r)
     (k_closed r) (s_cred r) (k_accepts r).
Definition set_s_skip_write (v : bool) (r : sys) : sys :=
  mkSys (g_running r) v (s_busy_workers r) (s_worker_status r) (s_stderr_log_path r) (s_uid r)
     (s_secret r) (s_accept_notify r) (s_schedule_notify r) (s_notify_scheduled r)
     (s_notified_pid r) (k_reads r) (k_writes r) (k_closes r) (k_allocs r) (k_junk r) (k_sent r)
     (k_closed r) (s_cred r) (k_accepts r).
Definition set_s_busy_workers (v : option Z) (r : sys) : sys :=
  mkSys (g_running r) (s_skip_write r) v (s_worker_status r) (s_stderr_log_path r) (s_uid r)
     (s_secret r) (s_accept_notify r) (s_schedule_notify r) (s_notify_scheduled r)
     (s_notified_pid r) (k_reads r) (k_writes r) (k_closes r) (k_allocs r) (k_junk r) (k_sent r)
     (k_closed r) (s_cred r) (k_accepts r).
Definition set_s_worker_status (v : option lsapi_child_status) (r : sys) : sys :=
  mkSys (g_running r) (s_skip_write r) (s_busy_workers r) v (s_stderr_log_path r) (s_uid r)
     (s_secret r) (s_accept_notify r) (s_schedule_notify r) (s_notify_scheduled r)
     (s_notified_pid r) (k_reads r) (k_writes r) (k_closes r) (k_allocs r) (k_junk r) (k_sent r)
     (k_closed r) (s_cred r) (k_accepts r).
Definition set_s_stderr_log_path (v : bool) (r : sys) : sys :=
  mkSys (g_running r) (s_skip_write r) (s_busy_workers r) (s_worker_status r) v (s_uid r)
     (s_secret r) (s_accept_notify r) (s_schedule_notify r) (s_notify_scheduled r)
     (s_notified_pid r) (k_reads r) (k_writes r) (k_closes r) (k_allocs r) (k_junk r) (k_sent r)
     (k_closed r) (s_cred r) (k_accepts r).
Definition set_s_uid (v : Z) (r : sys) : sys :=
  mkSys (g_running r) (s_skip_write r) (s_busy_workers r) (s_worker_status r)
     (s_stderr_log_path r) v (s_secret r) (s_accept_notify r) (s_schedule_notify r)
     (s_notify_scheduled r) (s_notified_pid r) (k_reads r) (k_writes r) (k_closes r)
     (k_allocs r) (k_junk r) (k_sent r) (k_closed r) (s_cred r) (k_accepts r).
Definition set_s_secret (v : list Z) (r : sys) : sys :=
  mkSys (g_running r) (s_skip_write r) (s_busy_workers r) (s_worker_status r)
     (s_stderr_log_path r) (s_uid r) v (s_accept_notify r) (s_schedule_notify r)
     (s_notify_scheduled r) (s_notified_pid r) (k_reads r) (k_writes r) (k_closes r)
     (k_allocs r) (k_junk r) (k_sent r) (k_closed r) (s_cred r) (k_accepts r).
Definition set_s_accept_notify (v : bool) (r : sys) : sys :=
  mkSys (g_running r) (s_skip_write r) (s_busy_workers r) (s_worker_status r)
     (s_stderr_log_path r) (s_uid r) (s_secret r) v (s_schedule_notify r) (s_notify_scheduled r)
     (s_notified_pid r) (k_reads r) (k_writes r) (k_closes r) (k_allocs r) (k_junk r) (k_sent r)
     (k_closed r) (s_cred r) (k_accepts r).
Definition set_s_schedule_notify (v : bool) (r : sys) : sys :=
  mkSys (g_running r) (s_skip_write r) (s_busy_workers r) (s_worker_status r)
     (s_stderr_log_path r) (s_uid r) (s_secret r) (s_accept_notify r) v (s_notify_scheduled r)
     (s_notified_pid r) (k_reads r) (k_writes r) (k_closes r) (k_allocs r) (k_junk r) (k_sent r)
     (k_closed r) (s_cred r) (k_accepts r).
Definition set_s_notify_scheduled (v : bool) (r : sys) : sys :=
  mkSys (g_running r) (s_skip_write r) (s_busy_workers r) (s_worker_status r)
     (s_stderr_log_path r) (s_uid r) (s_secret r) (s_accept_notify r) (s_schedule_notify r) v
     (s_notified_pid r) (k_reads r) (k_writes r) (k_closes r) (k_allocs r) (k_junk r) (k_sent r)
     (k_closed r) (s_cred r) (k_accepts r).
Definition set_s_notified_pid (v : bool) (r : sys) : sys :=
  mkSys (g_running r) (s_skip_write r) (s_busy_workers r) (s_worker_status r)
     (s_stderr_log_path r) (s_uid r) (s_secret r) (s_accept_notify r) (s_schedule_notify r)
     (s_notify_scheduled r) v (k_reads r) (k_writes r) (k_closes r) (k_allocs r) (k_junk r)
     (k_sent r) (k_closed r) (s_cred r) (k_accepts r).
Definition set_k_reads (v : list rev) (r : sys) : sys :=
  mkSys (g_running r) (s_skip_write r) (s_busy_workers r) (s_worker_status r)
     (s_stderr_log_path r) (s_uid r) (s_secret r) (s_accept_notify r) (s_schedule_notify r)
     (s_notify_scheduled r) (s_notified_pid r) v (k_writes r) (k_closes r) (k_allocs r)
     (k_junk r) (k_sent r) (k_closed r) (s_cred r) (k_accepts r).
Definition set_k_writes (v : list wev) (r : sys) : sys :=
  mkSys (g_running r) (s_skip_write r) (s_busy_workers r) (s_worker_status r)
     (s_stderr_log_path r) (s_uid r) (s_secret r) (s_accept_notify r) (s_schedule_notify r)
     (s_notify_scheduled r) (s_notified_pid r) (k_reads r) v (k_closes r) (k_allocs r)
     (k_junk r) (k_sent r) (k_closed r) (s_cred r) (k_accepts r).
Definition set_k_closes (v : list cev) (r : sys) : sys :=
  mkSys (g_running r) (s_skip_write r) (s_busy_workers r) (s_worker_status r)
     (s_stderr_log_path r) (s_uid r) (s_secret r) (s_accept_notify r) (s_schedule_notify r)
     (s_notify_scheduled r) (s_notified_pid r) (k_reads r) (k_writes r) v (k_allocs r)
     (k_junk r) (k_sent r) (k_closed r) (s_cred r) (k_accepts r).
Definition set_k_allocs (v : list bool) (r : sys) : sys :=
  mkSys (g_running r) (s_skip_write r) (s_busy_workers r) (s_worker_status r)
     (s_stderr_log_path r) (s_uid r) (s_secret r) (s_accept_notify r) (s_schedule_notify r)
     (s_notify_scheduled r) (s_notified_pid r) (k_reads r) (k_writes r) (k_closes r) v
     (k_junk r) (k_sent r) (k_closed r) (s_cred r) (k_accepts r).
Definition set_k_junk (v : nat -> Z) (r : sys) : sys :=
  mkSys (g_running r) (s_skip_write r) (s_busy_workers r) (s_worker_status r)
     (s_stderr_log_path r) (s_uid r) (s_secret r) (s_accept_notify r) (s_schedule_notify r)
     (s_notify_scheduled r) (s_notified_pid r) (k_reads r) (k_writes r) (k_closes r)
     (k_allocs r) v (k_sent r) (k_closed r) (s_cred r) (k_accepts r).
Definition set_k_sent (v : list (Z * list Z)) (r : sys) : sys :=
  mkSys (g_running r) (s_skip_write r) (s_busy_workers r) (s_worker_status r)
     (s_stderr_log_path r) (s_uid r) (s_secret r) (s_accept_notify r) (s_schedule_notify r)
     (s_notify_scheduled r) (s_notified_pid r) (k_reads r) (k_writes r) (k_closes r)
     (k_allocs r) (k_junk r) v (k_closed r) (s_cred r) (k_accepts r).
Definition set_k_closed (v : list Z) (r : sys) : sys :=
  mkSys (g_running r) (s_skip_write r) (s_busy_workers r) (s_worker_status r)
     (s_stderr_log_path r) (s_uid r) (s_secret r) (s_accept_notify r) (s_schedule_notify r)
     (s_notify_scheduled r) (s_notified_pid r) (k_reads r) (k_writes r) (k_closes r)
     (k_allocs r) (k_junk r) (k_sent r) v (s_cred r) (k_accepts r).
Definition set_s_cred (v : cred) (r : sys) : sys :=
  mkSys (g_running r) (s_skip_write r) (s_busy_workers r) (s_worker_status r)
     (s_stderr_log_path r) (s_uid r) (s_secret r) (s_accept_notify r) (s_schedule_notify r)
     (s_notify_scheduled r) (s_notified_pid r) (k_reads r) (k_writes r) (k_closes r) (k_allocs
     r) (k_junk r) (k_sent r) (k_closed r) v (k_accepts r).
Definition set_k_accepts (v : list accept_res) (r : sys) : sys :=
  mkSys (g_running r) (s_skip_write r) (s_busy_workers r) (s_worker_status r)
     (s_stderr_log_path r) (s_uid r) (s_secret r) (s_accept_notify r) (s_schedule_notify r)
     (s_notify_scheduled r) (s_notified_pid r) (k_reads r) (k_writes r) (k_closes r) (k_allocs
     r) (k_junk r) (k_sent r) (k_closed r) (s_cred r) v.

(** ** The request structure of lsapilib.h

    The pointers of the C structure that point into one of its buffers are offsets;
    the end pointers are the lengths of the lists.  What a struct iovec points to is
    named by the object it was made from, and its bytes are looked up when they are
    written, as the kernel does; [IovRespHeaderBuf] carries the generation of the
    header buffer, since a realloc leaves older pointers dangling. *)

Inductive iov_obj :=
| IovRespHeader                   (* &m_respHeader, with m_respHeaderLen behind it *)
| IovRespHeaderBuf (gen : nat)    (* m_pRespHeaderBuf *)
| IovPkt (i : nat)                (* &m_respPktHeader[i] *)
| IovRespBuf                      (* m_pRespBuf *)
| IovUser (buf : list Z)          (* memory of the caller *)
| IovFinishClose.                 (* finish_close *)

Record iovec := mkIov { iov_obj_of : iov_obj; iov_off : Z; iov_len : Z }.

Record LSAPI_key_value_pair := mkKV { pKey : Z; pValue : Z; keyLen : Z; valLen : Z }.

(** The response half of [LSAPI_Request]. *)
Record resp_out := mkOut {
  m_pRespBuf : list Z;
  m_pRespBufPos : Z;
  m_pRespHeaderBuf : list Z;
  m_pRespHeaderBufPos : Z;
  m_respHeaderGen : nat;  (* number of reallocs *)
  m_pIovec : list (option iovec);  (* None: never written *)
  m_pIovecCur : Z;
  m_pIovecToWrite : Z;
  m_totalLen : Z;
  m_respPktHeader : list lsapi_packet_header;
  m_pktHeader : lsapi_packet_header;  (* m_respHeader.m_pktHeader *)
  m_cntHeaders : Z;
  m_status : Z;
  m_respHeaderLen : list Z  (* shorts *)
}.

Definition set_m_pRespBuf (v : list Z) (r : resp_out) : resp_out :=
  mkOut v (m_pRespBufPos r) (m_pRespHeaderBuf r) (m_pRespHeaderBufPos r) (m_respHeaderGen r)
     (m_pIovec r) (m_pIovecCur r) (m_pIovecToWrite r) (m_totalLen r) (m_respPktHeader r)
     (m_pktHeader r) (m_cntHeaders r) (m_status r) (m_respHeaderLen r).
Definition set_m_pRespBufPos (v : Z) (r : resp_out) : resp_out :=
  mkOut (m_pRespBuf r) v (m_pRespHeaderBuf r) (m_pRespHeaderBufPos r) (m_respHeaderGen r)
     (m_pIovec r) (m_pIovecCur r) (m_pIovecToWrite r) (m_totalLen r) (m_respPktHeader r)
     (m_pktHeader r) (m_cntHeaders r) (m_status r) (m_respHeaderLen r).
Definition set_m_pRespHeaderBuf (v : list Z) (r : resp_out) : resp_out :=
  mkOut (m_pRespBuf r) (m_pRespBufPos r) v (m_pRespHeaderBufPos r) (m_respHeaderGen r)
     (m_pIovec r) (m_pIovecCur r) (m_pIovecToWrite r) (m_totalLen r) (m_respPktHeader r)
     (m_pktHeader r) (m_cntHeaders r) (m_status r) (m_respHeaderLen r).
Definition set_m_pRespHeaderBufPos (v : Z) (r : resp_out) : resp_out :=
  mkOut (m_pRespBuf r) (m_pRespBufPos r) (m_pRespHeaderBuf r) v (m_respHeaderGen r) (m_pIovec r)
     (m_pIovecCur r) (m_pIovecToWrite r) (m_totalLen r) (m_respPktHeader r) (m_pktHeader r)
     (m_cntHeaders r) (m_status r) (m_respHeaderLen r).
Definition set_m_respHeaderGen (v : nat) (r : resp_out) : resp_out :=
  mkOut (m_pRespBuf r) (m_pRespBufPos r) (m_pRespHeaderBuf r) (m_pRespHeaderBufPos r) v
     (m_pIovec r) (m_pIovecCur r) (m_pIovecToWrite r) (m_totalLen r) (m_respPktHeader r)
     (m_pktHeader r) (m_cntHeaders r) (m_status r) (m_respHeaderLen r).
Definition set_m_pIovec (v : list (option iovec)) (r : resp_out) : resp_out :=
  mkOut (m_pRespBuf r) (m_pRespBufPos r) (m_pRespHeaderBuf r) (m_pRespHeaderBufPos r)
     (m_respHeaderGen r) v (m_pIovecCur r) (m_pIovecToWrite r) (m_totalLen r)
     (m_respPktHeader r) (m_pktHeader r) (m_cntHeaders r) (m_status r) (m_respHeaderLen r).
Definition set_m_pIovecCur (v : Z) (r : resp_out) : resp_out :=
  mkOut (m_pRespBuf r) (m_pRespBufPos r) (m_pRespHeaderBuf r) (m_pRespHeaderBufPos r)
     (m_respHeaderGen r) (m_pIovec r) v (m_pIovecToWrite r) (m_totalLen r) (m_respPktHeader r)
     (m_pktHeader r) (m_cntHeaders r) (m_status r) (m_respHeaderLen r).
Definition set_m_pIovecToWrite (v : Z) (r : resp_out) : resp_out :=
  mkOut (m_pRespBuf r) (m_pRespBufPos r) (m_pRespHeaderBuf r) (m_pRespHeaderBufPos r)
     (m_respHeaderGen r) (m_pIovec r) (m_pIovecCur r) v (m_totalLen r) (m_respPktHeader r)
     (m_pktHeader r) (m_cntHeaders r) (m_status r) (m_respHeaderLen r).
Definition set_m_totalLen (v : Z) (r : resp_out) : resp_out :=
  mkOut (m_pRespBuf r) (m_pRespBufPos r) (m_pRespHeaderBuf r) (m_pRespHeaderBufPos r)
     (m_respHeaderGen r) (m_pIovec r) (m_pIovecCur r) (m_pIovecToWrite r) v (m_respPktHeader r)
     (m_pktHeader r) (m_cntHeaders r) (m_status r) (m_respHeaderLen r).
Definition set_m_respPktHeader (v : list lsapi_packet_header) (r : resp_out) : resp_out :=
  mkOut (m_pRespBuf r) (m_pRespBufPos r) (m_pRespHeaderBuf r) (m_pRespHeaderBufPos r)
     (m_respHeaderGen r) (m_pIovec r) (m_pIovecCur r) (m_pIovecToWrite r) (m_totalLen r) v
     (m_pktHeader r) (m_cntHeaders r) (m_status r) (m_respHeaderLen r).
Definition set_m_pktHeader (v : lsapi_packet_header) (r : resp_out) : resp_out :=
  mkOut (m_pRespBuf r) (m_pRespBufPos r) (m_pRespHeaderBuf r) (m_pRespHeaderBufPos r)
     (m_respHeaderGen r) (m_pIovec r) (m_pIovecCur r) (m_pIovecToWrite r) (m_totalLen r)
     (m_respPktHeader r) v (m_cntHeaders r) (m_status r) (m_respHeaderLen r).
Definition set_m_cntHeaders (v : Z) (r : resp_out) : resp_out :=
  mkOut (m_pRespBuf r) (m_pRespBufPos r) (m_pRespHeaderBuf r) (m_pRespHeaderBufPos r)
     (m_respHeaderGen r) (m_pIovec r) (m_pIovecCur r) (m_pIovecToWrite r) (m_totalLen r)
     (m_respPktHeader r) (m_pktHeader r) v (m_status r) (m_respHeaderLen r).
Definition set_m_status (v : Z) (r : resp_out) : resp_out :=
  mkOut (m_pRespBuf r) (m_pRespBufPos r) (m_pRespHeaderBuf r) (m_pRespHeaderBufPos r)
     (m_respHeaderGen r) (m_pIovec r) (m_pIovecCur r) (m_pIovecToWrite r) (m_totalLen r)
     (m_respPktHeader r) (m_pktHeader r) (m_cntHeaders r) v (m_respHeaderLen r).
Definition set_m_respHeaderLen (v : list Z) (r : resp_out) : resp_out :=
  mkOut (m_pRespBuf r) (m_pRespBufPos r) (m_pRespHeaderBuf r) (m_pRespHeaderBufPos r)
     (m_respHeaderGen r) (m_pIovec r) (m_pIovecCur r) (m_pIovecToWrite r) (m_totalLen r)
     (m_respPktHeader r) (m_pktHeader r) (m_cntHeaders r) (m_status r) v.

(** The request half. *)
Record req_in := mkIn {
  m_pReqBuf : list Z;  (* m_reqBufSize is its length, m_pHeader its start *)
  m_pEnvList : list (option LSAPI_key_value_pair);
  m_pSpecialEnvList : list (option LSAPI_key_value_pair);
  m_pHeaderIndex : option Z;
  m_pUnknownHeader : option Z;
  m_pScriptFile : option Z;
  m_pScriptName : option Z;
  m_pQueryString : option Z;
  m_pHttpHeader : option Z;
  m_pRequestMethod : option Z;
  m_reqBodyLen : Z;
  m_reqBodyRead : Z;
  m_bufProcessed : Z;
  m_bufRead : Z
}.

Definition set_m_pReqBuf (v : list Z) (r : req_in) : req_in :=
  mkIn v (m_pEnvList r) (m_pSpecialEnvList r) (m_pHeaderIndex r) (m_pUnknownHeader r)
     (m_pScriptFile r) (m_pScriptName r) (m_pQueryString r) (m_pHttpHeader r)
     (m_pRequestMethod r) (m_reqBodyLen r) (m_reqBodyRead r) (m_bufProcessed r) (m_bufRead r).
Definition set_m_pEnvList (v : list (option LSAPI_key_value_pair)) (r : req_in) : req_in :=
  mkIn (m_pReqBuf r) v (m_pSpecialEnvList r) (m_pHeaderIndex r) (m_pUnknownHeader r)
     (m_pScriptFile r) (m_pScriptName r) (m_pQueryString r) (m_pHttpHeader r)
     (m_pRequestMethod r) (m_reqBodyLen r) (m_reqBodyRead r) (m_bufProcessed r) (m_bufRead r).
Definition set_m_pSpecialEnvList (v : list (option LSAPI_key_value_pair)) (r : req_in) : req_in :=
  mkIn (m_pReqBuf r) (m_pEnvList r) v (m_pHeaderIndex r) (m_pUnknownHeader r) (m_pScriptFile r)
     (m_pScriptName r) (m_pQueryString r) (m_pHttpHeader r) (m_pRequestMethod r)
     (m_reqBodyLen r) (m_reqBodyRead r) (m_bufProcessed r) (m_bufRead r).
Definition set_m_pHeaderIndex (v : option Z) (r : req_in) : req_in :=
  mkIn (m_pReqBuf r) (m_pEnvList r) (m_pSpecialEnvList r) v (m_pUnknownHeader r)
     (m_pScriptFile r) (m_pScriptName r) (m_pQueryString r) (m_pHttpHeader r)
     (m_pRequestMethod r) (m_reqBodyLen r) (m_reqBodyRead r) (m_bufProcessed r) (m_bufRead r).
Definition set_m_pUnknownHeader (v : option Z) (r : req_in) : req_in :=
  mkIn (m_pReqBuf r) (m_pEnvList r) (m_pSpecialEnvList r) (m_pHeaderIndex r) v (m_pScriptFile r)
     (m_pScriptName r) (m_pQueryString r) (m_pHttpHeader r) (m_pRequestMethod r)
     (m_reqBodyLen r) (m_reqBodyRead r) (m_bufProcessed r) (m_bufRead r).
Definition set_m_pScriptFile (v : option Z) (r : req_in) : req_in :=
  mkIn (m_pReqBuf r) (m_pEnvList r) (m_pSpecialEnvList r) (m_pHeaderIndex r)
     (m_pUnknownHeader r) v (m_pScriptName r) (m_pQueryString r) (m_pHttpHeader r)
     (m_pRequestMethod r) (m_reqBodyLen r) (m_reqBodyRead r) (m_bufProcessed r) (m_bufRead r).
Definition set_m_pScriptName (v : option Z) (r : req_in) : req_in :=
  mkIn (m_pReqBuf r) (m_pEnvList r) (m_pSpecialEnvList r) (m_pHeaderIndex r)
     (m_pUnknownHeader r) (m_pScriptFile r) v (m_pQueryString r) (m_pHttpHeader r)
     (m_pRequestMethod r) (m_reqBodyLen r) (m_reqBodyRead r) (m_bufProcessed r) (m_bufRead r).
Definition set_m_pQueryString (v : option Z) (r : req_in) : req_in :=
  mkIn (m_pReqBuf r) (m_pEnvList r) (m_pSpecialEnvList r) (m_pHeaderIndex r)
     (m_pUnknownHeader r) (m_pScriptFile r) (m_pScriptName r) v (m_pHttpHeader r)
     (m_pRequestMethod r) (m_reqBodyLen r) (m_reqBodyRead r) (m_bufProcessed r) (m_bufRead r).
Definition set_m_pHttpHeader (v : option Z) (r : req_in) : req_in :=
  mkIn (m_pReqBuf r) (m_pEnvList r) (m_pSpecialEnvList r) (m_pHeaderIndex r)
     (m_pUnknownHeader r) (m_pScriptFile r) (m_pScriptName r) (m_pQueryString r) v
     (m_pRequestMethod r) (m_reqBodyLen r) (m_reqBodyRead r) (m_bufProcessed r) (m_bufRead r).
Definition set_m_pRequestMethod (v : option Z) (r : req_in) : req_in :=
  mkIn (m_pReqBuf r) (m_pEnvList r) (m_pSpecialEnvList r) (m_pHeaderIndex r)
     (m_pUnknownHeader r) (m_pScriptFile r) (m_pScriptName r) (m_pQueryString r)
     (m_pHttpHeader r) v (m_reqBodyLen r) (m_reqBodyRead r) (m_bufProcessed r) (m_bufRead r).
Definition set_m_reqBodyLen (v : Z) (r : req_in) : req_in :=
  mkIn (m_pReqBuf r) (m_pEnvList r) (m_pSpecialEnvList r) (m_pHeaderIndex r)
     (m_pUnknownHeader r) (m_pScriptFile r) (m_pScriptName r) (m_pQueryString r)
     (m_pHttpHeader r) (m_pRequestMethod r) v (m_reqBodyRead r) (m_bufProcessed r) (m_bufRead r).
Definition set_m_reqBodyRead (v : Z) (r : req_in) : req_in :=
  mkIn (m_pReqBuf r) (m_pEnvList r) (m_pSpecialEnvList r) (m_pHeaderIndex r)
     (m_pUnknownHeader r) (m_pScriptFile r) (m_pScriptName r) (m_pQueryString r)
     (m_pHttpHeader r) (m_pRequestMethod r) (m_reqBodyLen r) v (m_bufProcessed r) (m_bufRead r).
Definition set_m_bufProcessed (v : Z) (r : req_in) : req_in :=
  mkIn (m_pReqBuf r) (m_pEnvList r) (m_pSpecialEnvList r) (m_pHeaderIndex r)
     (m_pUnknownHeader r) (m_pScriptFile r) (m_pScriptName r) (m_pQueryString r)
     (m_pHttpHeader r) (m_pRequestMethod r) (m_reqBodyLen r) (m_reqBodyRead r) v (m_bufRead r).
Definition set_m_bufRead (v : Z) (r : req_in) : req_in :=
  mkIn (m_pReqBuf r) (m_pEnvList r) (m_pSpecialEnvList r) (m_pHeaderIndex r)
     (m_pUnknownHeader r) (m_pScriptFile r) (m_pScriptName r) (m_pQueryString r)
     (m_pHttpHeader r) (m_pRequestMethod r) (m_reqBodyLen r) (m_reqBodyRead r)
     (m_bufProcessed r) v.

Record LSAPI_Request := mkReq {
  m_fdListen : Z;
  m_fd : Z;
  m_reqState : Z;
  m_in : req_in;
  m_out : resp_out;
  m_pAppData : Z
}.

Definition set_m_fdListen (v : Z) (r : LSAPI_Request) : LSAPI_Request :=
  mkReq v (m_fd r) (m_reqState r) (m_in r) (m_out r) (m_pAppData r).
Definition set_m_fd (v : Z) (r : LSAPI_Request) : LSAPI_Request :=
  mkReq (m_fdListen r) v (m_reqState r) (m_in r) (m_out r) (m_pAppData r).
Definition set_m_reqState (v : Z) (r : LSAPI_Request) : LSAPI_Request :=
  mkReq (m_fdListen r) (m_fd r) v (m_in r) (m_out r) (m_pAppData r).
Definition set_m_in (v : req_in) (r : LSAPI_Request) : LSAPI_Request :=
  mkReq (m_fdListen r) (m_fd r) (m_reqState r) v (m_out r) (m_pAppData r).
Definition set_m_out (v : resp_out) (r : LSAPI_Request) : LSAPI_Request :=
  mkReq (m_fdListen r) (m_fd r) (m_reqState r) (m_in r) v (m_pAppData r).
Definition set_m_pAppData (v : Z) (r : LSAPI_Request) : LSAPI_Request :=
  mkReq (m_fdListen r) (m_fd r) (m_reqState r) (m_in r) (m_out r) v.

(** The state of a computation: the request and the process around it. *)
Record st := mkSt {
  req : LSAPI_Request;
  os : sys
}.

Definition set_req (v : LSAPI_Request) (r : st) : st :=
  mkSt v (os r).
Definition set_os (v : sys) (r : st) : st :=
  mkSt (req r) v.

(** ** Computations *)

Definition M (A : Type) : Type := st -> option (A * st).

#[export] Instance M_ret : MRet M := fun A a s => Some (a, s).
#[export] Instance M_bind : MBind M := fun A B f m s =>
  match m s with Some (a, s') => f a s' | None => None end.

(** Undefined behaviour, and a partial access turned into one. *)
Definition ub {A} : M A := fun _ => None.
Definition lift {A} (o : option A) : M A := fun s => (fun a => (a, s)) <$> o.

Definition gets {A} (f : st -> A) : M A := fun s => Some (f s, s).
Definition modify (f : st -> st) : M unit := fun s => Some (tt, f s).

Definition get_req {A} (f : LSAPI_Request -> A) : M A := gets (fun s => f (req s)).
Definition get_in {A} (f : req_in -> A) : M A := gets (fun s => f (m_in (req s))).
Definition get_out {A} (f : resp_out -> A) : M A := gets (fun s => f (m_out (req s))).
Definition get_os {A} (f : sys -> A) : M A := gets (fun s => f (os s)).

Definition on_req (f : LSAPI_Request -> LSAPI_Request) (s : st) : st := set_req (f (req s)) s.
Definition on_in (f : req_in -> req_in) : st -> st := on_req (fun r => set_m_in (f (m_in r)) r).
Definition on_out (f : resp_out -> resp_out) : st -> st := on_req (fun r => set_m_out (f (m_out r)) r).
Definition on_os (f : sys -> sys) (s : st) : st := set_os (f (os s)) s.

Definition mod_req f : M unit := modify (on_req f).
Definition mod_in f : M unit := modify (on_in f).
Definition mod_out f : M unit := modify (on_out f).
Definition mod_os f : M unit := modify (on_os f).

(** Total correctness: the computation has a value and no undefined behaviour. *)
Definition wp {A} (m : M A) (Q : A -> st -> Prop) (s : st) : Prop :=
  match m s with Some (a, s') => Q a s' | None => False end.

#[global] Arguments wp : simpl never.

Lemma wp_ret {A} (a : A) Q s : Q a s -> wp (mret a) Q s.
Proof. done. Qed.
Lemma wp_bind {A B} (m : M A) (f : A -> M B) Q s :
  wp m (fun a s' => wp (f a) Q s') s -> wp (m ≫= f) Q s.
Proof. unfold wp, mbind, M_bind. destruct (m s) as [[a s']|]; done. Qed.
Lemma wp_bind_inv {A B} (m : M A) (f : A -> M B) Q s :
  wp (m ≫= f) Q s -> wp m (fun a s' => wp (f a) Q s') s.
Proof. unfold wp, mbind, M_bind. destruct (m s) as [[a s']|]; done. Qed.
Lemma wp_gets {A} (f : st -> A) Q s : Q (f s) s -> wp (gets f) Q s.
Proof. done. Qed.
Lemma wp_modify f Q s : Q tt (f s) -> wp (modify f) Q s.
Proof. done. Qed.
Lemma wp_lift {A} (o : option A) a Q s : o = Some a -> Q a s -> wp (lift o) Q s.
Proof. intros ->. done. Qed.
Lemma wp_mono {A} (m : M A) (Q R : A -> st -> Prop) s :
  wp m Q s -> (forall a s', Q a s' -> R a s') -> wp m R s.
Proof. unfold wp. destruct (m s) as [[a s']|]; auto. Qed.
Lemma wp_run {A} (m : M A) Q s : wp m Q s -> exists a s', m s = Some (a, s') /\ Q a s'.
Proof. unfold wp. destruct (m s) as [[a s']|]; [eauto|done]. Qed.

(** [wstep] executes the first step of a computation. *)
Ltac wstep :=
  lazymatch goal with
  | |- wp (mret _) _ _ => apply wp_ret
  | |- wp (mbind _ _) _ _ => apply wp_bind
  | |- wp (gets _) _ _ => apply wp_gets
  | |- wp (get_req _) _ _ => apply wp_gets
  | |- wp (get_in _) _ _ => apply wp_gets
  | |- wp (get_out _) _ _ => apply wp_gets
  | |- wp (get_os _) _ _ => apply wp_gets
  | |- wp (modify _) _ _ => apply wp_modify
  | |- wp (mod_req _) _ _ => apply wp_modify
  | |- wp (mod_in _) _ _ => apply wp_modify
  | |- wp (mod_out _) _ _ => apply wp_modify
  | |- wp (mod_os _) _ _ => apply wp_modify
  end; cbv beta.
Ltac wsteps := repeat wstep.

(** [fields s] names the fields of a state; [evaluate] computes the fields of the
    states a goal mentions; [run] executes steps. *)
Ltac fields s := destruct s as [[?fdl ?fd ?state ?inp [?rb ?rp ?hb ?hp ?gen ?vec ?cur ?to ?tot ?pks ?hdr ?cnt ?status ?lens] ?app] ?k].
Ltac eval_state s :=
  eval cbv beta iota zeta delta [
       on_req on_in on_out on_os set_m_pid set_m_tmStart set_m_iKillSent set_m_inProcess
       set_m_state set_m_iReqCounter set_m_tmWaitBegin set_m_tmReqBegin
       set_m_tmLastCheckPoint set_g_running set_s_skip_write set_s_busy_workers
       set_s_worker_status set_s_stderr_log_path set_s_uid set_s_secret set_s_accept_notify
       set_s_schedule_notify set_s_notify_scheduled set_s_notified_pid set_k_reads
       set_k_writes set_k_closes set_k_allocs set_k_junk set_k_sent set_k_closed set_s_cred set_k_accepts
       set_m_pRespBuf set_m_pRespBufPos set_m_pRespHeaderBuf set_m_pRespHeaderBufPos
       set_m_respHeaderGen set_m_pIovec set_m_pIovecCur set_m_pIovecToWrite set_m_totalLen
       set_m_respPktHeader set_m_pktHeader set_m_cntHeaders set_m_status set_m_respHeaderLen
       set_m_pReqBuf set_m_pEnvList set_m_pSpecialEnvList set_m_pHeaderIndex
       set_m_pUnknownHeader set_m_pScriptFile set_m_pScriptName set_m_pQueryString
       set_m_pHttpHeader set_m_pRequestMethod set_m_reqBodyLen set_m_reqBodyRead
       set_m_bufProcessed set_m_bufRead set_m_fdListen set_m_fd set_m_reqState set_m_in
       set_m_out set_m_pAppData set_req set_os m_pid m_tmStart m_iKillSent m_inProcess
       m_state m_iReqCounter m_tmWaitBegin m_tmReqBegin m_tmLastCheckPoint g_running
       s_skip_write s_busy_workers s_worker_status s_stderr_log_path s_uid s_secret
       s_accept_notify s_schedule_notify s_notify_scheduled s_notified_pid k_reads k_writes
       k_closes k_allocs k_junk k_sent k_closed s_cred k_accepts m_pRespBuf m_pRespBufPos m_pRespHeaderBuf
       m_pRespHeaderBufPos m_respHeaderGen m_pIovec m_pIovecCur m_pIovecToWrite m_totalLen
       m_respPktHeader m_pktHeader m_cntHeaders m_status m_respHeaderLen m_pReqBuf m_pEnvList
       m_pSpecialEnvList m_pHeaderIndex m_pUnknownHeader m_pScriptFile m_pScriptName
       m_pQueryString m_pHttpHeader m_pRequestMethod m_reqBodyLen m_reqBodyRead
       m_bufProcessed m_bufRead m_fdListen m_fd m_reqState m_in m_out m_pAppData req os
       iov_obj_of iov_off iov_len] in s.
Ltac evaluate :=
  lazymatch goal with
  | |- wp ?m ?Q ?s => let s' := eval_state s in change (wp m Q s')
  | |- ?Q ?s => let s' := eval_state s in change (Q s')
  end; cbn.
Ltac run := evaluate; repeat (wstep; evaluate).

(** [closed_tests] evaluates the comparisons of numerals. *)
Ltac closed_tests :=
  repeat match goal with
  | |- context [ ?a =? ?b ] =>
      let v := eval cbv in (a =? b) in
      lazymatch v with true => idtac | false => idtac end; change (a =? b) with v
  | |- context [ ?a <? ?b ] =>
      let v := eval cbv in (a <? b) in
      lazymatch v with true => idtac | false => idtac end; change (a <? b) with v
  | |- context [ ?a <=? ?b ] =>
      let v := eval cbv in (a <=? b) in
      lazymatch v with true => idtac | false => idtac end; change (a <=? b) with v
  end; cbn [negb andb orb]; cbv iota.

(** ** System calls *)

Definition signal_stop (stop : bool) : M unit :=
  if stop then mod_os (set_g_running false) else mret tt.

(** [write]: the bytes taken, or -1 with errno; a negative descriptor is EBADF. *)
Definition sys_write_ev (ev : wev) (fd : Z) (data : list Z) : M (Z * errno) :=
  signal_stop (w_stop ev) ;;
  if fd <? 0 then mret (-1, EOTHER) else
  let accept n :=
    mod_os (fun o => set_k_sent (k_sent o ++ [(fd, slice 0 n data)]) o) ;;
    mret (n, EOTHER) in
  match w_res ev with
  | WAll => accept (zlen data)
  | WN n => accept (Z.max 0 (Z.min n (zlen data)))
  | WErr e => mret (-1, e)
  end.

Definition next_write : M wev :=
  evs ← get_os k_writes;
  match evs with
  | [] => mret (mkWev false WAll)
  | ev :: evs => mod_os (set_k_writes evs) ;; mret ev
  end.

Definition sys_write (fd : Z) (data : list Z) : M (Z * errno) :=
  ev ← next_write; sys_write_ev ev fd data.

(** [read] of at most [len] bytes on one event; a count above SSIZE_MAX (a negative
    [len]) is refused, and a count of 0 reads nothing. *)
Definition sys_read_ev (ev : rev) (rest : list rev) (len : Z) : M (Z * errno * list Z) :=
  signal_stop (r_stop ev) ;;
  match r_res ev with
  | REof => mod_os (set_k_reads rest) ;; mret (0, EOTHER, [])
  | RErr e => mod_os (set_k_reads rest) ;; mret (-1, e, [])
  | RData bs =>
      let n := Z.min len (zlen bs) in
      let left := drop (Z.to_nat n) bs in
      mod_os (set_k_reads (match left with [] => rest | _ => mkRev false (RData left) :: rest end)) ;;
      mret (n, EOTHER, slice 0 n bs)
  end.

(** [close] on one event. *)
Definition sys_close_ev (ev : cev) (fd : Z) : M (Z * errno) :=
  signal_stop (c_stop ev) ;;
  match c_res ev with
  | COk => mod_os (fun o => set_k_closed (k_closed o ++ [fd]) o) ;; mret (0, EOTHER)
  | CErr e => mret (-1, e)
  end.

(** [realloc]/[malloc]: whether the kernel has the memory, and fresh contents. *)
Definition sys_alloc : M bool :=
  l ← get_os k_allocs;
  match l with
  | [] => mret true
  | b :: l => mod_os (set_k_allocs l) ;; mret b
  end.

Definition fresh {A} (junk : nat -> A) (n : Z) : list A := junk <$> seq 0 (Z.to_nat n).

(** The contents of a reallocated block: the old prefix, then fresh bytes. *)
Definition resized (junk : nat -> Z) (old : list Z) (size : Z) : list Z :=
  take (Z.to_nat size) (old ++ fresh junk (size - zlen old)).
