(* ===== verification/Conn.v ===== *)
(** * Connection primitives of lsapilib.c

    The system-call wrappers ([lsapi_read], [lsapi_close], [lsapi_writev]), the
    closing of a connection, the growing buffers and the life cycle of a request
    structure ([LSAPI_InitRequest], [LSAPI_Reset_r]). *)

From S2P Require Export State.

Open Scope Z_scope.

(** ** Wrappers of system calls *)

Definition is_eintr (e : errno) : bool := bool_decide (e = EINTR).
Definition is_eagain (e : errno) : bool := bool_decide (e = EAGAIN).

Fixpoint close_loop (evs : list cev) (fd : Z) : M Z :=
  match evs with
  | [] => mod_os (fun o => set_k_closed (k_closed o ++ [fd]) o) ;; mret 0
  | ev :: evs =>
      mod_os (set_k_closes evs) ;;
      '(ret, e) ← sys_close_ev ev fd;
      running ← get_os g_running;
      if (ret =? -1) && is_eintr e && running then close_loop evs fd else mret ret
  end.

Definition lsapi_close (fd : Z) : M Z := evs ← get_os k_closes; close_loop evs fd.

(** [__sync_fetch_and_sub(s_busy_workers, 1)] and friends, when the pointer is set. *)
Definition count_busy (d : Z) : M unit :=
  mod_os (fun o => set_s_busy_workers ((fun n => s32 (n + d)) <$> s_busy_workers o) o).
Definition worker_state (v : Z) : M unit :=
  mod_os (fun o => set_s_worker_status (set_m_state v <$> s_worker_status o) o).

Definition lsapi_close_connection : M unit :=
  fd ← get_req m_fd;
  if fd =? -1 then mret tt
  else
    lsapi_close fd ;;
    mod_req (set_m_fd (-1)) ;;
    count_busy (-1) ;;
    worker_state LSAPI_STATE_IDLE.

Fixpoint read_loop (evs : list rev) (len : Z) : M (Z * list Z) :=
  match evs with
  | [] => mret (0, [])
  | ev :: evs =>
      '(ret, e, bs) ← sys_read_ev ev evs len;
      running ← get_os g_running;
      if (ret =? -1) && is_eintr e && running then read_loop evs len else mret (ret, bs)
  end.

(** The answer of [read] and the bytes it put into the caller's buffer. *)
Definition lsapi_read (len : Z) : M (Z * list Z) :=
  if len <? 0 then mret (-1, [])
  else if len =? 0 then mret (0, [])
  else evs ← get_os k_reads; read_loop evs len.

(** ** Vectored output *)

Definition iov_obj_bytes (o : resp_out) (b : iov_obj) : option (list Z) :=
  match b with
  | IovRespHeader =>
      Some (pkt_bytes (m_pktHeader o) ++ le32 (m_cntHeaders o) ++ le32 (m_status o) ++
            concat (le16 <$> m_respHeaderLen o))
  | IovRespHeaderBuf g => if (g =? m_respHeaderGen o)%nat then Some (m_pRespHeaderBuf o) else None
  | IovPkt i => pkt_bytes <$> m_respPktHeader o !! i
  | IovRespBuf => Some (m_pRespBuf o)
  | IovUser b => Some b
  | IovFinishClose => Some (concat (pkt_bytes <$> finish_close))
  end.

Definition iov_bytes (o : resp_out) (v : iovec) : option (list Z) :=
  b ← iov_obj_bytes o (iov_obj_of v); load b (iov_off v) (iov_len v).

(** Slot [i] of an iovec array, when it exists and was written. *)
Definition iov_at (vec : list (option iovec)) (i : Z) : option iovec :=
  if 0 <=? i then mjoin (vec !! Z.to_nat i) else None.

(** What [writev(fd, vec + pos, n)] offers. *)
Fixpoint gather (o : resp_out) (vec : list (option iovec)) (pos : Z) (n : nat) : option (list Z) :=
  match n with
  | O => Some []
  | S n =>
      v ← iov_at vec pos;
      bs ← iov_bytes o v;
      rest ← gather o vec (pos + 1) n;
      Some (bs ++ rest)
  end.

(** The inner loop: [ret] bytes were taken; [*pVec] moves past the iovecs they
    cover and into the one they end in.  Every step moves the position, so a fuel of
    the array's length ends outside the array, which is undefined behaviour. *)
Fixpoint advance (fuel : nat) (vec : list (option iovec)) (pos ret : Z)
    : option (list (option iovec) * Z) :=
  if ret <=? 0 then Some (vec, pos)
  else
    match fuel with
    | O => None
    | S fuel =>
        v ← iov_at vec pos;
        if iov_len v <=? ret then advance fuel vec (pos + 1) (ret - iov_len v)
        else Some (<[Z.to_nat pos := Some (mkIov (iov_obj_of v) (iov_off v + ret) (iov_len v - ret))]> vec,
                   pos)
    end.

(** The outer loop.  The count [n] is the one [writev] was first called with: the
    code does not lower it when the position moves.  When the kernel's script is
    exhausted everything is accepted; a loop that would still go on then has no
    value. *)
Fixpoint writev_loop (evs : list wev) (fd : Z) (vec : list (option iovec))
    (pos : Z) (n : nat) (left totalLen : Z) : M (Z * (list (option iovec) * Z)) :=
  running ← get_os g_running;
  if negb ((0 <? left) && running) then mret (totalLen - left, (vec, pos))
  else
    o ← get_out id;
    data ← lift (gather o vec pos n);
    match evs with
    | [] =>
        '(ret, _) ← sys_write_ev (mkWev false WAll) fd data;
        if ret =? -1 then mret (ret, (vec, pos))
        else if left - ret <=? 0 then mret (totalLen - (left - ret), (vec, pos)) else ub
    | ev :: evs =>
        mod_os (set_k_writes evs) ;;
        '(ret, e) ← sys_write_ev ev fd data;
        if 0 <? ret then
          running ← get_os g_running;
          if (left - ret <=? 0) || negb running then mret (totalLen - (left - ret), (vec, pos))
          else
            '(vec, pos) ← lift (advance (length vec) vec pos ret);
            writev_loop evs fd vec pos n (left - ret) totalLen
        else if ret =? -1 then
          if is_eagain e then
            if 0 <? totalLen - left then mret (totalLen - left, (vec, pos)) else mret (-1, (vec, pos))
          else if negb (is_eintr e) then mret (ret, (vec, pos))
          else writev_loop evs fd vec pos n left totalLen
        else writev_loop evs fd vec pos n left totalLen
    end.

Definition lsapi_writev (fd : Z) (vec : list (option iovec)) (pos : Z) (count : nat) (totalLen : Z)
    : M (Z * (list (option iovec) * Z)) :=
  skip ← get_os s_skip_write;
  if skip : bool then mret (totalLen, (vec, pos))
  else
    evs ← get_os k_writes;
    writev_loop evs fd vec pos count totalLen totalLen.

(** ** Buffers *)

Definition allocateBuf (size : Z) : M Z :=
  ok ← sys_alloc;
  if (ok : bool) && (0 <=? size) then
    junk ← get_os k_junk;
    mod_in (fun i => set_m_pReqBuf (resized junk (m_pReqBuf i) size) i) ;;
    mret 0
  else mret (-1).

(** The offsets [m_pIovecCur] and [m_pIovecToWrite] survive the move of the array. *)
Definition allocateIovec (n : nat) : M Z :=
  ok ← sys_alloc;
  if ok : bool then
    mod_out (fun o => set_m_pIovec (take n (m_pIovec o ++ replicate (n - length (m_pIovec o)) None)) o) ;;
    mret 0
  else mret (-1).

Definition allocateRespHeaderBuf (size : Z) : M Z :=
  ok ← sys_alloc;
  if (ok : bool) && (0 <=? size) then
    junk ← get_os k_junk;
    mod_out (fun o => set_m_pRespHeaderBuf (resized junk (m_pRespHeaderBuf o) size) o) ;;
    mod_out (fun o => set_m_respHeaderGen (S (m_respHeaderGen o)) o) ;;
    mret 0
  else mret (-1).

(** ** Life cycle *)

Definition LSAPI_RESP_BUF_SIZE : Z := 8192.
Definition LSAPI_INIT_RESP_HEADER_LEN : Z := 4096.
Definition null_pkt : lsapi_packet_header := mkPkt 0 0 0 0 0.

(** [memset(pReq, 0, sizeof(LSAPI_Request))]. *)
Definition zero_out : resp_out :=
  mkOut [] 0 [] 0 0 [] 0 0 0 (replicate 5 null_pkt) null_pkt 0 0 (replicate 1000 0).
Definition zero_in : req_in := mkIn [] [] [] None None None None None None None 0 0 0 0.
Definition zero_req : LSAPI_Request := mkReq 0 0 0 zero_in zero_out 0.

(** [LSAPI_InitRequest] for a descriptor other than standard input (for descriptor 0
    the code first moves it with dup/open/dup2); [pipe] is the answer of [isPipe]. *)
Definition LSAPI_InitRequest (fd : Z) (pipe : bool) : M Z :=
  mod_req (fun _ => zero_req) ;;
  r ← allocateIovec 16;
  if r =? -1 then mret (-1)
  else
    ok ← sys_alloc;
    if negb ok then mret (-1)
    else
      junk ← get_os k_junk;
      mod_out (fun o => set_m_pRespBufPos 0 (set_m_pRespBuf (fresh junk LSAPI_RESP_BUF_SIZE) o)) ;;
      mod_out (fun o => set_m_pIovecCur 1 (set_m_pIovecToWrite 1 o)) ;;
      r ← allocateRespHeaderBuf LSAPI_INIT_RESP_HEADER_LEN;
      if r =? -1 then mret (-1)
      else
        (if pipe then mod_req (fun r => set_m_fd fd (set_m_fdListen (-1) r))
         else mod_req (fun r => set_m_fd (-1) (set_m_fdListen fd r))) ;;
        mret 0.

Definition LSAPI_Is_Listen_r (r : LSAPI_Request) : bool := negb (m_fdListen r =? -1).

(** The memset of [LSAPI_Reset_r] runs from [m_pHeaderIndex] to [m_respHeaderLen]:
    it clears the parsed request, the body counters, the state, the packet headers
    and the response header, and keeps the buffers, the environment lists and the
    recorded header lengths. *)
Definition reset_in (i : req_in) : req_in :=
  mkIn (m_pReqBuf i) (m_pEnvList i) (m_pSpecialEnvList i) None None None None None None None 0 0 0 0.

Definition reset_out (o : resp_out) : resp_out :=
  mkOut (m_pRespBuf o) (m_pRespBufPos o) (m_pRespHeaderBuf o) (m_pRespHeaderBufPos o)
    (m_respHeaderGen o) (m_pIovec o) (m_pIovecCur o) (m_pIovecToWrite o)
    0 (replicate 5 null_pkt) null_pkt 0 0 (m_respHeaderLen o).

Definition LSAPI_Reset_r : M unit :=
  mod_out (fun o => set_m_pRespBufPos 0 o) ;;
  mod_out (fun o => set_m_pIovecCur 1 (set_m_pIovecToWrite 1 o)) ;;
  mod_out (fun o => set_m_pRespHeaderBufPos 0 o) ;;
  mod_out reset_out ;;
  mod_in reset_in ;;
  mod_req (set_m_reqState 0).

(** ** Vectored output: what a short count costs *)

(** The bytes of the short counts a kernel still has in store. *)
Fixpoint short_total (evs : list wev) : Z :=
  match evs with
  | [] => 0
  | ev :: evs => match w_res ev with WN k => Z.max 0 k | _ => 0 end + short_total evs
  end.

Lemma short_total_nonneg evs : 0 <= short_total evs.
Proof. induction evs as [|[st [| |]] evs IH]; cbn [short_total w_res]; lia. Qed.

Lemma gather_S o vec pos n P :
  gather o vec pos (S n) = Some P ->
  exists v bs rest, iov_at vec pos = Some v /\ iov_bytes o v = Some bs /\
    gather o vec (pos + 1) n = Some rest /\ P = bs ++ rest.
Proof.
  cbn [gather]. intros (v & Hv & H)%bind_Some. apply bind_Some in H as (bs & Hb & H).
  apply bind_Some in H as (rest & Hr & [= <-]). eauto 8.
Qed.

Lemma iov_at_lookup vec pos v :
  iov_at vec pos = Some v <-> 0 <= pos /\ vec !! Z.to_nat pos = Some (Some v).
Proof.
  unfold iov_at. destruct (Z.leb_spec 0 pos); split; intros HH; [..|done|lia].
  - destruct (vec !! Z.to_nat pos) as [[w|]|]; cbn in HH; try done. simplify_eq. auto.
  - destruct HH as [_ ->]. done.
Qed.

Lemma iov_at_insert_ne vec pos i x :
  0 <= pos -> i <> pos -> iov_at (<[Z.to_nat pos := x]> vec) i = iov_at vec i.
Proof.
  intros. unfold iov_at. destruct (Z.leb_spec 0 i); [|done].
  rewrite list_lookup_insert_ne by lia. done.
Qed.

Lemma gather_insert_after o vec pos i n x :
  0 <= pos < i -> gather o (<[Z.to_nat pos := x]> vec) i n = gather o vec i n.
Proof.
  revert i. induction n as [|n IH]; intros i Hi; cbn [gather]; [done|].
  rewrite iov_at_insert_ne by lia. rewrite IH by lia. done.
Qed.

Lemma iov_bytes_inv o v bs :
  iov_bytes o v = Some bs ->
  exists b, iov_obj_bytes o (iov_obj_of v) = Some b /\ 0 <= iov_off v /\ 0 <= iov_len v /\
    iov_off v + iov_len v <= zlen b /\ bs = slice (iov_off v) (iov_len v) b.
Proof.
  unfold iov_bytes. intros (b & Hb & Hl)%bind_Some. apply load_inv in Hl as (?&?&?&->). eauto 8.
Qed.

Lemma iov_bytes_zlen o v bs : iov_bytes o v = Some bs -> zlen bs = iov_len v.
Proof. intros (b&?&?&?&?&->)%iov_bytes_inv. apply zlen_slice; lia. Qed.

(** Taking [d] bytes off an iovec leaves the rest of its bytes. *)
Lemma iov_bytes_advance o v bs d :
  iov_bytes o v = Some bs -> 0 <= d < iov_len v ->
  iov_bytes o (mkIov (iov_obj_of v) (iov_off v + d) (iov_len v - d)) = Some (drop (Z.to_nat d) bs).
Proof.
  intros (b&Hb&?&?&?&->)%iov_bytes_inv Hd. unfold iov_bytes. cbn [iov_obj_of iov_off iov_len].
  rewrite Hb. cbn [mbind option_bind]. rewrite load_Some by lia. f_equal.
  replace (iov_len v) with (d + (iov_len v - d)) at 2 by lia.
  rewrite slice_split by lia. rewrite drop_app_length'; [done|].
  unfold slice, zlen in *. rewrite length_take, length_drop. lia.
Qed.

(** A short count that ends inside the first iovec leaves a vector that still
    offers exactly the bytes not yet taken. *)
Lemma advance_first o vec pos n P v ret :
  gather o vec pos (S n) = Some P -> iov_at vec pos = Some v -> 0 < ret < iov_len v ->
  exists v', let vec' := <[Z.to_nat pos := Some v']> vec in
    advance (length vec) vec pos ret = Some (vec', pos) /\ iov_at vec' pos = Some v' /\
    iov_len v' = iov_len v - ret /\ gather o vec' pos (S n) = Some (drop (Z.to_nat ret) P).
Proof.
  intros Hg Hv Hret. apply gather_S in Hg as (v0 & bs & rest & Hv0 & Hb & Hr & ->).
  rewrite Hv in Hv0. injection Hv0 as <-.
  pose proof (iov_bytes_zlen _ _ _ Hb) as Hz.
  exists (mkIov (iov_obj_of v) (iov_off v + ret) (iov_len v - ret)). cbn zeta.
  pose proof Hv as [Hp Hl]%iov_at_lookup. pose proof (lookup_lt_Some _ _ _ Hl) as Hlt.
  assert (iov_at (<[Z.to_nat pos := Some (mkIov (iov_obj_of v) (iov_off v + ret) (iov_len v - ret))]> vec)
            pos = Some (mkIov (iov_obj_of v) (iov_off v + ret) (iov_len v - ret))) as Hat.
  { apply iov_at_lookup. split; [done|]. by apply list_lookup_insert_eq. }
  split; [|split; [|split]]; [| |done|].
  - destruct (length vec) as [|k]; [lia|]. cbn [advance].
    rewrite (proj2 (Z.leb_gt _ _)) by lia. rewrite Hv. cbn [mbind option_bind].
    by rewrite (proj2 (Z.leb_gt _ _)) by lia.
  - done.
  - cbn [gather]. rewrite Hat. cbn [mbind option_bind].
    rewrite (iov_bytes_advance o v bs ret) by (done || lia). cbn [mbind option_bind].
    rewrite gather_insert_after by lia. rewrite Hr. cbn. f_equal.
    rewrite drop_app_le; [done|]. unfold zlen in Hz. lia.
Qed.

(** [wrote fd w s s']: between [s] and [s'] exactly the bytes [w] went out on [fd],
    and nothing else moved but the kernel's script and the running flag. *)
Record wrote (fd : Z) (w : list Z) (s s' : st) : Prop := {
  wrote_req : req s' = req s;
  wrote_sent : exists chunks, concat chunks = w /\
    k_sent (os s') = k_sent (os s) ++ (pair fd <$> chunks);
  wrote_evs : k_writes (os s') `suffix_of` k_writes (os s);
  wrote_frame : os s' = set_g_running (g_running (os s')) (set_k_writes (k_writes (os s'))
                          (set_k_sent (k_sent (os s')) (os s)))
}.

Lemma wrote_refl fd s : wrote fd [] s s.
Proof.
  split; [done| |done|by destruct s as [? []]]. exists []. split; [done|]. by rewrite app_nil_r.
Qed.

Lemma wrote_trans fd w1 w2 s1 s2 s3 :
  wrote fd w1 s1 s2 -> wrote fd w2 s2 s3 -> wrote fd (w1 ++ w2) s1 s3.
Proof.
  intros [Hr1 (c1 & Hc1 & Hs1) He1 Hf1] [Hr2 (c2 & Hc2 & Hs2) He2 Hf2]. split.
  - congruence.
  - exists (c1 ++ c2). rewrite concat_app, Hc1, Hc2. split; [done|].
    by rewrite Hs2, Hs1, fmap_app, app_assoc.
  - by etrans.
  - etrans; [exact Hf2|]. generalize (g_running (os s3)) (k_writes (os s3)) (k_sent (os s3)).
    intros. rewrite Hf1. done.
Qed.

(** The effect of a write on one event. *)
Definition wrote_ev (ev : wev) (fd : Z) (data : list Z) (ret : Z) (e : errno) (s s' : st) : Prop :=
  exists w, wrote fd w s s' /\ k_writes (os s') = k_writes (os s) /\
    match w_res ev with
    | WAll => ret = zlen data /\ w = data
    | WN n => ret = Z.max 0 (Z.min n (zlen data)) /\ w = slice 0 ret data
    | WErr e' => ret = -1 /\ e = e' /\ w = []
    end.

Lemma wrote_stop fd b s : wrote fd [] s (if b : bool then on_os (set_g_running false) s else s).
Proof.
  destruct b; [|apply wrote_refl].
  split; [done| |done|by destruct s as [? []]]. exists []. split; [done|]. by rewrite app_nil_r.
Qed.

Lemma wrote_accept fd w s : wrote fd w s (on_os (fun o => set_k_sent (k_sent o ++ [(fd, w)]) o) s).
Proof.
  split; [done| |done|by destruct s as [? []]]. exists [w]. split; [|done]. cbn. apply app_nil_r.
Qed.

Lemma wrote_next fd s evs :
  evs `suffix_of` k_writes (os s) -> wrote fd [] s (on_os (set_k_writes evs) s).
Proof.
  intros. split; [done| |done|by destruct s as [? []]]. exists []. split; [done|]. by rewrite app_nil_r.
Qed.

Lemma sys_write_ev_spec ev fd data s Q :
  0 <= fd ->
  (forall ret e s', wrote_ev ev fd data ret e s s' -> Q (ret, e) s') ->
  wp (sys_write_ev ev fd data) Q s.
Proof.
  intros Hfd HQ. unfold sys_write_ev, signal_stop. apply wp_bind.
  apply (wp_mono _ (fun _ s' => s' = if w_stop ev then on_os (set_g_running false) s else s)).
  { by destruct (w_stop ev); wsteps. }
  intros _ s1 ->. pose proof (wrote_stop fd (w_stop ev) s) as Hst.
  rewrite (proj2 (Z.ltb_ge _ _)) by lia.
  destruct (w_res ev) as [|n|e] eqn:E; wsteps; apply HQ; unfold wrote_ev; rewrite E.
  - eexists. split; [eapply (wrote_trans _ [] _ _ _ _ Hst), wrote_accept|].
    split; [by destruct (w_stop ev)|]. split; [done|]. apply slice_all.
  - eexists. split; [eapply (wrote_trans _ [] _ _ _ _ Hst), wrote_accept|]. by destruct (w_stop ev).
  - eexists. split; [exact Hst|]. by destruct (w_stop ev).
Qed.

(** The outcome of writing [P]: what was taken is a prefix of [P], and the answer
    reaches the total exactly when that was all of it. *)
Definition writev_post (fd : Z) (P : list Z) (total : Z) (size : nat) (s : st)
    (r : Z * (list (option iovec) * Z)) (s' : st) : Prop :=
  exists w rest, P = w ++ rest /\ wrote fd w s s' /\ -1 <= r.1 <= total /\ (r.1 = total <-> rest = []) /\
    length r.2.1 = size.

Lemma writev_post_trans fd P P' w total size s s1 r s2 :
  P = w ++ P' -> wrote fd w s s1 -> writev_post fd P' total size s1 r s2 ->
  writev_post fd P total size s r s2.
Proof.
  intros -> Hw (w2 & rest & -> & Hw2 & Hret). exists (w ++ w2), rest.
  rewrite app_assoc. eauto using wrote_trans.
Qed.

Lemma writev_post_rest fd P w rest total s s' ret vec pos :
  P = w ++ rest -> wrote fd w s s' -> zlen rest <= total -> ret = total - zlen rest ->
  writev_post fd P total (length vec) s (ret, (vec, pos)) s'.
Proof.
  intros -> Hw Hle ->. exists w, rest. pose proof (zlen_nonneg rest). cbn [fst snd].
  split; [done|]. split; [done|]. split; [lia|]. split; [|done]. split; intros E.
  - apply zlen_0_inv. lia.
  - subst. change (zlen []) with 0. lia.
Qed.

Lemma writev_post_err fd P w rest total s s' vec pos :
  P = w ++ rest -> wrote fd w s s' -> rest <> [] -> 0 <= total ->
  writev_post fd P total (length vec) s (-1, (vec, pos)) s'.
Proof.
  intros -> Hw Hne ?. exists w, rest. cbn [fst snd].
  split; [done|]. split; [done|]. split; [lia|]. split; [|done]. split; [lia|done].
Qed.

Lemma nonempty_zlen {A} (l : list A) : 0 < zlen l -> l <> [].
Proof. by intros ? ->. Qed.

Lemma writev_loop_spec evs : forall fd vec pos n v left total P s,
  0 <= fd -> gather (m_out (req s)) vec pos (S n) = Some P -> iov_at vec pos = Some v ->
  zlen P = left -> left <= total -> k_writes (os s) = evs -> short_total evs < iov_len v ->
  wp (writev_loop evs fd vec pos (S n) left total)
     (writev_post fd P total (length vec) s) s.
Proof.
  induction evs as [|ev evs IH]; intros fd vec pos n v left total P s Hfd Hg Hv Hlen Hle Hevs Hshort;
    cbn [writev_loop]; wsteps; pose proof (zlen_nonneg P);
    (destruct ((0 <? left) && g_running (os s)) eqn:Hc; cbn [negb];
     [|wsteps; apply (writev_post_rest _ _ [] P); [done|apply wrote_refl|lia|lia]]);
    apply andb_true_iff in Hc as [Hpos%Z.ltb_lt Hrun]; wsteps; apply (wp_lift _ P); [done| |done|].
  - wsteps. apply sys_write_ev_spec; [done|]. intros ret e s' (w & Hw & _ & Heq). cbn in Heq.
    destruct Heq as [-> ->]. rewrite (proj2 (Z.eqb_neq _ _)) by lia.
    rewrite Hlen, Z.sub_diag. cbn [Z.leb Z.compare]. wsteps.
    apply (writev_post_rest _ _ P []); [by rewrite app_nil_r|done|..]; change (@zlen Z []) with 0; lia.
  - wsteps. set (s1 := on_os _ s). 
    assert (wrote fd [] s s1) as Hn by (apply wrote_next; rewrite Hevs; by exists [ev]).
    apply sys_write_ev_spec; [done|]. intros ret e s2 (w & Hw & Hke & Heq).
    pose proof (wrote_trans _ _ _ _ _ _ Hn Hw) as Hw2. cbn [app] in Hw2.
    pose proof (short_total_nonneg evs). cbn [short_total] in Hshort.
    assert (m_out (req s2) = m_out (req s)) as Ho by (f_equal; apply Hw2).
    assert (w = [] -> short_total evs < iov_len v -> wp (writev_loop evs fd vec pos (S n) left total)
      (writev_post fd P total (length vec) s) s2) as Hagain.
    { intros -> Hs. eapply wp_mono; [apply (IH fd vec pos n v left total P); rewrite ?Ho, ?Hke|]; try (done||lia).
      intros r s3 H3. exact (writev_post_trans fd P P [] total _ s s2 _ s3 eq_refl Hw2 H3). }
    destruct (w_res ev) as [|k|e'].
    + destruct Heq as [-> ->]. rewrite (proj2 (Z.ltb_lt _ _)) by lia. wsteps.
      rewrite (proj2 (Z.leb_le (left - _) _)) by lia. cbn [orb]. wsteps.
      apply (writev_post_rest _ _ P []); [by rewrite app_nil_r|done|..]; 
        change (@zlen Z []) with 0; lia.
    + destruct Heq as [-> ->]. set (ret := Z.max 0 (Z.min k (zlen P))) in *.
      assert (0 <= ret <= zlen P /\ ret <= Z.max 0 k) as [Hret Hk] by lia.
      destruct (Z.ltb_spec 0 ret) as [Hp|Hp].
      2:{ replace ret with 0 in * by lia. cbn [Z.eqb]. apply Hagain; [done|lia]. }
      assert (P = slice 0 ret P ++ drop (Z.to_nat ret) P) as HP.
      { unfold slice. by rewrite drop_0, take_drop. }
      assert (zlen (drop (Z.to_nat ret) P) = left - ret) as Hd.
      { unfold zlen in *. rewrite length_drop. lia. }
      wsteps. destruct ((left - ret <=? 0) || negb (g_running (os s2))) eqn:Hdone; wsteps.
      * apply (writev_post_rest _ _ _ _ _ _ _ _ _ _ HP Hw2); lia.
      * destruct (advance_first (m_out (req s)) vec pos n P v ret) as (v' & Ha & Hv' & Hl' & Hg'); [done|done|lia|].
        apply (wp_lift _ _ _ _ Ha). eapply wp_mono.
        -- apply (IH fd _ pos n v' (left - ret) total (drop (Z.to_nat ret) P)); rewrite ?Ho; try done; lia.
        -- intros r s3 H3. rewrite length_insert in H3. by apply (writev_post_trans _ _ _ _ _ _ _ _ _ _ HP Hw2).
    + destruct Heq as (-> & -> & ->). cbn [Z.ltb Z.eqb Z.compare].
      pose proof (nonempty_zlen P ltac:(lia)).
      destruct (is_eagain e'); [destruct (0 <? total - left)|destruct (is_eintr e'); cbn [negb]];
        [wsteps..|apply Hagain; [done|lia]|wsteps].
      * apply (writev_post_rest _ _ [] P); [done|done|lia|lia].
      * apply (writev_post_err _ _ [] P); [done|done|done|lia].
      * apply (writev_post_err _ _ [] P); [done|done|done|lia].
Qed.

(** What went out on a descriptor. *)
Definition sent_on (fd : Z) (o : sys) : list Z :=
  concat (snd <$> filter (fun p => p.1 = fd) (k_sent o)).

Lemma wrote_sent_on fd w s s' : wrote fd w s s' -> sent_on fd (os s') = sent_on fd (os s) ++ w.
Proof.
  intros [_ (chunks & <- & Hs) _ _]. unfold sent_on. rewrite Hs, filter_app, fmap_app, concat_app.
  f_equal. f_equal. clear Hs. induction chunks as [|c cs IH]; [done|].
  rewrite fmap_cons, filter_cons_True by done. cbn. by f_equal.
Qed.

(** A process at start-up, as a worker that accepts every write. *)
Definition cred0 : cred :=
  mkCred 65534 65534 0 false false (fun _ => None) [] [] None (fun p => RpOk p) (fun _ => 3) (fun m => m).
Definition os0 : sys :=
  mkSys true false None None false 1000 (replicate 24 0) false false false false [] [] [] []
    (fun _ => 0) [] [] cred0 [].
Definition st0 : st := mkSt zero_req os0.

(** [lsapi_writev] under arbitrary errors, interruptions, stops and short counts
    that together end inside the first iovec: it always answers, what went out is a
    prefix of the bytes the iovecs name, in order and without repetition, and the
    answer is the total exactly when all of them went out. *)
Theorem lsapi_writev_delivers fd vec pos n v P s :
  0 <= fd -> s_skip_write (os s) = false ->
  gather (m_out (req s)) vec pos (S n) = Some P ->
  iov_at vec pos = Some v ->
  short_total (k_writes (os s)) < iov_len v ->
  exists ret vec' pos' s' w rest,
    lsapi_writev fd vec pos (S n) (zlen P) s = Some (ret, (vec', pos'), s') /\
    P = w ++ rest /\ sent_on fd (os s') = sent_on fd (os s) ++ w /\
    req s' = req s /\ (ret = zlen P <-> rest = []) /\ -1 <= ret <= zlen P.
Proof.
  intros Hfd Hskip Hg Hv Hshort.
  assert (wp (lsapi_writev fd vec pos (S n) (zlen P))
            (writev_post fd P (zlen P) (length vec) s) s) as Hwp.
  { unfold lsapi_writev. wsteps. rewrite Hskip. wsteps. by apply (writev_loop_spec _ fd vec pos n v). }
  apply wp_run in Hwp as ([ret [vec' pos']] & s' & Hrun & w & rest & HP & Hw & Hret).
  exists ret, vec', pos', s', w, rest. rewrite Hrun, (wrote_sent_on _ _ _ _ Hw).
  pose proof (wrote_req _ _ _ _ Hw). tauto.
Qed.

(** Two iovecs, an interruption and a short count inside the first one. *)
Definition short_writes : sys :=
  set_k_writes [mkWev false (WErr EINTR); mkWev false (WN 2)] os0.

Lemma lsapi_writev_delivers_witness :
  exists ret vec' pos' s' w rest,
    lsapi_writev 5 [Some (mkIov (IovUser [1; 2; 3]) 0 3); Some (mkIov (IovUser [4; 5]) 0 2)] 0 2 5
      (mkSt zero_req short_writes) = Some (ret, (vec', pos'), s') /\
    [1; 2; 3; 4; 5] = w ++ rest /\ sent_on 5 (os s') = sent_on 5 short_writes ++ w /\
    req s' = zero_req /\ (ret = 5 <-> rest = []) /\ -1 <= ret <= 5.
Proof.
  apply (lsapi_writev_delivers 5 _ 0 1 (mkIov (IovUser [1; 2; 3]) 0 3) [1; 2; 3; 4; 5]
           (mkSt zero_req short_writes)); [lia|reflexivity..].
Defined.

(** The bound on short counts is needed: when a short count ends in a later
    iovec, the loop moves the position but keeps the count, so the next call also
    sends the iovecs behind the ones it was given. *)
Theorem lsapi_writev_short_count_overruns :
  exists s',
    lsapi_writev 5 [Some (mkIov (IovUser [1; 2]) 0 2); Some (mkIov (IovUser [3; 4]) 0 2);
                    Some (mkIov (IovUser [9; 9]) 0 2)] 0 2 4
      (mkSt zero_req (set_k_writes [mkWev false (WN 3)] os0)) =
      Some (6, ([Some (mkIov (IovUser [1; 2]) 0 2); Some (mkIov (IovUser [3; 4]) 1 1);
                 Some (mkIov (IovUser [9; 9]) 0 2)], 1), s') /\
    sent_on 5 (os s') = [1; 2; 3; 4; 9; 9].
Proof. eexists. split; reflexivity. Qed.
