(* ===== verification/Response.v ===== *)
(** * The response side of a request

    Response headers, the buffered body, the packets they are cut into and the end
    of a response ([LSAPI_AppendRespHeader_r] ... [LSAPI_Finish_r] of lsapilib.c). *)

From S2P Require Export Conn.

Open Scope Z_scope.

Definition LSAPI_ST_REQ_HEADER : Z := 1.
Definition LSAPI_ST_REQ_BODY : Z := 2.
Definition LSAPI_ST_RESP_HEADER : Z := 4.
Definition LSAPI_ST_RESP_BODY : Z := 8.
Definition LSAPI_ST_BACKGROUND : Z := 16.

Definition has_state (bit : Z) : M bool :=
  state ← get_req m_reqState; mret (negb (Z.land state bit =? 0)).
Definition set_state_bit (bit : Z) : M unit :=
  mod_req (fun r => set_m_reqState (Z.lor (m_reqState r) bit) r).

(** ** Filling the iovec array and the packet headers *)

(** [pReq->m_pIovec[i].iov_base = ...; .iov_len = ...]. *)
Definition set_iov (i : Z) (b : iov_obj) (off len : Z) : M unit :=
  vec ← get_out m_pIovec;
  if in_range i 1 (zlen vec)
  then mod_out (set_m_pIovec (<[Z.to_nat i := Some (mkIov b off len)]> vec))
  else ub.

(** The three lines that fill [*m_pIovecCur] and move it. *)
Definition push_iov (b : iov_obj) (off len : Z) : M unit :=
  cur ← get_out m_pIovecCur;
  set_iov cur b off len ;;
  mod_out (set_m_pIovecCur (cur + 1)).

Definition add_total (n : Z) : M unit :=
  mod_out (fun o => set_m_totalLen (s32 (m_totalLen o + n)) o).

Definition set_pkt (i : nat) (h : lsapi_packet_header) : M unit :=
  pkts ← get_out m_respPktHeader;
  if (i <? length pkts)%nat then mod_out (set_m_respPktHeader (<[i := h]> pkts)) else ub.

(** ** Response headers *)

Definition is_crlf (ch : Z) : bool := (ch =? 10) || (ch =? 13).

(** The trimming loops: the length without the CR and LF bytes at the end. *)
Fixpoint rtrim (buf : list Z) (len : nat) : option nat :=
  match len with
  | O => Some O
  | S n =>
      ch ← buf !! n;
      if is_crlf ch then rtrim buf n else Some len
  end.

(** Room for [len] bytes and their NUL: the buffer grows to the next multiple of
    4096 (-1 when it cannot). *)
Definition reserve_header (len : Z) : M Z :=
  pos ← get_out m_pRespHeaderBufPos;
  size ← get_out (fun o => zlen (m_pRespHeaderBuf o));
  if size <? pos + len + 1 then
    let newlen := s32 (pos + len + 4096) in
    allocateRespHeaderBuf (newlen - Z.rem newlen 4096)
  else mret 0.

(** [memmove] to the cursor of the header buffer, which moves behind the bytes. *)
Definition put_header (bs : list Z) : M unit :=
  pos ← get_out m_pRespHeaderBufPos;
  buf ← get_out m_pRespHeaderBuf;
  buf ← lift (store buf pos bs);
  mod_out (set_m_pRespHeaderBuf buf) ;;
  mod_out (set_m_pRespHeaderBufPos (pos + zlen bs)).

(** [m_respHeaderLen[m_cntHeaders] = len; ++m_cntHeaders]. *)
Definition record_header_len (len : Z) : M unit :=
  cnt ← get_out m_cntHeaders;
  lens ← get_out m_respHeaderLen;
  if in_range cnt 1 (zlen lens) then
    mod_out (set_m_respHeaderLen (<[Z.to_nat cnt := s16 len]> lens)) ;;
    mod_out (set_m_cntHeaders (cnt + 1))
  else ub.

(** [pBuf] is [None] for NULL. *)
Definition LSAPI_AppendRespHeader_r (pBuf : option (list Z)) (len : Z) : M Z :=
  match pBuf with
  | None => mret (-1)
  | Some buf =>
      if (len <=? 0) || (LSAPI_RESP_HTTP_HEADER_MAX <? len) then mret (-1)
      else
        body ← has_state LSAPI_ST_RESP_BODY;
        cnt ← get_out m_cntHeaders;
        if (body : bool) then mret (-1)
        else if LSAPI_MAX_RESP_HEADERS <=? cnt then mret (-1)
        else
          n ← lift (rtrim buf (Z.to_nat len));
          let len := Z.of_nat n in
          if len <=? 0 then mret 0
          else
            r ← reserve_header len;
            if r =? -1 then mret (-1)
            else
              line ← lift (load buf 0 len);
              put_header line ;;
              put_header [0] ;;
              record_header_len (len + 1) ;;
              mret 0
  end.

(** Name and value are C strings: the bytes before their NUL. *)
Definition LSAPI_AppendRespHeader2_r (pHeaderName pHeaderValue : option (list Z)) : M Z :=
  match pHeaderName, pHeaderValue with
  | Some name, Some value =>
      body ← has_state LSAPI_ST_RESP_BODY;
      cnt ← get_out m_cntHeaders;
      if (body : bool) then mret (-1)
      else if LSAPI_MAX_RESP_HEADERS <=? cnt then mret (-1)
      else
        let nameLen := s32 (zlen name) in
        let valLen := s32 (zlen value) in
        if nameLen =? 0 then mret (-1)
        else
          n ← lift (rtrim name (Z.to_nat nameLen));
          if (n =? 0)%nat then mret 0
          else
            v ← lift (rtrim value (Z.to_nat valLen));
            let len := s32 (Z.of_nat n + Z.of_nat v + 1) in
            if LSAPI_RESP_HTTP_HEADER_MAX <? len then mret (-1)
            else
              r ← reserve_header len;
              if r =? -1 then mret (-1)
              else
                put_header (take n name) ;;
                put_header [58] ;;
                put_header (take v value) ;;
                put_header [0] ;;
                record_header_len (len + 1) ;;
                mret 0
  | _, _ => mret (-1)
  end.

Definition LSAPI_SetRespStatus_r (code : Z) : M Z := mod_out (set_m_status code) ;; mret 0.

(** The header packet: the struct with the lengths behind it in slot 0, the lines
    (when there are any) in the next free slot. *)
Definition LSAPI_FinalizeRespHeaders_r : M Z :=
  vec ← get_out m_pIovec;
  header ← has_state LSAPI_ST_RESP_HEADER;
  if (zlen vec =? 0) then mret (-1)
  else if negb (header : bool) then mret 0
  else
    mod_req (fun r => set_m_reqState (Z.land (m_reqState r) (Z.lnot LSAPI_ST_RESP_HEADER)) r) ;;
    pos ← get_out m_pRespHeaderBufPos;
    (if 0 <? pos then
       g ← get_out m_respHeaderGen;
       push_iov (IovRespHeaderBuf g) 0 pos ;;
       add_total pos
     else mret tt) ;;
    cnt ← get_out m_cntHeaders;
    set_iov 0 IovRespHeader 0 (16 + 2 * cnt) ;;
    add_total (16 + 2 * cnt) ;;
    total ← get_out m_totalLen;
    mod_out (set_m_pktHeader (lsapi_buildPacketHeader LSAPI_RESP_HEADER total)) ;;
    mod_out (set_m_pIovecToWrite 0) ;;
    mret 0.

(** [if (m_reqState & LSAPI_ST_RESP_HEADER) LSAPI_FinalizeRespHeaders_r(pReq)]. *)
Definition ensure_finalized : M Z :=
  header ← has_state LSAPI_ST_RESP_HEADER;
  if (header : bool) then LSAPI_FinalizeRespHeaders_r else mret 0.

(** ** Body *)

(** The buffered body becomes a STREAM packet in the iovecs. *)
Definition Flush_RespBuf_r : M unit :=
  bufLen ← get_out m_pRespBufPos;
  set_state_bit LSAPI_ST_RESP_BODY ;;
  set_pkt 0 (lsapi_buildPacketHeader LSAPI_RESP_STREAM (bufLen + LSAPI_PACKET_HEADER_LEN)) ;;
  add_total (bufLen + LSAPI_PACKET_HEADER_LEN) ;;
  push_iov (IovPkt 0) 0 LSAPI_PACKET_HEADER_LEN ;;
  if 0 <? bufLen then
    push_iov IovRespBuf 0 bufLen ;;
    mod_out (set_m_pRespBufPos 0)
  else mret tt.

(** [if (m_pRespBufPos != m_pRespBuf) Flush_RespBuf_r(pReq)]. *)
Definition flush_body : M unit :=
  pos ← get_out m_pRespBufPos;
  if negb (pos =? 0) then Flush_RespBuf_r else mret tt.

(** The cursors after a flush. *)
Definition rewind_iovec : M unit :=
  mod_out (set_m_totalLen 0) ;;
  mod_out (fun o => set_m_pIovecCur 0 (set_m_pIovecToWrite 0 o)).

(** The [n > 0] block of [LSAPI_Flush_r]: the queue is written; when not all of it
    went out the connection is closed. *)
Definition send_queue (n : Z) : M Z :=
  fd ← get_req m_fd;
  vec ← get_out m_pIovec;
  from ← get_out m_pIovecToWrite;
  total ← get_out m_totalLen;
  '(ret, (vec, from)) ← lsapi_writev fd vec from (Z.to_nat n) total;
  mod_out (fun o => set_m_pIovec vec (set_m_pIovecToWrite from o)) ;;
  (if ret <? total then lsapi_close_connection else mret tt) ;;
  rewind_iovec ;;
  mret (if ret <? total then -1 else ret).

Definition LSAPI_Flush_r : M Z :=
  n ← get_out (fun o => m_pIovecCur o - m_pIovecToWrite o);
  pos ← get_out m_pRespBufPos;
  if (0 =? n) && (pos =? 0) then mret 0
  else
    fd ← get_req m_fd;
    if fd =? -1 then
      mod_out (set_m_pRespBufPos 0) ;;
      rewind_iovec ;;
      mret (-1)
    else
      ensure_finalized ;;
      flush_body ;;
      n ← get_out (fun o => m_pIovecCur o - m_pIovecToWrite o);
      if 0 <? n then send_queue n else mret 0.

(** The packet loop of [LSAPI_Write_r]: [p] is the offset reached in the caller's
    buffer, [bufLen] what is still buffered, [ph] the next packet header.
    [push_packet] is one round's packet: a header, what was buffered, the caller's
    next [toWrite] bytes. *)
Definition push_packet (ph : nat) (bufLen packetLen : Z) (buf : list Z) (p toWrite : Z) : M unit :=
  set_pkt ph (lsapi_buildPacketHeader LSAPI_RESP_STREAM (packetLen + LSAPI_PACKET_HEADER_LEN)) ;;
  add_total (packetLen + LSAPI_PACKET_HEADER_LEN) ;;
  push_iov (IovPkt ph) 0 LSAPI_PACKET_HEADER_LEN ;;
  (if 0 <? bufLen then
     push_iov IovRespBuf 0 bufLen ;;
     mod_out (set_m_pRespBufPos 0)
   else mret tt) ;;
  push_iov (IovUser buf) p toWrite.

(** Every round takes at least one byte, so the length is fuel enough. *)
Fixpoint Write_loop (fuel : nat) (buf : list Z) (len p bufLen : Z) (ph : nat) : M Z :=
  if len - p <=? 0 then
    if (ph =? 0)%nat then mret p
    else r ← LSAPI_Flush_r; if r =? -1 then mret (-1) else mret p
  else
    match fuel with
    | O => ub
    | S fuel =>
        let whole := len - p + bufLen in
        let packetLen := if LSAPI_MAX_DATA_PACKET_LEN <? whole then LSAPI_MAX_DATA_PACKET_LEN else whole in
        let toWrite := if LSAPI_MAX_DATA_PACKET_LEN <? whole then packetLen - bufLen else len - p in
        push_packet ph bufLen packetLen buf p toWrite ;;
        if (4 <=? S ph)%nat then
          r ← LSAPI_Flush_r;
          if r =? -1 then mret (-1)
          else Write_loop fuel buf len (p + toWrite) 0 0
        else Write_loop fuel buf len (p + toWrite) 0 (S ph)
    end.

Definition LSAPI_Write_r (pBuf : option (list Z)) (len : Z) : M Z :=
  match pBuf with
  | None => mret (-1)
  | Some buf =>
      background ← has_state LSAPI_ST_BACKGROUND;
      fd ← get_req m_fd;
      if (background : bool) then mret len
      else if fd =? -1 then mret (-1)
      else
        ensure_finalized ;;
        set_state_bit LSAPI_ST_RESP_BODY ;;
        pos ← get_out m_pRespBufPos;
        resp ← get_out m_pRespBuf;
        if s64 len <? zlen resp - pos then
          bs ← lift (load buf 0 len);
          resp ← lift (store resp pos bs);
          mod_out (set_m_pRespBuf resp) ;;
          mod_out (set_m_pRespBufPos (pos + len)) ;;
          mret len
        else Write_loop (Z.to_nat len) buf len 0 pos 0
  end.

(** [LSAPI_sendfile_r] where [gsendfile] is Linux's sendfile: [file] is what the input
    descriptor holds ([None] for descriptor -1), the answer the count and the new
    [*off]. *)
Definition LSAPI_sendfile_r (file : option (list Z)) (off size : Z) : M (Z * Z) :=
  fd ← get_req m_fd;
  match file with
  | None => mret (-1, off)
  | Some file =>
      if fd =? -1 then mret (-1, off)
      else
        ensure_finalized ;;
        set_state_bit LSAPI_ST_RESP_BODY ;;
        LSAPI_Flush_r ;;
        set_pkt 0 (lsapi_buildPacketHeader LSAPI_RESP_STREAM (s32 (size + LSAPI_PACKET_HEADER_LEN))) ;;
        hdr ← get_out (fun o => iov_bytes o (mkIov (IovPkt 0) 0 LSAPI_PACKET_HEADER_LEN));
        hdr ← lift hdr;
        fd ← get_req m_fd;
        '(ret, _) ← sys_write fd hdr;
        if negb (ret =? LSAPI_PACKET_HEADER_LEN) then mret (-1, off)
        else
          '(ret, _) ← sys_write fd (slice off size file);
          mret (ret, if 0 <=? ret then off + ret else off)
  end.

(** The stderr packets: [p] is the offset reached.  A failed packet closes the
    connection and the loop goes on. *)
Fixpoint Stderr_loop (fuel : nat) (buf : list Z) (len p : Z) : M Z :=
  if len - p <=? 0 then mret p
  else
    match fuel with
    | O => ub
    | S fuel =>
        let left := len - p in
        let packetLen := if LSAPI_MAX_DATA_PACKET_LEN <? left then LSAPI_MAX_DATA_PACKET_LEN else left in
        let header := lsapi_buildPacketHeader LSAPI_STDERR_STREAM (packetLen + LSAPI_PACKET_HEADER_LEN) in
        let totalLen := packetLen + LSAPI_PACKET_HEADER_LEN in
        let iov := [Some (mkIov (IovUser (pkt_bytes header)) 0 LSAPI_PACKET_HEADER_LEN);
                    Some (mkIov (IovUser buf) p packetLen)] in
        fd ← get_req m_fd;
        '(ret, _) ← lsapi_writev fd iov 0 2 totalLen;
        (if ret <? totalLen then lsapi_close_connection else mret tt) ;;
        Stderr_loop fuel buf len (p + packetLen)
    end.

Definition LSAPI_Write_Stderr_r (buf : list Z) (len : Z) : M Z :=
  log ← get_os s_stderr_log_path;
  fd ← get_req m_fd;
  fdl ← get_req m_fdListen;
  if (log : bool) || (fd =? -1) || (fd =? fdl) then
    bs ← lift (load buf 0 len);
    '(ret, _) ← sys_write 2 bs; mret ret
  else
    pos ← get_out m_pRespBufPos;
    (if negb (pos =? 0) then LSAPI_Flush_r else mret 0) ;;
    Stderr_loop (Z.to_nat len) buf len 0.

(** ** The end of a response *)

(** The closing packets: RESP_END alone, or RESP_END and CONN_CLOSE. *)
Definition push_finish (n : Z) : M unit :=
  push_iov IovFinishClose 0 n ;; add_total n.

Definition LSAPI_Finish_r : M Z :=
  state ← get_req m_reqState;
  if state =? 0 then mret 0
  else
    fd ← get_req m_fd;
    (if fd =? -1 then mret tt
     else
       ensure_finalized ;;
       flush_body ;;
       push_finish LSAPI_PACKET_HEADER_LEN ;;
       LSAPI_Flush_r ;;
       mret tt) ;;
    LSAPI_Reset_r ;;
    mret 0.

Definition LSAPI_End_Response_r : M Z :=
  state ← get_req m_reqState;
  background ← has_state LSAPI_ST_BACKGROUND;
  fd ← get_req m_fd;
  header ← has_state LSAPI_ST_RESP_HEADER;
  hpos ← get_out m_pRespHeaderBufPos;
  if (background : bool) then mret 0
  else if state =? 0 then mret 0
  else if negb (fd =? -1) && (header && (hpos <=? 0)) then mret 0
  else
    (if fd =? -1 then mret tt
     else
       ensure_finalized ;;
       flush_body ;;
       push_finish (2 * LSAPI_PACKET_HEADER_LEN) ;;
       LSAPI_Flush_r ;;
       lsapi_close_connection) ;;
    set_state_bit LSAPI_ST_BACKGROUND ;;
    mret 0.

Fixpoint append_all (headers : list (list Z)) : M unit :=
  match headers with
  | [] => mret tt
  | h :: hs => LSAPI_AppendRespHeader_r (Some h) (s32 (zlen h)) ;; append_all hs
  end.

(** [headers] is the NULL-terminated array of C strings. *)
Definition LSAPI_ErrResponse_r (code : Z) (headers : option (list (list Z)))
    (pBody : option (list Z)) (bodyLen : Z) : M Z :=
  LSAPI_SetRespStatus_r code ;;
  (match headers with Some hs => append_all hs | None => mret tt end) ;;
  (match pBody with
   | Some _ => if 0 <? bodyLen then LSAPI_Write_r pBody bodyLen else mret 0
   | None => mret 0
   end) ;;
  LSAPI_Finish_r ;;
  mret 0.
