(* ===== verification/ResponseSpec.v ===== *)
(** * What the response side promises

    The invariant of the response half of a request, the effect of every operation on
    it, and the refinement: whatever is called in whatever order, what the web server
    reads is the response the calls describe. *)

From S2P Require Export Response.

Open Scope Z_scope.

(** ** The bytes a vector of iovecs names *)

Lemma gather_ext o o' vec vec' pos n P :
  gather o vec pos n = Some P ->
  (forall i v, pos <= i < pos + Z.of_nat n -> iov_at vec i = Some v ->
     iov_at vec' i = Some v /\ iov_bytes o' v = iov_bytes o v) ->
  gather o' vec' pos n = Some P.
Proof.
  revert pos P. induction n as [|n IH]; intros pos P Hg Hext; [done|].
  apply gather_S in Hg as (v & bs & rest & Hv & Hb & Hr & ->).
  destruct (Hext pos v) as [Hv' Hb']; [lia|done|].
  cbn [gather]. rewrite Hv'. cbn [mbind option_bind]. rewrite Hb', Hb. cbn [mbind option_bind].
  rewrite (IH (pos + 1) rest); [done|done|]. intros i w Hi. apply Hext. lia.
Qed.

Lemma gather_snoc o vec pos n P v bs :
  gather o vec pos n = Some P -> iov_at vec (pos + Z.of_nat n) = Some v ->
  iov_bytes o v = Some bs -> gather o vec pos (S n) = Some (P ++ bs).
Proof.
  revert pos P. induction n as [|n IH]; intros pos P Hg Hv Hb.
  - injection Hg as <-. cbn [gather]. rewrite Z.add_0_r in Hv. rewrite Hv. cbn [mbind option_bind].
    rewrite Hb. cbn. by rewrite app_nil_r.
  - apply gather_S in Hg as (v0 & bs0 & rest & Hv0 & Hb0 & Hr & ->).
    specialize (IH (pos + 1) rest). remember (S n) as k eqn:Ek. cbn [gather]. rewrite Hv0. cbn [mbind option_bind].
    rewrite Hb0. cbn [mbind option_bind]. rewrite IH; [by rewrite <- app_assoc|done|by rewrite <- Hv; f_equal; lia|done].
Qed.

(** ** The queue: the packets waiting in the iovec array

    [queued k rb P c o]: the iovecs from [m_pIovecToWrite] to [m_pIovecCur] name the
    bytes [P]; they use packet headers below [k] only, and the body buffer only if
    [rb]; at most [c] slots are filled. *)
Definition uses (k : nat) (rb : bool) (v : iovec) : Prop :=
  match iov_obj_of v with
  | IovPkt i => (i < k)%nat
  | IovRespBuf => rb = true
  | _ => True
  end.

Record queued (k : nat) (rb : bool) (c : Z) (P : list Z) (o : resp_out) : Prop := {
  q_vec : length (m_pIovec o) = 16%nat;
  q_pkts : length (m_respPktHeader o) = 5%nat;
  q_cur : 0 <= m_pIovecToWrite o <= m_pIovecCur o /\ m_pIovecCur o <= c;
  q_gather : gather o (m_pIovec o) (m_pIovecToWrite o)
               (Z.to_nat (m_pIovecCur o - m_pIovecToWrite o)) = Some P;
  q_uses : forall i v, m_pIovecToWrite o <= i < m_pIovecCur o ->
    iov_at (m_pIovec o) i = Some v -> uses k rb v;
  q_first : forall v, m_pIovecToWrite o < m_pIovecCur o ->
    iov_at (m_pIovec o) (m_pIovecToWrite o) = Some v -> LSAPI_PACKET_HEADER_LEN <= iov_len v
}.

Lemma queued_mono k k' rb rb' c c' P o :
  queued k rb c P o -> (k <= k')%nat -> (rb = true -> rb' = true) -> c <= c' -> queued k' rb' c' P o.
Proof.
  intros [] ???. split; auto with lia.
  intros i v Hi Hv. specialize (q_uses0 i v Hi Hv). unfold uses in *.
  destruct (iov_obj_of v); auto with lia.
Qed.

(** The queue does not change when what its iovecs use does not. *)
Lemma queued_frame k rb c P o o' :
  queued k rb c P o -> m_pIovec o' = m_pIovec o ->
  m_pIovecCur o' = m_pIovecCur o -> m_pIovecToWrite o' = m_pIovecToWrite o ->
  length (m_respPktHeader o') = 5%nat ->
  (forall v, uses k rb v -> iov_bytes o' v = iov_bytes o v) -> queued k rb c P o'.
Proof.
  intros [] Hv Hc Ht Hp Hb. split; rewrite ?Hv, ?Hc, ?Ht; auto.
  eapply gather_ext; [exact q_gather0|]. intros i v Hi Hat. split; [done|]. apply Hb.
  apply (q_uses0 i); [lia|done].
Qed.

(** A packet header the queue does not use yet. *)
Lemma queued_set_pkt k rb c P o h :
  queued k rb c P o -> queued k rb c P (set_m_respPktHeader (<[k := h]> (m_respPktHeader o)) o).
Proof.
  intros Hq. eapply queued_frame; [exact Hq|done..| |].
  { cbn. rewrite length_insert. apply Hq. }
  intros v Hu. unfold uses, iov_bytes, iov_obj_bytes in *. destruct (iov_obj_of v); try done.
  cbn. by rewrite list_lookup_insert_ne by lia.
Qed.

(** Filling the next slot. *)
Definition pushed (v : iovec) (o : resp_out) : resp_out :=
  set_m_pIovecCur (m_pIovecCur o + 1)
    (set_m_pIovec (<[Z.to_nat (m_pIovecCur o) := Some v]> (m_pIovec o)) o).

Lemma push_iov_spec b off len s (Q : unit -> st -> Prop) :
  length (m_pIovec (m_out (req s))) = 16%nat -> 0 <= m_pIovecCur (m_out (req s)) < 16 ->
  Q tt (on_out (pushed (mkIov b off len)) s) -> wp (push_iov b off len) Q s.
Proof.
  intros Hl Hc HQ. unfold push_iov, set_iov. wsteps.
  rewrite (proj2 (in_range_spec _ _ _)) by (unfold zlen; lia). wsteps. exact HQ.
Qed.

Lemma iov_bytes_pushed o v w : iov_bytes (pushed v o) w = iov_bytes o w.
Proof. done. Qed.

Lemma queued_pushed k rb c P o v bs :
  queued k rb c P o -> m_pIovecCur o < 16 -> uses k rb v -> iov_bytes o v = Some bs ->
  (m_pIovecToWrite o = m_pIovecCur o -> LSAPI_PACKET_HEADER_LEN <= iov_len v) ->
  queued k rb (c + 1) (P ++ bs) (pushed v o).
Proof.
  intros Hq Hc Hu Hb Hf. pose proof (q_cur _ _ _ _ _ Hq). pose proof (q_vec _ _ _ _ _ Hq).
  assert (forall i, i <> m_pIovecCur o -> iov_at (m_pIovec (pushed v o)) i = iov_at (m_pIovec o) i) as Hne.
  { intros i Hi. cbn. apply iov_at_insert_ne; lia. }
  assert (iov_at (m_pIovec (pushed v o)) (m_pIovecCur o) = Some v) as Heq.
  { cbn. apply iov_at_lookup. split; [lia|]. apply list_lookup_insert_eq. lia. }
  split; cbn [pushed m_pIovecCur m_pIovecToWrite set_m_pIovecCur set_m_pIovec].
  - cbn. rewrite length_insert. done.
  - apply Hq.
  - lia.
  - replace (Z.to_nat (m_pIovecCur o + 1 - m_pIovecToWrite o))
      with (S (Z.to_nat (m_pIovecCur o - m_pIovecToWrite o))) by lia.
    apply (gather_snoc _ _ _ _ _ v); [|rewrite <- Heq; f_equal; lia|done].
    eapply gather_ext; [apply Hq|]. intros i w Hi Hw. split; [|done].
    rewrite <- Hw. apply Hne. lia.
  - intros i w Hi Hw. destruct (Z.eq_dec i (m_pIovecCur o)) as [->|Hd].
    + rewrite Heq in Hw. by injection Hw as <-.
    + apply (q_uses _ _ _ _ _ Hq i); [lia|]. by rewrite <- Hne.
  - intros w Hlt Hw. destruct (Z.eq_dec (m_pIovecToWrite o) (m_pIovecCur o)) as [E|Hd].
    + rewrite E, Heq in Hw. injection Hw as <-. auto.
    + apply (q_first _ _ _ _ _ Hq); [lia|]. by rewrite <- Hne.
Qed.

(** ** The recorded headers *)

(** The header lines as the buffer holds them, and the payload of the header packet. *)
Definition lines (hs : list (list Z)) : list Z := concat ((fun h => h ++ [0]) <$> hs).

Definition resp_header_payload (status : Z) (hs : list (list Z)) : list Z :=
  le32 (zlen hs) ++ le32 status ++ concat ((fun h => le16 (zlen h + 1)) <$> hs) ++ lines hs.

Record hdrs_ok (hs : list (list Z)) (o : resp_out) : Prop := {
  h_cnt : m_cntHeaders o = zlen hs;
  h_max : zlen hs <= LSAPI_MAX_RESP_HEADERS;
  h_lens : length (m_respHeaderLen o) = 1000%nat;
  h_len : take (length hs) (m_respHeaderLen o) = (fun h => s16 (zlen h + 1)) <$> hs;
  h_pos : m_pRespHeaderBufPos o = zlen (lines hs);
  h_room : zlen (lines hs) <= zlen (m_pRespHeaderBuf o);
  h_buf : slice 0 (zlen (lines hs)) (m_pRespHeaderBuf o) = lines hs;
  h_each : Forall (fun h => 1 <= zlen h <= LSAPI_RESP_HTTP_HEADER_MAX) hs
}.

Lemma lines_snoc hs h : lines (hs ++ [h]) = lines hs ++ h ++ [0].
Proof. unfold lines. rewrite fmap_app, concat_app. cbn. by rewrite app_nil_r. Qed.

Lemma zlen_lines_bound hs :
  Forall (fun h => 1 <= zlen h <= LSAPI_RESP_HTTP_HEADER_MAX) hs ->
  2 * zlen hs <= zlen (lines hs) <= 32769 * zlen hs.
Proof.
  unfold LSAPI_RESP_HTTP_HEADER_MAX.
  induction 1 as [|h hs Hh _ IH]; [split; discriminate|].
  change (lines (h :: hs)) with ((h ++ [0]) ++ lines hs).
  rewrite !zlen_app, zlen_cons. change (zlen [0]) with 1. lia.
Qed.

Lemma le16_s16 z : le16 (s16 z) = le16 z.
Proof.
  unfold le16, s16. rewrite <- (le_bytes_mod 2 (_ - _)), <- (le_bytes_mod 2 z).
  change (256 ^ Z.of_nat 2) with (2 ^ 16). rewrite Zminus_mod_idemp_l. do 2 f_equal. lia.
Qed.

Lemma zlen_concat_le16 l : zlen (concat (le16 <$> l)) = 2 * zlen l.
Proof.
  induction l as [|x l IH]; [done|]. cbn [fmap list_fmap concat].
  rewrite zlen_app, zlen_cons, zlen_le16, IH. lia.
Qed.

Lemma slice_concat_le16 n l :
  (n <= length l)%nat -> slice 0 (2 * Z.of_nat n) (concat (le16 <$> l)) = concat (le16 <$> take n l).
Proof.
  intros Hn. rewrite <- (take_drop n l) at 1. rewrite fmap_app, concat_app.
  assert (2 * Z.of_nat n = zlen (concat (le16 <$> take n l))) as ->.
  { rewrite zlen_concat_le16. unfold zlen. rewrite length_take. lia. }
  apply slice_app_exact.
Qed.

Lemma zlen_payload status hs :
  zlen (resp_header_payload status hs) = 8 + 2 * zlen hs + zlen (lines hs).
Proof.
  unfold resp_header_payload. rewrite !zlen_app, !zlen_le32.
  assert (concat ((fun h => le16 (zlen h + 1)) <$> hs) = concat (le16 <$> ((fun h => zlen h + 1) <$> hs))) as ->.
  { by rewrite <- list_fmap_compose. }
  rewrite zlen_concat_le16. unfold zlen at 1. rewrite length_fmap. fold (zlen hs). lia.
Qed.

(** The struct and the lengths behind it, as slot 0 names them. *)
Lemma resp_header_iov hs o total :
  hdrs_ok hs o ->
  iov_bytes (set_m_pktHeader (lsapi_buildPacketHeader LSAPI_RESP_HEADER total) o)
    (mkIov IovRespHeader 0 (16 + 2 * m_cntHeaders o)) =
  Some (pkt_bytes (lsapi_buildPacketHeader LSAPI_RESP_HEADER total) ++ le32 (zlen hs) ++
        le32 (m_status o) ++ concat ((fun h => le16 (zlen h + 1)) <$> hs)).
Proof.
  intros []. unfold iov_bytes, iov_obj_bytes. cbn [iov_obj_of iov_off iov_len mbind option_bind].
  cbn [set_m_pktHeader m_pktHeader m_cntHeaders m_status m_respHeaderLen].
  set (p := pkt_bytes _). assert (zlen p = 8) as Hp by apply zlen_pkt_bytes.
  pose proof (zlen_nonneg hs). rewrite h_cnt0. rewrite load_Some by lia || (rewrite !zlen_app,
    zlen_concat_le16, !zlen_le32, Hp; unfold zlen at 2; rewrite h_lens0; unfold LSAPI_MAX_RESP_HEADERS in *; lia).
  f_equal. rewrite !app_assoc. set (q := (p ++ _) ++ _).
  assert (zlen q = 16) as Hq by (subst q; rewrite !zlen_app, !zlen_le32; lia).
  rewrite slice_split by lia. rewrite <- Hq, slice_app_exact. f_equal.
  rewrite slice_app_r by lia. rewrite Z.add_0_l, Z.sub_diag. unfold zlen at 1.
  rewrite slice_concat_le16 by (unfold zlen, LSAPI_MAX_RESP_HEADERS in *; lia).
  rewrite h_len0, <- list_fmap_compose. f_equal. apply list_fmap_ext. intros. apply le16_s16.
Qed.

Lemma hdrs_ok_frame hs o o' :
  hdrs_ok hs o -> m_cntHeaders o' = m_cntHeaders o -> m_respHeaderLen o' = m_respHeaderLen o ->
  m_pRespHeaderBufPos o' = m_pRespHeaderBufPos o -> m_pRespHeaderBuf o' = m_pRespHeaderBuf o ->
  hdrs_ok hs o'.
Proof. intros [] E1 E2 E3 E4. split; rewrite ?E1, ?E2, ?E3, ?E4; done. Qed.

(** ** The response half between two calls

    [resp_ok hs B P o]: the headers recorded are [hs], [B] is buffered, [P] waits in
    the iovecs. *)
Record resp_ok (hs : list (list Z)) (B P : list Z) (o : resp_out) : Prop := {
  ro_hdrs : hdrs_ok hs o;
  ro_buf : zlen (m_pRespBuf o) = LSAPI_RESP_BUF_SIZE;
  ro_pos : 0 <= m_pRespBufPos o < LSAPI_RESP_BUF_SIZE;
  ro_B : slice 0 (m_pRespBufPos o) (m_pRespBuf o) = B;
  ro_total : m_totalLen o = zlen P;
  ro_size : zlen P < 2 ^ 26;
  ro_queue : queued 0 false 2 P o
}.

Lemma resp_ok_zlen hs B P o : resp_ok hs B P o -> zlen B = m_pRespBufPos o.
Proof. intros []. rewrite <- ro_B0. unfold LSAPI_RESP_BUF_SIZE in *. apply zlen_slice; lia. Qed.

(** The header packet in the queue. *)
Definition header_packet (status : Z) (hs : list (list Z)) : list Z :=
  packet LSAPI_RESP_HEADER (resp_header_payload status hs).

#[global] Arguments header_packet : simpl never.

Lemma header_packet_ok status hs :
  Forall (fun h => 1 <= zlen h <= LSAPI_RESP_HTTP_HEADER_MAX) hs -> zlen hs <= LSAPI_MAX_RESP_HEADERS ->
  zlen (header_packet status hs) = 16 + 2 * zlen hs + zlen (lines hs) /\
  0 <= zlen (header_packet status hs) < 2 ^ 26 /\ packet_ok (LSAPI_RESP_HEADER, resp_header_payload status hs).
Proof.
  intros Hh Hm. pose proof (zlen_lines_bound hs Hh). pose proof (zlen_nonneg hs).
  unfold header_packet, packet_ok, LSAPI_RESP_HEADER, LSAPI_MAX_RESP_HEADERS in *. cbn [fst snd].
  rewrite zlen_packet, zlen_payload. repeat split; lia.
Qed.

(** The fields after [LSAPI_FinalizeRespHeaders_r]. *)
Definition finalized (o : resp_out) : resp_out :=
  let hpos := m_pRespHeaderBufPos o in
  let hdr := Some (mkIov IovRespHeader 0 (16 + 2 * m_cntHeaders o)) in
  let total := hpos + 16 + 2 * m_cntHeaders o in
  let o := set_m_totalLen total
             (set_m_pktHeader (lsapi_buildPacketHeader LSAPI_RESP_HEADER total) (set_m_pIovecToWrite 0 o)) in
  if 0 <? hpos then
    set_m_pIovecCur 2
      (set_m_pIovec (<[0%nat := hdr]> (<[1%nat := Some (mkIov (IovRespHeaderBuf (m_respHeaderGen o)) 0 hpos)]>
                       (m_pIovec o))) o)
  else set_m_pIovec (<[0%nat := hdr]> (m_pIovec o)) o.

Definition unset_state_bit (bit : Z) (s : st) : st :=
  on_req (fun r => set_m_reqState (Z.land (m_reqState r) (Z.lnot bit)) r) s.

Lemma set_iov_spec i b off len s (Q : unit -> st -> Prop) :
  length (m_pIovec (m_out (req s))) = 16%nat -> 0 <= i < 16 ->
  Q tt (on_out (fun o => set_m_pIovec (<[Z.to_nat i := Some (mkIov b off len)]> (m_pIovec o)) o) s) ->
  wp (set_iov i b off len) Q s.
Proof.
  intros Hl Hi HQ. unfold set_iov. wsteps.
  rewrite (proj2 (in_range_spec _ _ _)) by (unfold zlen; lia). wsteps. exact HQ.
Qed.

Lemma finalize_spec hs B s (Q : Z -> st -> Prop) :
  resp_ok hs B [] (m_out (req s)) -> m_pIovecCur (m_out (req s)) = 1 ->
  m_pIovecToWrite (m_out (req s)) = 1 -> Z.land (m_reqState (req s)) LSAPI_ST_RESP_HEADER <> 0 ->
  Q 0 (on_out finalized (unset_state_bit LSAPI_ST_RESP_HEADER s)) ->
  wp LSAPI_FinalizeRespHeaders_r Q s.
Proof.
  intros Hok Hcur Hto Hst HQ.
  pose proof (header_packet_ok 0 hs (h_each _ _ (ro_hdrs _ _ _ _ Hok)) (h_max _ _ (ro_hdrs _ _ _ _ Hok))) as (Hz & Hb & _).
  pose proof (q_vec _ _ _ _ _ (ro_queue _ _ _ _ Hok)) as Hvec.
  pose proof (ro_total _ _ _ _ Hok) as Ht. change (zlen []) with 0 in Ht.
  pose proof (h_cnt _ _ (ro_hdrs _ _ _ _ Hok)) as Hc. pose proof (h_pos _ _ (ro_hdrs _ _ _ _ Hok)) as Hp.
  pose proof (zlen_nonneg hs). pose proof (zlen_nonneg (lines hs)).
  fields s. cbn in *. subst cur to tot cnt hp.
  unfold LSAPI_FinalizeRespHeaders_r, has_state, add_total. run.
  unfold zlen at 1. rewrite Hvec, (proj2 (Z.eqb_neq _ 0) Hst). change (Z.of_nat 16 =? 0) with false. cbn.
  revert HQ. unfold finalized, on_out, unset_state_bit, on_req. cbn. intros HQ.
  run. destruct (0 <? zlen (lines hs)) eqn:E; run.
  - apply push_iov_spec; [done|cbn; lia|]. unfold pushed. run.
    apply set_iov_spec; [cbn; by rewrite length_insert|lia|].
    run. s32s. rewrite Z.add_assoc. exact HQ.
  - assert (zlen (lines hs) = 0) as E0 by (bsplit; lia). rewrite E0 in *.
    apply set_iov_spec; [done|lia|]. run. s32s. exact HQ.
Qed.

Lemma header_packet_split status hs :
  header_packet status hs =
  (pkt_bytes (lsapi_buildPacketHeader LSAPI_RESP_HEADER (zlen (lines hs) + 16 + 2 * zlen hs)) ++
   le32 (zlen hs) ++ le32 status ++ concat ((fun h => le16 (zlen h + 1)) <$> hs)) ++ lines hs.
Proof.
  unfold header_packet, packet. rewrite zlen_payload. unfold resp_header_payload, LSAPI_PACKET_HEADER_LEN.
  rewrite <- !app_assoc. do 3 f_equal. lia.
Qed.

Lemma iov_at_insert_eq vec i v :
  0 <= i < zlen vec -> iov_at (<[Z.to_nat i := Some v]> vec) i = Some v.
Proof.
  intros. apply iov_at_lookup. split; [lia|]. apply list_lookup_insert_eq. unfold zlen in *. lia.
Qed.

Lemma finalized_queue hs o :
  hdrs_ok hs o -> length (m_pIovec o) = 16%nat -> length (m_respPktHeader o) = 5%nat ->
  m_pIovecCur o = 1 -> queued 0 false 2 (header_packet (m_status o) hs) (finalized o) /\
  0 < m_pIovecCur (finalized o).
Proof.
  intros Hh Hv Hk Hc. pose proof (h_cnt _ _ Hh) as Hcnt. pose proof (h_pos _ _ Hh) as Hpos.
  pose proof (zlen_nonneg hs). pose proof (zlen_nonneg (lines hs)).
  pose proof (resp_header_iov hs o (zlen (lines hs) + 16 + 2 * zlen hs) Hh) as Hb0.
  rewrite header_packet_split. unfold finalized. rewrite Hpos, Hcnt in *.
  destruct (0 <? zlen (lines hs)) eqn:E; bsplit; (split; [|cbn; lia]).
  - set (o' := set_m_pIovecCur _ _). set (v1 := mkIov (IovRespHeaderBuf _) _ _) in *.
    set (v0 := mkIov IovRespHeader _ _) in *.
    assert (iov_at (m_pIovec o') 0 = Some v0) as Hat0.
    { apply (iov_at_insert_eq _ 0). unfold zlen. rewrite length_insert. cbn. lia. }
    assert (iov_at (m_pIovec o') 1 = Some v1) as Hat1.
    { etrans; [apply (iov_at_insert_ne _ 0); lia|]. apply (iov_at_insert_eq _ 1). unfold zlen. cbn. lia. }
    assert (iov_bytes o' v1 = Some (lines hs)) as Hb1.
    { unfold iov_bytes, iov_obj_bytes. cbn. rewrite Nat.eqb_refl. cbn.
      rewrite load_Some by (lia || apply Hh). f_equal. apply Hh. }
    split; cbn [m_pIovecCur m_pIovecToWrite].
    + cbn. by rewrite !length_insert.
    + done.
    + cbn. lia.
    + apply (gather_snoc o' _ 0 1 _ v1); [|done|done]. rewrite <- (app_nil_l (pkt_bytes _ ++ _)).
      by apply (gather_snoc o' _ 0 0 _ v0).
    + intros i v Hi Hat. cbn in Hi. assert (i = 0 \/ i = 1) as [-> | ->] by lia; simplify_eq; done.
    + intros v _ Hat. change (iov_at (m_pIovec o') 0 = Some v) in Hat.
      rewrite Hat0 in Hat. injection Hat as <-. cbn. unfold LSAPI_PACKET_HEADER_LEN. lia.
  - set (o' := set_m_pIovec _ _). set (v0 := mkIov IovRespHeader _ _) in *.
    assert (iov_at (m_pIovec o') 0 = Some v0) as Hat0.
    { apply (iov_at_insert_eq _ 0). unfold zlen. cbn. lia. }
    assert (forall X, X ++ lines hs = X) as El.
    { intros. rewrite (zlen_0_inv (lines hs)) by lia. apply app_nil_r. }
    rewrite El.
    split; cbn [m_pIovecCur m_pIovecToWrite].
    + cbn. by rewrite !length_insert.
    + done.
    + cbn. lia.
    + cbn. rewrite Hc. rewrite <- (app_nil_l (pkt_bytes _ ++ _)). apply (gather_snoc o' _ 0 0 _ v0); [done|exact Hat0|exact Hb0].
    + intros i v Hi Hat. cbn in Hi. assert (i = 0) as -> by lia; simplify_eq; done.
    + intros v _ Hat. change (iov_at (m_pIovec o') 0 = Some v) in Hat.
      rewrite Hat0 in Hat. injection Hat as <-. cbn. unfold LSAPI_PACKET_HEADER_LEN. lia.
Qed.

Lemma finalized_ok hs B o :
  resp_ok hs B [] o -> m_pIovecCur o = 1 ->
  resp_ok hs B (header_packet (m_status o) hs) (finalized o) /\
  m_pIovecToWrite (finalized o) = 0 /\ 0 < m_pIovecCur (finalized o).
Proof.
  intros [] Hc. pose proof (q_vec _ _ _ _ _ ro_queue0). pose proof (q_pkts _ _ _ _ _ ro_queue0).
  destruct (finalized_queue hs o) as [Hq Hpos]; [done..|].
  destruct (header_packet_ok (m_status o) hs (h_each _ _ ro_hdrs0) (h_max _ _ ro_hdrs0)) as (Hz & Hsz & _).
  pose proof (h_cnt _ _ ro_hdrs0). pose proof (h_pos _ _ ro_hdrs0).
  split; [|split; [|done]].
  - split; [eapply hdrs_ok_frame; [exact ro_hdrs0|..]| | | | |lia|exact Hq];
      unfold finalized; destruct (0 <? _); cbn; try done; lia.
  - unfold finalized. by destruct (0 <? _).
Qed.

(** ** What a call does to the world

    [effect fd w s s']: the bytes [w] went out on [fd]; the kernel's script only got
    shorter; the request half, the listening socket and the settings are untouched. *)
Record effect (fd : Z) (w : list Z) (s s' : st) : Prop := {
  ef_sent : sent_on fd (os s') = sent_on fd (os s) ++ w;
  ef_evs : k_writes (os s') `suffix_of` k_writes (os s);
  ef_skip : s_skip_write (os s') = s_skip_write (os s);
  ef_log : s_stderr_log_path (os s') = s_stderr_log_path (os s);
  ef_listen : m_fdListen (req s') = m_fdListen (req s);
  ef_in : m_in (req s') = m_in (req s);
  ef_allocs : k_allocs (os s') `suffix_of` k_allocs (os s)
}.

Lemma effect_trans fd w1 w2 s1 s2 s3 :
  effect fd w1 s1 s2 -> effect fd w2 s2 s3 -> effect fd (w1 ++ w2) s1 s3.
Proof.
  intros [E1 E2 E3 E4 E5 E6 E7] [F1 F2 F3 F4 F5 F6 F7].
  split; [by rewrite F1, E1, app_assoc|by etrans|congruence..|by etrans].
Qed.

Lemma effect_none fd s s' :
  k_sent (os s') = k_sent (os s) -> k_writes (os s') = k_writes (os s) ->
  s_skip_write (os s') = s_skip_write (os s) -> s_stderr_log_path (os s') = s_stderr_log_path (os s) ->
  m_fdListen (req s') = m_fdListen (req s) -> m_in (req s') = m_in (req s) ->
  k_allocs (os s') `suffix_of` k_allocs (os s) -> effect fd [] s s'.
Proof.
  intros E1 E2 E3 E4 E5 E6 E7. split; try done.
  - unfold sent_on. by rewrite E1, app_nil_r.
  - by rewrite E2.
Qed.

(** Whatever does not touch the process has no effect on the wire. *)
Lemma effect_on_out fd f s : effect fd [] s (on_out f s).
Proof. by apply effect_none. Qed.

Lemma effect_wrote fd w s s' : wrote fd w s s' -> effect fd w s s'.
Proof.
  intros Hw. pose proof (wrote_frame _ _ _ _ Hw) as Hf. pose proof (wrote_req _ _ _ _ Hw) as Hr.
  split; [by apply wrote_sent_on|apply Hw|by rewrite Hf|by rewrite Hf|by rewrite Hr|by rewrite Hr|by rewrite Hf].
Qed.

Lemma effect_short fd w s s' :
  effect fd w s s' -> short_total (k_writes (os s')) <= short_total (k_writes (os s)).
Proof.
  intros [_ [evs ->] _ _ _ _ _]. induction evs as [|ev evs IH]; [done|].
  cbn [app short_total]. destruct (w_res ev); lia.
Qed.

Definition closed_post (fd : Z) (s : st) {A} (_ : A) (s' : st) : Prop :=
  effect fd [] s s' /\ req s' = req s.

Lemma close_loop_spec evs : forall fd fd' s, wp (close_loop evs fd') (closed_post fd s) s.
Proof.
  induction evs as [|ev evs IH]; intros fd fd' s; cbn [close_loop]; wsteps; [by split; [apply effect_none|]|].
  unfold sys_close_ev, signal_stop.
  set (s1 := on_os (set_k_closes evs) s).
  assert (forall b, exists s2, (if b : bool then mod_os (set_g_running false) else mret ()) s1 = Some (tt, s2)
            /\ closed_post fd s tt s2) as Hst.
  { intros []; eexists; (split; [done|]); (split; [by apply effect_none|done]). }
  destruct (Hst (c_stop ev)) as (s2 & Hrun & He & Hr). clear Hst.
  unfold wp, mbind, M_bind. rewrite Hrun.
  destruct (c_res ev) as [|e].
  { split; [|done]. eapply (effect_trans _ [] []); [exact He|]. by apply effect_none. }
  cbv [mret M_ret get_os gets]. change (-1 =? -1) with true. cbn [andb].
  destruct (is_eintr e && g_running (os s2)); cbn [andb].
  - eapply wp_mono; [apply IH|]. intros a s3 [He3 Hr3]. split; [|congruence].
    apply (effect_trans _ [] []  _ _ _ He He3).
  - by split.
Qed.

Lemma close_connection_spec fd s (Q : unit -> st -> Prop) :
  m_fd (req s) <> -1 ->
  (forall s', effect fd [] s s' -> req s' = set_m_fd (-1) (req s) -> Q tt s') ->
  wp lsapi_close_connection Q s.
Proof.
  intros Hfd HQ. unfold lsapi_close_connection, lsapi_close, count_busy, worker_state. wsteps.
  rewrite (proj2 (Z.eqb_neq _ _)) by done. wsteps.
  eapply wp_mono; [apply (close_loop_spec _ fd)|]. intros a s1 [He Hr]. wsteps. apply HQ.
  - eapply (effect_trans _ [] []); [exact He|]. by apply effect_none.
  - cbn. by rewrite Hr.
Qed.

(** ** Flushing *)

(** The response half after a flush: the queue is empty, the rest is as before. *)
Definition drained (vec : list (option iovec)) (o : resp_out) : resp_out :=
  set_m_pIovecCur 0 (set_m_pIovecToWrite 0 (set_m_totalLen 0 (set_m_pIovec vec o))).

(** The outcome of sending the queue [P]: all of it went out and the connection
    stays, or a prefix went out, the answer is -1 and the connection is closed. *)
Record sent_post (fd : Z) (P : list Z) (s : st) (ret : Z) (s' : st) : Prop := {
  sp_out : exists vec, length vec = 16%nat /\ m_out (req s') = drained vec (m_out (req s));
  sp_state : m_reqState (req s') = m_reqState (req s);
  sp_wire : exists w rest, P = w ++ rest /\ effect fd w s s' /\
    ((rest = [] /\ ret = zlen P /\ m_fd (req s') = fd) \/ (rest <> [] /\ ret = -1 /\ m_fd (req s') = -1))
}.

(** A kernel whose short counts, together, end inside a packet header. *)
Definition kernel_ok (s : st) : Prop :=
  s_skip_write (os s) = false /\ short_total (k_writes (os s)) < LSAPI_PACKET_HEADER_LEN.

Lemma kernel_ok_effect fd w s s' : effect fd w s s' -> kernel_ok s -> kernel_ok s'.
Proof.
  intros He [Hs Hk]. pose proof (effect_short _ _ _ _ He). split; [|lia].
  by rewrite (ef_skip _ _ _ _ He).
Qed.

Lemma send_queue_spec fd k rb c P s (Q : Z -> st -> Prop) :
  0 <= fd -> kernel_ok s -> m_fd (req s) = fd -> queued k rb c P (m_out (req s)) ->
  m_pIovecToWrite (m_out (req s)) < m_pIovecCur (m_out (req s)) ->
  m_totalLen (m_out (req s)) = zlen P ->
  (forall ret s', sent_post fd P s ret s' -> Q ret s') ->
  wp (send_queue (m_pIovecCur (m_out (req s)) - m_pIovecToWrite (m_out (req s)))) Q s.
Proof.
  intros Hfd [Hskip Hk] Hsfd Hq Hlt Ht HQ. pose proof (q_cur _ _ _ _ _ Hq) as Hcur.
  pose proof (q_gather _ _ _ _ _ Hq) as Hg. unfold send_queue. wsteps. rewrite Ht, Hsfd.
  replace (Z.to_nat _) with (S (Z.to_nat (m_pIovecCur (m_out (req s)) - m_pIovecToWrite (m_out (req s)) - 1)))
    in * by lia.
  pose proof Hg as (v & _ & _ & Hv & _)%gather_S. pose proof (q_first _ _ _ _ _ Hq v Hlt Hv) as Hf.
  unfold lsapi_writev. wsteps. rewrite Hskip. wsteps.
  eapply wp_mono; [eapply (writev_loop_spec _ fd _ _ _ v); eauto; lia|].
  intros [ret [vec from]] s1 (w & rest & HP & Hw & Hret & Hiff & Hlen). cbn [fst snd] in *. wsteps.
  set (s2 := on_out _ s1).
  assert (effect fd w s s2) as He.
  { rewrite <- (app_nil_r w). eapply effect_trans; [by apply effect_wrote|apply effect_on_out]. }
  pose proof (wrote_req _ _ _ _ Hw) as Hr. rewrite (q_vec _ _ _ _ _ Hq) in Hlen.
  assert (m_fd (req s2) = fd) as Hfd2 by (cbn; by rewrite Hr).
  assert (m_reqState (req s2) = m_reqState (req s)) as Hst2 by (cbn; by rewrite Hr).
  unfold rewind_iovec. destruct (Z.ltb_spec ret (zlen P)) as [Hl|Hl].
  - apply (close_connection_spec fd); [lia|]. intros s3 He3 Hr3. wsteps. apply HQ. split.
    + exists vec. split; [done|]. cbn. rewrite Hr3. cbn. by rewrite Hr.
    + cbn. rewrite Hr3. cbn. by rewrite Hr.
    + exists w, rest. split; [done|]. split; [|right].
      * rewrite <- (app_nil_r w). eapply effect_trans; [exact He|].
        eapply (effect_trans _ [] []); [exact He3|]. by apply effect_none.
      * split; [intros E; apply Hiff in E; lia|]. split; [done|]. cbn. by rewrite Hr3.
  - wsteps. apply HQ. split; [exists vec; split; [done|]; cbn; by rewrite Hr|done|].
    exists w, rest. split; [done|]. split; [|left].
    + rewrite <- (app_nil_r w). eapply effect_trans; [exact He|by apply effect_none].
    + split; [apply Hiff; lia|]. split; [lia|done].
Qed.

(** *** The buffered body as a packet *)

Definition body_queued (o : resp_out) : resp_out :=
  let pos := m_pRespBufPos o in
  set_m_pRespBufPos 0
    (pushed (mkIov IovRespBuf 0 pos)
       (pushed (mkIov (IovPkt 0) 0 LSAPI_PACKET_HEADER_LEN)
          (set_m_totalLen (m_totalLen o + pos + LSAPI_PACKET_HEADER_LEN)
             (set_m_respPktHeader
                (<[0%nat := lsapi_buildPacketHeader LSAPI_RESP_STREAM (pos + LSAPI_PACKET_HEADER_LEN)]>
                   (m_respPktHeader o)) o)))).

Lemma iov_pkt_bytes o k h :
  m_respPktHeader o !! k = Some h ->
  iov_bytes o (mkIov (IovPkt k) 0 LSAPI_PACKET_HEADER_LEN) = Some (pkt_bytes h).
Proof.
  intros Hk. unfold iov_bytes, iov_obj_bytes. cbn [iov_obj_of iov_off iov_len]. rewrite Hk.
  cbn [fmap option_fmap option_map mbind option_bind].
  unfold LSAPI_PACKET_HEADER_LEN. rewrite <- (zlen_pkt_bytes h), load_Some by (rewrite ?zlen_pkt_bytes; lia).
  by rewrite slice_all.
Qed.

Lemma queued_total k rb c P o t : queued k rb c P o -> queued k rb c P (set_m_totalLen t o).
Proof. intros Hq. eapply queued_frame; [exact Hq|done..|apply Hq|done]. Qed.

Lemma body_queued_ok hs B P o :
  resp_ok hs B P o -> B <> [] ->
  queued 1 true 4 (P ++ packet LSAPI_RESP_STREAM B) (body_queued o).
Proof.
  intros [] HB. pose proof (resp_ok_zlen hs B P o ltac:(by split)) as HzB.
  pose proof (q_cur _ _ _ _ _ ro_queue0) as Hc. pose proof (q_pkts _ _ _ _ _ ro_queue0) as Hk.
  assert (0 < m_pRespBufPos o).
  { rewrite <- HzB. destruct B; [done|]. rewrite zlen_cons. pose proof (zlen_nonneg B). lia. }
  unfold body_queued, packet. cbn zeta.
  set (h := lsapi_buildPacketHeader LSAPI_RESP_STREAM (m_pRespBufPos o + LSAPI_PACKET_HEADER_LEN)).
  replace (lsapi_buildPacketHeader LSAPI_RESP_STREAM (LSAPI_PACKET_HEADER_LEN + zlen B)) with h
    by (subst h; f_equal; lia).
  set (o1 := set_m_totalLen _ _).
  assert (queued 1 false 2 P o1) as Hq1.
  { apply queued_total. eapply (queued_mono 0 _ false); [apply queued_set_pkt, ro_queue0|lia|done|lia]. }
  assert (queued 1 true 3 (P ++ pkt_bytes h) (pushed (mkIov (IovPkt 0) 0 LSAPI_PACKET_HEADER_LEN) o1)) as Hq2.
  { eapply queued_mono; [apply (queued_pushed _ _ _ _ _ _ (pkt_bytes h) Hq1)| | |]; try done; try lia.
    - cbn. lia.
    - cbn. lia.
    - apply iov_pkt_bytes. cbn. apply list_lookup_insert_eq. lia. }
  assert (iov_bytes o (mkIov IovRespBuf 0 (m_pRespBufPos o)) = Some B) as Hb.
  { unfold iov_bytes. cbn. rewrite load_Some by (unfold LSAPI_RESP_BUF_SIZE in *; lia). by rewrite ro_B0. }
  pose proof (queued_pushed _ _ _ _ _ (mkIov IovRespBuf 0 (m_pRespBufPos o)) B Hq2
                ltac:(cbn; lia) ltac:(done) Hb ltac:(cbn; lia)) as Hq3.
  rewrite app_assoc. eapply (queued_frame _ _ _ _ _ _ Hq3); try done. apply Hq3.
Qed.

Lemma set_pkt_spec i h s (Q : unit -> st -> Prop) :
  (i < length (m_respPktHeader (m_out (req s))))%nat ->
  Q tt (on_out (fun o => set_m_respPktHeader (<[i := h]> (m_respPktHeader o)) o) s) ->
  wp (set_pkt i h) Q s.
Proof.
  intros Hi HQ. unfold set_pkt. wsteps. rewrite (proj2 (Nat.ltb_lt _ _)) by done. wsteps. exact HQ.
Qed.

Definition set_bit (bit : Z) (s : st) : st :=
  on_req (fun r => set_m_reqState (Z.lor (m_reqState r) bit) r) s.

Lemma Flush_RespBuf_spec hs B P s (Q : unit -> st -> Prop) :
  resp_ok hs B P (m_out (req s)) -> B <> [] ->
  Q tt (on_out body_queued (set_bit LSAPI_ST_RESP_BODY s)) ->
  wp Flush_RespBuf_r Q s.
Proof.
  intros Hok HB HQ. pose proof (resp_ok_zlen _ _ _ _ Hok) as HzB.
  destruct Hok as [_ Hbuf Hpos _ Ht HP Hq]. pose proof (q_cur _ _ _ _ _ Hq) as Hc.
  pose proof (q_pkts _ _ _ _ _ Hq) as Hk. pose proof (q_vec _ _ _ _ _ Hq) as Hv.
  assert (0 < m_pRespBufPos (m_out (req s))).
  { rewrite <- HzB. destruct B; [done|]. rewrite zlen_cons. pose proof (zlen_nonneg B). lia. }
  pose proof (zlen_nonneg P). fields s. unfold LSAPI_RESP_BUF_SIZE, LSAPI_PACKET_HEADER_LEN in *. cbn in *.
  revert HQ. unfold body_queued, pushed, set_bit, on_out, on_req. cbn. intros HQ.
  unfold Flush_RespBuf_r, set_state_bit, add_total, LSAPI_PACKET_HEADER_LEN. run.
  apply set_pkt_spec; [cbn; lia|]. run.
  apply push_iov_spec; [done|cbn; lia|]. unfold pushed. run. rewrite (proj2 (Z.ltb_lt _ _)) by lia.
  run. apply push_iov_spec; [cbn; by rewrite length_insert|cbn; lia|]. unfold pushed. run.
  s32s. rewrite Z.add_assoc. exact HQ.
Qed.

(** ** The three phases of a response

    Collecting headers (nothing is queued), opened (the header packet is queued or
    sent), in the body. *)
Inductive phase := Collecting | Opened | InBody.

#[export] Instance phase_eq_dec : EqDecision phase.
Proof. solve_decision. Defined.

Definition phase_code (p : phase) : Z :=
  match p with Collecting => 6 | Opened => 2 | InBody => 10 end.

Record resp_state (p : phase) (hs : list (list Z)) (B P : list Z) (s : st) : Prop := {
  rs_ok : resp_ok hs B P (m_out (req s));
  rs_code : m_reqState (req s) = phase_code p;
  rs_cursors : match p with
    | Collecting => m_pIovecCur (m_out (req s)) = 1 /\ m_pIovecToWrite (m_out (req s)) = 1 /\ B = []
    | Opened => m_pIovecToWrite (m_out (req s)) = 0 /\ B = []
    | InBody => m_pIovecToWrite (m_out (req s)) = 0
    end
}.

(** A queue is empty exactly when its cursors meet. *)
Lemma queued_empty k rb c P o :
  queued k rb c P o -> (P = [] <-> m_pIovecToWrite o = m_pIovecCur o).
Proof.
  intros Hq. pose proof (q_cur _ _ _ _ _ Hq) as Hc. pose proof (q_gather _ _ _ _ _ Hq) as Hg. split.
  - intros ->. destruct (Z.eq_dec (m_pIovecToWrite o) (m_pIovecCur o)) as [|Hne]; [done|exfalso].
    destruct (Z.to_nat _) as [|n] eqn:E; [lia|].
    apply gather_S in Hg as (v & bs & rest & Hv & Hb & _ & Happ).
    symmetry in Happ. apply app_eq_nil in Happ as [-> ->].
    pose proof (q_first _ _ _ _ _ Hq v ltac:(lia) Hv). apply iov_bytes_zlen in Hb.
    unfold LSAPI_PACKET_HEADER_LEN in *. change (zlen []) with 0 in Hb. lia.
  - intros E. rewrite E, Z.sub_diag in Hg. by injection Hg.
Qed.

Lemma resp_state_collecting hs B P s : resp_state Collecting hs B P s -> B = [] /\ P = [].
Proof.
  intros [Hok _ (Hc & Ht & HB)]. split; [done|].
  apply (queued_empty _ _ _ _ _ (ro_queue _ _ _ _ Hok)). congruence.
Qed.

(** What a flush leaves behind: [W] is everything that was waiting. *)
Record flushed (fd : Z) (p : phase) (hs : list (list Z)) (W : list Z) (s : st) (ret : Z) (s' : st) : Prop := {
  fl_state : resp_state p hs [] [] s';
  fl_status : m_status (m_out (req s')) = m_status (m_out (req s));
  fl_wire : exists w rest, W = w ++ rest /\ effect fd w s s' /\
    ((rest = [] /\ 0 <= ret /\ m_fd (req s') = fd) \/ (rest <> [] /\ ret = -1 /\ m_fd (req s') = -1))
}.

Definition body_packet (B : list Z) : list Z :=
  match B with [] => [] | _ => packet LSAPI_RESP_STREAM B end.

Lemma body_queued_rest hs B P o :
  resp_ok hs B P o -> m_pIovecToWrite o = 0 ->
  hdrs_ok hs (body_queued o) /\ zlen (m_pRespBuf (body_queued o)) = LSAPI_RESP_BUF_SIZE /\
  m_totalLen (body_queued o) = zlen (P ++ packet LSAPI_RESP_STREAM B) /\
  m_pIovecToWrite (body_queued o) < m_pIovecCur (body_queued o).
Proof.
  intros Hok Hto. pose proof (resp_ok_zlen _ _ _ _ Hok). destruct Hok.
  pose proof (q_cur _ _ _ _ _ ro_queue0). split; [by eapply hdrs_ok_frame|]. split; [done|].
  rewrite zlen_app, zlen_packet. cbn. unfold LSAPI_PACKET_HEADER_LEN. lia.
Qed.

(** A drained response half. *)
Lemma drained_ok hs k rb c P o vec :
  hdrs_ok hs o -> zlen (m_pRespBuf o) = LSAPI_RESP_BUF_SIZE -> m_pRespBufPos o = 0 ->
  queued k rb c P o -> length vec = 16%nat -> resp_ok hs [] [] (drained vec o).
Proof.
  intros Hh Hb Hp Hq Hv. split; try done.
  - by eapply hdrs_ok_frame.
  - cbn. rewrite Hp. unfold LSAPI_RESP_BUF_SIZE. lia.
  - cbn. by rewrite Hp.
  - split; cbn; try done; try lia. apply Hq.
Qed.

Lemma land_bit_code p : (Z.land (phase_code p) LSAPI_ST_RESP_HEADER =? 0) = match p with Collecting => false | _ => true end.
Proof. by destruct p. Qed.

(** The tail of [LSAPI_Flush_r], from a full queue. *)
Lemma flush_tail fd p hs k rb c W s0 s ret s' :
  sent_post fd W s ret s' -> effect fd [] s0 s -> m_status (m_out (req s)) = m_status (m_out (req s0)) ->
  m_reqState (req s) = phase_code p -> p <> Collecting ->
  hdrs_ok hs (m_out (req s)) -> zlen (m_pRespBuf (m_out (req s))) = LSAPI_RESP_BUF_SIZE ->
  m_pRespBufPos (m_out (req s)) = 0 -> queued k rb c W (m_out (req s)) ->
  flushed fd p hs W s0 ret s'.
Proof.
  intros [(vec & Hv & Ho) Hst (w & rest & HW & He & Hc)] He0 Hs Hcode Hp Hh Hb Hpos Hq. split.
  - split; [rewrite Ho; by eapply drained_ok|congruence|]. rewrite Ho. by destruct p.
  - by rewrite Ho.
  - exists w, rest. split; [done|]. split; [by apply (effect_trans _ [] _ _ _ _ He0)|].
    pose proof (zlen_nonneg W). destruct Hc as [(-> & -> & Hc)|Hc]; [by left|by right].
Qed.

Lemma Flush_r_spec fd p hs B P s (Q : Z -> st -> Prop) :
  0 <= fd -> kernel_ok s -> m_fd (req s) = fd -> resp_state p hs B P s -> p <> Collecting ->
  (forall ret s', flushed fd (if B is [] then p else InBody) hs (P ++ body_packet B) s ret s' -> Q ret s') ->
  wp LSAPI_Flush_r Q s.
Proof.
  intros Hfd Hk Hsfd [Hok Hcode Hcur] Hp HQ. pose proof (resp_ok_zlen _ _ _ _ Hok) as HzB.
  pose proof (ro_queue _ _ _ _ Hok) as Hq. pose proof (q_cur _ _ _ _ _ Hq) as Hc.
  pose proof (queued_empty _ _ _ _ _ Hq) as Hempty.
  assert (m_pIovecToWrite (m_out (req s)) = 0) as Hto by (destruct p; [done|apply Hcur|apply Hcur]).
  unfold LSAPI_Flush_r, ensure_finalized, flush_body, has_state. wsteps.
  destruct ((0 =? _) && _) eqn:En.
  { bsplit. assert (P = []) as -> by (apply Hempty; lia).
    assert (B = []) as -> by (apply zlen_0_inv; lia). wsteps. apply HQ. split; [by split|done|].
    exists [], []. split; [done|]. split; [by apply effect_none|by left]. }
  wsteps. rewrite (proj2 (Z.eqb_neq _ _)) by lia. wsteps. rewrite Hcode, land_bit_code.
  destruct p; [done| |]; cbn [negb]; wsteps.
  all: destruct (Z.eqb_spec (m_pRespBufPos (m_out (req s))) 0) as [Hz|Hz]; cbn [negb].
  all: swap 2 3.
  1,2: assert (B = []) as -> by (apply zlen_0_inv; lia); wsteps;
    assert (m_pIovecToWrite (m_out (req s)) < m_pIovecCur (m_out (req s))) as Hlt
      by (apply andb_false_iff in En; rewrite !Z.eqb_neq in En; lia);
    rewrite (proj2 (Z.ltb_lt _ _)) by lia; wsteps;
    eapply (send_queue_spec fd); [done|done|done|exact Hq|done|apply Hok|];
    intros ret s' Hsp; apply HQ; rewrite app_nil_r;
    eapply flush_tail; [exact Hsp|by apply effect_none|done|exact Hcode|done|apply Hok|apply Hok|done|exact Hq].
  { destruct Hcur as [_ HB]. rewrite HB in HzB. change (zlen []) with 0 in HzB. lia. }
  assert (B <> []) as HB by (intros ->; change (zlen []) with 0 in HzB; lia).
  apply (Flush_RespBuf_spec hs B P); [done..|]. wsteps.
  pose proof (body_queued_ok _ _ _ _ Hok HB) as Hq2.
  destruct (body_queued_rest _ _ _ _ Hok Hto) as (Hh & Hb & Ht & Hlt).
  set (s1 := on_out body_queued (set_bit LSAPI_ST_RESP_BODY s)).
  change (body_queued (m_out (req s))) with (m_out (req s1)) in *.
  rewrite (proj2 (Z.ltb_lt _ _)) by lia.
  eapply (send_queue_spec fd _ _ _ _ s1); [done|done|done|exact Hq2|done|done|].
  intros ret s' Hsp. apply HQ. destruct B as [|b B']; [done|].
  eapply flush_tail; [exact Hsp|by apply effect_none|done|cbn; by rewrite Hcode|done|done|done|done|exact Hq2].
Qed.

(** ** Writing the body *)

Lemma queued_bound k rb c c' P o : queued k rb c P o -> m_pIovecCur o <= c' -> queued k rb c' P o.
Proof. intros [] ?. split; auto. tauto. Qed.

(** A packet header and its slot. *)
Lemma queued_start k rb c W o h t :
  queued k rb c W o -> (k < 5)%nat -> m_pIovecCur o < 16 ->
  queued (S k) rb (c + 1) (W ++ pkt_bytes h)
    (pushed (mkIov (IovPkt k) 0 LSAPI_PACKET_HEADER_LEN)
       (set_m_totalLen t (set_m_respPktHeader (<[k := h]> (m_respPktHeader o)) o))).
Proof.
  intros Hq Hk Hc. pose proof (q_pkts _ _ _ _ _ Hq) as Hl. apply queued_pushed.
  - apply queued_total. eapply queued_mono; [by apply queued_set_pkt|lia|done|lia].
  - done.
  - unfold uses. cbn. lia.
  - apply iov_pkt_bytes. cbn. apply list_lookup_insert_eq. lia.
  - cbn. lia.
Qed.

(** The response half inside the loop: [B] is still buffered, [W] is queued over
    [k] packet headers. *)
Record writing (k : nat) (hs : list (list Z)) (B W : list Z) (o : resp_out) : Prop := {
  wr_hdrs : hdrs_ok hs o;
  wr_buf : zlen (m_pRespBuf o) = LSAPI_RESP_BUF_SIZE;
  wr_pos : 0 <= m_pRespBufPos o < LSAPI_RESP_BUF_SIZE;
  wr_B : slice 0 (m_pRespBufPos o) (m_pRespBuf o) = B;
  wr_total : m_totalLen o = zlen W;
  wr_queue : queued k true (3 + 2 * Z.of_nat k) W o;
  wr_to : m_pIovecToWrite o = 0;
  wr_first : k = 0%nat -> m_pIovecCur o <= 2;
  wr_buffered : k <> 0%nat -> B = [] /\ 0 < m_pIovecCur o;
  wr_size : zlen W < 2 ^ 26 + Z.of_nat k * 2 ^ 15
}.

Lemma packet_stream_split B U :
  packet LSAPI_RESP_STREAM (B ++ U) =
  pkt_bytes (lsapi_buildPacketHeader LSAPI_RESP_STREAM (zlen B + zlen U + LSAPI_PACKET_HEADER_LEN)) ++ B ++ U.
Proof. unfold packet. rewrite zlen_app. do 3 f_equal. lia. Qed.

Lemma user_iov_bytes o buf p n :
  0 <= p -> 0 <= n -> p + n <= zlen buf ->
  iov_bytes o (mkIov (IovUser buf) p n) = Some (slice p n buf).
Proof. intros. unfold iov_bytes. cbn. by rewrite load_Some. Qed.

(** The last iovec of a packet: the caller's bytes. *)
Lemma push_user_spec k hs X B buf p n h o s (Q : unit -> st -> Prop) :
  queued (S k) true (4 + 2 * Z.of_nat k) ((X ++ pkt_bytes h) ++ B) o -> (k < 4)%nat ->
  hdrs_ok hs o -> zlen (m_pRespBuf o) = LSAPI_RESP_BUF_SIZE -> m_pRespBufPos o = 0 ->
  m_totalLen o = zlen X + 8 + zlen B + n -> m_pIovecToWrite o = 0 -> 0 < m_pIovecCur o ->
  zlen X < 2 ^ 26 + Z.of_nat k * 2 ^ 15 -> zlen B + n <= LSAPI_MAX_DATA_PACKET_LEN ->
  0 <= p -> 0 < n -> p + n <= zlen buf ->
  (forall o', writing (S k) hs [] (X ++ pkt_bytes h ++ B ++ slice p n buf) o' ->
     m_status o' = m_status o -> Q tt (set_req (set_m_out o' (req s)) s)) ->
  wp (push_iov (IovUser buf) p n) Q (set_req (set_m_out o (req s)) s).
Proof.
  intros Hq Hk Hh Hb Hpos Ht Hto Hcur HX HBn Hp Hn Hle HQ.
  pose proof (q_cur _ _ _ _ _ Hq). pose proof (q_vec _ _ _ _ _ Hq).
  assert (zlen (slice p n buf) = n) as Hu by (apply zlen_slice; lia).
  unfold LSAPI_MAX_DATA_PACKET_LEN, LSAPI_PACKET_HEADER_LEN in *.
  apply push_iov_spec; [done|cbn; lia|].
  apply (HQ (pushed (mkIov (IovUser buf) p n) o)); [|done]. split; cbn.
  - by eapply hdrs_ok_frame.
  - done.
  - rewrite Hpos. unfold LSAPI_RESP_BUF_SIZE. lia.
  - by rewrite Hpos.
  - rewrite !zlen_app, zlen_pkt_bytes. lia.
  - rewrite !app_assoc. eapply queued_mono; [eapply (queued_pushed _ _ _ _ _ _ _ Hq)|..]; try done; try lia.
    by apply user_iov_bytes; lia.
  - done.
  - done.
  - intros _. split; [done|lia].
  - rewrite !zlen_app, zlen_pkt_bytes. lia.
Qed.

Lemma push_packet_spec k hs B W buf p n s (Q : unit -> st -> Prop) :
  writing k hs B W (m_out (req s)) -> (k < 4)%nat ->
  0 <= p -> 0 < n -> p + n <= zlen buf -> zlen B + n <= LSAPI_MAX_DATA_PACKET_LEN ->
  (forall o', writing (S k) hs [] (W ++ packet LSAPI_RESP_STREAM (B ++ slice p n buf)) o' ->
     m_status o' = m_status (m_out (req s)) -> Q tt (set_req (set_m_out o' (req s)) s)) ->
  wp (push_packet k (zlen B) (zlen B + n) buf p n) Q s.
Proof.
  intros [Hh Hbuf Hpos HB Ht Hq Hto Hf Hb Hs] Hk Hp Hn Hle Hmax HQ.
  pose proof (q_cur _ _ _ _ _ Hq) as Hc. pose proof (q_pkts _ _ _ _ _ Hq) as Hl.
  pose proof (q_vec _ _ _ _ _ Hq) as Hv. pose proof (zlen_nonneg W). pose proof (zlen_nonneg B).
  assert (zlen B = m_pRespBufPos (m_out (req s))) as HzB.
  { rewrite <- HB. unfold LSAPI_RESP_BUF_SIZE in *. apply zlen_slice; lia. }
  rewrite packet_stream_split, zlen_slice in HQ by lia. unfold push_packet.
  set (h := lsapi_buildPacketHeader LSAPI_RESP_STREAM (zlen B + n + LSAPI_PACKET_HEADER_LEN)) in *.
  set (o := m_out (req s)) in *.
  set (o1 := pushed (mkIov (IovPkt k) 0 LSAPI_PACKET_HEADER_LEN)
       (set_m_totalLen (s32 (m_totalLen o + (zlen B + n + LSAPI_PACKET_HEADER_LEN)))
          (set_m_respPktHeader (<[k := h]> (m_respPktHeader o)) o))).
  assert (queued (S k) true (3 + 2 * Z.of_nat k + 1) (W ++ pkt_bytes h) o1) as Hq1.
  { apply queued_start; [done|lia|lia]. }
  assert (m_totalLen o1 = zlen W + 8 + zlen B + n) as Ht1.
  { cbn. unfold LSAPI_MAX_DATA_PACKET_LEN, LSAPI_PACKET_HEADER_LEN in *. s32s. lia. }
  unfold add_total. wsteps. apply set_pkt_spec; [fold o; lia|]. wsteps.
  apply push_iov_spec; [done|cbn; fold o; lia|].
  change (on_out (pushed _) _) with (set_req (set_m_out o1 (req s)) s). wsteps.
  destruct (0 <? zlen B) eqn:EB; bsplit; wsteps.
  - assert (k = 0%nat) as ->.
    { destruct k; [done|]. destruct Hb as [-> _]; [done|]. change (zlen []) with 0 in EB. lia. }
    apply push_iov_spec; [apply Hq1|cbn; fold o; lia|]. wsteps.
    set (o2 := set_m_pRespBufPos 0 (pushed (mkIov IovRespBuf 0 (zlen B)) o1)).
    change (on_out _ _) with (set_req (set_m_out o2 (req s)) s).
    assert (iov_bytes o1 (mkIov IovRespBuf 0 (zlen B)) = Some B) as HbB.
    { unfold iov_bytes. cbn. fold o. rewrite load_Some by (unfold LSAPI_RESP_BUF_SIZE in *; lia).
      by rewrite HzB, HB. }
    pose proof (queued_pushed _ _ _ _ _ (mkIov IovRespBuf 0 (zlen B)) B Hq1 ltac:(cbn; fold o; lia) eq_refl
                  HbB ltac:(cbn; fold o; lia)) as Hq2.
    apply (push_user_spec 0 hs W B buf p n h o2); try done; try lia; [|by eapply hdrs_ok_frame|cbn; fold o; lia].
    eapply queued_bound; [eapply (queued_frame _ _ _ _ _ _ Hq2); try done; apply Hq2|cbn; fold o; lia].
  - assert (B = []) as EB0 by (apply zlen_0_inv; lia).
    apply (push_user_spec k hs W B buf p n h o1); try done; try lia; [|by eapply hdrs_ok_frame| | cbn; fold o; lia].
    + rewrite EB0, app_nil_r. eapply queued_bound; [exact Hq1|]. cbn. fold o.
      destruct k; [specialize (Hf eq_refl); lia|lia].
    + cbn. fold o. lia.
Qed.

(** Flushing a filled queue with an empty body buffer. *)
Lemma queue_flush_spec fd p k rb c hs W s (Q : Z -> st -> Prop) :
  0 <= fd -> kernel_ok s -> m_fd (req s) = fd -> m_reqState (req s) = phase_code p -> p <> Collecting ->
  hdrs_ok hs (m_out (req s)) -> zlen (m_pRespBuf (m_out (req s))) = LSAPI_RESP_BUF_SIZE ->
  m_pRespBufPos (m_out (req s)) = 0 -> m_totalLen (m_out (req s)) = zlen W ->
  queued k rb c W (m_out (req s)) -> W <> [] ->
  (forall ret s', flushed fd p hs W s ret s' -> Q ret s') ->
  wp LSAPI_Flush_r Q s.
Proof.
  intros Hfd Hk Hsfd Hcode Hp Hh Hbuf Hp0 Ht Hq HW HQ. pose proof (q_cur _ _ _ _ _ Hq).
  assert (m_pIovecToWrite (m_out (req s)) <> m_pIovecCur (m_out (req s))) as Hne
    by (intros E; by apply HW, (queued_empty _ _ _ _ _ Hq)).
  unfold LSAPI_Flush_r, ensure_finalized, flush_body, has_state. wsteps. rewrite Hp0.
  rewrite (proj2 (Z.eqb_neq _ _)) by lia. cbn [andb]. wsteps.
  rewrite (proj2 (Z.eqb_neq _ _)) by lia. wsteps. rewrite Hcode, land_bit_code.
  destruct p; [done| |]; cbn [negb]; wsteps; rewrite Hp0; closed_tests; wsteps;
    rewrite (proj2 (Z.ltb_lt _ _)) by lia;
    (eapply (send_queue_spec fd); [done|done|done|exact Hq|lia|done|]);
    intros ret s' Hsp; apply HQ;
    (eapply flush_tail; [exact Hsp|by apply effect_none|done|exact Hcode|done|done|done|done|exact Hq]).
Qed.

Lemma write_flush_spec fd k hs W s (Q : Z -> st -> Prop) :
  0 <= fd -> kernel_ok s -> m_fd (req s) = fd -> m_reqState (req s) = phase_code InBody ->
  writing k hs [] W (m_out (req s)) -> k <> 0%nat ->
  (forall ret s', flushed fd InBody hs W s ret s' -> Q ret s') ->
  wp LSAPI_Flush_r Q s.
Proof.
  intros Hfd Hk Hsfd Hcode [Hh Hbuf Hpos HB Ht Hq Hto _ Hb _] Hk0 HQ. destruct (Hb Hk0) as [_ Hcur].
  apply (queue_flush_spec fd InBody k true (3 + 2 * Z.of_nat k) hs W); try done.
  - apply (f_equal zlen) in HB. unfold LSAPI_RESP_BUF_SIZE in *. rewrite zlen_slice in HB by lia. done.
  - intros ->. pose proof (proj1 (queued_empty _ _ _ _ _ Hq) eq_refl). lia.
Qed.

(** A body as the payloads of STREAM packets. *)
Definition streams (chunks : list (list Z)) : list (Z * list Z) := pair LSAPI_RESP_STREAM <$> chunks.
Definition chunk_ok (c : list Z) : Prop := zlen c <= LSAPI_MAX_DATA_PACKET_LEN.

(** The outcome of sending [data] behind the queue [W]. *)
Record written (fd : Z) (hs : list (list Z)) (W data : list Z) (s : st) (len ret : Z) (s' : st) : Prop := {
  wn_state : resp_state InBody hs [] [] s';
  wn_status : m_status (m_out (req s')) = m_status (m_out (req s));
  wn_wire : exists chunks tail w rest, data = concat chunks ++ tail /\ Forall chunk_ok chunks /\
    W ++ packets (streams chunks) = w ++ rest /\ effect fd w s s' /\
    ((rest = [] /\ tail = [] /\ ret = len /\ m_fd (req s') = fd) \/
     (rest <> [] /\ ret = -1 /\ m_fd (req s') = -1))
}.

(** A flush in the middle: what follows it continues the stream. *)
Lemma written_after_flush fd hs W chunk data s len s1 r1 s2 ret :
  chunk_ok chunk -> flushed fd InBody hs (W ++ packet LSAPI_RESP_STREAM chunk) s r1 s1 ->
  m_fd (req s1) = fd -> 0 <= fd -> written fd hs [] data s1 len ret s2 ->
  written fd hs W (chunk ++ data) s len ret s2.
Proof.
  intros Hc [_ Hst (w & rest & HW & He & Hor)] Hfd Hpos [Hs2 Hst2 (cs & tail & w2 & rest2 & Hd & Hcs & Hp & He2 & Hor2)].
  destruct Hor as [(-> & _ & _)|(_ & _ & ?)]; [|lia]. rewrite app_nil_r in HW.
  split; [done|congruence|]. exists (chunk :: cs), tail, (w ++ w2), rest2.
  split; [cbn; by rewrite Hd, app_assoc|]. split; [by apply Forall_cons_2|]. split; [|split; [|done]].
  - cbn [streams fmap list_fmap]. rewrite packets_cons. cbn [fst snd]. rewrite app_assoc, HW.
    rewrite <- app_assoc. f_equal. exact Hp.
  - by eapply effect_trans.
Qed.

(** A flush that failed ends the call. *)
Lemma written_failed fd hs W chunk data s len s1 r1 :
  chunk_ok chunk -> flushed fd InBody hs (W ++ packet LSAPI_RESP_STREAM chunk) s r1 s1 ->
  r1 = -1 -> written fd hs W (chunk ++ data) s len (-1) s1.
Proof.
  intros Hc [Hs1 Hst (w & rest & HW & He & Hor)] ->. split; [done|done|].
  exists [chunk], data, w, rest. destruct Hor as [(_ & ? & _)|Hor]; [lia|].
  split; [cbn; by rewrite app_nil_r|]. split; [by apply Forall_cons_2|].
  split; [|split; [done|by right]]. cbn [streams fmap list_fmap]. rewrite packets_cons. cbn [fst snd].
  change (packets []) with (@nil Z). by rewrite app_nil_r.
Qed.

(** The packet stays in the queue. *)
Lemma written_queued fd hs W chunk data s0 s len s2 ret :
  chunk_ok chunk -> effect fd [] s0 s -> m_status (m_out (req s)) = m_status (m_out (req s0)) ->
  written fd hs (W ++ packet LSAPI_RESP_STREAM chunk) data s len ret s2 ->
  written fd hs W (chunk ++ data) s0 len ret s2.
Proof.
  intros Hc He0 Hst0 [Hs2 Hst (cs & tail & w & rest & Hd & Hcs & Hp & He & Hor)].
  split; [done|congruence|]. exists (chunk :: cs), tail, w, rest.
  split; [cbn; by rewrite Hd, app_assoc|]. split; [by apply Forall_cons_2|]. split; [|split; [|done]].
  - cbn [streams fmap list_fmap]. rewrite packets_cons. cbn [fst snd]. rewrite app_assoc. exact Hp.
  - by apply (effect_trans _ [] _ _ _ _ He0).
Qed.

(** After a flush the loop starts afresh. *)
Lemma flushed_writing hs s :
  resp_state InBody hs [] [] s -> writing 0 hs [] [] (m_out (req s)) /\ m_reqState (req s) = phase_code InBody.
Proof.
  intros [[] Hcode Hto]. split; [|done]. pose proof (q_cur _ _ _ _ _ ro_queue0).
  split; try done; try lia. eapply queued_mono; [exact ro_queue0|lia|done|lia].
Qed.

(** An empty queue uses nothing. *)
Lemma queued_nil k rb c o : queued k rb c [] o -> queued 0 false c [] o.
Proof.
  intros Hq. pose proof (proj1 (queued_empty _ _ _ _ _ Hq) eq_refl) as He.
  split; try apply Hq. intros i v Hi. lia.
Qed.

(** The end of the loop: what is queued is flushed. *)
Lemma Write_loop_end fd hs W len k s :
  0 <= fd -> kernel_ok s -> m_fd (req s) = fd -> m_reqState (req s) = phase_code InBody ->
  writing k hs [] W (m_out (req s)) -> (k = 0%nat -> W = []) ->
  wp (if (k =? 0)%nat then mret len
      else r ← LSAPI_Flush_r; if r =? -1 then mret (-1) else mret len)
     (written fd hs W [] s len) s.
Proof.
  intros Hfd Hk Hsfd Hcode Hw Hk0. destruct (Nat.eqb_spec k 0) as [->|Hne].
  - specialize (Hk0 eq_refl). subst W. wsteps. destruct Hw. split; [split|done|].
    + split; try done. eapply queued_bound; [by eapply queued_nil|by apply wr_first0].
    + done.
    + done.
    + exists [], [], [], []. split; [done|]. split; [done|]. split; [done|]. split; [by apply effect_none|by left].
  - wsteps. apply (write_flush_spec fd k hs W); [done..|]. intros r s1 Hf.
    destruct Hf as [Hs1 Hst (w & rest & HW & He & Hor)].
    assert (forall ret, (ret = if r =? -1 then -1 else len) -> written fd hs W [] s len ret s1) as Hall.
    { intros ret ->. split; [done|done|]. exists [], [], w, rest. split; [done|]. split; [done|].
      split; [by rewrite app_nil_r|]. split; [done|].
      destruct Hor as [(-> & ? & ?)|(? & -> & ?)]; [left|right; auto].
      rewrite (proj2 (Z.eqb_neq r (-1))) by lia. done. }
    destruct (r =? -1); wsteps; by apply Hall.
Qed.

Lemma flushed_from fd p hs W s0 s ret s' :
  effect fd [] s0 s -> m_status (m_out (req s)) = m_status (m_out (req s0)) ->
  flushed fd p hs W s ret s' -> flushed fd p hs W s0 ret s'.
Proof.
  intros He0 Hst0 [Hs Hst (w & rest & HW & He & Hor)]. split; [done|congruence|].
  exists w, rest. split; [done|]. split; [|done]. by apply (effect_trans _ [] _ _ _ _ He0).
Qed.

(** The size of the next packet. *)
Lemma packet_size p (B buf : list Z) :
  p < zlen buf -> zlen B < LSAPI_RESP_BUF_SIZE ->
  let whole := zlen buf - p + zlen B in
  let packetLen := if LSAPI_MAX_DATA_PACKET_LEN <? whole then LSAPI_MAX_DATA_PACKET_LEN else whole in
  let n := if LSAPI_MAX_DATA_PACKET_LEN <? whole then LSAPI_MAX_DATA_PACKET_LEN - zlen B else zlen buf - p in
  0 < n <= zlen buf - p /\ zlen B + n <= LSAPI_MAX_DATA_PACKET_LEN /\ packetLen = zlen B + n.
Proof.
  intros Hp HB. unfold LSAPI_MAX_DATA_PACKET_LEN, LSAPI_RESP_BUF_SIZE in *. cbn zeta.
  destruct (Z.ltb_spec 16384 (zlen buf - p + zlen B)); lia.
Qed.

Lemma Write_loop_spec fuel : forall fd hs B W buf p k s,
  (Z.to_nat (zlen buf - p) <= fuel)%nat -> 0 <= fd -> kernel_ok s -> m_fd (req s) = fd ->
  m_reqState (req s) = phase_code InBody -> writing k hs B W (m_out (req s)) -> (k < 4)%nat ->
  0 <= p <= zlen buf -> (p = zlen buf -> B = []) -> (k = 0%nat -> p < zlen buf \/ W = []) ->
  zlen B < LSAPI_RESP_BUF_SIZE ->
  wp (Write_loop fuel buf (zlen buf) p (zlen B) k)
     (written fd hs W (B ++ drop (Z.to_nat p) buf) s (zlen buf)) s.
Proof.
  induction fuel as [|fuel IH]; intros fd hs B W buf p k s Hfuel Hfd Hk Hsfd Hcode Hw Hk4 Hp HpB Hk0 HB;
    cbn [Write_loop]; (destruct (Z.leb_spec (zlen buf - p) 0) as [Hend|Hmore]; [|try lia]).
  1,2: assert (p = zlen buf) as -> by lia; rewrite (HpB eq_refl), drop_ge by (unfold zlen; lia);
    apply (Write_loop_end fd hs W); try done; try lia; [by rewrite (HpB eq_refl) in Hw|].
  1,2: intros ->; by destruct (Hk0 eq_refl); [lia|].
  destruct (packet_size p B buf) as (Hn & Hmax & Hpl); [lia|done|].
  set (n := if LSAPI_MAX_DATA_PACKET_LEN <? zlen buf - p + zlen B
            then LSAPI_MAX_DATA_PACKET_LEN - zlen B else zlen buf - p) in *.
  cbn zeta. rewrite Hpl.
  replace (if LSAPI_MAX_DATA_PACKET_LEN <? zlen buf - p + zlen B then zlen B + n - zlen B else zlen buf - p)
    with n by (subst n; destruct (_ <? _); lia).
  wsteps. apply (push_packet_spec k hs B W); [done|done|lia|lia|lia|lia|].
  intros o' Hw' Hst'. set (s1 := set_req _ s).
  assert (B ++ drop (Z.to_nat p) buf =
          (B ++ slice p n buf) ++ drop (Z.to_nat (p + n)) buf) as ->.
  { rewrite <- app_assoc. f_equal. rewrite Z2Nat.inj_add, <- drop_drop by lia. symmetry. apply take_drop. }
  assert (chunk_ok (B ++ slice p n buf)) as Hc.
  { unfold chunk_ok. rewrite zlen_app, zlen_slice by lia. done. }
  assert (effect fd [] s s1) as He by (by apply effect_none).
  pose proof (kernel_ok_effect _ _ _ _ He Hk) as Hk1.
  destruct (Nat.leb_spec 4 (S k)).
  - wsteps. apply (write_flush_spec fd (S k) hs (W ++ packet LSAPI_RESP_STREAM (B ++ slice p n buf)));
      [done..|]. intros r s2 Hf2.
    destruct (Z.eqb_spec r (-1)) as [->|Hr]; wsteps.
    { by eapply written_failed; [|eapply flushed_from|]. }
    assert (m_fd (req s2) = fd /\ exists w, effect fd w s1 s2) as [Hfd2 [w He2]].
    { destruct Hf2 as [_ _ (w & rest & _ & He2 & [(_ & _ & ?)|(_ & ? & _)])]; [eauto|lia]. }
    destruct (flushed_writing hs s2 ltac:(apply Hf2)) as [Hw2 Hcode2].
    eapply wp_mono.
    + apply (IH fd hs [] [] buf (p + n) 0%nat s2); try done; try lia; [|by right].
      by eapply kernel_ok_effect.
    + intros ret s3 H3. eapply written_after_flush; [done|by eapply flushed_from|done|done|exact H3].
  - eapply wp_mono.
    + apply (IH fd hs [] (W ++ packet LSAPI_RESP_STREAM (B ++ slice p n buf)) buf (p + n) (S k) s1); try done; lia.
    + intros ret s2 H2. by eapply written_queued.
Qed.

(** ** Opening the response *)

Definition opened_phase (p : phase) : phase := match p with Collecting => Opened | _ => p end.

(** What is queued once the headers are finalised. *)
Definition opened_queue (p : phase) (status : Z) (hs : list (list Z)) (P : list Z) : list Z :=
  match p with Collecting => header_packet status hs | _ => P end.

Lemma Finalize_r_spec fd p hs B P s (Q : Z -> st -> Prop) :
  resp_state p hs B P s ->
  (forall s', resp_state (opened_phase p) hs B (opened_queue p (m_status (m_out (req s))) hs P) s' ->
     effect fd [] s s' -> m_status (m_out (req s')) = m_status (m_out (req s)) ->
     m_fd (req s') = m_fd (req s) -> Q 0 s') ->
  wp LSAPI_FinalizeRespHeaders_r Q s.
Proof.
  intros Hrs HQ. destruct (decide (p = Collecting)) as [->|Hp].
  - destruct (resp_state_collecting _ _ _ _ Hrs) as [-> ->].
    destruct Hrs as [Hok Hcode (Hcur & Hto & _)].
    apply (finalize_spec hs []); [done|done|done|by rewrite Hcode|].
    destruct (finalized_ok hs [] _ Hok Hcur) as (Hok' & Hto' & _).
    apply HQ; [split|by apply effect_none| |done].
    + done.
    + cbn. by rewrite Hcode.
    + done.
    + cbn. unfold finalized. by destruct (0 <? _).
  - unfold LSAPI_FinalizeRespHeaders_r, has_state. wsteps. rewrite (rs_code _ _ _ _ _ Hrs), land_bit_code.
    pose proof (q_vec _ _ _ _ _ (ro_queue _ _ _ _ (rs_ok _ _ _ _ _ Hrs))) as Hvec.
    unfold zlen. rewrite Hvec. destruct p; [done|closed_tests; cbn [negb]; wsteps; apply HQ; [done|by apply effect_none|done..]..].
Qed.

Lemma ensure_finalized_spec fd p hs B P s (Q : Z -> st -> Prop) :
  resp_state p hs B P s ->
  (forall s', resp_state (opened_phase p) hs B (opened_queue p (m_status (m_out (req s))) hs P) s' ->
     effect fd [] s s' -> m_status (m_out (req s')) = m_status (m_out (req s)) ->
     m_fd (req s') = m_fd (req s) -> Q 0 s') ->
  wp ensure_finalized Q s.
Proof.
  intros Hrs HQ. unfold ensure_finalized, has_state. wsteps. rewrite (rs_code _ _ _ _ _ Hrs), land_bit_code.
  destruct p; cbn [negb]; [by eapply Finalize_r_spec|wsteps; apply HQ; [done|by apply effect_none|done..]..].
Qed.

(** Bytes that fit are appended to the buffer. *)
Lemma buffered_ok hs B P o bs rb :
  resp_ok hs B P o -> store (m_pRespBuf o) (m_pRespBufPos o) bs = Some rb ->
  m_pRespBufPos o + zlen bs < LSAPI_RESP_BUF_SIZE ->
  resp_ok hs (B ++ bs) P (set_m_pRespBufPos (m_pRespBufPos o + zlen bs) (set_m_pRespBuf rb o)).
Proof.
  intros [] Hst Hle. pose proof (zlen_nonneg bs). split; cbn; try done; try lia.
  - by eapply hdrs_ok_frame.
  - by rewrite (store_zlen _ _ _ _ Hst).
  - by rewrite (store_prefix _ _ _ _ Hst), ro_B0.
  - eapply queued_frame; [exact ro_queue0|done..|apply ro_queue0|].
    intros v Hu. unfold uses, iov_bytes, iov_obj_bytes in *. by destruct (iov_obj_of v).
Qed.

Lemma lor_body_code p :
  p <> Collecting -> Z.lor (phase_code p) LSAPI_ST_RESP_BODY = phase_code InBody.
Proof. by destruct p. Qed.

(** The state once the body has begun. *)
Lemma body_begun p hs B P s :
  resp_state p hs B P s -> p <> Collecting -> resp_state InBody hs B P (set_bit LSAPI_ST_RESP_BODY s).
Proof.
  intros [Hok Hcode Hcur] Hp. split; [done|cbn; rewrite Hcode; by apply lor_body_code|].
  cbn. destruct p; [done|apply Hcur|apply Hcur].
Qed.

Lemma opened_not_collecting p : opened_phase p <> Collecting.
Proof. by destruct p. Qed.

Lemma resp_state_writing hs B P s :
  resp_state InBody hs B P s -> writing 0 hs B P (m_out (req s)).
Proof.
  intros [[] _ Hto]. pose proof (q_cur _ _ _ _ _ ro_queue0). split; try done; try lia.
  eapply queued_mono; [exact ro_queue0|lia|done|lia].
Qed.

(** A write: the bytes are buffered, or everything up to them is sent. *)
Definition write_post (fd : Z) (hs : list (list Z)) (P B data : list Z) (s : st) (ret : Z) (s' : st) : Prop :=
  (ret = zlen data /\ resp_state InBody hs (B ++ data) P s' /\ effect fd [] s s' /\
   m_status (m_out (req s')) = m_status (m_out (req s)) /\ m_fd (req s') = fd) \/
  written fd hs P (B ++ data) s (zlen data) ret s'.

Lemma written_from fd hs W data s0 s len ret s' :
  effect fd [] s0 s -> m_status (m_out (req s)) = m_status (m_out (req s0)) ->
  written fd hs W data s len ret s' -> written fd hs W data s0 len ret s'.
Proof.
  intros He0 Hst0 [Hs Hst (cs & tail & w & rest & Hd & Hcs & Hp & He & Hor)]. split; [done|congruence|].
  exists cs, tail, w, rest. split; [done|]. split; [done|]. split; [done|]. split; [|done].
  by apply (effect_trans _ [] _ _ _ _ He0).
Qed.

Lemma Write_r_spec fd p hs B P buf s (Q : Z -> st -> Prop) :
  0 <= fd -> kernel_ok s -> m_fd (req s) = fd -> resp_state p hs B P s -> zlen buf < 2 ^ 63 ->
  (forall ret s', write_post fd hs (opened_queue p (m_status (m_out (req s))) hs P) B buf s ret s' -> Q ret s') ->
  wp (LSAPI_Write_r (Some buf) (zlen buf)) Q s.
Proof.
  intros Hfd Hk Hsfd Hrs Hlen HQ. unfold LSAPI_Write_r, has_state, set_state_bit. wsteps.
  replace (Z.land (m_reqState (req s)) LSAPI_ST_BACKGROUND =? 0) with true
    by (rewrite (rs_code _ _ _ _ _ Hrs); by destruct p).
  cbn [negb]. wsteps. rewrite (proj2 (Z.eqb_neq _ _)) by lia. wsteps.
  apply (ensure_finalized_spec fd p hs B P); [done|]. intros s1 Hrs1 He1 Hst1 Hfd1. wsteps.
  apply (body_begun _ _ _ _ _ ) in Hrs1; [|apply opened_not_collecting].
  set (P0 := opened_queue _ _ _ _) in *. change (on_req _ s1) with (set_bit LSAPI_ST_RESP_BODY s1).
  set (s2 := set_bit LSAPI_ST_RESP_BODY s1) in *.
  assert (effect fd [] s s2) as He2 by (apply (effect_trans _ [] [] _ _ _ He1); by apply effect_none).
  assert (m_status (m_out (req s2)) = m_status (m_out (req s))) as Hst2 by done.
  pose proof (rs_ok _ _ _ _ _ Hrs1) as Hok. pose proof (ro_buf _ _ _ _ Hok) as Hb.
  pose proof (ro_pos _ _ _ _ Hok) as Hp. pose proof (resp_ok_zlen _ _ _ _ Hok) as HzB.
  pose proof (zlen_nonneg buf). rewrite s64_id, Hb by lia. fold (m_out (req s2)) (m_pRespBufPos (m_out (req s2))).
  destruct (Z.ltb_spec (zlen buf) (LSAPI_RESP_BUF_SIZE - m_pRespBufPos (m_out (req s2)))) as [Hsm|Hlg].
  - wsteps. apply (wp_lift _ buf); [by rewrite load_Some, slice_all by lia|]. wsteps.
    destruct (store (m_pRespBuf (m_out (req s2))) (m_pRespBufPos (m_out (req s2))) buf) as [rb|] eqn:Hst.
    2:{ rewrite store_Some in Hst by (unfold LSAPI_RESP_BUF_SIZE in *; lia). done. }
    apply (wp_lift _ rb); [done|]. wsteps. apply HQ. left.
    pose proof (buffered_ok _ _ _ _ _ _ Hok Hst ltac:(lia)) as Hok'.
    split; [done|]. split; [split; [exact Hok'|apply Hrs1|apply Hrs1]|]. split; [|split; [done|cbn; congruence]].
    apply (effect_trans _ [] [] _ _ _ He2). by apply effect_none.
  - rewrite <- HzB. eapply wp_mono.
    + apply (Write_loop_spec _ fd hs B P0 buf 0 0%nat s2); try done; try lia.
      * by eapply kernel_ok_effect.
      * cbn. congruence.
      * apply Hrs1.
      * by apply resp_state_writing.
    + intros ret s' Hw. apply HQ. right. by eapply written_from.
Qed.

(** ** Appending headers *)

(** The line without the CR and LF bytes at its end. *)
Fixpoint drop_crlf (l : list Z) : list Z :=
  match l with
  | ch :: l => if is_crlf ch then drop_crlf l else ch :: l
  | [] => []
  end.
Definition strip_crlf (l : list Z) : list Z := reverse (drop_crlf (reverse l)).

Lemma strip_crlf_snoc l ch :
  strip_crlf (l ++ [ch]) = if is_crlf ch then strip_crlf l else l ++ [ch].
Proof.
  unfold strip_crlf. rewrite reverse_snoc. cbn [drop_crlf]. destruct (is_crlf ch); [done|].
  by rewrite reverse_cons, reverse_involutive.
Qed.

Lemma rtrim_spec buf n :
  (n <= length buf)%nat ->
  exists k, rtrim buf n = Some k /\ (k <= n)%nat /\ take k buf = strip_crlf (take n buf).
Proof.
  induction n as [|n IH]; intros Hn; [by exists 0%nat|].
  cbn [rtrim]. destruct (lookup_lt_is_Some_2 buf n ltac:(lia)) as [ch Hch].
  rewrite Hch. cbn [mbind option_bind]. rewrite (take_S_r _ _ _ Hch), strip_crlf_snoc.
  destruct (is_crlf ch).
  - destruct IH as (k & Hk & ? & Ht); [lia|]. exists k. split; [done|]. split; [lia|done].
  - exists (S n). split; [done|]. split; [lia|]. by rewrite (take_S_r _ _ _ Hch).
Qed.

Lemma resized_spec junk old size :
  zlen old <= size -> zlen (resized junk old size) = size /\
  forall n, 0 <= n <= zlen old -> slice 0 n (resized junk old size) = slice 0 n old.
Proof.
  intros Hs. pose proof (zlen_nonneg old). unfold resized, fresh.
  assert (length (old ++ (junk <$> seq 0 (Z.to_nat (size - zlen old)))) = Z.to_nat size) as Hl.
  { rewrite length_app, length_fmap, length_seq. unfold zlen in *. lia. }
  rewrite take_ge by lia. split; [unfold zlen in *; lia|]. intros n Hn. by rewrite slice_app_l by lia.
Qed.

(** An empty queue does not depend on any buffer. *)
Lemma queued_nil_frame k rb c o o' :
  queued k rb c [] o -> m_pIovec o' = m_pIovec o -> m_respPktHeader o' = m_respPktHeader o ->
  m_pIovecCur o' = m_pIovecCur o -> m_pIovecToWrite o' = m_pIovecToWrite o -> queued k rb c [] o'.
Proof.
  intros Hq Ev Ek Ec Et. pose proof (proj1 (queued_empty _ _ _ _ _ Hq) eq_refl) as He.
  destruct Hq. split; rewrite ?Ev, ?Ek, ?Ec, ?Et; try done; try lia.
  by rewrite He, Z.sub_diag.
Qed.

(** The header buffer with room for a line of [len] bytes. *)
Definition header_room (hs : list (list Z)) (len : Z) (o o' : resp_out) : Prop :=
  hdrs_ok hs o' /\ zlen (lines hs) + len + 1 <= zlen (m_pRespHeaderBuf o') /\
  exists hb g, o' = set_m_respHeaderGen g (set_m_pRespHeaderBuf hb o).

(** Making room changes the kernel's allocation script and nothing else of the process. *)
Definition same_os (s s' : st) : Prop :=
  os s' = set_k_allocs (k_allocs (os s')) (os s) /\ k_allocs (os s') `suffix_of` k_allocs (os s).

Lemma reserve_header_spec hs len s (Q : Z -> st -> Prop) :
  hdrs_ok hs (m_out (req s)) -> 0 < len <= LSAPI_RESP_HTTP_HEADER_MAX ->
  (forall s', req s' = req s -> same_os s s' -> false ∈ k_allocs (os s) -> Q (-1) s') ->
  (forall o' k', header_room hs len (m_out (req s)) o' -> same_os s (mkSt (req s) k') ->
     Q 0 (mkSt (set_m_out o' (req s)) k')) ->
  wp (reserve_header len) Q s.
Proof.
  intros Hh Hlen Hfail Hok. pose proof (zlen_lines_bound hs (h_each _ _ Hh)) as Hlb.
  pose proof (h_max _ _ Hh) as Hm. pose proof (h_pos _ _ Hh) as Hp. pose proof (zlen_nonneg hs).
  pose proof (h_room _ _ Hh) as Hroom. unfold LSAPI_RESP_HTTP_HEADER_MAX, LSAPI_MAX_RESP_HEADERS in *.
  unfold reserve_header. wsteps. rewrite Hp.
  destruct (Z.ltb_spec (zlen (m_pRespHeaderBuf (m_out (req s)))) (zlen (lines hs) + len + 1)) as [Hneed|Hfit].
  2:{ wsteps. destruct s as [[fdl fd state inp o app] k]. apply (Hok o k); [|by destruct k].
      split; [done|]. split; [cbn in *; lia|]. exists (m_pRespHeaderBuf o), (m_respHeaderGen o). by destruct o. }
  rewrite s32_id by (unfold is_s32; lia).
  set (size := _ - _). assert (zlen (lines hs) + len + 1 <= size) as Hsize.
  { subst size. pose proof (Z.rem_bound_pos (zlen (lines hs) + len + 4096) 4096). lia. }
  unfold allocateRespHeaderBuf, sys_alloc. wsteps.
  assert (forall b k', same_os s (mkSt (req s) k') -> (b = false -> false ∈ k_allocs (os s)) ->
    wp (if b && (0 <=? size)
        then junk ← get_os k_junk;
             mod_out (fun o => set_m_pRespHeaderBuf (resized junk (m_pRespHeaderBuf o) size) o) ;;
             mod_out (fun o => set_m_respHeaderGen (S (m_respHeaderGen o)) o) ;; mret 0
        else mret (-1)) Q (mkSt (req s) k')) as Hgo.
  { intros b k' Hsame Hb. destruct b; cbn [andb]; [|wsteps; by apply Hfail; [| |apply Hb]].
    rewrite (proj2 (Z.leb_le 0 size)) by lia. wsteps.
    destruct (resized_spec (k_junk k') (m_pRespHeaderBuf (m_out (req s))) size) as [Hz Hpre]; [lia|].
    apply (Hok (set_m_respHeaderGen (S (m_respHeaderGen (m_out (req s))))
      (set_m_pRespHeaderBuf (resized (k_junk k') (m_pRespHeaderBuf (m_out (req s))) size) (m_out (req s)))) k'); [|done].
    split; [|split; [cbn; lia|by eexists _, _]].
    destruct Hh. split; cbn; try done; [lia|]. by rewrite Hpre by lia. }
  destruct (k_allocs (os s)) as [|b l] eqn:E; wsteps; cbn [os].
  - destruct s as [r k]. apply (Hgo true k); [|done]. unfold same_os. cbn in *. by destruct k; cbn in *; subst.
  - apply (Hgo b (set_k_allocs l (os s))); [split; [done|cbn; rewrite E; by exists [b]]|]. intros ->. apply list_elem_of_here.
Qed.

(** Everything of the response half but the headers is as it was. *)
Definition hdr_only (o o' : resp_out) : Prop :=
  m_pRespBuf o' = m_pRespBuf o /\ m_pRespBufPos o' = m_pRespBufPos o /\ m_pIovec o' = m_pIovec o /\
  m_pIovecCur o' = m_pIovecCur o /\ m_pIovecToWrite o' = m_pIovecToWrite o /\
  m_totalLen o' = m_totalLen o /\ m_respPktHeader o' = m_respPktHeader o /\ m_status o' = m_status o.

Lemma hdr_only_trans o1 o2 o3 : hdr_only o1 o2 -> hdr_only o2 o3 -> hdr_only o1 o3.
Proof. unfold hdr_only. intuition congruence. Qed.

(** A line half copied: [X] stands behind the lines [hs]. *)
Record partial (hs : list (list Z)) (X : list Z) (o : resp_out) : Prop := {
  pa_cnt : m_cntHeaders o = zlen hs;
  pa_lens : length (m_respHeaderLen o) = 1000%nat;
  pa_len : take (length hs) (m_respHeaderLen o) = (fun h => s16 (zlen h + 1)) <$> hs;
  pa_pos : m_pRespHeaderBufPos o = zlen (lines hs ++ X);
  pa_buf : slice 0 (zlen (lines hs ++ X)) (m_pRespHeaderBuf o) = lines hs ++ X;
  pa_each : Forall (fun h => 1 <= zlen h <= LSAPI_RESP_HTTP_HEADER_MAX) hs
}.

Lemma put_header_spec hs X bs s (Q : unit -> st -> Prop) :
  partial hs X (m_out (req s)) ->
  zlen (lines hs) + zlen X + zlen bs <= zlen (m_pRespHeaderBuf (m_out (req s))) ->
  (forall o', partial hs (X ++ bs) o' -> hdr_only (m_out (req s)) o' ->
     zlen (m_pRespHeaderBuf o') = zlen (m_pRespHeaderBuf (m_out (req s))) ->
     Q tt (set_req (set_m_out o' (req s)) s)) ->
  wp (put_header bs) Q s.
Proof.
  intros [] Hroom HQ. unfold put_header. wsteps.
  pose proof (zlen_nonneg (lines hs)). pose proof (zlen_nonneg X). pose proof (zlen_nonneg bs).
  rewrite pa_pos0. destruct (store (m_pRespHeaderBuf (m_out (req s))) (zlen (lines hs ++ X)) bs) as [hb|] eqn:Hst.
  2:{ rewrite store_Some in Hst by (rewrite ?zlen_app; lia). done. }
  apply (wp_lift _ hb); [done|]. wsteps.
  apply (HQ (set_m_pRespHeaderBufPos (zlen (lines hs ++ X) + zlen bs) (set_m_pRespHeaderBuf hb (m_out (req s))))).
  - split; cbn; try done.
    + rewrite !zlen_app. lia.
    + assert (zlen (lines hs ++ X ++ bs) = zlen (lines hs ++ X) + zlen bs) as -> by (rewrite !zlen_app; lia).
      by rewrite (store_prefix _ _ _ _ Hst), pa_buf0, <- app_assoc.
  - by repeat split.
  - cbn. by apply (store_zlen _ _ _ _ Hst).
Qed.

Lemma record_header_spec hs h s (Q : unit -> st -> Prop) :
  partial hs (h ++ [0]) (m_out (req s)) -> zlen hs < LSAPI_MAX_RESP_HEADERS ->
  1 <= zlen h <= LSAPI_RESP_HTTP_HEADER_MAX ->
  zlen (lines hs) + zlen h + 1 <= zlen (m_pRespHeaderBuf (m_out (req s))) ->
  (forall o', hdrs_ok (hs ++ [h]) o' -> hdr_only (m_out (req s)) o' ->
     Q tt (set_req (set_m_out o' (req s)) s)) ->
  wp (record_header_len (zlen h + 1)) Q s.
Proof.
  intros [] Hmax Hh Hroom HQ. unfold record_header_len. wsteps. pose proof (zlen_nonneg hs).
  unfold LSAPI_MAX_RESP_HEADERS in *. rewrite pa_cnt0.
  rewrite (proj2 (in_range_spec _ _ _)) by (unfold zlen at 3; rewrite pa_lens0; lia). wsteps.
  assert (zlen hs = Z.of_nat (length hs)) as Hz by done.
  apply (HQ (set_m_cntHeaders (zlen hs + 1)
    (set_m_respHeaderLen (<[Z.to_nat (zlen hs) := s16 (zlen h + 1)]> (m_respHeaderLen (m_out (req s)))) (m_out (req s))))).
  2: by repeat split.
  rewrite <- lines_snoc in *. split; cbn; try done.
  - by rewrite zlen_app.
  - rewrite zlen_app. change (zlen [h]) with 1. unfold LSAPI_MAX_RESP_HEADERS. lia.
  - by rewrite length_insert.
  - rewrite length_app, Nat.add_1_r, fmap_app. rewrite Hz, Nat2Z.id.
    rewrite (take_S_r _ _ (s16 (zlen h + 1))) by (apply list_lookup_insert_eq; lia).
    rewrite take_insert_ge by lia. by rewrite pa_len0.
  - rewrite lines_snoc, !zlen_app. change (zlen [0]) with 1. lia.
  - apply Forall_app_2; [done|]. apply Forall_cons_2; [done|apply Forall_nil_2].
Qed.

(** The state a header call leaves: the same phase with the headers [hs']. *)
Definition append_post (hs' : list (list Z)) (s : st) (s' : st) : Prop :=
  resp_state Collecting hs' [] [] s' /\ (forall fd, effect fd [] s s') /\
  m_fd (req s') = m_fd (req s) /\ m_status (m_out (req s')) = m_status (m_out (req s)).

Lemma append_finish hs s o' s' :
  resp_state Collecting hs [] [] s -> hdr_only (m_out (req s)) o' ->
  forall hs', hdrs_ok hs' o' -> same_os s s' -> req s' = set_m_out o' (req s) -> append_post hs' s s'.
Proof.
  intros [[] Hcode Hcur] (E1 & E2 & E3 & E4 & E5 & E6 & E7 & E8) hs' Hh [Hos Hsuf] Hr.
  assert (resp_ok hs' [] [] o') as Hok.
  { split; rewrite ?E1, ?E2, ?E6; try done. eapply queued_nil_frame; [exact ro_queue0|done..]. }
  unfold append_post. rewrite Hr. split; [|split; [|done]].
  - split; rewrite Hr; cbn; [done|done|]. by rewrite E4, E5.
  - intros fd. apply effect_none; rewrite ?Hr; try done; by rewrite Hos.
Qed.

Lemma hdrs_ok_partial hs o : hdrs_ok hs o -> partial hs [] o.
Proof. intros []. by split; rewrite ?app_nil_r. Qed.

Lemma header_room_only hs len o o' : header_room hs len o o' -> hdr_only o o'.
Proof. intros (_ & _ & hb & g & ->). by repeat split. Qed.

Lemma strip_crlf_prefix l : exists t, l = strip_crlf l ++ t.
Proof.
  induction l as [|ch l [t IH]] using rev_ind; [by exists []|].
  rewrite strip_crlf_snoc. destruct (is_crlf ch).
  - exists (t ++ [ch]). by rewrite app_assoc, <- IH.
  - exists []. by rewrite app_nil_r.
Qed.

Lemma zlen_strip_crlf l : zlen (strip_crlf l) <= zlen l.
Proof. destruct (strip_crlf_prefix l) as [t E]. rewrite E at 2. rewrite zlen_app. pose proof (zlen_nonneg t). lia. Qed.

(** The answers of a header call for a line [h]: refused, ignored or recorded. *)
Definition append_result (hs : list (list Z)) (h : list Z) (limit nomem : Prop) (ret : Z)
    (hs' : list (list Z)) : Prop :=
  (ret = -1 /\ (limit \/ nomem) /\ hs' = hs) \/
  (ret = 0 /\ ~ limit /\ h = [] /\ hs' = hs) \/
  (ret = 0 /\ ~ limit /\ h <> [] /\ hs' = hs ++ [h]).

Lemma append_line_spec hs h s o (Q : Z -> st -> Prop) :
  resp_state Collecting hs [] [] s -> zlen hs < LSAPI_MAX_RESP_HEADERS ->
  1 <= zlen h <= LSAPI_RESP_HTTP_HEADER_MAX ->
  forall k X Y, header_room hs (zlen h) (m_out (req s)) o -> same_os s (mkSt (req s) k) -> h = X ++ Y ->
  forall o1, partial hs X o1 -> hdr_only o o1 -> zlen (m_pRespHeaderBuf o1) = zlen (m_pRespHeaderBuf o) ->
  (forall s', append_post (hs ++ [h]) s s' -> Q 0 s') ->
  wp (put_header Y ;; put_header [0] ;; record_header_len (zlen h + 1) ;; mret 0) Q (mkSt (set_m_out o1 (req s)) k).
Proof.
  intros Hrs Hmax Hh k X Y Hroom Hos HXY o1 Hp Ho1 Hz1 HQ.
  pose proof Hroom as (_ & Hr & _). assert (zlen h = zlen X + zlen Y) as HzXY by (subst h; apply zlen_app).
  wsteps. apply (put_header_spec hs X); [done|cbn; lia|]. intros o2 Hp2 Ho2 Hz2. cbn in *. wsteps.
  rewrite <- HXY in Hp2. apply (put_header_spec hs h); [done|cbn; change (zlen [0]) with 1; lia|].
  intros o3 Hp3 Ho3 Hz3. cbn in *. wsteps. apply record_header_spec with (hs := hs); [done|done|done|cbn; lia|].
  intros o4 Hh4 Ho4. cbn in *. wsteps. apply HQ. apply (append_finish hs s o4); try done.
  pose proof (header_room_only _ _ _ _ Hroom). eauto using hdr_only_trans.
Qed.

Lemma has_body_code p : negb (Z.land (phase_code p) LSAPI_ST_RESP_BODY =? 0) = match p with InBody => true | _ => false end.
Proof. by destruct p. Qed.

Lemma AppendRespHeader_r_spec hs B P buf len s (Q : Z -> st -> Prop) :
  resp_state Collecting hs B P s -> len <= zlen buf ->
  (forall ret hs' s', append_post hs' s s' ->
     append_result hs (strip_crlf (take (Z.to_nat len) buf))
       (len <= 0 \/ LSAPI_RESP_HTTP_HEADER_MAX < len \/ LSAPI_MAX_RESP_HEADERS <= zlen hs)
       (false ∈ k_allocs (os s)) ret hs' -> Q ret s') ->
  wp (LSAPI_AppendRespHeader_r (Some buf) len) Q s.
Proof.
  intros Hrs Hlen HQ. destruct (resp_state_collecting _ _ _ _ Hrs) as [-> ->].
  assert (append_post hs s s) as Hsame.
  { destruct Hrs as [Hok ? ?]. split; [by split|]. split; [intros; by apply effect_none|done]. }
  unfold LSAPI_AppendRespHeader_r, has_state.
  destruct ((len <=? 0) || _) eqn:E0; [wsteps; apply (HQ _ hs); [done|left]|].
  { apply orb_true_iff in E0. rewrite Z.leb_le, Z.ltb_lt in E0. tauto. }
  bsplit. wsteps. rewrite (rs_code _ _ _ _ _ Hrs), has_body_code. wsteps.
  pose proof (ro_hdrs _ _ _ _ (rs_ok _ _ _ _ _ Hrs)) as Hh. rewrite (h_cnt _ _ Hh).
  destruct (Z.leb_spec LSAPI_MAX_RESP_HEADERS (zlen hs)); [wsteps; apply (HQ _ hs); [done|left; tauto]|].
  destruct (rtrim_spec buf (Z.to_nat len)) as (n & Hn & Hle & Ht); [unfold zlen in *; lia|].
  wsteps. apply (wp_lift _ n); [done|]. cbn zeta. rewrite <- Ht in HQ.
  assert (zlen (take n buf) = Z.of_nat n) as Hzn by (unfold zlen in *; rewrite length_take; lia).
  destruct (Z.leb_spec (Z.of_nat n) 0) as [Hn0|Hn0].
  { wsteps. apply (HQ _ hs); [done|]. right; left. split; [done|]. split; [lia|]. split; [|done]. apply zlen_0_inv. lia. }
  wsteps. apply (reserve_header_spec hs); [done|lia| |].
  { intros s' Hr Ho Hf. cbn [Z.eqb Z.compare Pos.compare Pos.compare_cont]. wsteps. apply (HQ _ hs); [|left; tauto].
    apply (append_finish hs s (m_out (req s))); try done; rewrite Hr; by destruct (req s). }
  intros o' k' Hroom Hos. cbn [Z.eqb]. wsteps. apply (wp_lift _ (take n buf)).
  { unfold load. rewrite (proj2 (in_range_spec _ _ _)) by lia. unfold slice. by rewrite drop_0, Nat2Z.id. }
  rewrite <- Hzn in *.
  apply (append_line_spec hs (take n buf) s o' Q Hrs) with (X := []); try done; try lia.
  - by apply hdrs_ok_partial, Hroom.
  - intros s' Hs'. apply (HQ _ (hs ++ [take n buf])); [done|]. right; right. split; [done|]. split; [lia|]. split; [|done].
    apply nonempty_zlen. lia.
Qed.

(** The copy loop of name, colon and value. *)
Lemma append_name_value_spec hs h n v s o k (Q : Z -> st -> Prop) :
  resp_state Collecting hs [] [] s -> zlen hs < LSAPI_MAX_RESP_HEADERS ->
  h = n ++ [58] ++ v -> zlen h <= LSAPI_RESP_HTTP_HEADER_MAX ->
  header_room hs (zlen h) (m_out (req s)) o -> same_os s (mkSt (req s) k) ->
  (forall s', append_post (hs ++ [h]) s s' -> Q 0 s') ->
  wp (put_header n ;; put_header [58] ;; put_header v ;; put_header [0] ;; record_header_len (zlen h + 1) ;; mret 0)
     Q (mkSt (set_m_out o (req s)) k).
Proof.
  intros Hrs Hmax Hh Hle Hroom Hos HQ. pose proof Hroom as (Hok & Hr & _).
  assert (zlen h = zlen n + 1 + zlen v) as Hz by (subst h; rewrite !zlen_app; change (zlen [58]) with 1; lia).
  pose proof (zlen_nonneg n). pose proof (zlen_nonneg v). wsteps.
  apply (put_header_spec hs []); [by apply hdrs_ok_partial|cbn; change (@zlen Z []) with 0; lia|].
  intros o1 Hp1 Ho1 Hz1. cbn in *. wsteps.
  apply (put_header_spec hs n); [done|cbn; change (zlen [58]) with 1; lia|].
  intros o2 Hp2 Ho2 Hz2. cbn in *.
  apply (append_line_spec hs h s o Q Hrs) with (X := n ++ [58]) (Y := v); try done; try lia.
  - by rewrite Hh, <- app_assoc.
  - by eapply hdr_only_trans.
Qed.

Lemma AppendRespHeader2_r_spec hs B P name value s (Q : Z -> st -> Prop) :
  resp_state Collecting hs B P s -> zlen name < 2 ^ 29 -> zlen value < 2 ^ 29 ->
  (forall ret hs' s', append_post hs' s s' ->
     append_result hs (if strip_crlf name is [] then [] else strip_crlf name ++ [58] ++ strip_crlf value)
       (name = [] \/ LSAPI_MAX_RESP_HEADERS <= zlen hs \/
        (strip_crlf name <> [] /\
         LSAPI_RESP_HTTP_HEADER_MAX < zlen (strip_crlf name) + 1 + zlen (strip_crlf value)))
       (false ∈ k_allocs (os s)) ret hs' -> Q ret s') ->
  wp (LSAPI_AppendRespHeader2_r (Some name) (Some value)) Q s.
Proof.
  intros Hrs Hln Hlv HQ. destruct (resp_state_collecting _ _ _ _ Hrs) as [-> ->].
  assert (append_post hs s s) as Hsame.
  { destruct Hrs as [Hok ? ?]. split; [by split|]. split; [intros; by apply effect_none|done]. }
  pose proof (zlen_nonneg name). pose proof (zlen_nonneg value).
  unfold LSAPI_AppendRespHeader2_r, has_state. wsteps. rewrite (rs_code _ _ _ _ _ Hrs), has_body_code.
  pose proof (ro_hdrs _ _ _ _ (rs_ok _ _ _ _ _ Hrs)) as Hh. rewrite (h_cnt _ _ Hh).
  destruct (Z.leb_spec LSAPI_MAX_RESP_HEADERS (zlen hs)); [wsteps; apply (HQ _ hs); [done|left; tauto]|].
  cbn zeta. rewrite !s32_id by (unfold is_s32; lia).
  destruct (Z.eqb_spec (zlen name) 0) as [E0|E0].
  { wsteps. apply (HQ _ hs); [done|left]. split; [done|]. split; [left; left; by apply zlen_0_inv|done]. }
  destruct (rtrim_spec name (Z.to_nat (zlen name))) as (n & Hn & Hle & Ht); [unfold zlen; lia|].
  destruct (rtrim_spec value (Z.to_nat (zlen value))) as (v & Hv & Hlev & Htv); [unfold zlen; lia|].
  rewrite (take_ge name (Z.to_nat (zlen name))) in Ht by (unfold zlen; lia). rewrite (take_ge value (Z.to_nat (zlen value))) in Htv by (unfold zlen; lia).
  rewrite <- Ht, <- Htv in HQ.
  assert (zlen (take n name) = Z.of_nat n) as Hzn by (unfold zlen in *; rewrite length_take; lia).
  assert (zlen (take v value) = Z.of_nat v) as Hzv by (unfold zlen in *; rewrite length_take; lia).
  wsteps. apply (wp_lift _ n); [done|]. destruct (Nat.eqb_spec n 0) as [->|Hn0].
  { wsteps. apply (HQ _ hs); [done|]. right; left. cbn. split; [done|]. split; [|done].
    intros [-> | [? | [? _]]]; [done|lia|done]. }
  assert (take n name <> []) as Hne by (apply nonempty_zlen; lia).
  wsteps. apply (wp_lift _ v); [done|]. cbn zeta.
  assert (s32 (Z.of_nat n + Z.of_nat v + 1) = zlen (take n name ++ [58] ++ take v value)) as ->.
  { rewrite s32_id by (unfold is_s32; unfold zlen in *; lia). rewrite !zlen_app. change (zlen [58]) with 1. lia. }
  set (h := take n name ++ [58] ++ take v value) in *.
  assert (zlen h = zlen (take n name) + 1 + zlen (take v value)) as Hzh.
  { subst h. rewrite !zlen_app. change (zlen [58]) with 1. lia. }
  destruct (Z.ltb_spec LSAPI_RESP_HTTP_HEADER_MAX (zlen h)).
  { wsteps. apply (HQ _ hs); [done|]. left. split; [done|]. split; [left; right; right; split; [done|lia]|done]. }
  wsteps. apply (reserve_header_spec hs); [done|lia| |].
  { intros s' Hr Ho Hf. cbn [Z.eqb Z.compare Pos.compare Pos.compare_cont]. wsteps. apply (HQ _ hs); [|left; tauto].
    apply (append_finish hs s (m_out (req s))); try done; rewrite Hr; by destruct (req s). }
  intros o' k' Hroom Hos. cbn [Z.eqb].
  apply (append_name_value_spec hs h (take n name) (take v value) s o' k'); try done; try lia.
  intros s' Hs'. apply (HQ _ (hs ++ [h])); [done|]. right; right. split; [done|].
  split; [intros [-> | [? | [_ ?]]]; [done|lia|lia]|].
  destruct (take n name) as [|c t] eqn:Etn; [done|]. subst h. done.
Qed.

(** ** Standard error *)

(** Writing on a closed connection: nothing goes out. *)
Lemma writev_closed fd vec pos n total P s :
  gather (m_out (req s)) vec pos n = Some P -> 0 < total -> s_skip_write (os s) = false ->
  wp (lsapi_writev (-1) vec pos n total) (fun r s' => r.1 < total /\ effect fd [] s s' /\ req s' = req s) s.
Proof.
  intros Hg Ht Hskip. unfold lsapi_writev. wsteps. rewrite Hskip. wsteps.
  assert (forall evs ev s1, evs `suffix_of` k_writes (os s) -> s1 = on_os (set_k_writes evs) s ->
    wp (sys_write_ev ev (-1) P) (fun r s' => r = (-1, EOTHER) /\ effect fd [] s s' /\ req s' = req s) s1) as Hw.
  { intros evs ev s1 Hsuf ->. unfold sys_write_ev, signal_stop. wsteps.
    assert (forall b, effect fd [] s (on_os (fun o => if b : bool then set_g_running false o else o)
                                         (on_os (set_k_writes evs) s))) as He.
    { intros b. split; try (by destruct b); unfold sent_on; destruct b; cbn; by rewrite ?app_nil_r. }
    destruct (w_stop ev); wsteps; (split; [done|]; split; [|done]); [apply (He true)|apply (He false)]. }
  assert (effect fd [] s s) as Hs by (by apply effect_none).
  destruct (k_writes (os s)) as [|ev evs] eqn:E; cbn [writev_loop]; wsteps.
  all: destruct (negb _); [wsteps; cbn [fst]; (split; [lia|by split])|wsteps; apply (wp_lift _ P); [done|]; wsteps].
  - eapply wp_mono; [apply (Hw (k_writes (os s))); [by rewrite E|by destruct s as [? []]]|].
    intros r s' (-> & He & Hr). change (-1 =? -1) with true. cbv iota. wsteps. cbn [fst]. split; [lia|by split].
  - eapply wp_mono; [apply (Hw evs); [by exists [ev]|done]|].
    intros r s' (-> & He & Hr). change (0 <? -1) with false. change (-1 =? -1) with true.
    change (is_eagain EOTHER) with false. change (is_eintr EOTHER) with false. cbn [negb]. cbv iota. wsteps.
    cbn [fst]. split; [lia|by split].
Qed.

Definition stderrs (chunks : list (list Z)) : list (Z * list Z) := pair LSAPI_STDERR_STREAM <$> chunks.

(** The outcome of the stderr packets for [data]. *)
Definition stderr_post (fd : Z) (data : list Z) (len : Z) (s : st) (ret : Z) (s' : st) : Prop :=
  ret = len /\ m_out (req s') = m_out (req s) /\ m_reqState (req s') = m_reqState (req s) /\
  exists chunks tail w rest, data = concat chunks ++ tail /\ Forall chunk_ok chunks /\
    packets (stderrs chunks) = w ++ rest /\ effect fd w s s' /\
    ((rest = [] /\ tail = [] /\ m_fd (req s') = fd) \/ (m_fd (req s') = -1)).

Lemma stderr_gather o buf p n :
  0 <= p -> 0 <= n -> p + n <= zlen buf ->
  gather o [Some (mkIov (IovUser (pkt_bytes (lsapi_buildPacketHeader LSAPI_STDERR_STREAM (n + LSAPI_PACKET_HEADER_LEN)))) 0 LSAPI_PACKET_HEADER_LEN);
            Some (mkIov (IovUser buf) p n)] 0 2 = Some (packet LSAPI_STDERR_STREAM (slice p n buf)).
Proof.
  intros Hp Hn Hle. unfold packet. rewrite zlen_slice by lia. rewrite (Z.add_comm LSAPI_PACKET_HEADER_LEN n).
  set (h := pkt_bytes _). rewrite <- (app_nil_l (h ++ _)), app_assoc.
  eapply (gather_snoc _ _ 0 1); [|done|by apply user_iov_bytes].
  eapply (gather_snoc _ _ 0 0); [done..|]. unfold iov_bytes. cbn. 
  unfold LSAPI_PACKET_HEADER_LEN. rewrite <- (zlen_pkt_bytes (lsapi_buildPacketHeader LSAPI_STDERR_STREAM (n + 8))).
  subst h. unfold LSAPI_PACKET_HEADER_LEN. rewrite load_Some by (rewrite ?zlen_pkt_bytes; lia). by rewrite slice_all.
Qed.

(** On a closed connection the loop runs to its end and sends nothing. *)
Lemma Stderr_loop_closed fuel : forall fd buf p s,
  (Z.to_nat (zlen buf - p) <= fuel)%nat -> s_skip_write (os s) = false -> m_fd (req s) = -1 -> 0 <= p <= zlen buf ->
  wp (Stderr_loop fuel buf (zlen buf) p)
     (fun ret s' => ret = zlen buf /\ req s' = req s /\ effect fd [] s s') s.
Proof.
  induction fuel as [|fuel IH]; intros fd buf p s Hf Hskip Hfd Hp; cbn [Stderr_loop];
    (destruct (Z.leb_spec (zlen buf - p) 0); [wsteps; split; [lia|]; split; [done|by apply effect_none]|try lia]).
  set (n := if _ <? _ then _ else _).
  assert (0 < n <= zlen buf - p) as Hn.
  { subst n. unfold LSAPI_MAX_DATA_PACKET_LEN. destruct (Z.ltb_spec 16384 (zlen buf - p)); lia. }
  wsteps. rewrite Hfd. eapply wp_mono.
  { eapply (writev_closed fd); [apply stderr_gather; lia|unfold LSAPI_PACKET_HEADER_LEN; lia|done]. }
  intros [ret [vec pos]] s1 (Hlt & He & Hr). cbn [fst] in Hlt. rewrite (proj2 (Z.ltb_lt _ _)) by done. wsteps.
  unfold lsapi_close_connection. wsteps. rewrite Hr, Hfd. closed_tests. wsteps.
  eapply wp_mono; [apply (IH fd); try lia; [by rewrite (ef_skip _ _ _ _ He)|by rewrite Hr]|].
  intros r2 s2 (-> & Hr2 & He2). split; [done|]. split; [congruence|]. by apply (effect_trans _ [] [] _ _ _ He).
Qed.

(** One stderr packet on an open connection. *)
Lemma stderr_packet_spec fd buf p n s (Q : Z * (list (option iovec) * Z) -> st -> Prop) :
  0 <= fd -> kernel_ok s -> 0 <= p -> 0 < n -> p + n <= zlen buf ->
  (forall r s' w rest, packet LSAPI_STDERR_STREAM (slice p n buf) = w ++ rest -> wrote fd w s s' ->
     (r.1 < n + LSAPI_PACKET_HEADER_LEN <-> rest <> []) -> Q r s') ->
  wp (lsapi_writev fd
        [Some (mkIov (IovUser (pkt_bytes (lsapi_buildPacketHeader LSAPI_STDERR_STREAM (n + LSAPI_PACKET_HEADER_LEN)))) 0 LSAPI_PACKET_HEADER_LEN);
         Some (mkIov (IovUser buf) p n)] 0 2 (n + LSAPI_PACKET_HEADER_LEN)) Q s.
Proof.
  intros Hfd [Hskip Hk] Hp Hn Hle HQ. pose proof (stderr_gather (m_out (req s)) buf p n Hp ltac:(lia) Hle) as Hg.
  unfold lsapi_writev. wsteps. rewrite Hskip. wsteps.
  assert (zlen (packet LSAPI_STDERR_STREAM (slice p n buf)) = n + LSAPI_PACKET_HEADER_LEN) as Hz.
  { rewrite zlen_packet, zlen_slice by lia. unfold LSAPI_PACKET_HEADER_LEN. lia. }
  eapply wp_mono; [eapply writev_loop_spec; [done|exact Hg|done|done|lia|done|exact Hk]|].
  intros r s' (w & rest & HP & Hw & Hb & Hiff & _). eapply HQ; [done|done|].
  split; [intros Hlt E; apply Hiff in E; lia|]. intros Hne. destruct (Z.eq_dec r.1 (n + LSAPI_PACKET_HEADER_LEN)); [|lia].
  by apply Hiff in e.
Qed.

Lemma Stderr_loop_spec fuel : forall fd buf p s,
  (Z.to_nat (zlen buf - p) <= fuel)%nat -> 0 <= fd -> kernel_ok s -> m_fd (req s) = fd -> 0 <= p <= zlen buf ->
  wp (Stderr_loop fuel buf (zlen buf) p) (stderr_post fd (drop (Z.to_nat p) buf) (zlen buf) s) s.
Proof.
  induction fuel as [|fuel IH]; intros fd buf p s Hf Hfd Hk Hsfd Hp; cbn [Stderr_loop];
    (destruct (Z.leb_spec (zlen buf - p) 0); [wsteps|try lia]).
  1,2: assert (p = zlen buf) as -> by lia; rewrite drop_ge by (unfold zlen; lia);
    split; [done|]; split; [done|]; split; [done|]; exists [], [], [], [];
    split; [done|]; split; [done|]; split; [done|]; split; [by apply effect_none|by left].
  set (n := if _ <? _ then _ else _).
  assert (0 < n <= zlen buf - p /\ n <= LSAPI_MAX_DATA_PACKET_LEN) as [Hn Hmax].
  { subst n. unfold LSAPI_MAX_DATA_PACKET_LEN. destruct (Z.ltb_spec 16384 (zlen buf - p)); lia. }
  assert (drop (Z.to_nat p) buf = slice p n buf ++ drop (Z.to_nat (p + n)) buf) as ->.
  { rewrite Z2Nat.inj_add, <- drop_drop by lia. symmetry. apply take_drop. }
  assert (chunk_ok (slice p n buf)) as Hc by (unfold chunk_ok; rewrite zlen_slice; lia).
  wsteps. rewrite Hsfd. apply stderr_packet_spec; [done|done|lia|lia|lia|].
  intros [ret [vec pos]] s1 w rest HP Hw Hiff. cbn [fst] in Hiff.
  pose proof (effect_wrote _ _ _ _ Hw) as He. pose proof (wrote_req _ _ _ _ Hw) as Hr.
  destruct (Z.ltb_spec ret (n + LSAPI_PACKET_HEADER_LEN)) as [Hlt|Hge]; wsteps.
  - apply (close_connection_spec fd); [rewrite Hr; lia|]. intros s2 He2 Hr2.
    eapply wp_mono; [apply (Stderr_loop_closed fuel fd); try lia; [|by rewrite Hr2]|].
    { rewrite (ef_skip _ _ _ _ He2), (ef_skip _ _ _ _ He). apply Hk. }
    intros r s3 (-> & Hr3 & He3). split; [done|]. rewrite Hr3, Hr2, Hr. split; [done|]. split; [done|].
    exists [slice p n buf], (drop (Z.to_nat (p + n)) buf), w, rest. split; [cbn; by rewrite app_nil_r|].
    split; [by apply Forall_cons_2|]. split; [cbn [stderrs fmap list_fmap]; rewrite packets_cons; cbn [fst snd]|].
    + change (packets []) with (@nil Z). by rewrite app_nil_r.
    + split; [|by right]. rewrite <- (app_nil_r w). eapply effect_trans; [exact He|].
      by apply (effect_trans _ [] [] _ _ _ He2).
  - assert (rest = []) as ->.
    { destruct rest as [|x rest]; [done|]. exfalso. assert (ret < n + LSAPI_PACKET_HEADER_LEN); [by apply Hiff|lia]. }
    rewrite app_nil_r in HP. eapply wp_mono.
    { apply (IH fd); try done; try lia; [by eapply kernel_ok_effect|by rewrite Hr]. }
    intros r s2 (-> & Ho2 & Hs2 & cs & tail & w2 & rest2 & Hd & Hcs & Hp2 & He2 & Hor).
    split; [done|]. split; [by rewrite Ho2, Hr|]. split; [by rewrite Hs2, Hr|].
    exists (slice p n buf :: cs), tail, (w ++ w2), rest2. split; [cbn; by rewrite Hd, app_assoc|].
    split; [by apply Forall_cons_2|]. split; [|split; [by eapply effect_trans|done]].
    cbn [stderrs fmap list_fmap]. rewrite packets_cons. cbn [fst snd]. rewrite HP, <- app_assoc. f_equal. exact Hp2.
Qed.

(** [LSAPI_Write_Stderr_r] on an open connection: the buffered body goes out first,
    what is only queued stays queued. *)
Lemma Write_Stderr_r_spec fd p hs B P buf s (Q : Z -> st -> Prop) :
  0 <= fd -> kernel_ok s -> m_fd (req s) = fd -> fd <> m_fdListen (req s) -> s_stderr_log_path (os s) = false ->
  resp_state p hs B P s ->
  (forall s1 ret s',
     (if B is [] then s1 = s
      else exists r, flushed fd InBody hs (P ++ body_packet B) s r s1) ->
     (if decide (m_fd (req s1) = -1) then ret = zlen buf /\ req s' = req s1 /\ effect fd [] s1 s'
      else stderr_post fd buf (zlen buf) s1 ret s') -> Q ret s') ->
  wp (LSAPI_Write_Stderr_r buf (zlen buf)) Q s.
Proof.
  intros Hfd Hk Hsfd Hl Hlog Hrs HQ. unfold LSAPI_Write_Stderr_r. wsteps.
  rewrite Hlog, Hsfd, !(proj2 (Z.eqb_neq fd _)) by lia || done. cbn [orb]. wsteps.
  pose proof (resp_ok_zlen _ _ _ _ (rs_ok _ _ _ _ _ Hrs)) as HzB. rewrite <- HzB.
  pose proof (zlen_nonneg buf).
  destruct B as [|b B]; [change (@zlen Z []) with 0; closed_tests; wsteps|].
  - eapply wp_mono; [apply (Stderr_loop_spec _ fd); done || lia|]. intros ret s' Hs'.
    apply (HQ s ret s'); [done|]. rewrite decide_False by lia. exact Hs'.
  - rewrite zlen_cons. pose proof (zlen_nonneg B). rewrite (proj2 (Z.eqb_neq _ 0)) by lia. cbn [negb].
    assert (p = InBody) as -> by (destruct Hrs as [_ _ Hc]; destruct p; [by destruct Hc as (? & ? & ?)|by destruct Hc|done]).
    wsteps. apply (Flush_r_spec fd InBody hs (b :: B) P); try done. intros r s1 Hf. wsteps.
    pose proof Hf as [_ _ (w & rest & _ & He & Hor)].
    destruct (decide (m_fd (req s1) = -1)) as [Hd|Hd].
    + eapply wp_mono; [apply (Stderr_loop_closed _ fd); try done; try lia; rewrite (ef_skip _ _ _ _ He); apply Hk|].
      intros ret s2 (-> & Hr2 & He2). apply (HQ s1); [by exists r|]. by rewrite decide_True.
    + assert (m_fd (req s1) = fd) as Hfd1 by (by destruct Hor as [(_ & _ & ?)|(_ & _ & ?)]).
      eapply wp_mono; [apply (Stderr_loop_spec _ fd); try done; try lia; by eapply kernel_ok_effect|].
      intros ret s2 Hs2. apply (HQ s1); [by exists r|]. by rewrite decide_False.
Qed.

(** ** The end of a response *)

Lemma finish_bytes : concat (pkt_bytes <$> finish_close) =
  packet LSAPI_RESP_END [] ++ packet LSAPI_CONN_CLOSE [].
Proof. reflexivity. Qed.

(** The closing packet behind the queue. *)
Lemma push_finish_spec k rb c W s (Q : unit -> st -> Prop) :
  queued k rb c W (m_out (req s)) -> c < 16 -> m_totalLen (m_out (req s)) = zlen W -> zlen W < 2 ^ 27 ->
  (forall o', o' = set_m_totalLen (zlen W + 8) (pushed (mkIov IovFinishClose 0 LSAPI_PACKET_HEADER_LEN) (m_out (req s))) ->
     queued k rb (c + 1) (W ++ packet LSAPI_RESP_END []) o' -> Q tt (set_req (set_m_out o' (req s)) s)) ->
  wp (push_finish LSAPI_PACKET_HEADER_LEN) Q s.
Proof.
  intros Hq Hc Ht Hz HQ. pose proof (q_cur _ _ _ _ _ Hq). pose proof (zlen_nonneg W).
  unfold push_finish, add_total. wsteps. apply push_iov_spec; [apply Hq|lia|]. wsteps.
  cbn [on_out on_req]. set (o := m_out (req s)) in *.
  assert (queued k rb (c + 1) (W ++ packet LSAPI_RESP_END [])
            (set_m_totalLen (zlen W + 8) (pushed (mkIov IovFinishClose 0 LSAPI_PACKET_HEADER_LEN) o))) as Hq'.
  { apply queued_total, queued_pushed; [done|lia|done|reflexivity|done]. }
  specialize (HQ _ eq_refl Hq').
  assert (s32 (m_totalLen o + LSAPI_PACKET_HEADER_LEN) = zlen W + 8) as E.
  { unfold LSAPI_PACKET_HEADER_LEN. s32s. lia. }
  revert HQ. rewrite <- E. intros HQ. exact HQ.
Qed.

(** The queue and the buffered body, made ready for the closing packet. *)
Lemma finish_body_spec fd p hs B P s (Q : unit -> st -> Prop) :
  resp_state p hs B P s -> p <> Collecting ->
  (forall s', effect fd [] s s' -> m_fd (req s') = m_fd (req s) -> m_status (m_out (req s')) = m_status (m_out (req s)) ->
     m_reqState (req s') = phase_code (if B is [] then p else InBody) ->
     hdrs_ok hs (m_out (req s')) -> zlen (m_pRespBuf (m_out (req s'))) = LSAPI_RESP_BUF_SIZE ->
     m_pRespBufPos (m_out (req s')) = 0 -> m_totalLen (m_out (req s')) = zlen (P ++ body_packet B) ->
     queued 1 true 4 (P ++ body_packet B) (m_out (req s')) -> Q tt s') ->
  wp flush_body Q s.
Proof.
  unfold flush_body.
  intros Hrs Hp HQ. destruct Hrs as [Hok Hcode Hcur]. pose proof (resp_ok_zlen _ _ _ _ Hok) as HzB. wsteps.
  rewrite <- HzB. destruct B as [|b B].
  - change (zlen []) with 0. closed_tests. wsteps. change (zlen []) with 0 in HzB. destruct Hok.
    apply HQ; cbn [body_packet]; rewrite ?app_nil_r; try done; [by apply effect_none|].
    eapply queued_mono; [exact ro_queue0|lia|done|lia].
  - rewrite zlen_cons. pose proof (zlen_nonneg B). rewrite (proj2 (Z.eqb_neq _ 0)) by lia. cbn [negb].
    assert (p = InBody) as -> by (destruct p; [done|by destruct Hcur|done]).
    pose proof (body_queued_ok _ _ _ _ Hok ltac:(done)) as Hq.
    destruct (body_queued_rest _ _ _ _ Hok Hcur) as (Hh & Hb & Ht & _).
    apply (Flush_RespBuf_spec hs (b :: B) P); [done|done|].
    apply HQ; try done; [by apply effect_none|]. cbn. by rewrite Hcode.
Qed.

(** The response half of a reset request. *)
Lemma reset_resp_state hs o :
  hdrs_ok hs o -> zlen (m_pRespBuf o) = LSAPI_RESP_BUF_SIZE -> length (m_pIovec o) = 16%nat ->
  resp_ok [] [] [] (reset_out (set_m_pRespHeaderBufPos 0 (set_m_pIovecCur 1 (set_m_pIovecToWrite 1 (set_m_pRespBufPos 0 o))))).
Proof.
  intros [] Hb Hv. split; try done.
  - split; try done. apply zlen_nonneg.
  - split; cbn; try done; lia.
Qed.

(** [LSAPI_Finish_r] on an open connection: the whole response is sent (or the
    connection is closed behind a prefix of it) and the request is reset. *)
Lemma Finish_r_spec fd p hs B P s (Q : Z -> st -> Prop) :
  0 <= fd -> kernel_ok s -> m_fd (req s) = fd -> resp_state p hs B P s ->
  (forall s' w rest,
     opened_queue p (m_status (m_out (req s))) hs P ++ body_packet B ++ packet LSAPI_RESP_END [] = w ++ rest ->
     sent_on fd (os s') = sent_on fd (os s) ++ w ->
     (rest = [] /\ m_fd (req s') = fd \/ rest <> [] /\ m_fd (req s') = -1) ->
     m_reqState (req s') = 0 -> resp_ok [] [] [] (m_out (req s')) -> kernel_ok s' -> k_allocs (os s') `suffix_of` k_allocs (os s) -> Q 0 s') ->
  wp LSAPI_Finish_r Q s.
Proof.
  intros Hfd Hk Hsfd Hrs HQ. unfold LSAPI_Finish_r. wsteps.
  rewrite (rs_code _ _ _ _ _ Hrs). replace (phase_code p =? 0) with false by (by destruct p). wsteps.
  rewrite (proj2 (Z.eqb_neq _ (-1))) by lia. wsteps.
  apply (ensure_finalized_spec fd p hs B P); [done|]. intros s1 Hrs1 He1 Hst1 Hfd1. wsteps.
  set (P0 := opened_queue _ _ _ _) in *.
  apply (finish_body_spec fd (opened_phase p) hs B P0); [done|apply opened_not_collecting|].
  intros s2 He2 Hfd2 Hst2 Hcode2 Hh2 Hb2 Hpos2 Ht2 Hq2. wsteps.
  pose proof (ro_size _ _ _ _ (rs_ok _ _ _ _ _ Hrs1)) as HzP. pose proof (resp_ok_zlen _ _ _ _ (rs_ok _ _ _ _ _ Hrs1)) as HzB.
  pose proof (ro_pos _ _ _ _ (rs_ok _ _ _ _ _ Hrs1)) as Hpos1. unfold LSAPI_RESP_BUF_SIZE in Hpos1.
  assert (zlen (P0 ++ body_packet B) < 2 ^ 27) as Hz.
  { rewrite zlen_app. destruct B as [|b B]; cbn [body_packet]; [change (@zlen Z []) with 0; lia|].
    rewrite zlen_packet, HzB. lia. }
  apply (push_finish_spec 1 true 4 (P0 ++ body_packet B)); [done|lia|done|done|].
  intros o3 -> Hq3. wsteps. set (s3 := set_req _ s2).
  assert (effect fd [] s s3) as He3.
  { eapply (effect_trans _ [] []); [exact He1|]. eapply (effect_trans _ [] []); [exact He2|]. by apply effect_none. }
  rewrite <- app_assoc in Hq3.
  apply (queue_flush_spec fd (if B is [] then opened_phase p else InBody) 1 true 5 hs
           (P0 ++ body_packet B ++ packet LSAPI_RESP_END [])); try done.
  - by eapply kernel_ok_effect.
  - cbn. congruence.
  - destruct B; [apply opened_not_collecting|done].
  - by eapply hdrs_ok_frame.
  - cbn. rewrite app_assoc, (zlen_app _ (packet _ _)), zlen_packet. done.
  - intros E. apply (f_equal zlen) in E. rewrite !zlen_app, zlen_packet in E.
    pose proof (zlen_nonneg P0). pose proof (zlen_nonneg (body_packet B)). change (@zlen Z []) with 0 in E. lia.
  - intros r s4 [[Hok4 _ _] _ (w & rest & HW & He4 & Hor)]. wsteps.
    pose proof (effect_trans _ _ _ _ _ _ He3 He4) as He. unfold LSAPI_Reset_r. wsteps. cbn [app] in He.
    apply (HQ _ w rest); [done|apply He|destruct Hor as [(-> & _ & ?)|(? & _ & ?)]; [left|right]; done|done| | |].
    + cbn. apply (reset_resp_state hs); apply Hok4 || apply (ro_queue _ _ _ _ Hok4).
    + exact (kernel_ok_effect _ _ _ _ He Hk).
    + apply He.
Qed.
