(* ===== verification/Session.v ===== *)
(** * A response as its caller describes it, and the refinement

    The abstract machine: a status, the header lines, the body and the error text,
    with one transition per call.  The refinement: whatever the calls and whatever
    the kernel does, the packets on the wire are those of the abstract response, or
    a prefix of such packets on a connection that has been closed. *)

From S2P Require Export ResponseSpec.

Open Scope Z_scope.

(** ** The calls *)

Inductive resp_op :=
| SetStatus (code : Z)
| AppendLine (line : list Z)
| AppendHeader (name value : list Z)
| WriteBody (data : list Z)
| FlushBody
| FinalizeHead
| WriteErr (data : list Z).

Definition run_op (op : resp_op) : M Z :=
  match op with
  | SetStatus code => LSAPI_SetRespStatus_r code
  | AppendLine line => LSAPI_AppendRespHeader_r (Some line) (zlen line)
  | AppendHeader n v => LSAPI_AppendRespHeader2_r (Some n) (Some v)
  | WriteBody data => LSAPI_Write_r (Some data) (zlen data)
  | FlushBody => LSAPI_Flush_r
  | FinalizeHead => LSAPI_FinalizeRespHeaders_r
  | WriteErr data => LSAPI_Write_Stderr_r data (zlen data)
  end.

Fixpoint run_ops (ops : list resp_op) : M unit :=
  match ops with
  | [] => mret tt
  | op :: ops => run_op op ;; run_ops ops
  end.

(** ** The abstract response *)

(** How far a response is: its head is collected; the head has been finalised by a call; or
    the body has begun, with or without such a call before. *)
Inductive stage := HeadOpen | HeadFinal | Begun (after_final : bool).

#[export] Instance stage_eq_dec : EqDecision stage.
Proof. solve_decision. Defined.

Record response := mkResponse {
  rp_stage : stage;
  rp_status : Z;
  rp_headers : list (list Z);
  rp_body : list Z;
  rp_err : list Z
}.

Definition empty_response : response := mkResponse HeadOpen 0 [] [] [].

Definition with_stage (g : stage) (a : response) : response := mkResponse g (rp_status a) (rp_headers a) (rp_body a) (rp_err a).

(** A write of the body begins it. *)
Definition begin_stage (g : stage) : stage :=
  match g with HeadOpen => Begun false | HeadFinal => Begun true | Begun b => Begun b end.

(** Finalising the head. *)
Definition final_stage (g : stage) : stage := match g with Begun _ => Begun true | _ => HeadFinal end.

(** What a header call may do: record, be refused, or (behind a finalised head) anything. *)
Definition head_call (g : stage) (a a' : response) : option response :=
  match g with HeadOpen => Some a' | Begun false => Some a | _ => None end.

Definition add_header (h : list Z) (a : response) : response :=
  mkResponse (rp_stage a) (rp_status a)
    (if h is [] then rp_headers a else rp_headers a ++ [h]) (rp_body a) (rp_err a).

Definition header_limits (hs : list (list Z)) : bool := LSAPI_MAX_RESP_HEADERS <=? zlen hs.

(** The line an [AppendHeader] records. *)
Definition name_value (n v : list Z) : list Z :=
  if strip_crlf n is [] then [] else strip_crlf n ++ [58] ++ strip_crlf v.

(** An [AppendHeader] that is answered with -1. *)
Definition header_refused (n v : list Z) (a : response) : bool :=
  (zlen n =? 0) || header_limits (rp_headers a) || (LSAPI_RESP_HTTP_HEADER_MAX <? zlen (name_value n v)).

(** The transitions; [None] is a call outside the contract: a status set when the head is
    complete, a header behind [LSAPI_FinalizeRespHeaders_r], or a buffer no C object can
    have. *)
Definition spec_op (op : resp_op) (a : response) : option response :=
  match op with
  | SetStatus code =>
      match rp_stage a with
      | HeadOpen => Some (mkResponse HeadOpen code (rp_headers a) (rp_body a) (rp_err a))
      | _ => None
      end
  | AppendLine line =>
      head_call (rp_stage a) a
        (if (zlen line <=? 0) || (LSAPI_RESP_HTTP_HEADER_MAX <? zlen line) || header_limits (rp_headers a)
         then a else add_header (strip_crlf line) a)
  | AppendHeader n v =>
      if negb (zlen n <? 2 ^ 29) || negb (zlen v <? 2 ^ 29) then None
      else head_call (rp_stage a) a (if header_refused n v a then a else add_header (name_value n v) a)
  | WriteBody data =>
      if zlen data <? 2 ^ 63
      then Some (mkResponse (begin_stage (rp_stage a)) (rp_status a) (rp_headers a) (rp_body a ++ data) (rp_err a))
      else None
  | FlushBody => Some a
  | FinalizeHead => Some (with_stage (final_stage (rp_stage a)) a)
  | WriteErr data => Some (mkResponse (rp_stage a) (rp_status a) (rp_headers a) (rp_body a) (rp_err a ++ data))
  end.

Fixpoint spec_ops (ops : list resp_op) (a : response) : option response :=
  match ops with
  | [] => Some a
  | op :: ops => a ← spec_op op a; spec_ops ops a
  end.

(** ** The packets of a response *)

(** The payloads of one type, joined. *)
Definition joined (ty : Z) (ps : list (Z * list Z)) : list Z :=
  concat (snd <$> filter (fun p => p.1 = ty) ps).

Definition body_or_err (p : Z * list Z) : Prop := p.1 = LSAPI_RESP_STREAM \/ p.1 = LSAPI_STDERR_STREAM.

(** Error packets, the header packet with status and lines, body and error packets,
    and the end packet. *)
Definition packets_of (a : response) (ps : list (Z * list Z)) : Prop :=
  exists es rest,
    ps = stderrs es ++ (LSAPI_RESP_HEADER, resp_header_payload (rp_status a) (rp_headers a)) :: rest
         ++ [(LSAPI_RESP_END, [])] /\
    Forall body_or_err rest /\
    joined LSAPI_RESP_STREAM rest = rp_body a /\
    concat es ++ joined LSAPI_STDERR_STREAM rest = rp_err a.

Lemma joined_app ty ps qs : joined ty (ps ++ qs) = joined ty ps ++ joined ty qs.
Proof. unfold joined. by rewrite filter_app, fmap_app, concat_app. Qed.

Lemma joined_same ty cs : joined ty (pair ty <$> cs) = concat cs.
Proof.
  unfold joined. induction cs as [|c cs IH]; [done|].
  rewrite fmap_cons, filter_cons_True by done. cbn. by f_equal.
Qed.

Lemma joined_other ty ty' cs : ty <> ty' -> joined ty (pair ty' <$> cs) = [].
Proof.
  intros Hne. unfold joined. induction cs as [|c cs IH]; [done|].
  rewrite fmap_cons, filter_cons_False by (cbn; congruence). done.
Qed.

Lemma stream_packet_ok ty c : 0 <= ty < 128 -> chunk_ok c -> packet_ok (ty, c).
Proof. unfold chunk_ok, packet_ok, LSAPI_MAX_DATA_PACKET_LEN. cbn. lia. Qed.

Lemma tagged_packet_ok ty cs : 0 <= ty < 128 -> Forall chunk_ok cs -> Forall packet_ok (pair ty <$> cs).
Proof. intros Hty Hc. apply Forall_fmap. eapply Forall_impl; [exact Hc|]. intros c. by apply stream_packet_ok. Qed.

Lemma tagged_body_or_err ty cs : ty = LSAPI_RESP_STREAM \/ ty = LSAPI_STDERR_STREAM -> Forall body_or_err (pair ty <$> cs).
Proof. intros Hty. apply Forall_fmap, Forall_true. intros c. exact Hty. Qed.

(** ** The relation between the request and the abstract response *)

(** What has gone out so far, given what is still queued ([P]) and buffered ([B]). *)
Definition wire_shape (a : response) (P B : list Z) (ps : list (Z * list Z)) : Prop :=
  exists es, Forall chunk_ok es /\
  ((ps = stderrs es /\ concat es = rp_err a /\ rp_body a = B /\
    (rp_stage a <> HeadOpen -> P = header_packet (rp_status a) (rp_headers a))) \/
   (P = [] /\ rp_stage a <> HeadOpen /\ exists rest,
      ps = stderrs es ++ (LSAPI_RESP_HEADER, resp_header_payload (rp_status a) (rp_headers a)) :: rest /\
      Forall body_or_err rest /\ Forall packet_ok rest /\
      joined LSAPI_RESP_STREAM rest ++ B = rp_body a /\
      concat es ++ joined LSAPI_STDERR_STREAM rest = rp_err a)).

(** The facts about the process that every call needs and keeps. *)
Record ready (fd : Z) (s : st) : Prop := {
  rd_fd : 0 <= fd;
  rd_not2 : fd <> 2;
  rd_kernel : kernel_ok s;
  rd_log : s_stderr_log_path (os s) = false;
  rd_listen : fd <> m_fdListen (req s);
  rd_mem : false ∉ k_allocs (os s)
}.

Lemma ready_effect fd w s s' : effect fd w s s' -> ready fd s -> ready fd s'.
Proof.
  intros He []. split; try done.
  - by eapply kernel_ok_effect.
  - by rewrite (ef_log _ _ _ _ He).
  - by rewrite (ef_listen _ _ _ _ He).
  - destruct (ef_allocs _ _ _ _ He) as [l El]. intros Hin. apply rd_mem0. rewrite El. apply elem_of_app. by right.
Qed.

(** The phase of the response half in each stage of the abstract response; on a closed
    connection it may lag behind. *)
Definition phase_of (g : stage) : phase :=
  match g with HeadOpen => Collecting | HeadFinal => Opened | Begun _ => InBody end.

Definition lags (g : stage) (p : phase) : Prop :=
  match g with
  | HeadOpen => p = Collecting
  | HeadFinal => p = Opened
  | Begun false => p <> Opened
  | Begun true => p <> Collecting
  end.

(** An open connection: [w0] is what had gone out before this response. *)
Record live (fd : Z) (w0 : list Z) (a : response) (s : st) : Prop := {
  lv_fd : m_fd (req s) = fd;
  lv_rel : exists B P ps, resp_state (phase_of (rp_stage a)) (rp_headers a) B P s /\
    m_status (m_out (req s)) = rp_status a /\
    sent_on fd (os s) = w0 ++ packets ps /\ wire_shape a P B ps
}.

(** A connection closed on a failure: what went out is a prefix of packets. *)
Definition some_state (g : stage) (s : st) : Prop := exists p hs B P, resp_state p hs B P s /\ lags g p.

Record dead (fd : Z) (w0 : list Z) (g : stage) (s : st) : Prop := {
  dd_fd : m_fd (req s) = -1;
  dd_state : some_state g s;
  dd_wire : exists ps w rest, Forall packet_ok ps /\ packets ps = w ++ rest /\ sent_on fd (os s) = w0 ++ w
}.

Lemma dead_effect fd w0 b b' s s' :
  effect fd [] s s' -> dead fd w0 b s -> m_fd (req s') = -1 -> some_state b' s' ->
  dead fd w0 b' s'.
Proof.
  intros He [_ _ (ps & w & rest & Hps & HP & Hw)] Hfd Hst. split; [done|done|].
  exists ps, w, rest. split; [done|]. split; [done|]. by rewrite (ef_sent _ _ _ _ He), Hw, app_nil_r.
Qed.

Lemma wire_packets_ok a P B ps :
  wire_shape a P B ps -> packet_ok (LSAPI_RESP_HEADER, resp_header_payload (rp_status a) (rp_headers a)) ->
  Forall packet_ok ps.
Proof.
  intros (es & Hes & [(-> & _)|(_ & _ & rest & -> & _ & Hr & _)]) Hh.
  - by apply tagged_packet_ok.
  - apply Forall_app_2; [by apply tagged_packet_ok|]. by apply Forall_cons_2.
Qed.

Lemma headers_packet_ok hs B P o status :
  resp_ok hs B P o -> packet_ok (LSAPI_RESP_HEADER, resp_header_payload status hs).
Proof.
  intros Hok. destruct (header_packet_ok status hs) as (_ & _ & ?); [apply Hok|apply Hok|done].
Qed.

(** More packets go out behind the header packet, with [P] queued in front of them. *)
Lemma wire_shape_more a P B ps qs err body' :
  wire_shape a P B ps -> rp_stage a <> HeadOpen ->
  Forall body_or_err qs -> Forall packet_ok qs ->
  joined LSAPI_STDERR_STREAM qs = err -> B ++ body' = joined LSAPI_RESP_STREAM qs ->
  exists ps', packets ps' = packets ps ++ P ++ packets qs /\
    wire_shape (mkResponse (rp_stage a) (rp_status a) (rp_headers a) (rp_body a ++ body') (rp_err a ++ err)) [] [] ps'.
Proof.
  intros (es & Hes & Hor) Hb Hq Hqok Herr Hbody.
  destruct Hor as [(-> & He & HB & HP)|(-> & _ & rest & -> & Hr & Hrok & HB & He)].
  - exists (stderrs es ++ (LSAPI_RESP_HEADER, resp_header_payload (rp_status a) (rp_headers a)) :: qs).
    rewrite (HP Hb), packets_app, packets_cons. cbn [fst snd]. split; [done|].
    exists es. split; [done|]. right. split; [done|]. split; [done|]. exists qs. cbn.
    split; [done|]. split; [done|]. split; [done|]. rewrite app_nil_r, HB, He, Herr. by rewrite Hbody.
  - exists (stderrs es ++ (LSAPI_RESP_HEADER, resp_header_payload (rp_status a) (rp_headers a)) :: rest ++ qs).
    rewrite !packets_app, !packets_cons, !packets_app. cbn [fst snd app]. split; [by rewrite <- !app_assoc|].
    exists es. split; [done|]. right. split; [done|]. split; [done|]. exists (rest ++ qs). cbn.
    split; [done|]. split; [by apply Forall_app_2|]. split; [by apply Forall_app_2|].
    rewrite app_nil_r, !joined_app, <- HB, <- He, Herr, <- Hbody. by rewrite <- !app_assoc.
Qed.

(** Any packets behind the queue are packets behind what went out. *)
Lemma wire_packets_more a P B ps qs :
  wire_shape a P B ps -> rp_stage a <> HeadOpen ->
  packet_ok (LSAPI_RESP_HEADER, resp_header_payload (rp_status a) (rp_headers a)) -> Forall packet_ok qs ->
  exists ps', packets ps' = packets ps ++ P ++ packets qs /\ Forall packet_ok ps'.
Proof.
  intros Hw Hb Hh Hqs. pose proof (wire_packets_ok _ _ _ _ Hw Hh) as Hps.
  destruct Hw as (es & Hes & [(-> & _ & _ & HP)|(-> & _)]).
  - exists (stderrs es ++ (LSAPI_RESP_HEADER, resp_header_payload (rp_status a) (rp_headers a)) :: qs).
    rewrite (HP Hb), packets_app, packets_cons. cbn [fst snd]. split; [done|].
    apply Forall_app_2; [done|]. by apply Forall_cons_2.
  - exists (ps ++ qs). rewrite packets_app. split; [done|]. by apply Forall_app_2.
Qed.

(** The connection died while sending packets behind what had gone out. *)
Lemma live_dead fd w0 g a P B ps qs w rest s s' :
  wire_shape a P B ps -> rp_stage a <> HeadOpen ->
  packet_ok (LSAPI_RESP_HEADER, resp_header_payload (rp_status a) (rp_headers a)) -> Forall packet_ok qs ->
  sent_on fd (os s) = w0 ++ packets ps -> P ++ packets qs = w ++ rest -> effect fd w s s' ->
  m_fd (req s') = -1 -> some_state g s' -> dead fd w0 g s'.
Proof.
  intros Hw Hb Hh Hqs Hs HP He Hfd Hst. split; [done|done|].
  destruct (wire_packets_more _ _ _ _ _ Hw Hb Hh Hqs) as (ps' & Hps' & Hok).
  exists ps', (packets ps ++ w), rest. split; [done|]. split.
  - by rewrite Hps', HP, app_assoc.
  - by rewrite (ef_sent _ _ _ _ He), Hs, app_assoc.
Qed.

Definition begin (a : response) : response := with_stage (begin_stage (rp_stage a)) a.

Lemma begun g : begin_stage g <> HeadOpen /\ phase_of (begin_stage g) = InBody.
Proof. by destruct g. Qed.

(** The head is finalised: its packet is queued unless it was before. *)
Lemma wire_head g a P B ps :
  wire_shape a P B ps -> g <> HeadOpen ->
  wire_shape (with_stage g a) (opened_queue (phase_of (rp_stage a)) (rp_status a) (rp_headers a) P) B ps.
Proof.
  intros (es & Hes & [(Hps & He & HB & HP)|(-> & Hb & Hr)]) Hg; exists es; (split; [done|]).
  - left. repeat (split; [done|]). intros _. destruct (rp_stage a); [done|by apply HP..].
  - right. split; [by destruct (rp_stage a)|done].
Qed.

(** Behind a call that can close the connection, and does so just when it fails. *)
Definition io_post (fd : Z) (w0 : list Z) (a' : response) (r : Z) (s' : st) : Prop :=
  ready fd s' /\ (0 <= r /\ live fd w0 a' s' \/ r = -1 /\ dead fd w0 (rp_stage a') s').

Definition step_post (fd : Z) (w0 : list Z) (a' : response) (s' : st) : Prop :=
  ready fd s' /\ (live fd w0 a' s' \/ dead fd w0 (rp_stage a') s').

Lemma io_step fd w0 a r s : io_post fd w0 a r s -> step_post fd w0 a s.
Proof. intros [? [[_ ?]|[_ ?]]]; split; auto. Qed.

Lemma live_status fd w0 a code s (Q : Z -> st -> Prop) :
  ready fd s -> live fd w0 a s -> rp_stage a = HeadOpen ->
  (forall s', io_post fd w0 (mkResponse HeadOpen code (rp_headers a) (rp_body a) (rp_err a)) 0 s' -> Q 0 s') ->
  wp (LSAPI_SetRespStatus_r code) Q s.
Proof.
  intros Hr [Hfd (B & P & ps & Hrs & Hst & Hs & Hw)] Hb HQ. rewrite Hb in Hrs.
  unfold LSAPI_SetRespStatus_r. wsteps. apply HQ. split; [eapply ready_effect; [apply effect_on_out|done]|left].
  destruct (resp_state_collecting _ _ _ _ Hrs) as [-> ->]. destruct Hrs as [[] Hcode Hcur].
  split; [done|]. split; [done|]. exists [], [], ps. split; [|split; [done|split; [done|]]].
  - split; [|done|done]. split; try done; [by eapply hdrs_ok_frame|]. by eapply queued_nil_frame.
  - destruct Hw as (es & Hes & [(Hps & He & HB & HP)|(_ & Hbb & _)]); [|congruence].
    exists es. split; [done|]. left. by repeat (split; [done|]).
Qed.

Lemma live_finalize fd w0 a s (Q : Z -> st -> Prop) :
  ready fd s -> live fd w0 a s ->
  (forall s', io_post fd w0 (with_stage (final_stage (rp_stage a)) a) 0 s' -> Q 0 s') ->
  wp LSAPI_FinalizeRespHeaders_r Q s.
Proof.
  intros Hr [Hfd (B & P & ps & Hrs & Hst & Hs & Hw)] HQ.
  eapply (Finalize_r_spec fd); [exact Hrs|]. rewrite Hst. intros s' Hrs' He Hst' Hfd'. apply HQ.
  split; [by eapply ready_effect|left]. split; [done|]. split; [congruence|].
  exists B, (opened_queue (phase_of (rp_stage a)) (rp_status a) (rp_headers a) P), ps.
  split; [by destruct (rp_stage a)|]. split; [cbn; congruence|]. split; [by rewrite (ef_sent _ _ _ _ He), Hs, app_nil_r|].
  apply wire_head; [done|by destruct (rp_stage a)].
Qed.

Lemma live_write fd w0 a data s (Q : Z -> st -> Prop) :
  ready fd s -> live fd w0 a s -> zlen data < 2 ^ 63 ->
  (forall r s', io_post fd w0 (mkResponse (begin_stage (rp_stage a)) (rp_status a) (rp_headers a) (rp_body a ++ data) (rp_err a)) r s' -> Q r s') ->
  wp (LSAPI_Write_r (Some data) (zlen data)) Q s.
Proof.
  intros Hr [Hfd (B & P & ps & Hrs & Hst & Hs & Hw)] Hlen HQ.
  apply (Write_r_spec fd (phase_of (rp_stage a)) (rp_headers a) B P); [apply Hr|apply Hr|done|done|done|]. rewrite Hst.
  destruct (begun (rp_stage a)) as [Hb Hph].
  pose proof (wire_head (begin_stage (rp_stage a)) a P B ps Hw Hb) as Hw1. fold (begin a) in Hw1. set (P0 := opened_queue _ _ _ _) in *.
  intros ret s' [(-> & Hrs' & He & Hst' & Hfd')|[Hrs' Hst' (cs & tail & w & rest & Hd & Hcs & HP & He & Hor)]];
    apply HQ; (split; [by eapply ready_effect|]).
  - left. split; [apply zlen_nonneg|]. split; [done|]. exists (B ++ data), P0, ps. cbn [rp_stage rp_headers]. rewrite Hph. split; [done|].
    split; [cbn; congruence|]. split; [by rewrite (ef_sent _ _ _ _ He), Hs, app_nil_r|].
    destruct Hw1 as (es & Hes & [(Hps & Her & HB & HP)|(-> & _ & rest & Hps & Hr1 & Hr2 & HB & Her)]);
      exists es; (split; [done|]).
    + left. cbn in *. by rewrite HB.
    + right. split; [done|]. split; [done|]. exists rest. cbn in *. by rewrite <- HB, app_assoc.
  - pose proof (headers_packet_ok _ _ _ _ (rp_status a) (rs_ok _ _ _ _ _ Hrs)) as Hh.
    assert (Forall packet_ok (streams cs)) as Hok by (by apply tagged_packet_ok).
    destruct Hor as [(-> & -> & -> & Hfd')|(Hne & -> & Hfd')].
    + left. split; [apply zlen_nonneg|]. split; [done|].
      destruct (wire_shape_more (begin a) P0 B ps (streams cs) [] data) as (ps' & Hps' & Hw'); try done.
      * by apply tagged_body_or_err; left.
      * by apply joined_other.
      * unfold streams. rewrite joined_same. by rewrite Hd, app_nil_r.
      * exists [], [], ps'. cbn [rp_stage rp_headers]. rewrite Hph. split; [done|]. split; [cbn; congruence|]. split.
        -- rewrite (ef_sent _ _ _ _ He), Hs, Hps', HP, app_nil_r. by rewrite app_assoc.
        -- cbn in Hw'. by rewrite app_nil_r in Hw'.
    + right. split; [done|]. eapply (live_dead fd w0 _ (begin a) P0 B ps (streams cs)); try done.
      eexists InBody, _, _, _. split; [done|]. by destruct (rp_stage a) as [| |[]].
Qed.

(** Once the body has begun both header calls are refused. *)
Lemma append_refused hs B P buf len s (Q : Z -> st -> Prop) :
  resp_state InBody hs B P s -> Q (-1) s -> wp (LSAPI_AppendRespHeader_r (Some buf) len) Q s.
Proof.
  intros Hrs HQ. unfold LSAPI_AppendRespHeader_r, has_state. destruct (_ || _); [by wsteps|].
  wsteps. rewrite (rs_code _ _ _ _ _ Hrs), has_body_code. by wsteps.
Qed.

Lemma append2_refused hs B P n v s (Q : Z -> st -> Prop) :
  resp_state InBody hs B P s -> Q (-1) s -> wp (LSAPI_AppendRespHeader2_r (Some n) (Some v)) Q s.
Proof.
  intros Hrs HQ. unfold LSAPI_AppendRespHeader2_r, has_state.
  wsteps. rewrite (rs_code _ _ _ _ _ Hrs), has_body_code. by wsteps.
Qed.

(** What a header call does, as the abstract response sees it. *)
Lemma live_append_post fd w0 a h limit ret hs' s s' :
  ready fd s -> live fd w0 a s -> rp_stage a = HeadOpen -> append_post hs' s s' ->
  append_result (rp_headers a) h limit (false ∈ k_allocs (os s)) ret hs' ->
  step_post fd w0 (if decide (ret = -1) then a else add_header h a) s' /\
  live fd w0 (if decide (ret = -1) then a else add_header h a) s' /\ (ret = -1 <-> limit) /\ (ret = -1 \/ ret = 0).
Proof.
  intros Hr [Hfd (B & P & ps & Hrs & Hst & Hs & Hw)] Hb (Hrs' & He & Hfd' & Hst') Hres.
  specialize (He fd). rewrite Hb in Hrs. destruct (resp_state_collecting _ _ _ _ Hrs) as [-> ->].
  assert (forall a', rp_stage a' = HeadOpen -> rp_status a' = rp_status a -> rp_headers a' = hs' ->
            rp_body a' = rp_body a -> rp_err a' = rp_err a -> step_post fd w0 a' s' /\ live fd w0 a' s') as Hstep.
  { intros a' E1 E2 E3 E4 E5. enough (live fd w0 a' s') by (split; [split; [by eapply ready_effect|by left]|done]). split; [congruence|].
    exists [], [], ps. rewrite E1, E3. split; [done|].
    split; [congruence|]. split; [by rewrite (ef_sent _ _ _ _ He), Hs, app_nil_r|].
    destruct Hw as (es & Hes & [(Hps & Her & HB & HP)|(_ & Hbb & _)]); [|congruence].
    exists es. split; [done|]. left. rewrite E4, E5. repeat (split; [done|]). congruence. }
  destruct Hres as [(-> & Hlim & ->)|[(-> & Hlim & -> & ->)|(-> & Hlim & Hne & ->)]].
  - rewrite decide_True by done. destruct (Hstep a) as [? ?]; try done. split; [done|]. split; [done|]. split; [|by left]. split; [|done]. intros _.
    destruct Hlim as [?|Hm]; [done|]. by destruct (rd_mem _ _ Hr).
  - rewrite decide_False by done. destruct (Hstep (add_header [] a)) as [? ?]; try done. split; [done|]. split; [done|]. split; [|by right].
    split; [done|]. intros ?. by destruct Hlim.
  - rewrite decide_False by done. destruct (Hstep (add_header h a)) as [? ?]; try done; [unfold add_header; by destruct h|].
    split; [done|]. split; [done|]. split; [|by right]. split; [done|]. intros ?. by destruct Hlim.
Qed.

Lemma live_state fd w0 a s : live fd w0 a s -> exists B P, resp_state (phase_of (rp_stage a)) (rp_headers a) B P s.
Proof. intros [_ (B & P & ps & Hrs & _)]. by exists B, P. Qed.

Lemma live_append_line fd w0 a line s (Q : Z -> st -> Prop) :
  ready fd s -> live fd w0 a s ->
  (forall r a' s', spec_op (AppendLine line) a = Some a' -> step_post fd w0 a' s' -> Q r s') ->
  is_Some (spec_op (AppendLine line) a) -> wp (LSAPI_AppendRespHeader_r (Some line) (zlen line)) Q s.
Proof.
  intros Hr Hl HQ Hdef. destruct (live_state _ _ _ _ Hl) as (B & P & Hrs).
  cbn [spec_op] in *. unfold head_call in *. destruct (rp_stage a) as [| |[]] eqn:Hb; try by destruct Hdef.
  2: { eapply append_refused; [exact Hrs|]. apply (HQ (-1) a); [done|]. split; [done|by left]. }
  apply (AppendRespHeader_r_spec (rp_headers a) B P); [done|lia|]. intros ret hs' s' Hpost Hres.
  destruct (live_append_post _ _ _ _ _ _ _ _ _ Hr Hl Hb Hpost Hres) as (Hstep & _ & Hiff & _).
  refine (HQ ret _ s' _ Hstep). f_equal.
  rewrite take_ge by (unfold zlen; lia). unfold header_limits.
  assert ((zlen line <=? 0) || (LSAPI_RESP_HTTP_HEADER_MAX <? zlen line) || (LSAPI_MAX_RESP_HEADERS <=? zlen (rp_headers a)) = true <-> ret = -1) as E.
  { rewrite !orb_true_iff, !Z.leb_le, Z.ltb_lt, Hiff. tauto. }
  destruct (_ || _ || _); destruct (decide (ret = -1)); try done; exfalso; [by apply n, E|]. by apply E in e.
Qed.

(** A header call whose head is still open: what it answers, and what it records. *)
Lemma live_append_open fd w0 a n v s (Q : Z -> st -> Prop) :
  ready fd s -> live fd w0 a s -> rp_stage a = HeadOpen -> zlen n < 2 ^ 29 -> zlen v < 2 ^ 29 ->
  (forall s', let a' := if header_refused n v a then a else add_header (name_value n v) a in
     ready fd s' -> live fd w0 a' s' -> Q (if header_refused n v a then -1 else 0) s') ->
  wp (LSAPI_AppendRespHeader2_r (Some n) (Some v)) Q s.
Proof.
  intros Hr Hl Hb Hn Hv HQ. destruct (live_state _ _ _ _ Hl) as (B & P & Hrs). rewrite Hb in Hrs.
  apply (AppendRespHeader2_r_spec (rp_headers a) B P); [done|done|done|]. intros ret hs' s' Hpost Hres.
  fold (name_value n v) in Hres.
  destruct (live_append_post _ _ _ _ _ _ _ _ _ Hr Hl Hb Hpost Hres) as ([Hr' _] & Hl' & Hiff & H0).
  specialize (HQ s'). cbv zeta in HQ.
  assert (header_refused n v a = true <-> ret = -1) as E.
  { unfold header_refused, header_limits. rewrite !orb_true_iff, Z.eqb_eq, Z.leb_le, Z.ltb_lt, Hiff. unfold name_value. split.
    - intros [[?%zlen_0_inv|?]|Hm]; [tauto|tauto|]. right; right. destruct (strip_crlf n) as [|c t]; [done|].
      split; [done|]. rewrite !zlen_app in Hm. change (zlen [58]) with 1 in Hm. lia.
    - intros [-> | [?|[Hne Hm]]]; [left; left; done|left; right; lia|right].
      destruct (strip_crlf n) as [|c t]; [done|]. rewrite !zlen_app. change (zlen [58]) with 1. lia. }
  destruct (header_refused n v a) eqn:Hrf.
  - assert (ret = -1) as -> by (by apply E). rewrite decide_True in Hl' by done. by apply HQ.
  - assert (ret <> -1) as Hne by (by intros ?%E). destruct H0 as [->| ->]; [done|]. rewrite decide_False in Hl' by done. by apply HQ.
Qed.

Lemma live_append_header fd w0 a n v s (Q : Z -> st -> Prop) :
  ready fd s -> live fd w0 a s ->
  (forall r a' s', spec_op (AppendHeader n v) a = Some a' -> step_post fd w0 a' s' -> Q r s') ->
  is_Some (spec_op (AppendHeader n v) a) -> wp (LSAPI_AppendRespHeader2_r (Some n) (Some v)) Q s.
Proof.
  intros Hr Hl HQ Hdef. destruct (live_state _ _ _ _ Hl) as (B & P & Hrs). cbn [spec_op] in *.
  destruct (negb _ || negb _) eqn:Es; [by destruct Hdef|]. bsplit. unfold head_call in *.
  destruct (rp_stage a) as [| |[]] eqn:Hb; try by destruct Hdef.
  - apply (live_append_open fd w0 a); [done..|]. intros s' a' Hr' Hl'. eapply HQ; [reflexivity|]. split; [done|by left].
  - eapply append2_refused; [exact Hrs|]. apply (HQ (-1) a); [done|]. split; [done|by left].
Qed.

Lemma body_packet_streams B : exists cs, packets (streams cs) = body_packet B /\ concat cs = B /\
  (zlen B < LSAPI_RESP_BUF_SIZE -> Forall chunk_ok cs).
Proof.
  destruct B as [|b B]; [by exists []|]. exists [b :: B]. cbn [streams fmap list_fmap concat].
  rewrite packets_cons, app_nil_r. cbn [fst snd body_packet]. change (packets []) with (@nil Z).
  rewrite app_nil_r. split; [done|]. split; [done|]. intros ?. apply Forall_cons_2; [|done].
  unfold chunk_ok, LSAPI_RESP_BUF_SIZE, LSAPI_MAX_DATA_PACKET_LEN in *. lia.
Qed.

(** A flush behind the head, live or fatal. *)
Lemma live_flushed fd w0 a p B P ps s r s' :
  ready fd s -> resp_state p (rp_headers a) B P s -> p = phase_of (rp_stage a) -> rp_stage a <> HeadOpen ->
  m_status (m_out (req s)) = rp_status a -> sent_on fd (os s) = w0 ++ packets ps -> wire_shape a P B ps ->
  flushed fd p (rp_headers a) (P ++ body_packet B) s r s' -> io_post fd w0 a r s'.
Proof.
  intros Hr Hrs -> Hb Hst Hs Hw [Hrs' Hst' (w & rest & HP & He & Hor)].
  pose proof (rs_ok _ _ _ _ _ Hrs) as Hok.
  pose proof (headers_packet_ok _ _ _ _ (rp_status a) Hok) as Hh.
  destruct (body_packet_streams B) as (cs & Hcs & Hcat & Hck).
  assert (Forall packet_ok (streams cs)) as Hqs.
  { apply tagged_packet_ok; [done|]. apply Hck. rewrite (resp_ok_zlen _ _ _ _ Hok). apply (ro_pos _ _ _ _ Hok). }
  rewrite <- Hcs in HP. split; [by eapply ready_effect|].
  destruct Hor as [(-> & Hret & Hfd')|(Hne & -> & Hfd')].
  - left. split; [done|]. split; [done|].
    destruct (wire_shape_more a P B ps (streams cs) [] []) as (ps' & Hps' & Hw'); try done.
    + by apply tagged_body_or_err; left.
    + by apply joined_other.
    + unfold streams. by rewrite joined_same, app_nil_r.
    + exists [], [], ps'. split; [done|]. split; [congruence|].
      split; [rewrite (ef_sent _ _ _ _ He), Hs, Hps', HP, app_nil_r; by rewrite app_assoc|].
      cbn in Hw'. rewrite !app_nil_r in Hw'. by destruct a.
  - right. split; [done|]. eapply (live_dead fd w0 _ a P B ps (streams cs)); try done.
    eexists _, _, _, _. split; [done|]. by destruct (rp_stage a) as [| |[]].
Qed.

Lemma flush_phase g B hs P s : resp_state (phase_of g) hs B P s -> (if B is [] then phase_of g else InBody) = phase_of g.
Proof. intros [_ _ Hc]. destruct B; [done|]. destruct g; [by destruct Hc as (? & ? & ?)|by destruct Hc|done]. Qed.

Lemma live_flush fd w0 a s (Q : Z -> st -> Prop) :
  ready fd s -> live fd w0 a s -> (forall r s', io_post fd w0 a r s' -> Q r s') ->
  wp LSAPI_Flush_r Q s.
Proof.
  intros Hr Hl HQ. pose proof Hl as [Hfd (B & P & ps & Hrs & Hst & Hs & Hw)].
  destruct (decide (phase_of (rp_stage a) = Collecting)) as [Hp|Hp].
  - rewrite Hp in Hrs. destruct (resp_state_collecting _ _ _ _ Hrs) as [-> ->]. pose proof (resp_ok_zlen _ _ _ _ (rs_ok _ _ _ _ _ Hrs)) as Hz.
    destruct Hrs as [Hok Hcode (Hc & Ht & _)]. change (zlen []) with 0 in Hz.
    unfold LSAPI_Flush_r. wsteps. rewrite Hc, Ht, <- Hz. closed_tests. wsteps. apply HQ. split; [done|by left].
  - apply (Flush_r_spec fd (phase_of (rp_stage a)) (rp_headers a) B P); try done; [apply Hr|apply Hr|].
    intros r s' Hf. apply HQ. rewrite (flush_phase _ _ _ _ _ Hrs) in Hf. eapply live_flushed; try done. by intros E; rewrite E in Hp.
Qed.

(** Error packets behind what went out. *)
Lemma wire_shape_err a P B ps cs :
  wire_shape a P B ps -> Forall chunk_ok cs ->
  exists ps', packets ps' = packets ps ++ packets (stderrs cs) /\
    wire_shape (mkResponse (rp_stage a) (rp_status a) (rp_headers a) (rp_body a) (rp_err a ++ concat cs)) P B ps'.
Proof.
  intros (es & Hes & Hor) Hcs. exists (ps ++ stderrs cs). split; [by rewrite packets_app|].
  destruct Hor as [(-> & He & HB & HP)|(-> & Hb & rest & -> & Hr & Hrok & HB & He)].
  - exists (es ++ cs). split; [by apply Forall_app_2|]. left. cbn. unfold stderrs.
    by rewrite fmap_app, concat_app, He.
  - exists es. split; [done|]. right. split; [done|]. split; [done|]. exists (rest ++ stderrs cs). cbn.
    split; [by rewrite <- app_assoc|]. split; [apply Forall_app_2; [done|by apply tagged_body_or_err; right]|].
    split; [apply Forall_app_2; [done|by apply tagged_packet_ok]|].
    rewrite !joined_app. unfold stderrs. rewrite joined_same, (joined_other LSAPI_RESP_STREAM) by done.
    by rewrite app_nil_r, app_assoc, He.
Qed.

(** The error text on an open connection whose body buffer is settled. *)
Lemma live_stderr_loop fd w0 a data len s r s' :
  ready fd s -> live fd w0 a s -> stderr_post fd data len s r s' ->
  step_post fd w0 (mkResponse (rp_stage a) (rp_status a) (rp_headers a) (rp_body a) (rp_err a ++ data)) s'.
Proof.
  intros Hr [Hfd (B & P & ps & Hrs & Hst & Hs & Hw)] (_ & Ho & Hcode & cs & tail & w & rest & Hd & Hcs & HP & He & Hor).
  assert (resp_state (phase_of (rp_stage a)) (rp_headers a) B P s') as Hrs'.
  { destruct Hrs. split; rewrite ?Ho, ?Hcode; done. }
  split; [by eapply ready_effect|]. destruct Hor as [(-> & -> & Hfd')|Hfd'].
  - left. split; [done|]. destruct (wire_shape_err a P B ps cs Hw Hcs) as (ps' & Hps' & Hw').
    exists B, P, ps'. split; [done|]. split; [by rewrite Ho|].
    rewrite app_nil_r in HP, Hd. split; [by rewrite (ef_sent _ _ _ _ He), Hs, Hps', HP, app_assoc|]. by rewrite Hd.
  - right. split; [done|eexists _, (rp_headers a), B, P; split; [done|by destruct (rp_stage a) as [| |[]]]|].
    exists (ps ++ stderrs cs), (packets ps ++ w), rest.
    split; [apply Forall_app_2; [|by apply tagged_packet_ok]|].
    { eapply wire_packets_ok; [exact Hw|]. by eapply headers_packet_ok, rs_ok. }
    rewrite packets_app, HP, <- app_assoc. split; [done|]. by rewrite (ef_sent _ _ _ _ He), Hs, app_assoc.
Qed.

Lemma live_stderr fd w0 a data s (Q : Z -> st -> Prop) :
  ready fd s -> live fd w0 a s ->
  (forall r s', step_post fd w0 (mkResponse (rp_stage a) (rp_status a) (rp_headers a) (rp_body a) (rp_err a ++ data)) s' -> Q r s') ->
  wp (LSAPI_Write_Stderr_r data (zlen data)) Q s.
Proof.
  intros Hr Hl HQ. pose proof Hl as [Hfd (B & P & ps & Hrs & Hst & Hs & Hw)].
  apply (Write_Stderr_r_spec fd (phase_of (rp_stage a)) (rp_headers a) B P); try done; try apply Hr.
  intros s1 ret s' Hs1 Hpost. apply (HQ ret).
  assert (step_post fd w0 a s1) as [Hr1 Hl1].
  { destruct B as [|b B]; [subst s1; by split; [|left]|]. destruct Hs1 as [r Hf].
    pose proof (flush_phase _ _ _ _ _ Hrs) as Hp. rewrite Hp in Hf. apply (io_step fd w0 a r). eapply live_flushed; try done.
    intros E. rewrite E in Hp. discriminate Hp. }
  destruct (decide (m_fd (req s1) = -1)) as [Hd|Hd].
  - destruct Hpost as (_ & Hreq & He). destruct Hl1 as [[Hfd1 _]|Hdead].
    { pose proof (rd_fd _ _ Hr). lia. }
    split; [by eapply ready_effect|right]. eapply dead_effect; [exact He|done|by rewrite Hreq|].
    destruct Hdead as [_ (p2 & hs & B2 & P2 & [? ? ?] & Hp2) _]. exists p2, hs, B2, P2.
    split; [by split; rewrite ?Hreq|done].
  - destruct Hl1 as [Hl1|[? _ _]]; [|done]. by eapply live_stderr_loop.
Qed.

(** ** A closed connection

    Every call on it is safe, none sends anything on it. *)

Lemma effect_sent_other fd fd' d s :
  fd <> fd' -> effect fd [] s (on_os (fun o => set_k_sent (k_sent o ++ [(fd', d)]) o) s).
Proof.
  intros Hne. split; try done. unfold sent_on. cbn. rewrite app_nil_r, filter_app, filter_cons_False by (cbn; congruence).
  by rewrite filter_nil, app_nil_r.
Qed.

Lemma sys_write_ev_other fd fd' ev data s (Q : Z * errno -> st -> Prop) :
  fd <> fd' -> (forall r s', effect fd [] s s' -> req s' = req s -> Q r s') ->
  wp (sys_write_ev ev fd' data) Q s.
Proof.
  intros Hne HQ. unfold sys_write_ev, signal_stop. apply wp_bind.
  apply (wp_mono _ (fun _ s' => s' = if w_stop ev then on_os (set_g_running false) s else s)).
  { by destruct (w_stop ev); wsteps. }
  intros _ s1 ->. pose proof (effect_wrote _ _ _ _ (wrote_stop fd (w_stop ev) s)) as He.
  set (s1 := if w_stop ev then _ else s) in *.
  assert (req s1 = req s) as Hr by (subst s1; by destruct (w_stop ev)).
  assert (forall n, effect fd [] s (on_os (fun o => set_k_sent (k_sent o ++ [(fd', slice 0 n data)]) o) s1)) as He2.
  { intros n. eapply (effect_trans _ [] []); [exact He|by apply effect_sent_other]. }
  destruct (fd' <? 0); [wsteps; by apply HQ|].
  destruct (w_res ev) as [|n|e]; wsteps; by apply HQ.
Qed.

Lemma sys_write_other fd fd' data s (Q : Z * errno -> st -> Prop) :
  fd <> fd' -> (forall r s', effect fd [] s s' -> req s' = req s -> Q r s') ->
  wp (sys_write fd' data) Q s.
Proof.
  intros Hne HQ. unfold sys_write, next_write. wsteps.
  destruct (k_writes (os s)) as [|ev evs] eqn:E; wsteps; [by apply (sys_write_ev_other fd)|].
  apply (sys_write_ev_other fd); [done|]. intros r s' He Hr. apply HQ; [|done].
  eapply (effect_trans _ [] []); [|exact He]. apply effect_wrote, wrote_next. rewrite E. by exists [ev].
Qed.

Lemma dead_flush fd w0 g s (Q : Z -> st -> Prop) :
  ready fd s -> dead fd w0 g s -> (forall r s', ready fd s' -> dead fd w0 g s' -> Q r s') -> wp LSAPI_Flush_r Q s.
Proof.
  intros Hr Hd HQ. pose proof Hd as [Hfd (p & hs & B & P & [Hok Hcode Hcur] & Hlag) _].
  unfold LSAPI_Flush_r, rewind_iovec. wsteps. destruct ((0 =? _) && _) eqn:E; wsteps; [by apply HQ|].
  rewrite Hfd. closed_tests. wsteps.
  assert (p <> Collecting) as Hp.
  { intros ->. destruct Hcur as (Hc & Ht & ->). pose proof (resp_ok_zlen _ _ _ _ Hok) as Hz.
    rewrite Hc, Ht, <- Hz in E. done. }
  apply HQ; [apply (ready_effect fd [] s); [by apply effect_none|done]|].
  apply (dead_effect fd w0 g g s); [by apply effect_none|done|done|].
  exists p, hs, [], []. split; [|done]. split; [|done|by destruct p].
  destruct Hok. pose proof (q_pkts _ _ _ _ _ ro_queue). pose proof (q_vec _ _ _ _ _ ro_queue).
  split; try done; [by eapply hdrs_ok_frame|]. split; cbn; try done; lia.
Qed.

Lemma dead_append fd w0 g hs' s s' :
  ready fd s -> dead fd w0 g s -> lags g Collecting -> append_post hs' s s' -> ready fd s' /\ dead fd w0 g s'.
Proof.
  intros Hr Hd Hg (Hrs' & He & Hfd' & _). specialize (He fd). split; [by eapply ready_effect|].
  apply (dead_effect fd w0 g g s); [done|done|rewrite Hfd'; apply Hd|by exists Collecting, hs', [], []].
Qed.

Lemma dead_lag fd w0 g g' s : dead fd w0 g s -> (forall p, lags g p -> lags g' p) -> dead fd w0 g' s.
Proof. intros [? (p & hs & B & P & ? & ?) ?] Hg. split; try done. exists p, hs, B, P. eauto. Qed.

Lemma dead_begin fd w0 g s : dead fd w0 g s -> dead fd w0 (begin_stage g) s.
Proof. intros Hd. eapply dead_lag; [exact Hd|]. intros p. destruct g as [| |[]]; cbn; try done; by intros ->. Qed.

Lemma dead_finalize fd w0 g s (Q : Z -> st -> Prop) :
  ready fd s -> dead fd w0 g s -> (forall s', ready fd s' -> dead fd w0 (final_stage g) s' -> Q 0 s') ->
  wp LSAPI_FinalizeRespHeaders_r Q s.
Proof.
  intros Hr Hd HQ. pose proof Hd as [Hfd (p & hs & B & P & Hrs & Hlag) _].
  eapply (Finalize_r_spec fd); [exact Hrs|]. intros s' Hrs' He _ Hfd'. destruct (decide (g = HeadOpen)) as [->|Hg].
  - cbn in Hlag. subst p. apply HQ; [by eapply ready_effect|]. eapply dead_effect; [done|done|by rewrite Hfd'|].
    by eexists _, _, _, _.
  - apply HQ; [by eapply ready_effect|]. eapply dead_effect; [done|done|by rewrite Hfd'|].
    eexists _, _, _, _. split; [exact Hrs'|]. by destruct g as [| |[]], p.
Qed.

(** Header calls on a closed connection. *)
Lemma dead_head_call fd w0 a a1 a' s (m : M Z) :
  ready fd s -> dead fd w0 (rp_stage a) s -> head_call (rp_stage a) a a1 = Some a' -> rp_stage a1 = rp_stage a ->
  (forall hs B P, resp_state Collecting hs B P s -> wp m (fun _ s' => exists hs', append_post hs' s s') s) ->
  (forall hs B P, resp_state InBody hs B P s -> wp m (fun _ s' => s' = s) s) ->
  wp m (fun _ s' => ready fd s' /\ dead fd w0 (rp_stage a') s') s.
Proof.
  intros Hr Hd Hh Ha1 H1 H2. pose proof Hd as [_ (p & hs & B & P & Hrs & Hlag) _].
  assert (rp_stage a' = rp_stage a) as ->.
  { unfold head_call in Hh. destruct (rp_stage a) as [| |[]] eqn:E; simplify_eq; congruence. }
  destruct p.
  - eapply wp_mono; [by eapply H1|]. intros _ s' [hs' Hp]. by eapply dead_append.
  - unfold head_call in Hh. by destruct (rp_stage a) as [| |[]].
  - eapply wp_mono; [by eapply H2|]. by intros _ s' ->.
Qed.

Lemma dead_step fd w0 op a a' s :
  ready fd s -> dead fd w0 (rp_stage a) s -> spec_op op a = Some a' ->
  wp (run_op op) (fun _ s' => ready fd s' /\ dead fd w0 (rp_stage a') s') s.
Proof.
  intros Hr Hd Hop. destruct op; cbn [run_op]; cbn [spec_op] in Hop.
  - destruct (rp_stage a) eqn:Ea; try done. injection Hop as <-. pose proof Hd as [Hfd (p & hs & B & P & Hrs & ->) _].
    destruct (resp_state_collecting _ _ _ _ Hrs) as [-> ->].
    unfold LSAPI_SetRespStatus_r. wsteps. split; [apply (ready_effect fd [] s); [apply effect_on_out|done]|].
    apply (dead_effect fd w0 HeadOpen HeadOpen s); [apply effect_on_out|done|done|]. exists Collecting, hs, [], [].
    destruct Hrs as [[] Hcode Hcur]. split; [|done]. split; [|done|done].
    split; try done; [by eapply hdrs_ok_frame|]. by eapply queued_nil_frame.
  - eapply dead_head_call; [done|done|exact Hop|by destruct (_ || _)| |].
    + intros hs B P Hrs. eapply AppendRespHeader_r_spec; [exact Hrs|lia|]. eauto.
    + intros hs B P Hrs. by eapply append_refused.
  - destruct (negb (zlen name <? 2 ^ 29) || negb (zlen value <? 2 ^ 29)) eqn:E; [done|]. bsplit.
    eapply dead_head_call; [done|done|exact Hop|by destruct (header_refused _ _ _)| |].
    + intros hs B P Hrs. eapply AppendRespHeader2_r_spec; [exact Hrs|lia|lia|]. eauto.
    + intros hs B P Hrs. by eapply append2_refused.
  - destruct (_ <? _); [|done]. injection Hop as <-. cbn [rp_stage]. apply dead_begin in Hd. destruct Hd as [Hfd ? ?].
    unfold LSAPI_Write_r, has_state. wsteps. destruct (negb _); wsteps; [done|]. rewrite Hfd. closed_tests. by wsteps.
  - injection Hop as <-. by apply (dead_flush fd w0 (rp_stage a)).
  - injection Hop as <-. by apply (dead_finalize fd w0 (rp_stage a)).
  - injection Hop as <-. pose proof Hd as [Hfd (p & hs & B & P & Hrs & Hlag) _].
    unfold LSAPI_Write_Stderr_r. wsteps. rewrite Hfd. closed_tests. rewrite orb_true_r. cbn [orb]. wsteps.
    apply (wp_lift _ data). { rewrite load_Some by (pose proof (zlen_nonneg data); lia). by rewrite slice_all. }
    wsteps. apply (sys_write_other fd); [apply Hr|]. intros [ret e] s' He Hreq. wsteps.
    split; [by eapply ready_effect|]. eapply dead_effect; [exact He|exact Hd|by rewrite Hreq|].
    exists p, hs, B, P. destruct Hrs as [? ? ?]. split; [by split; rewrite ?Hreq|done].
Qed.

(** ** The refinement *)

Lemma run_op_step fd w0 op a a' s :
  ready fd s -> (live fd w0 a s \/ dead fd w0 (rp_stage a) s) -> spec_op op a = Some a' ->
  wp (run_op op) (fun _ s' => step_post fd w0 a' s') s.
Proof.
  intros Hr [Hl|Hd] Hop.
  2:{ eapply wp_mono; [by eapply dead_step|]. intros _ s' [? ?]. by split; [|right]. }
  destruct op; cbn [run_op].
  - cbn in Hop. destruct (rp_stage a) eqn:Ea; try done. injection Hop as <-. apply (live_status fd w0 a); [done..|].
    intros s' H. by eapply io_step.
  - apply (live_append_line fd w0 a); [done..| |by eexists]. intros r a2 s' Ha Hs. by simplify_eq.
  - apply (live_append_header fd w0 a); [done..| |by eexists]. intros r a2 s' Ha Hs. by simplify_eq.
  - cbn in Hop. destruct (zlen data <? 2 ^ 63) eqn:E; [|done]. injection Hop as <-. bsplit.
    apply (live_write fd w0 a); [done..|]. intros r s'. apply io_step.
  - injection Hop as <-. apply (live_flush fd w0 a); [done..|]. intros r s'. apply io_step.
  - injection Hop as <-. apply (live_finalize fd w0 a); [done..|]. intros s'. apply io_step.
  - injection Hop as <-. by apply (live_stderr fd w0 a).
Qed.

Lemma run_ops_steps fd w0 ops : forall a a' s,
  ready fd s -> (live fd w0 a s \/ dead fd w0 (rp_stage a) s) -> spec_ops ops a = Some a' ->
  wp (run_ops ops) (fun _ s' => step_post fd w0 a' s') s.
Proof.
  induction ops as [|op ops IH]; intros a a' s Hr Hor Hops; cbn [run_ops spec_ops] in *.
  - injection Hops as <-. by wsteps.
  - apply bind_Some in Hops as (a1 & Hop & Hops). wsteps.
    eapply wp_mono; [by eapply run_op_step|]. intros _ s1 [Hr1 Hor1]. by eapply IH.
Qed.

(** The request as it stands when a request has been read. *)
Definition fresh_response (s : st) : Prop := resp_state Collecting [] [] [] s /\ m_status (m_out (req s)) = 0.

Lemma live_fresh fd s :
  m_fd (req s) = fd -> fresh_response s -> live fd (sent_on fd (os s)) empty_response s.
Proof.
  intros Hfd [Hrs Hst]. split; [done|]. exists [], [], []. split; [done|].
  split; [done|]. split; [by rewrite app_nil_r|].
  exists []. split; [done|]. left. by repeat (split; [done|]).
Qed.

(** A request that is being answered has left the initial state. *)
Lemma step_post_state fd w0 a s : step_post fd w0 a s -> m_reqState (req s) <> 0.
Proof.
  assert (forall p hs B P, resp_state p hs B P s -> m_reqState (req s) <> 0) as X by (intros p hs B P [_ -> _]; by destruct p).
  intros [_ [[_ (B & P & ps & Hrs & _)]|[_ (p & hs & B & P & Hrs & _) _]]]; by eapply X.
Qed.

(** The end of a response that is still open. *)
Lemma live_finish fd w0 a s (Q : Z -> st -> Prop) :
  ready fd s -> live fd w0 a s ->
  (forall s' ps w rest, packets_of a ps -> Forall packet_ok ps -> packets ps = w ++ rest ->
     sent_on fd (os s') = w0 ++ w -> (rest = [] /\ m_fd (req s') = fd \/ rest <> [] /\ m_fd (req s') = -1) ->
     resp_ok [] [] [] (m_out (req s')) -> false ∉ k_allocs (os s') -> Q 0 s') ->
  wp LSAPI_Finish_r Q s.
Proof.
  intros Hr [Hfd (B & P & ps & Hrs & Hst & Hs & Hw)] HQ.
  pose proof (headers_packet_ok _ _ _ _ (rp_status a) (rs_ok _ _ _ _ _ Hrs)) as Hh.
  destruct (begun (rp_stage a)) as [Hb Hph].
  pose proof (wire_head (begin_stage (rp_stage a)) a P B ps Hw Hb) as Hw1. fold (begin a) in Hw1.
  destruct (body_packet_streams B) as (cs & Hcs & Hcat & Hck).
  assert (Forall chunk_ok cs) as Hcok.
  { apply Hck. rewrite (resp_ok_zlen _ _ _ _ (rs_ok _ _ _ _ _ Hrs)). apply (ro_pos _ _ _ _ (rs_ok _ _ _ _ _ Hrs)). }
  assert (Forall packet_ok (streams cs)) as Hqs by (by apply tagged_packet_ok).
  apply (Finish_r_spec fd (phase_of (rp_stage a)) (rp_headers a) B P); try done; try apply Hr.
  intros s' w rest HP Hsent Hor _ Hreset _ Hal. rewrite Hst in HP. set (P0 := opened_queue _ _ _ _) in *.
  destruct (wire_shape_more (begin a) P0 B ps (streams cs) [] []) as (ps' & Hps' & es & Hes & Hshape); try done.
  { by apply tagged_body_or_err; left. }
  { by apply joined_other. }
  { unfold streams. by rewrite joined_same, app_nil_r. }
  destruct Hshape as [(_ & _ & _ & HPe)|(_ & _ & rs & -> & Hbe & Hrok & HB & He)].
  { specialize (HPe Hb). apply (f_equal zlen) in HPe. change (zlen []) with 0 in HPe.
    unfold header_packet in HPe. rewrite zlen_packet in HPe. pose proof (zlen_nonneg (resp_header_payload (rp_status a) (rp_headers a))). cbn in HPe. lia. }
  cbn in HB, He, Hps'. rewrite !app_nil_r in *.
  set (ps2 := stderrs es ++ (LSAPI_RESP_HEADER, resp_header_payload (rp_status a) (rp_headers a)) :: rs).
  apply (HQ s' (ps2 ++ [(LSAPI_RESP_END, [])]) (packets ps ++ w) rest).
  - exists es, rs. subst ps2. by rewrite <- app_assoc.
  - apply Forall_app_2; [|by apply Forall_cons_2; [split|]]. apply Forall_app_2; [by apply tagged_packet_ok|].
    by apply Forall_cons_2.
  - rewrite packets_app. unfold ps2. rewrite Hps', Hcs, packets_cons. cbn [fst snd].
    change (packets []) with (@nil Z). rewrite app_nil_r, <- !app_assoc. f_equal. exact HP.
  - by rewrite Hsent, Hs, app_assoc.
  - done.
  - done.
  - destruct Hal as [l Hal]. pose proof (rd_mem _ _ Hr) as Hm. rewrite Hal in Hm. intros Hx. apply Hm. apply elem_of_app. by right.
Qed.

(** What is on the wire when a response has been ended: all of it, or a prefix of packets on
    a connection that has been closed. *)
Definition wire_post (fd : Z) (w0 : list Z) (a : response) (s' : st) : Prop :=
  exists w, sent_on fd (os s') = w0 ++ w /\
    ((m_fd (req s') = fd /\ exists ps, decode_stream w = Some ps /\ packets_of a ps) \/
     (m_fd (req s') = -1 /\ exists ps rest, Forall packet_ok ps /\ packets ps = w ++ rest)).

Lemma finish_step_reset fd w0 a s : step_post fd w0 a s ->
  wp LSAPI_Finish_r (fun r s' => r = 0 /\ wire_post fd w0 a s' /\ (m_fd (req s') = fd -> resp_ok [] [] [] (m_out (req s')) /\ false ∉ k_allocs (os s'))) s.
Proof.
  intros [Hr [Hl|Hd]].
  - apply (live_finish fd w0 a); [done..|]. intros s' ps w rest Hps Hok HP Hs Hor Hreset Hal.
    split; [done|]. split; [|done]. exists w. split; [done|]. destruct Hor as [(-> & Hfd')|(_ & Hfd')].
    + left. split; [done|]. exists ps. split; [|done]. rewrite app_nil_r in HP. rewrite <- HP. by apply decode_stream_packets.
    + right. split; [done|]. by exists ps, rest.
  - destruct Hd as [Hfd' _ (ps & w & rest & Hps & HP & Hs)]. pose proof (rd_fd _ _ Hr).
    unfold LSAPI_Finish_r, LSAPI_Reset_r. wsteps. destruct (m_reqState (req s) =? 0); wsteps; [|rewrite Hfd'; closed_tests; wsteps];
      (split; [done|]); (split; [|intros E; change (m_fd (req s) = fd) in E; lia]);
      exists w; (split; [exact Hs|]); right; (split; [exact Hfd'|]); by exists ps, rest.
Qed.

Lemma finish_step fd w0 a s : step_post fd w0 a s -> wp LSAPI_Finish_r (fun r s' => r = 0 /\ wire_post fd w0 a s') s.
Proof. intros H. eapply wp_mono; [by apply finish_step_reset|]. by intros r s' (? & ? & _). Qed.

(** C1. The response calls refine the abstract response, as far as the kernel keeps the
    packet headers whole.  Assumed are a request that has just been read and whose response
    is untouched, memory to be had, a connection that is neither stderr nor the listening
    socket, no log of its own for stderr, writing not switched off, and a kernel whose short
    counts of [writev] leave out fewer than 8 bytes, a packet header, in all (behind larger
    ones the code overruns its vector, [lsapi_writev_short_count_overruns]).  Then any
    sequence of status, header, body, flush, error-text and finalising calls with no status
    and no header behind the latter, names and values below 2^29 and pieces below 2^63
    bytes, followed by [LSAPI_Finish_r], runs to its end without undefined behaviour, and
    either the connection is still open and a reader decodes from it exactly the packets of
    the response the calls describe, or the connection has been closed and what went out is
    a prefix of well-formed packets. *)
Theorem response_refinement fd ops a s :
  m_fd (req s) = fd -> ready fd s -> fresh_response s -> spec_ops ops empty_response = Some a ->
  exists s' w,
    (run_ops ops ;; LSAPI_Finish_r) s = Some (0, s') /\
    sent_on fd (os s') = sent_on fd (os s) ++ w /\
    ((m_fd (req s') = fd /\ exists ps, decode_stream w = Some ps /\ packets_of a ps) \/
     (m_fd (req s') = -1 /\ exists ps rest, Forall packet_ok ps /\ packets ps = w ++ rest)).
Proof.
  intros Hfd Hr Hf Hops.
  assert (wp (run_ops ops ;; LSAPI_Finish_r) (fun r s' => r = 0 /\ wire_post fd (sent_on fd (os s)) a s') s) as Hwp.
  { wsteps. eapply wp_mono; [eapply run_ops_steps; [done|left; by apply live_fresh|done]|]. intros u s1. apply finish_step. }
  apply wp_run in Hwp as (r & s' & Hrun & -> & w & Hw). by exists s', w.
Qed.

(** ** A concrete session *)

(** An empty response half, field by field. *)
Lemma resp_ok_empty o :
  m_cntHeaders o = 0 -> length (m_respHeaderLen o) = 1000%nat -> m_pRespHeaderBufPos o = 0 ->
  zlen (m_pRespBuf o) = LSAPI_RESP_BUF_SIZE -> m_pRespBufPos o = 0 -> m_totalLen o = 0 ->
  length (m_pIovec o) = 16%nat -> length (m_respPktHeader o) = 5%nat ->
  m_pIovecCur o = 1 -> m_pIovecToWrite o = 1 -> resp_ok [] [] [] o.
Proof.
  intros E1 E2 E3 E4 E5 E6 E7 E8 E9 E10. split; rewrite ?E5, ?E6; try done.
  - split; try done. apply zlen_nonneg.
  - split; rewrite ?E9, ?E10; try done; lia.
Qed.

(** [LSAPI_InitRequest] makes an empty response half. *)
Lemma InitRequest_resp_ok fd pipe s :
  false ∉ k_allocs (os s) ->
  exists s', LSAPI_InitRequest fd pipe s = Some (0, s') /\ resp_ok [] [] [] (m_out (req s')) /\
    m_status (m_out (req s')) = 0 /\ m_reqState (req s') = 0 /\
    m_fd (req s') = (if pipe then fd else -1) /\ m_fdListen (req s') = (if pipe then -1 else fd).
Proof.
  intros Hm. assert (wp (LSAPI_InitRequest fd pipe) (fun r s' => r = 0 /\ resp_ok [] [] [] (m_out (req s')) /\
    m_status (m_out (req s')) = 0 /\ m_reqState (req s') = 0 /\
    m_fd (req s') = (if pipe then fd else -1) /\ m_fdListen (req s') = (if pipe then -1 else fd)) s) as Hwp.
  { assert (forall (Q : bool -> st -> Prop) s1, false ∉ k_allocs (os s1) ->
      (forall l, false ∉ l -> Q true (on_os (set_k_allocs l) s1)) -> wp sys_alloc Q s1) as Halloc.
    { intros Q s1 Hin HQ. unfold sys_alloc. wsteps. destruct (k_allocs (os s1)) as [|b l] eqn:E; wsteps.
      - replace s1 with (on_os (set_k_allocs []) s1) by (destruct s1 as [? []]; cbn in *; by subst). apply HQ. apply not_elem_of_nil.
      - apply not_elem_of_cons in Hin as [Hb Hl]. destruct b; [by apply HQ|done]. }
    unfold LSAPI_InitRequest, allocateIovec, allocateRespHeaderBuf. wsteps.
    apply Halloc; [done|]. intros l1 H1. wsteps. closed_tests. wsteps.
    apply Halloc; [done|]. intros l2 H2. cbn [negb]. wsteps.
    apply Halloc; [done|]. intros l3 H3. unfold LSAPI_INIT_RESP_HEADER_LEN. closed_tests. wsteps. closed_tests.
    destruct pipe; wsteps; (split; [done|]; split; [|done]); apply resp_ok_empty; try done. }
  apply wp_run in Hwp as (r & s' & Hrun & -> & H). by exists s'.
Qed.

(** A request on descriptor 7 that has been read, in a process where writes are
    interrupted and cut short. *)
Definition session_start : st :=
  mkSt (mkReq (-1) 7 6 zero_in
          (mkOut (replicate (Z.to_nat 8192) 0) 0 (replicate (Z.to_nat 4096) 0) 0 1 (replicate 16 None) 1 1 0
             (replicate 5 null_pkt) null_pkt 0 0 (replicate 1000 0)) 0)
    (set_k_writes [mkWev false (WErr EINTR); mkWev false (WN 3); mkWev false WAll; mkWev false (WN 4)] os0).

Definition session_ops : list resp_op :=
  [SetStatus 404; AppendLine (str "X: y" ++ [13; 10]); AppendHeader (str "A") (str "b"); WriteErr (str "oops");
   FinalizeHead; WriteBody (str "hello "); FlushBody; WriteBody (replicate (Z.to_nat 9000) 120)].

Definition session_response : response :=
  mkResponse (Begun true) 404 [str "X: y"; str "A:b"] (str "hello " ++ replicate (Z.to_nat 9000) 120) (str "oops").

Lemma session_start_ok : m_fd (req session_start) = 7 /\ ready 7 session_start /\ fresh_response session_start.
Proof.
  split; [done|]. split.
  - split; try done. apply not_elem_of_nil.
  - split; [|done]. split; [|done|done]. by apply resp_ok_empty.
Qed.

Lemma response_refinement_witness :
  exists s' w,
    (run_ops session_ops ;; LSAPI_Finish_r) session_start = Some (0, s') /\
    sent_on 7 (os s') = sent_on 7 (os session_start) ++ w /\
    ((m_fd (req s') = 7 /\ exists ps, decode_stream w = Some ps /\ packets_of session_response ps) \/
     (m_fd (req s') = -1 /\ exists ps rest, Forall packet_ok ps /\ packets ps = w ++ rest)).
Proof.
  apply (response_refinement 7 session_ops session_response session_start);
    [apply session_start_ok|apply session_start_ok|apply session_start_ok|vm_compute; reflexivity].
Defined.
