(* ===== verification/ReqParse.v ===== *)
(** * Parsing a request ([parseRequest] of lsapilib.c and what it calls)

    The request arrives as one packet in [m_pReqBuf]: [struct lsapi_req_header], two
    environment lists, the header index, the unknown headers and the HTTP header
    text.  Offsets into the buffer stand for the pointers the code keeps; every
    access goes through [load] and [store], so reading outside the buffer has no
    value. *)

From S2P Require Export Conn.

Open Scope Z_scope.

(** ** Layout of the packet (lsapidef.h) *)

Definition sizeof_req_header : Z := 44.
Definition off_httpHeaderLen : Z := 8.
Definition off_reqBodyLen : Z := 12.
Definition off_scriptFileOff : Z := 16.
Definition off_scriptNameOff : Z := 20.
Definition off_queryStringOff : Z := 24.
Definition off_requestMethodOff : Z := 28.
Definition off_cntUnknownHeaders : Z := 32.
Definition off_cntEnv : Z := 36.
Definition off_cntSpecialEnv : Z := 40.

(** [struct lsapi_http_header_index]: 25 uint16 lengths, two bytes of padding, 25
    int32 offsets. *)
Definition sizeof_header_index : Z := 152.
Definition headerLen_off (base i : Z) : Z := base + 2 * i.
Definition headerOff_off (base i : Z) : Z := base + 52 + 4 * i.

(** [struct lsapi_header_offset]: nameOff, nameLen, valueOff, valueLen. *)
Definition sizeof_header_offset : Z := 16.

(** ** The environment lists *)

Definition allocateEnvList (cur : list (option LSAPI_key_value_pair)) (newSize : Z)
    : M (Z * list (option LSAPI_key_value_pair)) :=
  if newSize <=? zlen cur then mret (0, cur)
  else if 8192 <? newSize then mret (-1, cur)
  else
    ok ← sys_alloc;
    if ok : bool then mret (0, cur ++ replicate (Z.to_nat (newSize - zlen cur)) None)
    else mret (-1, cur).

(** The loop of [parseEnv] from slot [i].  A slot behind the list is undefined
    behaviour, so the list's length is fuel enough. *)
Fixpoint parseEnv_loop (fuel : nat) (mem : list Z) (envs : list (option LSAPI_key_value_pair))
    (i count pBegin pEnd : Z) : option (Z * Z * list (option LSAPI_key_value_pair)) :=
  if i =? count then
    four ← load mem pBegin 4;
    if bool_decide (four = [0; 0; 0; 0]) then Some (0, pBegin + 4, envs) else Some (-1, pBegin, envs)
  else
    match fuel with
    | O => None
    | S fuel =>
        if pEnd - pBegin <? 4 then Some (-1, pBegin, envs)
        else
          b0 ← load8 mem pBegin;
          b1 ← load8 mem (pBegin + 1);
          b2 ← load8 mem (pBegin + 2);
          b3 ← load8 mem (pBegin + 3);
          let keyLen := Z.shiftl b0 8 + b1 in
          let valLen := Z.shiftl b2 8 + b3 in
          let pBegin := pBegin + 4 in
          if pEnd <? pBegin + keyLen + valLen then Some (-1, pBegin, envs)
          else if (keyLen =? 0) || (valLen =? 0) then Some (-1, pBegin, envs)
          else
            if in_range i 1 (zlen envs) then
              parseEnv_loop fuel mem
                (<[Z.to_nat i := Some (mkKV pBegin (pBegin + keyLen) (keyLen - 1) (valLen - 1))]> envs)
                (i + 1) count (pBegin + keyLen + valLen) pEnd
            else None
    end.

Definition parseEnv (mem : list Z) (envs : list (option LSAPI_key_value_pair)) (count pBegin pEnd : Z)
    : option (Z * Z * list (option LSAPI_key_value_pair)) :=
  if 8192 <? count then Some (-1, pBegin, envs)
  else parseEnv_loop (S (length envs)) mem envs 0 count pBegin pEnd.

(** ** Byte order *)

Fixpoint swap_ints (mem : list Z) (offs : list Z) : option (list Z) :=
  match offs with
  | [] => Some mem
  | off :: offs => mem ← swapIntEndian mem off; swap_ints mem offs
  end.

Definition fixEndian (mem : list Z) : option (list Z) :=
  swap_ints mem [off_httpHeaderLen; off_reqBodyLen; off_scriptFileOff; off_scriptNameOff;
                 off_queryStringOff; off_requestMethodOff; off_cntUnknownHeaders; off_cntEnv;
                 off_cntSpecialEnv].

(** One entry of the header index: swapped when its offset is not zero. *)
Definition fix_index_entry (base i : Z) (mem : list Z) : option (list Z) :=
  off ← load_s32 mem (headerOff_off base i);
  if off =? 0 then Some mem
  else
    mem ← swapShortEndian mem (headerLen_off base i);
    swapIntEndian mem (headerOff_off base i).

(** [for (i = from; i < from + n; ++i)]. *)
Fixpoint for_mem (n : nat) (from : Z) (f : Z -> list Z -> option (list Z)) (mem : list Z) : option (list Z) :=
  match n with
  | O => Some mem
  | S n => mem ← f from mem; for_mem n (from + 1) f mem
  end.

Definition fix_unknown (base i : Z) (mem : list Z) : option (list Z) :=
  let p := base + sizeof_header_offset * i in
  swap_ints mem [p; p + 4; p + 8; p + 12].

Definition fixHeaderIndexEndian (mem : list Z) (pHeaderIndex pUnknownHeader : Z) : option (list Z) :=
  mem ← for_mem (Z.to_nat H_TRANSFER_ENCODING) 0 (fix_index_entry pHeaderIndex) mem;
  cnt ← load_s32 mem off_cntUnknownHeaders;
  if 0 <? cnt then for_mem (Z.to_nat cnt) 0 (fix_unknown pUnknownHeader) mem else Some mem.

(** ** Validation *)

Definition valid_index_entry (mem : list Z) (base totalLen i : Z) : option bool :=
  off ← load_s32 mem (headerOff_off base i);
  if off =? 0 then Some true
  else if totalLen <? off then Some false
  else
    len ← load_u16 mem (headerLen_off base i);
    Some (negb (totalLen <? s32 (len + off))).

Definition valid_unknown (mem : list Z) (base totalLen i : Z) : option bool :=
  let p := base + sizeof_header_offset * i in
  nameOff ← load_s32 mem p;
  nameLen ← load_s32 mem (p + 4);
  valueOff ← load_s32 mem (p + 8);
  valueLen ← load_s32 mem (p + 12);
  Some (negb ((totalLen <? nameOff) || (totalLen <? s32 (nameOff + nameLen))
              || (totalLen <? valueOff) || (totalLen <? s32 (valueOff + valueLen)))).

(** The first entry that is not valid stops the loop. *)
Fixpoint for_all (n : nat) (from : Z) (f : Z -> option bool) : option bool :=
  match n with
  | O => Some true
  | S n => ok ← f from; if (ok : bool) then for_all n (from + 1) f else Some false
  end.

Definition validateHeaders (mem : list Z) (pHeaderIndex pUnknownHeader : Z) : option Z :=
  totalLen ← load_s32 mem off_httpHeaderLen;
  ok ← for_all (Z.to_nat H_TRANSFER_ENCODING) 0 (valid_index_entry mem pHeaderIndex totalLen);
  if negb (ok : bool) then Some (-1)
  else
    cnt ← load_s32 mem off_cntUnknownHeaders;
    if 0 <? cnt then
      ok ← for_all (Z.to_nat cnt) 0 (valid_unknown mem pUnknownHeader totalLen);
      Some (if (ok : bool) then 0 else -1)
    else Some 0.

(** ** Reading a header through the index *)

(** [LSAPI_GetHeader_r]: the byte behind the value becomes a NUL.  The answer is the
    offset of the value in the buffer, [None] for NULL. *)
Definition LSAPI_GetHeader_r (headerIndex : Z) : M (option Z) :=
  if negb ((0 <=? headerIndex) && (headerIndex <=? H_TRANSFER_ENCODING)) then mret None
  else
    index ← get_in m_pHeaderIndex;
    base ← lift index;
    mem ← get_in m_pReqBuf;
    off ← lift (load_s32 mem (headerOff_off base headerIndex));
    if off =? 0 then mret None
    else
      http ← get_in m_pHttpHeader;
      http ← lift http;
      len ← lift (load_u16 mem (headerLen_off base headerIndex));
      ch ← lift (load8 mem (http + off + len));
      (if ch =? 0 then mret tt
       else mem ← lift (store mem (http + off + len) [0]); mod_in (set_m_pReqBuf mem)) ;;
      mret (Some (http + off)).

(** The C library's [strtoll(s, NULL, 10)]: blanks, a sign, digits; clamped. *)
Definition is_space (c : Z) : bool := (c =? 32) || ((9 <=? c) && (c <=? 13)).
Definition is_digit (c : Z) : bool := (48 <=? c) && (c <=? 57).

Fixpoint digits_val (acc : Z) (l : list Z) : Z :=
  match l with
  | c :: l => if is_digit c then digits_val (10 * acc + (c - 48)) l else acc
  | [] => acc
  end.

Fixpoint skip_space (l : list Z) : list Z :=
  match l with
  | c :: l' => if is_space c then skip_space l' else l
  | [] => []
  end.

Definition strtoll (s : list Z) : Z :=
  let s := skip_space s in
  let v := match s with
    | 45 :: s => - digits_val 0 s
    | 43 :: s => digits_val 0 s
    | _ => digits_val 0 s
    end in
  Z.max (- 2 ^ 63) (Z.min v (2 ^ 63 - 1)).

Definition parseContentLenFromHeader : M Z :=
  p ← LSAPI_GetHeader_r H_CONTENT_LENGTH;
  match p with
  | Some p =>
      mem ← get_in m_pReqBuf;
      s ← lift (load_str mem p);
      mod_in (set_m_reqBodyLen (strtoll s)) ;;
      mret 0
  | None => mret 0
  end.

(** ** [parseRequest] *)

Definition get_field (off : Z) : M Z :=
  mem ← get_in m_pReqBuf; lift (load_s32 mem off).

(** [p + (-p mod 8)]: the round-up of the code's [(off + 7) & ~7]. *)
Definition align8 (off : Z) : Z := Z.land (off + 7) (Z.lnot 7).

Definition offset_ok (totalLen off : Z) : bool := (0 <=? off) && (off <? totalLen).

(** The tail of [parseRequest], from the end of the environment lists on. *)
Definition parse_layout (shouldFixEndian : bool) (pBegin pEnd totalLen : Z) : M Z :=
  scriptFile ← get_field off_scriptFileOff;
  scriptName ← get_field off_scriptNameOff;
  queryString ← get_field off_queryStringOff;
  requestMethod ← get_field off_requestMethodOff;
  if negb (offset_ok totalLen scriptFile && offset_ok totalLen scriptName
           && offset_ok totalLen queryString && offset_ok totalLen requestMethod)
  then mret (-1)
  else
    mod_in (set_m_pScriptFile (Some scriptFile)) ;;
    mod_in (set_m_pScriptName (Some scriptName)) ;;
    mod_in (set_m_pQueryString (Some queryString)) ;;
    mod_in (set_m_pRequestMethod (Some requestMethod)) ;;
    let pHeaderIndex := align8 pBegin in
    let pUnknownHeader := pHeaderIndex + sizeof_header_index in
    mod_in (set_m_pHeaderIndex (Some pHeaderIndex)) ;;
    mod_in (set_m_pUnknownHeader (Some pUnknownHeader)) ;;
    cntUnknown ← get_field off_cntUnknownHeaders;
    httpHeaderLen ← get_field off_httpHeaderLen;
    let pHttpHeader := pUnknownHeader + sizeof_header_offset * cntUnknown in
    mod_in (set_m_pHttpHeader (Some pHttpHeader)) ;;
    if negb (pHttpHeader + httpHeaderLen =? pEnd) then mret (-1)
    else
      mem ← get_in m_pReqBuf;
      mem ← lift (if shouldFixEndian then fixHeaderIndexEndian mem pHeaderIndex pUnknownHeader
                  else Some mem);
      mod_in (set_m_pReqBuf mem) ;;
      r ← lift (validateHeaders mem pHeaderIndex pUnknownHeader);
      if r =? -1 then mret (-1)
      else
        bodyLen ← get_field off_reqBodyLen;
        mod_in (set_m_reqBodyLen bodyLen) ;;
        if bodyLen =? -2 then parseContentLenFromHeader ;; mret 0 else mret 0.

Definition parseRequest (totalLen : Z) : M Z :=
  let pBegin := sizeof_req_header in
  let pEnd := totalLen in
  mem ← get_in m_pReqBuf;
  flag ← lift (load8 mem 3);
  let shouldFixEndian := negb (LSAPI_ENDIAN =? Z.land (s8 flag) LSAPI_ENDIAN_BIT) in
  mem ← lift (if shouldFixEndian then fixEndian mem else Some mem);
  mod_in (set_m_pReqBuf mem) ;;
  cntSpecialEnv ← get_field off_cntSpecialEnv;
  cntEnv ← get_field off_cntEnv;
  special ← get_in m_pSpecialEnvList;
  '(r, special) ← allocateEnvList special cntSpecialEnv;
  mod_in (set_m_pSpecialEnvList special) ;;
  if r =? -1 then mret (-1)
  else
    envs ← get_in m_pEnvList;
    '(r, envs) ← allocateEnvList envs cntEnv;
    mod_in (set_m_pEnvList envs) ;;
    if r =? -1 then mret (-1)
    else
      '(r, pBegin, special) ← lift (parseEnv mem special cntSpecialEnv pBegin pEnd);
      mod_in (set_m_pSpecialEnvList special) ;;
      if r =? -1 then mret (-1)
      else
        '(r, pBegin, envs) ← lift (parseEnv mem envs cntEnv pBegin pEnd);
        mod_in (set_m_pEnvList envs) ;;
        if r =? -1 then mret (-1)
        else parse_layout shouldFixEndian pBegin pEnd totalLen.
