(* ===== verification/ReqParseSpec.v ===== *)
(** * What parsing a request promises

    The image of a request in either byte order, the environment lists as the parser
    reads them back, the transparency of the byte order, and the bounds of what is
    accepted. *)

From stdpp Require Import sets.
From S2P Require Export ReqParse.

Open Scope Z_scope.

(** ** Reading and swapping inside an image *)

Lemma load_skip {A} (a b : list A) off n :
  zlen a <= off -> load (a ++ b) off n = load b (off - zlen a) n.
Proof.
  intros Ha. pose proof (zlen_nonneg a). unfold load.
  assert (in_range off n (zlen (a ++ b)) = in_range (off - zlen a) n (zlen b)) as ->.
  { apply eq_true_iff_eq. rewrite !in_range_spec, zlen_app. lia. }
  by rewrite slice_app_r.
Qed.

Lemma load_here {A} (m r : list A) n : zlen m = n -> load (m ++ r) 0 n = Some m.
Proof. apply (load_mid [] m r 0 n eq_refl). Qed.

Definition int_bytes (big : bool) (z : Z) : list Z := if big then reverse (le32 z) else le32 z.
Definition short_bytes (big : bool) (z : Z) : list Z := if big then reverse (le16 z) else le16 z.

Lemma zlen_int_bytes big z : zlen (int_bytes big z) = 4.
Proof. by destruct big. Qed.
Lemma zlen_short_bytes big z : zlen (short_bytes big z) = 2.
Proof. by destruct big. Qed.

#[global] Arguments int_bytes : simpl never.
#[global] Arguments short_bytes : simpl never.

Lemma le_val_le32_s32 z : is_s32 z -> s32 (le_val (le32 z)) = z.
Proof. intros. rewrite le_val_le32, s32_u32. by apply s32_id. Qed.

Lemma load_s32_mid pre z post off :
  zlen pre = off -> is_s32 z -> load_s32 (pre ++ le32 z ++ post) off = Some z.
Proof.
  intros Hoff Hz. unfold load_s32. rewrite load_mid by done. cbn. f_equal. by apply le_val_le32_s32.
Qed.

Lemma swapInt_mid pre z post off :
  zlen pre = off -> swapIntEndian (pre ++ int_bytes true z ++ post) off = Some (pre ++ int_bytes false z ++ post).
Proof.
  intros Hoff. unfold swapIntEndian. rewrite load_mid by (done || apply zlen_int_bytes).
  unfold int_bytes. destruct (le32_shape z) as (p0 & p1 & p2 & p3 & ->). cbn [mbind option_bind reverse rev_append].
  by rewrite store_mid.
Qed.

Lemma swapShort_mid pre z post off :
  zlen pre = off -> swapShortEndian (pre ++ short_bytes true z ++ post) off = Some (pre ++ short_bytes false z ++ post).
Proof.
  intros Hoff. unfold swapShortEndian. rewrite load_mid by (done || apply zlen_short_bytes).
  unfold short_bytes. change (le16 z) with [z mod 256; z / 256 mod 256]. cbn [mbind option_bind reverse rev_append].
  by rewrite store_mid.
Qed.

(** A run of ints. *)
Definition ints (big : bool) (zs : list Z) : list Z := concat (int_bytes big <$> zs).

Lemma zlen_ints big zs : zlen (ints big zs) = 4 * zlen zs.
Proof.
  unfold ints. induction zs as [|z zs IH]; [done|]. cbn [fmap list_fmap concat].
  rewrite zlen_app, zlen_int_bytes, zlen_cons, IH. lia.
Qed.

Lemma ints_cons big z zs : ints big (z :: zs) = int_bytes big z ++ ints big zs.
Proof. done. Qed.

Fixpoint int_offs (off : Z) (n : nat) : list Z :=
  match n with O => [] | S n => off :: int_offs (off + 4) n end.

Lemma swap_ints_run pre zs post off :
  zlen pre = off ->
  swap_ints (pre ++ ints true zs ++ post) (int_offs off (length zs)) = Some (pre ++ ints false zs ++ post).
Proof.
  revert pre off. induction zs as [|z zs IH]; intros pre off Hoff; [done|].
  cbn [length int_offs swap_ints]. rewrite !ints_cons, <- !app_assoc, swapInt_mid by done.
  cbn [mbind option_bind]. rewrite (app_assoc pre), (IH (pre ++ int_bytes false z)).
  - by rewrite <- app_assoc.
  - rewrite zlen_app, zlen_int_bytes. lia.
Qed.

(** The [i]-th int of a run. *)
Lemma load_ints pre zs post off i z :
  zlen pre = off -> zs !! i = Some z -> is_s32 z ->
  load_s32 (pre ++ ints false zs ++ post) (off + 4 * Z.of_nat i) = Some z.
Proof.
  intros Hoff Hi Hz. rewrite <- (take_drop_middle zs i z Hi).
  unfold ints. rewrite fmap_app, concat_app. cbn [fmap list_fmap concat]. rewrite <- !app_assoc, app_assoc.
  apply load_s32_mid; [|done]. rewrite zlen_app. fold (ints false (take i zs)). rewrite zlen_ints.
  unfold zlen at 2. rewrite length_take. apply lookup_lt_Some in Hi. lia.
Qed.

(** ** The environment lists *)

Lemma load8_mid pre b post off : zlen pre = off -> load8 (pre ++ b :: post) off = Some b.
Proof.
  intros <-. pose proof (zlen_nonneg pre). pose proof (zlen_nonneg post).
  apply load8_Some. split; [done|]. split; [rewrite zlen_app, zlen_cons; lia|].
  unfold zlen. rewrite Nat2Z.id, lookup_app_r by lia. by rewrite Nat.sub_diag.
Qed.

Lemma load8_in pre l post off j b :
  zlen pre = off -> l !! j = Some b -> load8 (pre ++ l ++ post) (off + Z.of_nat j) = Some b.
Proof.
  intros Hoff Hj. rewrite <- (take_drop_middle l j b Hj), <- app_assoc, app_assoc. cbn [app].
  apply load8_mid. rewrite zlen_app. unfold zlen at 2. rewrite length_take.
  apply lookup_lt_Some in Hj. lia.
Qed.

(** A pair on the wire: the two lengths (their NUL included) in network order, the two
    strings. *)
Definition env_pair (k v : list Z) : list Z :=
  short_bytes true (zlen k + 1) ++ short_bytes true (zlen v + 1) ++ (k ++ [0]) ++ (v ++ [0]).

Definition env_bytes (kvs : list (list Z * list Z)) : list Z :=
  concat ((fun kv => env_pair kv.1 kv.2) <$> kvs) ++ [0; 0; 0; 0].

Definition env_ok (kv : list Z * list Z) : Prop := zlen kv.1 < 65535 /\ zlen kv.2 < 65535.

(** The entry names the pair: its key and its value stand in the buffer with their NUL. *)
Record names_pair (mem : list Z) (kv : LSAPI_key_value_pair) (p : list Z * list Z) : Prop := {
  np_keyLen : keyLen kv = zlen p.1;
  np_valLen : valLen kv = zlen p.2;
  np_key : load mem (pKey kv) (zlen p.1 + 1) = Some (p.1 ++ [0]);
  np_val : load mem (pValue kv) (zlen p.2 + 1) = Some (p.2 ++ [0])
}.

Lemma zlen_env_pair k v : zlen (env_pair k v) = 6 + zlen k + zlen v.
Proof.
  unfold env_pair. rewrite !zlen_app, !zlen_short_bytes. change (zlen [0]) with 1. lia.
Qed.

Lemma be16_val z : 0 <= z < 2 ^ 16 -> Z.shiftl (z / 256 mod 256) 8 + z mod 256 = z.
Proof. intros. rewrite Z.shiftl_mul_pow2 by lia. Z.to_euclidean_division_equations. lia. Qed.

Lemma parseEnv_step fuel pre k v post envs i count pEnd p :
  zlen pre = p -> env_ok (k, v) -> p + zlen (env_pair k v) <= pEnd -> i <> count -> 0 <= i < zlen envs ->
  parseEnv_loop (S fuel) (pre ++ env_pair k v ++ post) envs i count p pEnd =
  parseEnv_loop fuel (pre ++ env_pair k v ++ post)
    (<[Z.to_nat i := Some (mkKV (p + 4) (p + 4 + (zlen k + 1)) (zlen k) (zlen v))]> envs)
    (i + 1) count (p + zlen (env_pair k v)) pEnd.
Proof.
  intros Hp [Hk Hv] Hend Hi Hr. cbn [fst snd] in *. pose proof (zlen_nonneg k). pose proof (zlen_nonneg v).
  rewrite zlen_env_pair in *. cbn [parseEnv_loop].
  rewrite (proj2 (Z.eqb_neq _ _)) by done. rewrite (proj2 (Z.ltb_ge _ _)) by lia.
  set (mem := pre ++ env_pair k v ++ post).
  set (hd := [(zlen k + 1) / 256 mod 256; (zlen k + 1) mod 256; (zlen v + 1) / 256 mod 256; (zlen v + 1) mod 256]).
  assert (mem = pre ++ hd ++ ((k ++ [0]) ++ v ++ [0]) ++ post) as Hm by done.
  pose proof (fun j b => load8_in pre hd (((k ++ [0]) ++ v ++ [0]) ++ post) p j b Hp) as Hl.
  rewrite <- Hm in Hl.
  assert (load8 mem p = Some ((zlen k + 1) / 256 mod 256)) as ->.
  { rewrite <- (Z.add_0_r p). exact (Hl 0%nat _ eq_refl). }
  assert (load8 mem (p + 1) = Some ((zlen k + 1) mod 256)) as E1 by exact (Hl 1%nat _ eq_refl).
  assert (load8 mem (p + 2) = Some ((zlen v + 1) / 256 mod 256)) as E2 by exact (Hl 2%nat _ eq_refl).
  assert (load8 mem (p + 3) = Some ((zlen v + 1) mod 256)) as E3 by exact (Hl 3%nat _ eq_refl).
  cbn [mbind option_bind]. rewrite E1. cbn [mbind option_bind]. rewrite E2. cbn [mbind option_bind].
  rewrite E3. cbn [mbind option_bind].
  rewrite !be16_val by lia. rewrite (proj2 (Z.ltb_ge _ _)) by lia.
  rewrite !(proj2 (Z.eqb_neq _ 0)) by lia. cbn [orb].
  rewrite (proj2 (in_range_spec _ _ _)) by lia.
  replace (zlen k + 1 - 1) with (zlen k) by lia. replace (zlen v + 1 - 1) with (zlen v) by lia.
  f_equal. lia.
Qed.

(** The entries the parser makes for pairs that start at [p]. *)
Fixpoint env_entries (p : Z) (kvs : list (list Z * list Z)) : list LSAPI_key_value_pair :=
  match kvs with
  | [] => []
  | (k, v) :: kvs =>
      mkKV (p + 4) (p + 4 + (zlen k + 1)) (zlen k) (zlen v) :: env_entries (p + zlen (env_pair k v)) kvs
  end.

Lemma length_env_entries p kvs : length (env_entries p kvs) = length kvs.
Proof. revert p. induction kvs as [|[k v] kvs IH]; intros p; cbn; auto. Qed.

(** They name the pairs. *)
Lemma env_entries_names pre kvs post p :
  zlen pre = p ->
  Forall2 (names_pair (pre ++ concat ((fun kv => env_pair kv.1 kv.2) <$> kvs) ++ post)) (env_entries p kvs) kvs.
Proof.
  revert pre p. induction kvs as [|[k v] kvs IH]; intros pre p Hp; [constructor|].
  cbn [fmap list_fmap concat env_entries fst snd].
  specialize (IH (pre ++ env_pair k v) (p + zlen (env_pair k v)) ltac:(rewrite zlen_app; lia)).
  set (rest := concat _) in *. rewrite <- app_assoc in IH. rewrite <- app_assoc. constructor; [|exact IH].
  clear IH. unfold env_pair. set (lk := short_bytes true (zlen k + 1)). set (lv := short_bytes true (zlen v + 1)).
  assert (zlen (pre ++ lk ++ lv) = p + 4) as Hz.
  { rewrite !zlen_app. subst lk lv. rewrite !zlen_short_bytes. lia. }
  split; cbn [pKey pValue keyLen valLen fst snd]; [done|done|..].
  - replace (pre ++ (lk ++ lv ++ (k ++ [0]) ++ v ++ [0]) ++ rest ++ post)
      with ((pre ++ lk ++ lv) ++ (k ++ [0]) ++ (v ++ [0] ++ rest ++ post)) by (by rewrite <- !app_assoc).
    apply load_mid; [done|apply zlen_app].
  - replace (pre ++ (lk ++ lv ++ (k ++ [0]) ++ v ++ [0]) ++ rest ++ post)
      with (((pre ++ lk ++ lv) ++ k ++ [0]) ++ (v ++ [0]) ++ (rest ++ post)) by (by rewrite <- !app_assoc).
    apply load_mid; [|apply zlen_app]. rewrite zlen_app, Hz, zlen_app. done.
Qed.

Lemma parseEnv_loop_encode kvs : forall fuel pre post envs i count pEnd p,
  zlen pre = p -> Forall env_ok kvs -> p + zlen (env_bytes kvs) - 4 <= pEnd ->
  count = Z.of_nat i + zlen kvs -> count <= zlen envs -> (length kvs < fuel)%nat ->
  parseEnv_loop fuel (pre ++ env_bytes kvs ++ post) envs (Z.of_nat i) count p pEnd =
  Some (0, p + zlen (env_bytes kvs), take i envs ++ (Some <$> env_entries p kvs) ++ drop (i + length kvs) envs).
Proof.
  induction kvs as [|[k v] kvs IH]; intros fuel pre post envs i count pEnd p Hp Hok Hend Hcount Hle Hfuel.
  - destruct fuel as [|fuel]; [cbn in Hfuel; lia|]. cbn [parseEnv_loop].
    change (zlen []) with 0 in Hcount. rewrite (proj2 (Z.eqb_eq _ _)) by lia.
    change (env_bytes []) with [0; 0; 0; 0]. rewrite load_mid by done. cbn [mbind option_bind].
    rewrite bool_decide_true by done. do 3 f_equal. cbn [env_entries fmap list_fmap length app].
    rewrite Nat.add_0_r. symmetry. apply take_drop.
  - destruct fuel as [|fuel]; [cbn in Hfuel; lia|]. apply Forall_cons in Hok as [Hkv Hok].
    assert (env_bytes ((k, v) :: kvs) = env_pair k v ++ env_bytes kvs) as E.
    { unfold env_bytes. cbn [fmap list_fmap concat fst snd]. by rewrite <- app_assoc. }
    rewrite E in *. rewrite zlen_app in *. pose proof (zlen_nonneg (env_bytes kvs)).
    assert (4 <= zlen (env_bytes kvs)) as H4.
    { unfold env_bytes. rewrite zlen_app. change (zlen [0;0;0;0]) with 4.
      pose proof (zlen_nonneg (concat ((fun kv => env_pair kv.1 kv.2) <$> kvs))). lia. }
    rewrite zlen_cons in Hcount. pose proof (zlen_nonneg kvs).
    rewrite <- app_assoc, parseEnv_step by (done || lia || (unfold zlen in *; lia)).
    rewrite (app_assoc pre). replace (Z.of_nat i + 1) with (Z.of_nat (S i)) by lia.
    rewrite (IH fuel (pre ++ env_pair k v)); try done; try lia.
    + rewrite <- Z.add_assoc. f_equal. f_equal. cbn [env_entries fmap list_fmap length].
      rewrite Nat2Z.id, drop_insert_lt by lia.
      assert (i < length envs)%nat as Hi by (unfold zlen in *; lia).
      erewrite take_S_r by (by apply list_lookup_insert_eq). rewrite take_insert_ge by lia.
      rewrite <- app_assoc. cbn [app]. do 3 f_equal. f_equal. lia.
    + rewrite zlen_app. lia.
    + unfold zlen. rewrite length_insert. fold (zlen envs). unfold zlen in *. lia.
    + cbn in Hfuel. lia.
Qed.

(** [parseEnv] on an encoded list. *)
Lemma parseEnv_encode pre kvs post envs pEnd :
  Forall env_ok kvs -> (length kvs <= length envs)%nat -> zlen kvs <= 8192 ->
  zlen pre + zlen (env_bytes kvs) - 4 <= pEnd ->
  parseEnv (pre ++ env_bytes kvs ++ post) envs (zlen kvs) (zlen pre) pEnd =
  Some (0, zlen pre + zlen (env_bytes kvs), (Some <$> env_entries (zlen pre) kvs) ++ drop (length kvs) envs).
Proof.
  intros Hok Hlen Hmax Hend. unfold parseEnv. rewrite (proj2 (Z.ltb_ge _ _)) by lia.
  apply (parseEnv_loop_encode kvs _ _ _ _ 0); try done; unfold zlen in *; lia.
Qed.

(** Environment lists round trip: a list of pairs encoded into the packet is read
    back by [parseEnv] as entries that name exactly those keys and values, in order,
    with the cursor behind the terminating zeros and the other slots untouched. *)
Theorem parseEnv_decodes pre kvs post envs pEnd :
  Forall env_ok kvs -> (length kvs <= length envs)%nat -> zlen kvs <= 8192 ->
  zlen pre + zlen (env_bytes kvs) - 4 <= pEnd ->
  exists entries,
    parseEnv (pre ++ env_bytes kvs ++ post) envs (zlen kvs) (zlen pre) pEnd =
      Some (0, zlen pre + zlen (env_bytes kvs), (Some <$> entries) ++ drop (length kvs) envs) /\
    Forall2 (names_pair (pre ++ env_bytes kvs ++ post)) entries kvs.
Proof.
  intros Hok Hlen Hmax Hend. exists (env_entries (zlen pre) kvs). split; [by apply parseEnv_encode|].
  unfold env_bytes. rewrite <- app_assoc. by apply env_entries_names.
Qed.

Lemma parseEnv_decodes_witness :
  exists entries,
    parseEnv ([7] ++ env_bytes [(str "A", str "xyz"); (str "PATH", [])] ++ [9; 9]) (replicate 3 None) 2 1 31 =
      Some (0, 1 + zlen (env_bytes [(str "A", str "xyz"); (str "PATH", [])]), (Some <$> entries) ++ [None]) /\
    Forall2 (names_pair ([7] ++ env_bytes [(str "A", str "xyz"); (str "PATH", [])] ++ [9; 9])) entries
      [(str "A", str "xyz"); (str "PATH", [])].
Proof.
  apply (parseEnv_decodes [7] [(str "A", str "xyz"); (str "PATH", [])] [9; 9] (replicate 3 None) 31);
    [|cbn; lia|vm_compute; discriminate|vm_compute; discriminate].
  by repeat (apply Forall_cons_2; [split; reflexivity|]).
Defined.

(** ** The header index *)

(** The index with each entry in its own byte order. *)
Definition index_image (es : list (bool * Z * Z)) : list Z :=
  concat ((fun e => short_bytes e.1.1 e.1.2) <$> es) ++ [0; 0] ++ concat ((fun e => int_bytes e.1.1 e.2) <$> es).

Lemma zlen_index_shorts es : zlen (concat ((fun e : bool * Z * Z => short_bytes e.1.1 e.1.2) <$> es)) = 2 * zlen es.
Proof.
  induction es as [|e es IH]; [done|]. cbn [fmap list_fmap concat].
  rewrite zlen_app, zlen_short_bytes, zlen_cons, IH. lia.
Qed.

Lemma zlen_index_ints es : zlen (concat ((fun e : bool * Z * Z => int_bytes e.1.1 e.2) <$> es)) = 4 * zlen es.
Proof.
  induction es as [|e es IH]; [done|]. cbn [fmap list_fmap concat].
  rewrite zlen_app, zlen_int_bytes, zlen_cons, IH. lia.
Qed.

(** The image around entry [i]. *)
Lemma index_image_split es1 b len off es2 :
  index_image (es1 ++ (b, len, off) :: es2) =
  (concat ((fun e => short_bytes e.1.1 e.1.2) <$> es1) ++ short_bytes b len ++
   concat ((fun e => short_bytes e.1.1 e.1.2) <$> es2) ++ [0; 0] ++
   concat ((fun e => int_bytes e.1.1 e.2) <$> es1)) ++ int_bytes b off ++ concat ((fun e => int_bytes e.1.1 e.2) <$> es2).
Proof.
  unfold index_image. rewrite !fmap_app, !concat_app. cbn [fmap list_fmap concat fst snd]. by rewrite <- !app_assoc.
Qed.

Lemma int_bytes_zero off : is_s32 off -> s32 (le_val (int_bytes true off)) = 0 <-> off = 0.
Proof.
  intros Hoff. unfold int_bytes. split; [|by intros ->].
  pose proof (bytes_le_bytes 4 off) as Hb. fold (le32 off) in Hb.
  pose proof (le_val_le32_s32 off Hoff) as Hv.
  destruct (le32_shape off) as (p0 & p1 & p2 & p3 & E). rewrite E in *. cbn [reverse rev_append].
  rewrite !Forall_cons in Hb. destruct Hb as (H0 & H1 & H2 & H3 & _). unfold is_byte in *.
  cbn [le_val reverse rev_append] in *. intros Hz. rewrite <- Hv. clear Hv E Hoff.
  unfold s32 in *. cbn in Hz |- *. Z.to_euclidean_division_equations. nia.
Qed.

Definition entry_fixed (e : bool * Z * Z) : bool * Z * Z :=
  if e.2 =? 0 then e else (false, e.1.2, e.2).

Lemma fix_index_entry_spec pre es1 len off es2 post base :
  zlen pre = base -> zlen (es1 ++ (true, len, off) :: es2) = 25 -> is_s32 off ->
  fix_index_entry base (zlen es1) (pre ++ index_image (es1 ++ (true, len, off) :: es2) ++ post) =
  Some (pre ++ index_image (es1 ++ entry_fixed (true, len, off) :: es2) ++ post).
Proof.
  intros Hb Hlen Hoff. rewrite zlen_app, zlen_cons in Hlen. unfold entry_fixed. cbn [fst snd].
  assert (forall b, pre ++ index_image (es1 ++ (b, len, off) :: es2) ++ post =
    (pre ++ (concat ((fun e => short_bytes e.1.1 e.1.2) <$> es1) ++ short_bytes b len ++
     concat ((fun e => short_bytes e.1.1 e.1.2) <$> es2) ++ [0; 0] ++
     concat ((fun e => int_bytes e.1.1 e.2) <$> es1))) ++ int_bytes b off ++
     concat ((fun e => int_bytes e.1.1 e.2) <$> es2) ++ post) as Hint.
  { intros b. rewrite index_image_split, <- !app_assoc. done. }
  assert (forall b b2, (pre ++ (concat ((fun e => short_bytes e.1.1 e.1.2) <$> es1) ++ short_bytes b len ++
     concat ((fun e => short_bytes e.1.1 e.1.2) <$> es2) ++ [0; 0] ++
     concat ((fun e => int_bytes e.1.1 e.2) <$> es1))) ++ int_bytes b2 off ++
     concat ((fun e => int_bytes e.1.1 e.2) <$> es2) ++ post =
    (pre ++ concat ((fun e => short_bytes e.1.1 e.1.2) <$> es1)) ++ short_bytes b len ++
     (concat ((fun e => short_bytes e.1.1 e.1.2) <$> es2) ++ [0; 0] ++
     concat ((fun e => int_bytes e.1.1 e.2) <$> es1) ++ int_bytes b2 off ++
     concat ((fun e => int_bytes e.1.1 e.2) <$> es2) ++ post)) as Hsh.
  { intros b b2. by rewrite <- !app_assoc. }
  assert (forall b, zlen (pre ++ (concat ((fun e => short_bytes e.1.1 e.1.2) <$> es1) ++ short_bytes b len ++
     concat ((fun e => short_bytes e.1.1 e.1.2) <$> es2) ++ [0; 0] ++
     concat ((fun e => int_bytes e.1.1 e.2) <$> es1))) = headerOff_off base (zlen es1)) as Hz.
  { intros b. rewrite !zlen_app, !zlen_index_shorts, zlen_index_ints, zlen_short_bytes.
    change (zlen [0; 0]) with 2. unfold headerOff_off. lia. }
  unfold fix_index_entry, load_s32. rewrite Hint, load_mid by (apply Hz || apply zlen_int_bytes).
  cbn [fmap option_fmap option_map mbind option_bind].
  pose proof (int_bytes_zero off Hoff) as H0.
  destruct (Z.eqb_spec (s32 (le_val (int_bytes true off))) 0) as [E|E]; destruct (Z.eqb_spec off 0) as [E2|E2];
    try tauto; [by rewrite Hint|].
  rewrite Hsh. rewrite swapShort_mid.
  2:{ rewrite zlen_app, zlen_index_shorts. unfold headerLen_off. lia. }
  cbn [mbind option_bind]. rewrite <- Hsh, swapInt_mid by apply Hz. by rewrite Hint.
Qed.

Lemma fix_index_run es2 : forall pre es1 post base,
  zlen pre = base -> zlen (es1 ++ ((fun lo => (true, lo.1, lo.2)) <$> es2)) = 25 ->
  forall n tail, length es2 = (n + length tail)%nat -> Forall (fun lo => is_s32 lo.2) es2 ->
  tail = drop n es2 ->
  for_mem n (zlen es1) (fix_index_entry base) (pre ++ index_image (es1 ++ ((fun lo => (true, lo.1, lo.2)) <$> es2)) ++ post) =
  Some (pre ++ index_image (es1 ++ ((fun lo => entry_fixed (true, lo.1, lo.2)) <$> take n es2) ++
                            ((fun lo => (true, lo.1, lo.2)) <$> tail)) ++ post).
Proof.
  induction es2 as [|[len off] es2 IH]; intros pre es1 post base Hb Hlen n tail Hn Hok ->.
  - destruct n as [|n]; [done|cbn in Hn; lia].
  - destruct n as [|n]; [done|]. apply Forall_cons in Hok as [Hoff Hok].
    cbn [for_mem fmap list_fmap fst snd take drop]. rewrite fix_index_entry_spec by done.
    cbn [mbind option_bind].
    replace (es1 ++ entry_fixed (true, len, off) :: ((fun lo => (true, lo.1, lo.2)) <$> es2))
      with ((es1 ++ [entry_fixed (true, len, off)]) ++ ((fun lo => (true, lo.1, lo.2)) <$> es2))
      by (by rewrite <- app_assoc).
    replace (zlen es1 + 1) with (zlen (es1 ++ [entry_fixed (true, len, off)]))
      by (rewrite zlen_app; done).
    rewrite (IH pre _ post base Hb) with (tail := drop n es2); try done.
    + by rewrite <- !app_assoc.
    + rewrite fmap_cons, zlen_app, zlen_cons in Hlen. rewrite <- app_assoc. cbn [app]. by rewrite zlen_app, zlen_cons.
    + cbn in Hn. rewrite length_drop in *. lia.
Qed.

(** ** The unknown headers *)

Definition unknown_header : Type := Z * Z * Z * Z.  (* nameOff, nameLen, valueOff, valueLen *)
Definition flat (u : unknown_header) : list Z := [u.1.1.1; u.1.1.2; u.1.2; u.2].
Definition unknown_image (big : bool) (us : list unknown_header) : list Z := ints big (concat (flat <$> us)).

Lemma ints_app big zs ws : ints big (zs ++ ws) = ints big zs ++ ints big ws.
Proof. unfold ints. by rewrite fmap_app, concat_app. Qed.

Lemma zlen_unknown_image big us : zlen (unknown_image big us) = 16 * zlen us.
Proof.
  unfold unknown_image. induction us as [|u us IH]; [done|]. cbn [fmap list_fmap concat].
  rewrite ints_app, zlen_app, IH, zlen_ints, (zlen_cons u us). change (zlen (flat u)) with 4. lia.
Qed.

Lemma fix_unknown_step pre u post base i :
  zlen pre = base + 16 * i ->
  fix_unknown base i (pre ++ ints true (flat u) ++ post) = Some (pre ++ ints false (flat u) ++ post).
Proof.
  intros Hb. unfold fix_unknown, sizeof_header_offset. cbn zeta.
  replace [base + 16 * i; base + 16 * i + 4; base + 16 * i + 8; base + 16 * i + 12]
    with (int_offs (base + 16 * i) (length (flat u))) by (cbn [int_offs flat length]; by rewrite <- !Z.add_assoc).
  by apply swap_ints_run.
Qed.

Lemma fix_unknown_run us : forall pre post base i,
  zlen pre = base + 16 * i ->
  for_mem (length us) i (fix_unknown base) (pre ++ unknown_image true us ++ post) =
  Some (pre ++ unknown_image false us ++ post).
Proof.
  induction us as [|u us IH]; intros pre post base i Hb; [done|].
  cbn [length for_mem]. unfold unknown_image in *. cbn [fmap list_fmap concat].
  rewrite !ints_app, <- !app_assoc, fix_unknown_step by done. cbn [mbind option_bind].
  rewrite (app_assoc pre), IH; [by rewrite <- app_assoc|].
  rewrite zlen_app, zlen_ints. change (zlen (flat u)) with 4. lia.
Qed.

(** ** The packet *)

Record request_image := mkImage {
  ri_bodyLen : Z;
  ri_scriptFile : Z;
  ri_scriptName : Z;
  ri_queryString : Z;
  ri_requestMethod : Z;
  ri_special : list (list Z * list Z);
  ri_env : list (list Z * list Z);
  ri_index : list (Z * Z);  (* length and offset of the known headers *)
  ri_unknown : list unknown_header;
  ri_http : list Z
}.

Definition ri_fields (r : request_image) : list Z :=
  [zlen (ri_http r); ri_bodyLen r; ri_scriptFile r; ri_scriptName r; ri_queryString r;
   ri_requestMethod r; zlen (ri_unknown r); zlen (ri_env r); zlen (ri_special r)].

(** Where the pieces start. *)
Definition ri_env_at (r : request_image) : Z := 44 + zlen (env_bytes (ri_special r)).
Definition ri_envs_end (r : request_image) : Z := ri_env_at r + zlen (env_bytes (ri_env r)).
Definition ri_index_at (r : request_image) : Z := align8 (ri_envs_end r).
Definition ri_unknown_at (r : request_image) : Z := ri_index_at r + 152.
Definition ri_http_at (r : request_image) : Z := ri_unknown_at r + 16 * zlen (ri_unknown r).
Definition ri_total (r : request_image) : Z := ri_http_at r + zlen (ri_http r).

Definition ri_entries (big : bool) (r : request_image) : list (bool * Z * Z) :=
  (fun lo => (big, lo.1, lo.2)) <$> ri_index r.

(** The packet in memory: [flag] is the byte order it announces, [fields], [index]
    the order its header fields and its index are in. *)
Definition image (flag fields index : bool) (r : request_image) (slack : list Z) : list Z :=
  [76; 83; 1; if flag then 1 else 0] ++ le32 (ri_total r) ++ ints fields (ri_fields r) ++
  env_bytes (ri_special r) ++ env_bytes (ri_env r) ++
  replicate (Z.to_nat (ri_index_at r - ri_envs_end r)) 0 ++
  index_image (ri_entries index r) ++ unknown_image index (ri_unknown r) ++ ri_http r ++ slack.

Record image_ok (r : request_image) : Prop := {
  io_total : ri_total r <= LSAPI_MAX_HEADER_LEN;
  io_special : Forall env_ok (ri_special r) /\ zlen (ri_special r) <= 8192;
  io_env : Forall env_ok (ri_env r) /\ zlen (ri_env r) <= 8192;
  io_offs : Forall (fun off => 0 <= off < ri_total r)
              [ri_scriptFile r; ri_scriptName r; ri_queryString r; ri_requestMethod r];
  io_body : is_s32 (ri_bodyLen r) /\ ri_bodyLen r <> -2;
  io_index : length (ri_index r) = 25%nat;
  io_entries : Forall (fun lo => 0 <= lo.1 < 2 ^ 16 /\ is_s32 lo.2 /\
                 (lo.2 = 0 \/ 0 <= lo.2 /\ lo.1 + lo.2 <= zlen (ri_http r))) (ri_index r);
  io_unknown : Forall (fun u => 0 <= u.1.1.1 /\ 0 <= u.1.1.2 /\ u.1.1.1 + u.1.1.2 <= zlen (ri_http r) /\
                 0 <= u.1.2 /\ 0 <= u.2 /\ u.1.2 + u.2 <= zlen (ri_http r)) (ri_unknown r)
}.

(** What the swapping loop of the code can do: it leaves the last index entry and the
    lengths of absent headers alone. *)
Definition swappable (r : request_image) : Prop :=
  Forall (fun lo => lo.2 = 0 -> lo.1 = 0) (ri_index r) /\ ri_index r !! 24%nat = Some (0, 0).

Lemma align8_spec z : 0 <= z -> z <= align8 z < z + 8.
Proof.
  intros Hz. unfold align8.
  assert (Z.land (z + 7) (Z.lnot 7) = z + 7 - (z + 7) mod 8) as ->.
  { change 7 with (Z.ones 3) at 2. rewrite <- Z.ldiff_land, Z.ldiff_ones_r by lia.
    rewrite Z.shiftl_mul_pow2, Z.shiftr_div_pow2 by lia. change (2 ^ 3) with 8.
    pose proof (Z.div_mod (z + 7) 8). lia. }
  pose proof (Z.mod_pos_bound (z + 7) 8). lia.
Qed.

(** *** Where things are in the image *)

Lemma ri_order r :
  44 <= ri_env_at r /\ ri_env_at r <= ri_envs_end r /\ ri_envs_end r <= ri_index_at r < ri_envs_end r + 8 /\
  ri_index_at r <= ri_http_at r <= ri_total r.
Proof.
  unfold ri_total, ri_http_at, ri_unknown_at, ri_index_at.
  pose proof (zlen_nonneg (env_bytes (ri_special r))). pose proof (zlen_nonneg (env_bytes (ri_env r))).
  pose proof (zlen_nonneg (ri_unknown r)). pose proof (zlen_nonneg (ri_http r)).
  assert (0 <= ri_envs_end r) as Hend0 by (unfold ri_envs_end, ri_env_at; lia).
  pose proof (align8_spec _ Hend0). unfold ri_envs_end, ri_env_at in *. lia.
Qed.

Definition head (flag : bool) (r : request_image) : list Z :=
  [76; 83; 1; if flag then 1 else 0] ++ le32 (ri_total r).

Lemma zlen_head flag r : zlen (head flag r) = 8.
Proof. unfold head. rewrite zlen_app, zlen_le32. done. Qed.

Lemma zlen_replicate {A} (x : A) n : 0 <= n -> zlen (replicate (Z.to_nat n) x) = n.
Proof. intros. unfold zlen. rewrite length_replicate. lia. Qed.

Lemma image_at_fields flag g i r slack :
  exists post, image flag g i r slack = head flag r ++ ints g (ri_fields r) ++ post.
Proof. eexists. unfold image, head. by rewrite <- !app_assoc. Qed.

Lemma image_at_special flag g i r slack :
  exists pre post, image flag g i r slack = pre ++ env_bytes (ri_special r) ++ post /\ zlen pre = 44.
Proof.
  eexists (head flag r ++ ints g (ri_fields r)), _. split.
  - unfold image, head. rewrite <- !app_assoc. reflexivity.
  - by rewrite zlen_app, zlen_head, zlen_ints.
Qed.

Lemma image_at_env flag g i r slack :
  exists pre post, image flag g i r slack = pre ++ env_bytes (ri_env r) ++ post /\ zlen pre = ri_env_at r.
Proof.
  eexists (head flag r ++ ints g (ri_fields r) ++ env_bytes (ri_special r)), _. split.
  - unfold image, head. rewrite <- !app_assoc. reflexivity.
  - unfold ri_env_at. rewrite !zlen_app, zlen_head, zlen_ints. change (zlen (ri_fields r)) with 9. lia.
Qed.

(** What stands before the index, in native order. *)
Definition before_index (flag : bool) (r : request_image) : list Z :=
  head flag r ++ ints false (ri_fields r) ++ env_bytes (ri_special r) ++ env_bytes (ri_env r) ++
  replicate (Z.to_nat (ri_index_at r - ri_envs_end r)) 0.

Lemma zlen_before_index flag r : zlen (before_index flag r) = ri_index_at r.
Proof.
  unfold before_index. pose proof (ri_order r). rewrite !zlen_app, zlen_head, zlen_ints, zlen_replicate by lia.
  change (zlen (ri_fields r)) with 9. unfold ri_envs_end, ri_env_at. lia.
Qed.

Lemma image_at_index flag i r slack :
  image flag false i r slack =
  before_index flag r ++ index_image (ri_entries i r) ++ unknown_image i (ri_unknown r) ++ ri_http r ++ slack.
Proof. unfold image, before_index, head. by rewrite <- !app_assoc. Qed.

Lemma zlen_index_image es : zlen es = 25 -> zlen (index_image es) = 152.
Proof.
  intros E. unfold index_image. rewrite !zlen_app, zlen_index_shorts, zlen_index_ints, E. done.
Qed.

Lemma zlen_ri_entries b r : length (ri_index r) = 25%nat -> zlen (ri_entries b r) = 25.
Proof. intros E. unfold ri_entries, zlen. rewrite length_fmap, E. done. Qed.

Lemma image_fixEndian r slack :
  fixEndian (image true true true r slack) = Some (image true false true r slack).
Proof.
  unfold fixEndian.
  destruct (image_at_fields true true true r slack) as [post E]. rewrite E.
  change [off_httpHeaderLen; off_reqBodyLen; off_scriptFileOff; off_scriptNameOff; off_queryStringOff;
          off_requestMethodOff; off_cntUnknownHeaders; off_cntEnv; off_cntSpecialEnv]
    with (int_offs 8 (length (ri_fields r))).
  rewrite swap_ints_run by apply zlen_head. f_equal.
  unfold image, head in *. rewrite <- !app_assoc in *. apply app_inv_head in E. apply app_inv_head in E.
  apply app_inv_head in E. by rewrite <- E.
Qed.

Lemma image_field flag i r slack k z :
  ri_fields r !! k = Some z -> is_s32 z ->
  load_s32 (image flag false i r slack) (8 + 4 * Z.of_nat k) = Some z.
Proof.
  intros Hk Hz. destruct (image_at_fields flag false i r slack) as [post ->].
  apply load_ints; [apply zlen_head|done|done].
Qed.

#[global] Arguments image : simpl never.
#[global] Arguments load_s32 : simpl never.
#[global] Arguments parseEnv : simpl never.
#[global] Arguments env_bytes : simpl never.

Lemma get_field_spec off v (Q : Z -> st -> Prop) s :
  load_s32 (m_pReqBuf (m_in (req s))) off = Some v -> Q v s -> wp (get_field off) Q s.
Proof. intros Hl HQ. unfold get_field. do 2 wstep. by apply (wp_lift _ v). Qed.

(** The list has room for the entries, and only the script of the allocator moves. *)
Lemma allocateEnvList_spec cur n (Q : Z * list (option LSAPI_key_value_pair) -> st -> Prop) s :
  n <= 8192 -> false ∉ k_allocs (os s) ->
  (forall cur' l, n <= zlen cur' -> cur `prefix_of` cur' -> false ∉ l ->
     Q (0, cur') (on_os (set_k_allocs l) s)) ->
  wp (allocateEnvList cur n) Q s.
Proof.
  intros Hn Ha HQ. unfold allocateEnvList.
  destruct (Z.leb_spec n (zlen cur)).
  { wstep. specialize (HQ cur (k_allocs (os s)) ltac:(lia) (reflexivity _) Ha).
    destruct s as [? []]. exact HQ. }
  rewrite (proj2 (Z.ltb_ge _ _)) by lia. wstep. unfold sys_alloc. do 2 wstep.
  assert (n <= zlen (cur ++ replicate (Z.to_nat (n - zlen cur)) (@None LSAPI_key_value_pair))) as Hz.
  { rewrite zlen_app, zlen_replicate by lia. lia. }
  destruct (k_allocs (os s)) as [|b l] eqn:E.
  - wstep. cbv iota. wstep. specialize (HQ _ [] Hz ltac:(by eexists) ltac:(set_solver)).
    destruct s as [? []]. cbn in E. subst. exact HQ.
  - assert (b = true) as -> by (destruct b; [done|set_solver]).
    wsteps. apply HQ; [done|by eexists|set_solver].
Qed.

Lemma parseEnv_at mem pre kvs post envs pEnd p :
  mem = pre ++ env_bytes kvs ++ post -> zlen pre = p ->
  Forall env_ok kvs -> zlen kvs <= zlen envs -> zlen kvs <= 8192 -> p + zlen (env_bytes kvs) - 4 <= pEnd ->
  parseEnv mem envs (zlen kvs) p pEnd =
    Some (0, p + zlen (env_bytes kvs), (Some <$> env_entries p kvs) ++ drop (length kvs) envs) /\
  Forall2 (names_pair mem) (env_entries p kvs) kvs.
Proof.
  intros -> <- Hok Hlen Hmax Hend. split; [apply parseEnv_encode; try done; unfold zlen in *; lia|].
  unfold env_bytes. rewrite <- app_assoc. by apply env_entries_names.
Qed.

(** The counters of the header are small numbers. *)
Lemma image_ok_fields r : image_ok r -> Forall is_s32 (ri_fields r).
Proof.
  intros [Ht Hs He Ho Hb _ _ _]. pose proof (ri_order r) as Hr.
  unfold LSAPI_MAX_HEADER_LEN in Ht. unfold ri_total, ri_http_at, ri_unknown_at in *.
  pose proof (zlen_nonneg (ri_http r)). pose proof (zlen_nonneg (ri_unknown r)).
  pose proof (zlen_nonneg (ri_special r)). pose proof (zlen_nonneg (ri_env r)).
  rewrite !Forall_cons in Ho. destruct Hs as [_ Hs], He as [_ He], Hb as [Hb _], Ho as (Ho1 & Ho2 & Ho3 & Ho4 & _).
  unfold ri_fields, is_s32 in *. repeat (apply Forall_cons_2; [lia|]). constructor.
Qed.

Lemma image_count flag i r slack k z off :
  image_ok r -> ri_fields r !! k = Some z -> off = 8 + 4 * Z.of_nat k ->
  load_s32 (image flag false i r slack) off = Some z.
Proof.
  intros Hok Hk ->. apply image_field; [done|].
  by eapply Forall_lookup_1; [apply image_ok_fields|].
Qed.

(** *** The index in the image *)

Lemma index_image_ext es1 es2 :
  Forall2 (fun e1 e2 : bool * Z * Z => short_bytes e1.1.1 e1.1.2 = short_bytes e2.1.1 e2.1.2 /\
                        int_bytes e1.1.1 e1.2 = int_bytes e2.1.1 e2.2) es1 es2 ->
  index_image es1 = index_image es2.
Proof.
  intros HF. unfold index_image. induction HF as [|e1 e2 es1 es2 [Hs Hi] HF IH]; [done|].
  cbn [fmap list_fmap concat]. rewrite Hs, Hi.
  apply app_inj_1 in IH as [IH1 IH2]; [|apply Nat2Z.inj; change (zlen (concat ((fun e => short_bytes e.1.1 e.1.2) <$> es1)) =
    zlen (concat ((fun e => short_bytes e.1.1 e.1.2) <$> es2)));
    rewrite !zlen_index_shorts; unfold zlen; by rewrite (Forall2_length _ _ _ HF)].
  rewrite IH1. apply app_inv_head in IH2. by rewrite IH2.
Qed.

Lemma index_entry_at pre es1 len off es2 post base :
  zlen pre = base -> zlen (es1 ++ (false, len, off) :: es2) = 25 -> 0 <= len < 2 ^ 16 -> is_s32 off ->
  let mem := pre ++ index_image (es1 ++ (false, len, off) :: es2) ++ post in
  load_s32 mem (headerOff_off base (zlen es1)) = Some off /\ load_u16 mem (headerLen_off base (zlen es1)) = Some len.
Proof.
  intros Hb Hlen Hl Ho mem. rewrite zlen_app, zlen_cons in Hlen. subst mem. rewrite index_image_split. split.
  - rewrite <- app_assoc, (app_assoc pre). apply load_s32_mid; [|done].
    rewrite !zlen_app, !zlen_index_shorts, zlen_index_ints, zlen_short_bytes.
    change (zlen [0; 0]) with 2. unfold headerOff_off. lia.
  - unfold load_u16. rewrite <- !app_assoc, (app_assoc pre), load_mid.
    + cbn. unfold short_bytes. rewrite le_val_le16. unfold u16. by rewrite Z.mod_small.
    + rewrite zlen_app, zlen_index_shorts. unfold headerLen_off. lia.
    + apply zlen_short_bytes.
Qed.

Lemma image_index_entry flag r slack i len off :
  image_ok r -> ri_index r !! i = Some (len, off) ->
  load_s32 (image flag false false r slack) (headerOff_off (ri_index_at r) (Z.of_nat i)) = Some off /\
  load_u16 (image flag false false r slack) (headerLen_off (ri_index_at r) (Z.of_nat i)) = Some len.
Proof.
  intros Hok Hi. rewrite image_at_index.
  pose proof (Forall_lookup_1 _ _ _ _ (io_entries r Hok) Hi) as (Hl & Ho & _).
  pose proof (zlen_ri_entries false r (io_index r Hok)) as Hz.
  unfold ri_entries in *. rewrite <- (take_drop_middle _ _ _ Hi) in *. rewrite fmap_app, fmap_cons in *.
  assert (Z.of_nat i = zlen ((fun lo : Z * Z => (false, lo.1, lo.2)) <$> take i (ri_index r))) as ->.
  { unfold zlen. rewrite length_fmap, length_take. apply lookup_lt_Some in Hi. lia. }
  apply index_entry_at; [apply zlen_before_index|done|done|done].
Qed.

Lemma image_fixIndex r slack :
  image_ok r -> swappable r ->
  fixHeaderIndexEndian (image true false true r slack) (ri_index_at r) (ri_unknown_at r) =
    Some (image true false false r slack).
Proof.
  intros Hok [Hz H24]. unfold fixHeaderIndexEndian. change (Z.to_nat H_TRANSFER_ENCODING) with 24%nat.
  pose proof (io_index r Hok) as H25.
  rewrite image_at_index. unfold ri_entries at 1.
  rewrite (fix_index_run (ri_index r) _ [] _ _ (zlen_before_index true r)) with (tail := drop 24 (ri_index r)).
  2:{ cbn [app]. unfold zlen. rewrite length_fmap, H25. done. }
  2:{ rewrite length_drop, H25. done. }
  2:{ eapply Forall_impl; [apply (io_entries r Hok)|]. cbn. tauto. }
  2:{ done. }
  cbn [app].
  assert (index_image (((fun lo => entry_fixed (true, lo.1, lo.2)) <$> take 24 (ri_index r)) ++
                       ((fun lo => (true, lo.1, lo.2)) <$> drop 24 (ri_index r))) =
          index_image (ri_entries false r)) as ->.
  { apply index_image_ext. unfold ri_entries. rewrite <- (take_drop 24 (ri_index r)) at 3. rewrite fmap_app.
    apply Forall2_app.
    - apply Forall2_fmap, Forall_Forall2_diag, Forall_take. eapply Forall_impl; [exact Hz|].
      intros [l o] Hlo. unfold entry_fixed. cbn [fst snd] in *. destruct (Z.eqb_spec o 0); [|done].
      subst. by rewrite Hlo.
    - rewrite (drop_S _ (0, 0) 24 H24). rewrite drop_ge by (rewrite H25; lia).
      repeat constructor. }
  cbn [mbind option_bind]. rewrite app_assoc.
  assert (zlen (before_index true r ++ index_image (ri_entries false r)) = ri_unknown_at r) as Hzu.
  { rewrite zlen_app, zlen_before_index, zlen_index_image; [done|by apply zlen_ri_entries]. }
  assert (load_s32 ((before_index true r ++ index_image (ri_entries false r)) ++
            unknown_image true (ri_unknown r) ++ ri_http r ++ slack) off_cntUnknownHeaders = Some (zlen (ri_unknown r))) as ->.
  { unfold before_index. rewrite <- !app_assoc. change off_cntUnknownHeaders with (8 + 4 * Z.of_nat 6).
    apply load_ints; [apply zlen_head|done|]. eapply Forall_lookup_1; [by apply image_ok_fields|].
    by instantiate (1 := 6%nat). }
  cbn [mbind option_bind]. rewrite image_at_index.
  destruct (Z.ltb_spec 0 (zlen (ri_unknown r))) as [Hpos|Hpos].
  - replace (Z.to_nat (zlen (ri_unknown r))) with (length (ri_unknown r)) by (unfold zlen; lia).
    rewrite (fix_unknown_run (ri_unknown r)) by lia. by rewrite <- app_assoc.
  - pose proof (zlen_nonneg (ri_unknown r)).
    rewrite (zlen_0_inv (ri_unknown r)) by lia. by rewrite <- app_assoc.
Qed.

Lemma for_all_true n : forall from f,
  (forall j, (j < n)%nat -> f (from + Z.of_nat j) = Some true) -> for_all n from f = Some true.
Proof.
  induction n as [|n IH]; intros from f Hf; [done|]. cbn [for_all].
  assert (f from = Some true) as ->.
  { rewrite <- (Z.add_0_r from). apply (Hf 0%nat). lia. }
  cbn [mbind option_bind]. apply IH. intros j Hj.
  replace (from + 1 + Z.of_nat j) with (from + Z.of_nat (S j)) by lia. apply Hf. lia.
Qed.

Lemma concat_flat_lookup us i u j :
  us !! i = Some u -> (j < 4)%nat -> concat (flat <$> us) !! (4 * i + j)%nat = flat u !! j.
Proof.
  revert i. induction us as [|u0 us IH]; intros i Hi Hj; [done|]. cbn [fmap list_fmap concat].
  destruct i as [|i]; cbn in Hi.
  - injection Hi as ->. rewrite Nat.mul_0_r, Nat.add_0_l. rewrite lookup_app_l; [done|cbn; lia].
  - rewrite lookup_app_r by (cbn; lia). change (length (flat u0)) with 4%nat.
    replace (4 * S i + j - 4)%nat with (4 * i + j)%nat by lia. by apply IH.
Qed.

Lemma image_unknown_field flag r slack i u j v :
  image_ok r -> ri_unknown r !! i = Some u -> flat u !! j = Some v -> is_s32 v ->
  load_s32 (image flag false false r slack) (ri_unknown_at r + 16 * Z.of_nat i + 4 * Z.of_nat j) = Some v.
Proof.
  intros Hok Hi Hj Hv. rewrite image_at_index, app_assoc.
  assert (zlen (before_index flag r ++ index_image (ri_entries false r)) = ri_unknown_at r) as Hz.
  { rewrite zlen_app, zlen_before_index, zlen_index_image; [done|apply zlen_ri_entries, Hok]. }
  pose proof (lookup_lt_Some _ _ _ Hj) as Hj4. change (length (flat u)) with 4%nat in Hj4.
  replace (ri_unknown_at r + 16 * Z.of_nat i + 4 * Z.of_nat j)
    with (ri_unknown_at r + 4 * Z.of_nat (4 * i + j)) by lia.
  apply load_ints; [done| |done]. by rewrite (concat_flat_lookup _ _ u) by done.
Qed.

Lemma image_validate flag r slack :
  image_ok r ->
  validateHeaders (image flag false false r slack) (ri_index_at r) (ri_unknown_at r) = Some 0.
Proof.
  intros Hok. unfold validateHeaders. change (Z.to_nat H_TRANSFER_ENCODING) with 24%nat.
  assert (zlen (ri_http r) <= 65535) as Hmax.
  { pose proof (io_total r Hok) as Ht. unfold LSAPI_MAX_HEADER_LEN in Ht. pose proof (ri_order r). unfold ri_total in *. lia. }
  rewrite (image_count flag false r slack 0 (zlen (ri_http r)) off_httpHeaderLen) by done.
  cbn [mbind option_bind]. rewrite for_all_true.
  2:{ intros j Hj. destruct (lookup_lt_is_Some_2 (ri_index r) j) as [[len off] Hlo]. { rewrite (io_index r Hok). lia. }
      destruct (image_index_entry flag r slack j len off Hok Hlo) as [E1 E2].
      pose proof (Forall_lookup_1 _ _ _ _ (io_entries r Hok) Hlo) as (Hl & Ho & Hr). cbn [fst snd] in *.
      unfold valid_index_entry. rewrite Z.add_0_l, E1. cbn [mbind option_bind].
      destruct (Z.eqb_spec off 0); [done|]. destruct Hr as [?|[Hr1 Hr2]]; [lia|].
      rewrite (proj2 (Z.ltb_ge _ _)) by lia. rewrite E2. cbn [mbind option_bind].
      rewrite s32_id by (unfold is_s32; lia). by rewrite (proj2 (Z.ltb_ge _ _)) by lia. }
  cbn [mbind option_bind negb].
  rewrite (image_count flag false r slack 6 (zlen (ri_unknown r)) off_cntUnknownHeaders) by done.
  cbn [mbind option_bind]. destruct (Z.ltb_spec 0 (zlen (ri_unknown r))); [|done].
  rewrite for_all_true; [done|]. intros j Hj.
  destruct (lookup_lt_is_Some_2 (ri_unknown r) j) as [u Hu]. { unfold zlen in Hj. lia. }
  pose proof (Forall_lookup_1 _ _ _ _ (io_unknown r Hok) Hu) as (?&?&?&?&?&?).
  pose proof (fun k v => image_unknown_field flag r slack j u k v Hok Hu) as Hf.
  unfold valid_unknown, sizeof_header_offset. rewrite Z.add_0_l. cbn zeta.
  pose proof (Hf 0%nat u.1.1.1 eq_refl ltac:(unfold is_s32; lia)) as E0. rewrite Z.add_0_r in E0.
  pose proof (Hf 1%nat u.1.1.2 eq_refl ltac:(unfold is_s32; lia)) as E1. change (4 * Z.of_nat 1) with 4 in E1.
  pose proof (Hf 2%nat u.1.2 eq_refl ltac:(unfold is_s32; lia)) as E2. change (4 * Z.of_nat 2) with 8 in E2.
  pose proof (Hf 3%nat u.2 eq_refl ltac:(unfold is_s32; lia)) as E3. change (4 * Z.of_nat 3) with 12 in E3.
  rewrite E0. cbn [mbind option_bind]. rewrite E1. cbn [mbind option_bind]. rewrite E2. cbn [mbind option_bind].
  rewrite E3. cbn [mbind option_bind].
  rewrite !s32_id by (unfold is_s32; lia). by rewrite !(proj2 (Z.ltb_ge _ _)) by lia.
Qed.

(** ** A request parsed *)

(** An environment list that starts with entries for exactly these pairs. *)
Definition list_names (mem : list Z) (l : list (option LSAPI_key_value_pair)) (kvs : list (list Z * list Z)) : Prop :=
  exists es, (Some <$> es) `prefix_of` l /\ Forall2 (names_pair mem) es kvs.

Record parsed (r : request_image) (i : req_in) : Prop := {
  pa_special : list_names (m_pReqBuf i) (m_pSpecialEnvList i) (ri_special r);
  pa_env : list_names (m_pReqBuf i) (m_pEnvList i) (ri_env r);
  pa_script : m_pScriptFile i = Some (ri_scriptFile r) /\ m_pScriptName i = Some (ri_scriptName r) /\
    m_pQueryString i = Some (ri_queryString r) /\ m_pRequestMethod i = Some (ri_requestMethod r);
  pa_index : m_pHeaderIndex i = Some (ri_index_at r);
  pa_unknown : m_pUnknownHeader i = Some (ri_unknown_at r);
  pa_http : m_pHttpHeader i = Some (ri_http_at r);
  pa_body : m_reqBodyLen i = ri_bodyLen r
}.

(** The bytes in front of the index are the same in every image, so an entry names the
    same pair after the byte order of the index is fixed. *)
Lemma image_load flag i j r slack off n :
  0 <= off -> 0 <= n -> off + n <= ri_index_at r ->
  load (image flag false i r slack) off n = load (image flag false j r slack) off n.
Proof.
  intros. rewrite !image_at_index. pose proof (zlen_before_index flag r) as Hz.
  set (b1 := index_image (ri_entries i r) ++ _). set (b2 := index_image (ri_entries j r) ++ _).
  pose proof (zlen_nonneg b1). pose proof (zlen_nonneg b2).
  rewrite !load_Some by (rewrite ?zlen_app; lia). by rewrite !slice_app_l by lia.
Qed.

Lemma env_entries_in p kvs e :
  0 <= p -> e ∈ env_entries p kvs ->
  p <= pKey e /\ pKey e + keyLen e + 1 <= p + zlen (env_bytes kvs) /\
  p <= pValue e /\ pValue e + valLen e + 1 <= p + zlen (env_bytes kvs).
Proof.
  revert p. induction kvs as [|[k v] kvs IH]; intros p Hp He; [by apply not_elem_of_nil in He|].
  assert (env_bytes ((k, v) :: kvs) = env_pair k v ++ env_bytes kvs) as E.
  { unfold env_bytes. cbn [fmap list_fmap concat fst snd]. by rewrite <- app_assoc. }
  rewrite E, zlen_app, zlen_env_pair. pose proof (zlen_nonneg k). pose proof (zlen_nonneg v).
  pose proof (zlen_nonneg (env_bytes kvs)).
  cbn [env_entries] in He. apply elem_of_cons in He as [->|He].
  - cbn [pKey pValue keyLen valLen]. lia.
  - apply IH in He; rewrite ?zlen_env_pair in *; lia.
Qed.

Lemma image_names flag i j r slack p kvs l rest :
  0 <= p -> p + zlen (env_bytes kvs) <= ri_index_at r ->
  Forall2 (names_pair (image flag false i r slack)) (env_entries p kvs) kvs ->
  l = (Some <$> env_entries p kvs) ++ rest ->
  list_names (image flag false j r slack) l kvs.
Proof.
  intros Hp Hend Hv ->. exists (env_entries p kvs). split; [by eexists|].
  apply Forall2_same_length_lookup_2; [by eapply Forall2_length|]. intros k e [key v] He Hkv.
  pose proof (Forall2_lookup_lr _ _ _ _ _ _ Hv He Hkv) as [Hkl Hvl Hk Hw]. cbn [fst snd] in *.
  apply list_elem_of_lookup_2, env_entries_in in He as (?&?&?&?); [|done].
  pose proof (zlen_nonneg key). pose proof (zlen_nonneg v).
  split; cbn [fst snd]; [done|done|..]; rewrite (image_load flag j i r slack) by lia; done.
Qed.

(** The counters of the body reader are not the parser's business. *)
Definition counters (i : req_in) : Z * Z * Z := (m_reqBodyRead i, m_bufProcessed i, m_bufRead i).

(** The tail of [parseRequest] on an image. *)
Lemma parse_layout_image big r slack (Q : Z -> st -> Prop) s :
  image_ok r -> (big = true -> swappable r) ->
  m_pReqBuf (m_in (req s)) = image big false big r slack ->
  (forall i', m_pReqBuf i' = image big false false r slack ->
     m_pEnvList i' = m_pEnvList (m_in (req s)) -> m_pSpecialEnvList i' = m_pSpecialEnvList (m_in (req s)) ->
     m_pScriptFile i' = Some (ri_scriptFile r) -> m_pScriptName i' = Some (ri_scriptName r) ->
     m_pQueryString i' = Some (ri_queryString r) -> m_pRequestMethod i' = Some (ri_requestMethod r) ->
     m_pHeaderIndex i' = Some (ri_index_at r) -> m_pUnknownHeader i' = Some (ri_unknown_at r) ->
     m_pHttpHeader i' = Some (ri_http_at r) -> m_reqBodyLen i' = ri_bodyLen r ->
     counters i' = counters (m_in (req s)) ->
     Q 0 (on_in (fun _ => i') s)) ->
  wp (parse_layout big (ri_envs_end r) (ri_total r) (ri_total r)) Q s.
Proof.
  intros Hok Hsw Hm HQ. unfold parse_layout.
  pose proof (fun k z off => image_count big big r slack k z off Hok) as Hf.
  pose proof (fun k z off => image_count big false r slack k z off Hok) as Hf2.
  pose proof (io_offs r Hok) as Ho. rewrite !Forall_cons in Ho. destruct Ho as (O1 & O2 & O3 & O4 & _).
  destruct s as [[fdl fd state [buf ? ? ? ? ? ? ? ? ? ? ? ? ?] out app] k]. cbn in Hm. subst.
  wstep. eapply get_field_spec; [by apply (Hf 2%nat)|]. cbv beta.
  wstep. eapply get_field_spec; [by apply (Hf 3%nat)|]. cbv beta.
  wstep. eapply get_field_spec; [by apply (Hf 4%nat)|]. cbv beta.
  wstep. eapply get_field_spec; [by apply (Hf 5%nat)|]. cbv beta.
  unfold offset_ok. rewrite !(proj2 (Z.leb_le _ _)), !(proj2 (Z.ltb_lt _ _)) by lia. cbn [andb negb].
  wsteps. cbv zeta. wsteps.
  eapply get_field_spec; [by apply (Hf 6%nat)|]. cbv beta. wstep.
  eapply get_field_spec; [by apply (Hf 0%nat)|]. cbv beta. wsteps.
  fold (ri_index_at r). change (ri_index_at r + sizeof_header_index) with (ri_unknown_at r).
  change (ri_unknown_at r + sizeof_header_offset * zlen (ri_unknown r)) with (ri_http_at r).
  change (ri_http_at r + zlen (ri_http r)) with (ri_total r).
  rewrite Z.eqb_refl. cbn [negb]. wsteps.
  evaluate.
  eapply wp_lift.
  { instantiate (1 := image big false false r slack). destruct big; [|done]. apply image_fixIndex; auto. }
  wsteps. eapply wp_lift; [by apply image_validate|].
  change (0 =? -1) with false. cbv iota. wstep.
  eapply get_field_spec; [by apply (Hf2 1%nat)|]. cbv beta. wsteps.
  pose proof (io_body r Hok) as [_ Hbody]. rewrite (proj2 (Z.eqb_neq _ _)) by done. wstep.
  match goal with |- Q 0 ?s' => let s2 := eval_state s' in change (Q 0 s2) end.
  match goal with |- Q 0 (mkSt (mkReq _ _ _ ?i' _ _) _) => specialize (HQ i') end.
  apply HQ; reflexivity.
Qed.

Lemma image_flag flag f i r slack : load8 (image flag f i r slack) 3 = Some (if flag then 1 else 0).
Proof. unfold image. apply (load8_mid [76; 83; 1]). done. Qed.

Lemma parseRequest_run big r slack s :
  image_ok r -> (big = true -> swappable r) ->
  m_pReqBuf (m_in (req s)) = image big big big r slack ->
  false ∉ k_allocs (os s) ->
  exists i' l,
    parseRequest (ri_total r) s = Some (0, on_os (set_k_allocs l) (on_in (fun _ => i') s)) /\
    m_pReqBuf i' = image big false false r slack /\ parsed r i' /\
    counters i' = counters (m_in (req s)) /\ false ∉ l.
Proof.
  intros Hok Hsw Hm Ha.
  assert (wp (parseRequest (ri_total r)) (fun ret s' => exists i' l,
            (ret, s') = (0, on_os (set_k_allocs l) (on_in (fun _ => i') s)) /\
            m_pReqBuf i' = image big false false r slack /\ parsed r i' /\ counters i' = counters (m_in (req s)) /\ false ∉ l) s) as Hwp.
  2:{ apply wp_run in Hwp as (a & s' & -> & i' & l & [= -> ->] & ?). eauto. }
  pose proof (io_special r Hok) as [Hsp1 Hsp2]. pose proof (io_env r Hok) as [Hen1 Hen2].
  pose proof (ri_order r) as Hord.
  destruct (image_at_special big false big r slack) as (pre1 & post1 & Es & Zs).
  destruct (image_at_env big false big r slack) as (pre2 & post2 & Ee & Ze).
  destruct s as [[fdl fd state [buf ? ? ? ? ? ? ? ? ? ? ? ? ?] out app] k]. cbn in Hm. subst buf.
  unfold parseRequest. cbv zeta. wsteps. eapply wp_lift; [apply image_flag|].
  replace (negb _) with big by (by destruct big). wstep.
  eapply wp_lift.
  { instantiate (1 := image big false big r slack). destruct big; [|done]. apply image_fixEndian. }
  wsteps. evaluate.
  eapply get_field_spec; [by apply (image_count big big r slack 8)|]. cbv beta. wstep.
  eapply get_field_spec; [by apply (image_count big big r slack 7)|]. cbv beta. wsteps.
  evaluate. apply allocateEnvList_spec; [done|done|]. intros sp l1 Hsp Hpre1 Hl1.
  wsteps. change (0 =? -1) with false. cbv iota. wsteps. evaluate.
  apply allocateEnvList_spec; [done|done|]. intros en l2 Hen Hpre2 Hl2.
  wsteps. change (0 =? -1) with false. cbv iota. wsteps.
  destruct (parseEnv_at _ _ _ _ sp (ri_total r) 44 Es Zs Hsp1 Hsp Hsp2) as [Ep1 Ev1];
    [unfold ri_env_at, ri_envs_end in *; lia|].
  destruct (parseEnv_at _ _ _ _ en (ri_total r) (ri_env_at r) Ee Ze Hen1 Hen Hen2) as [Ep2 Ev2];
    [unfold ri_envs_end in *; lia|].
  eapply wp_lift; [exact Ep1|]. cbv beta iota. wsteps. change (0 =? -1) with false. cbv iota. wsteps.
  eapply wp_lift; [exact Ep2|]. cbv beta iota. wsteps. change (0 =? -1) with false. cbv iota.
  change (ri_env_at r + zlen (env_bytes (ri_env r))) with (ri_envs_end r).
  evaluate. eapply parse_layout_image with (slack := slack); [done|done|done|].
  intros i' B E1 E2 F1 F2 F3 F4 I1 I2 I3 L C. cbn in E1, E2.
  exists i', l2. split; [done|]. split; [done|]. split; [|by split]. split; try done.
  - rewrite B. eapply image_names with (p := 44); [lia| |exact Ev1|exact E2]. unfold ri_env_at in *. lia.
  - rewrite B. eapply image_names with (p := ri_env_at r); [lia| |exact Ev2|exact E1].
    unfold ri_envs_end in *. lia.
Qed.

(** C15. A request packet round trips through [parseRequest], whichever byte order it
    was built in: for every well-formed request the parser answers 0, leaves the same
    native image in the buffer (so a big-endian and a little-endian peer are not
    distinguishable afterwards), fills both environment lists with entries that name
    the request's pairs, and points at the header index, the unknown headers, the
    header text, the script fields and the body length the packet carries; nothing
    else of the request and of the process changes but the allocator's script. *)
Theorem parseRequest_image big r slack s :
  image_ok r -> (big = true -> swappable r) ->
  m_pReqBuf (m_in (req s)) = image big big big r slack ->
  false ∉ k_allocs (os s) ->
  exists i' l,
    parseRequest (ri_total r) s = Some (0, on_os (set_k_allocs l) (on_in (fun _ => i') s)) /\
    m_pReqBuf i' = image big false false r slack /\ parsed r i'.
Proof.
  intros Hok Hsw Hm Ha. destruct (parseRequest_run big r slack s Hok Hsw Hm Ha) as (i' & l & ? & ? & ? & _). eauto.
Qed.

(** A small request: two variables, one known header (Accept-Charset), one unknown. *)
Definition sample_request : request_image :=
  mkImage 7 44 48 52 56 [(str "a", str "1")] [(str "HOST", str "h"); (str "X", [])]
    ((0, 0) :: (3, 2) :: replicate 23 (0, 0)) [(0, 1, 2, 3)] (str "n:abc") .

Lemma sample_request_ok : image_ok sample_request /\ swappable sample_request.
Proof.
  split.
  - split.
    + by vm_compute.
    + split; [repeat (apply Forall_cons_2; [split; reflexivity|]); constructor|by vm_compute].
    + split; [repeat (apply Forall_cons_2; [split; reflexivity|]); constructor|by vm_compute].
    + repeat (apply Forall_cons_2; [split; [discriminate|reflexivity]|]). constructor.
    + split; [split; [discriminate|reflexivity]|discriminate].
    + reflexivity.
    + cbn [ri_index sample_request replicate].
      change (zlen (ri_http sample_request)) with 5.
      repeat (apply Forall_cons_2; [unfold is_s32; cbn [fst snd]; lia|]).
      constructor.
    + apply Forall_cons_2; [change (zlen (ri_http sample_request)) with 5; cbn; lia|constructor].
  - split; [|reflexivity]. cbn [ri_index sample_request replicate].
    apply Forall_cons_2; [done|]. apply Forall_cons_2; [discriminate|].
    repeat (apply Forall_cons_2; [done|]). constructor.
Qed.

Definition sample_state (big : bool) : st :=
  on_in (set_m_pReqBuf (image big big big sample_request (replicate 16 0))) st0.

Lemma parseRequest_image_witness :
  exists i' l,
    parseRequest (ri_total sample_request) (sample_state true) =
      Some (0, on_os (set_k_allocs l) (on_in (fun _ => i') (sample_state true))) /\
    m_pReqBuf i' = image true false false sample_request (replicate 16 0) /\ parsed sample_request i'.
Proof.
  apply (parseRequest_image true sample_request (replicate 16 0) (sample_state true)
           (proj1 sample_request_ok) (fun _ => proj2 sample_request_ok) eq_refl).
  apply not_elem_of_nil.
Defined.

(** *** Reading a header of a parsed request *)

(** [m] with one byte changed. *)
Definition only_at (off b : Z) (m m' : list Z) : Prop :=
  zlen m' = zlen m /\ load8 m' off = Some b /\
  (forall o, o <> off -> load8 m' o = load8 m o).

Lemma store_only_at m off b : 0 <= off < zlen m -> exists m', store m off [b] = Some m' /\ only_at off b m m'.
Proof.
  intros Hoff. rewrite store_Some by (change (zlen [b]) with 1; lia).
  eexists. split; [reflexivity|]. change (zlen [b]) with 1.
  assert (slice 0 off m ++ [b] ++ slice (off + 1) (zlen m - (off + 1)) m = <[Z.to_nat off := b]> m) as ->.
  { rewrite insert_take_drop by (unfold zlen in Hoff; lia). unfold slice. rewrite drop_0. cbn [app].
    do 2 f_equal. replace (Z.to_nat (off + 1)) with (S (Z.to_nat off)) by lia.
    apply take_ge. rewrite length_drop. unfold zlen. lia. }
  unfold only_at, load8, zlen. rewrite length_insert. split; [done|]. split.
  - rewrite (proj2 (in_range_spec _ _ _)) by (unfold zlen in Hoff; lia).
    apply list_lookup_insert_eq. unfold zlen in Hoff. lia.
  - intros o Ho. destruct (in_range o 1 _) eqn:E; [|done]. apply in_range_spec in E.
    rewrite list_lookup_insert_ne by lia. done.
Qed.

Lemma only_at_load off b m m' o n :
  only_at off b m m' -> ~ (o <= off < o + n) -> load m' o n = load m o n.
Proof.
  intros (Hz & _ & Hl) Ho. unfold load. rewrite Hz. destruct (in_range o n (zlen m)) eqn:E; [|done].
  apply in_range_spec in E. f_equal. apply list_eq. intros i.
  destruct (Z.ltb_spec (Z.of_nat i) n).
  - rewrite !lookup_slice by lia. specialize (Hl (o + Z.of_nat i) ltac:(lia)). unfold load8 in Hl.
    rewrite Hz in Hl. rewrite (proj2 (in_range_spec _ _ _)) in Hl by lia.
    by replace (Z.to_nat (o + Z.of_nat i)) with (Z.to_nat o + i)%nat in Hl by lia.
  - unfold slice. by rewrite !lookup_take_ge by lia.
Qed.

Lemma image_http flag r slack :
  image_ok r -> exists pre, image flag false false r slack = pre ++ ri_http r ++ slack /\ zlen pre = ri_http_at r.
Proof.
  intros Hok. exists (before_index flag r ++ index_image (ri_entries false r) ++ unknown_image false (ri_unknown r)).
  split; [rewrite image_at_index, <- !app_assoc; done|].
  rewrite !zlen_app, zlen_before_index, zlen_index_image, zlen_unknown_image by (apply zlen_ri_entries, Hok).
  unfold ri_http_at, ri_unknown_at. lia.
Qed.

Lemma image_http_value flag r slack off len :
  image_ok r -> 0 <= off -> 0 <= len -> off + len <= zlen (ri_http r) ->
  load (image flag false false r slack) (ri_http_at r + off) len = Some (slice off len (ri_http r)).
Proof.
  intros Hok Ho Hl Hend. destruct (image_http flag r slack Hok) as (pre & -> & Hz).
  pose proof (zlen_nonneg slack). pose proof (zlen_nonneg pre).
  rewrite load_Some by (rewrite ?zlen_app; lia). f_equal.
  rewrite slice_app_r by lia. replace (ri_http_at r + off - zlen pre) with off by lia.
  by rewrite slice_app_l by lia.
Qed.

(** What [LSAPI_GetHeader_r] does with an entry of the index. *)
Lemma GetHeader_r_spec h base http off len s mem :
  0 <= h <= H_TRANSFER_ENCODING ->
  m_pHeaderIndex (m_in (req s)) = Some base -> m_pHttpHeader (m_in (req s)) = Some http ->
  m_pReqBuf (m_in (req s)) = mem ->
  load_s32 mem (headerOff_off base h) = Some off -> off <> 0 ->
  load_u16 mem (headerLen_off base h) = Some len ->
  0 <= http + off + len < zlen mem ->
  exists mem', LSAPI_GetHeader_r h s = Some (Some (http + off), on_in (set_m_pReqBuf mem') s) /\
    only_at (http + off + len) 0 mem mem'.
Proof.
  intros Hh Hi Hp Hm Ho Hz Hl Hr.
  assert (wp (LSAPI_GetHeader_r h) (fun ret s' => exists mem', (ret, s') = (Some (http + off), on_in (set_m_pReqBuf mem') s) /\
            only_at (http + off + len) 0 mem mem') s) as Hwp.
  2:{ apply wp_run in Hwp as (a & s' & -> & mem' & [= -> ->] & ?). eauto. }
  unfold LSAPI_GetHeader_r.
  rewrite (proj2 (Z.leb_le 0 h)), (proj2 (Z.leb_le h _)) by lia. cbn [andb negb].
  wsteps. eapply wp_lift; [exact Hi|]. wsteps. rewrite Hm. eapply wp_lift; [exact Ho|].
  rewrite (proj2 (Z.eqb_neq _ _)) by done. wsteps. eapply wp_lift; [exact Hp|]. wsteps.
  eapply wp_lift; [exact Hl|]. wstep.
  destruct (load8_is_Some mem (http + off + len)) as [ch Hch]; [lia|lia|].
  eapply wp_lift; [exact Hch|]. wstep. destruct (Z.eqb_spec ch 0) as [->|Hne].
  - wsteps. exists mem. split.
    + f_equal. rewrite <- Hm. by destruct s as [[? ? ? [] ? ?] ?].
    + split; [done|]. split; [done|]. done.
  - destruct (store_only_at mem (http + off + len) 0 Hr) as (mem' & Hs & Hoa).
    wsteps. eapply wp_lift; [exact Hs|]. wsteps. exists mem'. done.
Qed.

(** A known header of a parsed request is found by its index: [LSAPI_GetHeader_r]
    answers the address of exactly the value the packet carries, with a NUL stored
    behind it and no other byte of the request buffer changed; an absent header and an
    index outside the table answer NULL and change nothing. *)
Theorem GetHeader_r_value flag r slack s (h : nat) off len :
  image_ok r -> parsed r (m_in (req s)) ->
  m_pReqBuf (m_in (req s)) = image flag false false r slack -> 0 < zlen slack ->
  ri_index r !! h = Some (len, off) ->
  (off = 0 -> LSAPI_GetHeader_r (Z.of_nat h) s = Some (None, s)) /\
  (off <> 0 -> exists mem',
     LSAPI_GetHeader_r (Z.of_nat h) s = Some (Some (ri_http_at r + off), on_in (set_m_pReqBuf mem') s) /\
     load mem' (ri_http_at r + off) len = Some (slice off len (ri_http r)) /\
     only_at (ri_http_at r + off + len) 0 (image flag false false r slack) mem').
Proof.
  intros Hok Hp Hm Hs Hh.
  pose proof (image_index_entry flag r slack h len off Hok Hh) as [Ho Hl].
  pose proof (lookup_lt_Some _ _ _ Hh) as Hlt. rewrite (io_index r Hok) in Hlt.
  pose proof (Forall_lookup_1 _ _ _ _ (io_entries r Hok) Hh) as (Hlen & _ & Hr). cbn [fst snd] in *.
  pose proof (ri_order r). pose proof (zlen_nonneg (ri_http r)).
  split.
  - intros ->.
    assert (wp (LSAPI_GetHeader_r (Z.of_nat h)) (fun ret s' => (ret, s') = (None, s)) s) as Hwp.
    2:{ by apply wp_run in Hwp as (a & s' & -> & ->). }
    unfold LSAPI_GetHeader_r.
    rewrite (proj2 (Z.leb_le 0 _)), (proj2 (Z.leb_le (Z.of_nat h) _)) by (unfold H_TRANSFER_ENCODING; lia).
    cbn [andb negb]. wsteps. eapply wp_lift; [by apply (pa_index r)|]. wsteps. rewrite Hm.
    eapply wp_lift; [exact Ho|]. cbv iota. change (0 =? 0) with true. cbv iota. by wstep.
  - intros Hz. destruct Hr as [?|[Hr1 Hr2]]; [done|].
    destruct (image_http flag r slack Hok) as (pre & E & Hpre).
    assert (zlen (image flag false false r slack) = ri_http_at r + zlen (ri_http r) + zlen slack) as Hzi.
    { rewrite E, !zlen_app. lia. }
    destruct (GetHeader_r_spec (Z.of_nat h) (ri_index_at r) (ri_http_at r) off len s _ ltac:(unfold H_TRANSFER_ENCODING; lia)
                (pa_index _ _ Hp) (pa_http _ _ Hp) Hm Ho Hz Hl ltac:(lia)) as (mem' & E' & Hoa).
    exists mem'. split; [done|]. split; [|done].
    rewrite (only_at_load _ _ _ _ _ _ Hoa) by lia. apply image_http_value; [done|lia..].
Qed.

(** The sample request once it is parsed. *)
Definition sample_parsed : st :=
  on_in (fun _ =>
    let r := sample_request in
    mkIn (image false false false r (replicate 16 0))
      (Some <$> env_entries (ri_env_at r) (ri_env r)) (Some <$> env_entries 44 (ri_special r))
      (Some (ri_index_at r)) (Some (ri_unknown_at r)) (Some 44) (Some 48) (Some 52) (Some (ri_http_at r)) (Some 56)
      7 0 0 0) st0.

Lemma sample_parsed_ok : parsed sample_request (m_in (req sample_parsed)).
Proof.
  split; try done.
  - exists (env_entries 44 (ri_special sample_request)). split; [reflexivity|].
    repeat (apply Forall2_cons; split; [by split|]). constructor.
  - exists (env_entries (ri_env_at sample_request) (ri_env sample_request)). split; [reflexivity|].
    repeat (apply Forall2_cons; split; [by split|]). constructor.
Qed.

Lemma GetHeader_r_value_witness :
  exists mem',
    LSAPI_GetHeader_r 1 sample_parsed = Some (Some (ri_http_at sample_request + 2), on_in (set_m_pReqBuf mem') sample_parsed) /\
    load mem' (ri_http_at sample_request + 2) 3 = Some (str "abc") /\
    only_at (ri_http_at sample_request + 5) 0 (image false false false sample_request (replicate 16 0)) mem'.
Proof.
  apply (GetHeader_r_value false sample_request (replicate 16 0) sample_parsed 1 2 3);
    [apply sample_request_ok|apply sample_parsed_ok|reflexivity|reflexivity|reflexivity|discriminate].
Defined.
