(* ===== verification/ReqHeaders.v ===== *)
(** * Reading the request: headers, variables and their iterators

    [LSAPI_GetEnv_r], [GetHeaderVar] and the [LSAPI_Foreach*] iterators of lsapilib.c.
    A pointer handed to a callback is an offset into the request buffer or a string
    of the library; the callback is any computation. *)

From stdpp Require Import sorting.
From S2P Require Export ReqParse.

Open Scope Z_scope.

(** ** The tables of header names *)

Definition CGI_HEADERS : list (list Z) := str <$>
  ["HTTP_ACCEPT"; "HTTP_ACCEPT_CHARSET"; "HTTP_ACCEPT_ENCODING"; "HTTP_ACCEPT_LANGUAGE";
   "HTTP_AUTHORIZATION"; "HTTP_CONNECTION"; "CONTENT_TYPE"; "CONTENT_LENGTH"; "HTTP_COOKIE";
   "HTTP_COOKIE2"; "HTTP_HOST"; "HTTP_PRAGMA"; "HTTP_REFERER"; "HTTP_USER_AGENT";
   "HTTP_CACHE_CONTROL"; "HTTP_IF_MODIFIED_SINCE"; "HTTP_IF_MATCH"; "HTTP_IF_NONE_MATCH";
   "HTTP_IF_RANGE"; "HTTP_IF_UNMODIFIED_SINCE"; "HTTP_KEEP_ALIVE"; "HTTP_RANGE";
   "HTTP_X_FORWARDED_FOR"; "HTTP_VIA"; "HTTP_TRANSFER_ENCODING"]%string.

Definition CGI_HEADER_LEN : list Z :=
  [11; 19; 20; 20; 18; 15; 12; 14; 11; 12; 9; 11; 12; 15; 18; 22; 13; 18; 13; 24; 15; 10; 20; 8; 22].

Definition HTTP_HEADERS : list (list Z) := str <$>
  ["Accept"; "Accept-Charset"; "Accept-Encoding"; "Accept-Language"; "Authorization"; "Connection";
   "Content-Type"; "Content-Length"; "Cookie"; "Cookie2"; "Host"; "Pragma"; "Referer"; "User-Agent";
   "Cache-Control"; "If-Modified-Since"; "If-Match"; "If-None-Match"; "If-Range";
   "If-Unmodified-Since"; "Keep-Alive"; "Range"; "X-Forwarded-For"; "Via"; "Transfer-Encoding"]%string.

Definition HTTP_HEADER_LEN : list Z :=
  [6; 14; 15; 15; 13; 10; 12; 14; 6; 7; 4; 6; 7; 10; 13; 17; 8; 13; 8; 19; 10; 5; 15; 3; 17].

(** ** C strings in the request buffer *)

(** [toupper] in the C locale. *)
Definition toupper (c : Z) : Z := if (97 <=? c) && (c <=? 122) then c - 32 else c.

(** [strcmp(name, mem + off) == 0]; reading stops at the first difference. *)
Fixpoint strcmp_eq (mem : list Z) (off : Z) (name : list Z) : option bool :=
  b ← load8 mem off;
  match name with
  | [] => Some (b =? 0)
  | c :: name => if b =? c then strcmp_eq mem (off + 1) name else Some false
  end.

(** [*p = 0]. *)
Definition put_nul (off : Z) : M unit :=
  mem ← get_in m_pReqBuf; mem ← lift (store mem off [0]); mod_in (set_m_pReqBuf mem).

(** [if (p[0] != 0) p[0] = 0]. *)
Definition end_string (off : Z) : M unit :=
  mem ← get_in m_pReqBuf;
  ch ← lift (load8 mem off);
  if ch =? 0 then mret tt else put_nul off.

(** A known header of the index: its length and the offset of its value, when present. *)
Definition known_header (i : Z) : M (option (Z * Z)) :=
  base ← get_in m_pHeaderIndex;
  base ← lift base;
  mem ← get_in m_pReqBuf;
  off ← lift (load_s32 mem (headerOff_off base i));
  if off =? 0 then mret None
  else len ← lift (load_u16 mem (headerLen_off base i)); mret (Some (off, len)).

(** [pCur->nameOff], [nameLen], [valueOff], [valueLen] of unknown header [i]. *)
Definition unknown_header_at (i : Z) : M (Z * Z * Z * Z) :=
  base ← get_in m_pUnknownHeader;
  base ← lift base;
  mem ← get_in m_pReqBuf;
  let p := base + sizeof_header_offset * i in
  nameOff ← lift (load_s32 mem p);
  nameLen ← lift (load_s32 mem (p + 4));
  valueOff ← lift (load_s32 mem (p + 8));
  valueLen ← lift (load_s32 mem (p + 12));
  mret (nameOff, nameLen, valueOff, valueLen).

Definition http_text : M Z := p ← get_in m_pHttpHeader; lift p.

(** ** [GetHeaderVar] *)

(** The loop over the known headers, from index [i]. *)
Fixpoint known_var (n : nat) (i : Z) (name : list Z) : M (option Z) :=
  match n with
  | O => mret None
  | S n =>
      h ← known_header i;
      match h with
      | Some (off, len) =>
          if bool_decide (CGI_HEADERS !! Z.to_nat i = Some name) then
            http ← http_text;
            end_string (http + off + len) ;;
            mret (Some (http + off))
          else known_var n (i + 1) name
      | None => known_var n (i + 1) name
      end
  end.

(** The comparison of a header name in the buffer with the rest [p] of the name. *)
Fixpoint match_name (mem : list Z) (pKey pKeyEnd : Z) (p : list Z) : option bool :=
  match p with
  | [] => Some (pKey =? pKeyEnd)
  | c :: p =>
      if pKey <? pKeyEnd then
        b ← load8 mem pKey;
        let ch := toupper b in
        if negb (ch =? c) || ((c =? 95) && negb (ch =? 45)) then Some false
        else match_name mem (pKey + 1) pKeyEnd p
      else Some false
  end.

Fixpoint unknown_var (n : nat) (i : Z) (name : list Z) : M (option Z) :=
  match n with
  | O => mret None
  | S n =>
      '(nameOff, nameLen, valueOff, valueLen) ← unknown_header_at i;
      http ← http_text;
      mem ← get_in m_pReqBuf;
      m ← lift (match_name mem (http + nameOff) (http + nameOff + nameLen) (drop 5 name));
      if m : bool then
        end_string (http + valueOff + valueLen) ;;
        mret (Some (http + valueOff))
      else unknown_var n (i + 1) name
  end.

Definition GetHeaderVar (name : list Z) : M (option Z) :=
  v ← known_var (Z.to_nat H_TRANSFER_ENCODING) 0 name;
  match v with
  | Some p => mret (Some p)
  | None =>
      cnt ← get_field off_cntUnknownHeaders;
      unknown_var (Z.to_nat cnt) 0 name
  end.

(** ** [LSAPI_GetEnv_r] *)

Fixpoint env_scan (mem : list Z) (envs : list (option LSAPI_key_value_pair)) (n : nat) (name : list Z) {struct n}
    : option (option Z) :=
  match n with
  | O => Some None
  | S n =>
      match envs with
      | Some kv :: envs =>
          eq ← strcmp_eq mem (pKey kv) name;
          if (eq : bool) then Some (Some (pValue kv)) else env_scan mem envs n name
      | _ => None
      end
  end.

Definition LSAPI_GetEnv_r (name : list Z) : M (option Z) :=
  cnt ← get_field off_cntEnv;
  if bool_decide (take 5 name = str "HTTP_") then GetHeaderVar name
  else
    mem ← get_in m_pReqBuf;
    envs ← get_in m_pEnvList;
    lift (env_scan mem envs (Z.to_nat cnt) name).

(** ** The iterators *)

Inductive cptr := InReq (off : Z) | Lit (s : list Z).

(** The arguments of a callback: name, its length, value, its length. *)
Record header_call := mkCall { c_name : cptr; c_nameLen : Z; c_value : Z; c_valueLen : Z }.

Section Foreach.
Variable fn : header_call -> M Z.

(** Calls until one answers [<= 0]: that answer, or [count] when all went through. *)
Fixpoint visit (calls : list header_call) (count : Z) : M Z :=
  match calls with
  | [] => mret count
  | c :: calls => ret ← fn c; if ret <=? 0 then mret ret else visit calls count
  end.

(** *** [LSAPI_ForeachOrgHeader_r] *)

Fixpoint org_known (n : nat) (i : Z) (acc : list header_call) : M (list header_call) :=
  match n with
  | O => mret acc
  | S n =>
      h ← known_header i;
      match h with
      | Some (off, len) =>
          http ← http_text;
          put_nul (http + off + len) ;;
          org_known n (i + 1)
            (acc ++ [mkCall (Lit (nth (Z.to_nat i) HTTP_HEADERS [])) (nth (Z.to_nat i) HTTP_HEADER_LEN 0)
                       (http + off) len])
      | None => org_known n (i + 1) acc
      end
  end.

Fixpoint org_unknown (n : nat) (i : Z) (acc : list header_call) : M (list header_call) :=
  match n with
  | O => mret acc
  | S n =>
      '(nameOff, nameLen, valueOff, valueLen) ← unknown_header_at i;
      http ← http_text;
      put_nul (http + nameOff + nameLen) ;;
      put_nul (http + valueOff + valueLen) ;;
      let acc := acc ++ [mkCall (InReq (http + nameOff)) nameLen (http + valueOff) valueLen] in
      if zlen acc =? 512 then mret acc else org_unknown n (i + 1) acc
  end.

(** [compareValueLocation]: the order of the values in the buffer. *)
Definition compareValueLocation (c1 c2 : header_call) : Z := s32 (c_value c1 - c_value c2).

Definition value_le (c1 c2 : header_call) : Prop := c_value c1 <= c_value c2.
#[local] Instance value_le_dec c1 c2 : Decision (value_le c1 c2) := decide (c_value c1 <= c_value c2).

(** [qsort]: the C library's merge sort, on values that lie in one buffer. *)
Definition qsort_headers (l : list header_call) : list header_call := merge_sort value_le l.

Definition LSAPI_ForeachOrgHeader_r : M Z :=
  index ← get_in m_pHeaderIndex;
  match index with
  | None => mret 0
  | Some _ =>
      headers ← org_known (Z.to_nat H_TRANSFER_ENCODING) 0 [];
      cnt ← get_field off_cntUnknownHeaders;
      headers ← org_unknown (Z.to_nat cnt) 0 headers;
      visit (qsort_headers headers) (zlen headers)
  end.

(** *** The environment *)

Fixpoint env_loop (i : nat) (special : bool) (togo : nat) (n : Z) : M Z :=
  match togo with
  | O => mret n
  | S togo =>
      envs ← get_in (fun r => if special then m_pSpecialEnvList r else m_pEnvList r);
      kv ← lift (mjoin (envs !! i));
      ret ← fn (mkCall (InReq (pKey kv)) (keyLen kv) (pValue kv) (valLen kv));
      if ret <=? 0 then mret ret else env_loop (S i) special togo n
  end.

Definition EnvForeach (special : bool) (n : Z) : M Z := env_loop 0 special (Z.to_nat n) n.

Definition LSAPI_ForeachEnv_r : M Z :=
  cnt ← get_field off_cntEnv;
  if 0 <? cnt then EnvForeach false cnt else mret 0.

Definition LSAPI_ForeachSpecialEnv_r : M Z :=
  cnt ← get_field off_cntSpecialEnv;
  if 0 <? cnt then EnvForeach true cnt else mret 0.
End Foreach.

(** ** [LSAPI_ForeachHeader_r]

    Its callback has an argument of its own, which the model passes from call to call. *)
Section ForeachHeader.
Context {A : Type} (fn : header_call -> A -> M (Z * A)).

(** The count of the headers seen, or the answer that stopped the loop. *)
Fixpoint each_known (n : nat) (i count : Z) (arg : A) : M ((Z + Z) * A) :=
  match n with
  | O => mret (inr count, arg)
  | S n =>
      h ← known_header i;
      match h with
      | Some (off, len) =>
          http ← http_text;
          put_nul (http + off + len) ;;
          '(ret, arg) ← fn (mkCall (Lit (nth (Z.to_nat i) CGI_HEADERS [])) (nth (Z.to_nat i) CGI_HEADER_LEN 0)
                             (http + off) len) arg;
          if ret <=? 0 then mret (inl ret, arg) else each_known n (i + 1) (count + 1) arg
      | None => each_known n (i + 1) count arg
      end
  end.

Definition cgi_char (ch : Z) : Z := if ch =? 45 then 95 else toupper ch.

(** The name handed to the callback: at most 250 bytes of the header's name. *)
Definition cgi_name (mem : list Z) (pKey keyLen : Z) : option (list Z) :=
  name ← load mem pKey (Z.max 0 keyLen);
  Some (str "HTTP_" ++ (cgi_char <$> name)).

Fixpoint each_unknown (n : nat) (i total : Z) (arg : A) : M (Z * A) :=
  match n with
  | O => mret (total, arg)
  | S n =>
      '(nameOff, nameLen, valueOff, valueLen) ← unknown_header_at i;
      http ← http_text;
      let keyLen := if 250 <? nameLen then 250 else nameLen in
      mem ← get_in m_pReqBuf;
      name ← lift (cgi_name mem (http + nameOff) keyLen);
      put_nul (http + valueOff + valueLen) ;;
      '(ret, arg) ← fn (mkCall (Lit name) (keyLen + 5) (http + valueOff) valueLen) arg;
      if ret <=? 0 then mret (ret, arg) else each_unknown n (i + 1) total arg
  end.

Definition LSAPI_ForeachHeader_r (arg : A) : M (Z * A) :=
  '(r, arg) ← each_known (Z.to_nat H_TRANSFER_ENCODING) 0 0 arg;
  match r with
  | inl ret => mret (ret, arg)
  | inr count =>
      cnt ← get_field off_cntUnknownHeaders;
      each_unknown (Z.to_nat cnt) 0 (count + cnt) arg
  end.
End ForeachHeader.

