(* ===== verification/ReqHeadersSpec.v ===== *)
(** * What the readers of a request promise

    Variables and headers are found by name and by index with the value the packet
    carries; the iterators visit every variable and header once, in the order they
    promise. *)

From stdpp Require Import sorting sets.
From S2P Require Export ReqParseSpec ReqHeaders.

Open Scope Z_scope.

#[global] Arguments load8 : simpl never.

(** ** Variables *)

Lemma strcmp_eq_spec name : forall mem off s,
  0 <= off -> load mem off (zlen s + 1) = Some (s ++ [0]) -> 0 ∉ s -> 0 ∉ name ->
  strcmp_eq mem off name = Some (bool_decide (name = s)).
Proof.
  induction name as [|c name IH]; intros mem off s Hoff Hl Hs Hn.
  - pose proof (load_inv _ _ _ _ Hl) as (_&_&Hend&Hsl). pose proof (zlen_nonneg s).
    assert (mem !! Z.to_nat off = (s ++ [0]) !! 0%nat) as H0.
    { rewrite Hsl, lookup_slice by lia. f_equal. lia. }
    cbn [strcmp_eq]. destruct s as [|b s].
    + rewrite (proj2 (load8_Some mem off 0)); [done|]. split; [done|]. split; [change (zlen [0]) with 1 in *; lia|done].
    + rewrite (proj2 (load8_Some mem off b)).
      2:{ split; [done|]. split; [|done]. rewrite zlen_cons in Hend. pose proof (zlen_nonneg s). lia. }
      cbn [mbind option_bind]. rewrite (proj2 (Z.eqb_neq b 0)); [done|]. set_solver.
  - apply not_elem_of_cons in Hn as [Hc Hn].
    pose proof (load_inv _ _ _ _ Hl) as (_&_&Hend&Hsl). pose proof (zlen_nonneg s).
    assert (mem !! Z.to_nat off = (s ++ [0]) !! 0%nat) as H0.
    { rewrite Hsl, lookup_slice by lia. f_equal. lia. }
    cbn [strcmp_eq]. destruct s as [|b s].
    + rewrite (proj2 (load8_Some mem off 0)).
      2:{ split; [done|]. split; [change (zlen (@nil Z)) with 0 in Hend; lia|done]. }
      cbn [mbind option_bind]. rewrite (proj2 (Z.eqb_neq 0 c)) by done. done.
    + apply not_elem_of_cons in Hs as [Hb Hs]. rewrite zlen_cons in *. pose proof (zlen_nonneg s).
      rewrite (proj2 (load8_Some mem off b)).
      2:{ split; [done|]. split; [lia|done]. }
      cbn [mbind option_bind]. destruct (Z.eqb_spec b c) as [->|Hne].
      * rewrite (IH mem (off + 1) s) by (done || lia ||
          (rewrite load_Some by lia; f_equal;
           replace (1 + zlen s + 1) with (1 + (zlen s + 1)) in Hsl by lia;
           rewrite (slice_split off 1 (zlen s + 1)) in Hsl by lia;
           destruct (slice off 1 mem) as [|x [|y l]] eqn:E;
           apply (f_equal zlen) in E as Ez; rewrite zlen_slice in Ez by lia;
           [done|by injection Hsl|rewrite !zlen_cons in Ez; pose proof (zlen_nonneg l); lia])).
        f_equal. apply bool_decide_ext. split; [by intros ->|by intros [=]].
      * f_equal. symmetry. apply bool_decide_eq_false_2. by intros [= -> ->].
Qed.

(** The first pair with a given key. *)
Fixpoint find_env (kvs : list (list Z * list Z)) (name : list Z) : option (list Z) :=
  match kvs with
  | [] => None
  | (k, v) :: kvs => if bool_decide (name = k) then Some v else find_env kvs name
  end.

Lemma env_scan_spec mem name kvs : forall es l,
  Forall2 (names_pair mem) es kvs -> (Some <$> es) `prefix_of` l ->
  Forall (fun kv => 0 ∉ kv.1) kvs -> 0 ∉ name ->
  match find_env kvs name with
  | None => env_scan mem l (length kvs) name = Some None
  | Some v => exists p, env_scan mem l (length kvs) name = Some (Some p) /\
      load mem p (zlen v + 1) = Some (v ++ [0])
  end.
Proof.
  induction kvs as [|[k v] kvs IH]; intros es l Hes Hpre Hk Hname; [done|].
  apply Forall2_cons_inv_r in Hes as (e & es' & [Hkl Hvl Hkey Hval] & Hes & ->).
  apply Forall_cons in Hk as [Hk1 Hk]. destruct Hpre as [rest ->]. cbn [fmap list_fmap app length env_scan fst snd] in *.
  pose proof (load_inv _ _ _ _ Hkey) as (Hpos&_&_&_).
  rewrite (strcmp_eq_spec name mem (pKey e) k) by done. cbn [mbind option_bind find_env].
  destruct (bool_decide (name = k)); [by eauto|].
  apply (IH es' ((Some <$> es') ++ rest) Hes ltac:(by eexists) Hk Hname).
Qed.

(** Looking a variable up by name gives the value of the first pair of the request
    with that key (as a C string in the request buffer), NULL when no pair has it, and
    changes nothing; for every name that does not ask for a header. *)
Theorem GetEnv_r_finds flag r slack s name :
  image_ok r -> parsed r (m_in (req s)) ->
  m_pReqBuf (m_in (req s)) = image flag false false r slack ->
  Forall (fun kv => 0 ∉ kv.1) (ri_env r) -> 0 ∉ name -> take 5 name <> str "HTTP_" ->
  match find_env (ri_env r) name with
  | None => LSAPI_GetEnv_r name s = Some (None, s)
  | Some v => exists p, LSAPI_GetEnv_r name s = Some (Some p, s) /\
      load (m_pReqBuf (m_in (req s))) p (zlen v + 1) = Some (v ++ [0])
  end.
Proof.
  intros Hok Hp Hm Hk Hn Hh.
  destruct (pa_env _ _ Hp) as (es & Hpre & Hes).
  pose proof (env_scan_spec _ name (ri_env r) es _ Hes Hpre Hk Hn) as Hscan.
  assert (forall v, env_scan (m_pReqBuf (m_in (req s))) (m_pEnvList (m_in (req s))) (length (ri_env r)) name = Some v ->
            LSAPI_GetEnv_r name s = Some (v, s)) as Hrun.
  { intros v Hv.
    assert (wp (LSAPI_GetEnv_r name) (fun ret s' => (ret, s') = (v, s)) s) as Hwp.
    2:{ by apply wp_run in Hwp as (a & s' & -> & ->). }
    unfold LSAPI_GetEnv_r. wstep. eapply get_field_spec; [rewrite Hm; by apply (image_count flag false r slack 7)|].
    cbv beta. rewrite bool_decide_false by done. wsteps.
    replace (Z.to_nat (zlen (ri_env r))) with (length (ri_env r)) by (unfold zlen; lia).
    by apply (wp_lift _ v). }
  destruct (find_env (ri_env r) name) as [v|]; [|by apply Hrun].
  destruct Hscan as (p & Hv & Hl). eauto.
Qed.

Lemma no_nul_dec (l : list Z) : forallb (fun b => negb (b =? 0)) l = true -> 0 ∉ l.
Proof.
  rewrite forallb_forall. intros H Hin. apply list_elem_of_In, H in Hin. done.
Qed.

Lemma GetEnv_r_finds_witness :
  exists p, LSAPI_GetEnv_r (str "HOST") sample_parsed = Some (Some p, sample_parsed) /\
      load (m_pReqBuf (m_in (req sample_parsed))) p 2 = Some (str "h" ++ [0]).
Proof.
  apply (GetEnv_r_finds false sample_request (replicate 16 0) sample_parsed (str "HOST"));
    [apply sample_request_ok|apply sample_parsed_ok|reflexivity| | |discriminate].
  - cbn [ri_env sample_request].
    repeat (apply Forall_cons_2; [by apply no_nul_dec|]). constructor.
  - by apply no_nul_dec.
Defined.

(** ** Headers by name *)

Lemma match_name_no_underscore p : forall mem pKey pKeyEnd,
  match_name mem pKey pKeyEnd p = Some true -> 95 ∉ p.
Proof.
  induction p as [|c p IH]; intros mem pKey pKeyEnd Hm; [apply not_elem_of_nil|].
  cbn [match_name] in Hm. destruct (pKey <? pKeyEnd); [|done].
  apply bind_Some in Hm as (b & _ & Hm). cbv zeta in Hm.
  destruct (negb (toupper b =? c) || ((c =? 95) && negb (toupper b =? 45))) eqn:E; [done|].
  apply IH in Hm. bsplit. apply not_elem_of_cons. split; [|done]. intros <-.
  subst. rewrite H in H0. done.
Qed.

Lemma unknown_var_no_underscore n : forall i name s p s',
  95 ∈ drop 5 name -> unknown_var n i name s <> Some (Some p, s').
Proof.
  induction n as [|n IH]; intros i name s p s' Hu; [done|]. cbn [unknown_var].
  unfold mbind at 1, M_bind. destruct (unknown_header_at i s) as [[[[[nO nL] vO] vL] s1]|]; [|done].
  unfold mbind at 1, M_bind. destruct (http_text s1) as [[http s2]|]; [|done].
  unfold mbind at 1, M_bind, get_in, gets at 1. unfold mbind at 1, M_bind, lift at 1.
  destruct (match_name _ _ _ _) as [[]|] eqn:E; cbn [fmap option_fmap option_map]; [| |done].
  - by apply match_name_no_underscore in E.
  - by apply IH.
Qed.

(** What [known_var] answers is the value of a known header with that CGI name. *)
Lemma known_var_name n : forall i name s p s',
  known_var n i name s = Some (Some p, s') -> exists j, i <= j < i + Z.of_nat n /\ CGI_HEADERS !! Z.to_nat j = Some name.
Proof.
  induction n as [|n IH]; intros i name s p s' H; [done|]. cbn [known_var] in H.
  unfold mbind at 1, M_bind in H. destruct (known_header i s) as [[[[off len]|] s1]|]; [| |done].
  - case_bool_decide as E.
    + exists i. split; [lia|done].
    + apply IH in H as (j & ? & ?). exists j. split; [lia|done].
  - apply IH in H as (j & ? & ?). exists j. split; [lia|done].
Qed.

(** A name of the table the library looks known headers up in. *)
Definition table_name (name : list Z) : Prop :=
  exists j, 0 <= j < H_TRANSFER_ENCODING /\ CGI_HEADERS !! Z.to_nat j = Some name.

(** Only the headers of the library's table can be found under a name with an
    underscore behind the [HTTP_] prefix: the comparison with the other headers of the
    request asks that an underscore of the name equal a character that is a dash, which
    none is, so a request header such as [X-Api-Key] is never found as
    [HTTP_X_API_KEY]. *)
Theorem GetEnv_r_no_custom_header name s p s' :
  take 5 name = str "HTTP_" -> 95 ∈ drop 5 name ->
  LSAPI_GetEnv_r name s = Some (Some p, s') -> table_name name.
Proof.
  intros Hh Hu H. unfold LSAPI_GetEnv_r in H. unfold mbind at 1, M_bind in H.
  destruct (get_field off_cntEnv s) as [[cnt s1]|]; [|done].
  rewrite bool_decide_true in H by done. unfold GetHeaderVar in H. unfold mbind at 1, M_bind in H.
  destruct (known_var _ 0 name s1) as [[[q|] s2]|] eqn:E; [| |done].
  - apply known_var_name in E as (j & Hj & Hn). exists j. split; [unfold H_TRANSFER_ENCODING in *; lia|done].
  - unfold mbind at 1, M_bind in H. destruct (get_field off_cntUnknownHeaders s2) as [[c s3]|]; [|done].
    by apply unknown_var_no_underscore in H.
Qed.

Lemma GetEnv_r_no_custom_header_witness : table_name (str "HTTP_ACCEPT_CHARSET").
Proof.
  destruct (LSAPI_GetEnv_r (str "HTTP_ACCEPT_CHARSET") sample_parsed) as [[[p|] s']|] eqn:E.
  - apply (GetEnv_r_no_custom_header (str "HTTP_ACCEPT_CHARSET") _ p s' eq_refl ltac:(by apply (list_elem_of_lookup_2 _ 6%nat)) E).
  - exfalso. vm_compute in E. discriminate E.
  - exfalso. vm_compute in E. discriminate E.
Defined.

(** ** The iterators *)

Lemma get_field_run off v s : load_s32 (m_pReqBuf (m_in (req s))) off = Some v -> get_field off s = Some (v, s).
Proof. unfold get_field, mbind, M_bind, get_in, gets, lift. by intros ->. Qed.

(** A callback that leaves the request's input alone. *)
Definition reads_only (fn : header_call -> M Z) : Prop :=
  forall c s r s', fn c s = Some (r, s') -> m_in (req s') = m_in (req s).

Definition env_call (kv : LSAPI_key_value_pair) : header_call :=
  mkCall (InReq (pKey kv)) (keyLen kv) (pValue kv) (valLen kv).

Lemma env_loop_visit fn (special : bool) n (es : list LSAPI_key_value_pair) : forall pre rest s,
  reads_only fn ->
  (if special then m_pSpecialEnvList (m_in (req s)) else m_pEnvList (m_in (req s))) = pre ++ (Some <$> es) ++ rest ->
  env_loop fn (length pre) special (length es) n s = visit fn (env_call <$> es) n s.
Proof.
  induction es as [|e es IH]; intros pre rest s Hfn Hl; [done|].
  cbn [length env_loop fmap list_fmap visit]. unfold mbind at 1, M_bind, get_in, gets. rewrite Hl.
  unfold mbind at 1, M_bind, lift. rewrite lookup_app_r, Nat.sub_diag by done.
  cbn [fmap list_fmap app lookup list_lookup mjoin option_join option_fmap option_map].
  change (mkCall (InReq (pKey e)) (keyLen e) (pValue e) (valLen e)) with (env_call e).
  unfold mbind, M_bind. destruct (fn (env_call e) s) as [[r s']|] eqn:E; [|done].
  destruct (r <=? 0); [done|]. apply Hfn in E.
  replace (S (length pre)) with (length (pre ++ [Some e])) by (rewrite length_app; cbn; lia).
  apply (IH _ rest); [done|]. rewrite E, Hl, <- app_assoc. done.
Qed.

(** Iterating over the variables of a parsed request calls the callback once per
    pair, in the order of the request, with pointers to the key and the value and their
    lengths, until a callback answers [<= 0]; the answer is that one, or the number of
    pairs.  The same holds for the special variables. *)
Theorem ForeachEnv_visits flag r slack s fn (special : bool) :
  image_ok r -> parsed r (m_in (req s)) -> reads_only fn ->
  m_pReqBuf (m_in (req s)) = image flag false false r slack ->
  let kvs := if special then ri_special r else ri_env r in
  exists es, Forall2 (names_pair (m_pReqBuf (m_in (req s)))) es kvs /\
    (if special then LSAPI_ForeachSpecialEnv_r fn s else LSAPI_ForeachEnv_r fn s) =
    visit fn (env_call <$> es) (zlen kvs) s.
Proof.
  intros Hok Hp Hfn Hm kvs.
  assert (list_names (m_pReqBuf (m_in (req s)))
            (if special then m_pSpecialEnvList (m_in (req s)) else m_pEnvList (m_in (req s))) kvs) as (es & [rest Hpre] & Hes).
  { destruct special; [apply (pa_special _ _ Hp)|apply (pa_env _ _ Hp)]. }
  exists es. split; [done|].
  pose proof (Forall2_length _ _ _ Hes) as Hlen.
  assert ((if special then LSAPI_ForeachSpecialEnv_r fn s else LSAPI_ForeachEnv_r fn s) =
          (if 0 <? zlen kvs then EnvForeach fn special (zlen kvs) s else Some (0, s))) as ->.
  { subst kvs. destruct special; unfold LSAPI_ForeachSpecialEnv_r, LSAPI_ForeachEnv_r, mbind, M_bind.
    - rewrite (get_field_run _ (zlen (ri_special r))); [by destruct (0 <? _)|].
      rewrite Hm. by apply (image_count flag false r slack 8).
    - rewrite (get_field_run _ (zlen (ri_env r))); [by destruct (0 <? _)|].
      rewrite Hm. by apply (image_count flag false r slack 7). }
  destruct (Z.ltb_spec 0 (zlen kvs)).
  - unfold EnvForeach. replace (Z.to_nat (zlen kvs)) with (length es) by (unfold zlen; lia).
    apply (env_loop_visit fn special (zlen kvs) es [] rest s); done.
  - pose proof (zlen_nonneg kvs). assert (es = []) as -> by (destruct es; [done|unfold zlen in *; cbn in *; lia]).
    cbn [fmap list_fmap visit]. unfold mret, M_ret. do 2 f_equal. lia.
Qed.

Lemma ForeachEnv_visits_witness :
  exists es, Forall2 (names_pair (m_pReqBuf (m_in (req sample_parsed)))) es (ri_env sample_request) /\
    LSAPI_ForeachEnv_r (fun _ => mret 1) sample_parsed = visit (fun _ => mret 1) (env_call <$> es) 2 sample_parsed.
Proof.
  apply (ForeachEnv_visits false sample_request (replicate 16 0) sample_parsed (fun _ => mret 1) false);
    [apply sample_request_ok|apply sample_parsed_ok|by intros ??? ? [= <- <-]|reflexivity].
Defined.

(** *** The original headers *)

Section Org.
Context (flag : bool) (r : request_image) (slack : list Z) (s0 : st).
Context (Hok : image_ok r) (Hp : parsed r (m_in (req s0))) (Hslack : 0 < zlen slack).
Context (Hm : m_pReqBuf (m_in (req s0)) = image flag false false r slack).

(** The buffer with some bytes of the header text set to NUL. *)
Record blanked (mem : list Z) : Prop := {
  bl_len : zlen mem = zlen (image flag false false r slack);
  bl_byte : forall o, load8 mem o = load8 (image flag false false r slack) o \/
              (ri_http_at r <= o /\ load8 mem o = Some 0)
}.

Definition blank_state (s : st) : Prop := exists mem, s = on_in (set_m_pReqBuf mem) s0 /\ blanked mem.

(** The strings of a call end with a NUL. *)
Definition ended (mem : list Z) (c : header_call) : Prop :=
  load8 mem (c_value c + c_valueLen c) = Some 0 /\
  match c_name c with InReq p => load8 mem (p + c_nameLen c) = Some 0 | Lit n => zlen n = c_nameLen c end.

Lemma blanked_load mem o n :
  blanked mem -> o + n <= ri_http_at r -> load mem o n = load (image flag false false r slack) o n.
Proof.
  intros [Hz Hb] Ho. unfold load. rewrite Hz. destruct (in_range o n _) eqn:E; [|done].
  apply in_range_spec in E. f_equal. apply list_eq. intros i.
  destruct (Z.ltb_spec (Z.of_nat i) n).
  - rewrite !lookup_slice by lia. destruct (Hb (o + Z.of_nat i)) as [Hl|[? _]]; [|lia].
    unfold load8 in Hl. rewrite Hz, (proj2 (in_range_spec _ _ _)) in Hl by lia.
    by replace (Z.to_nat (o + Z.of_nat i)) with (Z.to_nat o + i)%nat in Hl by lia.
  - unfold slice. by rewrite !lookup_take_ge by lia.
Qed.

Lemma blanked_image : blanked (image flag false false r slack).
Proof. split; auto. Qed.

Lemma image_size : zlen (image flag false false r slack) = ri_total r + zlen slack.
Proof.
  destruct (image_http flag r slack Hok) as (pre & E & Hpre). rewrite E, !zlen_app. unfold ri_total. lia.
Qed.

(** Only the byte at [off] changes. *)
Lemma put_nul_only off (Q : unit -> st -> Prop) mem :
  blanked mem -> ri_http_at r <= off <= ri_total r ->
  (forall mem', blanked mem' -> load8 mem' off = Some 0 -> (forall o, o <> off -> load8 mem' o = load8 mem o) ->
     Q tt (on_in (set_m_pReqBuf mem') s0)) ->
  wp (put_nul off) Q (on_in (set_m_pReqBuf mem) s0).
Proof.
  intros [Hz Hb] Hoff HQ. pose proof (ri_order r). pose proof image_size.
  destruct (store_only_at mem off 0 ltac:(lia)) as (mem' & Hs & Hz' & Hnul & Hne).
  unfold put_nul. do 2 wstep. evaluate. wstep. eapply wp_lift; [exact Hs|]. wstep.
  assert (on_in (set_m_pReqBuf mem') (on_in (set_m_pReqBuf mem) s0) = on_in (set_m_pReqBuf mem') s0) as E
    by (by destruct s0 as [[? ? ? [] ? ?] ?]).
  change (Q tt (on_in (set_m_pReqBuf mem') (on_in (set_m_pReqBuf mem) s0))). rewrite E. apply HQ; [|done|done].
  split; [congruence|]. intros o. destruct (decide (o = off)) as [->|]; [right; split; [lia|done]|].
  rewrite Hne by done. apply Hb.
Qed.

Lemma put_nul_spec off (Q : unit -> st -> Prop) mem :
  blanked mem -> ri_http_at r <= off <= ri_total r ->
  (forall mem', blanked mem' -> load8 mem' off = Some 0 ->
     (forall o, load8 mem o = Some 0 -> load8 mem' o = Some 0) -> Q tt (on_in (set_m_pReqBuf mem') s0)) ->
  wp (put_nul off) Q (on_in (set_m_pReqBuf mem) s0).
Proof.
  intros Hb Hoff HQ. apply put_nul_only; [done|done|]. intros mem' Hb' H0 Hne. apply HQ; [done|done|].
  intros o Ho. destruct (decide (o = off)) as [->|]; [done|]. by rewrite Hne.
Qed.

Lemma blanked_index mem (i : nat) len off : blanked mem -> ri_index r !! i = Some (len, off) ->
  load_s32 mem (headerOff_off (ri_index_at r) (Z.of_nat i)) = Some off /\ load_u16 mem (headerLen_off (ri_index_at r) (Z.of_nat i)) = Some len.
Proof.
  intros Hb Hi. destruct (image_index_entry flag r slack i len off Hok Hi) as [Ho Hl].
  pose proof (lookup_lt_Some _ _ _ Hi) as Hlt. rewrite (io_index r Hok) in Hlt.
  assert (ri_index_at r + 152 <= ri_http_at r) as Hend.
  { unfold ri_http_at, ri_unknown_at. pose proof (zlen_nonneg (ri_unknown r)). lia. }
  unfold load_s32, load_u16 in *. split.
  - rewrite blanked_load; [done|done|]. unfold headerOff_off. lia.
  - rewrite blanked_load; [done|done|]. unfold headerLen_off. lia.
Qed.

Lemma known_header_spec mem (i : nat) len off (Q : option (Z * Z) -> st -> Prop) :
  blanked mem -> ri_index r !! i = Some (len, off) ->
  Q (if off =? 0 then None else Some (off, len)) (on_in (set_m_pReqBuf mem) s0) ->
  wp (known_header (Z.of_nat i)) Q (on_in (set_m_pReqBuf mem) s0).
Proof.
  intros Hb Hi HQ. destruct (blanked_index mem i len off Hb Hi) as [Ho Hl].
  unfold known_header. do 2 wstep. wstep. eapply wp_lift; [exact (pa_index _ _ Hp)|]. wsteps.
  eapply wp_lift; [exact Ho|]. destruct (off =? 0); [by wstep|].
  wstep. eapply wp_lift; [exact Hl|]. by wstep.
Qed.

Lemma http_text_spec mem (Q : Z -> st -> Prop) :
  Q (ri_http_at r) (on_in (set_m_pReqBuf mem) s0) -> wp http_text Q (on_in (set_m_pReqBuf mem) s0).
Proof. intros HQ. unfold http_text. do 2 wstep. eapply wp_lift; [exact (pa_http _ _ Hp)|]. done. Qed.

Lemma unknown_header_spec mem (i : nat) u (Q : Z * Z * Z * Z -> st -> Prop) :
  blanked mem -> ri_unknown r !! i = Some u ->
  Q u (on_in (set_m_pReqBuf mem) s0) ->
  wp (unknown_header_at (Z.of_nat i)) Q (on_in (set_m_pReqBuf mem) s0).
Proof.
  intros Hb Hu HQ. pose proof (lookup_lt_Some _ _ _ Hu) as Hlt.
  pose proof (Forall_lookup_1 _ _ _ _ (io_unknown r Hok) Hu) as (?&?&?&?&?&?).
  pose proof (io_total r Hok) as Ht. unfold LSAPI_MAX_HEADER_LEN in Ht. pose proof (ri_order r).
  assert (zlen (ri_http r) <= 65535) as Hmax by (unfold ri_total in *; lia).
  assert (forall k v, flat u !! k = Some v -> is_s32 v ->
    load_s32 mem (ri_unknown_at r + sizeof_header_offset * Z.of_nat i + 4 * Z.of_nat k) = Some v) as Hf.
  { intros k v Hk Hv. pose proof (lookup_lt_Some _ _ _ Hk) as Hk4. change (length (flat u)) with 4%nat in Hk4.
    pose proof (image_unknown_field flag r slack i u k v Hok Hu Hk Hv) as E. unfold load_s32 in *.
    rewrite blanked_load; [exact E|done|]. unfold ri_http_at, sizeof_header_offset, zlen, unknown_header in *. lia. }
  pose proof (Hf 0%nat u.1.1.1 eq_refl ltac:(unfold is_s32; lia)) as E0. rewrite Z.add_0_r in E0.
  pose proof (Hf 1%nat u.1.1.2 eq_refl ltac:(unfold is_s32; lia)) as E1. change (4 * Z.of_nat 1) with 4 in E1.
  pose proof (Hf 2%nat u.1.2 eq_refl ltac:(unfold is_s32; lia)) as E2. change (4 * Z.of_nat 2) with 8 in E2.
  pose proof (Hf 3%nat u.2 eq_refl ltac:(unfold is_s32; lia)) as E3. change (4 * Z.of_nat 3) with 12 in E3.
  unfold unknown_header_at. do 2 wstep. wstep. eapply wp_lift; [exact (pa_unknown _ _ Hp)|]. cbv zeta. wsteps.
  eapply wp_lift; [exact E0|]. wstep. eapply wp_lift; [exact E1|]. wstep. eapply wp_lift; [exact E2|]. wstep.
  eapply wp_lift; [exact E3|]. wstep. by destruct u as [[[? ?] ?] ?].
Qed.

(** The calls for the known headers [i, i + n) and for the unknown ones. *)
Fixpoint known_calls (n i : nat) : list header_call :=
  match n with
  | O => []
  | S n =>
      match ri_index r !! i with
      | Some (len, off) =>
          if off =? 0 then []
          else [mkCall (Lit (nth i HTTP_HEADERS [])) (nth i HTTP_HEADER_LEN 0) (ri_http_at r + off) len]
      | None => []
      end ++ known_calls n (S i)
  end.

Definition unknown_call (u : unknown_header) : header_call :=
  mkCall (InReq (ri_http_at r + u.1.1.1)) u.1.1.2 (ri_http_at r + u.1.2) u.2.

Lemma header_table i : (i < 25)%nat -> zlen (nth i HTTP_HEADERS []) = nth i HTTP_HEADER_LEN 0.
Proof. intros Hi. do 25 (destruct i as [|i]; [done|]). lia. Qed.

Lemma ended_mono mem mem' c :
  (forall o, load8 mem o = Some 0 -> load8 mem' o = Some 0) -> ended mem c -> ended mem' c.
Proof. intros Hl [H1 H2]. split; [auto|]. destruct (c_name c); auto. Qed.

Lemma org_known_spec n : forall i acc mem (Q : list header_call -> st -> Prop),
  (i + n <= 24)%nat -> blanked mem -> Forall (ended mem) acc ->
  (forall mem', blanked mem' -> Forall (ended mem') (acc ++ known_calls n i) ->
     Q (acc ++ known_calls n i) (on_in (set_m_pReqBuf mem') s0)) ->
  wp (org_known n (Z.of_nat i) acc) Q (on_in (set_m_pReqBuf mem) s0).
Proof.
  induction n as [|n IH]; intros i acc mem Q Hi Hb Ha HQ.
  { cbn [org_known known_calls] in *. wstep. rewrite <- (app_nil_r acc). apply HQ; [done|by rewrite app_nil_r]. }
  cbn [org_known known_calls] in *.
  destruct (lookup_lt_is_Some_2 (ri_index r) i) as [[len off] Hlo]. { rewrite (io_index r Hok). lia. }
  pose proof (Forall_lookup_1 _ _ _ _ (io_entries r Hok) Hlo) as (Hl & _ & Hr). cbn [fst snd] in *.
  rewrite Hlo in HQ. wstep. eapply known_header_spec; [done|done|].
  replace (Z.of_nat i + 1) with (Z.of_nat (S i)) by lia.
  destruct (Z.eqb_spec off 0) as [E|Hne].
  { apply IH; [lia|done|done|]. cbn [app] in HQ. exact HQ. }
  destruct Hr as [?|[Hr1 Hr2]]; [done|]. pose proof (ri_order r).
  wstep. apply http_text_spec. wstep. apply put_nul_spec; [done|unfold ri_total; lia|].
  intros mem' Hb' H0 Hmono. rewrite Nat2Z.id. apply IH; [lia|done| |].
  - rewrite Forall_app. split; [by eapply Forall_impl; [exact Ha|]; intros ?; apply ended_mono|].
    repeat constructor; [done|]. cbn [c_name c_nameLen]. apply header_table. lia.
  - rewrite <- app_assoc. cbn [app] in *. exact HQ.
Qed.

Lemma org_unknown_spec n : forall i acc mem (Q : list header_call -> st -> Prop),
  (i + n)%nat = length (ri_unknown r) -> (length acc < 512)%nat -> blanked mem -> Forall (ended mem) acc ->
  (forall mem', let calls := take 512 (acc ++ (unknown_call <$> drop i (ri_unknown r))) in
     blanked mem' -> Forall (ended mem') calls -> Q calls (on_in (set_m_pReqBuf mem') s0)) ->
  wp (org_unknown n (Z.of_nat i) acc) Q (on_in (set_m_pReqBuf mem) s0).
Proof.
  induction n as [|n IH]; intros i acc mem Q Hi Hacc Hb Ha HQ; cbn [org_unknown].
  { wstep. rewrite drop_ge, app_nil_r, take_ge in HQ by lia. by apply HQ. }
  destruct (lookup_lt_is_Some_2 (ri_unknown r) i) as [u Hu]; [lia|].
  pose proof (Forall_lookup_1 _ _ _ _ (io_unknown r Hok) Hu) as (?&?&?&?&?&?).
  rewrite (drop_S _ u i Hu), fmap_cons in HQ. pose proof (ri_order r).
  wstep. eapply unknown_header_spec; [done|done|]. destruct u as [[[nO nL] vO] vL]. cbn [fst snd] in *.
  wstep. apply http_text_spec. wstep. apply put_nul_spec; [done|unfold ri_total; lia|].
  intros mem1 Hb1 H01 Hm1. wstep. apply put_nul_spec; [done|unfold ri_total; lia|].
  intros mem2 Hb2 H02 Hm2. cbv zeta.
  change (mkCall (InReq (ri_http_at r + nO)) nL (ri_http_at r + vO) vL) with (unknown_call (nO, nL, vO, vL)).
  assert (Forall (ended mem2) (acc ++ [unknown_call (nO, nL, vO, vL)])) as Hend.
  { rewrite Forall_app. split.
    - eapply Forall_impl; [exact Ha|]. intros c Hc. eapply ended_mono; [exact Hm2|]. by eapply ended_mono.
    - repeat constructor; [done|]. cbn. auto. }
  destruct (Z.eqb_spec (zlen (acc ++ [unknown_call (nO, nL, vO, vL)])) 512) as [E|E].
  - wstep. rewrite (cons_middle (unknown_call _)), app_assoc, take_app_le, take_ge in HQ
      by (unfold zlen in E; rewrite ?length_app in *; cbn in *; lia). by apply HQ.
  - replace (Z.of_nat i + 1) with (Z.of_nat (S i)) by lia. apply IH; [lia| |done|done|].
    + unfold zlen in E. rewrite length_app in *. cbn in *. lia.
    + rewrite <- app_assoc. exact HQ.
Qed.

Definition org_calls : list header_call :=
  take 512 (known_calls 24 0 ++ (unknown_call <$> ri_unknown r)).
End Org.

Lemma length_known_calls r n i : (length (known_calls r n i) <= n)%nat.
Proof.
  revert i. induction n as [|n IH]; intros i; cbn [known_calls]; [done|]. rewrite length_app. specialize (IH (S i)).
  destruct (ri_index r !! i) as [[len off]|]; [destruct (off =? 0)|]; cbn; lia.
Qed.

(** [LSAPI_ForeachOrgHeader_r] calls the callback once for every header of the
    request (the first 512: known ones under their HTTP name, unknown ones under the
    name in the buffer), in the order of their values in the buffer, until a callback
    answers [<= 0]; every name and value handed out ends with a NUL, and no byte of the
    request buffer outside the header text changes. *)
Theorem ForeachOrgHeader_visits flag r slack s fn :
  image_ok r -> parsed r (m_in (req s)) -> 0 < zlen slack ->
  m_pReqBuf (m_in (req s)) = image flag false false r slack ->
  exists calls mem',
    calls ≡ₚ org_calls r /\ StronglySorted value_le calls /\
    Forall (ended mem') calls /\ blanked flag r slack mem' /\
    LSAPI_ForeachOrgHeader_r fn s = visit fn calls (zlen calls) (on_in (set_m_pReqBuf mem') s).
Proof.
  intros Hok Hp Hslack Hm.
  assert (on_in (set_m_pReqBuf (image flag false false r slack)) s = s) as Hs.
  { rewrite <- Hm. by destruct s as [[? ? ? [] ? ?] ?]. }
  exists (qsort_headers (org_calls r)).
  assert (wp (headers ← org_known (Z.to_nat H_TRANSFER_ENCODING) 0 [];
              cnt ← get_field off_cntUnknownHeaders;
              org_unknown (Z.to_nat cnt) 0 headers)
            (fun calls s' => exists mem', calls = org_calls r /\ s' = on_in (set_m_pReqBuf mem') s /\
               Forall (ended mem') calls /\ blanked flag r slack mem') s) as Hwp.
  { refine (eq_rect _ (fun x => wp _ _ x) _ _ Hs). wstep. change (Z.to_nat H_TRANSFER_ENCODING) with 24%nat.
    apply (org_known_spec flag r slack s Hok Hp Hslack Hm 24 0 []); [lia|apply blanked_image|constructor|].
    intros mem1 Hb1 He1. wstep. cbn [app] in *.
    assert (load_s32 mem1 off_cntUnknownHeaders = Some (zlen (ri_unknown r))) as Hcnt.
    { unfold load_s32. rewrite (blanked_load _ _ _ _ _ _ Hb1).
      - by apply (image_count flag false r slack 6).
      - change off_cntUnknownHeaders with 32. pose proof (ri_order r). unfold ri_http_at, ri_unknown_at in *.
        pose proof (zlen_nonneg (ri_unknown r)). lia. }
    eapply get_field_spec; [exact Hcnt|]. cbv beta.
    replace (Z.to_nat (zlen (ri_unknown r))) with (length (ri_unknown r)) by (unfold zlen; lia).
    pose proof (length_known_calls r 24 0).
    apply (org_unknown_spec flag r slack s Hok Hp Hslack Hm (length (ri_unknown r)) 0); [done|lia|done|done|].
    intros mem2 calls Hb2 He2. exists mem2. done. }
  apply wp_run in Hwp as (calls & s' & Hrun & mem' & -> & -> & He & Hb). exists mem'.
  split; [apply merge_sort_Permutation|]. split; [|split; [|split; [done|]]].
  - apply StronglySorted_merge_sort; [intros ???; unfold value_le; lia|intros ??; unfold value_le; lia].
  - unfold qsort_headers. by rewrite merge_sort_Permutation.
  - unfold LSAPI_ForeachOrgHeader_r. unfold mbind at 1, M_bind, get_in, gets at 1. rewrite (pa_index _ _ Hp).
    revert Hrun. unfold mbind, M_bind.
    destruct (org_known _ _ _ s) as [[c1 s1]|]; [|done]. destruct (get_field _ s1) as [[cnt s2]|]; [|done].
    intros ->. f_equal. unfold qsort_headers, zlen. by rewrite merge_sort_Permutation.
Qed.

Lemma ForeachOrgHeader_visits_witness :
  exists calls mem',
    calls ≡ₚ org_calls sample_request /\ StronglySorted value_le calls /\
    Forall (ended mem') calls /\ blanked false sample_request (replicate 16 0) mem' /\
    LSAPI_ForeachOrgHeader_r (fun _ => mret 1) sample_parsed =
      visit (fun _ => mret 1) calls (zlen calls) (on_in (set_m_pReqBuf mem') sample_parsed).
Proof.
  apply (ForeachOrgHeader_visits false sample_request (replicate 16 0) sample_parsed (fun _ => mret 1));
    [apply sample_request_ok|apply sample_parsed_ok|reflexivity|reflexivity].
Defined.
