(* ===== verification/Frame.v ===== *)
(** * What a computation leaves alone

    [stable R m]: whatever [m] does, the states before and after it are related by the
    preorder [R]; [keeps f m] is the case where a part [f] of the state is the same
    afterwards.  The rules follow the structure of a computation, so [keep] proves such a
    fact for a whole operation; the facts about the response operations are collected
    here. *)

From S2P Require Export Response.

Open Scope Z_scope.

(** Inverting a computation that has a value. *)
Lemma bind_inv {A B} (m : M A) (k : A -> M B) s b s' :
  (m ≫= k) s = Some (b, s') -> exists a s1, m s = Some (a, s1) /\ k a s1 = Some (b, s').
Proof. unfold mbind, M_bind. destruct (m s) as [[a s1]|]; [eauto|done]. Qed.

Lemma lift_inv {A} (o : option A) s a s' : lift o s = Some (a, s') -> o = Some a /\ s' = s.
Proof. unfold lift. destruct o; [|done]. by intros [= -> ->]. Qed.

Definition stable {A} (R : relation st) (m : M A) : Prop :=
  forall s a s', m s = Some (a, s') -> R s s'.

Section Rules.
Context (R : relation st) `{!PreOrder R}.

Lemma stable_ret {A} (a : A) : stable R (mret a).
Proof. intros s b s' [= <- <-]. reflexivity. Qed.
Lemma stable_bind {A B} (m : M A) (k : A -> M B) : stable R m -> (forall a, stable R (k a)) -> stable R (m ≫= k).
Proof. intros Hm Hk s b s' (a & s1 & E1 & E2)%bind_inv. transitivity s1; [by eapply Hm|by eapply Hk]. Qed.
Lemma stable_gets {A} (g : st -> A) : stable R (gets g).
Proof. intros s b s' [= <- <-]. reflexivity. Qed.
Lemma stable_lift {A} (o : option A) : stable R (lift o).
Proof. intros s b s' [_ ->]%lift_inv. reflexivity. Qed.
Lemma stable_ub {A} : stable R (@ub A).
Proof. done. Qed.
Lemma stable_if {A} (b : bool) (m k : M A) : stable R m -> stable R k -> stable R (if b then m else k).
Proof. by destruct b. Qed.
Lemma stable_modify g : (forall s, R s (g s)) -> stable R (modify g).
Proof. intros Hg s b s' [= <- <-]. apply Hg. Qed.
End Rules.

(** The states with the same part [f]. *)
Definition agree {B} (f : st -> B) (s s' : st) : Prop := f s' = f s.

#[export] Instance agree_preorder {B} (f : st -> B) : PreOrder (agree f).
Proof. split; [done|]. unfold agree. intros s s' s'' E E'. congruence. Qed.

Abbreviation keeps f m := (stable (agree f) m).

(** What no operation on the response touches, [lsapi_close_connection] aside. *)
Definition process_view (s : st) : cred * Z * Z * Z * option Z * option lsapi_child_status * (bool * list accept_res * bool) * (bool * bool) :=
  (s_cred (os s), s_uid (os s), m_fdListen (req s), m_fd (req s), s_busy_workers (os s), s_worker_status (os s),
   (s_accept_notify (os s), k_accepts (os s), s_skip_write (os s)), (s_schedule_notify (os s), s_notified_pid (os s))).

(** A relation that the request operations keep: it allows any change that leaves the
    view of the process alone, and the closing of a connection. *)
Class Frame (R : relation st) : Prop := {
  #[global] frame_preorder :: PreOrder R;
  frame_view s s' : process_view s' = process_view s -> R s s';
  frame_close : stable R lsapi_close_connection
}.

Create HintDb keeps.
#[export] Hint Resolve frame_close : keeps.
#[export] Hint Extern 0 (Frame _) => exact _ : keeps.

(** What the response operations leave alone as well, but for writing and closing. *)
Definition response_side (s : st) :=
  (process_view s, m_in (req s), (k_reads (os s), k_writes (os s), g_running (os s), s_stderr_log_path (os s))).

(** A relation that the response operations keep. *)
Class ResponseFrame (R : relation st) : Prop := {
  #[global] rf_preorder :: PreOrder R;
  rf_view s s' : response_side s' = response_side s -> R s s';
  rf_write fd data : stable R (sys_write fd data);
  rf_writev fd vec pos n total : stable R (lsapi_writev fd vec pos n total);
  rf_close : stable R lsapi_close_connection
}.

#[export] Hint Resolve rf_write rf_writev rf_close : keeps.
#[export] Hint Extern 0 (ResponseFrame _) => exact _ : keeps.

(** [keep] walks through a computation; recursive functions are hints. *)
Ltac keep :=
  repeat (first
    [ progress intros
    | solve [auto with keeps nocore]
    | apply stable_ret; exact _ | apply stable_bind; [exact _| |] | apply stable_gets; exact _
    | apply stable_lift; exact _ | apply stable_ub
    | apply stable_if
    | apply stable_modify; intros; solve [exact eq_refl | apply frame_view; exact eq_refl | apply rf_view; exact eq_refl | auto with keeps nocore]
    | match goal with |- stable _ (match ?x with _ => _ end) => destruct x end ]).

(** ** System calls *)

Section Calls.
Context (R : relation st) `{!Frame R}.

Lemma frame_write_ev ev fd data : stable R (sys_write_ev ev fd data).
Proof. unfold sys_write_ev, signal_stop. keep. Qed.
#[local] Hint Resolve frame_write_ev : keeps.
Lemma frame_sys_write fd data : stable R (sys_write fd data).
Proof. unfold sys_write, next_write. keep. Qed.
#[local] Hint Resolve frame_sys_write : keeps.
Lemma frame_close_ev ev fd : stable R (sys_close_ev ev fd).
Proof. unfold sys_close_ev, signal_stop. keep. Qed.
#[local] Hint Resolve frame_close_ev : keeps.
Lemma frame_close_loop evs fd : stable R (close_loop evs fd).
Proof. induction evs; cbn [close_loop]; keep. Qed.
#[local] Hint Resolve frame_close_loop : keeps.
Lemma frame_read_ev ev rest len : stable R (sys_read_ev ev rest len).
Proof. unfold sys_read_ev, signal_stop. keep. Qed.
#[local] Hint Resolve frame_read_ev : keeps.
Lemma frame_read_loop evs len : stable R (read_loop evs len).
Proof. induction evs; cbn [read_loop]; keep. Qed.
#[local] Hint Resolve frame_read_loop : keeps.
Lemma frame_lsapi_read len : stable R (lsapi_read len).
Proof. unfold lsapi_read. keep. Qed.
Lemma frame_writev_loop evs : forall fd vec pos n togo total, stable R (writev_loop evs fd vec pos n togo total).
Proof. induction evs; cbn [writev_loop]; keep. Qed.
#[local] Hint Resolve frame_writev_loop : keeps.
Lemma frame_writev fd vec pos n total : stable R (lsapi_writev fd vec pos n total).
Proof. unfold lsapi_writev. keep. Qed.
Lemma frame_response_side s s' : response_side s' = response_side s -> R s s'.
Proof. intros E. apply frame_view. exact (f_equal (fun x => x.1.1) E). Qed.
End Calls.

#[export] Hint Resolve frame_write_ev frame_close_ev frame_close_loop frame_read_ev frame_read_loop frame_lsapi_read frame_writev_loop : keeps.

#[export] Instance frame_response (R : relation st) `{!Frame R} : ResponseFrame R.
Proof. split; [exact _|apply frame_response_side; exact _|apply frame_sys_write; exact _|apply frame_writev; exact _|apply frame_close]. Qed.

(** ** The response operations *)

Section Response.
Context (R : relation st) `{!ResponseFrame R}.

Lemma frame_alloc : stable R (sys_alloc).
Proof. unfold sys_alloc. keep. Qed.
#[local] Hint Resolve frame_alloc : keeps.
Lemma frame_finalize : stable R (LSAPI_FinalizeRespHeaders_r).
Proof. unfold LSAPI_FinalizeRespHeaders_r, push_iov, add_total, set_iov, set_state_bit, has_state. keep. Qed.
#[local] Hint Resolve frame_finalize : keeps.
Lemma frame_flush : stable R LSAPI_Flush_r.
Proof.
  unfold LSAPI_Flush_r, ensure_finalized, flush_body, send_queue, rewind_iovec, Flush_RespBuf_r, push_iov, add_total,
    set_iov, set_pkt, set_state_bit, has_state. keep.
Qed.
#[local] Hint Resolve frame_flush : keeps.
Lemma frame_stderr_loop fuel : forall buf len p, stable R (Stderr_loop fuel buf len p).
Proof. induction fuel; cbn [Stderr_loop]; keep. Qed.
#[local] Hint Resolve frame_stderr_loop : keeps.
Lemma frame_write_stderr buf len : stable R (LSAPI_Write_Stderr_r buf len).
Proof. unfold LSAPI_Write_Stderr_r. keep. Qed.
Lemma frame_append2 name value : stable R (LSAPI_AppendRespHeader2_r name value).
Proof. unfold LSAPI_AppendRespHeader2_r, reserve_header, allocateRespHeaderBuf, put_header, record_header_len, has_state. keep. Qed.
Lemma frame_status code : stable R (LSAPI_SetRespStatus_r code).
Proof. unfold LSAPI_SetRespStatus_r. keep. Qed.
Lemma frame_write_loop fuel : forall buf len p bufLen ph, stable R (Write_loop fuel buf len p bufLen ph).
Proof. induction fuel; cbn [Write_loop]; unfold push_packet, set_pkt, add_total, push_iov, set_iov; keep. Qed.
#[local] Hint Resolve frame_write_loop : keeps.
Lemma frame_write buf len : stable R (LSAPI_Write_r buf len).
Proof. unfold LSAPI_Write_r, ensure_finalized, has_state, set_state_bit. keep. Qed.
End Response.

#[export] Hint Resolve frame_alloc frame_finalize frame_flush frame_stderr_loop frame_write_stderr frame_append2 frame_status frame_write : keeps.

(** The end of a response resets the request as well. *)
Lemma frame_finish (R : relation st) `{!Frame R} : stable R LSAPI_Finish_r.
Proof.
  unfold LSAPI_Finish_r, ensure_finalized, flush_body, push_finish, Flush_RespBuf_r, LSAPI_Reset_r, push_iov, add_total,
    set_iov, set_pkt, set_state_bit, has_state. keep.
Qed.
#[export] Hint Resolve frame_finish : keeps.

(** Who the process is and where it listens: out of reach of the response operations. *)
Definition identity (s : st) : cred * Z * Z := (s_cred (os s), s_uid (os s), m_fdListen (req s)).

#[export] Instance frame_identity : Frame (agree identity).
Proof.
  split; [exact _| |].
  - unfold process_view, agree, identity. congruence.
  - unfold lsapi_close_connection, lsapi_close, count_busy, worker_state.
    assert (forall evs fd, keeps identity (close_loop evs fd)) as Hloop.
    { induction evs; intros; cbn [close_loop]; unfold sys_close_ev, signal_stop; keep. }
    keep.
Qed.
