(* ===== verification/SuExec.v ===== *)
(** * Changing the user of a worker (suEXEC)

    The secret, the authentication of a suEXEC request, the change of user and group,
    the LVE hooks and the reopening of stderr of lsapilib.c.  The identity system calls
    answer from a script and are recorded, so the order in which privileges are dropped
    is part of the state. *)

From S2P Require Export MD5 Frame ReqHeaders.

Open Scope Z_scope.

Definition mod_cred (f : cred -> cred) : M unit := mod_os (fun o => set_s_cred (f (s_cred o)) o).
Definition get_cred {A} (f : cred -> A) : M A := get_os (fun o => f (s_cred o)).

(** An identity system call: recorded, answered from the script. *)
Definition id_syscall (c : id_call) : M Z :=
  mod_cred (fun k => set_k_id_calls (k_id_calls k ++ [c]) k) ;;
  l ← get_cred k_ids;
  match l with
  | [] => mret 0
  | r :: l => mod_cred (set_k_ids l) ;; mret r
  end.

(** [close(fd)] without the retry of [lsapi_close]. *)
Definition sys_close (fd : Z) : M Z :=
  evs ← get_os k_closes;
  match evs with
  | [] => mod_os (fun o => set_k_closed (k_closed o ++ [fd]) o) ;; mret 0
  | ev :: evs => mod_os (set_k_closes evs) ;; '(r, _) ← sys_close_ev ev fd; mret r
  end.

(** ** The secret *)

(** What opening the secret file finds. *)
Inductive secret_file := SecretNoOpen | SecretNoStat | SecretFile (mode : Z) (data : list Z).

(** The first 16 bytes of [s_secret] are overwritten by what is read, a short read
    included. *)
Definition readSecret (f : secret_file) : M Z :=
  match f with
  | SecretNoOpen => mret (-1)
  | SecretNoStat => mret (-1)
  | SecretFile mode data =>
      if negb (Z.land mode 63 =? 0) then mret (-1)
      else
        secret ← get_os s_secret;
        let bs := take 16 data in
        secret ← lift (store secret 0 bs);
        mod_os (set_s_secret secret) ;;
        if zlen bs <? 16 then mret (-1) else mret 0
  end.

Definition LSAPI_is_suEXEC_Daemon : M Z :=
  uid ← get_os s_uid;
  secret ← get_os s_secret;
  b ← lift (load8 secret 0);
  mret (if (uid =? 0) && negb (b =? 0) then 1 else 0).

(** ** Error messages *)

(** [achError] after [snprintf(achError, 4096, ...)], and the length written. *)
Definition error_text (text : list Z) : list Z * Z :=
  if 4096 <=? zlen text then (slice 0 4095 text ++ [0], 4096) else (text, zlen text).

Definition LSAPI_perror_r (has_req : bool) (pErr1 pErr2 : list Z) : M Z :=
  format ← get_cred k_perror;
  let '(achError, n) := error_text (format (pErr1 ++ [58] ++ pErr2)) in
  (if has_req : bool then LSAPI_Write_Stderr_r achError n
   else '(r, _) ← sys_write 2 (slice 0 n achError); mret r) ;;
  mret 0.

(** ** LVE *)

Definition lve_headers : list (list Z) := str <$>
  ["Cache-Control: private, no-cache, no-store, must-revalidate, max-age=0"; "Pragma: no-cache";
   "Retry-After: 60"; "Content-Type: text/html"]%string.

Definition nl : list Z := [10].

Definition lve_body : list Z :=
  str "<!DOCTYPE HTML PUBLIC " ++ [34] ++ str "-//IETF//DTD HTML 2.0//EN" ++ [34] ++ str ">" ++ nl ++
  str "<HTML><HEAD>" ++ nl ++ str "<TITLE>508 Resource Limit Is Reached</TITLE>" ++ nl ++
  str "</HEAD><BODY>" ++ nl ++ str "<H1>Resource Limit Is Reached</H1>" ++ nl ++
  str "The website is temporarily unable to service your request as it exceeded resource limit." ++ nl ++
  str "Please try again later." ++ nl ++ str "<HR>" ++ nl ++ str "</BODY></HTML>" ++ nl.

Definition lsapi_lve_error : M Z :=
  LSAPI_ErrResponse_r 508 (Some lve_headers) (Some lve_body) (zlen lve_body) ;; mret 0.

Definition lsapi_enterLVE (uid : Z) : M Z :=
  lve ← get_cred s_lve;
  if (lve : bool) && negb (uid =? 0) then
    ret ← id_syscall (CallEnter uid);
    if ret <? 0 then
      LSAPI_perror_r true (str "LSAPI: lve_enter() failure, reached resource limit.") [] ;;
      lsapi_lve_error ;;
      mret (-1)
    else mret 0
  else mret 0.

Definition lsapi_jailLVE (uid : Z) : M Z :=
  ret ← id_syscall (CallJail uid);
  if ret <? 0 then
    LSAPI_perror_r true (str "LSAPI: jail() failure.") [] ;;
    mret (-1)
  else mret ret.

(** ** The change of user *)

Definition LSAPI_CAGEFS_NO_SUEXEC : Z := 3.

(** [if (rv == -1) { perror; return -1; }], the rest being [k]. *)
Definition id_call_or_fail (c : id_call) (msg : string) (k : M Z) : M Z :=
  rv ← id_syscall c;
  if rv =? -1 then LSAPI_perror_r true (str msg) [] ;; mret (-1) else k.

(** The part of [setUID_LVE] behind the LVE hooks. *)
Definition set_ids (uid gid : Z) (pw : option Z) (pChroot : option (list Z)) : M Z :=
  id_call_or_fail (CallSetgid gid) "LSAPI: setgid()"
    (let behind_groups :=
       let finish := id_call_or_fail (CallSetuid uid) "LSAPI: setuid()" (mret 0) in
       match pChroot with
       | Some root => id_call_or_fail (CallChroot root) "LSAPI: chroot()" finish
       | None => finish
       end in
     if bool_decide (pw = Some gid) then
       id_call_or_fail (CallInitgroups gid) "LSAPI: initgroups()" behind_groups
     else
       rv ← id_syscall (CallSetgroups gid);
       (if rv =? -1 then LSAPI_perror_r true (str "LSAPI: setgroups()") [] else mret 0) ;;
       behind_groups).

Definition setUID_LVE (uid gid : Z) (pChroot : option (list Z)) : M Z :=
  getpw ← get_cred k_getpwuid;
  let pw := getpw uid in
  lve ← get_cred s_lve;
  if (lve : bool) then
    r ← lsapi_enterLVE uid;
    if r =? -1 then mret (-1)
    else
      jail ← get_cred fp_lve_jail;
      if bool_decide (is_Some pw) && jail then
        rv ← lsapi_jailLVE uid;
        mode ← get_cred s_enable_lve;
        if rv =? -1 then mret (-1)
        else if (rv =? 1) && (mode =? LSAPI_CAGEFS_NO_SUEXEC) then
          uid ← get_cred s_defaultUid;
          gid ← get_cred s_defaultGid;
          set_ids uid gid (getpw uid) pChroot
        else set_ids uid gid pw pChroot
      else set_ids uid gid pw pChroot
  else set_ids uid gid pw pChroot.

(** ** The authentication *)

(** [memcmp] over the 16 bytes of the digests. *)
Definition lsapi_suexec_auth (ctx : lsapi_MD5Context) (pAuth len pUgid : Z) : M Z :=
  if len <? 32 then mret (-1)
  else
    secret ← get_os s_secret;
    mem ← get_in m_pReqBuf;
    achMD5 ← lift (load mem (pAuth + 16) 16);
    sec ← lift (load secret 0 16);
    mem ← lift (store mem (pAuth + 16) sec);
    let md5ctx := lsapi_MD5Init ctx in
    a ← lift (load mem pAuth 32);
    let md5ctx := lsapi_MD5Update md5ctx a in
    u ← lift (load mem pUgid 8);
    let md5ctx := lsapi_MD5Update md5ctx u in
    let digest := (lsapi_MD5Final md5ctx).1 in
    mem ← lift (store mem (pAuth + 16) digest);
    mod_in (set_m_pReqBuf mem) ;;
    mret (if bool_decide (achMD5 = digest) then 0 else 1).

(** ** Stderr *)

Definition PATH_MAX : Z := 4096.

(** The checks on [pre ++ p], the path in [final]. *)
Definition check_final (c : cred) (pre p : list Z) : option (list Z) :=
  if PATH_MAX - zlen pre <? zlen p + 1 then None
  else
    let refuse resolved := bool_decide (take 5 resolved = str "/etc/") in
    match k_realpath c (pre ++ p) with
    | RpErr tolerated rest => if negb tolerated || refuse rest then None else Some (pre ++ p)
    | RpOk resolved => if refuse resolved then None else Some (pre ++ p)
    end.

(** [lsapi_check_path]: the absolute path, or [None] for -1. *)
Definition lsapi_check_path (c : cred) (p : list Z) : option (list Z) :=
  if bool_decide (p !! 0%nat = Some 47) then check_final c [] p
  else cwd ← k_getcwd c; check_final c (cwd ++ [47]) p.

Definition lsapi_reopen_stderr2 (full_path : list Z) : M Z :=
  openf ← get_cred k_open;
  let newfd := openf full_path in
  if newfd =? -1 then
    LSAPI_perror_r false (str "Failed to open custom stderr log") full_path ;; mret (-1)
  else
    (if newfd =? 2 then mret 0 else sys_close newfd) ;;
    copied ← sys_alloc;
    mod_os (set_s_stderr_log_path copied) ;;
    mret 0.

Definition lsapi_reopen_stderr (p : list Z) : M Z :=
  uid ← get_os s_uid;
  if uid =? 0 then mret (-1)
  else
    c ← get_os s_cred;
    match lsapi_check_path c p with
    | None => LSAPI_perror_r false (str "Invalid custom stderr log path") p ;; mret (-1)
    | Some full_path => lsapi_reopen_stderr2 full_path
    end.

(** ** [lsapi_changeUGid] *)

(** [--pReq->m_pHeader->m_cntSpecialEnv]. *)
Definition dec_special : M unit :=
  cnt ← get_field off_cntSpecialEnv;
  mem ← get_in m_pReqBuf;
  mem ← lift (store_32 mem off_cntSpecialEnv (s32 (cnt - 1)));
  mod_in (set_m_pReqBuf mem).

(** [*pKey == 0 && strcmp(pKey + 1, name) == 0]. *)
Definition special_key (mem : list Z) (pKey : Z) (name : list Z) : option bool :=
  b ← load8 mem pKey;
  if b =? 0 then strcmp_eq mem (pKey + 1) name else Some false.

(** The user and group a request asks for: those of an authenticated SUEXEC_UGID, the
    user 0 when the authentication fails, the defaults when it does not ask. *)
Definition suexec_ids (ctx : lsapi_MD5Context) : M (Z * Z) :=
  uid ← get_cred s_defaultUid;
  gid ← get_cred s_defaultGid;
  cnt ← get_field off_cntSpecialEnv;
  let i := s32 (cnt - 1) in
  if i <? 0 then mret (s32 uid, s32 gid)
  else
    envs ← get_in m_pSpecialEnvList;
    pEnv ← lift (mjoin (envs !! Z.to_nat i));
    mem ← get_in m_pReqBuf;
    auth ← lift (special_key mem (pKey pEnv) (str "SUEXEC_AUTH"));
    if negb (auth : bool) then mret (s32 uid, s32 gid)
    else
      dec_special ;;
      let pAuth := pEnv in
      pEnv ← lift (if i =? 0 then None else mjoin (envs !! Z.to_nat (i - 1)));
      mem ← get_in m_pReqBuf;
      ugid ← lift (special_key mem (pKey pEnv) (str "SUEXEC_UGID"));
      if negb (ugid : bool) then mret (0, s32 gid)
      else
        dec_special ;;
        mem ← get_in m_pReqBuf;
        uid ← lift (load_s32 mem (pValue pEnv));
        gid ← lift (load_s32 mem (pValue pEnv + 4));
        r ← lsapi_suexec_auth ctx (pValue pAuth) (valLen pAuth) (pValue pEnv);
        if r =? 0 then mret (uid, gid) else mret (0, gid).

(** The end of [lsapi_changeUGid], behind the change of the user: the process is told
    apart from root, closes the listening socket and may get a log of its own. *)
Definition leave_root (uid : Z) : M Z :=
  mod_os (set_s_uid (u32 uid)) ;;
  fdl ← get_req m_fdListen;
  (if fdl =? -1 then mret tt else sys_close fdl ;; mod_req (set_m_fdListen (-1))) ;;
  p ← LSAPI_GetEnv_r (str "LSAPI_STDERR_LOG");
  (match p with
   | None => mret 0
   | Some p => mem ← get_in m_pReqBuf; path ← lift (load_str mem p); lsapi_reopen_stderr path
   end) ;;
  mret 0.

(** [ctx] is the uninitialised MD5 context on the stack. *)
Definition lsapi_changeUGid (ctx : lsapi_MD5Context) : M Z :=
  me ← get_os s_uid;
  if negb (me =? 0) then mret 0
  else
    '(uid, gid) ← suexec_ids ctx;
    duid ← get_cred s_defaultUid;
    dgid ← get_cred s_defaultGid;
    let '(uid, gid) := if uid =? 0 then (s32 duid, s32 dgid) else (uid, gid) in
    r ← setUID_LVE (u32 uid) (u32 gid) None;
    if r =? -1 then mret (-1) else leave_root uid.
