(* ===== verification/SuExecSpec.v ===== *)
(** * What changing the user promises

    Which requests are authenticated, whose identity a worker takes, in which order it
    gives up its privileges, and which paths its stderr may be sent to. *)

From S2P Require Export SuExec ReqParseSpec.

Open Scope Z_scope.

#[global] Arguments load8 : simpl never.

(** ** The digest *)

(** The bytes an authentication consists of: the nonce and the digest at [pAuth], the
    user and group at [pUgid]. *)
Record auth_bytes (mem : list Z) (pAuth pUgid : Z) (nonce digest ugid : list Z) : Prop := {
  ab_nonce : load mem pAuth 16 = Some nonce;
  ab_digest : load mem (pAuth + 16) 16 = Some digest;
  ab_ugid : load mem pUgid 8 = Some ugid;
  ab_apart : pUgid + 8 <= pAuth + 16 \/ pAuth + 32 <= pUgid
}.

Lemma zlen_rfc_md5 m : zlen (rfc_md5 m) = 16.
Proof.
  unfold rfc_md5. pose proof (rfc_blocks_ok (length (rfc_pad m) / 64) _ (rfc_pad m) md5_iv_ok) as [H4 _].
  unfold md5_iv in H4. destruct (rfc_blocks _ _ _) as [|a [|b [|c [|d [|e l]]]]]; try done.
Qed.

(** The [SUEXEC_AUTH] of a request is accepted exactly when its digest is the MD5 of the
    nonce, the secret and the identity asked for; the secret is gone from the request
    buffer when the answer is given. *)
Lemma suexec_auth_run ctx pAuth len pUgid nonce digest ugid s :
  in_ok (md5_in ctx) -> bytes (m_pReqBuf (m_in (req s))) -> bytes (s_secret (os s)) -> zlen (s_secret (os s)) = 24 ->
  auth_bytes (m_pReqBuf (m_in (req s))) pAuth pUgid nonce digest ugid -> 32 <= len ->
  let expected := rfc_md5 (nonce ++ take 16 (s_secret (os s)) ++ ugid) in
  exists mem',
    lsapi_suexec_auth ctx pAuth len pUgid s =
      Some (if bool_decide (digest = expected) then 0 else 1, on_in (set_m_pReqBuf mem') s) /\
    load mem' (pAuth + 16) 16 = Some expected.
Proof.
  intros Hctx Hm Hsec Hz24 [Hn Hd Hu Hap] Hlen expected.
  set (mem := m_pReqBuf (m_in (req s))) in *. set (secret := s_secret (os s)) in *.
  pose proof (load_inv _ _ _ _ Hn) as (Hp0&_&_&En). pose proof (load_inv _ _ _ _ Hd) as (_&_&Hp1&_).
  pose proof (load_inv _ _ _ _ Hu) as (Hq0&_&Hq1&Eu).
  assert (load secret 0 16 = Some (take 16 secret)) as Hs16.
  { rewrite load_Some by lia. done. }
  pose proof (load_zlen _ _ _ _ Hs16) as Hz16.
  assert (exists mem1, store mem (pAuth + 16) (take 16 secret) = Some mem1) as [mem1 E1].
  { rewrite store_Some by lia. eauto. }
  pose proof (store_zlen _ _ _ _ E1) as Hz1.
  assert (load mem1 pAuth 32 = Some (nonce ++ take 16 secret)) as Ha.
  { rewrite load_Some by lia. f_equal. change 32 with (16 + 16). rewrite slice_split by lia.
    rewrite (store_load_before _ _ _ _ _ _ E1) by lia. rewrite <- En. f_equal.
    transitivity (slice (pAuth + 16) (zlen (take 16 secret)) mem1); [by rewrite Hz16|].
    by apply (store_load_same _ _ _ _ E1). }
  assert (load mem1 pUgid 8 = Some ugid) as Hu1.
  { rewrite load_Some by lia. f_equal. rewrite Eu. destruct Hap.
    - by apply (store_load_before _ _ _ _ _ _ E1).
    - apply (store_load_after _ _ _ _ _ _ E1); lia. }
  assert ((lsapi_MD5Final (lsapi_MD5Update (lsapi_MD5Update (lsapi_MD5Init ctx) (nonce ++ take 16 secret)) ugid)).1 = expected) as Emd5.
  { assert (forall l n, bytes l -> zlen l = n -> n < 2 ^ 32 -> bytes l /\ zlen l < 2 ^ 32) as Hb by (intros ? ? ? -> ?; by split).
    pose proof (md5_digest_rfc ctx [nonce ++ take 16 secret; ugid] Hctx) as Hmd. unfold md5_digest in Hmd.
    cbn [foldl concat] in Hmd. rewrite app_nil_r, <- app_assoc in Hmd. apply Hmd.
    apply Forall_cons_2; [|apply Forall_cons_2; [|constructor]].
    - apply (Hb _ 32); [|by apply (load_zlen _ _ _ _ Ha)|lia]. apply Forall_app. split; [exact (load_bytes _ _ _ _ Hm Hn)|exact (load_bytes _ _ _ _ Hsec Hs16)].
    - apply (Hb _ 8); [exact (load_bytes _ _ _ _ Hm Hu)|exact (load_zlen _ _ _ _ Hu)|lia]. }
  pose proof (zlen_rfc_md5 (nonce ++ take 16 secret ++ ugid)) as Hz_e. fold expected in Hz_e.
  assert (exists mem2, store mem1 (pAuth + 16) expected = Some mem2) as [mem2 E2].
  { rewrite store_Some by lia. eauto. }
  exists mem2. split.
  - assert (wp (lsapi_suexec_auth ctx pAuth len pUgid)
              (fun r s' => (r, s') = (if bool_decide (digest = expected) then 0 else 1, on_in (set_m_pReqBuf mem2) s)) s) as Hwp.
    2:{ by apply wp_run in Hwp as (a & s' & -> & ->). }
    unfold lsapi_suexec_auth. rewrite (proj2 (Z.ltb_ge _ _)) by lia. do 2 wstep. fold secret. wsteps. fold mem.
    eapply wp_lift; [exact Hd|]. wstep. eapply wp_lift; [exact Hs16|]. wstep. eapply wp_lift; [exact E1|].
    cbv zeta. wstep. eapply wp_lift; [exact Ha|]. wstep. eapply wp_lift; [exact Hu1|]. rewrite Emd5. wstep.
    eapply wp_lift; [exact E2|]. wsteps. done.
  - pose proof (store_zlen _ _ _ _ E2). rewrite load_Some by lia. f_equal.
    transitivity (slice (pAuth + 16) (zlen expected) mem2); [by rewrite Hz_e|].
    by apply (store_load_same _ _ _ _ E2).
Qed.

(** C28. The [SUEXEC_AUTH] of a request is accepted exactly when its digest is the RFC
    1321 MD5 of the nonce, the first 16 bytes of the secret and the identity asked for
    (and refused without a look when it is shorter than 32 bytes); the secret, which is
    put into the request buffer for the computation, is overwritten by the digest. *)
Theorem suexec_auth_accepts ctx pAuth len pUgid nonce digest ugid s :
  in_ok (md5_in ctx) -> bytes (m_pReqBuf (m_in (req s))) -> bytes (s_secret (os s)) -> zlen (s_secret (os s)) = 24 ->
  auth_bytes (m_pReqBuf (m_in (req s))) pAuth pUgid nonce digest ugid ->
  let expected := rfc_md5 (nonce ++ take 16 (s_secret (os s)) ++ ugid) in
  exists r s',
    lsapi_suexec_auth ctx pAuth len pUgid s = Some (r, s') /\
    (r = 0 <-> 32 <= len /\ digest = expected) /\
    (32 <= len -> load (m_pReqBuf (m_in (req s'))) (pAuth + 16) 16 = Some expected).
Proof.
  intros Hctx Hm Hsec Hz Hab expected. destruct (Z.leb_spec 32 len) as [Hlen|Hlen].
  - destruct (suexec_auth_run ctx pAuth len pUgid nonce digest ugid s Hctx Hm Hsec Hz Hab Hlen) as (mem' & E & Hl).
    eexists _, _. split; [exact E|]. split; [|by intros _]. fold expected.
    change (bool_decide _) with (bool_decide (digest = expected)). destruct (decide (digest = expected)) as [Hd|Hd].
    + rewrite bool_decide_true by done. by split.
    + rewrite bool_decide_false by done. split; [done|]. by intros [_ ?].
  - exists (-1), s. unfold lsapi_suexec_auth. rewrite (proj2 (Z.ltb_lt _ _)) by lia.
    split; [done|]. split; [split; [done|lia]|lia].
Qed.

(** A request buffer with a nonce, a digest and an identity behind each other. *)
Definition auth_state (digest : list Z) : st :=
  on_os (set_s_secret (replicate 16 7 ++ replicate 8 0))
    (on_in (set_m_pReqBuf (replicate 16 1 ++ digest ++ [5; 0; 0; 0; 6; 0; 0; 0])) st0).
Definition auth_digest : list Z := rfc_md5 (replicate 16 1 ++ replicate 16 7 ++ [5; 0; 0; 0; 6; 0; 0; 0]).

Lemma suexec_auth_accepts_witness :
  exists r s',
    lsapi_suexec_auth ctx0 0 32 32 (auth_state auth_digest) = Some (r, s') /\
    (r = 0 <-> 32 <= 32 /\ auth_digest = auth_digest) /\
    (32 <= 32 -> load (m_pReqBuf (m_in (req s'))) 16 16 = Some auth_digest).
Proof.
  apply (suexec_auth_accepts ctx0 0 32 32 (replicate 16 1) auth_digest [5; 0; 0; 0; 6; 0; 0; 0] (auth_state auth_digest)).
  - split; [reflexivity|]. by apply bytes_b_bytes.
  - apply bytes_b_bytes. by vm_compute.
  - apply bytes_b_bytes. by vm_compute.
  - reflexivity.
  - split; [by vm_compute|by vm_compute|by vm_compute|lia].
Defined.

(** ** The order in which privileges are dropped *)

Section Requests.
Context (R : relation st) `{!Frame R}.

Lemma keeps_get_field off : stable R (get_field off).
Proof. unfold get_field. keep. Qed.
#[local] Hint Resolve keeps_get_field : keeps.

Lemma keeps_perror b p1 p2 : stable R (LSAPI_perror_r b p1 p2).
Proof. unfold LSAPI_perror_r. keep. Qed.
#[local] Hint Resolve keeps_perror : keeps.

Lemma keeps_suexec_auth ctx a l u : stable R (lsapi_suexec_auth ctx a l u).
Proof. unfold lsapi_suexec_auth. keep. Qed.
#[local] Hint Resolve keeps_suexec_auth : keeps.

Lemma keeps_suexec_ids ctx : stable R (suexec_ids ctx).
Proof. unfold suexec_ids, dec_special. keep. Qed.

Lemma keeps_put_nul off : stable R (put_nul off).
Proof. unfold put_nul. keep. Qed.
#[local] Hint Resolve keeps_put_nul : keeps.

Lemma keeps_end_string off : stable R (end_string off).
Proof. unfold end_string. keep. Qed.
#[local] Hint Resolve keeps_end_string : keeps.

Lemma keeps_known_var n : forall i name, stable R (known_var n i name).
Proof. induction n; cbn [known_var]; unfold known_header, http_text; keep. Qed.
#[local] Hint Resolve keeps_known_var : keeps.

Lemma keeps_unknown_var n : forall i name, stable R (unknown_var n i name).
Proof. induction n; cbn [unknown_var]; unfold unknown_header_at, http_text; keep. Qed.
#[local] Hint Resolve keeps_unknown_var : keeps.

Lemma keeps_GetEnv_r name : stable R (LSAPI_GetEnv_r name).
Proof. unfold LSAPI_GetEnv_r, GetHeaderVar. keep. Qed.

Lemma keeps_sys_close fd : stable R (sys_close fd).
Proof. unfold sys_close. keep. Qed.
#[local] Hint Resolve keeps_sys_close : keeps.

Lemma keeps_reopen_stderr p : stable R (lsapi_reopen_stderr p).
Proof. unfold lsapi_reopen_stderr, lsapi_reopen_stderr2. keep. Qed.
End Requests.

#[export] Hint Resolve keeps_get_field keeps_perror keeps_suexec_auth keeps_suexec_ids keeps_put_nul keeps_end_string keeps_known_var keeps_unknown_var keeps_GetEnv_r keeps_sys_close keeps_reopen_stderr : keeps.

(** What the system answers to the identity call number [k] from here on. *)
Definition id_answer (k : nat) (s : st) : Z := default 0 (k_ids (s_cred (os s)) !! k).

(** Between [s] and [s'] exactly the identity calls [cs] were made. *)
Record id_trace (cs : list id_call) (s s' : st) : Prop := {
  it_calls : k_id_calls (s_cred (os s')) = k_id_calls (s_cred (os s)) ++ cs;
  it_answers : k_ids (s_cred (os s')) = drop (length cs) (k_ids (s_cred (os s)));
  it_uid : s_uid (os s') = s_uid (os s);
  it_fdl : m_fdListen (req s') = m_fdListen (req s)
}.

Lemma id_trace_keeps s s' : agree identity s s' -> id_trace [] s s'.
Proof. intros [= E1 E2 E3]. split; [by rewrite E1, app_nil_r|by rewrite E1|done|done]. Qed.

Lemma id_trace_trans cs ds s s1 s' : id_trace cs s s1 -> id_trace ds s1 s' -> id_trace (cs ++ ds) s s'.
Proof.
  intros [A1 A2 A3 A4] [B1 B2 B3 B4]. split; [by rewrite B1, A1, app_assoc| |congruence..].
  by rewrite B2, A2, drop_drop, length_app.
Qed.

Lemma id_answer_trace cs k s s' : id_trace cs s s' -> id_answer k s' = id_answer (length cs + k) s.
Proof. intros [_ H _ _]. unfold id_answer. by rewrite H, lookup_drop. Qed.

Lemma id_syscall_trace c s r s' : id_syscall c s = Some (r, s') -> id_trace [c] s s' /\ r = id_answer 0 s.
Proof.
  unfold id_syscall, id_answer. intros ([] & s1 & H1 & H2)%bind_inv. injection H1 as <-.
  apply bind_inv in H2 as (l & s2 & [= <- <-] & H3).
  change (k_ids _) with (k_ids (s_cred (os s))) in H3. destruct (k_ids (s_cred (os s))) as [|x l] eqn:E.
  { injection H3 as <- <-. split; [|done]. split; [done|by cbn; rewrite E|done..]. }
  apply bind_inv in H3 as ([] & s3 & [= <-] & [= <- <-]). split; [|done]. split; [done|by cbn; rewrite E|done..].
Qed.

(** When [id_call_or_fail] does not fail the call was made and the rest gave the answer. *)
Lemma id_call_or_fail_ok c msg k s r s' :
  id_call_or_fail c msg k s = Some (r, s') -> r <> -1 ->
  id_answer 0 s <> -1 /\ exists s1, id_trace [c] s s1 /\ k s1 = Some (r, s').
Proof.
  unfold id_call_or_fail. intros (rv & s1 & H1 & H2)%bind_inv Hr. apply id_syscall_trace in H1 as [H1 <-].
  destruct (Z.eqb_spec rv (-1)); [|split; [done|by exists s1]]. by apply bind_inv in H2 as (? & ? & _ & [= <- <-]).
Qed.

Definition groups_call (pw : option Z) (gid : Z) : id_call :=
  if bool_decide (pw = Some gid) then CallInitgroups gid else CallSetgroups gid.

(** The three identity calls behind [s] were answered: the group and the user were set,
    and so were the groups of an account that has this group.  (Emptying the groups of
    anyone else may fail.) *)
Definition ids_granted (pw : option Z) (gid : Z) (s : st) : Prop :=
  id_answer 0 s <> -1 /\ id_answer 2 s <> -1 /\ (pw = Some gid -> id_answer 1 s <> -1).

Lemma set_ids_ok uid gid pw s r s' :
  set_ids uid gid pw None s = Some (r, s') -> r <> -1 ->
  id_trace [CallSetgid gid; groups_call pw gid; CallSetuid uid] s s' /\ ids_granted pw gid s.
Proof.
  unfold set_ids, groups_call, ids_granted. intros H Hr. apply id_call_or_fail_ok in H as (A0 & s1 & T1 & H); [|done].
  case_bool_decide as D.
  - apply id_call_or_fail_ok in H as (A1 & s2 & T2 & H); [|done].
    apply id_call_or_fail_ok in H as (A2 & s3 & T3 & [= <- <-]); [|done].
    rewrite (id_answer_trace _ _ _ _ T1) in A1. rewrite (id_answer_trace _ _ _ _ (id_trace_trans _ _ _ _ _ T1 T2)) in A2.
    split; [exact (id_trace_trans _ _ _ _ _ T1 (id_trace_trans _ _ _ _ _ T2 T3))|done].
  - apply bind_inv in H as (rv & s2 & T2 & H). apply id_syscall_trace in T2 as [T2 _].
    apply bind_inv in H as (r' & s3 & E & H). apply id_call_or_fail_ok in H as (A2 & s4 & T4 & [= <- <-]); [|done].
    assert (id_trace [] s2 s3) as T3.
    { apply id_trace_keeps. destruct (rv =? -1); [by apply (keeps_perror (agree identity)) in E|by injection E as <- <-]. }
    pose proof (id_trace_trans _ _ _ _ _ T1 (id_trace_trans _ _ _ _ _ T2 T3)) as T.
    rewrite (id_answer_trace _ _ _ _ T) in A2. split; [exact (id_trace_trans _ _ _ _ _ T T4)|done].
Qed.

(** When the three calls are answered, so is [set_ids]. *)
Lemma set_ids_runs uid gid pw s :
  (forall k, id_answer k s <> -1) ->
  exists s', set_ids uid gid pw None s = Some (0, s') /\
    id_trace [CallSetgid gid; groups_call pw gid; CallSetuid uid] s s' /\ m_in (req s') = m_in (req s).
Proof.
  intros Ha.
  assert (forall c s, exists s', id_syscall c s = Some (id_answer 0 s, s') /\ m_in (req s') = m_in (req s)) as Hcall.
  { clear. intros c s. unfold id_syscall, id_answer, mbind, M_bind, mod_cred, mod_os, get_cred, get_os, gets, modify, mret, M_ret.
    cbn. destruct (k_ids (s_cred (os s))); cbn; eauto. }
  assert (forall c msg (k : M Z) s, id_answer 0 s <> -1 -> exists s1, id_trace [c] s s1 /\ m_in (req s1) = m_in (req s) /\
    id_call_or_fail c msg k s = k s1) as Hcf.
  { clear -Hcall. intros c msg k s Ha. destruct (Hcall c s) as (s1 & E & Hm). exists s1.
    split; [by apply id_syscall_trace in E as []|]. split; [done|]. unfold id_call_or_fail, mbind, M_bind. rewrite E.
    by rewrite (proj2 (Z.eqb_neq _ _)). }
  unfold set_ids, groups_call. edestruct Hcf as (s1 & T1 & M1 & ->); [apply Ha|].
  case_bool_decide.
  - edestruct Hcf as (s2 & T2 & M2 & ->); [rewrite (id_answer_trace _ _ _ _ T1); apply Ha|].
    pose proof (id_trace_trans _ _ _ _ _ T1 T2) as T.
    edestruct Hcf as (s3 & T3 & M3 & ->); [rewrite (id_answer_trace _ _ _ _ T); apply Ha|].
    exists s3. split; [done|]. split; [exact (id_trace_trans _ _ _ _ _ T T3)|congruence].
  - destruct (Hcall (CallSetgroups gid) s1) as (s2 & E & M2). unfold mbind, M_bind. rewrite E.
    apply id_syscall_trace in E as [T2 _]. pose proof (id_trace_trans _ _ _ _ _ T1 T2) as T.
    rewrite (id_answer_trace _ _ _ _ T1), (proj2 (Z.eqb_neq _ _)) by apply Ha. unfold mret at 1, M_ret at 1.
    edestruct Hcf as (s3 & T3 & M3 & ->); [rewrite (id_answer_trace _ _ _ _ T); apply Ha|].
    exists s3. split; [done|]. split; [exact (id_trace_trans _ _ _ _ _ T T3)|congruence].
Qed.

(** ** Whose identity a worker takes *)

Lemma le32_s32_le_val l : bytes l -> zlen l = 4 -> le32 (s32 (le_val l)) = l.
Proof.
  intros Hb Hz. unfold le32. rewrite <- le_bytes_mod. change (256 ^ Z.of_nat 4) with (2 ^ 32).
  fold (u32 (s32 (le_val l))). rewrite u32_s32. unfold u32. change (2 ^ 32) with (256 ^ Z.of_nat 4).
  rewrite le_bytes_mod. replace 4%nat with (length l) by (unfold zlen in Hz; lia). by apply le_bytes_le_val.
Qed.

Lemma dec_special_run s s1 :
  dec_special s = Some (tt, s1) -> bytes (m_pReqBuf (m_in (req s))) ->
  exists mem', s1 = on_in (set_m_pReqBuf mem') s /\ bytes mem' /\
    (forall o n, 44 <= o -> load mem' o n = load (m_pReqBuf (m_in (req s))) o n).
Proof.
  unfold dec_special, get_field. intros H Hm.
  apply bind_inv in H as (cnt & s2 & H & H2). apply bind_inv in H as (m1 & s3 & [= <- <-] & H).
  unfold lift in H. destruct (load_s32 _ _) as [c|]; [|done]. injection H as <- <-.
  apply bind_inv in H2 as (m2 & s4 & [= <- <-] & H). apply bind_inv in H as (mem' & s5 & H & [= <-]).
  unfold lift in H. destruct (store_32 _ _ _) as [m3|] eqn:E; [|done]. injection H as <- <-.
  unfold store_32 in E. change off_cntSpecialEnv with 40 in E. exists m3. split; [done|]. split.
  - eapply store_Forall; [exact E|done|apply bytes_le_bytes].
  - intros o n Ho. pose proof (store_zlen _ _ _ _ E) as Hz. unfold load. rewrite Hz.
    destruct (in_range o n _) eqn:R; [|done]. apply in_range_spec in R. f_equal.
    apply (store_load_after _ _ _ _ _ _ E); rewrite ?zlen_le32; lia.
Qed.

(** The request holds an authenticated demand for user [u] and group [g]. *)
Definition authentic (s : st) (u g : Z) : Prop :=
  is_s32 u /\ exists pAuth pUgid nonce,
    auth_bytes (m_pReqBuf (m_in (req s))) pAuth pUgid nonce
      (rfc_md5 (nonce ++ take 16 (s_secret (os s)) ++ le32 u ++ le32 g)) (le32 u ++ le32 g).

(** Consecutive special variables stand behind each other in the packet. *)
Definition special_ordered (s : st) : Prop :=
  forall i e1 e2, m_pSpecialEnvList (m_in (req s)) !! i = Some (Some e1) ->
    m_pSpecialEnvList (m_in (req s)) !! S i = Some (Some e2) ->
    44 <= pValue e1 /\ pValue e1 + 8 <= pValue e2.

Lemma mjoin_lookup {A} (l : list (option A)) i x : mjoin (l !! i) = Some x -> l !! i = Some (Some x).
Proof. destruct (l !! i) as [[y|]|]; [by intros [= ->]|done..]. Qed.

Lemma suexec_ids_authentic ctx s u g s' :
  in_ok (md5_in ctx) -> bytes (m_pReqBuf (m_in (req s))) -> bytes (s_secret (os s)) -> zlen (s_secret (os s)) = 24 ->
  special_ordered s ->
  suexec_ids ctx s = Some ((u, g), s') ->
  (u, g) = (s32 (s_defaultUid (s_cred (os s))), s32 (s_defaultGid (s_cred (os s)))) \/ u = 0 \/ authentic s u g.
Proof.
  intros Hctx Hm Hsec Hz Hord H. unfold suexec_ids in H.
  apply bind_inv in H as (duid & s1 & [= <- <-] & H). apply bind_inv in H as (dgid & s1 & [= <- <-] & H).
  apply bind_inv in H as (cnt & s1 & Hcnt & H).
  assert (s1 = s) as ->.
  { unfold get_field in Hcnt. apply bind_inv in Hcnt as (? & ? & [= <- <-] & Hc). by apply lift_inv in Hc as [_ ->]. }
  cbv zeta in H. destruct (Z.ltb_spec (s32 (cnt - 1)) 0) as [Hi|Hi]; [injection H as <- <- <-; by left|].
  apply bind_inv in H as (envs & s1 & [= <- <-] & H). apply bind_inv in H as (e2 & s1 & He2 & H).
  apply lift_inv in He2 as [He2 ->]. apply bind_inv in H as (mem & s1 & [= <- <-] & H).
  apply bind_inv in H as (auth & s1 & Ha & H). apply lift_inv in Ha as [_ ->].
  destruct (negb auth); [injection H as <- <- <-; by left|].
  apply bind_inv in H as ([] & s1 & Hd1 & H). apply dec_special_run in Hd1 as (mem1 & -> & Hb1 & Hl1); [|done].
  apply bind_inv in H as (e1 & s2 & He1 & H). apply lift_inv in He1 as [He1 ->].
  destruct (Z.eqb_spec (s32 (cnt - 1)) 0) as [?|Hi0]; [done|].
  apply bind_inv in H as (mem & s2 & [= <- <-] & H). apply bind_inv in H as (ugid & s2 & Hu & H).
  apply lift_inv in Hu as [_ ->]. destruct (negb ugid); [injection H as <- <- <-; by right; left|].
  apply bind_inv in H as ([] & s2 & Hd2 & H).
  apply dec_special_run in Hd2 as (mem2 & -> & Hb2 & Hl2); [|done].
  apply bind_inv in H as (mem & s2 & [= <- <-] & H).
  apply bind_inv in H as (u' & s2 & Hu & H). apply lift_inv in Hu as [Hu ->].
  apply bind_inv in H as (g' & s2 & Hg & H). apply lift_inv in Hg as [Hg ->].
  apply bind_inv in H as (r & s2 & Hr & H).
  destruct (Z.eqb_spec r 0) as [->|Hne]; [|injection H as <- <- <-; by right; left].
  injection H as <- <- <-. right. right.
  destruct (Hord (Z.to_nat (s32 (cnt - 1) - 1)) e1 e2) as [Hv1 Hv2].
  { by apply mjoin_lookup in He1. }
  { apply mjoin_lookup in He2. by replace (S (Z.to_nat (s32 (cnt - 1) - 1))) with (Z.to_nat (s32 (cnt - 1))) by lia. }
  unfold load_s32 in Hu, Hg. apply fmap_Some in Hu as (bu & Hu & ->). apply fmap_Some in Hg as (bg & Hg & ->).
  change (m_pReqBuf (m_in (req (on_in (set_m_pReqBuf mem2) (on_in (set_m_pReqBuf mem1) s))))) with mem2 in *.
  change (m_pReqBuf (m_in (req (on_in (set_m_pReqBuf mem1) s)))) with mem1 in *.
  pose proof (load_bytes _ _ _ _ Hb2 Hu) as Hbu. pose proof (load_bytes _ _ _ _ Hb2 Hg) as Hbg.
  pose proof (load_zlen _ _ _ _ Hu) as Hzu. pose proof (load_zlen _ _ _ _ Hg) as Hzg.
  pose proof (le32_s32_le_val _ Hbu Hzu) as Eu. pose proof (le32_s32_le_val _ Hbg Hzg) as Eg.
  assert (load mem2 (pValue e1) 8 = Some (bu ++ bg)) as Hug.
  { pose proof (load_inv _ _ _ _ Hu) as (?&?&?&->). pose proof (load_inv _ _ _ _ Hg) as (?&?&?&->).
    rewrite load_Some by lia. f_equal. by apply (slice_split (pValue e1) 4 4); lia. }
  unfold lsapi_suexec_auth in Hr. destruct (Z.ltb_spec (valLen e2) 32) as [Hlen|Hlen]; [done|].
  assert (exists nonce digest, load mem2 (pValue e2) 16 = Some nonce /\ load mem2 (pValue e2 + 16) 16 = Some digest) as (nonce & digest & Hn & Hdig).
  { apply bind_inv in Hr as (? & ? & [= <- <-] & Hr). apply bind_inv in Hr as (? & ? & [= <- <-] & Hr).
    apply bind_inv in Hr as (digest & ? & Hdig & Hr). apply lift_inv in Hdig as [Hdig ->].
    exists (slice (pValue e2) 16 mem2), digest. split; [|exact Hdig].
    apply load_inv in Hdig as (?&?&?&_). apply load_Some; lia. }
  destruct (suexec_auth_run ctx (pValue e2) (valLen e2) (pValue e1) nonce digest (bu ++ bg)
              (on_in (set_m_pReqBuf mem2) (on_in (set_m_pReqBuf mem1) s)) Hctx Hb2 Hsec Hz) as (mem' & E & _); [|done|].
  { split; [done|done|done|lia]. }
  unfold lsapi_suexec_auth in E. rewrite (proj2 (Z.ltb_ge _ _)) in E by done. rewrite E in Hr. clear E.
  case_bool_decide as Hdd; [|done]. clear Hr.
  split; [apply s32_range|]. exists (pValue e2), (pValue e1), nonce. rewrite Eu, Eg.
  change (s_secret (os (on_in (set_m_pReqBuf mem2) (on_in (set_m_pReqBuf mem1) s)))) with (s_secret (os s)) in Hdd.
  rewrite <- Hdd. rewrite Hl2, Hl1 in Hn, Hdig by lia. rewrite Hl2, Hl1 in Hug by lia. split; [done|done|done|lia].
Qed.

Lemma setUID_LVE_no_lve uid gid root s :
  s_lve (s_cred (os s)) = false ->
  setUID_LVE uid gid root s = set_ids uid gid (k_getpwuid (s_cred (os s)) uid) root s.
Proof. intros H. unfold setUID_LVE, mbind, M_bind, get_cred, get_os, gets. by rewrite H. Qed.

Lemma leave_root_spec uid s r s' :
  leave_root uid s = Some (r, s') ->
  r = 0 /\ s_cred (os s') = s_cred (os s) /\ s_uid (os s') = u32 uid /\ m_fdListen (req s') = -1.
Proof.
  unfold leave_root. intros H.
  apply bind_inv in H as ([] & s3 & [= <-] & H). apply bind_inv in H as (fdl & s4 & [= <- <-] & H).
  apply bind_inv in H as ([] & s4 & Hclose & H).
  change (m_fdListen _) with (m_fdListen (req s)) in Hclose.
  assert (s_cred (os s4) = s_cred (os s) /\ s_uid (os s4) = u32 uid /\ m_fdListen (req s4) = -1) as (C1 & C2 & C3).
  { destruct (Z.eqb_spec (m_fdListen (req s)) (-1)) as [E|E].
    - injection Hclose as <-. done.
    - apply bind_inv in Hclose as (x & s5 & Hc5 & [= <-]). apply (keeps_sys_close (agree identity)) in Hc5. injection Hc5 as F1 F2 _.
      split; [exact F1|split; [exact F2|done]]. }
  apply bind_inv in H as (p & s5 & E5 & H). apply bind_inv in H as (q & s6 & E6 & [= <- <-]).
  assert (identity s6 = identity s4) as [= D1 D2 D3].
  { apply (keeps_GetEnv_r (agree identity)) in E5. rewrite <- E5. clear E5. destruct p as [p|]; [|by injection E6 as <- <-].
    apply bind_inv in E6 as (m & s7 & [= <- <-] & E6). apply bind_inv in E6 as (path & s8 & E7 & E6).
    apply lift_inv in E7 as [_ ->]. by apply (keeps_reopen_stderr (agree identity)) in E6. }
  by rewrite D1, D2, D3.
Qed.

(** A worker that starts as root and is told by [lsapi_changeUGid] that all went
    well has given up root: it set its group, then its supplementary groups, then its
    user, in this order and with one pair of ids, its user is that one and is not 0, it
    no longer holds the listening socket, and the ids are the configured defaults or
    those of a demand in the request authenticated with the secret. *)
Lemma changeUGid_drops_root ctx s s' :
  in_ok (md5_in ctx) -> bytes (m_pReqBuf (m_in (req s))) -> bytes (s_secret (os s)) -> zlen (s_secret (os s)) = 24 ->
  special_ordered s ->
  s_uid (os s) = 0 -> s_lve (s_cred (os s)) = false -> 0 < s_defaultUid (s_cred (os s)) < 2 ^ 31 ->
  lsapi_changeUGid ctx s = Some (0, s') ->
  exists u g,
    k_id_calls (s_cred (os s')) = k_id_calls (s_cred (os s)) ++
      [CallSetgid (u32 g); groups_call (k_getpwuid (s_cred (os s)) (u32 u)) (u32 g); CallSetuid (u32 u)] /\
    ids_granted (k_getpwuid (s_cred (os s)) (u32 u)) (u32 g) s /\
    s_uid (os s') = u32 u /\ u32 u <> 0 /\ m_fdListen (req s') = -1 /\
    ((u, g) = (s32 (s_defaultUid (s_cred (os s))), s32 (s_defaultGid (s_cred (os s)))) \/ authentic s u g).
Proof.
  intros Hctx Hm Hsec Hz Hord Hu Hlve Hdef H. unfold lsapi_changeUGid in H.
  apply bind_inv in H as (me & s1 & [= <- <-] & H). rewrite Hu in H. cbn [negb] in H. rewrite Z.eqb_refl in H. cbn [negb] in H.
  apply bind_inv in H as ([u0 g0] & s1 & Hids & H).
  pose proof (suexec_ids_authentic _ _ _ _ _ Hctx Hm Hsec Hz Hord Hids) as Hauth.
  apply (keeps_suexec_ids (agree identity)) in Hids. injection Hids as Hc Hu1 Hf1.
  apply bind_inv in H as (duid & s2 & [= <- <-] & H). apply bind_inv in H as (dgid & s2 & [= <- <-] & H).
  rewrite Hc in H.
  set (pick := if u0 =? 0 then _ else _) in H.
  destruct pick as [u g] eqn:Epick. exists u, g.
  assert (u32 u <> 0 /\ ((u, g) = (s32 (s_defaultUid (s_cred (os s))), s32 (s_defaultGid (s_cred (os s)))) \/ authentic s u g)) as [Hne Hau].
  { subst pick. assert (u32 (s32 (s_defaultUid (s_cred (os s)))) <> 0) as Hd.
    { rewrite u32_s32, u32_id by lia. lia. }
    destruct (Z.eqb_spec u0 0) as [->|Hu0]; injection Epick as <- <-.
    - split; [done|by left].
    - destruct Hauth as [[= -> ->]|[?|Ha]]; [by split; [|left]|done|]. split; [|by right].
      destruct Ha as [Hr _]. rewrite <- (s32_id u0 Hr) in Hu0. intros E0. apply Hu0.
      by rewrite <- s32_u32, E0. }
  clear pick Epick Hauth.
  apply bind_inv in H as (r & s2 & Hset & H).
  rewrite setUID_LVE_no_lve in Hset by (by rewrite Hc). rewrite Hc in Hset.
  destruct (Z.eqb_spec r (-1)) as [->|Hr]; [done|]. apply set_ids_ok in Hset as [[T1 _ _ _] G]; [|done].
  apply leave_root_spec in H as (_ & D1 & D2 & D3). rewrite D1, T1, Hc, D2, D3.
  unfold ids_granted, id_answer in *. rewrite Hc in G. done.
Qed.

(** A worker that is still root, with an authenticated demand for user 5 and group 6. *)
Definition root_packet : request_image :=
  mkImage 0 44 44 44 44
    [(0 :: str "SUEXEC_UGID", [5; 0; 0; 0; 6; 0; 0; 0]);
     (0 :: str "SUEXEC_AUTH", replicate 16 1 ++ auth_digest)] [] (replicate 25 (0, 0)) [] (str "x").

Definition root_state : st :=
  on_os (fun o => set_s_secret (replicate 16 7 ++ replicate 8 0) (set_s_uid 0 o))
    (on_req (set_m_fdListen 0)
      (on_in (set_m_pSpecialEnvList (Some <$> env_entries 44 (ri_special root_packet)))
        (on_in (set_m_pReqBuf (image false false false root_packet (replicate 8 0))) st0))).

Lemma changeUGid_drops_root_witness :
  exists s', lsapi_changeUGid ctx0 root_state = Some (0, s') /\
  exists u g,
    k_id_calls (s_cred (os s')) = [] ++ [CallSetgid (u32 g); groups_call None (u32 g); CallSetuid (u32 u)] /\
    ids_granted None (u32 g) root_state /\
    s_uid (os s') = u32 u /\ u32 u <> 0 /\ m_fdListen (req s') = -1 /\
    ((u, g) = (65534, 65534) \/ authentic root_state u g).
Proof.
  destruct (lsapi_changeUGid ctx0 root_state) as [[r s']|] eqn:E.
  2:{ exfalso. vm_compute in E. discriminate E. }
  assert (r = 0) as -> by (vm_compute in E; by injection E as <- _).
  exists s'. split; [reflexivity|].
  apply (changeUGid_drops_root ctx0 root_state s').
  - split; [reflexivity|]. by apply bytes_b_bytes.
  - apply bytes_b_bytes. by vm_compute.
  - apply bytes_b_bytes. by vm_compute.
  - reflexivity.
  - intros [|[|i]] e1 e2 H1 H2; [|by vm_compute in H2|by vm_compute in H1].
    injection H1 as <-. injection H2 as <-. vm_compute. split; discriminate.
  - reflexivity.
  - reflexivity.
  - split; reflexivity.
  - exact E.
Defined.

(** ** Where stderr may go *)

Lemma check_final_ok c pre p final :
  check_final c pre p = Some final ->
  final = pre ++ p /\ zlen final + 1 <= PATH_MAX /\
  (forall resolved, k_realpath c final = RpOk resolved -> take 5 resolved <> str "/etc/").
Proof.
  unfold check_final. destruct (Z.ltb_spec (PATH_MAX - zlen pre) (zlen p + 1)) as [|Hl]; [done|].
  assert (zlen (pre ++ p) + 1 <= PATH_MAX) by (rewrite zlen_app; lia).
  destruct (k_realpath c (pre ++ p)) as [res|[] rest] eqn:E; cbn [negb orb]; [..|done];
    case_bool_decide; try done; intros [= <-]; (split; [done|]); (split; [done|]); rewrite E; by intros ? [=]; subst.
Qed.

Lemma sys_write_total fd data s : exists r s', sys_write fd data s = Some (r, s').
Proof.
  unfold sys_write, next_write, sys_write_ev, signal_stop, mbind, M_bind, get_os, gets, mod_os, modify, mret, M_ret.
  destruct (k_writes _) as [|[stop [|n|e]] evs]; try destruct stop; cbn; destruct (fd <? 0); eauto.
Qed.

Lemma perror_log p1 p2 s :
  exists s', LSAPI_perror_r false p1 p2 s = Some (0, s') /\ s_stderr_log_path (os s') = s_stderr_log_path (os s).
Proof.
  assert (keeps (fun s => s_stderr_log_path (os s)) (LSAPI_perror_r false p1 p2)) as Hk.
  { unfold LSAPI_perror_r, sys_write, next_write, sys_write_ev, signal_stop. keep. }
  destruct (LSAPI_perror_r false p1 p2 s) as [[r s']|] eqn:E.
  - pose proof (Hk _ _ _ E). exists s'. split; [|done]. unfold LSAPI_perror_r in E.
    apply bind_inv in E as (f & s1 & _ & E). destruct (error_text _) as [a n].
    apply bind_inv in E as (x & s2 & _ & [= <- <-]). done.
  - exfalso. unfold LSAPI_perror_r, mbind, M_bind, get_cred, get_os, gets in E.
    destruct (error_text _) as [a n]. destruct (sys_write_total 2 (slice 0 n a) s) as ([r e] & s' & Hw).
    unfold mbind, M_bind in E. rewrite Hw in E. done.
Qed.

(** An accepted log path. *)
Definition log_path_ok (c : cred) (p final : list Z) : Prop :=
  zlen final + 1 <= PATH_MAX /\
  (final = p /\ p !! 0%nat = Some 47 \/ exists cwd, k_getcwd c = Some cwd /\ final = cwd ++ [47] ++ p) /\
  (forall resolved, k_realpath c final = RpOk resolved -> take 5 resolved <> str "/etc/").

(** The custom stderr log: a path is accepted only when it is absolute, as given or
    below the current directory, fits the 4096 bytes of the buffer with its NUL, and
    does not resolve below [/etc/]; a process that is root, and every refused path,
    leaves the log as it was and answers -1. *)
Theorem reopen_stderr_checks p s :
  let c := s_cred (os s) in
  (forall final, lsapi_check_path c p = Some final -> log_path_ok c p final) /\
  (s_uid (os s) = 0 \/ lsapi_check_path c p = None ->
     exists s', lsapi_reopen_stderr p s = Some (-1, s') /\ s_stderr_log_path (os s') = s_stderr_log_path (os s)).
Proof.
  intros c. split.
  - intros final H. unfold lsapi_check_path in H. unfold log_path_ok. case_bool_decide.
    + apply check_final_ok in H as (-> & ? & ?). auto.
    + apply bind_Some in H as (cwd & Hcwd & H). apply check_final_ok in H as (-> & ? & ?).
      split; [done|]. split; [|done]. right. exists cwd. by rewrite <- app_assoc.
  - intros Hno. unfold lsapi_reopen_stderr. unfold mbind at 1, M_bind, get_os, gets.
    destruct (Z.eqb_spec (s_uid (os s)) 0) as [|Hne]; [by exists s|].
    destruct Hno as [?|Hnone]; [done|]. unfold mbind at 1, M_bind. fold c. rewrite Hnone.
    unfold mbind at 1, M_bind. destruct (perror_log (str "Invalid custom stderr log path") p s) as (s' & -> & Hs).
    by exists s'.
Qed.

Lemma reopen_stderr_checks_witness :
  lsapi_check_path cred0 (str "/tmp/e") = Some (str "/tmp/e") /\ zlen (str "/tmp/e") + 1 <= PATH_MAX /\
  exists s', lsapi_reopen_stderr (str "/tmp/e") (on_os (set_s_uid 0) st0) = Some (-1, s') /\
    s_stderr_log_path (os s') = false.
Proof.
  split; [reflexivity|]. split.
  - apply (proj1 (reopen_stderr_checks (str "/tmp/e") st0) (str "/tmp/e") eq_refl).
  - apply (proj2 (reopen_stderr_checks (str "/tmp/e") (on_os (set_s_uid 0) st0)) (or_introl eq_refl)).
Defined.
