(* ===== verification/ReqRead.v ===== *)
(** * Reading requests from a connection

    [readReq], the notifications of lsapilib.c, the body readers and
    [LSAPI_Accept_r]. *)

From S2P Require Export SuExec.

Open Scope Z_scope.

(** ** Notifications *)

Definition send_notification_pkt (fd : Z) (pkt : list Z) : M Z :=
  '(n, _) ← sys_write fd pkt;
  if n <? LSAPI_PACKET_HEADER_LEN then mret (-1) else mret 0.

Definition send_req_received_notification (fd : Z) : M Z := send_notification_pkt fd (pkt_bytes s_ack).
Definition send_conn_close_notification (fd : Z) : M Z := send_notification_pkt fd (pkt_bytes s_conn_close_pkt).

(** [alarm(2)] is left out: the handler it would run is commented out. *)
Definition lsapi_schedule_notify : M Z :=
  done ← get_os s_notify_scheduled;
  (if negb (done : bool) then mod_os (set_s_notify_scheduled true) else mret tt) ;;
  mret 0.

Definition notify_req_received (fd : Z) : M Z :=
  schedule ← get_os s_schedule_notify;
  if schedule : bool then lsapi_schedule_notify else send_req_received_notification fd.

Definition lsapi_notify_pid (pid fd : Z) : M Z :=
  let header := lsapi_buildPacketHeader LSAPI_STDERR_STREAM (8 + LSAPI_PACKET_HEADER_LEN) in
  '(n, _) ← sys_write fd (pkt_bytes header ++ [0; 80; 73; 68] ++ le32 pid);
  if n <? 16 then mret (-1) else mret 0.

(** ** [readReq] *)

(** Store [bs] at [off] of the request buffer. *)
Definition fill_buf (off : Z) (bs : list Z) : M unit :=
  mem ← get_in m_pReqBuf;
  mem ← lift (store mem off bs);
  mod_in (set_m_pReqBuf mem) ;;
  mod_in (fun i => set_m_bufRead (s32 (m_bufRead i + zlen bs)) i).

(** The first loop: until a packet header is there.  Every read is put at the start of
    the buffer.  Each turn adds at least one byte, so 8 turns are enough. *)
Fixpoint read_header_loop (fuel : nat) : M Z :=
  n ← get_in m_bufRead;
  if negb (n <? LSAPI_PACKET_HEADER_LEN) then mret 0
  else
    match fuel with
    | O => ub
    | S fuel =>
        mem ← get_in m_pReqBuf;
        '(len, bs) ← lsapi_read (zlen mem);
        if len <=? 0 then mret (-1)
        else fill_buf 0 bs ;; read_header_loop fuel
    end.

(** The second loop: until the whole packet is there. *)
Fixpoint read_packet_loop (fuel : nat) (packetLen : Z) : M Z :=
  n ← get_in m_bufRead;
  if negb (n <? packetLen) then mret 0
  else
    match fuel with
    | O => ub
    | S fuel =>
        '(len, bs) ← lsapi_read (packetLen - n);
        if len <=? 0 then mret (-1)
        else fill_buf n bs ;; read_packet_loop fuel packetLen
    end.

(** [if (m_reqBufSize < size) allocateBuf(size)]. *)
Definition ensure_buf (size : Z) : M Z :=
  mem ← get_in m_pReqBuf;
  if zlen mem <? size then allocateBuf size else mret 0.

(** What follows the parsed request. *)
Definition after_parse (ctx : lsapi_MD5Context) (packetLen : Z) : M Z :=
  mod_req (set_m_reqState (Z.lor LSAPI_ST_REQ_BODY LSAPI_ST_RESP_HEADER)) ;;
  uid ← get_os s_uid;
  r ← (if uid =? 0 then
         r ← lsapi_changeUGid ctx;
         (if r =? 0 then mod_os (set_s_secret (replicate 24 0)) else mret tt) ;;
         mret r
       else mret 0);
  if negb (r =? 0) then mret (-1)
  else
    mod_in (set_m_bufProcessed packetLen) ;;
    accept_notify ← get_os s_accept_notify;
    notified_pid ← get_os s_notified_pid;
    if negb accept_notify && negb notified_pid then
      fd ← get_req m_fd; notify_req_received fd
    else mod_os (set_s_notified_pid false) ;; mret 0.

Definition readReq (ctx : lsapi_MD5Context) : M Z :=
  r ← ensure_buf 8192;
  if r =? -1 then mret (-1)
  else
    r ← read_header_loop 8;
    if r =? -1 then mret (-1)
    else
      mod_req (set_m_reqState LSAPI_ST_REQ_HEADER) ;;
      mem ← get_in m_pReqBuf;
      '(packetLen, mem) ← lift (verifyHeader mem LSAPI_BEGIN_REQUEST);
      mod_in (set_m_pReqBuf mem) ;;
      if packetLen <? 0 then mret (-1)
      else if LSAPI_MAX_HEADER_LEN <? packetLen then mret (-1)
      else
        r ← ensure_buf (packetLen + 1024);
        if r =? -1 then mret (-1)
        else
          r ← read_packet_loop (Z.to_nat packetLen) packetLen;
          if r =? -1 then mret (-1)
          else
            r ← parseRequest packetLen;
            if r <? 0 then mret (-1) else after_parse ctx packetLen.

(** ** The body *)

Definition readBodyToReqBuf : M Z :=
  i ← get_in id;
  let len := m_bufRead i - m_bufProcessed i in
  if 0 <? len then mret len
  else
    mem ← get_in m_pReqBuf;
    packetLen ← lift (load_s32 mem 4);
    mod_in (fun i => set_m_bufRead packetLen (set_m_bufProcessed packetLen i)) ;;
    let bodyLeft := m_reqBodyLen i - m_reqBodyRead i in
    let len := zlen mem - packetLen in
    if len <? 0 then mret (-1)
    else
      let len := if bodyLeft <? len then bodyLeft else len in
      '(len, bs) ← lsapi_read len;
      (if 0 <? len then fill_buf packetLen bs else mret tt) ;;
      mret len.

(** [++m_reqBodyRead; return *(m_pReqBuf + m_bufProcessed++)]. *)
Definition next_char : M Z :=
  mod_in (fun i => set_m_reqBodyRead (m_reqBodyRead i + 1) i) ;;
  i ← get_in id;
  b ← lift (load8 (m_pReqBuf i) (m_bufProcessed i));
  mod_in (fun i => set_m_bufProcessed (m_bufProcessed i + 1) i) ;;
  mret b.

(** EOF is -1. *)
Definition LSAPI_ReqBodyGetChar_r : M Z :=
  fd ← get_req m_fd;
  if fd =? -1 then mret (-1)
  else
    i ← get_in id;
    r ← (if m_bufRead i <=? m_bufProcessed i then readBodyToReqBuf else mret 1);
    if r <=? 0 then mret (-1) else next_char.

(** [memchr(p, '\n', len)]: the number of bytes up to and with the newline. *)
Fixpoint upto_newline (l : list Z) : option Z :=
  match l with
  | [] => None
  | b :: l => if b =? 10 then Some 1 else Z.add 1 <$> upto_newline l
  end.

Definition take_body (len : Z) : M unit :=
  mod_in (fun i => set_m_bufProcessed (m_bufProcessed i + len) i) ;;
  mod_in (fun i => set_m_reqBodyRead (m_reqBodyRead i + len) i).

(** The loop: [acc] is what was copied, [room] what is left before the end of the
    buffer.  The answer is the line and the value of [getLF]. *)
Fixpoint GetLine_loop (fuel : nat) (room : Z) (acc : list Z) : M (list Z * Z) :=
  if room <=? 0 then mret (acc, 0)
  else
    match fuel with
    | O => ub
    | S fuel =>
        i ← get_in id;
        let len := m_bufRead i - m_bufProcessed i in
        len ← (if len <=? 0 then readBodyToReqBuf else mret len);
        if len <=? 0 then mret (acc, 1)
        else
          let len := if room <? len then room else len in
          i ← get_in id;
          bs ← lift (load (m_pReqBuf i) (m_bufProcessed i) len);
          match upto_newline bs with
          | Some n => take_body n ;; mret (acc ++ slice 0 n bs, 1)
          | None => take_body len ;; GetLine_loop fuel (room - len) (acc ++ bs)
          end
    end.

(** The answer, the bytes put into the caller's buffer (its NUL behind them) and
    [getLF]; a buffer of no bytes would be written to. *)
Definition LSAPI_ReqBodyGetLine_r (bufLen : Z) : M (Z * list Z * Z) :=
  fd ← get_req m_fd;
  if fd =? -1 then mret (-1, [], 0)
  else if bufLen <=? 0 then ub
  else
    '(line, lf) ← GetLine_loop (Z.to_nat bufLen) (bufLen - 1) [];
    mret (zlen line, line, lf).

(** The loop that reads past the buffered bytes. *)
Fixpoint ReadReqBody_loop (fuel : nat) (bufLen : Z) (acc : list Z) : M (Z * list Z) :=
  if bufLen <=? 0 then mret (zlen acc, acc)
  else
    match fuel with
    | O => ub
    | S fuel =>
        '(len, bs) ← lsapi_read bufLen;
        if 0 <? len then ReadReqBody_loop fuel (bufLen - len) (acc ++ bs)
        else if zlen acc =? 0 then mret (-1, [])
        else mret (zlen acc, acc)
    end.

(** At most [bufLen] of the buffered bytes. *)
Definition take_buffered (bufLen : Z) : M (list Z) :=
  i ← get_in id;
  let len := m_bufRead i - m_bufProcessed i in
  if 0 <? len then
    let len := if bufLen <? len then bufLen else len in
    bs ← lift (load (m_pReqBuf i) (m_bufProcessed i) len);
    mod_in (fun i => set_m_bufProcessed (m_bufProcessed i + len) i) ;;
    mret bs
  else mret [].

(** The answer and the bytes put into the caller's buffer; [bufLen] as [ssize_t]. *)
Definition LSAPI_ReadReqBody_r (bufLen : Z) : M (Z * list Z) :=
  fd ← get_req m_fd;
  if (fd =? -1) || (bufLen <? 0) then mret (-1, [])
  else
    i ← get_in id;
    let total := m_reqBodyLen i - m_reqBodyRead i in
    if total <=? 0 then mret (0, [])
    else
      let bufLen := if total <? bufLen then total else bufLen in
      acc ← take_buffered bufLen;
      '(ret, bytes) ← ReadReqBody_loop (Z.to_nat bufLen) (bufLen - zlen acc) acc;
      (if ret =? -1 then mret tt
       else mod_in (fun i => set_m_reqBodyRead (m_reqBodyRead i + ret) i)) ;;
      mret (ret, bytes).

(** ** Accessors of lsapilib.h *)

Definition LSAPI_SetAppData_r (data : Z) : M Z := mod_req (set_m_pAppData data) ;; mret 0.
Definition LSAPI_GetAppData_r : M Z := get_req m_pAppData.
Definition LSAPI_GetQueryString_r : M (option Z) := get_in m_pQueryString.
Definition LSAPI_GetScriptFileName_r : M (option Z) := get_in m_pScriptFile.
Definition LSAPI_GetScriptName_r : M (option Z) := get_in m_pScriptName.
Definition LSAPI_GetRequestMethod_r : M (option Z) := get_in m_pRequestMethod.
Definition LSAPI_GetReqBodyLen_r : M Z := get_in m_reqBodyLen.
Definition LSAPI_GetReqBodyRemain_r : M Z := get_in (fun i => m_reqBodyLen i - m_reqBodyRead i).

(** ** [LSAPI_Accept_r] *)

(** [accept]: the connection, or -1 with whether the caller tries again. *)
Definition sys_accept : M accept_res :=
  l ← get_os k_accepts;
  match l with
  | [] => mret AccErr
  | a :: l => mod_os (set_k_accepts l) ;; mret a
  end.

(** A new connection: counted, and acknowledged when that is configured. *)
Definition new_connection (fd : Z) : M Z :=
  mod_req (set_m_fd fd) ;;
  worker_state LSAPI_STATE_CONNECTED ;;
  count_busy 1 ;;
  notify ← get_os s_accept_notify;
  if notify : bool then notify_req_received fd else mret 0.

(** Every turn but the first takes an answer of [accept]. *)
Fixpoint Accept_loop (fuel : nat) (ctx : lsapi_MD5Context) : M Z :=
  running ← get_os g_running;
  if negb running then mret 0
  else
    match fuel with
    | O => ub
    | S fuel =>
        let read :=
          r ← readReq ctx;
          if r =? 0 then mret 0
          else lsapi_close_connection ;; LSAPI_Reset_r ;; Accept_loop fuel ctx in
        fd ← get_req m_fd;
        if fd =? -1 then
          fdl ← get_req m_fdListen;
          if fdl =? -1 then mret (-1)
          else
            a ← sys_accept;
            match a with
            | AccRetry => Accept_loop fuel ctx
            | AccErr => mret (-1)
            | AccConn fd _ =>
                r ← new_connection fd;
                if r =? -1 then mret (-1) else read
            end
        else read
    end.

Definition LSAPI_Accept_r (ctx : lsapi_MD5Context) : M Z :=
  r ← LSAPI_Finish_r;
  if r =? -1 then mret (-1)
  else
    l ← get_os k_accepts;
    Accept_loop (2 + length l) ctx.
