(* ===== verification/ReqReadSpec.v ===== *)
(** * What reading from a connection promises

    The body of a request is one sequence of bytes, however the kernel cuts it: what a
    reader hands out is a prefix of it, and what is left is the rest.  A request packet
    is read whole, in whatever pieces, provided the first piece holds a packet header. *)

From S2P Require Export ReqRead ReqParseSpec.

Open Scope Z_scope.

#[global] Arguments load8 : simpl never.

(** ** The kernel's side *)

(** A peer that only sends data, with reads that may be interrupted by a signal. *)
Definition benign_ev (ev : rev) : Prop :=
  r_stop ev = false /\ match r_res ev with RData bs => bs <> [] | RErr e => e = EINTR | REof => False end.

Fixpoint data (evs : list rev) : list Z :=
  match evs with
  | [] => []
  | ev :: evs => match r_res ev with RData bs => bs | _ => [] end ++ data evs
  end.

Record peer_ok (s : st) : Prop := {
  po_running : g_running (os s) = true;
  po_reads : Forall benign_ev (k_reads (os s))
}.

Definition incoming (s : st) : list Z := data (k_reads (os s)).
Definition with_reads (evs : list rev) (s : st) : st := on_os (set_k_reads evs) s.

Lemma with_reads_twice e1 e2 s : with_reads e1 (with_reads e2 s) = with_reads e1 s.
Proof. by destruct s as [? []]. Qed.
Lemma with_reads_id s : with_reads (k_reads (os s)) s = s.
Proof. by destruct s as [? []]. Qed.

Lemma read_loop_spec evs : forall len s,
  0 < len -> g_running (os s) = true -> Forall benign_ev evs -> k_reads (os s) = evs ->
  exists n evs', Forall benign_ev evs' /\ 0 <= n <= len /\ n <= zlen (data evs) /\ (n = 0 -> data evs = []) /\
    data evs' = drop (Z.to_nat n) (data evs) /\
    read_loop evs len s = Some ((n, slice 0 n (data evs)), with_reads evs' s).
Proof.
  induction evs as [|[stop res] evs IH]; intros len s Hlen Hrun Hev Hk.
  - exists 0, []. assert (with_reads [] s = s) as -> by (rewrite <- Hk; apply with_reads_id). repeat split; try done; lia.
  - apply Forall_cons in Hev as [[Hstop Hres] Hev]. cbn [r_stop r_res] in *. subst stop.
    destruct res as [bs| |e]; [|done|].
    + set (n := Z.min len (zlen bs)).
      assert (0 < zlen bs) as Hpos.
      { destruct bs; [done|]. rewrite zlen_cons. pose proof (zlen_nonneg bs). lia. }
      set (rest := drop (Z.to_nat n) bs).
      exists n, (match rest with [] => evs | _ => mkRev false (RData rest) :: evs end).
      cbn [data r_res]. rewrite zlen_app. pose proof (zlen_nonneg (data evs)).
      split; [destruct rest eqn:E; [done|]; constructor; [by split|done]|].
      split; [lia|]. split; [lia|]. split; [lia|]. split.
      * rewrite drop_app_le by (unfold zlen in *; lia). fold rest. destruct rest; done.
      * cbn [read_loop]. unfold sys_read_ev, signal_stop. cbn [r_stop r_res].
        unfold mbind, M_bind, mret, M_ret, mod_os, modify, get_os, gets. fold n rest.
        rewrite slice_app_l by lia. rewrite (proj2 (Z.eqb_neq n (-1))) by lia. done.
    + subst e. destruct (IH len (with_reads evs s) Hlen Hrun Hev) as (n & evs' & Hb & ? & ? & ? & Hd & E).
      { by destruct s as [? []]. }
      exists n, evs'. cbn [data r_res app]. do 5 (split; [done|]).
      cbn [read_loop]. unfold sys_read_ev, signal_stop. cbn [r_stop r_res].
      unfold mbind, M_bind, mret, M_ret, mod_os, modify, get_os, gets.
      change (on_os (set_k_reads evs) s) with (with_reads evs s).
      replace (g_running (os (with_reads evs s))) with true by (by destruct s as [? []]).
      cbn [andb is_eintr]. change (-1 =? -1) with true. unfold is_eintr. rewrite bool_decide_true by done. cbn [andb].
      rewrite E, with_reads_twice. done.
Qed.

(** One [lsapi_read] hands out a non-empty prefix of what is coming, or tells that
    nothing is. *)
Lemma lsapi_read_spec len s :
  0 < len -> peer_ok s ->
  exists n evs', Forall benign_ev evs' /\ 0 <= n <= len /\ n <= zlen (incoming s) /\ (n = 0 -> incoming s = []) /\
    data evs' = drop (Z.to_nat n) (incoming s) /\
    lsapi_read len s = Some ((n, slice 0 n (incoming s)), with_reads evs' s).
Proof.
  intros Hlen [Hrun Hr]. unfold lsapi_read. rewrite (proj2 (Z.ltb_ge _ _)), (proj2 (Z.eqb_neq _ _)) by lia.
  unfold mbind, M_bind, get_os, gets. by apply read_loop_spec.
Qed.

Lemma peer_ok_reads evs s : peer_ok s -> Forall benign_ev evs -> peer_ok (with_reads evs s).
Proof. intros [H _] He. by destruct s as [? []]. Qed.
Lemma incoming_reads evs s : incoming (with_reads evs s) = data evs.
Proof. by destruct s as [? []]. Qed.

(** ** The body as one sequence of bytes *)

Lemma bind_assoc_run {A B C} (m : M A) (k : A -> M B) (g : B -> M C) s b s1 :
  (m ≫= k) s = Some (b, s1) -> (m ≫= fun a => k a ≫= g) s = g b s1.
Proof. unfold mbind, M_bind. destruct (m s) as [[a s2]|]; [|done]. by intros ->. Qed.


Definition buffered (i : req_in) : list Z := slice (m_bufProcessed i) (m_bufRead i - m_bufProcessed i) (m_pReqBuf i).
Definition body_left (i : req_in) : Z := m_reqBodyLen i - m_reqBodyRead i.

(** What the readers of the body can still hand out. *)
Definition body (s : st) : list Z :=
  take (Z.to_nat (body_left (m_in (req s)))) (buffered (m_in (req s)) ++ incoming s).

(** A request whose body is being read: the packet's length stands in its header, the
    buffer has room, and no byte behind the body is buffered. *)
Record body_ok (s : st) : Prop := {
  bo_fd : m_fd (req s) <> -1;
  bo_peer : peer_ok s;
  bo_size : 0 <= m_bufProcessed (m_in (req s)) <= m_bufRead (m_in (req s)) /\
            m_bufRead (m_in (req s)) <= zlen (m_pReqBuf (m_in (req s))) < 2 ^ 31;
  bo_left : zlen (buffered (m_in (req s))) <= body_left (m_in (req s));
  bo_packet : exists p, load_s32 (m_pReqBuf (m_in (req s))) 4 = Some p /\
                8 <= p <= m_bufProcessed (m_in (req s)) /\ p < zlen (m_pReqBuf (m_in (req s)))
}.

Lemma zlen_buffered s : body_ok s -> zlen (buffered (m_in (req s))) = m_bufRead (m_in (req s)) - m_bufProcessed (m_in (req s)).
Proof. intros [_ _ [? ?] _ _]. unfold buffered. apply zlen_slice; lia. Qed.

Lemma slice_drop {A} off n k (l : list A) : 0 <= off -> 0 <= k -> slice (off + k) (n - k) l = drop (Z.to_nat k) (slice off n l).
Proof.
  intros. unfold slice.
  rewrite skipn_firstn_comm, drop_drop. f_equal; [lia|]. f_equal. lia.
Qed.

Lemma drop_min {A} (l : list A) (a b : Z) :
  b = Z.min a (zlen l) -> drop (Z.to_nat a) l = drop (Z.to_nat b) l.
Proof.
  intros ->. destruct (Z.leb_spec a (zlen l)); [by rewrite Z.min_l by lia|].
  rewrite Z.min_r by lia. unfold zlen in *. rewrite !drop_ge by lia. done.
Qed.

Lemma take_body_app {A} (B I : list A) k : 0 <= k ->
  take (Z.to_nat (Z.min k (zlen B))) B ++ take (Z.to_nat (k - Z.min k (zlen B))) I = take (Z.to_nat k) (B ++ I).
Proof.
  intros. rewrite firstn_app. f_equal.
  - unfold zlen. destruct (Z.leb_spec k (Z.of_nat (length B))); [by rewrite Z.min_l by lia|].
    rewrite !take_ge by lia. done.
  - f_equal. unfold zlen. lia.
Qed.

Lemma ReadReqBody_loop_spec fuel : forall bufLen acc s,
  0 <= bufLen -> (Z.to_nat bufLen <= fuel)%nat -> peer_ok s ->
  exists evs', Forall benign_ev evs' /\
    data evs' = drop (Z.to_nat (Z.min bufLen (zlen (incoming s)))) (incoming s) /\
    ReadReqBody_loop fuel bufLen acc s =
      Some (if (0 <? bufLen) && (zlen (acc ++ incoming s) =? 0) then (-1, [])
            else let out := acc ++ take (Z.to_nat bufLen) (incoming s) in (zlen out, out), with_reads evs' s).
Proof.
  induction fuel as [|fuel IH]; intros bufLen acc s Hb Hf Hp.
  - assert (bufLen = 0) as -> by lia. exists (k_reads (os s)). rewrite with_reads_id.
    split; [apply Hp|]. pose proof (zlen_nonneg (incoming s)). rewrite Z.min_l by lia. split; [done|].
    cbn. by rewrite app_nil_r.
  - cbn [ReadReqBody_loop]. destruct (Z.leb_spec bufLen 0) as [Hz|Hz].
    { assert (bufLen = 0) as -> by lia. exists (k_reads (os s)). rewrite with_reads_id.
      split; [apply Hp|]. pose proof (zlen_nonneg (incoming s)). rewrite Z.min_l by lia. split; [done|].
      cbn. by rewrite app_nil_r. }
    destruct (lsapi_read_spec bufLen s Hz Hp) as (n & evs1 & He1 & Hn & Hn2 & Hn0 & Hd & E).
    unfold mbind, M_bind. rewrite E. rewrite (proj2 (Z.ltb_lt 0 bufLen)) by done. cbn [andb].
    destruct (Z.ltb_spec 0 n) as [Hpos|Hpos].
    + destruct (IH (bufLen - n) (acc ++ slice 0 n (incoming s)) (with_reads evs1 s)) as (evs' & He' & Hd' & E');
        [lia|lia|by apply peer_ok_reads|].
      rewrite incoming_reads, Hd in *. exists evs'. split; [done|]. split.
      * rewrite Hd', drop_drop. f_equal. unfold zlen in *. rewrite length_drop. lia.
      * rewrite E', with_reads_twice.
        assert (zlen (incoming s) <> 0) by lia. pose proof (zlen_nonneg acc).
        rewrite (proj2 (Z.eqb_neq (zlen (acc ++ incoming s)) 0)) by (rewrite zlen_app; lia).
        rewrite (proj2 (Z.eqb_neq (zlen _) 0)).
        2:{ rewrite !zlen_app, zlen_slice by lia. pose proof (zlen_nonneg (drop (Z.to_nat n) (incoming s))). lia. }
        rewrite andb_false_r. cbv zeta.
        assert ((acc ++ slice 0 n (incoming s)) ++ take (Z.to_nat (bufLen - n)) (drop (Z.to_nat n) (incoming s)) =
                acc ++ take (Z.to_nat bufLen) (incoming s)) as ->; [|done].
        rewrite <- app_assoc. f_equal. unfold slice. rewrite drop_0, take_take_drop. f_equal. lia.
    + assert (n = 0) as -> by lia. rewrite Hn0 in * by done. exists evs1. split; [done|]. split; [by rewrite Hd, !drop_nil|].
      rewrite app_nil_r, take_nil, app_nil_r. by destruct (zlen acc =? 0).
Qed.

Lemma take_buffered_spec k s :
  body_ok s -> 0 <= k ->
  let B := buffered (m_in (req s)) in
  let n := Z.min k (zlen B) in
  take_buffered k s = Some (take (Z.to_nat n) B, on_in (fun i => set_m_bufProcessed (m_bufProcessed i + n) i) s).
Proof.
  intros Hok Hk B n. pose proof (zlen_buffered s Hok) as Hz. destruct Hok as [_ _ [Hs1 Hs2] _ _].
  set (i := m_in (req s)) in *. fold B in Hz. pose proof (zlen_nonneg B).
  unfold take_buffered, mbind, M_bind, get_in, gets. change (id ?x) with x. fold i. rewrite <- Hz.
  destruct (Z.ltb_spec 0 (zlen B)) as [Hpos|Hpos].
  - assert ((if k <? zlen B then k else zlen B) = n) as -> by (subst n; destruct (Z.ltb_spec k (zlen B)); lia).
    rewrite load_Some by lia. unfold lift, mod_in, modify, mret, M_ret. cbn [fmap option_fmap option_map].
    do 2 f_equal. subst B. unfold buffered, slice. rewrite firstn_firstn. f_equal. lia.
  - assert (n = 0) as -> by lia. unfold mret, M_ret. do 2 f_equal.
    destruct s as [[? ? ? [] ? ?] ?]. unfold on_in, on_req, set_req. cbn. by rewrite Z.add_0_r.
Qed.

(** Handing out [n] buffered bytes and, when that was all of them, [m] more. *)
Lemma body_advance n m evs s :
  body_ok s -> 0 <= n <= zlen (buffered (m_in (req s))) -> 0 <= m <= zlen (incoming s) ->
  m = 0 \/ n = zlen (buffered (m_in (req s))) -> n + m <= body_left (m_in (req s)) ->
  Forall benign_ev evs -> data evs = drop (Z.to_nat m) (incoming s) ->
  let s' := with_reads evs (on_in (fun i => set_m_reqBodyRead (m_reqBodyRead i + (n + m))
                                     (set_m_bufProcessed (m_bufProcessed i + n) i)) s) in
  body s' = drop (Z.to_nat (n + m)) (body s) /\ body_ok s'.
Proof.
  intros Hok Hn Hm Hor HL He Hd s'. pose proof (zlen_buffered s Hok) as Hz.
  destruct Hok as [Hfd Hp [Hs1 Hs2] Hl (p & Hpk & Hp1 & Hp2)].
  set (i := m_in (req s)) in *. set (B := buffered i) in *. set (I := incoming s) in *.
  assert (buffered (m_in (req s')) = drop (Z.to_nat n) B) as HB2.
  { unfold buffered. subst s'. cbn. fold i. replace (m_bufRead i - (m_bufProcessed i + n)) with ((m_bufRead i - m_bufProcessed i) - n) by lia.
    by rewrite slice_drop by lia. }
  assert (body_left (m_in (req s')) = body_left i - (n + m)) as HL2 by (unfold body_left; cbn; fold i; lia).
  assert (incoming s' = drop (Z.to_nat m) I) as HI2 by (subst s'; by rewrite incoming_reads).
  split.
  - unfold body. fold i B I. rewrite HB2, HL2, HI2, skipn_firstn_comm. f_equal; [lia|].
    rewrite skipn_app. f_equal; [|f_equal; unfold zlen in *; lia].
    destruct Hor as [-> | ->]; [f_equal; lia|]. unfold zlen. rewrite !drop_ge by lia. done.
  - split.
    + done.
    + subst s'. destruct Hp as [Hr _]. split; [exact Hr|exact He].
    + cbn. fold i. lia.
    + rewrite HB2, HL2. unfold zlen in *. rewrite length_drop. lia.
    + exists p. cbn. fold i. split; [done|lia].
Qed.

Lemma body_nil s : body_ok s -> 0 < body_left (m_in (req s)) ->
  bool_decide (body s = []) = (zlen (buffered (m_in (req s)) ++ incoming s) =? 0).
Proof.
  intros Hok HL. unfold body. destruct (Z.eqb_spec (zlen (buffered (m_in (req s)) ++ incoming s)) 0) as [E|E].
  - apply zlen_0_inv in E. by rewrite E, take_nil.
  - apply bool_decide_eq_false_2. intros E1. apply (f_equal zlen) in E1. rewrite zlen_take in E1 by lia.
    change (zlen (@nil Z)) with 0 in E1. pose proof (zlen_nonneg (buffered (m_in (req s)) ++ incoming s)). lia.
Qed.

(** The two phases together: [k] is what is asked for and left. *)
Lemma read_phases k s :
  body_ok s -> 0 <= k <= body_left (m_in (req s)) ->
  exists evs n m, let out := take (Z.to_nat k) (body s) in
    (acc ← take_buffered k; ReadReqBody_loop (Z.to_nat k) (k - zlen acc) acc) s =
      Some (if (0 <? k) && bool_decide (body s = []) then (-1, []) else (zlen out, out),
            with_reads evs (on_in (fun i => set_m_bufProcessed (m_bufProcessed i + n) i) s)) /\
    zlen out = n + m /\ 0 <= n <= zlen (buffered (m_in (req s))) /\ 0 <= m <= zlen (incoming s) /\
    (m = 0 \/ n = zlen (buffered (m_in (req s)))) /\ Forall benign_ev evs /\ data evs = drop (Z.to_nat m) (incoming s).
Proof.
  intros Hok Hk. set (B := buffered (m_in (req s))). set (I := incoming s).
  pose proof (take_buffered_spec k s Hok ltac:(lia)) as Etb. cbv zeta in Etb. fold B in Etb.
  set (n := Z.min k (zlen B)) in *. set (s1 := on_in _ s) in Etb.
  pose proof (zlen_nonneg B). pose proof (zlen_nonneg I).
  assert (zlen (take (Z.to_nat n) B) = n) as Hz0 by (rewrite zlen_take; lia).
  assert (peer_ok s1) as Hp1 by (destruct (bo_peer s Hok) as [X Y]; split; [exact X|exact Y]).
  destruct (ReadReqBody_loop_spec (Z.to_nat k) (k - n) (take (Z.to_nat n) B) s1) as (evs & He & Hd & E); [lia|lia|done|].
  change (incoming s1) with I in *. exists evs, n, (Z.min (k - n) (zlen I)). cbv zeta.
  assert (take (Z.to_nat k) (body s) = take (Z.to_nat n) B ++ take (Z.to_nat (k - n)) I) as Hout.
  { subst n. rewrite take_body_app by lia. unfold body. fold B I. rewrite firstn_firstn. f_equal. lia. }
  split; [|split; [|split; [lia|split; [lia|split; [|done]]]]].
  - unfold mbind, M_bind. rewrite Etb, Hz0, E, <- Hout.
    assert ((0 <? k - n) && (zlen (take (Z.to_nat n) B ++ I) =? 0) = (0 <? k) && bool_decide (body s = [])) as ->; [|done].
    destruct (Z.ltb_spec 0 k); [|by rewrite (proj2 (Z.ltb_ge 0 (k - n))) by lia].
    rewrite body_nil by (done || lia). fold B I. rewrite !zlen_app, Hz0.
    destruct (Z.ltb_spec 0 (k - n)), (Z.eqb_spec (n + zlen I) 0), (Z.eqb_spec (zlen B + zlen I) 0); done || lia.
  - rewrite Hout, zlen_app, Hz0, zlen_take by lia. done.
  - destruct (Z.leb_spec k (zlen B)); lia.
Qed.

Lemma ReadReqBody_r_run bufLen s :
  body_ok s -> 0 <= bufLen ->
  exists s',
    LSAPI_ReadReqBody_r bufLen s =
      Some (if (0 <? body_left (m_in (req s))) && (0 <? bufLen) && bool_decide (body s = []) then (-1, [])
            else let bs := take (Z.to_nat bufLen) (body s) in (zlen bs, bs), s') /\
    body s' = drop (Z.to_nat bufLen) (body s) /\ body_ok s'.
Proof.
  intros Hok Hlen. set (L := body_left (m_in (req s))).
  unfold LSAPI_ReadReqBody_r. unfold mbind at 1, M_bind, get_req, gets at 1.
  rewrite (proj2 (Z.eqb_neq _ _)) by apply (bo_fd s Hok). rewrite (proj2 (Z.ltb_ge bufLen 0)) by done. cbn [orb].
  unfold mbind at 1, M_bind, get_in, gets at 1. change (id ?x) with x. cbv zeta. fold (body_left (m_in (req s))). fold L.
  destruct (Z.leb_spec L 0) as [HL|HL].
  { exists s. rewrite (proj2 (Z.ltb_ge 0 L)) by done. cbn [andb].
    assert (body s = []) as -> by (unfold body; fold L; by replace (Z.to_nat L) with 0%nat by lia).
    by rewrite take_nil, drop_nil. }
  set (k := if L <? bufLen then L else bufLen).
  assert (k = Z.min L bufLen) as Hk by (subst k; destruct (Z.ltb_spec L bufLen); lia).
  destruct (read_phases k s Hok) as (evs & n & m & E & Hz & Hn & Hm & Hor & He & Hd); [fold L; lia|]. cbv zeta in *.
  assert (take (Z.to_nat k) (body s) = take (Z.to_nat bufLen) (body s)) as Hout.
  { unfold body. fold L. rewrite !firstn_firstn. f_equal. lia. }
  assert (zlen (take (Z.to_nat k) (body s)) <= L) as HzL by (rewrite zlen_take; [|lia]; lia).
  destruct (body_advance n m evs s Hok Hn Hm Hor ltac:(fold L; lia) He Hd) as [Hbody Hok'].
  rewrite (bind_assoc_run _ _ _ _ _ _ E), Hout. rewrite Hout in Hz.
  assert ((0 <? k) = (0 <? bufLen)) as -> by (destruct (Z.ltb_spec 0 k), (Z.ltb_spec 0 bufLen); done || lia).
  rewrite (proj2 (Z.ltb_lt 0 L)) by done. cbn [andb].
  assert (drop (Z.to_nat bufLen) (body s) = drop (Z.to_nat (n + m)) (body s)) as ->.
  { apply drop_min. rewrite <- Hz, zlen_take by lia. done. }
  eexists. split; [|split; [exact Hbody|exact Hok']].
  destruct ((0 <? bufLen) && bool_decide (body s = [])) eqn:Efail.
  - apply andb_true_iff in Efail as [_ Hnil]. apply bool_decide_eq_true in Hnil. rewrite Hnil, take_nil in Hz.
    change (zlen []) with 0 in Hz. assert (n = 0 /\ m = 0) as [-> ->] by lia. cbn.
    unfold mret, M_ret. do 2 f_equal. destruct s as [[? ? ? [] ? ?] []]. unfold with_reads, on_in, on_req. cbn. by rewrite !Z.add_0_r.
  - rewrite (proj2 (Z.eqb_neq _ (-1))) by lia. rewrite Hz. unfold mod_in, modify, mbind, M_bind, mret, M_ret.
    done.
Qed.

(** Reading the body through [LSAPI_ReadReqBody_r]: whatever pieces the kernel cuts
    the connection into and however often reads are interrupted, the bytes handed out
    are the next [bufLen] bytes of the body (all that is left of it when that is less,
    never a byte behind its announced length), the buffered ones first, and what stays
    to be read is exactly the rest; -1 tells that the peer sends no more. *)
Theorem ReadReqBody_r_reads bufLen s :
  body_ok s -> 0 <= bufLen ->
  exists s',
    LSAPI_ReadReqBody_r bufLen s =
      Some (if (0 <? body_left (m_in (req s))) && (0 <? bufLen) && bool_decide (body s = []) then (-1, [])
            else let bs := take (Z.to_nat bufLen) (body s) in (zlen bs, bs), s') /\
    body s' = drop (Z.to_nat bufLen) (body s) /\ body_ok s'.
Proof. apply ReadReqBody_r_run. Qed.

(** *** Refilling the buffer *)

Lemma load_s32_store mem off bs mem' o :
  store mem off bs = Some mem' -> o + 4 <= off -> load_s32 mem' o = load_s32 mem o.
Proof.
  intros Hs Ho. unfold load_s32, load. rewrite (store_zlen _ _ _ _ Hs).
  destruct (in_range o 4 (zlen mem)) eqn:E; [|done]. apply in_range_spec in E.
  by rewrite (store_load_before _ _ _ _ _ _ Hs) by lia.
Qed.

(** What taking the next [n] buffered bytes does to the body. *)
Lemma take_body_spec n s :
  body_ok s -> 0 <= n <= zlen (buffered (m_in (req s))) ->
  exists s', take_body n s = Some (tt, s') /\ body_ok s' /\
    body s' = drop (Z.to_nat n) (body s) /\
    buffered (m_in (req s')) = drop (Z.to_nat n) (buffered (m_in (req s))) /\
    load (m_pReqBuf (m_in (req s))) (m_bufProcessed (m_in (req s))) n = Some (take (Z.to_nat n) (body s)).
Proof.
  intros Hok Hn. pose proof (zlen_buffered s Hok) as Hzb.
  destruct Hok as [Hfd [Hr Hp] [Hs1 Hs2] Hl (p & Hpk & Hp1 & Hp2)].
  eexists. split; [reflexivity|].
  set (i := m_in (req s)) in *. set (s' := on_in _ _).
  assert (buffered (m_in (req s')) = drop (Z.to_nat n) (buffered i)) as HB.
  { unfold buffered. subst s'. cbn. fold i. replace (m_bufRead i - (m_bufProcessed i + n)) with (m_bufRead i - m_bufProcessed i - n) by lia.
    by rewrite slice_drop by lia. }
  assert (body_left (m_in (req s')) = body_left i - n) as HL by (unfold body_left; cbn; fold i; lia).
  assert (zlen (drop (Z.to_nat n) (buffered i)) = zlen (buffered i) - n) as Hzd by (unfold zlen in *; rewrite length_drop; lia).
  split; [|split; [|split; [done|]]].
  - split; [done|done|cbn; fold i; lia|rewrite HB, HL; lia|]. exists p. cbn. fold i. split; [done|lia].
  - unfold body. change (incoming s') with (incoming s). fold i. rewrite HB, HL, skipn_firstn_comm. f_equal; [lia|].
    rewrite drop_app_le; [done|]. unfold zlen in *. lia.
  - rewrite load_Some by lia. f_equal. unfold body. fold i. rewrite firstn_firstn, Nat.min_l by lia.
    rewrite take_app_le by (unfold zlen in *; lia). unfold buffered, slice. rewrite firstn_firstn. f_equal. lia.
Qed.

(** [readBodyToReqBuf] with an empty buffer: it refills it from the connection, without
    changing what the body is; it answers 0 exactly when nothing is left of it. *)
Lemma readBodyToReqBuf_spec s :
  body_ok s -> buffered (m_in (req s)) = [] ->
  exists n s', readBodyToReqBuf s = Some (n, s') /\ body_ok s' /\ body s' = body s /\
    zlen (buffered (m_in (req s'))) = n /\ 0 <= n /\ (n = 0 -> body s = []).
Proof.
  intros Hok HB. pose proof (zlen_buffered s Hok) as Hzb. rewrite HB in Hzb. change (zlen []) with 0 in Hzb.
  destruct Hok as [Hfd Hpeer [Hs1 Hs2] Hl (p & Hpk & Hp1 & Hp2)]. rewrite HB in Hl. change (zlen []) with 0 in Hl.
  unfold readBodyToReqBuf. unfold mbind at 1, M_bind, get_in, gets at 1.
  set (i := m_in (req s)) in *. change (id i) with i. cbv zeta.
  rewrite (proj2 (Z.ltb_ge 0 _)) by lia. unfold mbind at 1, M_bind, gets at 1. fold i.
  unfold mbind at 1, M_bind, lift at 1. rewrite Hpk. cbn [fmap option_fmap option_map].
  unfold mbind at 1, M_bind, mod_in, modify. rewrite (proj2 (Z.ltb_ge _ 0)) by lia.
  fold (body_left i). set (s1 := on_in _ s).
  assert (peer_ok s1 /\ incoming s1 = incoming s) as [Hp' HI] by (by destruct Hpeer).
  set (room := if body_left i <? zlen (m_pReqBuf i) - p then body_left i else zlen (m_pReqBuf i) - p).
  assert (0 <= room <= body_left i /\ room <= zlen (m_pReqBuf i) - p /\ (room = 0 -> body_left i = 0)) as (Hr1 & Hr2 & Hr3).
  { subst room. destruct (Z.ltb_spec (body_left i) (zlen (m_pReqBuf i) - p)); lia. }
  assert (exists n evs', Forall benign_ev evs' /\ 0 <= n <= room /\ n <= zlen (incoming s) /\
            (n = 0 -> body s = []) /\ data evs' = drop (Z.to_nat n) (incoming s) /\
            lsapi_read room s1 = Some ((n, slice 0 n (incoming s)), with_reads evs' s1))
    as (n & evs' & He' & Hn & Hn2 & Hn0 & Hd & E).
  { destruct (Z.eqb_spec room 0) as [Ez|Ez].
    - exists 0, (k_reads (os s1)). rewrite Ez. pose proof (zlen_nonneg (incoming s)). split; [apply Hp'|]. split; [lia|]. split; [lia|].
      split; [intros _; unfold body; fold i; rewrite Hr3 by done; apply take_0|]. split; [done|].
      rewrite with_reads_id. done.
    - destruct (lsapi_read_spec room s1) as (n & evs' & Ha & Hb & Hc & Hd & He & Hf); [lia|done|]. rewrite HI in *.
      exists n, evs'. do 3 (split; [done|]). split; [|done]. intros Hz. unfold body. fold i. rewrite HB, Hd by done. apply take_nil. }
  unfold mbind at 1, M_bind. rewrite E. destruct (Z.ltb_spec 0 n) as [Hpos|Hpos].
  - assert (zlen (slice 0 n (incoming s)) = n) as Hzs by (apply zlen_slice; lia).
    assert (exists mem', store (m_pReqBuf i) p (slice 0 n (incoming s)) = Some mem') as [mem' Hst].
    { rewrite store_Some by lia. eauto. }
    unfold fill_buf, mbind, M_bind, lift, mod_in, modify, get_in, gets.
    change (m_pReqBuf (m_in (req (with_reads evs' s1)))) with (m_pReqBuf i). rewrite Hst. cbn [fmap option_fmap option_map].
    unfold mret, M_ret. eexists _, _. split; [reflexivity|]. set (s2 := on_in _ (on_in _ _)).
    assert (m_in (req s2) = set_m_bufRead (s32 (p + zlen (slice 0 n (incoming s))))
              (set_m_pReqBuf mem' (set_m_bufRead p (set_m_bufProcessed p i)))) as Hi2 by done.
    rewrite Hzs, s32_id in Hi2 by (unfold is_s32; lia).
    assert (buffered (m_in (req s2)) = slice 0 n (incoming s)) as HB2.
    { rewrite Hi2. unfold buffered. cbn. replace (p + n - p) with n by lia. rewrite <- Hzs at 1.
      by apply (store_load_same _ _ _ _ Hst). }
    pose proof (store_zlen _ _ _ _ Hst) as Hzm.
    assert (body_left (m_in (req s2)) = body_left i) as HL2 by (by rewrite Hi2).
    rewrite HB2, Hzs. split; [|split; [|split; [done|split; [lia|lia]]]].
    + split.
      * done.
      * destruct (peer_ok_reads evs' s1 Hp' He') as [X Y]. split; [exact X|exact Y].
      * rewrite Hi2. cbn. lia.
      * rewrite HB2, HL2. lia.
      * exists p. rewrite Hi2. cbn. rewrite (load_s32_store _ _ _ _ _ Hst) by lia. split; [done|lia].
    + unfold body. rewrite HL2, HB2. fold i. rewrite HB. cbn [app].
      change (incoming s2) with (incoming (with_reads evs' s1)). rewrite incoming_reads, Hd.
      unfold slice. rewrite drop_0, take_drop. done.
  - assert (n = 0) as -> by lia. unfold mret, M_ret, mbind, M_bind. eexists _, _. split; [reflexivity|].
    specialize (Hn0 eq_refl).
    assert (buffered (m_in (req (with_reads evs' s1))) = []) as HB2.
    { unfold buffered. cbn. rewrite Z.sub_diag. done. }
    rewrite HB2. split; [|split; [|done]].
    + split; [done|by apply peer_ok_reads|cbn; fold i; lia|rewrite HB2; change (zlen []) with 0; by unfold body_left in *|].
      exists p. cbn. fold i. split; [done|lia].
    + rewrite Hn0. unfold body. rewrite HB2, incoming_reads, Hd. cbn [Z.to_nat drop app].
      change (body_left (m_in (req (with_reads evs' s1)))) with (body_left i). unfold body in Hn0. fold i in Hn0. by rewrite HB in Hn0.
Qed.

(** *** Lines and characters *)

Lemma buffered_prefix s : body_ok s -> exists rest, body s = buffered (m_in (req s)) ++ rest.
Proof.
  intros Hok. pose proof (bo_left s Hok). unfold body. rewrite take_app_ge by (unfold zlen in *; lia). eauto.
Qed.

(** What one turn of a reader finds: a non-empty buffer, or the end of the body. *)
Lemma refill_spec s :
  body_ok s ->
  exists n s', (if m_bufRead (m_in (req s)) - m_bufProcessed (m_in (req s)) <=? 0 then readBodyToReqBuf
                else mret (m_bufRead (m_in (req s)) - m_bufProcessed (m_in (req s)))) s = Some (n, s') /\
    body_ok s' /\ body s' = body s /\ zlen (buffered (m_in (req s'))) = n /\ 0 <= n /\ (n = 0 -> body s = []).
Proof.
  intros Hok. pose proof (zlen_buffered s Hok) as Hz. pose proof (zlen_nonneg (buffered (m_in (req s)))).
  rewrite <- Hz. destruct (Z.leb_spec (zlen (buffered (m_in (req s)))) 0).
  - apply readBodyToReqBuf_spec; [done|]. apply zlen_0_inv. lia.
  - eexists _, s. split; [reflexivity|]. do 3 (split; [done|]). split; [lia|]. intros ?. lia.
Qed.

(** [LSAPI_ReqBodyGetChar_r] hands out the body byte by byte and EOF behind it. *)
Theorem ReqBodyGetChar_r_next s :
  body_ok s ->
  exists s', body_ok s' /\
    match body s with
    | [] => LSAPI_ReqBodyGetChar_r s = Some (-1, s') /\ body s' = []
    | b :: rest => LSAPI_ReqBodyGetChar_r s = Some (b, s') /\ body s' = rest
    end.
Proof.
  intros Hok. destruct (refill_spec s Hok) as (n & s1 & E & Hok1 & Hb1 & Hz1 & Hn & Hn0).
  assert (LSAPI_ReqBodyGetChar_r s = (if n <=? 0 then mret (-1) else next_char) s1) as ->.
  { pose proof (bo_fd s Hok) as Hfd. unfold LSAPI_ReqBodyGetChar_r, mbind, M_bind, get_req, get_in, gets.
    rewrite (proj2 (Z.eqb_neq _ (-1))) by done. change (id ?x) with x.
    destruct (Z.leb_spec (m_bufRead (m_in (req s)) - m_bufProcessed (m_in (req s))) 0) as [Hle|Hgt] in E;
      destruct (Z.leb_spec (m_bufRead (m_in (req s))) (m_bufProcessed (m_in (req s)))); try lia.
    - by rewrite E.
    - injection E as En ->. unfold mret at 1, M_ret. by rewrite (proj2 (Z.leb_gt n 0)) by lia. }
  destruct (Z.leb_spec n 0).
  - exists s1. rewrite Hb1, Hn0 by lia. done.
  - destruct (take_body_spec 1 s1 Hok1 ltac:(lia)) as (s2 & E2 & Hok2 & Hb2 & _ & Hl). rewrite Hb1 in *.
    destruct (body s) as [|b rest] eqn:Eb.
    { exfalso. destruct (buffered_prefix s1 Hok1) as [rest Hp]. rewrite Hb1 in Hp. symmetry in Hp.
      apply app_eq_nil in Hp as [Hp _]. rewrite Hp in Hz1. change (zlen (@nil Z)) with 0 in Hz1. lia. }
    exists s2. split; [done|]. split; [|exact Hb2].
    cbn in Hl. apply load_inv in Hl as (Hp0&_&Hp1&Hsl).
    assert (load8 (m_pReqBuf (m_in (req s1))) (m_bufProcessed (m_in (req s1))) = Some b) as Hl8.
    { apply load8_Some. split; [done|]. split; [lia|].
      assert ((slice (m_bufProcessed (m_in (req s1))) 1 (m_pReqBuf (m_in (req s1)))) !! 0%nat = Some b) as Hs by (by rewrite <- Hsl).
      rewrite lookup_slice in Hs by lia. by rewrite Nat.add_0_r in Hs. }
    unfold next_char, mbind, M_bind, mod_in, modify, get_in, gets, lift. cbn. rewrite Hl8. cbn. unfold mret, M_ret.
    injection E2 as <-. done.
Qed.

(** The bytes up to a newline, with it, or the first [room] ones; and whether the line
    is complete: a newline was found, or the body ended before the room did. *)
Definition line_of (room : Z) (l : list Z) : list Z :=
  match upto_newline (take (Z.to_nat room) l) with
  | Some n => take (Z.to_nat n) l
  | None => take (Z.to_nat room) l
  end.
Definition line_ends (room : Z) (l : list Z) : Z :=
  match upto_newline (take (Z.to_nat room) l) with
  | Some _ => 1
  | None => if zlen l <? room then 1 else 0
  end.

Lemma upto_newline_bound l n : upto_newline l = Some n -> 0 < n <= zlen l.
Proof.
  revert n. induction l as [|b l IH]; intros n H; [done|]. cbn [upto_newline] in H. rewrite zlen_cons.
  pose proof (zlen_nonneg l). destruct (b =? 10); [injection H as <-; lia|].
  apply fmap_Some in H as (m & Hm & ->). apply IH in Hm. lia.
Qed.

Lemma upto_newline_app_l l k n : upto_newline l = Some n -> upto_newline (l ++ k) = Some n.
Proof.
  revert n. induction l as [|b l IH]; intros n H; [done|]. cbn [upto_newline app] in *.
  destruct (b =? 10); [done|]. apply fmap_Some in H as (m & Hm & ->). by rewrite (IH m Hm).
Qed.

Lemma upto_newline_app_r l k : upto_newline l = None -> upto_newline (l ++ k) = Z.add (zlen l) <$> upto_newline k.
Proof.
  induction l as [|b l IH]; intros H.
  - cbn [app]. change (zlen []) with 0. by destruct (upto_newline k).
  - cbn [upto_newline app] in *. destruct (b =? 10); [done|]. apply fmap_None in H. rewrite IH by done.
    rewrite zlen_cons. destruct (upto_newline k); [|done]. cbn. f_equal. lia.
Qed.

Lemma line_of_found room l n :
  upto_newline (take (Z.to_nat room) l) = Some n -> line_of room l = take (Z.to_nat n) l /\ line_ends room l = 1.
Proof. unfold line_of, line_ends. by intros ->. Qed.

(** A line whose first [len] bytes hold no newline. *)
Lemma line_of_skip room l len :
  0 <= len <= room -> len <= zlen l -> upto_newline (take (Z.to_nat len) l) = None ->
  line_of room l = take (Z.to_nat len) l ++ line_of (room - len) (drop (Z.to_nat len) l) /\
  line_ends room l = line_ends (room - len) (drop (Z.to_nat len) l).
Proof.
  intros Hlen Hl Hn.
  assert (take (Z.to_nat room) l = take (Z.to_nat len) l ++ take (Z.to_nat (room - len)) (drop (Z.to_nat len) l)) as E.
  { rewrite take_take_drop. f_equal. lia. }
  pose proof (upto_newline_app_r _ (take (Z.to_nat (room - len)) (drop (Z.to_nat len) l)) Hn) as Hu.
  rewrite <- E, zlen_take, Z.min_l in Hu by lia.
  assert (zlen (drop (Z.to_nat len) l) = zlen l - len) as Hzd by (unfold zlen in *; rewrite length_drop; lia).
  unfold line_of, line_ends. rewrite Hu, Hzd.
  destruct (upto_newline (take (Z.to_nat (room - len)) _)) as [m|] eqn:Em; cbn [fmap option_fmap option_map].
  - split; [|done]. apply upto_newline_bound in Em. rewrite take_take_drop. f_equal. lia.
  - split; [exact E|]. destruct (Z.ltb_spec (zlen l) room), (Z.ltb_spec (zlen l - len) (room - len)); done || lia.
Qed.

Lemma GetLine_loop_spec fuel : forall room acc s,
  0 <= room -> (Z.to_nat room <= fuel)%nat -> body_ok s ->
  exists s', GetLine_loop fuel room acc s =
      Some (acc ++ line_of room (body s), if room <=? 0 then 0 else line_ends room (body s), s') /\
    body s' = drop (length (line_of room (body s))) (body s) /\ body_ok s'.
Proof.
  induction fuel as [|fuel IH]; intros room acc s Hroom Hf Hok.
  - assert (room = 0) as -> by lia. exists s. cbn. by rewrite app_nil_r.
  - cbn [GetLine_loop]. destruct (Z.leb_spec room 0) as [Hz|Hz].
    { assert (room = 0) as -> by lia. exists s. cbn. by rewrite app_nil_r. }
    destruct (refill_spec s Hok) as (len & s1 & E & Hok1 & Hb1 & Hz1 & Hn & Hn0).
    unfold mbind at 1, M_bind, get_in, gets at 1. change (id ?x) with x.
    unfold mbind at 1, M_bind. rewrite E. destruct (Z.leb_spec len 0) as [Hl0|Hl0].
    { assert (body s = []) as Hnil by (apply Hn0; lia). exists s1. rewrite Hnil.
      unfold line_of, line_ends. rewrite take_nil. cbn [upto_newline length drop]. change (zlen []) with 0.
      rewrite (proj2 (Z.ltb_lt 0 room)) by lia. rewrite app_nil_r, Hb1, Hnil. done. }
    set (n := if room <? len then room else len).
    assert (0 < n /\ n <= room /\ n <= len) as (Hn1 & Hn2 & Hn3) by (subst n; destruct (Z.ltb_spec room len); lia).
    unfold mbind at 1, M_bind, gets at 1.
    destruct (take_body_spec n s1 Hok1 ltac:(lia)) as (s2 & E2 & Hok2 & Hb2 & _ & Hl). rewrite Hb1 in *.
    pose proof (load_zlen _ _ _ _ Hl) as Hzl.
    unfold mbind at 1, M_bind, lift at 1. rewrite Hl. cbn [fmap option_fmap option_map].
    assert (n <= zlen (body s)) as Hnb by (rewrite zlen_take in Hzl by lia; lia).
    destruct (upto_newline (take (Z.to_nat n) (body s))) as [k|] eqn:Ek.
    + pose proof (upto_newline_bound _ _ Ek) as Hk. rewrite Hzl in Hk.
      destruct (take_body_spec k s1 Hok1 ltac:(lia)) as (s3 & E3 & Hok3 & Hb3 & _ & _). rewrite Hb1 in *.
      unfold mbind, M_bind. rewrite E3. exists s3.
      assert (upto_newline (take (Z.to_nat room) (body s)) = Some k) as Er.
      { replace (take (Z.to_nat room) (body s)) with
          (take (Z.to_nat n) (body s) ++ take (Z.to_nat (room - n)) (drop (Z.to_nat n) (body s)))
          by (rewrite take_take_drop; f_equal; lia). by apply upto_newline_app_l. }
      apply line_of_found in Er as [-> ->].
      assert (slice 0 k (take (Z.to_nat n) (body s)) = take (Z.to_nat k) (body s)) as ->.
      { unfold slice. rewrite drop_0, firstn_firstn. f_equal. lia. }
      split; [done|]. split; [|done]. rewrite Hb3. f_equal. rewrite length_take. unfold zlen in Hnb. lia.
    + destruct (line_of_skip room (body s) n ltac:(lia) Hnb Ek) as [-> ->].
      unfold mbind, M_bind. rewrite E2.
      destruct (IH (room - n) (acc ++ take (Z.to_nat n) (body s)) s2) as (s' & E' & Hb' & Hok'); [lia|lia|done|].
      exists s'. rewrite E', Hb2, <- app_assoc. split; [|split; [|done]].
      * destruct (Z.leb_spec (room - n) 0) as [Hz0|Hz0]; [|done].
        assert (room - n = 0) as -> by lia. do 3 f_equal. unfold line_ends. cbn [Z.to_nat]. rewrite take_0. cbn [upto_newline].
        pose proof (zlen_nonneg (drop (Z.to_nat n) (body s))). by rewrite (proj2 (Z.ltb_ge _ 0)) by lia.
      * rewrite Hb', Hb2, drop_drop, length_app, length_take. f_equal. unfold zlen in Hnb. lia.
Qed.

(** [LSAPI_ReqBodyGetLine_r] hands out the next line of the body: the bytes up to
    and with the first newline, or as many as the buffer takes, or the rest of the body;
    it answers their number, sets [getLF] exactly when a newline was found or the body
    ended before the buffer was full, and leaves the rest of the body to the next
    reader, whatever pieces the connection delivers. *)
Theorem ReqBodyGetLine_r_line bufLen s :
  body_ok s -> 0 < bufLen ->
  let line := line_of (bufLen - 1) (body s) in
  exists s',
    LSAPI_ReqBodyGetLine_r bufLen s =
      Some (zlen line, line, if bufLen =? 1 then 0 else line_ends (bufLen - 1) (body s), s') /\
    body s' = drop (length line) (body s) /\ body_ok s'.
Proof.
  intros Hok Hlen line.
  destruct (GetLine_loop_spec (Z.to_nat bufLen) (bufLen - 1) [] s) as (s' & E & Hb & Hok'); [lia|lia|done|].
  exists s'. split; [|done]. unfold LSAPI_ReqBodyGetLine_r, mbind, M_bind, get_req, gets.
  rewrite (proj2 (Z.eqb_neq _ _)) by apply (bo_fd s Hok). rewrite (proj2 (Z.leb_gt bufLen 0)) by lia.
  rewrite E. cbn [app]. fold line. unfold mret, M_ret. do 3 f_equal.
  destruct (Z.leb_spec (bufLen - 1) 0), (Z.eqb_spec bufLen 1); done || lia.
Qed.

(** A body of seven bytes, two of them buffered behind an 8-byte packet. *)
Definition body_sample : st :=
  on_req (set_m_fd 5)
    (on_in (fun _ => mkIn ([76; 83; 1; 0] ++ le32 8 ++ str "ab" ++ replicate 6 0) [] [] None None None None None None None 7 0 8 10)
      (on_os (set_k_reads [mkRev false (RData (str "c" ++ [10])); mkRev false (RErr EINTR); mkRev false (RData (str "def"))]) st0)).

Lemma body_sample_ok : body_ok body_sample.
Proof.
  split; [discriminate| | |by vm_compute|].
  - split; [done|]. repeat (constructor; [split; done|]). constructor.
  - cbn. change (zlen _) with 16. lia.
  - exists 8. split; [by vm_compute|]. cbn. change (zlen _) with 16. lia.
Qed.

Lemma ReadReqBody_r_reads_witness :
  exists s', LSAPI_ReadReqBody_r 5 body_sample = Some (5, str "abc" ++ [10] ++ str "d", s') /\
    body s' = str "ef" /\ body_ok s'.
Proof. apply (ReadReqBody_r_reads 5 body_sample body_sample_ok ltac:(lia)). Defined.

Lemma ReqBodyGetChar_r_next_witness :
  exists s', body_ok s' /\ LSAPI_ReqBodyGetChar_r body_sample = Some (97, s') /\
    body s' = str "bc" ++ [10] ++ str "def".
Proof. apply (ReqBodyGetChar_r_next body_sample body_sample_ok). Defined.

Lemma ReqBodyGetLine_r_line_witness :
  exists s', LSAPI_ReqBodyGetLine_r 100 body_sample = Some (4, str "abc" ++ [10], 1, s') /\
    body s' = str "def" /\ body_ok s'.
Proof. apply (ReqBodyGetLine_r_line 100 body_sample body_sample_ok ltac:(lia)). Defined.
