(* ===== verification/ReadReqSpec.v ===== *)
(** * What reading a request promises

    A request packet that arrives on the connection, in any pieces of which the first
    holds a packet header, is parsed like the packet in memory, is acknowledged, and
    leaves exactly the body to the body readers.  A first piece of fewer than 8 bytes
    is where this fails. *)

From stdpp Require Import sets.
From S2P Require Export ReqReadSpec.

Open Scope Z_scope.

#[local] Arguments s32 : simpl never.

(** ** The packet on the wire *)

Lemma image_slack flag f i r slack : image flag f i r slack = image flag f i r [] ++ slack.
Proof. unfold image. by rewrite app_nil_r, <- !app_assoc. Qed.

Lemma zlen_image flag r : image_ok r -> zlen (image flag false false r []) = ri_total r.
Proof.
  intros Hok. destruct (image_http flag r [] Hok) as (pre & E & Hpre). rewrite E, !zlen_app.
  change (zlen (@nil Z)) with 0. unfold ri_total. lia.
Qed.

Lemma zlen_image_big flag r : image_ok r -> zlen (image flag true true r []) = ri_total r.
Proof.
  intros Hok. rewrite <- (zlen_image flag r Hok). unfold image. rewrite !zlen_app, !zlen_ints, !zlen_unknown_image.
  rewrite !zlen_index_image by apply zlen_ri_entries, Hok. done.
Qed.

(** Everything behind the packet header. *)
Definition packet_tail (big : bool) (r : request_image) : list Z := drop 8 (image big big big r []).

Lemma image_tail big r slack : image big big big r slack = head big r ++ packet_tail big r ++ slack.
Proof.
  rewrite image_slack. unfold packet_tail.
  assert (image big big big r [] = head big r ++ drop 8 (image big big big r [])) as E.
  { assert (take 8 (image big big big r []) = head big r) as <-; [|by rewrite take_drop].
    destruct (image_at_fields big big big r []) as [post ->]. rewrite take_app_le by (pose proof (zlen_head big r); unfold zlen in *; lia).
    apply take_ge. pose proof (zlen_head big r). unfold zlen in *. lia. }
  rewrite E at 1. by rewrite <- app_assoc.
Qed.

(** The packet as it is sent: its length field in the sender's byte order too. *)
Definition wire (big : bool) (r : request_image) : list Z :=
  [76; 83; 1; if big then 1 else 0] ++ int_bytes big (ri_total r) ++ packet_tail big r.

Lemma zlen_packet_tail big r : image_ok r -> zlen (packet_tail big r) = ri_total r - 8.
Proof.
  intros Hok. assert (zlen (image big big big r []) = ri_total r) as Hz.
  { destruct big; [by apply zlen_image_big|by apply zlen_image]. }
  rewrite image_tail, !zlen_app, zlen_head in Hz. change (zlen (@nil Z)) with 0 in Hz. lia.
Qed.

Lemma zlen_wire big r : image_ok r -> zlen (wire big r) = ri_total r.
Proof.
  intros Hok. unfold wire. rewrite !zlen_app, zlen_int_bytes, zlen_packet_tail by done.
  change (zlen [76; 83; 1; if big then 1 else 0]) with 4. lia.
Qed.

(** [verifyHeader] on the start of a packet. *)
Lemma verifyHeader_wire (big : bool) total rest :
  is_s32 total ->
  verifyHeader ([76; 83; 1; if big then 1 else 0] ++ int_bytes big total ++ rest) LSAPI_BEGIN_REQUEST =
  Some (total, [76; 83; 1; if big then 1 else 0] ++ le32 total ++ rest).
Proof.
  intros Ht. set (hd := [76; 83; 1; if big then 1 else 0]). unfold verifyHeader.
  pose proof (fun j b => load8_in [] hd (int_bytes big total ++ rest) 0 j b eq_refl) as Hl. cbn [app] in Hl.
  assert (forall j b, hd !! j = Some b -> load8 (hd ++ int_bytes big total ++ rest) (Z.of_nat j) = Some b) as Hl' by exact Hl.
  change (load8 (?m ++ ?n) 0) with (load8 (m ++ n) (Z.of_nat 0)). rewrite (Hl' 0%nat 76) by done.
  change (load8 (?m ++ ?n) 1) with (load8 (m ++ n) (Z.of_nat 1)). rewrite (Hl' 1%nat 83) by done.
  change (load8 (?m ++ ?n) 2) with (load8 (m ++ n) (Z.of_nat 2)). rewrite (Hl' 2%nat 1) by done.
  change (load8 (?m ++ ?n) 3) with (load8 (m ++ n) (Z.of_nat 3)). rewrite (Hl' 3%nat (if big then 1 else 0)) by done.
  cbn [mbind option_bind].
  change (negb (LSAPI_VERSION_B0 =? s8 76) || negb (LSAPI_VERSION_B1 =? s8 83) || negb (LSAPI_BEGIN_REQUEST =? s8 1)) with false.
  cbv iota. destruct big.
  - change (negb (LSAPI_ENDIAN =? Z.land (s8 1) LSAPI_ENDIAN_BIT)) with true. cbv iota.
    rewrite swapInt_mid by done. cbn [mbind option_bind]. change (int_bytes false total) with (le32 total).
    by rewrite load_s32_mid by done.
  - change (negb (LSAPI_ENDIAN =? Z.land (s8 0) LSAPI_ENDIAN_BIT)) with false. cbv iota. cbn [mbind option_bind].
    change (int_bytes false total) with (le32 total). by rewrite load_s32_mid by done.
Qed.

(** ** The first piece *)

Fixpoint first_piece (evs : list rev) : Z :=
  match evs with
  | [] => 0
  | ev :: evs => match r_res ev with RData bs => zlen bs | _ => first_piece evs end
  end.

Lemma read_loop_first evs : forall len s n bs s',
  0 < len -> g_running (os s) = true -> Forall benign_ev evs ->
  read_loop evs len s = Some ((n, bs), s') -> n = Z.min len (first_piece evs).
Proof.
  induction evs as [|[stop res] evs IH]; intros len s n bs s' Hlen Hrun Hev H.
  - injection H as <- <- <-. cbn. lia.
  - apply Forall_cons in Hev as [[Hstop Hres] Hev]. cbn [r_stop r_res] in *. subst stop. cbn [read_loop first_piece r_res] in *.
    destruct res as [bytes| |e]; [|done|].
    + unfold sys_read_ev, signal_stop in H. cbn [r_stop r_res] in H.
      unfold mbind, M_bind, mret, M_ret, mod_os, modify, get_os, gets in H.
      rewrite (proj2 (Z.eqb_neq _ (-1))) in H by (pose proof (zlen_nonneg bytes); lia). by injection H as <- <- <-.
    + subst e. unfold sys_read_ev, signal_stop in H. cbn [r_stop r_res] in H.
      unfold mbind, M_bind, mret, M_ret, mod_os, modify, get_os, gets in H.
      change (on_os (set_k_reads evs) s) with (with_reads evs s) in H.
      replace (g_running (os (with_reads evs s))) with true in H by (by destruct s as [? []]).
      change (-1 =? -1) with true in H. unfold is_eintr in H. rewrite bool_decide_true in H by done. cbn [andb] in H.
      eapply IH; [done| |done|exact H]. by destruct s as [? []].
Qed.

Lemma lsapi_read_first len s :
  0 < len -> peer_ok s ->
  exists n evs', n = Z.min len (first_piece (k_reads (os s))) /\ Forall benign_ev evs' /\
    0 <= n <= zlen (incoming s) /\ data evs' = drop (Z.to_nat n) (incoming s) /\
    lsapi_read len s = Some ((n, slice 0 n (incoming s)), with_reads evs' s).
Proof.
  intros Hlen Hp. destruct (lsapi_read_spec len s Hlen Hp) as (n & evs' & He & Hn & Hn2 & _ & Hd & E).
  exists n, evs'. split; [|auto with lia].
  unfold lsapi_read in E. rewrite (proj2 (Z.ltb_ge _ _)), (proj2 (Z.eqb_neq _ _)) in E by lia.
  unfold mbind, M_bind, get_os, gets in E. destruct Hp as [Hrun Hr].
  by apply (read_loop_first _ _ _ _ _ _ Hlen Hrun Hr E).
Qed.

(** ** The two loops *)

(** The state once [n] bytes of the request are in the buffer [mem]. *)
Definition filled (mem : list Z) (n : Z) (evs : list rev) (s : st) : st :=
  with_reads evs (on_in (fun i => set_m_bufRead n (set_m_pReqBuf mem i)) s).

Lemma fill_buf_run off bs mem' evs s :
  store (m_pReqBuf (m_in (req s))) off bs = Some mem' -> is_s32 (m_bufRead (m_in (req s)) + zlen bs) ->
  fill_buf off bs (with_reads evs s) = Some (tt, filled mem' (m_bufRead (m_in (req s)) + zlen bs) evs s).
Proof.
  intros Hst Hr. unfold fill_buf, mbind, M_bind, get_in, gets, lift, mod_in, modify.
  change (m_pReqBuf (m_in (req (with_reads evs s)))) with (m_pReqBuf (m_in (req s))). rewrite Hst. cbn [fmap option_fmap option_map].
  do 2 f_equal. unfold filled.
  transitivity (with_reads evs (on_in (fun i => set_m_bufRead (s32 (m_bufRead (m_in (req s)) + zlen bs)) (set_m_pReqBuf mem' i)) s));
    [by destruct s as [[? ? ? [] ? ?] []]|by rewrite s32_id].
Qed.

Lemma filled_filled m1 n1 e1 m2 n2 e2 s : filled m1 n1 e1 (filled m2 n2 e2 s) = filled m1 n1 e1 s.
Proof. by destruct s as [[? ? ? [] ? ?] []]. Qed.

Lemma filled_peer m n e s : peer_ok s -> Forall benign_ev e -> peer_ok (filled m n e s).
Proof. intros [H _] He. by destruct s as [[? ? ? [] ? ?] []]. Qed.

Lemma read_header_done fuel s : 8 <= m_bufRead (m_in (req s)) -> read_header_loop fuel s = Some (0, s).
Proof.
  intros H. assert (negb (m_bufRead (m_in (req s)) <? LSAPI_PACKET_HEADER_LEN) = true) as E.
  { apply negb_true_iff, Z.ltb_ge. exact H. }
  destruct fuel; cbn [read_header_loop]; unfold mbind, M_bind, get_in, gets; by rewrite E.
Qed.

Lemma read_header_step fuel s len bs s1 s2 :
  m_bufRead (m_in (req s)) < 8 -> lsapi_read (zlen (m_pReqBuf (m_in (req s)))) s = Some ((len, bs), s1) -> 0 < len ->
  fill_buf 0 bs s1 = Some (tt, s2) -> read_header_loop (S fuel) s = read_header_loop fuel s2.
Proof.
  intros H E Hlen Hf. assert (negb (m_bufRead (m_in (req s)) <? LSAPI_PACKET_HEADER_LEN) = false) as E1.
  { apply negb_false_iff, Z.ltb_lt. exact H. }
  cbn [read_header_loop]. unfold mbind at 1, M_bind, get_in, gets at 1. rewrite E1.
  unfold mbind at 1, M_bind, gets at 1. unfold mbind at 1, M_bind. rewrite E.
  rewrite (proj2 (Z.leb_gt len 0)) by lia. unfold mbind, M_bind. by rewrite Hf.
Qed.

Lemma header_phase s :
  peer_ok s -> m_bufRead (m_in (req s)) = 0 -> 8 <= zlen (m_pReqBuf (m_in (req s))) < 2 ^ 31 ->
  8 <= first_piece (k_reads (os s)) ->
  exists n evs mem', read_header_loop 8 s = Some (0, filled mem' n evs s) /\ Forall benign_ev evs /\
    8 <= n <= zlen (incoming s) /\ zlen mem' = zlen (m_pReqBuf (m_in (req s))) /\ n <= zlen mem' /\
    slice 0 n mem' = take (Z.to_nat n) (incoming s) /\ data evs = drop (Z.to_nat n) (incoming s).
Proof.
  intros Hp H0 Hz Hfirst.
  destruct (lsapi_read_first (zlen (m_pReqBuf (m_in (req s)))) s ltac:(lia) Hp) as (n & evs & Hn & He & Hn2 & Hd & E).
  assert (zlen (slice 0 n (incoming s)) = n) as Hzs by (apply zlen_slice; lia).
  assert (exists mem', store (m_pReqBuf (m_in (req s))) 0 (slice 0 n (incoming s)) = Some mem') as [mem' Hst].
  { rewrite store_Some by lia. eauto. }
  pose proof (store_zlen _ _ _ _ Hst) as Hzm.
  exists n, evs, mem'. split; [|split; [done|split; [lia|split; [done|split; [lia|split; [|done]]]]]].
  - rewrite (read_header_step 7 s n (slice 0 n (incoming s)) (with_reads evs s) (filled mem' n evs s)); [|lia|done|lia|].
    + apply read_header_done. change (8 <= n). lia.
    + pose proof (fill_buf_run 0 _ mem' evs s Hst) as Hfill. rewrite H0, Hzs in Hfill. apply Hfill. unfold is_s32. lia.
  - pose proof (store_load_same _ _ _ _ Hst) as Hsame. rewrite Hzs in Hsame. rewrite Hsame. done.
Qed.

Lemma packet_phase fuel : forall T s n,
  peer_ok s -> m_bufRead (m_in (req s)) = n -> 0 <= n <= zlen (m_pReqBuf (m_in (req s))) ->
  T <= zlen (m_pReqBuf (m_in (req s))) < 2 ^ 31 -> T - n <= zlen (incoming s) -> T - n <= Z.of_nat fuel ->
  exists evs mem', let N := Z.max n T in
    read_packet_loop fuel T s = Some (0, filled mem' N evs s) /\ Forall benign_ev evs /\
    zlen mem' = zlen (m_pReqBuf (m_in (req s))) /\
    slice 0 N mem' = slice 0 n (m_pReqBuf (m_in (req s))) ++ take (Z.to_nat (N - n)) (incoming s) /\
    data evs = drop (Z.to_nat (N - n)) (incoming s).
Proof.
  induction fuel as [|fuel IH]; intros T s n Hp Hn Hz HT Hc Hf; cbn [read_packet_loop]; unfold mbind, M_bind, get_in, gets; rewrite Hn.
  1,2: destruct (Z.ltb_spec n T) as [Hlt|Hge]; cbn [negb].
  1: lia.
  1,3: exists (k_reads (os s)), (m_pReqBuf (m_in (req s))); cbv zeta; rewrite Z.max_l by lia; rewrite Z.sub_diag;
    cbn [Z.to_nat take drop]; rewrite app_nil_r; split; [|split; [apply Hp|done]];
    unfold mret, M_ret; do 2 f_equal; unfold filled; destruct s as [[? ? ? [] ? ?] []]; cbn in *; by subst.
  destruct (lsapi_read_spec (T - n) s ltac:(lia) Hp) as (k & evs & He & Hk & Hk2 & Hk0 & Hd & E). rewrite E.
  destruct (Z.leb_spec k 0) as [Hz0|Hpos].
  { exfalso. assert (k = 0) as -> by lia. rewrite Hk0 in Hc by done. change (zlen (@nil Z)) with 0 in Hc. lia. }
  assert (zlen (slice 0 k (incoming s)) = k) as Hzs by (apply zlen_slice; lia).
  assert (exists mem', store (m_pReqBuf (m_in (req s))) n (slice 0 k (incoming s)) = Some mem') as [mem1 Hst].
  { rewrite store_Some by lia. eauto. }
  pose proof (store_zlen _ _ _ _ Hst) as Hzm.
  rewrite (fill_buf_run n _ mem1) by (done || (rewrite Hn, Hzs; unfold is_s32; lia)). rewrite Hn, Hzs.
  destruct (IH T (filled mem1 (n + k) evs s) (n + k)) as (evs' & mem' & E' & He' & Hz' & Hs' & Hd').
  { by apply filled_peer. }
  { done. }
  { change (m_pReqBuf (m_in (req (filled mem1 (n + k) evs s)))) with mem1. lia. }
  { change (m_pReqBuf (m_in (req (filled mem1 (n + k) evs s)))) with mem1. lia. }
  { change (incoming (filled mem1 (n + k) evs s)) with (data evs). rewrite Hd. unfold zlen in *. rewrite length_drop. lia. }
  { lia. }
  change (m_pReqBuf (m_in (req (filled mem1 (n + k) evs s)))) with mem1 in *.
  change (incoming (filled mem1 (n + k) evs s)) with (data evs) in *.
  replace (Z.max (n + k) T) with (Z.max n T) in * by lia.
  exists evs', mem'. cbv zeta. rewrite E', filled_filled. split; [done|]. split; [done|]. split; [lia|].
  replace (Z.to_nat (Z.max n T - n)) with (Z.to_nat k + Z.to_nat (Z.max n T - (n + k)))%nat by lia. split.
  - rewrite Hs', Hd. pose proof (store_prefix _ _ _ _ Hst) as Hpre. rewrite Hzs in Hpre. rewrite Hpre, <- app_assoc. f_equal.
    unfold slice. rewrite drop_0. by rewrite take_take_drop.
  - rewrite Hd', Hd, drop_drop. done.
Qed.

(** ** The whole request *)

(** The worker that waits for a request: no byte of it is read, writes are accepted,
    memory is there, no special notification is configured, and it is not root. *)
Record waiting (fd : Z) (s : st) : Prop := {
  wt_fd : m_fd (req s) = fd /\ 0 <= fd;
  wt_peer : peer_ok s;
  wt_read : m_bufRead (m_in (req s)) = 0 /\ m_reqBodyRead (m_in (req s)) = 0;
  wt_buf : zlen (m_pReqBuf (m_in (req s))) < 2 ^ 31;
  wt_mem : false ∉ k_allocs (os s);
  wt_writes : k_writes (os s) = [];
  wt_uid : s_uid (os s) <> 0;
  wt_notify : s_accept_notify (os s) = false /\ s_notified_pid (os s) = false /\ s_schedule_notify (os s) = false
}.

(** What the steps of [readReq] up to the parser change: the buffer, the count of the
    bytes in it, the request state, and the scripts of reads and allocations. *)
Definition moved (mem : list Z) (n state : Z) (evs : list rev) (allocs : list bool) (s : st) : st :=
  on_os (fun o => set_k_reads evs (set_k_allocs allocs o))
    (on_req (fun q => set_m_reqState state (set_m_in (set_m_bufRead n (set_m_pReqBuf mem (m_in q))) q)) s).

Definition start (s : st) : st :=
  moved (m_pReqBuf (m_in (req s))) (m_bufRead (m_in (req s))) (m_reqState (req s)) (k_reads (os s)) (k_allocs (os s)) s.

Lemma start_id s : start s = s.
Proof. by destruct s as [[? ? ? [] ? ?] []]. Qed.

Lemma resized_extends junk old size :
  zlen old < size -> exists ext, resized junk old size = old ++ ext /\ zlen (resized junk old size) = size.
Proof.
  intros H. pose proof (zlen_nonneg old). exists (fresh junk (size - zlen old)). unfold resized.
  assert (zlen (old ++ fresh junk (size - zlen old)) = size) as Hz.
  { rewrite zlen_app. unfold fresh, zlen. rewrite length_fmap, length_seq. unfold zlen in *. lia. }
  rewrite take_ge by (unfold zlen in *; lia). done.
Qed.

Lemma ensure_buf_spec size mem n state evs allocs s :
  0 <= size < 2 ^ 31 -> zlen mem < 2 ^ 31 -> false ∉ allocs ->
  exists mem' allocs', ensure_buf size (moved mem n state evs allocs s) = Some (0, moved mem' n state evs allocs' s) /\
    size <= zlen mem' < 2 ^ 31 /\ mem `prefix_of` mem' /\ false ∉ allocs'.
Proof.
  intros Hs Hz Ha. unfold ensure_buf, mbind, M_bind, get_in, gets.
  change (m_pReqBuf (m_in (req (moved mem n state evs allocs s)))) with mem.
  destruct (Z.ltb_spec (zlen mem) size) as [Hlt|Hge]; [|exists mem, allocs; split; [done|split; [lia|split; [reflexivity|done]]]].
  destruct (resized_extends (k_junk (os s)) mem size Hlt) as (ext & Er & Hzr).
  exists (resized (k_junk (os s)) mem size), (drop 1 allocs).
  split; [|split; [lia|split; [rewrite Er; by eexists|]]].
  - unfold allocateBuf, sys_alloc, mbind, M_bind, get_os, gets.
    change (k_allocs (os (moved mem n state evs allocs s))) with allocs.
    destruct allocs as [|b l]; [|assert (b = true) as -> by (destruct b; [done|]; by apply not_elem_of_cons in Ha as [? _])];
      unfold mret, M_ret, mod_os, mod_in, modify; cbn [andb];
      rewrite (proj2 (Z.leb_le 0 size)) by lia; do 2 f_equal; by destruct s as [[? ? ? [] ? ?] []].
  - destruct allocs; [done|]. by apply not_elem_of_cons in Ha as [_ ?].
Qed.

Lemma moved_filled mem n state evs allocs s mem' n' evs' :
  filled mem' n' evs' (moved mem n state evs allocs s) = moved mem' n' state evs' allocs s.
Proof. by destruct s as [[? ? ? [] ? ?] []]. Qed.

Lemma waiting_peer fd mem n state evs allocs s : waiting fd s -> Forall benign_ev evs -> peer_ok (moved mem n state evs allocs s).
Proof. intros [_ [H _] _ _ _ _ _ _] He. by destruct s as [[? ? ? [] ? ?] []]. Qed.

Lemma bind_run {A B} (m : M A) (k : A -> M B) s a s1 : m s = Some (a, s1) -> (m ≫= k) s = k a s1.
Proof. unfold mbind, M_bind. by intros ->. Qed.

(** The start of the native packet and what was read of it. *)
Lemma take_wire big r rest n :
  8 <= n ->
  take (Z.to_nat n) (wire big r ++ rest) =
    [76; 83; 1; if big then 1 else 0] ++ int_bytes big (ri_total r) ++ take (Z.to_nat (n - 8)) (packet_tail big r ++ rest) /\
  take (Z.to_nat n) (image big big big r [] ++ rest) =
    [76; 83; 1; if big then 1 else 0] ++ le32 (ri_total r) ++ take (Z.to_nat (n - 8)) (packet_tail big r ++ rest).
Proof.
  intros Hn. unfold wire. rewrite image_tail, app_nil_r. unfold head. rewrite <- !app_assoc.
  assert (forall h : list Z, zlen h = 8 -> forall t, take (Z.to_nat n) (h ++ t) = h ++ take (Z.to_nat (n - 8)) t) as Ht.
  { intros h Hh t. rewrite take_app_ge by (unfold zlen in *; lia). do 2 f_equal. unfold zlen in *. lia. }
  split.
  - rewrite (app_assoc _ (int_bytes big (ri_total r))), Ht; [by rewrite <- app_assoc|by rewrite zlen_app, zlen_int_bytes].
  - rewrite (app_assoc _ (le32 (ri_total r))), Ht; [by rewrite <- app_assoc|by rewrite zlen_app, zlen_le32].
Qed.

(** The first [n] bytes of a buffer that begins with [l]. *)
Lemma slice_prefix {A} n (l m : list A) : slice 0 n m = l -> m = l ++ drop (Z.to_nat n) m.
Proof. intros <-. unfold slice. rewrite drop_0. symmetry. apply take_drop. Qed.

Lemma drop_image big r rest N : image_ok r -> ri_total r <= N ->
  drop (Z.to_nat N) (wire big r ++ rest) = drop (Z.to_nat (N - ri_total r)) rest /\
  take (Z.to_nat N) (image big big big r [] ++ rest) = image big big big r [] ++ take (Z.to_nat (N - ri_total r)) rest.
Proof.
  intros Hok HN. pose proof (zlen_wire big r Hok) as Hw. pose proof (ri_order r).
  assert (zlen (image big big big r []) = ri_total r) as Hi by (destruct big; [by apply zlen_image_big|by apply zlen_image]).
  split.
  - rewrite drop_app_ge by (unfold zlen in *; lia). f_equal. unfold zlen in *. lia.
  - rewrite take_app_ge by (unfold zlen in *; lia). do 2 f_equal. unfold zlen in *. lia.
Qed.

(** The packet, read and its header checked, on its way to the parser. *)
Lemma readReq_collects fd big r rest s :
  image_ok r -> waiting fd s -> 8 <= first_piece (k_reads (os s)) ->
  incoming s = wire big r ++ rest ->
  exists N mem evs allocs, ri_total r <= N /\ N <= zlen mem < 2 ^ 31 /\ ri_total r + 1024 <= zlen mem /\
    (forall ctx, readReq ctx s =
       (r' ← parseRequest (ri_total r); if r' <? 0 then mret (-1) else after_parse ctx (ri_total r))
         (moved mem N LSAPI_ST_REQ_HEADER evs allocs s)) /\
    slice 0 N mem = image big big big r [] ++ take (Z.to_nat (N - ri_total r)) rest /\
    data evs = drop (Z.to_nat (N - ri_total r)) rest /\ N - ri_total r <= zlen rest /\
    Forall benign_ev evs /\ false ∉ allocs.
Proof.
  intros Hok Hw Hfirst Hin. pose proof (io_total r Hok) as Ht. unfold LSAPI_MAX_HEADER_LEN in Ht.
  pose proof (ri_order r) as Hord. pose proof (zlen_wire big r Hok) as Hzw.
  destruct Hw as [[Hfd Hfd0] Hp [Hr0 Hb0] Hbuf Hmem Hwr Huid Hnot] eqn:EHw. clear EHw.
  destruct (ensure_buf_spec 8192 (m_pReqBuf (m_in (req s))) (m_bufRead (m_in (req s))) (m_reqState (req s)) (k_reads (os s))
              (k_allocs (os s)) s ltac:(lia) Hbuf Hmem) as (mem1 & al1 & E1 & Hz1 & _ & Ha1).
  fold (start s) in E1. rewrite start_id, Hr0 in E1.
  set (s1 := moved mem1 0 (m_reqState (req s)) (k_reads (os s)) al1 s) in *.
  assert (peer_ok s1) as Hp1 by (by apply (waiting_peer fd); [|apply Hp]).
  destruct (header_phase s1 Hp1 eq_refl) as (n & evs2 & mem2 & E2 & He2 & Hn & Hz2 & Hn2 & Hs2 & Hd2).
  { change (m_pReqBuf (m_in (req s1))) with mem1. lia. }
  { exact Hfirst. }
  change (m_pReqBuf (m_in (req s1))) with mem1 in *. change (incoming s1) with (incoming s) in *.
  subst s1. rewrite moved_filled in E2. rewrite Hin in Hs2, Hd2.
  destruct (take_wire big r rest n ltac:(lia)) as [Tw Ti]. rewrite Tw in Hs2.
  apply slice_prefix in Hs2.
  set (t := take (Z.to_nat (n - 8)) (packet_tail big r ++ rest)) in *.
  set (mem3 := ([76; 83; 1; if big then 1 else 0] ++ le32 (ri_total r) ++ t) ++ drop (Z.to_nat n) mem2).
  assert (verifyHeader mem2 LSAPI_BEGIN_REQUEST = Some (ri_total r, mem3)) as E3.
  { rewrite Hs2, <- !app_assoc. rewrite verifyHeader_wire by (unfold is_s32; lia). subst mem3. by rewrite <- !app_assoc. }
  assert (zlen mem3 = zlen mem2) as Hz3.
  { rewrite Hs2. subst mem3. rewrite !zlen_app, zlen_int_bytes, zlen_le32. done. }
  destruct (ensure_buf_spec (ri_total r + 1024) mem3 n LSAPI_ST_REQ_HEADER evs2 al1 s) as (mem4 & al4 & E4 & Hz4 & [ext Hpre4] & Ha4);
    [lia|lia|done|].
  assert (slice 0 n mem4 = take (Z.to_nat n) (image big big big r [] ++ rest)) as Hs4.
  { rewrite Hpre4, slice_app_l by lia. rewrite Ti. subst mem3. 
    assert (zlen ([76; 83; 1; if big then 1 else 0] ++ le32 (ri_total r) ++ t) = n) as Hzn.
    { rewrite Hin in Hn. subst t. rewrite !zlen_app, zlen_le32, zlen_take by lia. change (zlen [76; 83; 1; if big then 1 else 0]) with 4.
      unfold wire in Hn. rewrite !zlen_app, zlen_int_bytes in Hn. change (zlen [76; 83; 1; if big then 1 else 0]) with 4 in Hn.
      rewrite zlen_app. lia. }
    rewrite <- Hzn at 1. apply slice_app_exact. }
  assert (zlen (data evs2) = zlen (wire big r ++ rest) - n) as Hzd2.
  { rewrite Hd2. unfold zlen in *. rewrite length_drop. rewrite Hin in Hn. lia. }
  destruct (packet_phase (Z.to_nat (ri_total r)) (ri_total r) (moved mem4 n LSAPI_ST_REQ_HEADER evs2 al4 s) n)
    as (evs5 & mem5 & E5 & He5 & Hz5 & Hs5 & Hd5).
  { by apply (waiting_peer fd). }
  { done. }
  { change (m_pReqBuf (m_in (req (moved mem4 n LSAPI_ST_REQ_HEADER evs2 al4 s)))) with mem4. rewrite Hpre4, zlen_app in *.
    pose proof (zlen_nonneg ext). lia. }
  { change (m_pReqBuf (m_in (req (moved mem4 n LSAPI_ST_REQ_HEADER evs2 al4 s)))) with mem4. lia. }
  { change (incoming (moved mem4 n LSAPI_ST_REQ_HEADER evs2 al4 s)) with (data evs2). rewrite Hzd2, zlen_app, Hzw.
    pose proof (zlen_nonneg rest). lia. }
  { lia. }
  change (m_pReqBuf (m_in (req (moved mem4 n LSAPI_ST_REQ_HEADER evs2 al4 s)))) with mem4 in *.
  change (incoming (moved mem4 n LSAPI_ST_REQ_HEADER evs2 al4 s)) with (data evs2) in *.
  set (N := Z.max n (ri_total r)) in *. rewrite moved_filled in E5.
  destruct (drop_image big r rest N Hok ltac:(lia)) as [Dw Di].
  assert (zlen mem4 = zlen mem3 + zlen ext) as Hz4e by (rewrite Hpre4; apply zlen_app). pose proof (zlen_nonneg ext).
  exists N, mem5, evs5, al4. split; [lia|]. split; [lia|]. split; [lia|]. split; [|split; [|split; [|split; [|done]]]].
  - intros ctx. unfold readReq. rewrite (bind_run _ _ _ _ _ E1). cbv beta. change (0 =? -1) with false. cbv iota.
    rewrite (bind_run _ _ _ _ _ E2). cbv beta. change (0 =? -1) with false. cbv iota.
    rewrite (bind_run _ _ _ tt (moved mem2 n LSAPI_ST_REQ_HEADER evs2 al1 s)) by (by destruct s as [[? ? ? [] ? ?] []]).
    rewrite (bind_run _ _ _ mem2 (moved mem2 n LSAPI_ST_REQ_HEADER evs2 al1 s)) by done.
    rewrite (bind_run _ _ _ (ri_total r, mem3) (moved mem2 n LSAPI_ST_REQ_HEADER evs2 al1 s)) by (by rewrite E3).
    rewrite (bind_run _ _ _ tt (moved mem3 n LSAPI_ST_REQ_HEADER evs2 al1 s)) by (by destruct s as [[? ? ? [] ? ?] []]).
    rewrite (proj2 (Z.ltb_ge (ri_total r) 0)), (proj2 (Z.ltb_ge _ (ri_total r))) by (unfold LSAPI_MAX_HEADER_LEN; lia).
    rewrite (bind_run _ _ _ _ _ E4). cbv beta. change (0 =? -1) with false. cbv iota.
    rewrite (bind_run _ _ _ _ _ E5). done.
  - rewrite Hs5, Hs4, Hd2, <- Di. rewrite Hin in Hn.
    assert (drop (Z.to_nat n) (wire big r ++ rest) = drop (Z.to_nat n) (image big big big r [] ++ rest)) as ->.
    { unfold wire. rewrite image_tail, app_nil_r. unfold head. rewrite <- !app_assoc.
      assert (forall a b t : list Z, zlen a = 8 -> zlen b = 8 -> drop (Z.to_nat n) (a ++ t) = drop (Z.to_nat n) (b ++ t)) as Hdr.
      { intros a b t0 Ha Hb. rewrite !drop_app_ge by (unfold zlen in *; lia). f_equal. unfold zlen in *. lia. }
      rewrite (app_assoc _ (int_bytes big (ri_total r))), (app_assoc _ (le32 (ri_total r))). apply Hdr.
      - by rewrite zlen_app, zlen_int_bytes.
      - by rewrite zlen_app, zlen_le32. }
    rewrite take_take_drop. f_equal. lia.
  - rewrite Hd5, Hd2, drop_drop, <- Dw. f_equal. lia.
  - rewrite Hin, zlen_app, Hzw in Hn. pose proof (zlen_nonneg rest). lia.
Qed.

(** Behind the parser: the state, the cursor and the acknowledgement. *)
Lemma after_parse_run ctx T s fd :
  m_fd (req s) = fd -> 0 <= fd -> s_uid (os s) <> 0 -> k_writes (os s) = [] ->
  s_accept_notify (os s) = false -> s_notified_pid (os s) = false -> s_schedule_notify (os s) = false ->
  after_parse ctx T s =
    Some (0, on_os (fun o => set_k_sent (k_sent o ++ [(fd, pkt_bytes s_ack)]) o)
               (on_req (fun q => set_m_reqState (Z.lor LSAPI_ST_REQ_BODY LSAPI_ST_RESP_HEADER)
                                   (set_m_in (set_m_bufProcessed T (m_in q)) q)) s)).
Proof.
  destruct s as [[fdl fd0 state i out app] [? ? ? ? ? uid ? an sn ? np ? wr ? ? ? ? ? ? ?]]. cbn.
  intros -> Hfd Huid -> -> -> ->.
  unfold after_parse, notify_req_received, send_req_received_notification, send_notification_pkt, sys_write, next_write,
    sys_write_ev, signal_stop, mbind, M_bind, get_os, get_req, gets, mod_req, mod_in, mod_os, modify, mret, M_ret.
  cbn. rewrite (proj2 (Z.eqb_neq uid 0)) by done. cbn. rewrite (proj2 (Z.ltb_ge fd 0)) by lia. done.
Qed.

(** The state behind a request that has been read: the input half, what is left of the
    scripts of reads and allocations, and the acknowledgement. *)
Definition request_read (fd : Z) (i : req_in) (evs : list rev) (allocs : list bool) (s : st) : st :=
  on_os (fun o => set_k_sent (k_sent o ++ [(fd, pkt_bytes s_ack)]) (set_k_allocs allocs (set_k_reads evs o)))
    (on_req (fun q => set_m_reqState (Z.lor LSAPI_ST_REQ_BODY LSAPI_ST_RESP_HEADER) (set_m_in i q)) s).

Lemma readReq_run ctx fd big r rest s :
  image_ok r -> (big = true -> swappable r) -> waiting fd s ->
  8 <= first_piece (k_reads (os s)) -> incoming s = wire big r ++ rest -> zlen rest <= ri_bodyLen r ->
  exists i evs allocs slack, let s' := request_read fd i evs allocs s in
    readReq ctx s = Some (0, s') /\
    parsed r i /\ m_pReqBuf i = image big false false r slack /\ 0 < zlen slack /\ m_bufProcessed i = ri_total r /\
    body_ok s' /\ body s' = rest /\ false ∉ allocs.
Proof.
  intros Hok Hsw Hw Hfirst Hin Hrest.
  destruct (readReq_collects fd big r rest s Hok Hw Hfirst Hin) as (N & mem & evs & al & HN & HNz & Hsl & Hrun & Hmem & Hd & HNr & He & Ha).
  destruct Hw as [[Hfd Hfd0] Hp [Hr0 Hb0] Hbuf _ Hwr Huid (Hn1 & Hn2 & Hn3)].
  set (s2 := moved mem N LSAPI_ST_REQ_HEADER evs al s) in *.
  apply slice_prefix in Hmem. rewrite <- app_assoc in Hmem.
  set (slack := take (Z.to_nat (N - ri_total r)) rest ++ drop (Z.to_nat N) mem) in *.
  rewrite <- image_slack in Hmem.
  destruct (parseRequest_run big r slack s2 Hok Hsw Hmem Ha) as (i' & al' & Ep & Hbuf' & Hpa & Hcnt & Hal).
  change (counters (m_in (req s2))) with (m_reqBodyRead (m_in (req s)), m_bufProcessed (m_in (req s)), N) in Hcnt.
  rewrite Hb0 in Hcnt. injection Hcnt as C1 C2 C3.
  set (s3 := on_os (set_k_allocs al') (on_in (fun _ => i') s2)) in *.
  pose proof (ri_order r) as Hord. pose proof (io_total r Hok) as Ht. unfold LSAPI_MAX_HEADER_LEN in Ht.
  set (i4 := set_m_bufProcessed (ri_total r) i').
  set (s4 := on_os (fun o => set_k_sent (k_sent o ++ [(fd, pkt_bytes s_ack)]) o)
               (on_req (fun q => set_m_reqState (Z.lor LSAPI_ST_REQ_BODY LSAPI_ST_RESP_HEADER) (set_m_in i4 q)) s3)).
  assert (after_parse ctx (ri_total r) s3 = Some (0, s4)) as Eafter.
  { rewrite (after_parse_run ctx (ri_total r) s3 fd); [|done..]. done. }
  assert (zlen (image big false false r slack) = zlen mem) as Hzi.
  { rewrite Hmem, !(image_slack big _ _ r slack), !zlen_app, (zlen_image big r Hok).
    destruct big; [by rewrite (zlen_image_big true r Hok)|by rewrite (zlen_image false r Hok)]. }
  assert (zlen slack = zlen mem - ri_total r) as Hzsl.
  { rewrite image_slack, zlen_app, (zlen_image big r Hok) in Hzi. lia. }
  assert (buffered i4 = take (Z.to_nat (N - ri_total r)) rest) as HB.
  { unfold buffered, i4. cbn [m_bufProcessed m_bufRead m_pReqBuf set_m_bufProcessed]. rewrite C3, Hbuf', image_slack.
    rewrite slice_app_r by (rewrite zlen_image; [lia|done]). rewrite (zlen_image big r Hok), Z.sub_diag. subst slack.
    rewrite slice_app_l; [|lia|rewrite zlen_take by lia; lia]. unfold slice. rewrite drop_0, firstn_firstn. f_equal. lia. }
  assert (body_left i4 = ri_bodyLen r) as HL by (unfold body_left, i4; cbn; rewrite C1, (pa_body _ _ Hpa); lia).
  assert (s4 = request_read fd i4 evs al' s) as Es4 by (by destruct s as [[? ? ? [] ? ?] []]).
  exists i4, evs, al', slack. cbv zeta. rewrite <- Es4. split; [by rewrite Hrun, (bind_run _ _ _ _ _ Ep)|].
  split; [by destruct Hpa|]. split; [done|]. split; [lia|]. split; [done|]. split; [|split; [|done]].
  - split.
    + change (m_fd (req s) <> -1). lia.
    + destruct Hp as [Hrn _]. split; [exact Hrn|exact He].
    + change (m_in (req s4)) with i4. subst i4. cbn [m_bufProcessed m_bufRead m_pReqBuf set_m_bufProcessed].
      rewrite C3, Hbuf'. lia.
    + change (m_in (req s4)) with i4. rewrite HB, HL, zlen_take by lia. lia.
    + exists (ri_total r). change (m_pReqBuf (m_in (req s4))) with (m_pReqBuf i'). change (m_bufProcessed (m_in (req s4))) with (ri_total r).
      rewrite Hbuf'. split; [|lia]. unfold image.
      apply (load_s32_mid [76; 83; 1; if big then 1 else 0]); [done|unfold is_s32; lia].
  - unfold body. change (m_in (req s4)) with i4. change (incoming s4) with (data evs). rewrite HB, HL, Hd, take_drop.
    apply take_ge. unfold zlen in *. lia.
Qed.

(** C14. A request that arrives on the connection is read and parsed, in either byte
    order, in whatever pieces and with whatever interruptions it comes, as long as the
    first piece holds a packet header: [readReq] answers 0, the request is the one the
    packet carries, exactly its body stays for the body readers (the part that was
    already buffered included), and the peer gets one acknowledgement packet. *)
Theorem readReq_reads_request ctx fd big r rest s :
  image_ok r -> (big = true -> swappable r) -> waiting fd s ->
  8 <= first_piece (k_reads (os s)) -> incoming s = wire big r ++ rest -> zlen rest <= ri_bodyLen r ->
  exists s' slack,
    readReq ctx s = Some (0, s') /\
    parsed r (m_in (req s')) /\ m_pReqBuf (m_in (req s')) = image big false false r slack /\ 0 < zlen slack /\
    m_reqState (req s') = Z.lor LSAPI_ST_REQ_BODY LSAPI_ST_RESP_HEADER /\
    body_ok s' /\ body s' = rest /\
    k_sent (os s') = k_sent (os s) ++ [(fd, pkt_bytes s_ack)].
Proof.
  intros Hok Hsw Hw Hfirst Hin Hrest. destruct (readReq_run ctx fd big r rest s Hok Hsw Hw Hfirst Hin Hrest)
    as (i & evs & allocs & slack & E & H1 & H2 & H3 & _ & H4 & H5 & _).
  exists (request_read fd i evs allocs s), slack. by repeat (split; [done|]).
Qed.

(** The sample request in big-endian order with a body of 7 bytes, in three pieces. *)
Definition reader (pieces : list (list Z)) : st :=
  on_req (set_m_fd 5) (on_os (set_k_reads ((fun p => mkRev false (RData p)) <$> pieces)) st0).

Definition sample_stream : list Z := wire true sample_request ++ str "a=1&b=2".

Lemma readReq_reads_request_witness :
  exists s' slack,
    readReq ctx0 (reader [take 20 sample_stream; take 30 (drop 20 sample_stream); drop 50 sample_stream]) = Some (0, s') /\
    parsed sample_request (m_in (req s')) /\
    m_pReqBuf (m_in (req s')) = image true false false sample_request slack /\ 0 < zlen slack /\
    m_reqState (req s') = 6 /\ body_ok s' /\ body s' = str "a=1&b=2" /\
    k_sent (os s') = [] ++ [(5, pkt_bytes s_ack)].
Proof.
  apply (readReq_reads_request ctx0 5 true sample_request (str "a=1&b=2"));
    [apply sample_request_ok|intros _; apply sample_request_ok| |vm_compute; discriminate|by vm_compute|by vm_compute].
  split.
  - split; [done|lia].
  - split; [done|]. repeat (constructor; [split; [done|vm_compute; discriminate]|]). constructor.
  - done.
  - by vm_compute.
  - apply not_elem_of_nil.
  - done.
  - discriminate.
  - done.
Defined.

(** A first read of fewer than the 8 bytes of a packet header loses the request:
    the second read is put at the start of the buffer again, over the first piece, so
    the same packet that is accepted whole is refused however it is cut inside its
    header. *)
Theorem readReq_short_first_piece :
  let answer pieces := fst <$> readReq ctx0 (reader pieces) in
  answer [sample_stream] = Some 0 /\
  Forall (fun k => answer [take k sample_stream; drop k sample_stream] = Some (-1)) [1; 2; 3; 4; 5; 6; 7]%nat.
Proof.
  split; [by vm_compute|]. repeat (apply Forall_cons_2; [by vm_compute|]). constructor.
Qed.
