(* ===== verification/Prefork.v ===== *)
(** * The prefork server: the parent process

    The table of children in shared memory, the SIGCHLD handler, the periodic check of
    the children and the accept loop of the parent ([lsapi_prefork_server_accept] of
    lsapilib.c).  One turn of the loop is a function of what the kernel tells the
    process during that turn and of what the children write to the shared memory in it; a
    run is a list of such turns. *)

From S2P Require Export State.

Open Scope Z_scope.

(** ** State *)

(** [lsapi_prefork_server] with the table its pointers describe, and the statics of the
    parent.  [m_pChildrenStatusCur] is an index into the table. *)
Record prefork := mkPrefork {
  pf_fd : Z;
  m_iMaxChildren : Z;
  m_iExtraChildren : Z;
  m_iCurChildren : Z;
  m_iMaxIdleChildren : Z;
  m_iServerMaxIdle : Z;
  m_iChildrenMaxIdleTime : Z;
  m_iMaxReqProcessTime : Z;
  m_iAvoidFork : Z;
  m_pChildrenStatus : option (list lsapi_child_status);  (* None: not mapped yet *)
  m_pChildrenStatusCur : nat;
  pf_busy : option Z;       (* *s_busy_workers *)
  pf_accepting : option Z;  (* *s_accepting_workers *)
  s_max_idle_secs : Z;
  s_max_busy_workers : Z;
  s_dump_debug_info : bool;
  s_pid_dump_debug_info : Z;
  s_ignore_pid : Z
}.

Definition set_m_iCurChildren (v : Z) (p : prefork) : prefork :=
  mkPrefork (pf_fd p) (m_iMaxChildren p) (m_iExtraChildren p) v (m_iMaxIdleChildren p) (m_iServerMaxIdle p)
    (m_iChildrenMaxIdleTime p) (m_iMaxReqProcessTime p) (m_iAvoidFork p) (m_pChildrenStatus p)
    (m_pChildrenStatusCur p) (pf_busy p) (pf_accepting p) (s_max_idle_secs p) (s_max_busy_workers p)
    (s_dump_debug_info p) (s_pid_dump_debug_info p) (s_ignore_pid p).
Definition set_table (l : list lsapi_child_status) (cur : nat) (p : prefork) : prefork :=
  mkPrefork (pf_fd p) (m_iMaxChildren p) (m_iExtraChildren p) (m_iCurChildren p) (m_iMaxIdleChildren p)
    (m_iServerMaxIdle p) (m_iChildrenMaxIdleTime p) (m_iMaxReqProcessTime p) (m_iAvoidFork p) (Some l)
    cur (pf_busy p) (pf_accepting p) (s_max_idle_secs p) (s_max_busy_workers p)
    (s_dump_debug_info p) (s_pid_dump_debug_info p) (s_ignore_pid p).
Definition set_counters (busy accepting : option Z) (p : prefork) : prefork :=
  mkPrefork (pf_fd p) (m_iMaxChildren p) (m_iExtraChildren p) (m_iCurChildren p) (m_iMaxIdleChildren p)
    (m_iServerMaxIdle p) (m_iChildrenMaxIdleTime p) (m_iMaxReqProcessTime p) (m_iAvoidFork p) (m_pChildrenStatus p)
    (m_pChildrenStatusCur p) busy accepting (s_max_idle_secs p) (s_max_busy_workers p)
    (s_dump_debug_info p) (s_pid_dump_debug_info p) (s_ignore_pid p).
Definition set_s_pids (dump ignore : Z) (p : prefork) : prefork :=
  mkPrefork (pf_fd p) (m_iMaxChildren p) (m_iExtraChildren p) (m_iCurChildren p) (m_iMaxIdleChildren p)
    (m_iServerMaxIdle p) (m_iChildrenMaxIdleTime p) (m_iMaxReqProcessTime p) (m_iAvoidFork p) (m_pChildrenStatus p)
    (m_pChildrenStatusCur p) (pf_busy p) (pf_accepting p) (s_max_idle_secs p) (s_max_busy_workers p)
    (s_dump_debug_info p) dump ignore.
Definition set_limits (max extra idle server_idle process : Z) (p : prefork) : prefork :=
  mkPrefork (pf_fd p) max extra (m_iCurChildren p) idle server_idle
    (m_iChildrenMaxIdleTime p) process (m_iAvoidFork p) (m_pChildrenStatus p)
    (m_pChildrenStatusCur p) (pf_busy p) (pf_accepting p) (s_max_idle_secs p) (s_max_busy_workers p)
    (s_dump_debug_info p) (s_pid_dump_debug_info p) (s_ignore_pid p).
Definition set_pf_fd (v : Z) (p : prefork) : prefork :=
  mkPrefork v (m_iMaxChildren p) (m_iExtraChildren p) (m_iCurChildren p) (m_iMaxIdleChildren p)
    (m_iServerMaxIdle p) (m_iChildrenMaxIdleTime p) (m_iMaxReqProcessTime p) (m_iAvoidFork p) (m_pChildrenStatus p)
    (m_pChildrenStatusCur p) (pf_busy p) (pf_accepting p) (s_max_idle_secs p) (s_max_busy_workers p)
    (s_dump_debug_info p) (s_pid_dump_debug_info p) (s_ignore_pid p).

(** The children of a mapped table; an access before the mapping is undefined. *)
Definition table (p : prefork) : list lsapi_child_status := default [] (m_pChildrenStatus p).

Definition null_child : lsapi_child_status := mkChild 0 0 0 0 0 0 0 0 0.

(** ** Setting the server up *)

(** [LSAPI_Init_Prefork_Server] when there is no server yet: [malloc] is whether the
    memory is there, the statics come from [busy_workers] and [idle_secs]. *)
Definition LSAPI_Init_Prefork_Server (max_children avoidFork busy_workers idle_secs : Z) (malloc : bool) : option prefork :=
  if max_children <=? 1 then None
  else
    let max_children := if 10000 <=? max_children then 10000 else max_children in
    let busy_workers := if busy_workers =? 0 then Z.quot max_children 2 + 1 else busy_workers in
    if negb malloc then None
    else
      let avoid := negb (avoidFork =? 0) in
      let extra := if avoid then 0 else Z.quot max_children 3 in
      let idle := if avoid then max_children + 1 else Z.quot max_children 3 in
      let idle := if idle =? 0 then 1 else idle in
      Some (mkPrefork 0 max_children extra 0 idle 0 300 3600 avoidFork None 0 None None idle_secs busy_workers false 0 (-1)).

Definition LSAPI_Set_Server_fd (fd : Z) : prefork -> prefork := set_pf_fd fd.

(** The setters of the limits. *)
Definition LSAPI_Set_Max_Children (n : Z) (p : prefork) : prefork :=
  set_limits n (m_iExtraChildren p) (m_iMaxIdleChildren p) (m_iServerMaxIdle p) (m_iMaxReqProcessTime p) p.
Definition LSAPI_Set_Extra_Children (n : Z) (p : prefork) : prefork :=
  if 0 <=? n
  then set_limits (m_iMaxChildren p) n (m_iMaxIdleChildren p) (m_iServerMaxIdle p) (m_iMaxReqProcessTime p) p
  else p.
Definition LSAPI_Set_Max_Process_Time (secs : Z) (p : prefork) : prefork :=
  if 0 <? secs
  then set_limits (m_iMaxChildren p) (m_iExtraChildren p) (m_iMaxIdleChildren p) (m_iServerMaxIdle p) secs p
  else p.
Definition LSAPI_Set_Max_Idle_Children (n : Z) (p : prefork) : prefork :=
  if 0 <? n
  then set_limits (m_iMaxChildren p) (m_iExtraChildren p) n (m_iServerMaxIdle p) (m_iMaxReqProcessTime p) p
  else p.
Definition LSAPI_Set_Server_Max_Idle_Secs (secs : Z) (p : prefork) : prefork :=
  set_limits (m_iMaxChildren p) (m_iExtraChildren p) (m_iMaxIdleChildren p) secs (m_iMaxReqProcessTime p) p.

(** [lsapi_init_children_status]: the table in fresh shared memory; a failed [mmap] is
    only reported, and its answer is ignored by the callers. *)
Definition lsapi_init_children_status (mmap : bool) (p : prefork) : prefork :=
  match m_pChildrenStatus p with
  | Some _ => p
  | None =>
      if negb mmap then p
      else set_counters (Some 0) (Some 0)
             (set_table (replicate (Z.to_nat (m_iMaxChildren p + m_iExtraChildren p)) null_child) 0 p)
  end.

(** ** The table of children *)

(** The first slot of a child, from slot [i]. *)
Fixpoint find_slot (l : list lsapi_child_status) (i : nat) (pid : Z) : option nat :=
  match l with
  | [] => None
  | c :: l => if m_pid c =? pid then Some i else find_slot l (S i) pid
  end.

(** [find_child_status]: the slot, and the server with the slot reserved when a free one
    was asked for. *)
Definition find_child_status (pid : Z) (p : prefork) : option nat * prefork :=
  match find_slot (table p) 0 pid with
  | None => (None, p)
  | Some i =>
      let l := if pid =? 0 then <[i := set_m_pid (-1) null_child]> (table p) else table p in
      (Some i, set_table l (Nat.max (m_pChildrenStatusCur p) (S i)) p)
  end.

Definition LSAPI_reset_server_state (p : prefork) : prefork :=
  set_counters ((fun _ => 0) <$> pf_busy p) ((fun _ => 0) <$> pf_accepting p)
    (set_table (set_m_pid 0 <$> table p) (m_pChildrenStatusCur p) (set_m_iCurChildren 0 p)).

(** A child that is gone: its state tells which counter it was part of. *)
Definition forget_child (i : nat) (p : prefork) : prefork :=
  match table p !! i with
  | None => p
  | Some c =>
      let '(c, busy, accepting) :=
        if m_state c =? LSAPI_STATE_CONNECTED
        then (set_m_state LSAPI_STATE_IDLE c, (fun n => n - 1) <$> pf_busy p, pf_accepting p)
        else if m_state c =? LSAPI_STATE_ACCEPTING
        then (set_m_state LSAPI_STATE_IDLE c, pf_busy p, (fun n => n - 1) <$> pf_accepting p)
        else (c, pf_busy p, pf_accepting p) in
      set_m_iCurChildren (m_iCurChildren p - 1)
        (set_counters busy accepting
          (set_table (<[i := set_m_pid 0 c]> (table p)) (m_pChildrenStatusCur p) p))
  end.

(** One pid that [waitpid] gave. *)
Definition reap (pid : Z) (p : prefork) : prefork :=
  if pid =? s_pid_dump_debug_info p then p
  else if pid =? s_ignore_pid p then set_s_pids (s_pid_dump_debug_info p) (-1) p
  else
    match find_child_status pid p with
    | (Some i, p) => forget_child i p
    | (None, p) => p
    end.

(** [while (Cur > begin && Cur[-1].m_pid == 0) --Cur]. *)
Fixpoint trim (l : list lsapi_child_status) (cur : nat) : nat :=
  match cur with
  | O => O
  | S n => match l !! n with
           | Some c => if m_pid c =? 0 then trim l n else cur
           | None => cur
           end
  end.

(** [lsapi_sigchild]; [pids] is what [waitpid(WNOHANG)] answers until it answers [<= 0]. *)
Fixpoint reap_all (pids : list Z) (p : prefork) : prefork :=
  match pids with
  | [] => p
  | pid :: pids => if pid <=? 0 then p else reap_all pids (reap pid p)
  end.

Definition lsapi_sigchild (pids : list Z) (p : prefork) : prefork :=
  let p := reap_all pids p in
  match m_pChildrenStatus p with
  | Some l => set_table l (trim l (m_pChildrenStatusCur p)) p
  | None => p
  end.

(** ** The check of the children *)

Definition SIGKILL : Z := 9.
Definition SIGTERM : Z := 15.

(** What the kernel answers during the check: whether [kill] finds no process of a pid,
    the time, and the pid a debugger for a child is forked under. *)
Record probe := mkProbe {
  pr_esrch : Z -> bool;
  pr_time : Z;
  pr_dump_fork : Z -> Z
}.

(** The variables of the loop over the slots: [dying], [idle], the static
    [s_pid_dump_debug_info], and the signals sent so far (pid, signal). *)
Record sweep := mkSweep { sw_dying : Z; sw_idle : Z; sw_dump : Z; sw_sent : list (Z * Z) }.

(** [dump_debug_info]: a debugger for one child at a time. *)
Definition dump_debug_info (k : probe) (c : lsapi_child_status) (w : sweep) : sweep :=
  if negb (sw_dump w =? 0) && negb (pr_esrch k (sw_dump w)) then w
  else mkSweep (sw_dying w) (sw_idle w) (pr_dump_fork k (m_pid c)) (sw_sent w).

(** A child without a request: too many of them, or one idle for too long, is told to
    leave. *)
Definition check_idle (p : prefork) (k : probe) (c : lsapi_child_status) (w : sweep) : lsapi_child_status * sweep :=
  let c :=
    if (m_iMaxChildren p <? m_iCurChildren p - sw_dying w) || (m_iMaxIdleChildren p <? sw_idle w)
    then set_m_iKillSent (s16 (m_iKillSent c + 1)) c
    else if (0 <? s_max_idle_secs p) && (s_max_idle_secs p + 5 <? pr_time k - m_tmWaitBegin c)
    then set_m_iKillSent (s16 (m_iKillSent c + 1)) c
    else c in
  let w := if m_iKillSent c =? 0 then mkSweep (sw_dying w) (sw_idle w + 1) (sw_dump w) (sw_sent w) else w in
  (c, w).

(** The signal is sent; a process that is not there frees its slot. *)
Definition kill_child (k : probe) (sig : Z) (c : lsapi_child_status) (w : sweep) : lsapi_child_status * sweep :=
  let sent := sw_sent w ++ [(m_pid c, sig)] in
  if pr_esrch k (m_pid c)
  then (set_m_pid 0 c, mkSweep (sw_dying w) (sw_idle w) (sw_dump w) sent)
  else (set_m_iKillSent (s16 (m_iKillSent c + 1)) c, mkSweep (sw_dying w + 1) (sw_idle w) (sw_dump w) sent).

(** A child whose request takes too long. *)
Definition check_runaway (p : prefork) (k : probe) (c : lsapi_child_status) (w : sweep) : lsapi_child_status * sweep :=
  if m_iMaxReqProcessTime p <? pr_time k - m_tmReqBegin c then
    let w := if (Z.rem (m_iKillSent c) 5 =? 0) && s_dump_debug_info p then dump_debug_info k c w else w in
    kill_child k (if 5 <? m_iKillSent c then SIGKILL else SIGTERM) c w
  else (c, w).

Definition check_child (p : prefork) (k : probe) (c : lsapi_child_status) (w : sweep) : lsapi_child_status * sweep :=
  if (m_pid c =? 0) || (m_pid c =? -1) then (c, w)
  else if m_inProcess c =? 0 then check_idle p k c w
  else check_runaway p k c w.

(** The loop over the [n] slots before [Cur]. *)
Fixpoint check_children (p : prefork) (k : probe) (l : list lsapi_child_status) (n : nat) (w : sweep)
    : list lsapi_child_status * sweep :=
  match l, n with
  | c :: l, S n =>
      let '(c, w) := check_child p k c w in
      let '(l, w) := check_children p k l n w in
      (c :: l, w)
  | l, _ => (l, w)
  end.

Definition lsapi_check_child_status (k : probe) (p : prefork) : prefork * list (Z * Z) :=
  let '(l, w) := check_children p k (table p) (m_pChildrenStatusCur p) (mkSweep 0 0 (s_pid_dump_debug_info p) []) in
  let p := set_s_pids (sw_dump w) (s_ignore_pid p) p in
  (match m_pChildrenStatus p with Some _ => set_table l (m_pChildrenStatusCur p) p | None => p end, sw_sent w).

(** [is_enough_free_mem]. *)
Definition is_enough_free_mem (avail min_avail total : Z) : bool :=
  (min_avail <? avail) || (0 <? u64 (avail * 10) / total).

(** [lsapi_parent_dead]: [kill0] is whether [kill(s_restored_ppid, 0)] finds no process
    ([-1] with an error other than EPERM). *)
Definition lsapi_parent_dead (s_ppid s_restored_ppid getppid : Z) (kill0 : bool) : bool :=
  if s_ppid =? 0 then false
  else if negb (s_restored_ppid =? 0) then kill0
  else negb (s_ppid =? getppid).

(** ** One turn of the accept loop *)

Inductive select_res := SelReady | SelTimeout | SelEintr | SelErr.
Inductive fork_res := ForkParent (pid : Z) | ForkChild | ForkErr.

(** *** What the children write meanwhile *)

(** The table and the counters are in memory shared with the children.  What a child
    writes there, as its code does it: it has a connection (the state of its slot, then
    the count of busy workers), it has closed it, it waits on the listening socket and has
    stopped to, it begins to wait, a [select] of it timed out, it has read a request. *)
Inductive child_op :=
| ChildConnected
| ChildClosed
| ChildListens
| ChildHeard
| ChildWaits (now : Z)
| ChildTimedOut
| ChildRequest (now : Z).

(** A request was read: the slot shows it. *)
Definition request_begun (now : Z) (c : lsapi_child_status) : lsapi_child_status :=
  set_m_tmLastCheckPoint now (set_m_tmReqBegin now
    (set_m_iReqCounter (s32 (m_iReqCounter c + 1)) (set_m_inProcess 1 (set_m_iKillSent 0 c)))).

(** The writes to the slot of the child, and what is added to [*s_busy_workers] and
    [*s_accepting_workers]. *)
Definition op_slot (op : child_op) : lsapi_child_status -> lsapi_child_status :=
  match op with
  | ChildConnected => set_m_state LSAPI_STATE_CONNECTED
  | ChildClosed | ChildHeard => set_m_state LSAPI_STATE_IDLE
  | ChildListens => set_m_state LSAPI_STATE_ACCEPTING
  | ChildWaits now => set_m_tmWaitBegin now
  | ChildTimedOut => set_m_inProcess 0
  | ChildRequest now => request_begun now
  end.
Definition op_busy (op : child_op) : Z :=
  match op with ChildConnected => 1 | ChildClosed => -1 | _ => 0 end.
Definition op_accepting (op : child_op) : Z :=
  match op with ChildListens => 1 | ChildHeard => -1 | _ => 0 end.

(** A child does this only in the state its code is then in. *)
Definition op_ready (op : child_op) (c : lsapi_child_status) : bool :=
  negb (m_pid c =? 0) &&
  match op with
  | ChildConnected | ChildListens => m_state c =? LSAPI_STATE_IDLE
  | ChildClosed => m_state c =? LSAPI_STATE_CONNECTED
  | ChildHeard => m_state c =? LSAPI_STATE_ACCEPTING
  | _ => true
  end.

(** A write of the child in slot [i]; or a single write of a process that no longer has
    the slot it writes to (it was stopped and given up), or that was killed between the
    two writes of an operation: to the slot alone, or to the counters alone. *)
Inductive child_write :=
| ChildDoes (i : nat) (op : child_op)
| StraySlot (i : nat) (op : child_op)
| StrayCount (busy accepting : Z).

Definition write_slot (i : nat) (op : child_op) (p : prefork) : prefork :=
  match m_pChildrenStatus p with
  | Some l => set_table (alter (op_slot op) i l) (m_pChildrenStatusCur p) p
  | None => p
  end.
(** The counters are not wrapped: without stray writes they count slots of the table. *)
Definition add_counters (busy accepting : Z) (p : prefork) : prefork :=
  set_counters ((fun n => n + busy) <$> pf_busy p) ((fun n => n + accepting) <$> pf_accepting p) p.

Definition child_writes1 (w : child_write) (p : prefork) : prefork :=
  match w with
  | ChildDoes i op =>
      match table p !! i with
      | Some c => if op_ready op c then add_counters (op_busy op) (op_accepting op) (write_slot i op p) else p
      | None => p
      end
  | StraySlot i op => write_slot i op p
  | StrayCount b a => add_counters b a p
  end.

Definition child_writes (ws : list child_write) (p : prefork) : prefork :=
  foldl (fun p w => child_writes1 w p) p ws.

(** *** The turn *)

(** What happens during a turn: what the children write and which of them [waitpid] finds,
    before it and while the server waits in [select]; whether a signal has set [s_stop],
    the process the timer callback says to ignore, whether the parent of the server is
    gone, the time and the processes, the answers of [select], [accept] and [fork]. *)
Record turn := mkTurn {
  t_writes : list child_write;
  t_reaped : list Z;
  t_writes_select : list child_write;
  t_reaped_select : list Z;
  t_stop : bool;
  t_ignore : option Z;
  t_parent_dead : bool;
  t_probe : probe;
  t_select : select_res;
  t_accept : accept_res;
  t_fork : fork_res
}.

(** The loop's own variables; [sel_ret] is [ret], what [select] answered last, and
    [req_fd] is [pReq->m_fd]. *)
Record loop_vars := mkLoop { lastTime : Z; wait_secs : Z; sel_ret : Z; req_fd : Z }.

(** Once a second: the parent, the children, the idle time of the server.  [inl (true, _)]
    leaves the loop, [inl (false, _)] returns -1. *)
Definition each_second (t : turn) (v : loop_vars) (p : prefork) : (bool * prefork) + (loop_vars * prefork) :=
  if pr_time (t_probe t) =? lastTime v then inr (v, p)
  else
    let v := mkLoop (pr_time (t_probe t)) (wait_secs v) (sel_ret v) (req_fd v) in
    if t_parent_dead t then inl (true, p)
    else
      let '(p, _) := lsapi_check_child_status (t_probe t) p in
      if m_iServerMaxIdle p =? 0 then inr (v, p)
      else if m_iCurChildren p <=? 0 then
        if m_iServerMaxIdle p <? wait_secs v + 1 then inl (false, p)
        else inr (mkLoop (lastTime v) (wait_secs v + 1) (sel_ret v) (req_fd v), p)
      else inr (mkLoop (lastTime v) 0 (sel_ret v) (req_fd v), p).

(** How the part of a turn up to [accept] ends: [continue], [break], [return -1], or with
    a connection. *)
Inductive poll_end :=
| PollNext (v : loop_vars) (p : prefork)
| PollBreak (v : loop_vars) (p : prefork)
| PollReturn (v : loop_vars) (p : prefork)
| PollAcceptErr (p : prefork)
| PollConn (v : loop_vars) (p : prefork).

(** After [select] said that there is a connection. *)
Definition try_accept (t : turn) (v : loop_vars) (p : prefork) : poll_end :=
  if (0 <? m_iCurChildren p) && (0 <? default 0 (pf_accepting p)) then PollNext v p
  else if m_iMaxChildren p + m_iExtraChildren p <=? m_iCurChildren p then PollNext v p
  else
    match t_accept t with
    | AccConn fd _ => PollConn (mkLoop (lastTime v) 0 (sel_ret v) fd) p
    | AccRetry => PollNext (mkLoop (lastTime v) (wait_secs v) (sel_ret v) (-1)) p
    | AccErr => PollAcceptErr p
    end.

(** The children before the turn, and the timer callback. *)
Definition turn_children (t : turn) (p : prefork) : prefork :=
  lsapi_sigchild (t_reaped t) (child_writes (t_writes t) p).
Definition turn_ignore (t : turn) (p : prefork) : prefork :=
  match t_ignore t with
  | Some pid => set_s_pids (s_pid_dump_debug_info p) pid p
  | None => p
  end.

Definition poll_turn (t : turn) (v : loop_vars) (p : prefork) : poll_end :=
  let p := turn_children t p in
  if t_stop t then PollBreak v p
  else
    let p := turn_ignore t p in
    match each_second t v p with
    | inl (true, p) => PollBreak v p
    | inl (false, p) => PollReturn v p
    | inr (v, p) =>
        let p := lsapi_sigchild (t_reaped_select t) (child_writes (t_writes_select t) p) in
        let ret n := mkLoop (lastTime v) (wait_secs v) n (req_fd v) in
        match t_select t with
        | SelErr => PollBreak (ret (-1)) p
        | SelEintr => PollNext (ret (-1)) p
        | SelTimeout => PollNext (ret 0) p
        | SelReady => try_accept t (ret 1) p
        end
    end.

(** How a turn of the server ends: with the next one, with the return of -1 (and what is
    then in [pReq->m_fd]), or in a new child that serves the connection from its slot of
    the table ([None]: NULL). *)
Inductive turn_end :=
| Next (v : loop_vars) (p : prefork)
| Stop (fd : Z) (p : prefork)
| InChild (fd : Z) (slot : option nat) (p : prefork).

(** An update of the child behind a pointer that may be NULL. *)
Definition update_slot (f : lsapi_child_status -> lsapi_child_status) (slot : option nat) (p : prefork) : prefork :=
  match slot with
  | Some i => set_table (alter f i (table p)) (m_pChildrenStatusCur p) p
  | None => p
  end.

(** [fork] for the accepted connection; SIGCHLD is blocked around it.  The child keeps the
    descriptor, the parent closes it; [curTime] is the time of the turn. *)
Definition fork_child (t : turn) (v : loop_vars) (p : prefork) : turn_end :=
  let '(slot, p) := find_child_status 0 p in
  let closed v := mkLoop (lastTime v) (wait_secs v) (sel_ret v) (-1) in
  match t_fork t with
  | ForkChild => InChild (req_fd v) slot p
  | ForkErr => Next (closed v) (update_slot (set_m_pid 0) slot p)
  | ForkParent pid =>
      let now := pr_time (t_probe t) in
      Next (closed v) (update_slot (fun c => set_m_tmStart now (set_m_tmWaitBegin now (set_m_pid pid c))) slot
                (set_m_iCurChildren (m_iCurChildren p + 1) p))
  end.

Definition accept_turn (t : turn) (v : loop_vars) (p : prefork) : turn_end :=
  match poll_turn t v p with
  | PollNext v p => Next v p
  | PollBreak v p | PollReturn v p => Stop (req_fd v) p
  | PollAcceptErr p => Stop (-1) p
  | PollConn v p => fork_child t v p
  end.

(** The loop, over the turns the kernel has in store. *)
Fixpoint accept_loop (turns : list turn) (v : loop_vars) (p : prefork) : turn_end :=
  match turns with
  | [] => Next v p
  | t :: turns =>
      match accept_turn t v p with
      | Next v p => accept_loop turns v p
      | e => e
      end
  end.

Definition lsapi_prefork_server_accept (mmap : bool) (turns : list turn) (fd : Z) (p : prefork) : turn_end :=
  accept_loop turns (mkLoop 0 0 0 fd) (lsapi_init_children_status mmap p).

(** ** The same loop for a caller that forks itself *)

(** What [LSAPI_Accept_Before_Fork] returns, the descriptor it leaves in [m_fd], and the
    child it leaves in [child_status] ([None]: the field is not assigned). *)
Record before_fork := mkBefore { bf_ret : Z; bf_fd : Z; bf_slot : option (option nat); bf_server : prefork }.

(** [None]: the loop is still running when the turns are used up. *)
Fixpoint before_fork_loop (turns : list turn) (v : loop_vars) (p : prefork) : option before_fork :=
  match turns with
  | [] => None
  | t :: turns =>
      match poll_turn t v p with
      | PollNext v p => before_fork_loop turns v p
      | PollBreak v p => Some (mkBefore (sel_ret v) (req_fd v) None p)
      | PollReturn v p => Some (mkBefore (-1) (req_fd v) None p)
      | PollAcceptErr p => Some (mkBefore (-1) (-1) None p)
      | PollConn v p =>
          let '(slot, p) := find_child_status 0 p in
          Some (mkBefore 0 (req_fd v) (Some slot) p)
      end
  end.

Definition LSAPI_Accept_Before_Fork (mmap : bool) (turns : list turn) (fd : Z) (p : prefork) : option before_fork :=
  before_fork_loop turns (mkLoop 0 0 0 fd) (lsapi_init_children_status mmap p).

(** [LSAPI_Postfork_Parent]: the parent's side; the pid is stored by the child. *)
Definition LSAPI_Postfork_Parent (slot : option nat) (now : Z) (p : prefork) : prefork :=
  update_slot (fun c => set_m_tmStart now (set_m_tmWaitBegin now c)) slot
    (set_m_iCurChildren (m_iCurChildren p + 1) p).
