(* ===== verification/PreforkSpec.v ===== *)
(** * Theorems on the prefork server

    The invariant of the table of children over every run of the parent and whatever the
    children write to it meanwhile, what the SIGCHLD handler does to the counters of the
    workers, which children the periodic check signals at every turn, and when the server
    stops. *)

From S2P Require Export Prefork.

Open Scope Z_scope.

(** ** Counting the slots *)

(** The slots for which [f] holds. *)
Fixpoint count_slots (f : lsapi_child_status -> bool) (l : list lsapi_child_status) : Z :=
  match l with
  | [] => 0
  | c :: l => (if f c then 1 else 0) + count_slots f l
  end.

Definition in_use (c : lsapi_child_status) : bool := negb (m_pid c =? 0).
Definition in_state (st : Z) (c : lsapi_child_status) : bool := m_state c =? st.

Lemma count_slots_bounds f l : 0 <= count_slots f l <= Z.of_nat (length l).
Proof. induction l as [|c l IH]; simpl; [lia|]. destruct (f c); lia. Qed.

Lemma count_slots_insert f l i c0 c :
  l !! i = Some c0 ->
  count_slots f (<[i := c]> l) = count_slots f l - (if f c0 then 1 else 0) + (if f c then 1 else 0).
Proof.
  revert i. induction l as [|x l IH]; intros [|i]; simpl; try done.
  - intros [= ->]. lia.
  - intros E. rewrite (IH _ E). lia.
Qed.

Lemma alter_is_insert (g : lsapi_child_status -> lsapi_child_status) (l : list lsapi_child_status) (i : nat) c0 :
  l !! i = Some c0 -> alter g i l = <[i := g c0]> l.
Proof. intros E. rewrite list_insert_alter. apply list_alter_ext; [congruence|done]. Qed.

Lemma count_slots_all f l : (forall c, c ∈ l -> f c = true) -> count_slots f l = Z.of_nat (length l).
Proof.
  induction l as [|c l IH]; intros A; simpl; [done|].
  rewrite (A c) by constructor. rewrite IH by (intros; apply A; by constructor). lia.
Qed.

Lemma count_slots_replicate f n c : f c = false -> count_slots f (replicate n c) = 0.
Proof. intros E. induction n as [|n IH]; simpl; [done|]. by rewrite E, IH. Qed.

Lemma count_slots_ext f l l' :
  Forall2 (fun c c' => (f c' = true -> f c = true)) l l' -> count_slots f l' <= count_slots f l.
Proof.
  induction 1 as [|c c' l l' E ? IH]; simpl; [lia|].
  destruct (f c') eqn:?; [rewrite E by done; lia|]. destruct (f c); lia.
Qed.

Lemma find_slot_spec l pid : forall i,
  match find_slot l i pid with
  | Some j => exists n c, j = (i + n)%nat /\ l !! n = Some c /\ m_pid c = pid
  | None => forall c, c ∈ l -> m_pid c <> pid
  end.
Proof.
  induction l as [|c l IH]; intros i; cbn; [by intros c []%not_elem_of_nil|].
  destruct (Z.eqb_spec (m_pid c) pid) as [E|E].
  { exists 0%nat, c. split; [lia|done]. }
  specialize (IH (S i)). destruct (find_slot l (S i) pid) as [j|].
  - destruct IH as (n & c' & -> & L & P). exists (S n), c'. split; [lia|done].
  - intros c' [->|M']%elem_of_cons; [done|by apply IH].
Qed.

Lemma find_slot_first l pid :
  match find_slot l 0 pid with
  | Some i => exists c, l !! i = Some c /\ m_pid c = pid
  | None => forall c, c ∈ l -> m_pid c <> pid
  end.
Proof.
  pose proof (find_slot_spec l pid 0) as F. destruct (find_slot l 0 pid) as [j|]; [|done].
  destruct F as (n & c & -> & L & P). by exists c.
Qed.

(** ** The invariant *)

(** The table of [n] slots whose slots from [cur] on are free, with at most [k] of them
    in use. *)
Record table_inv (n : Z) (l : list lsapi_child_status) (cur : nat) (k : Z) : Prop := {
  ti_length : Z.of_nat (length l) = n;
  ti_cur : (cur <= length l)%nat;
  ti_free : forall i c, l !! i = Some c -> (cur <= i)%nat -> m_pid c = 0;
  ti_used : count_slots in_use l <= k
}.

(** The table of the server, with at most [d] more slots in use than children. *)
Definition table_ok (d : Z) (p : prefork) : Prop :=
  exists l, m_pChildrenStatus p = Some l /\
    table_inv (m_iMaxChildren p + m_iExtraChildren p) l (m_pChildrenStatusCur p) (m_iCurChildren p + d).

(** The invariant of the server between two turns. *)
Record server_inv (p : prefork) : Prop := {
  si_table : table_ok 0 p;
  si_limit : m_iCurChildren p <= m_iMaxChildren p + m_iExtraChildren p
}.

Lemma ti_insert n l cur k i c0 c :
  l !! i = Some c0 -> (i < cur)%nat -> table_inv n l cur k ->
  table_inv n (<[i := c]> l) cur (k - (if in_use c0 then 1 else 0) + (if in_use c then 1 else 0)).
Proof.
  intros L Hi [A B C D]. split.
  - by rewrite length_insert.
  - by rewrite length_insert.
  - intros j c' E Hj. rewrite list_lookup_insert_ne in E by lia. eauto.
  - rewrite (count_slots_insert _ _ _ _ _ L). lia.
Qed.

Lemma ti_grow n l cur k cur' :
  (cur' <= length l)%nat -> table_inv n l cur k -> table_inv n l (Nat.max cur cur') k.
Proof.
  intros H [A B C D]. split; [done|lia| |done].
  intros i c E Hi. apply (C i c E). lia.
Qed.

Lemma ti_weaken n l cur k k' : k <= k' -> table_inv n l cur k -> table_inv n l cur k'.
Proof. intros ? [A B C D]. split; [done..|lia]. Qed.

Lemma trim_spec l cur :
  (trim l cur <= cur)%nat /\
  forall i c, l !! i = Some c -> (trim l cur <= i < cur)%nat -> m_pid c = 0.
Proof.
  induction cur as [|cur [IH1 IH2]]; cbn; [split; [lia|lia]|].
  destruct (l !! cur) as [c|] eqn:E; [|split; [lia|lia]].
  destruct (Z.eqb_spec (m_pid c) 0) as [P|P]; [|split; [lia|lia]].
  split; [lia|]. intros i c' L Hi. destruct (decide (i = cur)) as [->|]; [congruence|].
  apply (IH2 i c' L). lia.
Qed.

Lemma ti_trim n l cur k : table_inv n l cur k -> table_inv n l (trim l cur) k.
Proof.
  intros [A B C D]. destruct (trim_spec l cur) as [T1 T2]. split; [done|lia| |done].
  intros i c E Hi. destruct (decide (i < cur)%nat); [apply (T2 i c E); lia|apply (C i c E); lia].
Qed.

(** ** The operations *)

(** What no operation of a running server changes. *)
Definition same_limits (p p' : prefork) : Prop :=
  m_iMaxChildren p' = m_iMaxChildren p /\ m_iExtraChildren p' = m_iExtraChildren p /\
  m_iServerMaxIdle p' = m_iServerMaxIdle p.

Lemma same_limits_refl p : same_limits p p.
Proof. done. Qed.
Lemma same_limits_trans p q r : same_limits p q -> same_limits q r -> same_limits p r.
Proof. unfold same_limits. intros (? & ? & ?) (? & ? & ?). repeat split; congruence. Qed.

(** A slot that was found, other than by asking for a free one. *)
Lemma find_child_status_pid pid p d :
  pid <> 0 -> table_ok d p ->
  match find_child_status pid p with
  | (Some i, p') => table_ok d p' /\ same_limits p p' /\ m_iCurChildren p' = m_iCurChildren p /\
      pf_busy p' = pf_busy p /\ pf_accepting p' = pf_accepting p /\
      table p' = table p /\ (i < m_pChildrenStatusCur p')%nat /\ exists c, table p !! i = Some c /\ m_pid c = pid
  | (None, p') => p' = p /\ forall c, c ∈ table p -> m_pid c <> pid
  end.
Proof.
  intros Hp (l & T & I). unfold find_child_status. pose proof (find_slot_first (table p) pid) as F.
  destruct (find_slot _ _ _) as [i|]; [|done]. destruct F as (c & L & P).
  replace (pid =? 0) with false by lia. unfold table in *. rewrite T in *. cbn in *.
  repeat split; try done; try lia; [|by exists c].
  exists l. split; [done|]. cbn. apply ti_grow; [|done]. apply lookup_lt_Some in L. lia.
Qed.

(** A free slot that was reserved. *)
Lemma find_child_status_free p :
  table_ok 0 p -> m_iCurChildren p < m_iMaxChildren p + m_iExtraChildren p ->
  exists i p', find_child_status 0 p = (Some i, p') /\ table_ok 1 p' /\ same_limits p p' /\
    m_iCurChildren p' = m_iCurChildren p /\ (i < m_pChildrenStatusCur p')%nat /\
    table p' !! i = Some (set_m_pid (-1) null_child).
Proof.
  intros (l & T & I) H. unfold find_child_status. pose proof (find_slot_first (table p) 0) as F.
  unfold table in *. rewrite T in *. cbn in *. destruct (find_slot _ _ _) as [i|].
  2: { exfalso. destruct I as [A B C D]. rewrite count_slots_all in D; [lia|].
       intros c Hc. unfold in_use. specialize (F c Hc). lia. }
  destruct F as (c & L & P). exists i. eexists. split; [done|].
  pose proof (lookup_lt_Some _ _ _ L).
  repeat split; cbn; try lia; [|by rewrite list_lookup_insert_eq].
  eexists. split; [done|]. cbn.
  apply (ti_grow _ _ _ _ (S i)) in I; [|lia].
  apply (ti_insert _ _ _ _ _ _ (set_m_pid (-1) null_child) L) in I; [|lia].
  eapply ti_weaken; [|done]. unfold in_use at 1. rewrite P. cbn. lia.
Qed.

(** What a step of the parent keeps: the invariant, the limits, and no new children. *)
Definition keeps_server (p p' : prefork) : Prop :=
  same_limits p p' /\ m_iCurChildren p' <= m_iCurChildren p /\ (table_ok 0 p -> table_ok 0 p').

Lemma keeps_server_refl p : keeps_server p p.
Proof. split; [done|]. split; [lia|done]. Qed.
Lemma keeps_server_trans p q r : keeps_server p q -> keeps_server q r -> keeps_server p r.
Proof.
  intros (A & B & C) (A' & B' & C'). split; [by eapply same_limits_trans|]. split; [lia|auto].
Qed.

Lemma keeps_server_inv p p' : keeps_server p p' -> server_inv p -> server_inv p'.
Proof. intros ((E1 & E2 & _) & B & C) [T L]. split; [auto|]. rewrite E1, E2. lia. Qed.

(** A change of a slot before [Cur] that a child leaves. *)
Lemma table_ok_update d p i c0 c busy accepting cur k :
  table_ok d p -> table p !! i = Some c0 -> (i < m_pChildrenStatusCur p)%nat ->
  cur = m_pChildrenStatusCur p ->
  k = m_iCurChildren p - (if in_use c0 then 1 else 0) + (if in_use c then 1 else 0) ->
  table_ok d (set_m_iCurChildren k (set_counters busy accepting (set_table (<[i := c]> (table p)) cur p))).
Proof.
  intros (l & T & I) L Hi -> ->. unfold table in *. rewrite T in *. eexists. split; [done|]. cbn in *.
  apply (ti_insert _ _ _ _ _ _ c L) in I; [|done]. eapply ti_weaken; [|done]. lia.
Qed.

(** ** The SIGCHLD handler *)

Lemma forget_child_keeps d p i c :
  table_ok d p -> table p !! i = Some c -> m_pid c <> 0 -> (i < m_pChildrenStatusCur p)%nat ->
  table_ok d (forget_child i p) /\ same_limits p (forget_child i p) /\ m_iCurChildren (forget_child i p) = m_iCurChildren p - 1.
Proof.
  intros T L P Hi. unfold forget_child. rewrite L.
  assert (in_use c = true) as U by (unfold in_use; lia).
  destruct (m_state c =? LSAPI_STATE_CONNECTED); [|destruct (m_state c =? LSAPI_STATE_ACCEPTING)];
    (split; [|done]); eapply table_ok_update; try done; rewrite U; cbn; lia.
Qed.

Lemma reap_keeps pid p : pid <> 0 -> keeps_server p (reap pid p).
Proof.
  intros Hp. unfold reap. destruct (pid =? _); [apply keeps_server_refl|].
  destruct (pid =? _); [split; [done|split; [cbn; lia|done]]|].
  unfold find_child_status. pose proof (find_slot_first (table p) pid) as F.
  destruct (find_slot _ _ _) as [i|] eqn:E; [|apply keeps_server_refl].
  destruct F as (c & L & P).
  replace (pid =? 0) with false by lia.
  set (p1 := set_table (table p) _ p).
  assert (forall q, m_iCurChildren (forget_child i q) <= m_iCurChildren q /\ same_limits q (forget_child i q)) as G.
  { intros q. unfold forget_child. destruct (table q !! i) as [c'|]; [|split; [lia|done]].
    destruct (m_state c' =? _); [|destruct (m_state c' =? _)]; cbn; (split; [lia|done]). }
  destruct (G p1) as [G1 G2]. split; [done|]. split; [done|].
  intros T. pose proof (find_child_status_pid pid p 0 Hp T) as F'. unfold find_child_status in F'.
  rewrite E in F'. replace (pid =? 0) with false in F' by lia.
  destruct F' as (T' & _ & _ & _ & _ & _ & Hi & c' & L' & P').
  eapply (forget_child_keeps 0 p1 i c'); [done|done|lia|done].
Qed.

Lemma reap_all_keeps pids p : keeps_server p (reap_all pids p).
Proof.
  revert p. induction pids as [|pid pids IH]; intros p; cbn; [apply keeps_server_refl|].
  destruct (Z.leb_spec pid 0); [apply keeps_server_refl|].
  apply (keeps_server_trans _ (reap pid p)); [apply reap_keeps; lia|apply IH].
Qed.

Lemma lsapi_sigchild_keeps pids p : keeps_server p (lsapi_sigchild pids p).
Proof.
  unfold lsapi_sigchild. eapply keeps_server_trans; [apply reap_all_keeps|].
  destruct (m_pChildrenStatus _) as [l|] eqn:E; [|apply keeps_server_refl].
  split; [done|]. split; [cbn; lia|]. intros (l' & T & I). rewrite T in E. injection E as ->.
  eexists. split; [done|]. cbn. by apply ti_trim.
Qed.

(** ** The check of the children *)

Lemma check_child_pid p k c w : m_pid (check_child p k c w).1 = m_pid c \/ m_pid (check_child p k c w).1 = 0.
Proof.
  unfold check_child, check_idle, check_runaway, kill_child.
  repeat (case_match; cbn; auto).
Qed.

Lemma check_children_shape p k l : forall n w,
  Forall2 (fun c c' => m_pid c' = m_pid c \/ m_pid c' = 0) l (check_children p k l n w).1.
Proof.
  induction l as [|c l IH]; intros [|n] w; cbn; try (by repeat constructor).
  - constructor; [auto|]. clear. induction l; auto.
  - pose proof (check_child_pid p k c w) as C. destruct (check_child p k c w) as [c' w'].
    specialize (IH n w'). destruct (check_children p k l n w') as [l' w'']. by constructor.
Qed.

Lemma lsapi_check_child_status_keeps k p : keeps_server p (lsapi_check_child_status k p).1.
Proof.
  unfold lsapi_check_child_status.
  pose proof (check_children_shape p k (table p) (m_pChildrenStatusCur p) (mkSweep 0 0 (s_pid_dump_debug_info p) [])) as F.
  destruct (check_children _ _ _ _ _) as [l w]. cbn in *.
  destruct (m_pChildrenStatus p) as [l0|] eqn:E; (split; [done|]); (split; [cbn; lia|]).
  2: { intros (l' & T & _). congruence. }
  intros (l' & T & I). rewrite E in T. injection T as <-. unfold table in F. rewrite E in F. cbn in F.
  eexists. split; [done|]. cbn. destruct I as [A B C D]. pose proof (Forall2_length _ _ _ F).
  split; [lia|lia| |].
  - intros i c L Hi. destruct (Forall2_lookup_r _ _ _ _ _ F L) as (c0 & L0 & [->| ->]); eauto.
  - etransitivity; [|exact D]. apply count_slots_ext. eapply Forall2_impl; [exact F|].
    intros c c' [E'|E']; unfold in_use; rewrite E'; done.
Qed.

(** ** The writes of the children *)

Lemma op_slot_pid op c : m_pid (op_slot op c) = m_pid c.
Proof. by destruct op. Qed.

(** A change of one slot that leaves its pid. *)
Lemma ti_alter n l cur k (f : lsapi_child_status -> lsapi_child_status) i :
  (forall c, m_pid (f c) = m_pid c) -> table_inv n l cur k -> table_inv n (alter f i l) cur k.
Proof.
  intros F [A B C D].
  assert (Forall2 (fun c c' => m_pid c' = m_pid c) l (alter f i l)) as R.
  { apply Forall2_same_length_lookup. rewrite length_alter. split; [done|].
    intros j c c' E. rewrite list_lookup_alter. destruct (decide (i = j)) as [<-|]; [|intros E2; congruence].
    rewrite E. intros [= <-]. apply F. }
  split; rewrite ?length_alter; [done|done| |].
  - intros j c E Hj. destruct (Forall2_lookup_r _ _ _ _ _ R E) as (c0 & E0 & ->). eauto.
  - etransitivity; [|exact D]. apply count_slots_ext. eapply Forall2_impl; [exact R|].
    intros c c' E'. unfold in_use. by rewrite E'.
Qed.

Lemma add_counters_keeps b a p : keeps_server p (add_counters b a p).
Proof. split; [done|]. split; [cbn; lia|done]. Qed.

Lemma write_slot_keeps i op p : keeps_server p (write_slot i op p).
Proof.
  unfold write_slot. destruct (m_pChildrenStatus p) as [l|] eqn:E; [|apply keeps_server_refl].
  split; [done|]. split; [cbn; lia|]. intros (l' & T & I). rewrite T in E. injection E as ->.
  eexists. split; [done|]. cbn. apply ti_alter; [apply op_slot_pid|exact I].
Qed.

Lemma child_writes_keeps ws p : keeps_server p (child_writes ws p).
Proof.
  unfold child_writes. revert p. induction ws as [|w ws IH]; intros p; cbn; [apply keeps_server_refl|].
  eapply keeps_server_trans; [|apply IH]. destruct w as [i op|i op|b a]; cbn [child_writes1].
  - destruct (table p !! i) as [c|]; [|apply keeps_server_refl].
    destruct (op_ready op c); [|apply keeps_server_refl].
    eapply keeps_server_trans; [apply write_slot_keeps|apply add_counters_keeps].
  - apply write_slot_keeps.
  - apply add_counters_keeps.
Qed.

(** ** A turn *)

Lemma turn_children_keeps t p : keeps_server p (turn_children t p).
Proof. eapply keeps_server_trans; [apply child_writes_keeps|apply lsapi_sigchild_keeps]. Qed.

Lemma turn_ignore_keeps t p : keeps_server p (turn_ignore t p).
Proof.
  unfold turn_ignore. destruct (t_ignore t); [|apply keeps_server_refl]. split; [done|]. split; [cbn; lia|done].
Qed.

Lemma each_second_keeps t v p :
  match each_second t v p with
  | inl (_, p') | inr (_, p') => keeps_server p p'
  end.
Proof.
  unfold each_second. pose proof (lsapi_check_child_status_keeps (t_probe t) p) as K.
  destruct (_ =? _); [apply keeps_server_refl|]. destruct (t_parent_dead t); [apply keeps_server_refl|].
  destruct (lsapi_check_child_status _ p) as [p' sent]. cbn in K. repeat case_match; simplify_eq; done.
Qed.

Lemma poll_turn_keeps t v p :
  match poll_turn t v p with
  | PollNext _ p' | PollBreak _ p' | PollReturn _ p' | PollAcceptErr p' => keeps_server p p'
  | PollConn _ p' => keeps_server p p' /\ m_iCurChildren p' < m_iMaxChildren p' + m_iExtraChildren p'
  end.
Proof.
  unfold poll_turn. pose proof (turn_children_keeps t p) as K. revert K.
  generalize (turn_children t p). intros p1 K. destruct (t_stop t); [done|].
  assert (keeps_server p (turn_ignore t p1)) as K2 by (eapply keeps_server_trans; [exact K|apply turn_ignore_keeps]).
  revert K2. generalize (turn_ignore t p1). intros p2 K2. clear K p1. pose proof (each_second_keeps t v p2) as K.
  destruct (each_second t v p2) as [[[] p3]|[v3 p3]]; try (by eapply keeps_server_trans).
  assert (keeps_server p (lsapi_sigchild (t_reaped_select t) (child_writes (t_writes_select t) p3))) as K4.
  { do 2 (eapply keeps_server_trans; [done|]).
    eapply keeps_server_trans; [apply child_writes_keeps|apply lsapi_sigchild_keeps]. }
  revert K4. generalize (lsapi_sigchild (t_reaped_select t) (child_writes (t_writes_select t) p3)). intros p4 K4.
  destruct (t_select t); try done. unfold try_accept.
  destruct (_ && _); [done|]. destruct (Z.leb_spec (m_iMaxChildren p4 + m_iExtraChildren p4) (m_iCurChildren p4)); [done|].
  by destruct (t_accept t).
Qed.

(** How a turn may end in a server with the invariant [server_inv]: a new child has a
    slot of its own, freshly reserved. *)
Definition good_end (e : turn_end) : Prop :=
  match e with
  | Next _ p | Stop _ p => server_inv p
  | InChild fd slot p => exists i, slot = Some i /\ table p !! i = Some (set_m_pid (-1) null_child) /\
      count_slots in_use (table p) <= m_iMaxChildren p + m_iExtraChildren p
  end.

Lemma update_slot_same (f : lsapi_child_status -> lsapi_child_status) i p d :
  table_ok d p -> (i < m_pChildrenStatusCur p)%nat ->
  (forall c, table p !! i = Some c -> in_use c = true) -> table_ok d (update_slot f (Some i) p).
Proof.
  intros (l & T & I) Hi U. unfold update_slot. unfold table in *. rewrite T in *. cbn in *.
  eexists. split; [done|]. cbn. destruct (l !! i) as [c|] eqn:L.
  - rewrite (alter_is_insert f l i c L). eapply ti_weaken; [|exact (ti_insert _ _ _ _ i c (f c) L Hi I)].
    rewrite (U c eq_refl). destruct (in_use (f c)); lia.
  - enough (alter f i l = l) as -> by done. apply list_eq. intros j. rewrite list_lookup_alter.
    destruct (decide (i = j)) as [<-|]; [by rewrite L|done].
Qed.

(** Freeing a reserved slot. *)
Lemma update_slot_free i p :
  table_ok 1 p -> (i < m_pChildrenStatusCur p)%nat -> table p !! i = Some (set_m_pid (-1) null_child) ->
  table_ok 0 (update_slot (set_m_pid 0) (Some i) p).
Proof.
  intros (l & T & I) Hi L. unfold update_slot. unfold table in *. rewrite T in *. cbn in *.
  eexists. split; [done|]. cbn. rewrite (alter_is_insert _ _ _ _ L).
  apply (ti_insert _ _ _ _ _ _ (set_m_pid 0 (set_m_pid (-1) null_child)) L) in I; [|done].
  eapply ti_weaken; [|done]. cbn. lia.
Qed.

Lemma fork_child_good t v p :
  server_inv p -> m_iCurChildren p < m_iMaxChildren p + m_iExtraChildren p -> good_end (fork_child t v p).
Proof.
  intros [T L] B. destruct (find_child_status_free p T B) as (i & p' & E & T' & (S1 & S2 & _) & C & Hi & Ei).
  unfold fork_child. rewrite E. destruct (t_fork t) as [pid| |]; cbn.
  - destruct (update_slot_same (fun c => set_m_tmStart (pr_time (t_probe t))
        (set_m_tmWaitBegin (pr_time (t_probe t)) (set_m_pid pid c))) i p' 1 T' Hi) as (l & Tl & Il).
    { intros c Hc. rewrite Ei in Hc. by simplify_eq. }
    split; cbn in *; [|lia]. exists l. split; [done|]. eapply ti_weaken; [|exact Il]. cbn. lia.
  - exists i. split; [done|]. split; [done|]. destruct T' as (l & Tl & [A B' C' D]).
    unfold table. rewrite Tl. cbn. lia.
  - split; [by apply update_slot_free|cbn; lia].
Qed.

Lemma accept_turn_good t v p : server_inv p -> good_end (accept_turn t v p).
Proof.
  intros I. unfold accept_turn. pose proof (poll_turn_keeps t v p) as K.
  destruct (poll_turn t v p) as [v' p'|v' p'|v' p'|p'|v' p']; try (by eapply keeps_server_inv).
  destruct K as [K B]. apply fork_child_good; [by eapply keeps_server_inv|done].
Qed.

Lemma accept_loop_good turns v p : server_inv p -> good_end (accept_loop turns v p).
Proof.
  revert v p. induction turns as [|t turns IH]; intros v p I; cbn; [done|].
  pose proof (accept_turn_good t v p I) as G. destruct (accept_turn t v p); [by apply IH|done..].
Qed.

Lemma lsapi_init_children_status_inv p :
  m_pChildrenStatus p = None -> m_iCurChildren p = 0 -> 0 <= m_iMaxChildren p + m_iExtraChildren p ->
  server_inv (lsapi_init_children_status true p).
Proof.
  intros N C B. unfold lsapi_init_children_status. rewrite N. cbn.
  split; cbn; [|lia]. eexists. split; [done|]. cbn. split.
  - rewrite length_replicate. lia.
  - lia.
  - intros i c [-> _]%lookup_replicate _. done.
  - rewrite count_slots_replicate by done. lia.
Qed.

(** A server of three children at most, no memory pressure, and turns that bring a
    connection each. *)
Definition prefork3 : prefork :=
  default (mkPrefork 0 0 0 0 0 0 0 0 0 None 0 None None 0 0 false 0 0) (LSAPI_Init_Prefork_Server 3 0 0 300 true).
Definition quiet_probe (now : Z) : probe := mkProbe (fun _ => false) now (fun _ => 0).
Definition conn_turn (now pid : Z) : turn :=
  mkTurn [] [] [] [] false None false (quiet_probe now) SelReady (AccConn 7 true) (ForkParent pid).
Definition timeout_turn (now : Z) : turn :=
  mkTurn [] [] [] [] false None false (quiet_probe now) SelTimeout AccErr ForkErr.

(** ** The counters of the workers *)

(** What dying does to a slot: its state if it was counted, and its pid. *)
Definition forgotten (c : lsapi_child_status) : lsapi_child_status :=
  set_m_pid 0 (if in_state LSAPI_STATE_CONNECTED c || in_state LSAPI_STATE_ACCEPTING c
               then set_m_state LSAPI_STATE_IDLE c else c).

(** A slot is as it was, or it is that of a child in [pids] and was given up. *)
Definition reaped_by (pids : list Z) (c c' : lsapi_child_status) : Prop :=
  c' = c \/ (m_pid c ∈ pids /\ m_pid c > 0 /\ c' = forgotten c).

Definition offset (n : option Z) (st : Z) (p : prefork) : option Z :=
  (fun n => n - count_slots (in_state st) (table p)) <$> n.

(** What the handler keeps of the books. *)
Record books (p p' : prefork) : Prop := {
  bk_busy : offset (pf_busy p') LSAPI_STATE_CONNECTED p' = offset (pf_busy p) LSAPI_STATE_CONNECTED p;
  bk_accepting : offset (pf_accepting p') LSAPI_STATE_ACCEPTING p' = offset (pf_accepting p) LSAPI_STATE_ACCEPTING p;
  bk_children : m_iCurChildren p' - count_slots in_use (table p') = m_iCurChildren p - count_slots in_use (table p)
}.

Lemma books_refl p : books p p.
Proof. done. Qed.
Lemma books_trans p q r : books p q -> books q r -> books p r.
Proof. intros [] []. split; congruence. Qed.

Lemma forgotten_state st c : st <> LSAPI_STATE_IDLE ->
  in_state st (forgotten c) = in_state st c && negb (in_state LSAPI_STATE_CONNECTED c || in_state LSAPI_STATE_ACCEPTING c).
Proof.
  intros H. unfold forgotten, in_state. destruct (_ || _) eqn:E; cbn.
  - rewrite andb_false_r. by destruct st.
  - by rewrite andb_true_r.
Qed.

Definition ind (b : bool) : Z := if b then 1 else 0.

(** The books after an update of one slot. *)
Lemma books_update p i c c' busy accepting k :
  table p !! i = Some c ->
  busy = (fun n => n - ind (in_state LSAPI_STATE_CONNECTED c) + ind (in_state LSAPI_STATE_CONNECTED c')) <$> pf_busy p ->
  accepting = (fun n => n - ind (in_state LSAPI_STATE_ACCEPTING c) + ind (in_state LSAPI_STATE_ACCEPTING c')) <$> pf_accepting p ->
  k = m_iCurChildren p - ind (in_use c) + ind (in_use c') ->
  books p (set_m_iCurChildren k (set_counters busy accepting (set_table (<[i := c']> (table p)) (m_pChildrenStatusCur p) p))).
Proof.
  intros L -> -> ->. split; unfold offset; simpl; unfold table at 1; simpl;
    rewrite (count_slots_insert _ _ _ _ _ L); unfold ind.
  - destruct (pf_busy p); simpl; [f_equal; lia|done].
  - destruct (pf_accepting p); simpl; [f_equal; lia|done].
  - lia.
Qed.

Lemma forget_child_spec i p c :
  table p !! i = Some c -> m_pid c <> 0 ->
  table (forget_child i p) = <[i := forgotten c]> (table p) /\ books p (forget_child i p).
Proof.
  intros L P. unfold forget_child. rewrite L.
  assert (in_use c = true) as U by (unfold in_use; lia).
  pose proof (forgotten_state LSAPI_STATE_CONNECTED c ltac:(done)) as F1.
  pose proof (forgotten_state LSAPI_STATE_ACCEPTING c ltac:(done)) as F2. unfold forgotten in *.
  change (m_state c =? LSAPI_STATE_CONNECTED) with (in_state LSAPI_STATE_CONNECTED c).
  change (m_state c =? LSAPI_STATE_ACCEPTING) with (in_state LSAPI_STATE_ACCEPTING c).
  assert (in_state LSAPI_STATE_CONNECTED c = true -> in_state LSAPI_STATE_ACCEPTING c = false) as X.
  { unfold in_state, LSAPI_STATE_CONNECTED, LSAPI_STATE_ACCEPTING. lia. }
  destruct (in_state LSAPI_STATE_CONNECTED c) eqn:E1, (in_state LSAPI_STATE_ACCEPTING c) eqn:E2; try (discriminate (X eq_refl));
    cbv beta iota delta [orb andb negb] in F1, F2;
    (split; [done|]); apply (books_update p i c); try done;
    rewrite ?E1, ?E2, ?F1, ?F2, ?U; try (simpl; lia);
    (destruct (pf_busy p), (pf_accepting p); simpl; try done; f_equal; lia).
Qed.

Lemma reap_spec pid p : 0 < pid ->
  Forall2 (reaped_by [pid]) (table p) (table (reap pid p)) /\ books p (reap pid p).
Proof.
  intros Hp. unfold reap.
  assert (Forall2 (reaped_by [pid]) (table p) (table p)) as R by (apply Forall_Forall2_diag, Forall_true; by left).
  repeat (case_match; [done|]). unfold find_child_status. pose proof (find_slot_first (table p) pid) as F.
  destruct (find_slot (table p) 0 pid) as [i|]; [|done]. destruct F as (c & L & P).
  replace (pid =? 0) with false by lia. set (p1 := set_table (table p) _ p).
  destruct (forget_child_spec i p1 c L ltac:(lia)) as [-> B]. split; [|by destruct B].
  change (table p1) with (table p). rewrite <- (list_insert_id _ _ _ L) at 1.
  apply Forall2_insert; [done|]. right. split; [|split; [lia|done]]. apply list_elem_of_singleton. done.
Qed.

Lemma reap_all_spec pids p :
  Forall2 (reaped_by pids) (table p) (table (reap_all pids p)) /\ books p (reap_all pids p).
Proof.
  revert p. induction pids as [|pid pids IH]; intros p; cbn.
  { split; [|done]. apply Forall_Forall2_diag, Forall_true. by left. }
  destruct (Z.leb_spec pid 0).
  { split; [|done]. apply Forall_Forall2_diag, Forall_true. by left. }
  destruct (reap_spec pid p) as [R B]; [lia|]. destruct (IH (reap pid p)) as [R' B'].
  split; [|by eapply books_trans]. revert R R'. apply Forall2_trans.
  intros c c' c'' [->|(M1 & P1 & ->)] [->|(M2 & P2 & ->)].
  - by left.
  - right. split; [by right|done].
  - right. split; [|done]. apply list_elem_of_singleton in M1 as ->. by left.
  - cbn in P2. lia.
Qed.

(** The SIGCHLD handler and the books: it touches only slots of children that
    [waitpid] reported; the number of busy workers stays in step with the slots marked
    connected, that of accepting workers with those marked accepting, and the number of
    children with the slots in use, each for each. *)
Theorem lsapi_sigchild_books (pids : list Z) (p : prefork) :
  Forall2 (reaped_by pids) (table p) (table (lsapi_sigchild pids p)) /\ books p (lsapi_sigchild pids p).
Proof.
  unfold lsapi_sigchild. destruct (reap_all_spec pids p) as [R B].
  destruct (m_pChildrenStatus (reap_all pids p)) as [l|] eqn:E; [|done].
  assert (table (reap_all pids p) = l) as <- by (unfold table; by rewrite E). split; [exact R|by destruct B].
Qed.

(** ** The signals of the check *)

(** The signal for a child whose request has taken too long. *)
Definition overdue (p : prefork) (now : Z) (c : lsapi_child_status) : option (Z * Z) :=
  if (m_pid c =? 0) || (m_pid c =? -1) || (m_inProcess c =? 0) then None
  else if m_iMaxReqProcessTime p <? now - m_tmReqBegin c
  then Some (m_pid c, if 5 <? m_iKillSent c then SIGKILL else SIGTERM)
  else None.

Lemma check_child_sent p k c w :
  sw_sent (check_child p k c w).2 = sw_sent w ++ option_list (overdue p (pr_time k) c).
Proof.
  unfold check_child, check_idle, check_runaway, kill_child, dump_debug_info, overdue.
  repeat (case_match; simpl; try (by rewrite ?app_nil_r); simplify_eq/=; try congruence).
Qed.

Lemma check_children_sent p k l : forall n w,
  sw_sent (check_children p k l n w).2 = sw_sent w ++ omap (overdue p (pr_time k)) (take n l).
Proof.
  induction l as [|c l IH]; intros [|n] w; cbn; try (by rewrite app_nil_r).
  pose proof (check_child_sent p k c w) as C. destruct (check_child p k c w) as [c' w']. cbn in C.
  specialize (IH n w'). destruct (check_children p k l n w') as [l' w'']. cbn in *. rewrite IH, C.
  destruct (overdue p (pr_time k) c); cbn; by rewrite <- app_assoc.
Qed.

Lemma overdue_free p now l : (forall c, c ∈ l -> m_pid c = 0) -> omap (overdue p now) l = [].
Proof.
  induction l as [|c l IH]; intros A; [done|]. cbn. unfold overdue at 1. rewrite (A c) by constructor. cbn.
  apply IH. intros c' ?. apply A. by constructor.
Qed.

(** What the check does to a slot: a child whose request has taken too long is signalled
    once more, or given up when it is not there; the others keep their pid and state. *)
Definition checked (p : prefork) (k : probe) (c c' : lsapi_child_status) : Prop :=
  match overdue p (pr_time k) c with
  | Some _ => c' = if pr_esrch k (m_pid c) then set_m_pid 0 c else set_m_iKillSent (s16 (m_iKillSent c + 1)) c
  | None => m_pid c' = m_pid c /\ m_state c' = m_state c
  end.

Lemma check_child_checked p k c w : checked p k c (check_child p k c w).1.
Proof.
  unfold checked, overdue, check_child, check_idle, check_runaway, kill_child.
  repeat (case_match; simpl; simplify_eq/=; try done; try congruence).
Qed.

Lemma check_children_checked p k l : forall n w,
  (forall i c, l !! i = Some c -> (n <= i)%nat -> m_pid c = 0) ->
  Forall2 (checked p k) l (check_children p k l n w).1.
Proof.
  induction l as [|c l IH]; intros [|n] w Z0; cbn.
  1, 2: by constructor.
  - apply Forall_Forall2_diag, Forall_lookup. intros i x E. unfold checked, overdue.
    rewrite (Z0 i x E) by lia. done.
  - pose proof (check_child_checked p k c w) as C. destruct (check_child p k c w) as [c' w'].
    specialize (IH n w' ltac:(intros i x E Hi; apply (Z0 (S i) x E); lia)).
    destruct (check_children p k l n w') as [l' w'']. by constructor.
Qed.

(** The periodic check reaches every child of a server with the invariant: the signals it
    sends, and the table behind it. *)
Lemma lsapi_check_child_status_spec (k : probe) (p : prefork) :
  server_inv p ->
  (lsapi_check_child_status k p).2 = omap (overdue p (pr_time k)) (table p) /\
  Forall2 (checked p k) (table p) (table (lsapi_check_child_status k p).1).
Proof.
  intros [(l & T & [A B C D]) _]. unfold lsapi_check_child_status, table. rewrite T. simpl.
  pose proof (check_children_sent p k l (m_pChildrenStatusCur p) (mkSweep 0 0 (s_pid_dump_debug_info p) [])) as S.
  pose proof (check_children_checked p k l (m_pChildrenStatusCur p) (mkSweep 0 0 (s_pid_dump_debug_info p) []) C) as F.
  destruct (check_children _ _ _ _ _) as [l' w]. simpl in *. split; [|by rewrite T]. rewrite S.
  rewrite <- (take_drop (m_pChildrenStatusCur p) l) at 2. rewrite omap_app.
  rewrite (overdue_free _ _ (drop _ l)), app_nil_r; [done|].
  intros c (i & L)%list_elem_of_lookup. rewrite lookup_drop in L. apply (C _ _ L). lia.
Qed.

(** A table of a child that is busy since second 10, and of one that waits. *)
Definition busy_child (pid now kills : Z) : lsapi_child_status := mkChild pid now kills 1 LSAPI_STATE_CONNECTED 1 now now now.
Definition prefork_busy : prefork :=
  set_m_iCurChildren 3 (set_counters (Some 2) (Some 0)
    (set_table [busy_child 100 10 0; set_m_pid 101 null_child; busy_child 102 9000 0; null_child] 3 prefork3)).

Lemma prefork_busy_inv : server_inv prefork_busy.
Proof.
  split; [|vm_compute; discriminate]. eexists. split; [done|].
  split; [done|cbn; lia| |vm_compute; discriminate].
  intros [|[|[|[|i]]]] c E Hi; vm_compute in E, Hi; try lia; by simplify_eq.
Qed.

(** ** The counters over a run *)

(** A slot that is free, or that of a child, idle or counted once. *)
Definition slot_ok (c : lsapi_child_status) : bool :=
  in_state LSAPI_STATE_IDLE c || (in_use c && (in_state LSAPI_STATE_CONNECTED c || in_state LSAPI_STATE_ACCEPTING c)).

(** The counters say how many slots are marked connected and accepting. *)
Record counters_ok (p : prefork) : Prop := {
  co_busy : pf_busy p = Some (count_slots (in_state LSAPI_STATE_CONNECTED) (table p));
  co_accepting : pf_accepting p = Some (count_slots (in_state LSAPI_STATE_ACCEPTING) (table p));
  co_slots : Forall (fun c => slot_ok c = true) (table p)
}.

Lemma count_slots_same f l l' : Forall2 (fun c c' => f c' = f c) l l' -> count_slots f l' = count_slots f l.
Proof. induction 1 as [|c c' l l' E ? IH]; simpl; [done|]. by rewrite E, IH. Qed.

(** A step that leaves the counters and the states of the slots. *)
Lemma counters_ok_same p p' :
  pf_busy p' = pf_busy p -> pf_accepting p' = pf_accepting p ->
  Forall2 (fun c c' => m_state c' = m_state c /\ (slot_ok c = true -> slot_ok c' = true)) (table p) (table p') ->
  counters_ok p -> counters_ok p'.
Proof.
  intros Eb Ea F [A B C]. split.
  - rewrite Eb, A. f_equal. symmetry. apply count_slots_same. eapply Forall2_impl; [exact F|].
    intros c c' [E _]. unfold in_state. by rewrite E.
  - rewrite Ea, B. f_equal. symmetry. apply count_slots_same. eapply Forall2_impl; [exact F|].
    intros c c' [E _]. unfold in_state. by rewrite E.
  - apply Forall_lookup. intros i c' E. destruct (Forall2_lookup_r _ _ _ _ _ F E) as (c & E0 & _ & H).
    apply H. by eapply (proj1 (Forall_lookup _ _) C).
Qed.

Lemma same_slots (l : list lsapi_child_status) :
  Forall2 (fun c c' => m_state c' = m_state c /\ (slot_ok c = true -> slot_ok c' = true)) l l.
Proof. apply Forall_Forall2_diag, Forall_true. done. Qed.

Lemma same_slots_insert l i c c' :
  l !! i = Some c -> m_state c' = m_state c -> (slot_ok c = true -> slot_ok c' = true) ->
  Forall2 (fun c c' => m_state c' = m_state c /\ (slot_ok c = true -> slot_ok c' = true)) l (<[i := c']> l).
Proof.
  intros L E H. rewrite <- (list_insert_id _ _ _ L) at 1. apply Forall2_insert; [apply same_slots|done].
Qed.

(** An update of one slot with the counters in step. *)
Lemma counters_ok_insert p p' i c c' :
  table p !! i = Some c -> table p' = <[i := c']> (table p) -> slot_ok c' = true ->
  pf_busy p' = (fun n => n - ind (in_state LSAPI_STATE_CONNECTED c) + ind (in_state LSAPI_STATE_CONNECTED c')) <$> pf_busy p ->
  pf_accepting p' = (fun n => n - ind (in_state LSAPI_STATE_ACCEPTING c) + ind (in_state LSAPI_STATE_ACCEPTING c')) <$> pf_accepting p ->
  counters_ok p -> counters_ok p'.
Proof.
  intros L T S Eb Ea [A B C]. split.
  - by rewrite Eb, A, T, (count_slots_insert _ _ _ _ _ L).
  - by rewrite Ea, B, T, (count_slots_insert _ _ _ _ _ L).
  - rewrite T. by apply Forall_insert.
Qed.

Definition is_own (w : child_write) : bool := match w with ChildDoes _ _ => true | _ => false end.

(** The arithmetic of one operation of a child, case by case. *)
Ltac states c :=
  match goal with op : child_op |- _ => destruct op end; cbn in *;
  unfold in_state, ind, LSAPI_STATE_IDLE, LSAPI_STATE_CONNECTED, LSAPI_STATE_ACCEPTING in *; cbn in *;
  destruct (Z.eqb_spec (m_state c) 0), (Z.eqb_spec (m_state c) 1), (Z.eqb_spec (m_state c) 2);
  try discriminate; cbn; lia.

Lemma write_slot_busy i op p : pf_busy (write_slot i op p) = pf_busy p.
Proof. unfold write_slot. by destruct (m_pChildrenStatus p). Qed.
Lemma write_slot_accepting i op p : pf_accepting (write_slot i op p) = pf_accepting p.
Proof. unfold write_slot. by destruct (m_pChildrenStatus p). Qed.

Lemma child_does_counters i op p : counters_ok p -> counters_ok (child_writes1 (ChildDoes i op) p).
Proof.
  intros H. cbn. destruct (table p !! i) as [c|] eqn:L; [|done].
  destruct (op_ready op c) eqn:R; [|done]. unfold op_ready in R. apply andb_prop in R as [R1 R2].
  assert (table (add_counters (op_busy op) (op_accepting op) (write_slot i op p)) = <[i := op_slot op c]> (table p)) as T.
  { unfold add_counters, write_slot, table in *. destruct (m_pChildrenStatus p) as [l|]; [|done]. cbn in *.
    by apply alter_is_insert. }
  assert (slot_ok c = true) as S by exact (proj1 (Forall_lookup _ _) (co_slots _ H) i c L).
  eapply (counters_ok_insert p _ i c (op_slot op c) L T); [| | |exact H].
  - destruct op; unfold slot_ok, in_state, in_use in *; cbn in *; first [exact S|by rewrite ?R1, ?orb_true_r].
  - change (pf_busy (add_counters _ _ (write_slot i op p))) with ((fun n => n + op_busy op) <$> pf_busy (write_slot i op p)).
    rewrite write_slot_busy. destruct (pf_busy p); [|done]. cbn [fmap option_fmap option_map]. f_equal. clear - R2. states c.
  - change (pf_accepting (add_counters _ _ (write_slot i op p))) with ((fun n => n + op_accepting op) <$> pf_accepting (write_slot i op p)).
    rewrite write_slot_accepting. destruct (pf_accepting p); [|done]. cbn [fmap option_fmap option_map]. f_equal. clear - R2. states c.
Qed.

Lemma child_writes_counters ws p : Forall is_own ws -> counters_ok p -> counters_ok (child_writes ws p).
Proof.
  intros F. unfold child_writes. revert p. induction F as [|w ws W F IH]; intros p H; cbn; [done|].
  destruct w as [i op|i op|b a]; [|done..]. apply IH. by apply child_does_counters.
Qed.

Lemma offset_exact st n p : offset n st p = Some 0 <-> n = Some (count_slots (in_state st) (table p)).
Proof.
  unfold offset. destruct n as [n|]; cbn; split; intros [= E]; [f_equal; lia|f_equal; lia].
Qed.

Lemma sigchild_counters pids p : counters_ok p -> counters_ok (lsapi_sigchild pids p).
Proof.
  intros [A B C]. destruct (lsapi_sigchild_books pids p) as [R [Bb Ba _]].
  apply offset_exact in A, B. rewrite A in Bb. rewrite B in Ba. apply offset_exact in Bb, Ba.
  split; [done|done|]. apply Forall_lookup. intros i c' E.
  destruct (Forall2_lookup_r _ _ _ _ _ R E) as (c & E0 & [->|(_ & _ & ->)]).
  - exact (proj1 (Forall_lookup _ _) C i c E0).
  - pose proof (proj1 (Forall_lookup _ _) C i c E0) as S. unfold slot_ok, forgotten in *. cbn in S.
    destruct (in_state LSAPI_STATE_CONNECTED c || in_state LSAPI_STATE_ACCEPTING c); [done|].
    rewrite andb_false_r, orb_false_r in S. unfold in_state in *. cbn. by rewrite S.
Qed.

(** Nobody to be signalled is missing. *)
Definition all_there (k : probe) : Prop := forall pid, pr_esrch k pid = false.

Lemma check_child_counters p k c w :
  all_there k -> m_state (check_child p k c w).1 = m_state c /\ m_pid (check_child p k c w).1 = m_pid c.
Proof.
  intros A. unfold check_child, check_idle, check_runaway, kill_child.
  repeat (case_match; cbn; try done). all: exfalso; congruence.
Qed.

Lemma check_children_counters p k l : all_there k -> forall n w,
  Forall2 (fun c c' => m_state c' = m_state c /\ m_pid c' = m_pid c) l (check_children p k l n w).1.
Proof.
  intros A. induction l as [|c l IH]; intros [|n] w; cbn; try (by repeat constructor).
  - apply Forall_Forall2_diag, Forall_true. done.
  - pose proof (check_child_counters p k c w A) as C. destruct (check_child p k c w) as [c' w'].
    specialize (IH n w'). destruct (check_children p k l n w') as [l' w'']. by constructor.
Qed.

Lemma lsapi_check_child_status_counters k p :
  all_there k -> counters_ok p -> counters_ok (lsapi_check_child_status k p).1.
Proof.
  intros A H. unfold lsapi_check_child_status.
  pose proof (check_children_counters p k (table p) A (m_pChildrenStatusCur p)
    (mkSweep 0 0 (s_pid_dump_debug_info p) [])) as F.
  destruct (check_children _ _ _ _ _) as [l w]. cbn [fst] in *.
  change (m_pChildrenStatus (set_s_pids (sw_dump w) (s_ignore_pid p) p)) with (m_pChildrenStatus p).
  destruct (m_pChildrenStatus p) as [l0|]; [|by destruct H].
  revert H. apply counters_ok_same; [done|done|].
  change (table (set_table l _ _)) with l. eapply Forall2_impl; [exact F|]. intros c c' [E1 E2]. split; [done|].
  unfold slot_ok, in_state, in_use. by rewrite E1, E2.
Qed.

Lemma find_child_status_counters p : counters_ok p -> counters_ok (find_child_status 0 p).2.
Proof.
  intros H. unfold find_child_status. pose proof (find_slot_first (table p) 0) as F.
  destruct (find_slot _ _ _) as [i|]; [|done]. destruct F as (c & L & P). cbn [snd Z.eqb].
  pose proof (proj1 (Forall_lookup _ _) (co_slots _ H) i c L) as S.
  revert H. apply counters_ok_same; [done|done|]. apply same_slots_insert with (c := c); [done| |done].
  unfold slot_ok, in_use, in_state in S. rewrite P in S. cbn in S. rewrite orb_false_r in S. cbn.
  symmetry. apply Z.eqb_eq, S.
Qed.

(** An update of a slot that keeps its state, and its pid if it is counted. *)
Lemma update_slot_counters (f : lsapi_child_status -> lsapi_child_status) slot p :
  (forall i c, slot = Some i -> table p !! i = Some c -> m_state (f c) = m_state c /\ (slot_ok c = true -> slot_ok (f c) = true)) ->
  counters_ok p -> counters_ok (update_slot f slot p).
Proof.
  intros U H. destruct slot as [i|]; cbn; [|done]. revert H. apply counters_ok_same; [done|done|].
  change (table (set_table (alter f i (table p)) (m_pChildrenStatusCur p) p)) with (alter f i (table p)).
  destruct (table p !! i) as [c|] eqn:L.
  - rewrite (alter_is_insert f _ _ _ L). destruct (U i c eq_refl L). by apply same_slots_insert with (c := c).
  - replace (alter f i (table p)) with (table p); [apply same_slots|].
    apply list_eq. intros j. rewrite list_lookup_alter. destruct (decide (i = j)) as [<-|]; [by rewrite L|done].
Qed.

(** A turn in which the children write their own slots, whole operations at a time, and
    nobody the server signals is missing. *)
Definition orderly (t : turn) : Prop :=
  Forall is_own (t_writes t) /\ Forall is_own (t_writes_select t) /\ all_there (t_probe t).

Definition counted_end (e : turn_end) : Prop :=
  match e with Next _ p | Stop _ p | InChild _ _ p => counters_ok p end.

Lemma counters_ok_pids dump ignore p : counters_ok p -> counters_ok (set_s_pids dump ignore p).
Proof. intros [A B C]. by split. Qed.

Lemma each_second_counters t v p : all_there (t_probe t) -> counters_ok p ->
  match each_second t v p with inl (_, p') | inr (_, p') => counters_ok p' end.
Proof.
  intros A H. unfold each_second. pose proof (lsapi_check_child_status_counters (t_probe t) p A H) as K.
  destruct (_ =? _); [done|]. destruct (t_parent_dead t); [done|].
  destruct (lsapi_check_child_status _ p) as [p' sent]. cbn in K. repeat case_match; simplify_eq; done.
Qed.

Lemma poll_turn_counters t v p : orderly t -> counters_ok p ->
  match poll_turn t v p with
  | PollNext _ p' | PollBreak _ p' | PollReturn _ p' | PollAcceptErr p' | PollConn _ p' => counters_ok p'
  end.
Proof.
  intros (W1 & W2 & A) H. unfold poll_turn.
  assert (counters_ok (turn_children t p)) as H1 by (by apply sigchild_counters, child_writes_counters).
  revert H1. generalize (turn_children t p). intros p1 H1. destruct (t_stop t); [done|].
  assert (counters_ok (turn_ignore t p1)) as H2.
  { unfold turn_ignore. destruct (t_ignore t); [by apply counters_ok_pids|done]. }
  revert H2. generalize (turn_ignore t p1). intros p2 H2.
  pose proof (each_second_counters t v p2 A H2) as H3.
  destruct (each_second t v p2) as [[[] p3]|[v3 p3]]; try done.
  assert (counters_ok (lsapi_sigchild (t_reaped_select t) (child_writes (t_writes_select t) p3))) as H4
    by (by apply sigchild_counters, child_writes_counters).
  revert H4. generalize (lsapi_sigchild (t_reaped_select t) (child_writes (t_writes_select t) p3)). intros p4 H4.
  destruct (t_select t); try done. unfold try_accept. repeat case_match; simplify_eq; done.
Qed.

Lemma fork_child_counters t v p : counters_ok p -> counted_end (fork_child t v p).
Proof.
  intros H. unfold fork_child. pose proof (find_child_status_counters p H) as F.
  assert (forall i, (find_child_status 0 p).1 = Some i ->
    table (find_child_status 0 p).2 !! i = Some (set_m_pid (-1) null_child)) as N.
  { unfold find_child_status. pose proof (find_slot_first (table p) 0) as G.
    destruct (find_slot _ _ _) as [j|]; [|done]. destruct G as (c & L & P). cbn. intros i [= ->].
    apply list_lookup_insert_eq. by eapply lookup_lt_Some. }
  destruct (find_child_status 0 p) as [slot p']. cbn [fst snd] in *.
  destruct (t_fork t) as [pid| |]; cbn [counted_end]; [|done|].
  - apply update_slot_counters; [|by destruct F]. intros i c -> L.
    change (table (set_m_iCurChildren _ p')) with (table p') in L. rewrite (N i eq_refl) in L. by simplify_eq.
  - apply update_slot_counters; [|done]. intros i c -> L. rewrite (N i eq_refl) in L. by simplify_eq.
Qed.

Lemma accept_loop_counters turns v p :
  Forall orderly turns -> counters_ok p -> counted_end (accept_loop turns v p).
Proof.
  intros F. revert v p. induction F as [|t turns O F IH]; intros v p H; cbn; [done|].
  assert (counted_end (accept_turn t v p)) as C.
  { unfold accept_turn. pose proof (poll_turn_counters t v p O H) as K.
    destruct (poll_turn t v p); try done. by apply fork_child_counters. }
  destruct (accept_turn t v p); [by apply IH|done..].
Qed.

Lemma lsapi_init_children_status_counters p :
  m_pChildrenStatus p = None -> counters_ok (lsapi_init_children_status true p).
Proof.
  intros N. unfold lsapi_init_children_status. rewrite N. cbn [negb].
  split; [| |apply Forall_replicate; done]; unfold table; cbn; by rewrite count_slots_replicate.
Qed.

(** C16. The table of children, over every run of the parent.  Assumed is that [mmap]
    succeeded and that the limits were not changed behind it.  Whatever the children
    write to the shared memory meanwhile, and whatever signals, reports of [waitpid],
    answers of [select], [accept] and [fork] arrive:
    (1) the count of children [m_iCurChildren] never exceeds [m_iMaxChildren +
    m_iExtraChildren], the table has that many slots, none from [m_pChildrenStatusCur] on
    is in use, never more slots are in use than children are counted, and every new child
    has a slot, freshly cleared and reserved (this bounds the count the server keeps: a
    stopped child, which [waitpid] reports too, is no longer counted);
    (2) at every turn that is reached, the periodic check signals exactly the children of
    the whole table whose request has taken too long, in the order of their slots, SIGTERM
    and after more than five signals SIGKILL; it frees the slots of those that are not
    there, counts the signal in those of the others, and leaves pid and state of all
    other slots;
    (3) while the children write their own slots only, an operation at a time, and no
    child is missing, [s_busy_workers] is the number of slots marked connected and
    [s_accepting_workers] that of those marked accepting, deaths included. *)
Theorem prefork_server_invariant (turns : list turn) (fd : Z) (p : prefork) :
  m_pChildrenStatus p = None -> m_iCurChildren p = 0 -> 0 <= m_iMaxChildren p + m_iExtraChildren p ->
  let p0 := lsapi_init_children_status true p in
  good_end (lsapi_prefork_server_accept true turns fd p) /\
  (forall before t rest v q, turns = before ++ t :: rest ->
     accept_loop before (mkLoop 0 0 0 fd) p0 = Next v q ->
     let r := turn_ignore t (turn_children t q) in
     (lsapi_check_child_status (t_probe t) r).2 = omap (overdue r (pr_time (t_probe t))) (table r) /\
     Forall2 (checked r (t_probe t)) (table r) (table (lsapi_check_child_status (t_probe t) r).1)) /\
  (Forall orderly turns -> counted_end (lsapi_prefork_server_accept true turns fd p)).
Proof.
  intros N C B p0. pose proof (lsapi_init_children_status_inv p N C B) as I. unfold lsapi_prefork_server_accept.
  split_and!.
  - by apply accept_loop_good.
  - intros before t rest v q _ E. apply (lsapi_check_child_status_spec (t_probe t) (turn_ignore t (turn_children t q))).
    pose proof (accept_loop_good before (mkLoop 0 0 0 fd) p0 I) as G. rewrite E in G. revert G.
    apply keeps_server_inv. eapply keeps_server_trans; [apply turn_children_keeps|apply turn_ignore_keeps].
  - intros O. apply accept_loop_counters; [done|]. by apply lsapi_init_children_status_counters.
Qed.

(** Two connections; the first child serves a request that never ends, the second waits
    for another connection; the server kills the first. *)
Definition busy_run : list turn := [
  conn_turn 1 100; conn_turn 2 101;
  mkTurn [ChildDoes 0 ChildConnected; ChildDoes 0 (ChildRequest 3); ChildDoes 1 ChildConnected] []
         [ChildDoes 1 ChildClosed; ChildDoes 1 ChildListens] [] false None false (quiet_probe 3) SelTimeout AccErr ForkErr;
  timeout_turn 4000;
  mkTurn [] [100] [] [] false None false (quiet_probe 4001) SelTimeout AccErr ForkErr ].

Lemma prefork_server_invariant_witness :
  (good_end (lsapi_prefork_server_accept true busy_run (-1) prefork3) /\
   counted_end (lsapi_prefork_server_accept true busy_run (-1) prefork3)) /\
  match lsapi_prefork_server_accept true busy_run (-1) prefork3 with
  | Next _ p => m_pid <$> table p = [0; 101; 0; 0] /\ m_iCurChildren p = 1 /\ pf_busy p = Some 0 /\ pf_accepting p = Some 1
  | _ => False
  end /\
  match accept_loop (take 3 busy_run) (mkLoop 0 0 0 (-1)) (lsapi_init_children_status true prefork3) with
  | Next _ q => (lsapi_check_child_status (quiet_probe 4000) q).2 = [(100, SIGTERM)] /\ pf_busy q = Some 1
  | _ => False
  end.
Proof.
  split; [|split; vm_compute; repeat split].
  destruct (prefork_server_invariant busy_run (-1) prefork3) as (A & _ & D); [reflexivity|reflexivity|vm_compute; discriminate|].
  split; [exact A|]. apply D. repeat constructor.
Defined.

(** ** Running out of work *)

(** A turn without a signal, in which the parent is alive and nobody connects. *)
Definition idle_turn (t : turn) : Prop :=
  t_stop t = false /\ t_parent_dead t = false /\ t_select t = SelTimeout.

(** Every turn is in a new second. *)
Fixpoint ticking (last : Z) (turns : list turn) : Prop :=
  match turns with
  | [] => True
  | t :: turns => pr_time (t_probe t) <> last /\ ticking (pr_time (t_probe t)) turns
  end.

Lemma keeps_server_idle p p' : keeps_server p p' ->
  m_iServerMaxIdle p' = m_iServerMaxIdle p /\ m_iCurChildren p' <= m_iCurChildren p.
Proof. intros ((_ & _ & E) & B & _). done. Qed.

Lemma idle_turn_step t v p :
  idle_turn t -> pr_time (t_probe t) <> lastTime v -> 0 < m_iServerMaxIdle p -> m_iCurChildren p <= 0 ->
  if m_iServerMaxIdle p <? wait_secs v + 1 then exists fd p', accept_turn t v p = Stop fd p'
  else exists p', accept_turn t v p = Next (mkLoop (pr_time (t_probe t)) (wait_secs v + 1) 0 (req_fd v)) p' /\
    m_iServerMaxIdle p' = m_iServerMaxIdle p /\ m_iCurChildren p' <= 0.
Proof.
  intros (Hs & Hp & Hsel) Ht Hi Hc. unfold accept_turn, poll_turn. rewrite Hs, Hsel.
  destruct (keeps_server_idle _ _ (turn_children_keeps t p)) as [E1 B1]. revert E1 B1.
  generalize (turn_children t p). intros p1 E1 B1.
  destruct (keeps_server_idle _ _ (turn_ignore_keeps t p1)) as [E2 B2]. rewrite E1 in E2. revert E2 B2.
  generalize (turn_ignore t p1). intros p2 E2 B2.
  unfold each_second. rewrite (proj2 (Z.eqb_neq _ _) Ht), Hp.
  destruct (keeps_server_idle _ _ (lsapi_check_child_status_keeps (t_probe t) p2)) as [E3 B3].
  destruct (lsapi_check_child_status (t_probe t) p2) as [p3 sent]. cbn [fst] in *.
  replace (m_iServerMaxIdle p3 =? 0) with false by lia. replace (m_iCurChildren p3 <=? 0) with true by lia.
  rewrite E3, E2. cbn [wait_secs]. destruct (_ <? _); [by do 2 eexists|]. eexists. split; [done|].
  destruct (keeps_server_idle _ _ (child_writes_keeps (t_writes_select t) p3)) as [E4 B4].
  destruct (keeps_server_idle _ _ (lsapi_sigchild_keeps (t_reaped_select t) (child_writes (t_writes_select t) p3))) as [E5 B5]. lia.
Qed.

(** The server does not linger: with an idle limit [m_iServerMaxIdle = n > 0] and no
    children, it stops by the turn [n + 1] in which nobody connects. *)
Theorem idle_server_stops (turns : list turn) (v : loop_vars) (p : prefork) :
  Forall idle_turn turns -> ticking (lastTime v) turns -> wait_secs v = 0 ->
  0 < m_iServerMaxIdle p < Z.of_nat (length turns) -> m_iCurChildren p <= 0 ->
  exists fd p', accept_loop turns v p = Stop fd p'.
Proof.
  intros F T W [H1 H2] C. replace (m_iServerMaxIdle p) with (m_iServerMaxIdle p - wait_secs v) in H2 by lia.
  assert (wait_secs v <= m_iServerMaxIdle p) as L by lia. clear W.
  revert v p T H1 H2 C L. induction F as [|t turns I F IH]; intros v p T H1 H2 C L; cbn in *; [lia|].
  destruct T as [T1 T2]. pose proof (idle_turn_step t v p I T1 H1 C) as S.
  destruct (Z.ltb_spec (m_iServerMaxIdle p) (wait_secs v + 1)).
  - destruct S as (fd & p' & ->). by exists fd, p'.
  - destruct S as (p' & -> & E & C'). apply IH; cbn; [done|lia..].
Qed.

Definition prefork_idle2 : prefork := lsapi_init_children_status true (LSAPI_Set_Server_Max_Idle_Secs 2 prefork3).

Lemma idle_server_stops_witness :
  (exists fd p', accept_loop [timeout_turn 5; timeout_turn 6; timeout_turn 7] (mkLoop 0 0 0 (-1)) prefork_idle2 = Stop fd p') /\
  match accept_loop [timeout_turn 5; timeout_turn 6] (mkLoop 0 0 0 (-1)) prefork_idle2 with Next _ _ => True | _ => False end.
Proof.
  split; [|vm_compute; exact I].
  apply (idle_server_stops [timeout_turn 5; timeout_turn 6; timeout_turn 7]); try reflexivity.
  - repeat constructor.
  - vm_compute. repeat split; discriminate.
  - vm_compute. repeat split; discriminate.
Defined.

(** ** [LSAPI_Accept_Before_Fork] *)

Lemma before_fork_loop_slot turns : forall v p r slot,
  server_inv p -> before_fork_loop turns v p = Some r -> bf_slot r = Some slot ->
  bf_ret r = 0 /\ exists i, slot = Some i /\ table (bf_server r) !! i = Some (set_m_pid (-1) null_child) /\
    server_inv (LSAPI_Postfork_Parent slot 0 (bf_server r)).
Proof.
  induction turns as [|t turns IH]; intros v p r slot I; cbn; [done|].
  pose proof (poll_turn_keeps t v p) as K.
  destruct (poll_turn t v p) as [v' p'|v' p'|v' p'|p'|v' p'].
  - apply IH. by eapply keeps_server_inv.
  - by intros [= <-].
  - by intros [= <-].
  - by intros [= <-].
  - destruct K as [K B]. pose proof (keeps_server_inv _ _ K I) as [T L].
    destruct (find_child_status_free p' T B) as (i & p2 & E & T' & (S1 & S2 & _) & C & Hi & Ei).
    rewrite E. intros [= <-]. cbn. intros [= <-]. split; [done|]. exists i. split; [done|]. split; [done|].
    destruct (update_slot_same (fun c => set_m_tmStart 0 (set_m_tmWaitBegin 0 c)) i p2 1 T' Hi) as (l & Tl & Il).
    { intros c Hc. rewrite Ei in Hc. by simplify_eq. }
    split; cbn in *; [|lia]. exists l. split; [done|]. eapply ti_weaken; [|exact Il]. cbn. lia.
Qed.

(** The contract of [LSAPI_Accept_Before_Fork] where a child is reserved: it returns 0,
    the slot is a freshly cleared one, and after [LSAPI_Postfork_Parent] the invariant of
    the server holds again. *)
Theorem LSAPI_Accept_Before_Fork_reserves (turns : list turn) (fd : Z) (p : prefork) (r : before_fork) (slot : option nat) :
  m_pChildrenStatus p = None -> m_iCurChildren p = 0 -> 0 <= m_iMaxChildren p + m_iExtraChildren p ->
  LSAPI_Accept_Before_Fork true turns fd p = Some r -> bf_slot r = Some slot ->
  bf_ret r = 0 /\ exists i, slot = Some i /\ table (bf_server r) !! i = Some (set_m_pid (-1) null_child) /\
    server_inv (LSAPI_Postfork_Parent slot 0 (bf_server r)).
Proof. intros N C B. apply before_fork_loop_slot. by apply lsapi_init_children_status_inv. Qed.

Lemma LSAPI_Accept_Before_Fork_reserves_witness :
  match LSAPI_Accept_Before_Fork true [timeout_turn 1; conn_turn 1 0] (-1) prefork3 with
  | Some r => bf_ret r = 0 /\ bf_fd r = 7
  | None => False
  end.
Proof.
  destruct (LSAPI_Accept_Before_Fork _ _ _ _) as [r|] eqn:E; [|vm_compute in E; discriminate].
  assert (bf_slot r = Some (Some 0%nat) /\ bf_fd r = 7) as [S F].
  { vm_compute in E. injection E as <-. split; reflexivity. }
  split; [|exact F].
  destruct (LSAPI_Accept_Before_Fork_reserves [timeout_turn 1; conn_turn 1 0] (-1) prefork3 r (Some 0%nat)) as [R _];
    [reflexivity|reflexivity|vm_compute; discriminate|exact E|exact S|exact R].
Defined.

(** But 0 does not mean that there is a connection: when a signal sets [s_stop] (or
    the parent of the server dies) after a [select] that timed out, the same 0 is
    returned, with no child reserved and [m_fd] as it was. *)
Theorem LSAPI_Accept_Before_Fork_spurious (t1 t2 : turn) (fd : Z) (p : prefork) :
  t_stop t1 = false -> t_parent_dead t1 = false -> t_select t1 = SelTimeout -> t_stop t2 = true ->
  m_iServerMaxIdle p = 0 -> m_pChildrenStatus p = None ->
  exists q, LSAPI_Accept_Before_Fork true [t1; t2] fd p = Some (mkBefore 0 fd None q).
Proof.
  intros S1 D1 Sel S2 Idle N. unfold LSAPI_Accept_Before_Fork. cbn [before_fork_loop].
  assert (exists v q, poll_turn t1 (mkLoop 0 0 0 fd) (lsapi_init_children_status true p) = PollNext v q
    /\ sel_ret v = 0 /\ req_fd v = fd) as (v & q & -> & E & F).
  { unfold lsapi_init_children_status. rewrite N. cbn [negb]. set (p0 := set_counters _ _ _).
    assert (m_iServerMaxIdle p0 = 0) as I0 by done. clearbody p0.
    unfold poll_turn. rewrite S1, Sel.
    destruct (keeps_server_idle _ _ (turn_children_keeps t1 p0)) as [E1 _]. revert E1.
    generalize (turn_children t1 p0). intros p1 E1.
    destruct (keeps_server_idle _ _ (turn_ignore_keeps t1 p1)) as [E2 _]. rewrite E1, I0 in E2. revert E2.
    generalize (turn_ignore t1 p1). intros p2 E2.
    unfold each_second. cbn [lastTime]. destruct (_ =? 0); [by do 2 eexists|]. rewrite D1.
    destruct (keeps_server_idle _ _ (lsapi_check_child_status_keeps (t_probe t1) p2)) as [E3 _].
    destruct (lsapi_check_child_status (t_probe t1) p2) as [p3 sent]. cbn [fst] in *.
    replace (m_iServerMaxIdle p3 =? 0) with true by lia. by do 2 eexists. }
  unfold poll_turn. rewrite S2, E, F. by eexists.
Qed.

Definition stop_turn (now : Z) : turn :=
  mkTurn [] [] [] [] true None false (quiet_probe now) SelTimeout AccErr ForkErr.

Lemma LSAPI_Accept_Before_Fork_spurious_witness :
  exists q, LSAPI_Accept_Before_Fork true [timeout_turn 1; stop_turn 2] (-1) prefork3 = Some (mkBefore 0 (-1) None q).
Proof. apply (LSAPI_Accept_Before_Fork_spurious (timeout_turn 1) (stop_turn 2)); reflexivity. Defined.

(** Raising the limit of children once the table is mapped does not raise the size of
    the table: the server then forks a child without a slot, for which [child_status] is
    NULL. *)
Theorem LSAPI_Set_Max_Children_too_late :
  exists q, accept_loop
    ([conn_turn 1 100; conn_turn 1 101; conn_turn 1 102; conn_turn 1 103] ++
     [mkTurn [] [] [] [] false None false (quiet_probe 2) SelReady (AccConn 8 true) ForkChild])
    (mkLoop 0 0 0 (-1)) (LSAPI_Set_Max_Children 10 (lsapi_init_children_status true prefork3)) = InChild 8 None q.
Proof. eexists. vm_compute. reflexivity. Qed.
