(* ===== verification/Worker.v ===== *)
(** * The prefork server: the worker process

    What a forked child does: it takes over its slot of the table and its connection
    ([lsapi_prefork_server_accept] behind [fork], [LSAPI_Postfork_Child]), and then waits
    for request after request on the connection or on the listening socket
    ([LSAPI_Prefork_Accept_r] of lsapilib.c).  The computations are those of [State]; the
    statics only this file uses are in a record of their own. *)

From S2P Require Export ReqRead Prefork.

Open Scope Z_scope.

(** ** State *)

(** The statics of the worker; [w_accepting] is [*s_accepting_workers]. *)
Record worker := mkWorker {
  s_req_processed : Z;
  s_max_reqs : Z;           (* unsigned int *)
  w_max_busy_workers : Z;
  s_keep_listener : Z;
  w_max_idle_secs : Z;
  w_accepting : option Z
}.

Definition set_s_req_processed (v : Z) (w : worker) : worker :=
  mkWorker v (s_max_reqs w) (w_max_busy_workers w) (s_keep_listener w) (w_max_idle_secs w) (w_accepting w).
Definition set_s_keep_listener (v : Z) (w : worker) : worker :=
  mkWorker (s_req_processed w) (s_max_reqs w) (w_max_busy_workers w) v (w_max_idle_secs w) (w_accepting w).
Definition set_w_accepting (v : option Z) (w : worker) : worker :=
  mkWorker (s_req_processed w) (s_max_reqs w) (w_max_busy_workers w) (s_keep_listener w) (w_max_idle_secs w) v.

Definition LSAPI_Set_Max_Reqs (reqs : Z) (w : worker) : worker :=
  mkWorker (s_req_processed w) (u32 (reqs - 1)) (w_max_busy_workers w) (s_keep_listener w) (w_max_idle_secs w) (w_accepting w).
Definition LSAPI_Set_Max_Idle (secs : Z) (w : worker) : worker :=
  mkWorker (s_req_processed w) (s_max_reqs w) (w_max_busy_workers w) (s_keep_listener w) secs (w_accepting w).

(** One [select]: its answer; what the other processes have made of the shared counters
    and of [m_iKillSent] meanwhile; whether a signal has cleared [g_running]; and what
    the calls behind it would answer: [is_enough_free_mem], [lsapi_parent_dead], [time]. *)
Record sel_ev := mkSel {
  se_res : select_res;
  se_busy : Z -> Z;
  se_accepting : Z -> Z;
  se_kill_sent : Z -> Z;
  se_stop : bool;
  se_enough_mem : bool;
  se_parent_dead : bool;
  se_time : Z
}.

Definition on_worker (f : lsapi_child_status -> lsapi_child_status) : M unit :=
  mod_os (fun o => set_s_worker_status (f <$> s_worker_status o) o).

Definition close_listener : M unit :=
  fdl ← get_req m_fdListen;
  sys_close fdl ;;
  mod_req (set_m_fdListen (-1)).

(** ** Becoming a worker *)

(** The part of a new child that both ways of forking share: the state of its slot, the
    count of busy workers, the listening socket, the notification of the pid.
    [max_children] is [m_iMaxChildren] of the server it came from. *)
Definition start_worker (pid max_children : Z) (enough_mem : bool) (w : worker) : M worker :=
  let w := set_s_req_processed 0 w in
  status ← get_os s_worker_status;
  match status with
  | None => ub
  | Some _ =>
      worker_state LSAPI_STATE_CONNECTED ;;
      count_busy 1 ;;
      busy ← get_os s_busy_workers;
      let w := if (s_keep_listener w =? 0) && default false ((fun n => Z.shiftr max_children 1 <? n) <$> busy)
               then set_s_keep_listener 1 w else w in
      uid ← get_os s_uid;
      fdl ← get_req m_fdListen;
      (if ((uid =? 0) || (s_keep_listener w =? 0) || negb enough_mem) && negb (fdl =? -1)
       then close_listener else mret tt) ;;
      fd ← get_req m_fd;
      lsapi_notify_pid pid fd ;;
      mod_os (set_s_notified_pid true) ;;
      mret w
  end.

(** The child of [lsapi_prefork_server_accept]. *)
Definition prefork_child (pid : Z) (enough_mem : bool) (fd : Z) (slot : option nat) (p : prefork) (w : worker) : M worker :=
  mod_req (set_m_fd fd) ;;
  mod_os (fun o => set_s_worker_status (i ← slot; table p !! i) (set_s_busy_workers (pf_busy p) o)) ;;
  start_worker pid (m_iMaxChildren p) enough_mem (set_w_accepting (pf_accepting p) w).

(** [LSAPI_Postfork_Child]; [child_status] of the request is the slot. *)
Definition LSAPI_Postfork_Child (pid : Z) (enough_mem : bool) (slot : option nat) (p : prefork) (w : worker) : M worker :=
  match i ← slot; table p !! i with
  | None => ub
  | Some c =>
      mod_os (fun o => set_s_worker_status (Some (set_m_pid pid c)) (set_s_busy_workers (pf_busy p) o)) ;;
      start_worker pid (m_iMaxChildren p) enough_mem (set_w_accepting (pf_accepting p) w)
  end.

(** ** Waiting for a request *)

(** [s_req_processed && s_worker_status && s_worker_status->m_iKillSent]. *)
Definition told_to_leave (w : worker) : M bool :=
  status ← get_os s_worker_status;
  mret (negb (s_req_processed w =? 0) && default false ((fun c => negb (m_iKillSent c =? 0)) <$> status)).

(** How long a worker waits on the listening socket before it leaves: shorter, the more
    workers wait there.  Shifting an [int] by 32 or more, or by a negative number, is
    undefined. *)
Definition wait_time (busy accepting : option Z) : option Z :=
  let t := s32 (10 + default 0 ((fun n => s32 (n * 10)) <$> busy)) in
  match accepting with
  | None => Some t
  | Some a => if (0 <=? a) && (a <? 32) then Some (Z.shiftr t a) else None
  end.

(** A [select] that timed out: whether the worker leaves before it counts the second. *)
Definition idle_on_listener (enough_mem : bool) (secs : Z) (w : worker) : M bool :=
  if (s_keep_listener w =? 0) || negb enough_mem then mret true
  else if s_keep_listener w =? 1 then
    busy ← get_os s_busy_workers;
    t ← lift (wait_time busy (w_accepting w));
    mret (t <=? secs)
  else mret false.

(** [select] with the marks of a worker that waits on the listening socket around it, and
    what happens in the other processes meanwhile. *)
Definition wait_select (ev : sel_ev) (listening : bool) (w : worker) : M worker :=
  (if listening then worker_state LSAPI_STATE_ACCEPTING else mret tt) ;;
  let up a := if listening then (fun n => s32 (n + 1)) <$> a else a in
  let down a := if listening then (fun n => s32 (n - 1)) <$> a else a in
  let accepting := down (se_accepting ev <$> up (w_accepting w)) in
  mod_os (fun o => set_s_busy_workers (se_busy ev <$> s_busy_workers o) o) ;;
  on_worker (fun c => set_m_iKillSent (se_kill_sent ev (m_iKillSent c)) c) ;;
  signal_stop (se_stop ev) ;;
  (if listening then worker_state LSAPI_STATE_IDLE else mret tt) ;;
  mret (set_w_accepting accepting w).

(** The timeout branch: whether the worker leaves. *)
Definition after_timeout (ev : sel_ev) (listening : bool) (secs : Z) (w : worker) : M bool :=
  status ← get_os s_worker_status;
  on_worker (set_m_inProcess 0) ;;
  leave ← (if bool_decide (is_Some status) && listening then idle_on_listener (se_enough_mem ev) secs w else mret false);
  if leave : bool then mret true
  else mret (((0 <? w_max_idle_secs w) && (w_max_idle_secs w <=? secs + 1)) || se_parent_dead ev).

(** What follows a new connection: the listening socket is closed when it is not kept,
    and the connection is acknowledged when that is configured. *)
Definition after_accept (fd : Z) (w : worker) : M (option Z + unit) :=
  (if s_keep_listener w =? 0 then close_listener else mret tt) ;;
  notify ← get_os s_accept_notify;
  r ← (if notify : bool then notify_req_received fd else mret 0);
  mret (if r =? -1 then inr tt else inl (Some fd)).

(** A connection on the listening socket: the new descriptor ([None]: try again) or the
    end. *)
Definition accept_conn (w : worker) : M (option Z + unit) :=
  a ← sys_accept;
  match a with
  | AccConn fd _ =>
      mod_req (set_m_fd fd) ;;
      worker_state LSAPI_STATE_CONNECTED ;;
      count_busy 1 ;;
      after_accept fd w
  | AccRetry => mod_req (set_m_fd (-1)) ;; mret (inl None)
  | AccErr => mod_req (set_m_fd (-1)) ;; mret (inr tt)
  end.

(** The descriptor a worker waits on. *)
Definition pick_fd : M (option Z) :=
  fd ← get_req m_fd;
  fdl ← get_req m_fdListen;
  mret (if negb (fd =? -1) then Some fd else if negb (fdl =? -1) then Some fdl else None).

(** A request was read: the slot shows it. *)
Definition begin_request (now : Z) : M unit := on_worker (request_begun now).

(** The two loops of [LSAPI_Prefork_Accept_r] over the answers of [select] in store;
    exhausted, [select] fails.  The inner loop waits [secs] on [fd]. *)
Fixpoint wait_loop (evs : list sel_ev) (ctx : lsapi_MD5Context) (fd secs : Z) (w : worker) : M (Z * worker) :=
  running ← get_os g_running;
  if negb running then mret (-1, w)
  else
    leave ← told_to_leave w;
    if leave : bool then mret (-1, w)
    else
      fdl ← get_req m_fdListen;
      let listening := fd =? fdl in
      match evs with
      | [] => mret (-1, w)
      | ev :: evs =>
          w ← wait_select ev listening w;
          match se_res ev with
          | SelErr => mret (-1, w)
          | SelEintr => wait_loop evs ctx fd secs w
          | SelTimeout =>
              leave ← after_timeout ev listening secs w;
              if leave : bool then mret (-1, w) else wait_loop evs ctx fd (secs + 1) w
          | SelReady =>
              leave ← told_to_leave w;
              if leave : bool then mret (-1, w)
              else if listening then
                r ← accept_conn w;
                match r with
                | inr tt => mret (-1, w)
                | inl None => wait_loop evs ctx fd secs w
                | inl (Some fd) => wait_loop evs ctx fd secs w
                end
              else
                r ← readReq ctx;
                if r =? 0 then
                  begin_request (se_time ev) ;;
                  mret (0, set_s_req_processed (s32 (s_req_processed w + 1)) w)
                else
                  lsapi_close_connection ;;
                  LSAPI_Reset_r ;;
                  running ← get_os g_running;
                  next ← pick_fd;
                  match (if running : bool then next else None) with
                  | None => mret (-1, w)
                  | Some fd => wait_loop evs ctx fd 0 w
                  end
          end
      end.

(** The part of [LSAPI_Prefork_Accept_r] behind the server: the limits of the worker, and
    the loops. *)
Definition worker_accept (ctx : lsapi_MD5Context) (evs : list sel_ev) (now : Z) (w : worker) : M (Z * worker) :=
  if s_max_reqs w <? u32 (s_req_processed w) then mret (-1, w)
  else
    on_worker (set_m_tmWaitBegin now) ;;
    running ← get_os g_running;
    next ← pick_fd;
    match (if running : bool then next else None) with
    | None => mret (-1, w)
    | Some fd => wait_loop evs ctx fd 0 w
    end.

(** A worker that has served requests hands its connection back when too many workers
    are busy. *)
Definition yield_busy (w : worker) : M unit :=
  busy ← get_os s_busy_workers;
  if (0 <? s_req_processed w) && (0 <? w_max_busy_workers w)
     && default false ((fun n => w_max_busy_workers w <=? n) <$> busy)
  then
    fd ← get_req m_fd;
    send_conn_close_notification fd ;;
    lsapi_close_connection
  else mret tt.

(** What the server part of the process is given: the server, the turns of its loop, and
    the pid and the memory of the child that comes out of it. *)
Record server_part := mkServerPart {
  sp_server : prefork;
  sp_mmap : bool;
  sp_turns : list turn;
  sp_pid : Z;
  sp_enough_mem : bool
}.

(** [LSAPI_Prefork_Accept_r] returns, or still serves as the parent when its turns are
    used up. *)
Inductive accept_end :=
| Returned (ret : Z) (w : worker) (server : option prefork)
| Serving (p : prefork).

Definition as_worker (ctx : lsapi_MD5Context) (evs : list sel_ev) (now : Z) (w : worker) (server : option prefork) : M accept_end :=
  '(r, w) ← worker_accept ctx evs now w;
  mret (Returned r w server).

Definition LSAPI_Prefork_Accept_r (server : option server_part) (ctx : lsapi_MD5Context) (evs : list sel_ev)
    (now : Z) (w : worker) : M accept_end :=
  skip ← get_os s_skip_write;
  if skip : bool then mret (Returned (-1) w (sp_server <$> server))
  else
    LSAPI_Finish_r ;;
    match server with
    | None => yield_busy w ;; as_worker ctx evs now w None
    | Some sp =>
        let p := sp_server sp in
        if pf_fd p =? -1 then as_worker ctx evs now w (Some p)
        else
          fd ← get_req m_fd;
          match lsapi_prefork_server_accept (sp_mmap sp) (sp_turns sp) fd p with
          | Next v p => mod_req (set_m_fd (req_fd v)) ;; mret (Serving p)
          | Stop fd p => mod_req (set_m_fd fd) ;; mret (Returned (-1) w (Some p))
          | InChild fd slot p =>
              w ← prefork_child (sp_pid sp) (sp_enough_mem sp) fd slot p w;
              as_worker ctx evs now w None
          end
    end.
