(* ===== verification/Env.v ===== *)
(** * Configuration from the environment

    [LSAPI_Init_Env_Parameters] of lsapilib.c with all it calls: the limits of server and
    worker, the defaults and the secret of suEXEC, liblve, and the removal of the LSAPI
    variables.  The environment is the list of its strings; what the system answers is in
    a record of inputs. *)

From S2P Require Export SuExec Worker.

Open Scope Z_scope.

(** ** Variables *)

(** [getenv]: the value in the first string [name=value]. *)
Fixpoint getenv (name : list Z) (env : list (list Z)) : option (list Z) :=
  match env with
  | [] => None
  | e :: env =>
      if bool_decide (take (length name + 1) e = name ++ [61]) then Some (drop (length name + 1) e) else getenv name env
  end.

(** [atoi]: [strtol], as an [int]. *)
Definition atoi (p : list Z) : Z := s32 (strtoll p).

Definition starts_with (prefix e : list Z) : bool := bool_decide (take (length prefix) e = prefix).

(** The condition of [unset_lsapi_envs]. *)
Definition lsapi_variable (uid : Z) (e : list Z) : bool :=
  starts_with (str "LSAPI_") e || starts_with (str "PHP_LSAPI_") e || (starts_with (str "PHPRC=") e && (uid =? 0)).

(** The inner loop: the pointers behind [i] move one place down, the NULL at the end with
    them. *)
Fixpoint shift_down (env : list (list Z)) (i : nat) : list (list Z) :=
  match env, i with
  | [], _ => []
  | _ :: env, O => env
  | e :: env, S i => e :: shift_down env i
  end.

(** The outer loop, at place [i]; every round deletes a string or goes to the next, so the
    number of strings is fuel enough. *)
Fixpoint unset_loop (fuel : nat) (uid : Z) (env : list (list Z)) (i : nat) : list (list Z) :=
  match fuel with
  | O => env
  | S fuel =>
      match env !! i with
      | None => env
      | Some e => if lsapi_variable uid e then unset_loop fuel uid (shift_down env i) i else unset_loop fuel uid env (S i)
      end
  end.

Definition unset_lsapi_envs (uid : Z) (env : list (list Z)) : list (list Z) := unset_loop (length env) uid env 0.

(** ** State and inputs *)

(** The statics only this file sets, with those of the worker and of the server.
    [s_ppid] is 0 when the parent is not checked. *)
Record statics := mkStatics {
  environ : list (list Z);
  st_worker : worker;
  g_prefork_server : option prefork;
  s_min_avail_pages : Z;
  s_slow_req_msecs : Z;
  s_enable_core_dump : bool;
  s_ppid : Z;
  s_stderr_is_pipe : bool
}.

Definition set_environ (x : list (list Z)) (v : statics) : statics :=
  mkStatics x (st_worker v) (g_prefork_server v) (s_min_avail_pages v) (s_slow_req_msecs v) (s_enable_core_dump v) (s_ppid v) (s_stderr_is_pipe v).
Definition on_env_worker (f : worker -> worker) (v : statics) : statics :=
  mkStatics (environ v) (f (st_worker v)) (g_prefork_server v) (s_min_avail_pages v) (s_slow_req_msecs v) (s_enable_core_dump v) (s_ppid v) (s_stderr_is_pipe v).
Definition set_server (x : option prefork) (v : statics) : statics :=
  mkStatics (environ v) (st_worker v) x (s_min_avail_pages v) (s_slow_req_msecs v) (s_enable_core_dump v) (s_ppid v) (s_stderr_is_pipe v).
Definition set_s_min_avail_pages (x : Z) (v : statics) : statics :=
  mkStatics (environ v) (st_worker v) (g_prefork_server v) x (s_slow_req_msecs v) (s_enable_core_dump v) (s_ppid v) (s_stderr_is_pipe v).
Definition LSAPI_Set_Slow_Req_Msecs (x : Z) (v : statics) : statics :=
  mkStatics (environ v) (st_worker v) (g_prefork_server v) (s_min_avail_pages v) x (s_enable_core_dump v) (s_ppid v) (s_stderr_is_pipe v).
Definition set_s_enable_core_dump (x : bool) (v : statics) : statics :=
  mkStatics (environ v) (st_worker v) (g_prefork_server v) (s_min_avail_pages v) (s_slow_req_msecs v) x (s_ppid v) (s_stderr_is_pipe v).
Definition set_s_ppid (x : Z) (v : statics) : statics :=
  mkStatics (environ v) (st_worker v) (g_prefork_server v) (s_min_avail_pages v) (s_slow_req_msecs v) (s_enable_core_dump v) x (s_stderr_is_pipe v).
Definition set_s_stderr_is_pipe (x : bool) (v : statics) : statics :=
  mkStatics (environ v) (st_worker v) (g_prefork_server v) (s_min_avail_pages v) (s_slow_req_msecs v) (s_enable_core_dump v) (s_ppid v) x.

(** The setters of the server do nothing without one. *)
Definition on_server (f : prefork -> prefork) (v : statics) : statics := set_server (f <$> g_prefork_server v) v.

Definition LSAPI_No_Check_ppid : statics -> statics := set_s_ppid 0.

(** liblve, as [dlopen] and its functions find it: whether it can be opened, whether it has
    [lve_is_available] and what that answers, the second time with the user ids swapped;
    whether [lve_instance_init] succeeds on a new instance; whether it has [jail]. *)
Record lve_lib := mkLveLib {
  lib_open : bool;
  lib_has_check : bool;
  lib_available : bool;
  lib_available_swapped : bool;
  lib_instance : bool;
  lib_jail : bool
}.

(** What the system answers. *)
Record inputs := mkInputs {
  in_secret : list Z -> secret_file;
  in_nobody : option (Z * Z);  (* getpwnam: user and group *)
  in_malloc : bool;
  in_parent : Z;  (* getppid *)
  in_real_uid : Z;  (* getuid *)
  in_stderr_pipe : bool;
  in_lve : lve_lib
}.

(** ** suEXEC and LVE *)

(** A variable with a positive number. *)
Definition positive_env (name : string) (env : list (list Z)) : option Z :=
  p ← getenv (str name) env;
  if 0 <? atoi p then Some (atoi p) else None.

Definition suexec_limits (p : prefork) : prefork :=
  set_limits (if m_iMaxChildren p <? 100 then 100 else m_iMaxChildren p)
    (if m_iExtraChildren p <? 1000 then 1000 else m_iExtraChildren p) (m_iMaxIdleChildren p) (m_iServerMaxIdle p) (m_iMaxReqProcessTime p) p.

(** The defaults that are still 0. *)
Definition fill_defaults (i : inputs) (uid gid : Z) : Z * Z :=
  if (uid =? 0) || (gid =? 0) then
    let '(pw_uid, pw_gid) := default (10000, 10000) (in_nobody i) in
    (if uid =? 0 then pw_uid else uid, if gid =? 0 then pw_gid else gid)
  else (uid, gid).

Definition lsapi_initSuEXEC (i : inputs) (v : statics) : M (Z * statics) :=
  mod_cred (set_s_default 0 0) ;;
  me ← get_os s_uid;
  if me =? 0 then
    let uid := default 0 (positive_env "LSAPI_DEFAULT_UID" (environ v)) in
    let gid := default 0 (positive_env "LSAPI_DEFAULT_GID" (environ v)) in
    mod_cred (set_s_default uid gid) ;;
    r ← (match getenv (str "LSAPI_SECRET") (environ v) with None => mret (-1) | Some p => readSecret (in_secret i p) end);
    if r =? -1 then mret (-1, v)
    else
      let '(uid, gid) := fill_defaults i uid gid in
      mod_cred (set_s_default uid gid) ;;
      mret (0, on_server suexec_limits v)
  else
    let '(uid, gid) := fill_defaults i 0 0 in
    mod_cred (set_s_default uid gid) ;;
    mret (0, v).

Definition set_lve (enable : Z) (lve jail : bool) (c : cred) : cred :=
  mkCred (s_defaultUid c) (s_defaultGid c) enable lve jail (k_getpwuid c) (k_ids c) (k_id_calls c)
    (k_getcwd c) (k_realpath c) (k_open c) (k_perror c).

(** [s_enable_lve] behind [lsapi_load_lve_lib]. *)
Definition lsapi_load_lve_lib (i : inputs) (enable : Z) : Z :=
  let l := in_lve i in
  if negb (lib_open l) then 0
  else if lib_has_check l && negb (lib_available l) && negb (in_real_uid i =? 0) && negb (lib_available_swapped l) then 0
  else enable.

(** The answer, the instance and the jail function behind [init_lve_ex], the latter from
    [jail]; LSAPI_CAGEFS_ENABLED is 2. *)
Definition init_lve_ex (i : inputs) (enable : Z) (jail : bool) : Z * (bool * bool) :=
  let l := in_lve i in
  let jail := if 2 <=? enable then lib_jail l else jail in
  if lib_instance l then (0, (true, jail)) else (-1, (false, jail)).

Definition lsapi_initLVE (i : inputs) (env : list (list Z)) : M Z :=
  old ← get_cred s_enable_lve;
  let enable :=
    match getenv (str "LSAPI_LVE_ENABLE") env with
    | Some p => atoi p
    | None => match getenv (str "LVE_ENABLE") env with Some p => atoi p | None => old end
    end in
  me ← get_os s_uid;
  if negb (enable =? 0) && (me =? 0) then
    let enable := lsapi_load_lve_lib i enable in
    if enable =? 0 then mod_cred (fun c => set_lve enable (s_lve c) (fp_lve_jail c) c) ;; mret 0
    else
      jail ← get_cred fp_lve_jail;
      let '(r, (lve, jail)) := init_lve_ex i enable jail in
      mod_cred (set_lve enable lve jail) ;;
      mret r
  else mod_cred (fun c => set_lve enable (s_lve c) (fp_lve_jail c) c) ;; mret 0.

(** ** The parameters *)

Definition with_env (name : string) (f : list Z -> statics -> statics) (v : statics) : statics :=
  match getenv (str name) (environ v) with Some p => f p v | None => v end.

(** [PHP_LSAPI_x], or else [LSAPI_x]. *)
Definition either_env (name1 name2 : string) (v : statics) : option (list Z) :=
  match getenv (str name1) (environ v) with Some p => Some p | None => getenv (str name2) (environ v) end.

Definition env_max_requests (v : statics) : statics :=
  match either_env "PHP_LSAPI_MAX_REQUESTS" "LSAPI_MAX_REQS" v with
  | Some p => if 0 <? atoi p then on_env_worker (LSAPI_Set_Max_Reqs (atoi p)) v else v
  | None => v
  end.

(** [LSAPI_AVOID_FORK] with its unit; [None]: the product overflows an [int]. *)
Definition avoid_fork (p : list Z) (v : statics) : option (Z * statics) :=
  let n := atoi p in
  if n =? 0 then Some (0, v)
  else
    let ch := default 0 (last p) in
    let n := if (ch =? 71) || (ch =? 103) then n * 1073741824 else if (ch =? 77) || (ch =? 109) then n * 1048576 else n in
    if bool_decide (is_s32 n) then
      let v := on_env_worker (set_s_keep_listener 2) v in
      Some (n, if 10485760 <=? n then set_s_min_avail_pages (Z.quot n 4096) v else v)
    else None.

Definition env_avoid_fork (v : statics) : option (Z * statics) :=
  match getenv (str "LSAPI_AVOID_FORK") (environ v) with Some p => avoid_fork p v | None => Some (0, v) end.

Definition set_max_busy_workers (n : Z) (v : statics) : statics :=
  on_server (fun p => mkPrefork (pf_fd p) (m_iMaxChildren p) (m_iExtraChildren p) (m_iCurChildren p) (m_iMaxIdleChildren p)
    (m_iServerMaxIdle p) (m_iChildrenMaxIdleTime p) (m_iMaxReqProcessTime p) (m_iAvoidFork p) (m_pChildrenStatus p)
    (m_pChildrenStatusCur p) (pf_busy p) (pf_accepting p) (s_max_idle_secs p) n (s_dump_debug_info p) (s_pid_dump_debug_info p) (s_ignore_pid p))
    (on_env_worker (fun w => mkWorker (s_req_processed w) (s_max_reqs w) n (s_keep_listener w) (w_max_idle_secs w) (w_accepting w)) v).

Definition set_dump_debug_info (n : Z) : statics -> statics :=
  on_server (fun p => mkPrefork (pf_fd p) (m_iMaxChildren p) (m_iExtraChildren p) (m_iCurChildren p) (m_iMaxIdleChildren p)
    (m_iServerMaxIdle p) (m_iChildrenMaxIdleTime p) (m_iMaxReqProcessTime p) (m_iAvoidFork p) (m_pChildrenStatus p)
    (m_pChildrenStatusCur p) (pf_busy p) (pf_accepting p) (s_max_idle_secs p) (s_max_busy_workers p) (negb (n =? 0)) (s_pid_dump_debug_info p) (s_ignore_pid p)).

(** [LSAPI_CHILDREN]: a server, unless there is one. *)
Definition env_children (i : inputs) (avoidFork fdListen : Z) (v : statics) : statics :=
  let n := default 0 (atoi <$> either_env "PHP_LSAPI_CHILDREN" "LSAPI_CHILDREN" v) in
  if 1 <? n then
    let v :=
      match g_prefork_server v with
      | Some _ => v
      | None =>
          let w := st_worker v in
          match LSAPI_Init_Prefork_Server n (if avoidFork =? 0 then 0 else 1) (w_max_busy_workers w) (w_max_idle_secs w) (in_malloc i) with
          | Some p => set_s_ppid (in_parent i) (set_max_busy_workers (s_max_busy_workers p) (set_server (Some p) v))
          | None => v
          end
      end in
    on_server (LSAPI_Set_Server_fd fdListen) v
  else v.

(** The limits of a server. *)
Definition env_server (v : statics) : statics :=
  let v := with_env "LSAPI_EXTRA_CHILDREN" (fun p => on_server (LSAPI_Set_Extra_Children (atoi p))) v in
  let v := with_env "LSAPI_MAX_IDLE_CHILDREN" (fun p => on_server (LSAPI_Set_Max_Idle_Children (atoi p))) v in
  let v := with_env "LSAPI_PGRP_MAX_IDLE" (fun p => on_server (LSAPI_Set_Server_Max_Idle_Secs (atoi p))) v in
  let v := with_env "LSAPI_MAX_PROCESS_TIME" (fun p => on_server (LSAPI_Set_Max_Process_Time (atoi p))) v in
  let v := with_env "LSAPI_PPID_NO_CHECK" (fun _ => LSAPI_No_Check_ppid) v in
  let v := with_env "LSAPI_MAX_BUSY_WORKER" (fun p v =>
    let v := set_max_busy_workers (atoi p) v in if 0 <=? atoi p then LSAPI_No_Check_ppid v else v) v in
  with_env "LSAPI_DUMP_DEBUG_INFO" (fun p => set_dump_debug_info (atoi p)) v.

(** What the worker takes from the environment, before anything about a server. *)
Definition env_worker (v : statics) : option (Z * statics) :=
  let v := env_max_requests v in
  let v := with_env "LSAPI_KEEP_LISTEN" (fun p => on_env_worker (set_s_keep_listener (atoi p))) v in
  env_avoid_fork v.

Definition env_process (v : statics) : statics :=
  let v := with_env "LSAPI_SLOW_REQ_MSECS" (fun p => LSAPI_Set_Slow_Req_Msecs (atoi p)) v in
  let v := with_env "LSAPI_ALLOW_CORE_DUMP" (fun _ => set_s_enable_core_dump true) v in
  with_env "LSAPI_MAX_IDLE" (fun p => on_env_worker (LSAPI_Set_Max_Idle (atoi p))) v.

(** The branch of a process that listens. *)
Definition env_listening (i : inputs) (avoidFork : Z) (v : statics) : M (Z * statics) :=
  fdl ← get_req m_fdListen;
  '(r, v) ← lsapi_initSuEXEC i (env_server (env_children i avoidFork fdl v));
  if r =? -1 then mret (-1, v)
  else
    lsapi_initLVE i (environ v) ;;
    mret (0, v).

(** [s_accept_notify] is a [char]: the low 8 bits of the number decide. *)
Definition LSAPI_Init_Env_Parameters (i : inputs) (v : statics) : M (Z * statics) :=
  (match getenv (str "LSAPI_STDERR_LOG") (environ v) with Some p => lsapi_reopen_stderr p | None => mret 0 end) ;;
  log ← get_os s_stderr_log_path;
  let v := if (log : bool) then v else set_s_stderr_is_pipe (in_stderr_pipe i) v in
  '(avoidFork, v) ← lift (env_worker v);
  (match getenv (str "LSAPI_ACCEPT_NOTIFY") (environ v) with
   | Some p => mod_os (set_s_accept_notify (negb (atoi p mod 256 =? 0)))
   | None => mret tt
   end) ;;
  let v := env_process v in
  listen ← gets (fun s => LSAPI_Is_Listen_r (req s));
  '(r, v) ← (if listen : bool then env_listening i avoidFork v else mret (0, v));
  if r =? -1 then mret (-1, v)
  else
    uid ← get_os s_uid;
    mret (0, set_environ (unset_lsapi_envs uid (environ v)) v).
