(* ===== verification/WorkerSpec.v ===== *)
(** * The books of a worker

    A worker tells the other processes what it does in two places: the state of its slot
    in the shared table and the shared count of busy workers.  [conn_books] says that
    both agree with the request structure, and every operation a worker uses keeps it. *)

From S2P Require Export SuExecSpec ReadReqSpec PreforkSpec Worker.

Open Scope Z_scope.

(** ** The relation *)

Definition conn_state (s : st) : Z := if m_fd (req s) =? -1 then LSAPI_STATE_IDLE else LSAPI_STATE_CONNECTED.
Definition conn_count (s : st) : Z := if m_fd (req s) =? -1 then 0 else 1.

(** The slot shows whether there is a connection, and the count of busy workers is that
    of the other processes, [b], and one for the connection. *)
Definition conn_books (b : Z) (s : st) : Prop :=
  m_state <$> s_worker_status (os s) = Some (conn_state s) /\ s_busy_workers (os s) = Some (s32 (b + conn_count s)).

(** What an operation on a request may do to the descriptors and the books. *)
Record steady (s s' : st) : Prop := {
  sd_books b : conn_books b s -> conn_books b s';
  sd_fd : m_fd (req s') = m_fd (req s) \/ m_fd (req s') = -1;
  sd_listen : m_fdListen (req s') = m_fdListen (req s) \/ m_fdListen (req s') = -1;
  sd_accepts : k_accepts (os s') = k_accepts (os s);
  sd_notify : s_accept_notify (os s') = s_accept_notify (os s)
}.

#[export] Instance steady_preorder : PreOrder steady.
Proof.
  split; [by split; auto|]. intros s s' s'' [A B C D E] [A' B' C' D' E'].
  split; [auto| | |congruence|congruence]; [destruct B' as [->| ->]|destruct C' as [->| ->]]; auto.
Qed.

(** The part of the state that matters here. *)
Definition conn_view (s : st) : Z * Z * option Z * option Z * list accept_res * bool :=
  (m_fd (req s), m_fdListen (req s), s_busy_workers (os s), m_state <$> s_worker_status (os s),
   k_accepts (os s), s_accept_notify (os s)).

Lemma steady_view s s' : conn_view s' = conn_view s -> steady s s'.
Proof.
  unfold conn_view. intros [= E1 E2 E3 E4 E5 E6]. split; auto.
  intros b. unfold conn_books, conn_state, conn_count. by rewrite E1, E3, E4.
Qed.


Lemma s32_add_l a b : s32 (s32 a + b) = s32 (a + b).
Proof.
  unfold s32. f_equal. replace (_ - 2 ^ 31 + b + 2 ^ 31) with ((a + 2 ^ 31) mod 2 ^ 32 + b) by lia.
  rewrite Zplus_mod_idemp_l. f_equal. lia.
Qed.

#[export] Hint Extern 1 (steady _ _) => apply steady_view; reflexivity : keeps.

Lemma lsapi_close_view fd : keeps process_view (lsapi_close fd).
Proof.
  unfold lsapi_close. assert (forall evs, keeps process_view (close_loop evs fd)) as Hloop.
  { induction evs; cbn [close_loop]; unfold sys_close_ev, signal_stop; keep. }
  keep.
Qed.

Lemma process_view_conn s s' : process_view s' = process_view s -> conn_view s' = conn_view s.
Proof. unfold process_view, conn_view. congruence. Qed.

(** Closing the connection undoes what accepting it did. *)
Lemma steady_close : stable steady lsapi_close_connection.
Proof.
  intros s [] s' H. unfold lsapi_close_connection in H. apply bind_inv in H as (fd & s1 & [= <- <-] & H).
  destruct (Z.eqb_spec (m_fd (req s)) (-1)) as [E|E]; [by injection H as <-|].
  apply bind_inv in H as (r & s1 & Hc%lsapi_close_view%process_view_conn & H).
  transitivity s1; [by apply steady_view|]. injection Hc as E1 E2 E3 E4 E5 E6.
  repeat (apply bind_inv in H as ([] & ? & [= <-] & H)). injection H as <-.
  split; cbn; auto. intros b [W B]. rewrite <- E1 in E. unfold conn_books, conn_state, conn_count in *. cbn.
  replace (m_fd (req s1) =? -1) with false in * by lia. rewrite B. cbn. split.
  - destruct (s_worker_status (os s1)); [done|discriminate W].
  - rewrite s32_add_l. do 2 f_equal. lia.
Qed.

#[export] Instance frame_steady : Frame steady.
Proof.
  split; [exact _| |exact steady_close]. intros s s' E. by apply steady_view, process_view_conn.
Qed.

(** ** Reading a request *)

Lemma steady_allocateBuf n : stable steady (allocateBuf n).
Proof. unfold allocateBuf. keep. Qed.
#[export] Hint Resolve steady_allocateBuf : keeps.

Lemma steady_fill_buf off bs : stable steady (fill_buf off bs).
Proof. unfold fill_buf. keep. Qed.
#[export] Hint Resolve steady_fill_buf : keeps.

Lemma steady_read_header_loop fuel : stable steady (read_header_loop fuel).
Proof. induction fuel; cbn [read_header_loop]; keep. Qed.
#[export] Hint Resolve steady_read_header_loop : keeps.

Lemma steady_read_packet_loop fuel packetLen : stable steady (read_packet_loop fuel packetLen).
Proof. induction fuel; cbn [read_packet_loop]; keep. Qed.
#[export] Hint Resolve steady_read_packet_loop : keeps.

Lemma steady_GetHeader_r i : stable steady (LSAPI_GetHeader_r i).
Proof. unfold LSAPI_GetHeader_r. keep. Qed.
#[export] Hint Resolve steady_GetHeader_r : keeps.

Lemma steady_parseRequest n : stable steady (parseRequest n).
Proof. unfold parseRequest, parse_layout, parseContentLenFromHeader, get_field. keep. Qed.
#[export] Hint Resolve steady_parseRequest : keeps.

Lemma steady_id_syscall c : stable steady (id_syscall c).
Proof. unfold id_syscall, mod_cred, get_cred. keep. Qed.
#[export] Hint Resolve steady_id_syscall : keeps.

Lemma steady_append_all l : stable steady (append_all l).
Proof. induction l; cbn [append_all]; unfold LSAPI_AppendRespHeader_r; keep. Qed.
#[export] Hint Resolve steady_append_all : keeps.

Lemma steady_ErrResponse code headers body len : stable steady (LSAPI_ErrResponse_r code headers body len).
Proof.
  assert (forall fuel buf len p bufLen ph, stable steady (Write_loop fuel buf len p bufLen ph)) as Hloop.
  { induction fuel; intros; cbn [Write_loop]; unfold push_packet, set_pkt, add_total, push_iov, set_iov; keep. }
  unfold LSAPI_ErrResponse_r, LSAPI_SetRespStatus_r, LSAPI_Write_r, ensure_finalized, set_state_bit, has_state. keep.
Qed.
#[export] Hint Resolve steady_ErrResponse : keeps.

Lemma steady_setUID_LVE uid gid root : stable steady (setUID_LVE uid gid root).
Proof.
  unfold setUID_LVE, set_ids, id_call_or_fail, lsapi_enterLVE, lsapi_jailLVE, lsapi_lve_error, get_cred. keep.
Qed.
#[export] Hint Resolve steady_setUID_LVE : keeps.

Lemma steady_unlisten : stable steady (mod_req (set_m_fdListen (-1))).
Proof. apply stable_modify. intros s. split; cbn; auto. Qed.
#[export] Hint Resolve steady_unlisten : keeps.

Lemma steady_changeUGid ctx : stable steady (lsapi_changeUGid ctx).
Proof. unfold lsapi_changeUGid, get_cred. keep. Qed.
#[export] Hint Resolve steady_changeUGid : keeps.

Lemma steady_notify_req_received fd : stable steady (notify_req_received fd).
Proof.
  unfold notify_req_received, lsapi_schedule_notify, send_req_received_notification, send_notification_pkt. keep.
Qed.
#[export] Hint Resolve steady_notify_req_received : keeps.

Lemma steady_readReq ctx : stable steady (readReq ctx).
Proof. unfold readReq, ensure_buf, after_parse. keep. Qed.
#[export] Hint Resolve steady_readReq : keeps.

Lemma steady_Reset_r : stable steady LSAPI_Reset_r.
Proof. unfold LSAPI_Reset_r. keep. Qed.
#[export] Hint Resolve steady_Reset_r : keeps.

Lemma steady_close_listener : stable steady close_listener.
Proof. unfold close_listener. keep. Qed.
#[export] Hint Resolve steady_close_listener : keeps.

Lemma steady_yield_busy w : stable steady (yield_busy w).
Proof. unfold yield_busy, send_conn_close_notification, send_notification_pkt. keep. Qed.
#[export] Hint Resolve steady_yield_busy : keeps.

(** ** Waiting *)

(** The kernel gives a new connection a descriptor of its own. *)
Definition fresh_fds (s : st) : Prop :=
  Forall (fun a => match a with
                   | AccConn fd _ => 0 <= fd /\ fd <> m_fdListen (req s)
                   | _ => True
                   end) (k_accepts (os s)).

(** What holds between two steps of a worker. *)
Record settled (b : Z) (s : st) : Prop := {
  se_books : conn_books b s;
  se_distinct : m_fd (req s) <> -1 -> m_fd (req s) <> m_fdListen (req s);
  se_fresh : fresh_fds s
}.

Lemma fresh_fds_steady s s' : steady s s' -> fresh_fds s -> fresh_fds s'.
Proof.
  intros [_ _ L A _]. unfold fresh_fds. rewrite A. intros F. eapply Forall_impl; [exact F|].
  intros [fd inet| |]; [|done..]. intros [H1 H2]. split; [done|]. destruct L as [->| ->]; lia.
Qed.

Lemma on_worker_steady f : (forall c, m_state (f c) = m_state c) -> stable steady (on_worker f).
Proof.
  intros H. apply stable_modify. intros s. apply steady_view. unfold conn_view. cbn.
  destruct (s_worker_status (os s)); cbn; by rewrite ?H.
Qed.

Lemma settled_steady b s s' : steady s s' -> settled b s -> settled b s'.
Proof.
  intros S [B D F]. split; [by apply S|destruct S; lia|by eapply fresh_fds_steady].
Qed.

(** [select] leaves the books as they were when the other processes leave the count
    alone, and the mark of a worker that listens is gone afterwards. *)
Lemma wait_select_settled ev (listening : bool) w s w' s' b :
  (forall n, se_busy ev n = n) -> (listening = true -> m_fd (req s) = -1) ->
  settled b s -> wait_select ev listening w s = Some (w', s') ->
  settled b s' /\ m_fd (req s') = m_fd (req s) /\ m_fdListen (req s') = m_fdListen (req s).
Proof.
  intros Hb Hl [[W B] L F] H. unfold wait_select, on_worker, signal_stop, worker_state in H.
  destruct (s_worker_status (os s)) as [c|] eqn:Ec; [|discriminate W].
  destruct listening; [specialize (Hl eq_refl)|clear Hl]; destruct (se_stop ev); cbn in H; injection H as <- <-; cbn;
    (split; [|done]); (split; [|done|done]); split; cbn; rewrite ?Ec, ?B; cbn; rewrite ?Hb;
    unfold conn_state, conn_count in *; cbn in *; rewrite ?Hl in *; done.
Qed.

Lemma after_accept_steady fd w s r s' :
  after_accept fd w s = Some (r, s') -> steady s s' /\ (r = inl (Some fd) \/ r = inr tt).
Proof.
  intros H. split.
  - revert H. assert (stable steady (after_accept fd w)) as Hs by (unfold after_accept; keep). apply Hs.
  - unfold after_accept in H. do 3 apply bind_inv in H as (? & ? & _ & H). injection H as <- _.
    destruct (_ =? -1); auto.
Qed.

Lemma settled_disconnect b s : settled b s -> m_fd (req s) = -1 -> settled b (on_req (set_m_fd (-1)) s).
Proof. intros S E. apply (settled_steady b s); [|done]. apply steady_view. unfold conn_view. cbn. by rewrite E. Qed.

(** A connection from the listening socket opens the books. *)
Lemma accept_conn_settled w s r s' b :
  settled b s -> m_fd (req s) = -1 -> accept_conn w s = Some (r, s') ->
  settled b s' /\ match r with
                  | inl (Some fd) => 0 <= fd /\ fd <> m_fdListen (req s')
                  | inl None => m_fd (req s') = -1
                  | inr _ => True
                  end.
Proof.
  intros S Hfd H. unfold accept_conn, sys_accept in H.
  apply bind_inv in H as (a & s1 & H1 & H). apply bind_inv in H1 as (l & s2 & [= <- <-] & H1).
  assert (settled b s1 /\ m_fd (req s1) = -1 /\
    match a with AccConn fd _ => 0 <= fd /\ fd <> m_fdListen (req s1) | _ => True end) as (S1 & Hfd1 & Ha).
  { destruct S as [B D F]. unfold fresh_fds in F. destruct (k_accepts (os s)) as [|a' l] eqn:El.
    - injection H1 as <- <-. split; [|done]. split; [done|done|]. unfold fresh_fds. by rewrite El.
    - apply bind_inv in H1 as ([] & s2 & [= <-] & [= <- <-]). apply Forall_cons in F as [Fa Fl]. split; [by split|]. by split. }
  clear S Hfd H1 s. destruct a as [fd inet| |].
  - destruct Ha as [Ha1 Ha2]. do 3 apply bind_inv in H as ([] & ? & [= <-] & H).
    apply after_accept_steady in H as [H R]. split.
    + apply (settled_steady _ _ _ H). destruct S1 as [[W B] D F]. unfold conn_state, conn_count in *. rewrite Hfd1 in *.
      split; cbn; [|lia|exact F]. split; unfold conn_state, conn_count; cbn; replace (fd =? -1) with false by lia.
      * by destruct (s_worker_status (os s1)).
      * rewrite B. cbn. rewrite s32_add_l. do 2 f_equal. lia.
    + destruct R as [->| ->]; [|done]. split; [done|]. destruct (sd_listen _ _ H) as [->| ->]; cbn; lia.
  - apply bind_inv in H as ([] & s2 & [= <-] & [= <- <-]). split; [|done]. by apply settled_disconnect.
  - apply bind_inv in H as ([] & s2 & [= <-] & [= <- <-]). split; [|done]. by apply settled_disconnect.
Qed.

Lemma after_timeout_steady ev listening secs w : stable steady (after_timeout ev listening secs w).
Proof.
  unfold after_timeout, idle_on_listener. apply stable_bind; [exact _|keep|]. intros status.
  apply stable_bind; [exact _|by apply on_worker_steady|]. keep.
Qed.

Lemma after_timeout_fds ev listening secs w :
  keeps (fun s => (m_fd (req s), m_fdListen (req s))) (after_timeout ev listening secs w).
Proof. unfold after_timeout, idle_on_listener, on_worker. keep. Qed.

(** The events of a kernel in which no other worker comes or goes. *)
Definition quiet_ev (ev : sel_ev) : Prop := forall n, se_busy ev n = n.

Lemma pick_fd_inv s o s' b :
  settled b s -> pick_fd s = Some (o, s') ->
  s' = s /\ match o with Some fd => fd = m_fdListen (req s) -> m_fd (req s) = -1 | None => True end.
Proof.
  intros S H. unfold pick_fd in H. apply bind_inv in H as (fd & s1 & [= <- <-] & H).
  apply bind_inv in H as (fdl & s1 & [= <- <-] & H). injection H as <- <-.
  split; [done|]. destruct (Z.eqb_spec (m_fd (req s)) (-1)) as [E|E]; cbn; [by destruct (m_fdListen (req s) =? -1); cbn|].
  intros E'. by destruct (se_distinct _ _ S).
Qed.

Lemma told_to_leave_inv w s a s' : told_to_leave w s = Some (a, s') -> s' = s.
Proof. intros H. unfold told_to_leave in H. apply bind_inv in H as (? & ? & [= <- <-] & [= <- <-]). done. Qed.

Lemma wait_loop_settled evs ctx b : Forall quiet_ev evs -> forall fd secs w s r s',
  settled b s -> (fd = m_fdListen (req s) -> m_fd (req s) = -1) ->
  wait_loop evs ctx fd secs w s = Some (r, s') -> settled b s'.
Proof.
  induction 1 as [|ev evs Q F IH]; intros fd secs w s r s' S L H; cbn [wait_loop] in H;
    apply bind_inv in H as (running & s1 & [= <- <-] & H);
    (destruct (g_running (os s)); [cbn [negb] in H|by injection H as _ <-]);
    apply bind_inv in H as (leave & s1 & ->%told_to_leave_inv & H);
    (destruct leave; [by injection H as _ <-|]);
    apply bind_inv in H as (fdl & s1 & [= <- <-] & H); [by injection H as _ <-|].
  apply bind_inv in H as (w1 & s1 & Hsel & H).
  apply (wait_select_settled _ _ _ _ _ _ b Q) in Hsel as (S1 & E1 & E2); [|intros ->%Z.eqb_eq; by apply L|done].
  rewrite <- E1, <- E2 in L.
  assert ((fd =? m_fdListen (req s)) = true -> m_fd (req s1) = -1) as L' by (rewrite <- E2; intros ->%Z.eqb_eq; auto).
  destruct (se_res ev).
  - apply bind_inv in H as (leave & s2 & ->%told_to_leave_inv & H). destruct leave; [by injection H as _ <-|].
    destruct (fd =? m_fdListen (req s)).
    + apply bind_inv in H as (a & s2 & Ha & H). apply (accept_conn_settled _ _ _ _ b S1 (L' eq_refl)) in Ha as [S2 R].
      destruct a as [[fd'|]|[]]; [|by eapply IH|by injection H as _ <-].
      eapply IH; [exact S2| |exact H]. lia.
    + apply bind_inv in H as (x & s2 & Hr%steady_readReq & H). apply (settled_steady _ _ _ Hr) in S1.
      destruct (x =? 0).
      * apply bind_inv in H as ([] & s3 & Hb & [= _ <-]). eapply settled_steady; [|exact S1].
        revert Hb. by apply on_worker_steady.
      * apply bind_inv in H as ([] & s3 & Hc%steady_close & H). apply (settled_steady _ _ _ Hc) in S1.
        apply bind_inv in H as ([] & s4 & Hc'%steady_Reset_r & H). apply (settled_steady _ _ _ Hc') in S1.
        apply bind_inv in H as (running & s5 & [= <- <-] & H). apply bind_inv in H as (o & s5 & Ho & H).
        apply (pick_fd_inv _ _ _ b S1) in Ho as [-> Ho]. destruct (g_running (os s4)); [|by injection H as _ <-].
        destruct o as [fd'|]; [|by injection H as _ <-]. by eapply IH.
  - apply bind_inv in H as (leave & s2 & Ht & H). pose proof (after_timeout_steady _ _ _ _ _ _ _ Ht) as St.
    apply (settled_steady _ _ _ St) in S1. destruct leave; [by injection H as _ <-|].
    apply after_timeout_fds in Ht. injection Ht as F1 F2. eapply IH; [exact S1| |exact H]. by rewrite F1, F2.
  - by eapply IH.
  - by injection H as _ <-.
Qed.

Lemma worker_accept_settled ctx evs now w b s r s' :
  Forall quiet_ev evs -> settled b s -> worker_accept ctx evs now w s = Some (r, s') -> settled b s'.
Proof.
  intros Q S H. unfold worker_accept in H. destruct (_ <? _); [by injection H as _ <-|].
  apply bind_inv in H as ([] & s1 & Hw & H).
  assert (settled b s1) as S1.
  { eapply settled_steady; [|exact S]. revert Hw. by apply on_worker_steady. }
  apply bind_inv in H as (running & s2 & [= <- <-] & H). apply bind_inv in H as (o & s2 & Ho & H).
  apply (pick_fd_inv _ _ _ b S1) in Ho as [-> Ho]. destruct (g_running (os s1)); [|by injection H as _ <-].
  destruct o as [fd|]; [|by injection H as _ <-]. by eapply wait_loop_settled.
Qed.

Lemma Prefork_Accept_settled ctx evs now w b s r s' :
  Forall quiet_ev evs -> settled b s -> LSAPI_Prefork_Accept_r None ctx evs now w s = Some (r, s') -> settled b s'.
Proof.
  intros Q S H. unfold LSAPI_Prefork_Accept_r in H.
  apply bind_inv in H as (skip & s1 & [= <- <-] & H). destruct (s_skip_write (os s)); [by injection H as _ <-|].
  apply bind_inv in H as (x & s1 & Hf & H).
  apply (frame_finish steady) in Hf. apply (settled_steady _ _ _ Hf) in S.
  apply bind_inv in H as ([] & s2 & Hy%steady_yield_busy & H). apply (settled_steady _ _ _ Hy) in S.
  apply bind_inv in H as ([r1 w1] & s3 & Ha & [= _ <-]). by eapply worker_accept_settled.
Qed.

(** Any number of calls, one after the other, with the number of requests that were served;
    each has its own answers of [select], its time, and any computation on the request in between that keeps the books: the
    response operations of [Frame] do. *)
Fixpoint serve (ctx : lsapi_MD5Context) (calls : list (list sel_ev * Z)) (respond : M unit) (w : worker) : M (worker * Z) :=
  match calls with
  | [] => mret (w, 0)
  | (evs, now) :: calls =>
      r ← LSAPI_Prefork_Accept_r None ctx evs now w;
      match r with
      | Returned 0 w _ => respond ;; '(w, n) ← serve ctx calls respond w; mret (w, n + 1)
      | Returned _ w _ => mret (w, 0)
      | Serving _ => mret (w, 0)
      end
  end.

Lemma serve_settled ctx calls respond b : Forall (fun c => Forall quiet_ev c.1) calls -> stable steady respond ->
  forall w s r s', settled b s -> serve ctx calls respond w s = Some (r, s') -> settled b s'.
Proof.
  intros Q Hr. induction Q as [|[evs now] calls Q F IH]; intros w s r0 s' S H; cbn [serve] in H; [by injection H as _ <-|].
  apply bind_inv in H as (r & s1 & Ha & H). apply (Prefork_Accept_settled _ _ _ _ b _ _ _ Q S) in Ha.
  destruct r as [[| |] w1 server|p]; try (by injection H as _ <-).
  apply bind_inv in H as ([] & s2 & Hb%Hr & H). apply (settled_steady _ _ _ Hb) in Ha.
  apply bind_inv in H as ([w2 n] & s3 & H & [= _ <-]). by eapply IH.
Qed.

Lemma forget_child_balances b s c i p :
  settled b s -> s_worker_status (os s) = Some c -> table p !! i = Some c -> pf_busy p = s_busy_workers (os s) ->
  is_s32 b -> is_s32 (b + 1) -> pf_busy (forget_child i p) = Some b.
Proof.
  intros [[W B] _ _] E L Hb R1 R2. unfold forget_child. rewrite L. rewrite E in W. injection W as W. rewrite B in Hb.
  unfold conn_state, conn_count in *. rewrite W. destruct (m_fd (req s) =? -1); cbn; rewrite Hb; cbn; f_equal.
  - rewrite Z.add_0_r. by apply s32_id.
  - rewrite s32_id by done. lia.
Qed.

(** The books of a worker over its whole life.  A worker whose slot and whose count of
    busy workers agree with its connection (as [prefork_child] leaves them) serves any
    number of requests, each one read by [LSAPI_Prefork_Accept_r] and answered by any
    operations that keep the frame, on its connection or on new ones from the listening
    socket.  Wherever it stops, errors and lost connections included, the SIGCHLD handler
    of the parent that forgets its slot brings the count of busy workers back to that of
    the other processes. *)
Theorem worker_life_balances (ctx : lsapi_MD5Context) (calls : list (list sel_ev * Z)) (respond : M unit) (w : worker) (r : worker * Z)
    (s s' : st) (b : Z) (c : lsapi_child_status) (i : nat) (p : prefork) :
  Forall (fun call => Forall quiet_ev call.1) calls -> stable steady respond -> settled b s ->
  serve ctx calls respond w s = Some (r, s') ->
  s_worker_status (os s') = Some c -> table p !! i = Some c -> pf_busy p = s_busy_workers (os s') ->
  is_s32 b -> is_s32 (b + 1) -> pf_busy (forget_child i p) = Some b.
Proof. intros Q Hr S H. apply (forget_child_balances b s'). by eapply serve_settled. Qed.

(** A worker on connection 5 that the sample request is waiting on, with two other busy
    workers. *)
Definition working : st :=
  on_os (set_s_busy_workers (Some 3)) (on_os (set_s_worker_status (Some (mkChild 100 0 0 0 LSAPI_STATE_CONNECTED 0 0 0 0)))
    (reader [sample_stream])).
Definition worker0 : worker := mkWorker 0 (u32 (-1)) (-1) 1 300 (Some 0).
Definition sel (r : select_res) : sel_ev := mkSel r (fun n => n) (fun n => n) (fun n => n) false true false 77.

Lemma working_settled : settled 2 working.
Proof. split; [by vm_compute|by vm_compute|]. constructor. Qed.

(** It serves the request, drops the answer and the connection, and leaves. *)
Lemma worker_life_balances_witness :
  match serve ctx0 [([sel SelTimeout; sel SelReady], 70); ([sel SelReady], 80)] lsapi_close_connection worker0 working with
  | Some ((w', n), s') =>
      s_req_processed w' = 1 /\ s_busy_workers (os s') = Some 2 /\
      match s_worker_status (os s') with
      | Some c => pf_busy (forget_child 0 (set_counters (s_busy_workers (os s')) (Some 0) (set_table [c] 1 prefork3))) = Some 2
      | None => False
      end
  | None => False
  end.
Proof.
  assert (match serve ctx0 [([sel SelTimeout; sel SelReady], 70); ([sel SelReady], 80)] lsapi_close_connection worker0 working with
    | Some ((w', n), s') => (s_req_processed w' =? 1) && bool_decide (s_busy_workers (os s') = Some 2) && bool_decide (is_Some (s_worker_status (os s')))
    | None => false end = true) as X by (vm_compute; reflexivity).
  destruct (serve _ _ _ _ _) as [[[w' n] s']|] eqn:E; [|discriminate X]. bsplit.
  assert (s_req_processed w' = 1 /\ s_busy_workers (os s') = Some 2 /\ is_Some (s_worker_status (os s'))) as (E1 & E2 & [c E3]).
  { split; [assumption|]. split; by eapply bool_decide_eq_true_1. }
  split; [exact E1|]. split; [exact E2|]. rewrite E3.
  apply (worker_life_balances ctx0 [([sel SelTimeout; sel SelReady], 70); ([sel SelReady], 80)] lsapi_close_connection
    worker0 (w', n) working s' 2 c 0%nat).
  - repeat constructor.
  - exact steady_close.
  - exact working_settled.
  - exact E.
  - exact E3.
  - reflexivity.
  - reflexivity.
  - split; [discriminate|reflexivity].
  - split; [discriminate|reflexivity].
Defined.

(** ** The start of a worker *)

Lemma steady_notify_pid pid fd : stable steady (lsapi_notify_pid pid fd).
Proof. unfold lsapi_notify_pid. keep. Qed.
#[export] Hint Resolve steady_notify_pid : keeps.

Definition defined {A} (m : M A) : Prop := forall s, is_Some (m s).

Lemma defined_bind {A B} (m : M A) (k : A -> M B) : defined m -> (forall a, defined (k a)) -> defined (m ≫= k).
Proof. intros Hm Hk s. unfold mbind, M_bind. destruct (Hm s) as [[a s1] ->]. apply Hk. Qed.
Lemma defined_sys_write fd data : defined (sys_write fd data).
Proof. intros s. destruct (sys_write_total fd data s) as (r & s' & ->). eauto. Qed.
Lemma defined_close_listener : defined close_listener.
Proof.
  intros s. unfold close_listener, sys_close, sys_close_ev, signal_stop, mod_req, mod_os, get_req, get_os, gets, modify,
    mbind, M_bind, mret, M_ret.
  destruct (k_closes _) as [|[[] [|e]] evs]; eauto.
Qed.

Lemma start_worker_settled pid max enough w s b c :
  s_worker_status (os s) = Some c -> s_busy_workers (os s) = Some b -> 0 <= m_fd (req s) ->
  m_fd (req s) <> m_fdListen (req s) -> fresh_fds s ->
  exists w' s', start_worker pid max enough w s = Some (w', s') /\ settled b s' /\ s_req_processed w' = 0.
Proof.
  intros Ec Eb H1 H2 F. unfold start_worker.
  erewrite bind_run by reflexivity. rewrite Ec. do 3 erewrite bind_run by reflexivity.
  match goal with |- context [ if ?c then set_s_keep_listener 1 ?x else ?y ] => set (w1 := if c then set_s_keep_listener 1 x else y) end.
  set (s1 := on_os _ (on_os _ s)).
  do 2 erewrite bind_run by reflexivity.
  assert (settled b s1) as S1.
  { split; [|done|done]. unfold conn_books, conn_state, conn_count. cbn. rewrite Ec, Eb. cbn.
    by replace (m_fd (req s) =? -1) with false by lia. }
  assert (s_req_processed w1 = 0) as W by (subst w1; by destruct (_ && _)).
  clearbody w1 s1. clear - S1 W.
  assert (exists s2, (if ((s_uid (os s1) =? 0) || (s_keep_listener w1 =? 0) || negb enough) && negb (m_fdListen (req s1) =? -1)
     then close_listener else mret tt) s1 = Some (tt, s2) /\ steady s1 s2) as (s2 & E & St).
  { destruct (_ && _); [|by exists s1]. destruct (defined_close_listener s1) as [[[] s2] E].
    exists s2. split; [done|]. by apply steady_close_listener in E. }
  rewrite (bind_run _ _ _ _ _ E). apply (settled_steady _ _ _ St) in S1. clear St E s1.
  erewrite bind_run by reflexivity.
  assert (exists r s3, lsapi_notify_pid pid (m_fd (req s2)) s2 = Some (r, s3)) as (r & s3 & En).
  { unfold lsapi_notify_pid. edestruct sys_write_total as ([n e] & s3 & Ew). erewrite bind_run by exact Ew.
    cbn. destruct (n <? 16); do 2 eexists; reflexivity. }
  erewrite bind_run by exact En. apply steady_notify_pid in En. apply (settled_steady _ _ _ En) in S1.
  do 2 eexists. split; [done|]. split; [|done]. eapply settled_steady; [|exact S1]. by apply steady_view.
Qed.

(** The parent hands over to a child that is fit to serve: whatever turns the server
    took, the child it forks has a slot, its first steps are defined (no NULL is
    dereferenced), and they leave its slot, its count among the busy workers and its
    connection in agreement, with no request served yet. *)
Theorem forked_child_starts (turns : list turn) (mfd : Z) (p q : prefork) (fd : Z) (slot : option nat) (b pid : Z)
    (enough : bool) (w : worker) (s : st) :
  m_pChildrenStatus p = None -> m_iCurChildren p = 0 -> 0 <= m_iMaxChildren p + m_iExtraChildren p ->
  lsapi_prefork_server_accept true turns mfd p = InChild fd slot q -> pf_busy q = Some b ->
  0 <= fd -> fd <> m_fdListen (req s) -> fresh_fds s ->
  exists w' s', prefork_child pid enough fd slot q w s = Some (w', s') /\ settled b s' /\ s_req_processed w' = 0.
Proof.
  intros N C B E Eb H1 H2 F.
  pose proof (accept_loop_good turns (mkLoop 0 0 0 mfd) _ (lsapi_init_children_status_inv p N C B)) as G.
  unfold lsapi_prefork_server_accept in E. rewrite E in G. destruct G as (i & -> & L & _).
  unfold prefork_child. cbn. rewrite L. cbn. by eapply start_worker_settled.
Qed.

Lemma forked_child_starts_witness :
  match lsapi_prefork_server_accept true
    [conn_turn 1 100; mkTurn [] [] [] [] false None false (quiet_probe 2) SelReady (AccConn 8 true) ForkChild] (-1) prefork3 with
  | InChild fd slot q =>
      exists w' s', prefork_child 101 true fd slot q worker0 working = Some (w', s') /\ settled 0 s' /\ s_req_processed w' = 0
  | _ => False
  end.
Proof.
  destruct (lsapi_prefork_server_accept _ _ _ _) as [v q|fd q|fd slot q] eqn:E; try (vm_compute in E; discriminate).
  assert (fd = 8 /\ pf_busy q = Some 0) as [-> Eb] by (vm_compute in E; by injection E as <- <- <-).
  eapply (forked_child_starts [conn_turn 1 100; mkTurn [] [] [] [] false None false (quiet_probe 2) SelReady (AccConn 8 true) ForkChild] (-1) prefork3);
    [reflexivity|reflexivity|vm_compute; discriminate|exact E|exact Eb|lia|vm_compute; discriminate|constructor].
Defined.

(** ** When a worker leaves *)

(** A worker without a connection waits on its listening socket: [n] workers are busy and
    [a] others wait there too. *)
Record listening_idle (n a : Z) (w : worker) (s : st) : Prop := {
  li_run : g_running (os s) = true;
  li_fd : m_fd (req s) = -1;
  li_fdl : m_fdListen (req s) <> -1;
  li_busy : s_busy_workers (os s) = Some n;
  li_status : exists c, s_worker_status (os s) = Some c /\ (s_req_processed w = 0 \/ m_iKillSent c = 0);
  li_accepting : w_accepting w = Some a;
  li_keep : s_keep_listener w = 1
}.

(** A second in which nobody connects and nothing changes elsewhere. *)
Definition idle_ev (ev : sel_ev) : Prop :=
  se_res ev = SelTimeout /\ (forall n, se_busy ev n = n) /\ (forall n, se_accepting ev n = n) /\
  (forall n, se_kill_sent ev n = n) /\ se_stop ev = false /\ se_enough_mem ev = true /\ se_parent_dead ev = false.

Lemma idle_on_listener_run n a secs w s :
  s_busy_workers (os s) = Some n -> w_accepting w = Some a -> s_keep_listener w = 1 ->
  0 <= a -> is_s32 (10 + n * 10) -> is_s32 (n * 10) ->
  idle_on_listener true secs w s = if a <? 32 then Some (Z.shiftr (10 + n * 10) a <=? secs, s) else None.
Proof.
  intros B A K H0 H1 H2. unfold idle_on_listener. rewrite K. change (1 =? 0) with false. change (1 =? 1) with true.
  cbn [negb orb]. erewrite bind_run by reflexivity. rewrite B, A. unfold wait_time. cbn [default fmap option_fmap option_map].
  rewrite (s32_id (n * 10)), s32_id by done. replace (0 <=? a) with true by lia. cbn [andb].
  by destruct (a <? 32).
Qed.

Lemma idle_step ev evs ctx secs w s n a :
  idle_ev ev -> listening_idle n a w s -> 0 <= a < 2 ^ 31 - 1 -> is_s32 (10 + n * 10) -> is_s32 (n * 10) ->
  exists w' s', listening_idle n a w' s' /\ w_max_idle_secs w' = w_max_idle_secs w /\
    m_fdListen (req s') = m_fdListen (req s) /\
    wait_loop (ev :: evs) ctx (m_fdListen (req s)) secs w s =
      if a <? 32 then
        if (Z.shiftr (10 + n * 10) a <=? secs) || ((0 <? w_max_idle_secs w) && (w_max_idle_secs w <=? secs + 1))
        then Some ((-1, w'), s') else wait_loop evs ctx (m_fdListen (req s)) (secs + 1) w' s'
      else None.
Proof.
  intros (Hr & Hb & Ha & Hk & Hs & He & Hp) [R F L B (c & W & K) A Keep] Ba Bn Bm.
  cbn [wait_loop]. erewrite bind_run by reflexivity. rewrite R. cbn [negb].
  assert (told_to_leave w s = Some (false, s)) as T.
  { unfold told_to_leave. erewrite bind_run by reflexivity. rewrite W. cbn.
    destruct K as [-> | ->]; [done|]. by rewrite andb_false_r. }
  erewrite bind_run by exact T. cbv beta iota. erewrite bind_run by reflexivity. rewrite Z.eqb_refl.
  set (w1 := set_w_accepting (Some a) w).
  assert (exists s2, wait_select ev true w s = Some (w1, s2) /\ listening_idle n a w1 s2 /\
    m_fdListen (req s2) = m_fdListen (req s)) as (s2 & Es & [R2 F2 L2 B2 (c2 & W2 & K2) A2 Keep2] & E2).
  { unfold wait_select, on_worker, worker_state, signal_stop. rewrite Hs. cbv zeta.
    repeat (erewrite bind_run by reflexivity). eexists. split; [unfold mret, M_ret; do 2 f_equal|].
    - unfold w1. rewrite A. cbn. rewrite Ha. do 2 f_equal. rewrite (s32_id (a + 1)) by (unfold is_s32; lia).
      rewrite s32_id by (unfold is_s32; lia). lia.
    - split; [|done]. split; cbn; rewrite ?B, ?W; cbn; rewrite ?Hb, ?Hk; try done. eexists. split; [done|]. exact K. }
  erewrite bind_run by exact Es. rewrite Hr.
  assert (exists s3, after_timeout ev true secs w1 s2 =
      (if a <? 32 then Some ((Z.shiftr (10 + n * 10) a <=? secs) || ((0 <? w_max_idle_secs w) && (w_max_idle_secs w <=? secs + 1)), s3)
       else None) /\ listening_idle n a w1 s3 /\ m_fdListen (req s3) = m_fdListen (req s2)) as (s3 & Et & I3 & E3).
  { unfold after_timeout, on_worker. erewrite bind_run by reflexivity. erewrite bind_run by reflexivity.
    exists (on_os (fun o => set_s_worker_status (set_m_inProcess 0 <$> s_worker_status o) o) s2).
    split; [|split; [split; cbn; rewrite ?W2; cbn; try done; eexists; split; [done|exact K2]|done]].
    rewrite W2. rewrite bool_decide_true by eauto. cbn [andb].
    set (s3 := on_os _ s2). assert (s_busy_workers (os s3) = Some n) as B3 by exact B2. clearbody s3.
    rewrite He. unfold mbind at 1, M_bind at 1. rewrite (idle_on_listener_run n a); [|done|done|done|lia|done|done].
    destruct (a <? 32); [|done]. rewrite Hp. destruct (Z.shiftr (10 + n * 10) a <=? secs); [reflexivity|]. cbn [orb]. by rewrite orb_false_r. }
  exists w1, s3. split; [done|]. split; [done|]. split; [congruence|].
  unfold mbind at 1, M_bind at 1. rewrite Et. destruct (a <? 32); [|done]. by destruct (_ || _).
Qed.

(** A worker does not hold on to the listening socket for ever: when nobody connects
    it leaves, at the latest after [10 + 10 * busy] seconds divided by two to the number
    of workers that wait there, whatever would come later. *)
Theorem idle_worker_leaves (evs rest : list sel_ev) (ctx : lsapi_MD5Context) (w : worker) (s : st) (n a : Z) :
  Forall idle_ev evs -> listening_idle n a w s -> 0 <= n < 2 ^ 27 -> 0 <= a < 32 ->
  Z.shiftr (10 + n * 10) a < Z.of_nat (length evs) ->
  exists w' s', wait_loop (evs ++ rest) ctx (m_fdListen (req s)) 0 w s = Some ((-1, w'), s').
Proof.
  intros F I Hn Ha Hl.
  assert (forall secs, Z.shiftr (10 + n * 10) a - secs < Z.of_nat (length evs) ->
    secs <= Z.shiftr (10 + n * 10) a ->
    exists w' s', wait_loop (evs ++ rest) ctx (m_fdListen (req s)) secs w s = Some ((-1, w'), s')) as G.
  { clear Hl. revert w s I. induction F as [|ev evs Hev F IH]; intros w s I secs H1 H2; cbn [length] in H1; [lia|].
    destruct (idle_step ev (evs ++ rest) ctx secs w s n a Hev I) as (w1 & s1 & I1 & E1 & E2 & Estep);
      [lia|unfold is_s32; lia|unfold is_s32; lia|].
    cbn [app]. rewrite Estep. replace (a <? 32) with true by lia. rewrite <- E2.
    destruct (Z.leb_spec (Z.shiftr (10 + n * 10) a) secs); cbn [orb]; [by do 2 eexists|].
    destruct (_ && _); [by do 2 eexists|]. apply IH; [done|lia|lia]. }
  apply G; [lia|]. apply (proj2 (Z.shiftr_nonneg _ _)). lia.
Qed.

(** A worker that is done with a connection, on listening socket 3. *)
Definition idle_listener : st :=
  on_req (set_m_fd (-1)) (on_req (set_m_fdListen 3) (on_os (set_s_busy_workers (Some 0)) (on_os (set_s_worker_status (Some null_child)) st0))).
Definition waiting_worker (a : Z) : worker := mkWorker 1 (u32 (-1)) (-1) 1 300 (Some a).

Lemma idle_listener_ok a : listening_idle 0 a (waiting_worker a) idle_listener.
Proof. split; try done. exists null_child. split; [done|by right]. Qed.

Lemma idle_worker_leaves_witness :
  exists w' s', wait_loop (replicate 6 (sel SelTimeout) ++ [sel SelReady]) ctx0 3 0 (waiting_worker 1) idle_listener = Some ((-1, w'), s').
Proof.
  apply (idle_worker_leaves (replicate 6 (sel SelTimeout)) [sel SelReady] ctx0 (waiting_worker 1) idle_listener 0 1).
  - repeat (constructor; [split; [reflexivity|repeat split]|]). constructor.
  - apply idle_listener_ok.
  - split; [discriminate|reflexivity].
  - split; [discriminate|reflexivity].
  - reflexivity.
Defined.

(** C39. The shift by the number of waiting workers is not bounded: with 32 of them or
    more (the server admits up to ten thousand children) the first second without a
    connection shifts an [int] by its width or more, which is undefined in C. *)
Theorem crowded_listener_undefined (ev : sel_ev) (rest : list sel_ev) (ctx : lsapi_MD5Context) (w : worker) (s : st) (n a : Z) :
  idle_ev ev -> listening_idle n a w s -> 0 <= n < 2 ^ 27 -> 32 <= a < 2 ^ 31 - 1 ->
  wait_loop (ev :: rest) ctx (m_fdListen (req s)) 0 w s = None.
Proof.
  intros Hev I Hn Ha.
  destruct (idle_step ev rest ctx 0 w s n a Hev I) as (w1 & s1 & _ & _ & _ & ->);
    [lia|unfold is_s32; lia|unfold is_s32; lia|].
  by replace (a <? 32) with false by lia.
Qed.

Lemma crowded_listener_undefined_witness :
  wait_loop [sel SelTimeout] ctx0 3 0 (waiting_worker 32) idle_listener = None.
Proof.
  apply (crowded_listener_undefined (sel SelTimeout) [] ctx0 (waiting_worker 32) idle_listener 0 32).
  - split; [reflexivity|repeat split].
  - apply idle_listener_ok.
  - split; [discriminate|reflexivity].
  - split; [discriminate|reflexivity].
Defined.

(** What a call leaves of the count of requests and of the quota. *)
Definition counted (w : worker) (r : Z * worker) : Prop :=
  s_max_reqs r.2 = s_max_reqs w /\
  s_req_processed r.2 = (if r.1 =? 0 then s32 (s_req_processed w + 1) else s_req_processed w).

Lemma counted_accepting a w r : counted (set_w_accepting a w) r -> counted w r.
Proof. done. Qed.

Lemma wait_select_worker ev listening w s w' s' : wait_select ev listening w s = Some (w', s') -> exists a, w' = set_w_accepting a w.
Proof.
  intros H. unfold wait_select in H. apply bind_inv in H as ([] & s1 & _ & H). do 4 (apply bind_inv in H as ([] & ? & _ & H)).
  injection H as <- _. by eexists.
Qed.

Lemma wait_loop_counted evs ctx : forall fd secs w s r s', wait_loop evs ctx fd secs w s = Some (r, s') -> counted w r.
Proof.
  induction evs as [|ev evs IH]; intros fd secs w s r s' H; cbn [wait_loop] in H;
    apply bind_inv in H as (running & s1 & [= <- <-] & H);
    (destruct (g_running (os s)); [cbn [negb] in H|by injection H as <- _]);
    apply bind_inv in H as (leave & s1 & _ & H);
    (destruct leave; [by injection H as <- _|]);
    apply bind_inv in H as (fdl & s2 & [= <- <-] & H); [by injection H as <- _|].
  apply bind_inv in H as (w1 & s2 & [a ->]%wait_select_worker & H). apply (counted_accepting a). set (w1 := set_w_accepting a w) in *. clearbody w1.
  destruct (se_res ev).
  - apply bind_inv in H as (leave & s3 & _ & H). destruct leave; [by injection H as <- _|]. destruct (fd =? _).
    + apply bind_inv in H as (c & s4 & _ & H). destruct c as [[fd'|]|[]]; [by eapply IH..|by injection H as <- _].
    + apply bind_inv in H as (x & s4 & _ & H). destruct (x =? 0).
      * apply bind_inv in H as ([] & s5 & _ & [= <- _]). done.
      * do 2 (apply bind_inv in H as ([] & ? & _ & H)). apply bind_inv in H as (go & ? & _ & H). apply bind_inv in H as (o & ? & _ & H).
        destruct go; [|by injection H as <- _]. destruct o; [by eapply IH|by injection H as <- _].
  - apply bind_inv in H as (leave & s3 & _ & H). destruct leave; [by injection H as <- _|by eapply IH].
  - by eapply IH.
  - by injection H as <- _.
Qed.

Lemma worker_accept_counted ctx evs now w s r s' : worker_accept ctx evs now w s = Some (r, s') ->
  counted w r /\ (r.1 = 0 -> u32 (s_req_processed w) <= s_max_reqs w).
Proof.
  intros H. unfold worker_accept in H. destruct (Z.ltb_spec (s_max_reqs w) (u32 (s_req_processed w))); [by injection H as <- _|]. split; [|done].
  apply bind_inv in H as ([] & s1 & _ & H). apply bind_inv in H as (go & s2 & _ & H). apply bind_inv in H as (o & s3 & _ & H).
  destruct go; [|by injection H as <- _]. destruct o; [by eapply wait_loop_counted|by injection H as <- _].
Qed.

Lemma Prefork_Accept_counted ctx evs now w s r s' : LSAPI_Prefork_Accept_r None ctx evs now w s = Some (r, s') ->
  exists v w', r = Returned v w' None /\ counted w (v, w') /\ (v = 0 -> u32 (s_req_processed w) <= s_max_reqs w).
Proof.
  intros H. unfold LSAPI_Prefork_Accept_r in H. apply bind_inv in H as (skip & s1 & _ & H).
  destruct skip; [injection H as <- _; by exists (-1), w|]. apply bind_inv in H as (x & s2 & _ & H). apply bind_inv in H as ([] & s3 & _ & H).
  apply bind_inv in H as ([v w'] & s4 & H & [= <- _]). apply worker_accept_counted in H as [H1 H2]. by exists v, w'.
Qed.

(** C38. The quota of a worker.  After [LSAPI_Set_Max_Reqs reqs] a worker that has served
    nothing yet serves at most [reqs] requests in its life, whatever connections, requests
    and errors come, and [s_req_processed] counts exactly those it served. *)
Theorem quota_of_requests (reqs : Z) (ctx : lsapi_MD5Context) (calls : list (list sel_ev * Z)) (respond : M unit)
    (w w' : worker) (n : Z) (s s' : st) :
  0 < reqs < 2 ^ 31 -> s_req_processed w = 0 ->
  serve ctx calls respond (LSAPI_Set_Max_Reqs reqs w) s = Some ((w', n), s') ->
  0 <= n <= reqs /\ s_req_processed w' = n.
Proof.
  intros Hr H0 H. set (w0 := LSAPI_Set_Max_Reqs reqs w) in *.
  assert (s_max_reqs w0 = reqs - 1 /\ s_req_processed w0 = 0) as [M P] by (split; [apply u32_id; lia|done]).
  clearbody w0. clear w H0.
  enough (0 <= n /\ 0 <= s_req_processed w' <= reqs /\ s_req_processed w' = s_req_processed w0 + n) by lia.
  assert (0 <= s_req_processed w0 <= reqs) as B by lia. clear P.
  revert w0 w' n s s' M B H. induction calls as [|[evs now] calls IH]; intros w0 w' n s s' M B H; cbn [serve] in H.
  { injection H as <- <- _. lia. }
  apply bind_inv in H as (r & s1 & Ha & H). apply Prefork_Accept_counted in Ha as (v & w1 & -> & [M1 P1] & Hv). cbn in M1, P1.
  destruct (Z.eqb_spec v 0) as [->|N].
  - apply bind_inv in H as ([] & s2 & _ & H). apply bind_inv in H as ([w2 k] & s3 & H & [= <- <- _]).
    specialize (Hv eq_refl). rewrite u32_id, M in Hv by lia. rewrite s32_id in P1 by (unfold is_s32; lia).
    apply IH in H; [lia|congruence|lia].
  - destruct v; [done| |]; injection H as <- <- _; lia.
Qed.

Lemma quota_of_requests_witness :
  match serve ctx0 [([sel SelTimeout; sel SelReady], 70); ([sel SelReady], 80)] lsapi_close_connection
          (LSAPI_Set_Max_Reqs 1 worker0) working with
  | Some ((w', n), _) => 0 <= n <= 1 /\ s_req_processed w' = n /\ n = 1
  | None => False
  end.
Proof.
  assert (match serve ctx0 [([sel SelTimeout; sel SelReady], 70); ([sel SelReady], 80)] lsapi_close_connection (LSAPI_Set_Max_Reqs 1 worker0) working with
    | Some ((_, n), _) => n =? 1 | None => false end = true) as X by (vm_compute; reflexivity).
  destruct (serve _ _ _ _ _) as [[[w' n] s']|] eqn:E; [|discriminate X]. apply Z.eqb_eq in X as N.
  destruct (quota_of_requests 1 ctx0 [([sel SelTimeout; sel SelReady], 70); ([sel SelReady], 80)] lsapi_close_connection
    worker0 w' n working s') as [H1 H2]; [split; reflexivity|reflexivity|exact E|].
  split; [exact H1|]. split; [exact H2|exact N].
Defined.
