(* ===== verification/EnvSpec.v ===== *)
(** * What the environment configures

    The removal of the LSAPI variables is a filter; a listening process that starts as
    root is ready to give root up when [LSAPI_Init_Env_Parameters] answers 0, and serves as
    root when it answers -1. *)

From S2P Require Export Env SuExecSpec ReqHeadersSpec WorkerSpec.

Open Scope Z_scope.

(** ** The variables that stay *)

Abbreviation kept_envs uid := (filter (fun e => lsapi_variable uid e = false)).

Lemma shift_down_delete env : forall i, shift_down env i = delete i env.
Proof. induction env as [|e env IH]; intros [|i]; [done..|]. cbn [shift_down]. by rewrite IH. Qed.

Lemma filter_lookup uid env i e :
  env !! i = Some e ->
  kept_envs uid (drop i env) = (if lsapi_variable uid e then [] else [e]) ++ kept_envs uid (drop (S i) env).
Proof.
  intros H. rewrite (drop_S _ _ _ H), filter_cons. destruct (lsapi_variable uid e); [by rewrite decide_False|by rewrite decide_True].
Qed.

Lemma unset_loop_spec uid fuel : forall env i,
  (length env <= fuel + i)%nat -> unset_loop fuel uid env i = take i env ++ kept_envs uid (drop i env).
Proof.
  induction fuel as [|fuel IH]; intros env i Hf; cbn [unset_loop].
  { rewrite take_ge, drop_ge by lia. by rewrite app_nil_r. }
  destruct (env !! i) as [e|] eqn:E.
  2:{ apply lookup_ge_None in E. rewrite take_ge, drop_ge by lia. by rewrite app_nil_r. }
  pose proof (lookup_lt_Some _ _ _ E) as Hi. rewrite (filter_lookup _ _ _ _ E). destruct (lsapi_variable uid e).
  - rewrite shift_down_delete, IH by (rewrite length_delete by (by eexists); lia). cbn [app].
    rewrite delete_take_drop, take_app_le, drop_app_ge, length_take by (rewrite length_take; lia).
    rewrite take_take, Nat.min_id. replace (i - i `min` length env)%nat with 0%nat by lia. done.
  - rewrite IH by lia. rewrite (take_S_r _ _ _ E), <- app_assoc. done.
Qed.

Lemma unset_lsapi_envs_run uid env : unset_lsapi_envs uid env = kept_envs uid env.
Proof. unfold unset_lsapi_envs. rewrite unset_loop_spec by lia. by rewrite take_0, drop_0. Qed.

(** The loops of [unset_lsapi_envs], which move the pointers of the environment down
    in place and look again at the place they filled, remove exactly the variables named
    [LSAPI_...] and [PHP_LSAPI_...], and [PHPRC] for root, every one of them however many
    stand together, and keep the others in their order. *)
Theorem unset_lsapi_envs_filters uid env :
  unset_lsapi_envs uid env = filter (fun e => lsapi_variable uid e = false) env /\
  (forall name e, e ∈ unset_lsapi_envs uid env -> starts_with (str "LSAPI_" ++ name) e = false).
Proof.
  split; [apply unset_lsapi_envs_run|]. intros name e. rewrite unset_lsapi_envs_run, list_elem_of_filter.
  intros [He _]. unfold lsapi_variable in He. apply orb_false_iff in He as [[H _]%orb_false_iff _].
  unfold starts_with in *. apply bool_decide_eq_false in H. apply bool_decide_eq_false. intros E. apply H.
  pose proof (f_equal (take (length (str "LSAPI_"))) E) as E'. rewrite take_take, take_app_length in E'.
  by rewrite length_app, Nat.min_l in E' by lia.
Qed.

(** ** Who the process is *)

(** What the parameters are set up for: the identity of the process and its secret. *)
Definition guarded (s : st) : cred * Z * Z * list Z := (identity s, s_secret (os s)).

(** [nobody] is not root. *)
Definition nobody_ok (i : inputs) : Prop :=
  match in_nobody i with Some (uid, gid) => 0 < uid < 2 ^ 31 /\ 0 < gid < 2 ^ 31 | None => True end.

(** The first 16 bytes of a secret file only its owner may read. *)
Definition usable_secret (f : secret_file) : option (list Z) :=
  match f with
  | SecretFile mode data => if (Z.land mode 63 =? 0) && (16 <=? zlen data) then Some (take 16 data) else None
  | _ => None
  end.

Definition env_secret (i : inputs) (env : list (list Z)) : option (list Z) :=
  p ← getenv (str "LSAPI_SECRET") env; usable_secret (in_secret i p).

(** The product of [LSAPI_AVOID_FORK] and its unit is an [int]. *)
Definition avoid_fork_fits (v : statics) : Prop := is_Some (env_avoid_fork v).

Lemma reopen_stderr_total p s : wp (lsapi_reopen_stderr p) (fun _ s' => guarded s' = guarded s) s.
Proof.
  assert (keeps guarded (lsapi_reopen_stderr p)) as Hk.
  { unfold lsapi_reopen_stderr, lsapi_reopen_stderr2, LSAPI_perror_r, sys_close, sys_close_ev, sys_write, next_write,
      sys_write_ev, signal_stop, sys_alloc. keep. }
  assert (forall p1 p2 s, exists r, LSAPI_perror_r false p1 p2 s = Some r) as Herr.
  { intros p1 p2 t. destruct (perror_log p1 p2 t) as (t' & -> & _). by eexists. }
  destruct (lsapi_reopen_stderr p s) as [[r s']|] eqn:E.
  - unfold wp. rewrite E. by apply (Hk s r s').
  - exfalso. unfold lsapi_reopen_stderr, lsapi_reopen_stderr2 in E.
    unfold mbind at 1, M_bind at 1, get_os, gets in E. destruct (_ =? 0); [done|].
    unfold mbind at 1, M_bind at 1 in E. destruct (lsapi_check_path _ p) as [full|].
    2:{ unfold mbind, M_bind in E. destruct (Herr (str "Invalid custom stderr log path") p s) as [[x t] Hx]. by rewrite Hx in E. }
    unfold mbind at 1, M_bind at 1, get_cred, get_os, gets in E. destruct (_ =? -1).
    { unfold mbind, M_bind in E. destruct (Herr (str "Failed to open custom stderr log") full s) as [[x t] Hx]. by rewrite Hx in E. }
    unfold sys_close, sys_close_ev, signal_stop, sys_alloc, mbind, M_bind, get_os, gets, mod_os, modify, mret, M_ret in E.
    destruct (_ =? 2); [by destruct (k_allocs _)|].
    destruct (k_closes _) as [|[[] []] ?]; cbn in E; by destruct (k_allocs _).
Qed.

Lemma readSecret_spec f s :
  zlen (s_secret (os s)) = 24 ->
  wp (readSecret f) (fun r s' =>
    match usable_secret f with
    | Some key => r = 0 /\ guarded s' = (identity s, key ++ drop 16 (s_secret (os s)))
    | None => r = -1 /\ identity s' = identity s /\ zlen (s_secret (os s')) = 24
    end) s.
Proof.
  intros Hz. destruct f as [| |mode data]; [by apply wp_ret..|]. unfold readSecret, usable_secret.
  destruct (Z.eqb_spec (Z.land mode 63) 0); cbn [negb andb]; [|by apply wp_ret].
  assert (zlen (take 16 data) = Z.min 16 (zlen data)) as Hl by (unfold zlen; rewrite length_take; lia).
  pose proof (zlen_nonneg data).
  wsteps. eapply wp_lift; [apply store_Some; lia|]. wsteps.
  destruct (Z.leb_spec 16 (zlen data)); destruct (Z.ltb_spec (zlen (take 16 data)) 16) as [Hs|Hs];
    try lia; wsteps.
  - split; [done|]. unfold guarded. cbn [os on_os set_os]. change (slice 0 0 (s_secret (os s))) with (@nil Z). cbn [app].
    replace (0 + zlen (take 16 data)) with 16 by lia. f_equal.
    cbn [s_secret set_s_secret]. f_equal. unfold slice.
    rewrite take_ge; [done|]. rewrite length_drop. unfold zlen in *. lia.
  - split; [done|]. split; [done|]. cbn [os on_os set_os s_secret set_s_secret].
    rewrite !zlen_app, !zlen_slice by lia. lia.
Qed.

(** ** The limits of a server *)

(** The steps on the statics leave the environment alone. *)
Definition same_environ (f : statics -> statics) : Prop := forall v, environ (f v) = environ v.

Lemma same_environ_with_env name f : (forall p, same_environ (f p)) -> same_environ (with_env name f).
Proof. intros H v. unfold with_env. destruct (getenv _ _); [apply H|done]. Qed.

Lemma env_max_requests_environ : same_environ env_max_requests.
Proof. intros v. unfold env_max_requests. destruct (either_env _ _ _); [|done]. by destruct (0 <? _). Qed.

Lemma env_worker_runs v :
  avoid_fork_fits v -> exists n v', env_worker v = Some (n, v') /\ environ v' = environ v.
Proof.
  unfold avoid_fork_fits, env_worker, env_avoid_fork. intros Hf.
  set (v1 := with_env _ _ _). assert (environ v1 = environ v) as E.
  { subst v1. rewrite same_environ_with_env by done. apply env_max_requests_environ. }
  rewrite E. destruct (getenv _ _) as [p|]; [|eauto]. unfold avoid_fork in *.
  destruct (atoi p =? 0); [eauto|]. destruct (bool_decide _); [|by destruct Hf].
  eexists _, _. split; [done|]. by destruct (10485760 <=? _).
Qed.

Lemma env_process_environ : same_environ env_process.
Proof. intros v. unfold env_process. rewrite !same_environ_with_env by done. done. Qed.

Lemma env_children_environ i n fd : same_environ (env_children i n fd).
Proof.
  intros v. unfold env_children. destruct (1 <? _); [|done].
  destruct (g_prefork_server v); [done|]. by destruct (LSAPI_Init_Prefork_Server _ _ _ _ _).
Qed.

Lemma env_server_environ : same_environ env_server.
Proof.
  intros v. unfold env_server. rewrite !same_environ_with_env; try done.
  intros p w. cbv zeta. by destruct (0 <=? _).
Qed.

(** ** suEXEC *)

(** The default ids a process may run under. *)
Definition user_id (n : Z) : Prop := 0 < n < 2 ^ 31.

Lemma atoi_range p : - 2 ^ 31 <= atoi p < 2 ^ 31.
Proof. apply s32_range. Qed.

Lemma positive_env_id name env : let n := default 0 (positive_env name env) in n = 0 \/ user_id n.
Proof.
  unfold positive_env. destruct (getenv _ _) as [p|]; cbn; [|by left]. pose proof (atoi_range p).
  destruct (Z.ltb_spec 0 (atoi p)); cbn; [right; unfold user_id; lia|by left].
Qed.

Lemma fill_defaults_ids i uid gid :
  nobody_ok i -> uid = 0 \/ user_id uid -> gid = 0 \/ user_id gid ->
  user_id (fill_defaults i uid gid).1 /\ user_id (fill_defaults i uid gid).2.
Proof.
  unfold nobody_ok, fill_defaults, user_id. intros Hn Hu Hg.
  destruct (in_nobody i) as [[pu pg]|]; cbn;
    destruct (Z.eqb_spec uid 0), (Z.eqb_spec gid 0); cbn; lia.
Qed.

(** The state behind [lsapi_initSuEXEC] that succeeds. *)
Record ready (i : inputs) (s s' : st) (key : option (list Z)) : Prop := {
  rd_uid : s_uid (os s') = s_uid (os s);
  rd_fdl : m_fdListen (req s') = m_fdListen (req s);
  rd_lve : lib_open (in_lve i) = false -> s_lve (s_cred (os s')) = s_lve (s_cred (os s));
  rd_ids : user_id (s_defaultUid (s_cred (os s'))) /\ user_id (s_defaultGid (s_cred (os s')));
  rd_secret : forall k, key = Some k -> s_secret (os s') = k ++ drop 16 (s_secret (os s))
}.

(** The state behind one that fails: still root, with the ids of the variables. *)
Record refused (env : list (list Z)) (s s' : st) : Prop := {
  rf_uid : s_uid (os s') = s_uid (os s);
  rf_fdl : m_fdListen (req s') = m_fdListen (req s);
  rf_uid_default : s_defaultUid (s_cred (os s')) = default 0 (positive_env "LSAPI_DEFAULT_UID" env);
  rf_gid_default : s_defaultGid (s_cred (os s')) = default 0 (positive_env "LSAPI_DEFAULT_GID" env);
  rf_lve : s_lve (s_cred (os s')) = s_lve (s_cred (os s));
  rf_ids : k_ids (s_cred (os s')) = k_ids (s_cred (os s))
}.

Lemma initSuEXEC_spec i v s :
  nobody_ok i -> zlen (s_secret (os s)) = 24 ->
  wp (lsapi_initSuEXEC i v) (fun '(r, v') s' => environ v' = environ v /\
    if (s_uid (os s) =? 0) && negb (bool_decide (is_Some (env_secret i (environ v))))
    then r = -1 /\ refused (environ v) s s'
    else r = 0 /\ ready i s s' (if s_uid (os s) =? 0 then env_secret i (environ v) else None)) s.
Proof.
  intros Hn Hz. unfold lsapi_initSuEXEC, mod_cred. wsteps. cbn [os on_os set_os s_uid set_s_cred].
  destruct (s_uid (os s) =? 0) eqn:Hu; cbn [andb].
  2:{ destruct (fill_defaults i 0 0) as [u g] eqn:E. wsteps. split; [done|]. split; [done|]. split; try done.
      pose proof (fill_defaults_ids i 0 0 Hn (or_introl eq_refl) (or_introl eq_refl)). by rewrite E in *. }
  wsteps. unfold env_secret. destruct (getenv (str "LSAPI_SECRET") (environ v)) as [p|].
  2:{ wsteps. cbn [mbind option_bind]. rewrite bool_decide_false by (by intros [? [=]]). wsteps. by split. }
  eapply wp_mono; [by apply readSecret_spec|]. cbn [mbind option_bind]. intros r s1.
  destruct (usable_secret (in_secret i p)) as [key|].
  - intros [-> Hs1]. injection Hs1 as Hc Hu1 Hf Hk. rewrite bool_decide_true by by eexists. cbn [Z.eqb negb].
    set (u0 := default 0 _). set (g0 := default 0 _).
    destruct (fill_defaults i u0 g0) as [u g] eqn:E. wsteps. split; [done|]. split; [done|].
    split; cbn [os req on_os set_os s_uid s_cred s_secret set_s_cred]; [done|done|by rewrite Hc| |by intros k [= <-]].
    pose proof (fill_defaults_ids i u0 g0 Hn (positive_env_id _ _) (positive_env_id _ _)). by rewrite E in *.
  - intros (-> & Hs1 & _). injection Hs1 as Hc Hu1 Hf. rewrite bool_decide_false by (by intros [? [=]]). wsteps.
    split; [done|]. split; [done|]. split; rewrite ?Hc; done.
Qed.

(** liblve leaves the ids alone. *)
Lemma initLVE_spec i env key s s0 :
  ready i s0 s key -> wp (lsapi_initLVE i env) (fun _ s' => ready i s0 s' key) s.
Proof.
  intros [Hu Hf Hl Hids Hk]. unfold lsapi_initLVE, get_cred, mod_cred. wsteps.
  match goal with |- wp (if ?b then _ else _) _ _ => destruct b end; [|wsteps; by split].
  match goal with |- context [lsapi_load_lve_lib i ?n] => set (e := lsapi_load_lve_lib i n);
    assert (lib_open (in_lve i) = false -> e = 0) as He by (intros Ho; subst e; unfold lsapi_load_lve_lib; by rewrite Ho)
  end.
  destruct (Z.eqb_spec e 0); [wsteps; by split|].
  wsteps. unfold init_lve_ex. destruct (lib_instance _); wsteps; (split; [done|done|by intros ?%He|done|done]).
Qed.

(** ** The parameters *)

(** The state a process is in behind [LSAPI_Init_Env_Parameters]. *)
Lemma init_env_run i v s :
  nobody_ok i -> zlen (s_secret (os s)) = 24 -> avoid_fork_fits v -> LSAPI_Is_Listen_r (req s) = true ->
  wp (LSAPI_Init_Env_Parameters i v) (fun '(r, v') s' =>
    if (s_uid (os s) =? 0) && negb (bool_decide (is_Some (env_secret i (environ v))))
    then r = -1 /\ refused (environ v) s s' /\ environ v' = environ v
    else r = 0 /\ ready i s s' (if s_uid (os s) =? 0 then env_secret i (environ v) else None) /\
      environ v' = kept_envs (s_uid (os s)) (environ v)) s.
Proof.
  intros Hn Hz Hf Hl. unfold LSAPI_Init_Env_Parameters. apply wp_bind.
  eapply wp_mono with (Q := fun _ s1 => guarded s1 = guarded s).
  { destruct (getenv _ _); [apply reopen_stderr_total|by apply wp_ret]. }
  intros _ s1 Hs1. injection Hs1 as Hc Hu Hfd Hk. wsteps.
  set (v1 := if s_stderr_log_path (os s1) then v else _).
  assert (environ v1 = environ v) as Ev1 by (subst v1; by destruct (s_stderr_log_path _)).
  assert (avoid_fork_fits v1) as Hf1.
  { subst v1. destruct (s_stderr_log_path (os s1)); [done|]. revert Hf. unfold avoid_fork_fits, env_avoid_fork. cbn.
    destruct (getenv _ _) as [p|]; [|by eauto]. unfold avoid_fork. destruct (_ =? 0); [by eauto|].
    destruct (bool_decide _); [by eauto|]. by intros []. }
  clearbody v1. destruct (env_worker_runs v1 Hf1) as (n & v2 & E2 & Ev2). eapply wp_lift; [exact E2|].
  apply wp_bind. eapply wp_mono with (Q := fun _ s2 => guarded s2 = guarded s).
  { assert (guarded s1 = guarded s) by (unfold guarded, identity; congruence).
    destruct (getenv _ _); wsteps; done. }
  intros _ s2 Hs2. injection Hs2 as Hc2 Hu2 Hfd2 Hk2. wsteps. unfold LSAPI_Is_Listen_r in *. rewrite Hfd2, Hl.
  unfold env_listening. wsteps.
  eapply wp_mono; [apply initSuEXEC_spec; [done|by rewrite Hk2]|]. intros [r v3] s3 [Ev3 H3].
  rewrite env_server_environ, env_children_environ, env_process_environ, Ev2, Ev1 in *. rewrite Hu2 in H3.
  destruct ((s_uid (os s) =? 0) && _).
  - destruct H3 as [-> [R1 R2 R3 R4 R5 R6]]. cbn [Z.eqb Pos.eqb]. wsteps. cbn [Z.eqb Pos.eqb]. wsteps. split; [done|]. split; [|done]. split; congruence.
  - destruct H3 as [-> [R1 R2 R3 R4 R5]]. cbn [Z.eqb]. wsteps. eapply wp_mono.
    { apply initLVE_spec with (s0 := s) (key := if s_uid (os s) =? 0 then env_secret i (environ v) else None).
      split; [congruence|congruence| |done|]; rewrite <- ?Hc2, <- ?Hk2; done. }
    intros rl s4 H6. pose proof (rd_uid _ _ _ _ H6) as Hu6. wsteps. cbn [Z.eqb]. wsteps.
    split; [done|]. split; [done|]. cbn [environ set_environ]. by rewrite unset_lsapi_envs_run, Ev3, Hu6.
Qed.

(** A C string that was stored whole can be read. *)
Lemma load_str_stored m p v : load m p (zlen v + 1) = Some (v ++ [0]) -> is_Some (load_str m p).
Proof.
  intros H. apply load_inv in H as (Hp & _ & Hend & Hs). pose proof (zlen_nonneg v). unfold load_str.
  rewrite (proj2 (in_range_spec _ _ _)) by lia.
  assert (0 ∈ drop (Z.to_nat p) m) as Hin.
  { assert (0 ∈ slice p (zlen v + 1) m) as Hin by (rewrite <- Hs; apply elem_of_app; right; by apply list_elem_of_singleton). unfold slice in Hin.
    apply list_elem_of_lookup in Hin as (k & Hk). apply lookup_take_Some in Hk as [Hk _]. by eapply list_elem_of_lookup_2. }
  clear -Hin. induction (drop _ m) as [|b l IH]; cbn; [by apply elem_of_nil in Hin|].
  destruct (Z.eqb_spec b 0) as [|Hb]; [by eexists|]. apply elem_of_cons in Hin as [?|[c Hc]%IH]; [done|]. rewrite Hc. by eexists.
Qed.

(** Leaving root with a request whose variables can be read. *)
Lemma leave_root_runs flag r slack s :
  image_ok r -> parsed r (m_in (req s)) -> m_pReqBuf (m_in (req s)) = image flag false false r slack ->
  Forall (fun kv => 0 ∉ kv.1) (ri_env r) -> exists s', leave_root 0 s = Some (0, s').
Proof.
  intros Hok Hp Hm Hk.
  assert (wp (leave_root 0) (fun r _ => r = 0) s) as Hwp.
  2:{ apply wp_run in Hwp as (a & s' & E & ->). by exists s'. }
  unfold leave_root. wsteps.
  eapply wp_mono with (Q := fun _ s2 => m_in (req s2) = m_in (req s) /\ s_uid (os s2) = 0).
  { destruct (_ =? -1); [by apply wp_ret|].
    unfold wp, sys_close, sys_close_ev, signal_stop, get_os, mod_os, mod_req, gets, modify, mbind, M_bind, mret, M_ret.
    destruct (k_closes _) as [|[[] []] ?]; by cbn. }
  intros _ s2 [M2 U2]. apply wp_bind. rewrite <- M2 in Hp, Hm.
  pose proof (GetEnv_r_finds flag r slack s2 (str "LSAPI_STDERR_LOG") Hok Hp Hm Hk ltac:(by apply no_nul_dec) ltac:(done)) as Hf.
  destruct (find_env _ _) as [v|].
  2:{ unfold wp at 1. rewrite Hf. wsteps. done. }
  destruct Hf as (p & Hf & Hl). unfold wp at 1. rewrite Hf. apply load_str_stored in Hl as [path Hl].
  wsteps. eapply wp_lift; [exact Hl|]. unfold lsapi_reopen_stderr. wsteps. rewrite U2. cbn [Z.eqb]. wsteps. done.
Qed.

(** With the default user 0, a request without special variables is served as root. *)
Lemma root_stays ctx flag r slack s :
  s_uid (os s) = 0 -> s_defaultUid (s_cred (os s)) = 0 -> s_lve (s_cred (os s)) = false ->
  (forall k, id_answer k s <> -1) ->
  image_ok r -> parsed r (m_in (req s)) -> m_pReqBuf (m_in (req s)) = image flag false false r slack ->
  ri_special r = [] -> Forall (fun kv => 0 ∉ kv.1) (ri_env r) ->
  exists s' g, lsapi_changeUGid ctx s = Some (0, s') /\ s_uid (os s') = 0 /\
    k_id_calls (s_cred (os s')) = k_id_calls (s_cred (os s)) ++
      [CallSetgid g; groups_call (k_getpwuid (s_cred (os s)) 0) g; CallSetuid 0].
Proof.
  intros Hu Hd Hlve Ha Hok Hp Hm Hsp Hk.
  assert (suexec_ids ctx s = Some ((0, s32 (s_defaultGid (s_cred (os s)))), s)) as Hids.
  { unfold suexec_ids, mbind, M_bind, get_cred, get_os, gets.
    rewrite (get_field_run _ 0) by (rewrite Hm; apply (image_count flag false r slack 8); [done|cbn; by rewrite Hsp|done]).
    cbn. by rewrite Hd. }
  set (g := u32 (s32 (s_defaultGid (s_cred (os s))))).
  destruct (set_ids_runs 0 g (k_getpwuid (s_cred (os s)) 0) s Ha) as (s1 & E1 & [T1 _ T2 T3] & M1).
  destruct (leave_root_runs flag r slack s1) as (s2 & E2); rewrite ?M1; [done..|].
  exists s2, g. pose proof (leave_root_spec _ _ _ _ E2) as (_ & D1 & D2 & _). split.
  - unfold lsapi_changeUGid. unfold mbind at 1, M_bind, get_os, gets at 1. rewrite Hu. cbn [Z.eqb negb].
    unfold mbind at 1. rewrite Hids. unfold mbind at 1 2, get_cred, get_os, gets at 1 2. rewrite Hd. cbn [Z.eqb].
    unfold mbind at 1. change (u32 (s32 0)) with 0. fold g. rewrite setUID_LVE_no_lve by done. rewrite E1. cbn [Z.eqb]. exact E2.
  - split; [done|]. by rewrite D1, T1.
Qed.

Lemma env_secret_length i env key : env_secret i env = Some key -> zlen key = 16.
Proof.
  unfold env_secret. destruct (getenv _ _) as [p|]; [|done]. cbn [mbind option_bind]. unfold usable_secret.
  destruct (in_secret i p) as [| |mode data]; [done..|]. destruct (_ =? 0); [|done].
  destruct (Z.leb_spec 16 (zlen data)); [|done]. intros [= <-]. unfold zlen in *. rewrite length_take. lia.
Qed.

(** C27. A process that listens and is root, on a system without the LVE library and whose
    account [nobody], if there is one, is not root, with a LSAPI_AVOID_FORK that fits its
    type and a secret file that only its owner may read and that holds at least 16 bytes:
    [LSAPI_Init_Env_Parameters] answers 0, has removed the variables of LSAPI and has the
    first 16 bytes as its secret.  Whatever happens then, let a worker with this identity
    and this secret, with a request whose special variables lie one behind the other, be
    told by [lsapi_changeUGid] that all went well.  It asked for its group, then for its
    supplementary groups, then for its user, with one pair of ids and nothing else; the
    system granted the group and the user, and the groups of an account that has this
    group (when it cannot empty the groups of anyone else the code only logs it); its user
    is no longer 0, it no longer holds the listening socket, and the ids are the defaults
    or those of a demand in the request that is authenticated with the secret. *)
Theorem configured_worker_drops_root i v s key :
  nobody_ok i -> zlen (s_secret (os s)) = 24 -> bytes (s_secret (os s)) -> avoid_fork_fits v ->
  LSAPI_Is_Listen_r (req s) = true -> s_uid (os s) = 0 -> lib_open (in_lve i) = false -> s_lve (s_cred (os s)) = false ->
  env_secret i (environ v) = Some key -> bytes key ->
  exists v' s', LSAPI_Init_Env_Parameters i v s = Some ((0, v'), s') /\
    environ v' = filter (fun e => lsapi_variable 0 e = false) (environ v) /\
    s_secret (os s') = key ++ drop 16 (s_secret (os s)) /\
    forall ctx t t',
      identity t = identity s' -> s_secret (os t) = s_secret (os s') ->
      in_ok (md5_in ctx) -> bytes (m_pReqBuf (m_in (req t))) -> special_ordered t ->
      lsapi_changeUGid ctx t = Some (0, t') ->
      exists u g,
        k_id_calls (s_cred (os t')) = k_id_calls (s_cred (os t)) ++
          [CallSetgid (u32 g); groups_call (k_getpwuid (s_cred (os t)) (u32 u)) (u32 g); CallSetuid (u32 u)] /\
        ids_granted (k_getpwuid (s_cred (os t)) (u32 u)) (u32 g) t /\
        s_uid (os t') = u32 u /\ u32 u <> 0 /\ m_fdListen (req t') = -1 /\
        ((u, g) = (s_defaultUid (s_cred (os s')), s_defaultGid (s_cred (os s'))) /\ user_id u /\ user_id g \/ authentic t u g).
Proof.
  intros Hn Hz Hb Hf Hl Hu Hlib Hlve Hkey Hbk.
  destruct (wp_run _ _ _ (init_env_run i v s Hn Hz Hf Hl)) as ([r v'] & s' & E & H).
  rewrite Hu, Hkey in H. cbn [Z.eqb andb] in H. rewrite bool_decide_true in H by eauto.
  destruct H as (-> & [R1 R2 R3 R4 R5] & Henv). exists v', s'. split; [done|]. split; [done|].
  specialize (R5 key eq_refl). split; [done|]. intros ctx t t' Hid Hs Hctx Hm Hord Hrun. injection Hid as Hc Hut Hft.
  pose proof (env_secret_length _ _ _ Hkey) as Hk16. destruct R4 as [R4u R4g].
  destruct (changeUGid_drops_root ctx t t') as (u & g & H1 & G & H2 & H3 & H4 & H5); rewrite ?Hs, ?R5, ?Hc, ?Hut; try done.
  - apply Forall_app; split; [done|by apply Forall_drop].
  - unfold zlen in *. rewrite length_app, length_drop. lia.
  - congruence.
  - by rewrite R3.
  - exists u, g. rewrite <- Hc. do 5 (split; [done|]).
    destruct H5 as [[= -> ->]|?]; [|by right]. unfold user_id in *. rewrite Hc, !s32_id by (unfold is_s32; lia). by repeat split; left.
Qed.

(** C40. When the secret cannot be used and LSAPI_DEFAULT_UID is unset,
    [LSAPI_Init_Env_Parameters] of a listening root process answers -1, with the variables
    of LSAPI still in the environment.  Without LVE and on a system that refuses no
    identity call, a worker that goes on all the same, as [run_lsapi_loop] does, and has
    read a request without special variables is told by [lsapi_changeUGid] that all went
    well, and is still root: it asked for the user 0. *)
Theorem unconfigured_worker_stays_root i v s :
  nobody_ok i -> zlen (s_secret (os s)) = 24 -> avoid_fork_fits v ->
  LSAPI_Is_Listen_r (req s) = true -> s_uid (os s) = 0 -> s_lve (s_cred (os s)) = false ->
  (forall k, id_answer k s <> -1) ->
  env_secret i (environ v) = None -> getenv (str "LSAPI_DEFAULT_UID") (environ v) = None ->
  exists v' s', LSAPI_Init_Env_Parameters i v s = Some ((-1, v'), s') /\ environ v' = environ v /\
    forall ctx t flag r slack,
      identity t = identity s' -> image_ok r -> parsed r (m_in (req t)) ->
      m_pReqBuf (m_in (req t)) = image flag false false r slack ->
      ri_special r = [] -> Forall (fun kv => 0 ∉ kv.1) (ri_env r) ->
      exists t' g, lsapi_changeUGid ctx t = Some (0, t') /\ s_uid (os t') = 0 /\
        k_id_calls (s_cred (os t')) = k_id_calls (s_cred (os t)) ++
          [CallSetgid g; groups_call (k_getpwuid (s_cred (os t)) 0) g; CallSetuid 0].
Proof.
  intros Hn Hz Hf Hl Hu Hlve Ha Hkey Hdef.
  destruct (wp_run _ _ _ (init_env_run i v s Hn Hz Hf Hl)) as ([r v'] & s' & E & H).
  rewrite Hu, Hkey in H. cbn [Z.eqb andb] in H. rewrite bool_decide_false in H by (by intros []).
  destruct H as (-> & [R1 R2 R3 R4 R5 R6] & Henv). exists v', s'. split; [done|]. split; [done|].
  intros ctx t flag q slack Hid Hok Hp Hm Hsp Hk. injection Hid as Hc Hut Hft.
  apply (root_stays ctx flag q slack); try done; rewrite ?Hc; [congruence| |by rewrite R5|].
  - rewrite R3. unfold positive_env. by rewrite Hdef.
  - intros k. unfold id_answer. rewrite Hc, R6. apply Ha.
Qed.

(** A root process that listens, with a secret of sixteen bytes 7, LVE out of reach. *)
Definition env_inputs : inputs :=
  mkInputs (fun _ => SecretFile 384 (replicate 16 7)) (Some (65534, 65534)) true 1 0 false (mkLveLib false false false false false false).

Definition env_statics (env : list string) : statics :=
  mkStatics (str <$> env) (mkWorker 0 (u32 (-1)) (-1) 0 300 None) None (-1) 0 false 0 false.

Definition listening_root : st := on_os (set_s_secret (replicate 24 0)) (on_os (set_s_uid 0) (on_req (set_m_fdListen 0) st0)).

Definition env_list : list string := ["HOME=/"; "LSAPI_SECRET=/s"; "LSAPI_CHILDREN=5"; "PHPRC=/x"]%string.

(** A worker of a server that could not be configured, with a request that asks for no
    user but for a log. *)
Definition plain_packet : request_image :=
  mkImage 0 44 44 44 44 [] [(str "LSAPI_STDERR_LOG", str "/tmp/e")] (replicate 25 (0, 0)) [] (str "x").

Lemma plain_packet_ok : image_ok plain_packet.
Proof.
  split.
  - by vm_compute.
  - split; [constructor|by vm_compute].
  - split; [repeat (apply Forall_cons_2; [split; reflexivity|]); constructor|by vm_compute].
  - repeat (apply Forall_cons_2; [split; [discriminate|reflexivity]|]). constructor.
  - split; [split; [discriminate|reflexivity]|discriminate].
  - reflexivity.
  - cbn [ri_index plain_packet replicate]. change (zlen (ri_http plain_packet)) with 1.
    repeat (apply Forall_cons_2; [unfold is_s32; cbn [fst snd]; lia|]). constructor.
  - constructor.
Qed.

Definition unconfigured_state : st :=
  on_os (fun o => set_s_cred (set_s_default 0 0 (s_cred o)) o)
    (on_in (fun _ =>
      let r := plain_packet in
      mkIn (image false false false r (replicate 8 0))
        (Some <$> env_entries (ri_env_at r) (ri_env r)) [] (Some (ri_index_at r)) (Some (ri_unknown_at r))
        (Some 44) (Some 44) (Some 44) (Some (ri_http_at r)) (Some 44) 0 0 0 0) listening_root).

Lemma unconfigured_parsed : parsed plain_packet (m_in (req unconfigured_state)).
Proof.
  split; try done.
  - exists []. split; [reflexivity|constructor].
  - exists (env_entries (ri_env_at plain_packet) (ri_env plain_packet)). split; [reflexivity|].
    repeat (apply Forall2_cons; split; [by split|]). constructor.
Qed.

Lemma configured_worker_drops_root_witness :
  exists v' s' t', LSAPI_Init_Env_Parameters env_inputs (env_statics env_list) listening_root = Some ((0, v'), s') /\
    environ v' = [str "HOME=/"] /\
    lsapi_changeUGid ctx0 root_state = Some (0, t') /\ s_uid (os t') <> 0.
Proof.
  edestruct (configured_worker_drops_root env_inputs (env_statics env_list) listening_root (replicate 16 7))
    as (v' & s' & E & Henv & Hsec & H).
  - cbn. lia.
  - reflexivity.
  - apply bytes_b_bytes. by vm_compute.
  - by eexists.
  - reflexivity.
  - reflexivity.
  - reflexivity.
  - reflexivity.
  - reflexivity.
  - apply bytes_b_bytes. by vm_compute.
  - assert (match lsapi_changeUGid ctx0 root_state with Some (r, _) => r =? 0 | None => false end = true) as Ht
      by (vm_compute; reflexivity).
    destruct (lsapi_changeUGid ctx0 root_state) as [[r t']|] eqn:Et; [|discriminate Ht].
    apply Z.eqb_eq in Ht as ->. exists v', s', t'. split; [exact E|]. split; [by rewrite Henv|]. split; [reflexivity|].
    destruct (H ctx0 root_state t') as (u & g & _ & _ & -> & Hne & _); [..|exact Hne].
    + vm_compute in E. by injection E as <- <-.
    + rewrite Hsec. reflexivity.
    + split; [reflexivity|]. by apply bytes_b_bytes.
    + apply bytes_b_bytes. by vm_compute.
    + intros [|[|i]] e1 e2 H1 H2; [|by vm_compute in H2|by vm_compute in H1].
      injection H1 as <-. injection H2 as <-. vm_compute. split; discriminate.
    + exact Et.
Defined.

Lemma unconfigured_worker_stays_root_witness :
  exists v' s' t', LSAPI_Init_Env_Parameters env_inputs (env_statics ["LSAPI_CHILDREN=5"%string]) listening_root = Some ((-1, v'), s') /\
    environ v' = [str "LSAPI_CHILDREN=5"] /\
    lsapi_changeUGid ctx0 unconfigured_state = Some (0, t') /\ s_uid (os t') = 0.
Proof.
  destruct (unconfigured_worker_stays_root env_inputs (env_statics ["LSAPI_CHILDREN=5"%string]) listening_root)
    as (v' & s' & E & Henv & H).
  - cbn. lia.
  - reflexivity.
  - by eexists.
  - reflexivity.
  - reflexivity.
  - reflexivity.
  - intros [|k]; discriminate.
  - reflexivity.
  - reflexivity.
  - destruct (H ctx0 unconfigured_state false plain_packet (replicate 8 0)) as (t' & g & R & U & _).
    + vm_compute in E. by injection E as <- <-.
    + apply plain_packet_ok.
    + apply unconfigured_parsed.
    + reflexivity.
    + reflexivity.
    + apply Forall_cons_2; [by apply no_nul_dec|constructor].
    + exists v', s', t'. split; [exact E|]. split; [exact Henv|]. split; [exact R|exact U].
Defined.
