(* ===== verification/ThreadPool.v ===== *)
(** * The thread pool

    [ThreadPool] of thread_pool.h, as a transition system over its threads: the workers,
    the threads that submit tasks, and the one that shuts the pool down.  A step is what a
    thread does in one critical section of [mutex_], or one operation on the condition
    variable; a run is any interleaving of such steps. *)

From S2P Require Export Prelude.

(** ** State *)

(** Where a worker is: about to lock the mutex and look at the queue, blocked in
    [cv_.wait], in a task, or returned from [worker_loop]. *)
Inductive wstate {T : Type} := Ready | Waiting | Running (t : T) | Exited.
Arguments wstate : clear implicits.
Arguments Ready {T}.
Arguments Waiting {T}.
Arguments Running {T} t.
Arguments Exited {T}.

(** Where [shutdown] is: not called, behind its critical section, in the loop of joins at
    a worker, returned. *)
Inductive shut := ShNone | ShStopped | ShJoining (i : nat) | ShDone.

(** [owed] counts the submitters between their critical section and [notify_one].  The
    last three fields are history: the tasks that were accepted and begun, in order, and
    those that have returned. *)
Record pool {T : Type} := mkPool {
  tasks_ : list T;
  stop_ : bool;
  workers_ : list (wstate T);
  owed : nat;
  shutting : shut;
  accepted : list T;
  begun : list T;
  finished : list T
}.
Arguments pool : clear implicits.
Arguments mkPool {T} _ _ _ _ _ _ _ _.
Arguments tasks_ {T} _.
Arguments stop_ {T} _.
Arguments workers_ {T} _.
Arguments owed {T} _.
Arguments shutting {T} _.
Arguments accepted {T} _.
Arguments begun {T} _.
Arguments finished {T} _.

Section Pool.
Context {T : Type}.

(** The constructor; [hw] is [std::thread::hardware_concurrency()]. *)
Definition num_threads (n hw : nat) : nat :=
  if (n =? 0)%nat then if (hw =? 0)%nat then 4 else hw else n.

Definition ThreadPool (n hw : nat) : pool T :=
  mkPool [] false (replicate (num_threads n hw) Ready) 0 ShNone [] [] [].

Definition size (p : pool T) : nat := length (workers_ p).

(** ** Steps *)

(** The critical section of [submit]. *)
Definition submit (t : T) (p : pool T) : pool T :=
  if stop_ p then p
  else mkPool (tasks_ p ++ [t]) (stop_ p) (workers_ p) (S (owed p)) (shutting p) (accepted p ++ [t]) (begun p) (finished p).

(** One turn of [worker_loop] up to the task: the predicate of [wait], then either the
    end, or the first task. *)
Definition look (i : nat) (p : pool T) : option (pool T) :=
  match workers_ p !! i with
  | Some Ready =>
      let move w := <[i := w]> (workers_ p) in
      match tasks_ p with
      | [] =>
          Some (mkPool [] (stop_ p) (move (if stop_ p then Exited else Waiting)) (owed p) (shutting p)
                  (accepted p) (begun p) (finished p))
      | t :: q => Some (mkPool q (stop_ p) (move (Running t)) (owed p) (shutting p) (accepted p) (begun p ++ [t]) (finished p))
      end
  | _ => None
  end.

(** [task()] returns. *)
Definition finish (i : nat) (p : pool T) : option (pool T) :=
  match workers_ p !! i with
  | Some (Running t) =>
      Some (mkPool (tasks_ p) (stop_ p) (<[i := Ready]> (workers_ p)) (owed p) (shutting p) (accepted p) (begun p) (finished p ++ [t]))
  | _ => None
  end.

Definition wake (w : wstate T) : wstate T := match w with Waiting => Ready | w => w end.
Definition is_waiting (w : wstate T) : bool := match w with Waiting => true | _ => false end.
Definition is_exited (w : wstate T) : bool := match w with Exited => true | _ => false end.

(** A blocked worker wakes up; [owed] notifications are left. *)
Definition wake_up (i owed : nat) (p : pool T) : option (pool T) :=
  match workers_ p !! i with
  | Some Waiting =>
      Some (mkPool (tasks_ p) (stop_ p) (<[i := Ready]> (workers_ p)) owed (shutting p) (accepted p) (begun p) (finished p))
  | _ => None
  end.

(** [notify_one] with a blocked worker [i], or with none. *)
Definition notify_one (i : option nat) (p : pool T) : option (pool T) :=
  match owed p with
  | O => None
  | S n =>
      match i with
      | Some i => wake_up i n p
      | None =>
          if existsb is_waiting (workers_ p) then None
          else Some (mkPool (tasks_ p) (stop_ p) (workers_ p) n (shutting p) (accepted p) (begun p) (finished p))
      end
  end.

Definition set_shutting (sd : shut) (stop : bool) (ws : list (wstate T)) (p : pool T) : pool T :=
  mkPool (tasks_ p) stop ws (owed p) sd (accepted p) (begun p) (finished p).

(** [shutdown]: the critical section (a later call returns at once), [notify_all], and
    the joins in the order of the workers. *)
Definition shutdown_stop (p : pool T) : pool T :=
  if stop_ p then p else set_shutting ShStopped true (workers_ p) p.

Definition shutdown_step (p : pool T) : option (pool T) :=
  match shutting p with
  | ShStopped => Some (set_shutting (ShJoining 0) (stop_ p) (wake <$> workers_ p) p)
  | ShJoining i =>
      match workers_ p !! i with
      | None => Some (set_shutting ShDone (stop_ p) (workers_ p) p)
      | Some w => if is_exited w then Some (set_shutting (ShJoining (S i)) (stop_ p) (workers_ p) p) else None
      end
  | _ => None
  end.

(** ** Runs *)

Inductive action :=
| ASubmit (t : T)
| ANotify (i : option nat)
| ALook (i : nat)
| AFinish (i : nat)
| ASpurious (i : nat)  (* [wait] may return without a notification *)
| AStop
| AShutdown.

Definition step (a : action) (p : pool T) : option (pool T) :=
  match a with
  | ASubmit t => Some (submit t p)
  | ANotify i => notify_one i p
  | ALook i => look i p
  | AFinish i => finish i p
  | ASpurious i => wake_up i (owed p) p
  | AStop => Some (shutdown_stop p)
  | AShutdown => shutdown_step p
  end.

Fixpoint run (acts : list action) (p : pool T) : option (pool T) :=
  match acts with
  | [] => Some p
  | a :: acts => p ← step a p; run acts p
  end.
End Pool.

Arguments action : clear implicits.

(** ** The invariant *)

Section Proofs.
Context {T : Type}.
Implicit Types p : pool T.

Definition running (w : wstate T) : option T := match w with Running t => Some t | _ => None end.

(** A worker that will look at the queue again without being woken. *)
Definition active (w : wstate T) : Prop := match w with Ready | Running _ => True | _ => False end.

Record pool_inv p : Prop := {
  pi_fifo : accepted p = begun p ++ tasks_ p;
  pi_begun : begun p ≡ₚ finished p ++ omap running (workers_ p);
  pi_workers : workers_ p <> [];
  pi_wakeup : tasks_ p <> [] -> (0 < owed p)%nat \/ Exists active (workers_ p);
  pi_exited : Exited ∈ workers_ p -> stop_ p = true /\ tasks_ p = [];
  pi_stop : stop_ p = match shutting p with ShNone => false | _ => true end;
  pi_stopped : stop_ p = true -> shutting p = ShStopped \/ Waiting ∉ workers_ p;
  pi_joined : match shutting p with
              | ShJoining i => Forall (eq Exited) (take i (workers_ p))
              | ShDone => Forall (eq Exited) (workers_ p)
              | _ => True
              end
}.

Lemma omap_cons (w : wstate T) ws : omap running (w :: ws) = option_list (running w) ++ omap running ws.
Proof. cbn. by destruct (running w). Qed.

(** A worker moves: its task, if any, is replaced. *)
Lemma omap_move i w0 w ws :
  ws !! i = Some w0 ->
  option_list (running w0) ++ omap running (<[i := w]> ws) ≡ₚ option_list (running w) ++ omap running ws.
Proof.
  revert i. induction ws as [|x ws IH]; intros [|i] L; try done.
  - injection L as ->. change (<[0%nat := w]> (w0 :: ws)) with (w :: ws). rewrite !omap_cons.
    by rewrite Permutation_app_swap_app.
  - change (<[S i := w]> (x :: ws)) with (x :: <[i := w]> ws). rewrite !omap_cons.
    rewrite Permutation_app_swap_app, (IH i L). by rewrite Permutation_app_swap_app.
Qed.

Lemma Exists_move i w (P : wstate T -> Prop) ws : P w -> (i < length ws)%nat -> Exists P (<[i := w]> ws).
Proof.
  intros H Hi. apply Exists_exists. exists w. split; [|done].
  apply list_elem_of_lookup. exists i. by apply list_lookup_insert_eq.
Qed.

Lemma elem_move i w w0 (ws : list (wstate T)) : w0 ∈ <[i := w]> ws -> w <> w0 -> w0 ∈ ws.
Proof.
  intros (j & E)%list_elem_of_lookup Hne. apply list_lookup_insert_Some in E as [(-> & -> & _)|(_ & E)]; [done|].
  by eapply list_elem_of_lookup_2.
Qed.

(** The joined workers stay joined: only a worker that has not returned moves. *)
Lemma joined_move k i w w0 (ws : list (wstate T)) :
  ws !! i = Some w0 -> w0 <> Exited -> Forall (eq Exited) (take k ws) -> Forall (eq Exited) (take k (<[i := w]> ws)).
Proof.
  intros L Hne F. enough (k <= i)%nat as Hk by (by rewrite take_insert_ge).
  destruct (decide (k <= i)%nat); [done|]. exfalso. apply Hne. symmetry.
  apply (Forall_lookup_1 _ _ i w0 F). rewrite lookup_take_lt by lia. exact L.
Qed.

Lemma shutting_move p i w w0 :
  workers_ p !! i = Some w0 -> w0 <> Exited ->
  match shutting p with
  | ShJoining k => Forall (eq Exited) (take k (workers_ p))
  | ShDone => Forall (eq Exited) (workers_ p)
  | _ => True
  end ->
  match shutting p with
  | ShJoining k => Forall (eq Exited) (take k (<[i := w]> (workers_ p)))
  | ShDone => Forall (eq Exited) (<[i := w]> (workers_ p))
  | _ => True
  end.
Proof.
  intros L Hne. destruct (shutting p) as [| |k|]; [done..|by eapply joined_move|].
  intros F. by destruct (Hne (eq_sym (Forall_lookup_1 _ _ _ _ F L))).
Qed.

Lemma insert_not_nil i w (ws : list (wstate T)) : ws <> [] -> <[i := w]> ws <> [].
Proof. intros H X%(f_equal length). rewrite length_insert in X. by destruct ws. Qed.

Lemma look_inv i p p' : pool_inv p -> look i p = Some p' -> pool_inv p'.
Proof.
  intros I H. unfold look in H. destruct (workers_ p !! i) as [[| |t|]|] eqn:L; try discriminate H.
  pose proof (lookup_lt_Some _ _ _ L) as Hi. destruct I as [A B W C D E F G].
  destruct (tasks_ p) as [|t q] eqn:Q; injection H as <-.
  - split; cbn.
    + by rewrite A.
    + rewrite B. f_equiv. pose proof (omap_move i Ready (if stop_ p then Exited else Waiting) _ L) as P. cbn in P.
      rewrite P. by destruct (stop_ p).
    + by apply insert_not_nil.
    + done.
    + intros X. split; [|done]. destruct (stop_ p); [done|]. apply D. by apply elem_move in X.
    + done.
    + intros S. rewrite S in *. destruct (F eq_refl) as [|N]; [by left|right]. intros X. by apply N, (elem_move _ _ _ _ X).
    + eapply shutting_move; [exact L|done|exact G].
  - split; cbn.
    + by rewrite A, <- app_assoc.
    + rewrite B. pose proof (omap_move i Ready (Running t) _ L) as P. cbn in P. rewrite P. cbn.
      rewrite <- app_assoc. f_equiv. by rewrite Permutation_app_comm.
    + by apply insert_not_nil.
    + intros _. right. by apply Exists_move.
    + intros X%elem_move; [|done]. by destruct (D X).
    + done.
    + intros S. destruct (F S) as [|N]; [by left|right]. intros X. by apply N, (elem_move _ _ _ _ X).
    + eapply shutting_move; [exact L|done|exact G].
Qed.
Lemma finish_inv i p p' : pool_inv p -> finish i p = Some p' -> pool_inv p'.
Proof.
  intros I H. unfold finish in H. destruct (workers_ p !! i) as [[| |t|]|] eqn:L; try discriminate H.
  injection H as <-. pose proof (lookup_lt_Some _ _ _ L) as Hi. destruct I as [A B W C D E F G]. split; cbn.
  - done.
  - rewrite B. pose proof (omap_move i (Running t) Ready _ L) as P. cbn in P. rewrite <- P.
    rewrite <- app_assoc. done.
  - by apply insert_not_nil.
  - intros _. right. by apply Exists_move.
  - intros X%elem_move; [|done]. by apply D.
  - done.
  - intros S. destruct (F S) as [|N]; [by left|right]. intros X. by apply N, (elem_move _ _ _ _ X).
  - eapply shutting_move; [exact L|done|exact G].
Qed.

Lemma wake_up_inv i n p p' : pool_inv p -> wake_up i n p = Some p' -> pool_inv p'.
Proof.
  intros I H. unfold wake_up in H. destruct (workers_ p !! i) as [[| |t|]|] eqn:L; try discriminate H.
  injection H as <-. pose proof (lookup_lt_Some _ _ _ L) as Hi. destruct I as [A B W C D E F G]. split; cbn.
  - done.
  - rewrite B. pose proof (omap_move i Waiting Ready _ L) as P. cbn in P. by rewrite P.
  - by apply insert_not_nil.
  - intros _. right. by apply Exists_move.
  - intros X%elem_move; [|done]. by apply D.
  - done.
  - intros S. destruct (F S) as [|N]; [by left|right]. intros X. by apply N, (elem_move _ _ _ _ X).
  - eapply shutting_move; [exact L|done|exact G].
Qed.

Lemma existsb_waiting (ws : list (wstate T)) : existsb is_waiting ws = false -> Waiting ∉ ws.
Proof.
  intros H X. apply list_elem_of_In in X. assert (existsb is_waiting ws = true) by (apply existsb_exists; by exists Waiting).
  congruence.
Qed.

(** Without a blocked worker there is one at work, unless all have returned. *)
Lemma no_waiting_active (ws : list (wstate T)) : Waiting ∉ ws -> ws <> [] -> Exists active ws \/ Exited ∈ ws.
Proof.
  intros H N. destruct ws as [|w ws]; [done|]. destruct w.
  - left. by left.
  - destruct H. by left.
  - left. by left.
  - right. by left.
Qed.

Lemma notify_one_inv i p p' : pool_inv p -> notify_one i p = Some p' -> pool_inv p'.
Proof.
  intros I H. unfold notify_one in H. destruct (owed p) as [|n] eqn:N; [discriminate|].
  destruct i as [i|]; [by eapply wake_up_inv|].
  destruct (existsb is_waiting (workers_ p)) eqn:X; [discriminate|]. injection H as <-.
  apply existsb_waiting in X. destruct I as [A B W C D E F G]. split; cbn; try done.
  intros Q. right. destruct (no_waiting_active _ X W) as [|Y]; [done|]. by destruct (D Y).
Qed.

Lemma submit_inv t p : pool_inv p -> pool_inv (submit t p).
Proof.
  intros [A B W C D E F G]. unfold submit. destruct (stop_ p) eqn:S; [by split; rewrite ?S|]. split; cbn.
  - by rewrite A, app_assoc.
  - done.
  - done.
  - intros _. left. lia.
  - intros X. by destruct (D X).
  - done.
  - done.
  - done.
Qed.

Lemma shutdown_stop_inv p : pool_inv p -> pool_inv (shutdown_stop p).
Proof.
  intros [A B W C D E F G]. unfold shutdown_stop. destruct (stop_ p) eqn:S; [by split; rewrite ?S|].
  split; cbn; try done.
  - intros X. by destruct (D X).
  - intros _. by left.
Qed.

Lemma omap_wake (ws : list (wstate T)) : omap running (wake <$> ws) = omap running ws.
Proof. induction ws as [|w ws IH]; [done|]. rewrite fmap_cons, !omap_cons, IH. by destruct w. Qed.

Lemma elem_wake (w : wstate T) (ws : list (wstate T)) : w ∈ wake <$> ws -> w <> Ready -> w ∈ ws.
Proof. intros (x & -> & H)%list_elem_of_fmap N. by destruct x. Qed.

Lemma shutdown_step_inv p p' : pool_inv p -> shutdown_step p = Some p' -> pool_inv p'.
Proof.
  intros [A B W C D E F G] H. unfold shutdown_step in H. destruct (shutting p) as [| |i|]; try discriminate H.
  - injection H as <-. split; cbn; try done.
    + by rewrite omap_wake.
    + by destruct (workers_ p).
    + intros Q. right. destruct (no_waiting_active (wake <$> workers_ p)) as [|Y]; [| |done|].
      * intros Y. apply list_elem_of_fmap in Y as (w & Y & _). by destruct w.
      * by destruct (workers_ p).
      * apply elem_wake in Y; [|done]. by destruct (D Y).
    + intros X%elem_wake; [|done]. by apply D.
    + intros _. right. intros (w & Y & _)%list_elem_of_fmap. by destruct w.
  - destruct (workers_ p !! i) as [w|] eqn:L.
    + destruct w; try discriminate H. injection H as <-. split; cbn; try done.
      * intros S. destruct (F S); [done|by right].
      * rewrite (take_S_r _ _ _ L). apply Forall_app. by split; [|constructor].
    + injection H as <-. split; cbn; try done.
      * intros S. destruct (F S); [done|by right].
      * apply lookup_ge_None in L. by rewrite take_ge in G.
Qed.

Lemma step_inv a p p' : pool_inv p -> step a p = Some p' -> pool_inv p'.
Proof.
  intros I H. destruct a; cbn in H.
  - injection H as <-. by apply submit_inv.
  - by eapply notify_one_inv.
  - by eapply look_inv.
  - by eapply finish_inv.
  - by eapply wake_up_inv.
  - injection H as <-. by apply shutdown_stop_inv.
  - by eapply shutdown_step_inv.
Qed.

Lemma run_inv acts p p' : pool_inv p -> run acts p = Some p' -> pool_inv p'.
Proof.
  revert p. induction acts as [|a acts IH]; intros p I H; cbn in H; [by injection H as <-|].
  destruct (step a p) as [p1|] eqn:E; [|discriminate]. eapply IH; [|exact H]. by eapply step_inv.
Qed.

Lemma ThreadPool_inv n hw : pool_inv (@ThreadPool T n hw).
Proof.
  assert (forall w, w ∈ replicate (num_threads n hw) (@Ready T) -> w = Ready) as R.
  { intros w (i & [-> _]%lookup_replicate)%list_elem_of_lookup. done. }
  split; cbn; try done.
  - enough (omap running (replicate (num_threads n hw) (@Ready T)) = []) as -> by done.
    clear R. induction (num_threads n hw) as [|k IH]; [done|]. cbn [replicate]. rewrite omap_cons, IH. done.
  - unfold num_threads. destruct n; [|done]. by destruct hw.
  - by intros X%R.
Qed.

(** C31. The thread pool runs every task it accepted, once, and in order.  Whatever threads
    submit, whatever the interleaving, with lost, late and spurious wake-ups: the tasks
    are begun in the order in which they were accepted, each one once; what was begun has
    returned or is running; and when [shutdown] returns the queue is empty, every worker
    has returned, and every accepted task has. *)
Theorem pool_runs_every_task (n hw : nat) (acts : list (action T)) (p : pool T) :
  run acts (ThreadPool n hw) = Some p ->
  accepted p = begun p ++ tasks_ p /\ begun p ≡ₚ finished p ++ omap running (workers_ p) /\
  (shutting p = ShDone -> Forall (eq Exited) (workers_ p) /\ tasks_ p = [] /\ finished p ≡ₚ accepted p).
Proof.
  intros H. apply run_inv in H as [A B W C D E F G]; [|apply ThreadPool_inv]. split; [done|]. split; [done|].
  intros S. rewrite S in G. split; [done|].
  destruct (workers_ p) as [|w ws] eqn:Ews; [done|]. assert (Exited ∈ w :: ws) as X.
  { inversion G; subst. by left. }
  destruct (D X) as [_ Q]. split; [done|]. rewrite A, Q, app_nil_r, B.
  enough (omap running (w :: ws) = []) as -> by (by rewrite app_nil_r).
  clear - G. induction G as [|x l <- G IH]; [done|]. by rewrite omap_cons, IH.
Qed.

(** ** Progress *)

(** The steps of the pool itself; those of its clients and spurious wake-ups are not. *)
Definition productive (a : action T) : Prop :=
  match a with ASubmit _ | ASpurious _ | AStop => False | _ => True end.

Definition weight (w : wstate T) : nat := match w with Ready => 1 | Waiting => 0 | Running _ => 2 | Exited => 0 end.
Fixpoint weights (ws : list (wstate T)) : nat := match ws with [] => 0 | w :: ws => weight w + weights ws end.

Definition shutting_left (k : nat) (sd : shut) : nat :=
  match sd with
  | ShNone | ShDone => 0
  | ShStopped => 2 * k + 2
  | ShJoining i => S (k - i)
  end.

(** What is left to do. *)
Definition left_to_do p : nat :=
  2 * length (tasks_ p) + weights (workers_ p) + 2 * owed p + shutting_left (size p) (shutting p).

Lemma weights_move i w w0 ws :
  ws !! i = Some w0 -> (weights (<[i := w]> ws) + weight w0 = weights ws + weight w)%nat.
Proof.
  revert i. induction ws as [|x ws IH]; intros [|i] L; try done.
  - injection L as ->. cbn. lia.
  - change (<[S i := w]> (x :: ws)) with (x :: <[i := w]> ws). cbn [weights]. specialize (IH i L). lia.
Qed.

Lemma weights_wake ws : (weights (wake <$> ws) <= weights ws + length ws)%nat.
Proof. induction ws as [|[] ws IH]; cbn in *; lia. Qed.

Lemma productive_decreases a p p' : productive a -> step a p = Some p' -> (left_to_do p' < left_to_do p)%nat.
Proof.
  intros P H. unfold left_to_do, size. destruct a as [t|i|i|i|i| |]; cbn in P, H; try done.
  - unfold notify_one, wake_up in H. destruct (owed p) as [|n] eqn:O; [discriminate|]. destruct i as [i|].
    + destruct (workers_ p !! i) as [[| |t|]|] eqn:L; try discriminate H. injection H as <-. cbn [tasks_ workers_ owed shutting].
      pose proof (weights_move i Ready _ _ L) as M. rewrite length_insert. cbn in M. lia.
    + destruct (existsb _ _); [discriminate|]. injection H as <-. cbn [tasks_ workers_ owed shutting]. lia.
  - unfold look in H. destruct (workers_ p !! i) as [[| |t|]|] eqn:L; try discriminate H.
    destruct (tasks_ p) as [|t q]; injection H as <-; cbn [tasks_ workers_ owed shutting]; rewrite length_insert.
    + pose proof (weights_move i (if stop_ p then Exited else Waiting) _ _ L) as M. destruct (stop_ p); cbn in M; lia.
    + pose proof (weights_move i (Running t) _ _ L) as M. cbn in *. lia.
  - unfold finish in H. destruct (workers_ p !! i) as [[| |t|]|] eqn:L; try discriminate H.
    injection H as <-. cbn [tasks_ workers_ owed shutting]. rewrite length_insert.
    pose proof (weights_move i Ready _ _ L) as M. cbn in M. lia.
  - unfold shutdown_step in H. destruct (shutting p) as [| |i|]; try discriminate H.
    + injection H as <-. cbn [set_shutting tasks_ workers_ owed shutting]. rewrite length_fmap.
      pose proof (weights_wake (workers_ p)). cbn. lia.
    + destruct (workers_ p !! i) as [w|] eqn:L.
      * destruct (is_exited w); [|discriminate H]. injection H as <-. apply lookup_lt_Some in L. cbn. lia.
      * injection H as <-. cbn [set_shutting tasks_ workers_ owed shutting]. cbn. lia.
Qed.

Lemma run_bounded acts p p' : Forall productive acts -> run acts p = Some p' -> (length acts + left_to_do p' <= left_to_do p)%nat.
Proof.
  intros F. revert p. induction F as [|a acts P F IH]; intros p H; cbn in H; [injection H as <-; cbn [length]; lia|].
  destruct (step a p) as [p1|] eqn:E; [|discriminate]. apply (productive_decreases _ _ _ P) in E.
  specialize (IH p1 H). cbn [length]. lia.
Qed.

(** No step of the pool itself is possible. *)
Definition quiescent p : Prop := forall a, productive a -> step a p = None.

Lemma quiescent_workers p : quiescent p -> Forall (fun w => w = Waiting \/ w = Exited) (workers_ p).
Proof.
  intros Q. apply Forall_lookup_2. intros i w L. destruct w as [| |t|]; auto.
  - specialize (Q (ALook i) I). cbn in Q. unfold look in Q. rewrite L in Q. by destruct (tasks_ p).
  - specialize (Q (AFinish i) I). cbn in Q. unfold finish in Q. by rewrite L in Q.
Qed.

Lemma quiescent_owed p : quiescent p -> owed p = 0%nat.
Proof.
  intros Q. pose proof (Q (ANotify None) I) as Q0. cbn in Q0. unfold notify_one in Q0.
  destruct (owed p) as [|n] eqn:O; [done|]. destruct (existsb is_waiting (workers_ p)) eqn:W; [|done].
  apply existsb_exists in W as (w & (i & L)%list_elem_of_In%list_elem_of_lookup & W). destruct w; try discriminate W.
  specialize (Q (ANotify (Some i)) I). cbn in Q. unfold notify_one, wake_up in Q. by rewrite O, L in Q.
Qed.

Lemma quiescent_done p : pool_inv p -> quiescent p ->
  tasks_ p = [] /\ omap running (workers_ p) = [] /\ (stop_ p = true -> shutting p = ShDone).
Proof.
  intros [A B W C D E F G] Q. pose proof (quiescent_workers p Q) as QW. pose proof (quiescent_owed p Q) as QO.
  assert (~ Exists active (workers_ p)) as N.
  { intros (w & M & X)%Exists_exists. rewrite Forall_forall in QW. by destruct (QW w M) as [-> | ->]. }
  split; [|split].
  - destruct (tasks_ p) as [|t q]; [done|]. destruct (C ltac:(done)); [lia|done].
  - clear - QW. induction QW as [|w ws [-> | ->] F IH]; [done|by rewrite omap_cons, IH..].
  - intros S. rewrite S in E. specialize (F S). pose proof (Q AShutdown I) as QS. cbn in QS. unfold shutdown_step in QS.
    destruct (shutting p) as [| |i|]; try done. exfalso. destruct (workers_ p !! i) as [w|] eqn:L; [|done].
    destruct F as [|F]; [done|]. pose proof (list_elem_of_lookup_2 _ _ _ L) as M.
    rewrite Forall_forall in QW. by destruct (QW w M) as [-> | ->].
Qed.

(** C32. No wake-up is lost, and [shutdown] returns.  From any state the pool can get into,
    and if its clients do nothing more, every interleaving of its own steps is bounded in
    length (a bound that is computed from the state), and where no step is possible any
    more no task is left, every accepted one has returned, and a [shutdown] that was
    called has returned. *)
Theorem pool_comes_to_rest (n hw : nat) (acts acts' : list (action T)) (p p' : pool T) :
  run acts (ThreadPool n hw) = Some p -> Forall productive acts' -> run acts' p = Some p' ->
  (length acts' <= left_to_do p)%nat /\
  (quiescent p' -> tasks_ p' = [] /\ finished p' ≡ₚ accepted p' /\ (stop_ p' = true -> shutting p' = ShDone)).
Proof.
  intros H F H'. pose proof (run_bounded _ _ _ F H') as Hb. split; [lia|]. intros Q.
  apply run_inv in H; [|apply ThreadPool_inv]. apply (run_inv _ _ _ H) in H'.
  destruct (quiescent_done p' H' Q) as (Q1 & Q2 & Q3). split; [done|]. split; [|done].
  destruct H' as [A B W C D E G K]. by rewrite A, B, Q1, Q2, !app_nil_r.
Qed.
End Proofs.

(** Two workers, three tasks, and a shutdown while the last task is still queued. *)
Definition pool_run1 : list (action Z) :=
  [ALook 0; ASubmit 10; ANotify (Some 0%nat); ASubmit 11; ALook 1; ANotify None; ASubmit 12; AStop; ALook 0].
Definition pool_run2 : list (action Z) :=
  [AFinish 1; AShutdown; AFinish 0; ANotify None; ALook 0; ALook 1; AFinish 0; ALook 0; AShutdown; AShutdown; AShutdown].

Lemma pool_runs_every_task_witness :
  match run (pool_run1 ++ pool_run2) (ThreadPool 2 0) with
  | Some p => shutting p = ShDone /\ tasks_ p = [] /\ finished p ≡ₚ accepted p /\ accepted p = [10; 11; 12]%Z
  | None => False
  end.
Proof.
  destruct (run _ _) as [p|] eqn:E; [|vm_compute in E; discriminate].
  destruct (pool_runs_every_task 2 0 (pool_run1 ++ pool_run2) p E) as (_ & _ & H).
  assert (shutting p = ShDone /\ accepted p = [10; 11; 12]%Z) as [S A] by (vm_compute in E; injection E as <-; split; reflexivity).
  destruct (H S) as (_ & H1 & H2). split; [exact S|]. split; [exact H1|]. split; [exact H2|exact A].
Defined.

Lemma pool_comes_to_rest_witness :
  match run pool_run1 (ThreadPool 2 0) with
  | Some p => (length pool_run2 <= left_to_do p)%nat
  | None => False
  end.
Proof.
  destruct (run pool_run1 _) as [p|] eqn:E; [|vm_compute in E; discriminate].
  destruct (run pool_run2 p) as [p'|] eqn:E'.
  - apply (pool_comes_to_rest 2 0 pool_run1 pool_run2 p p' E); [repeat constructor|exact E'].
  - exfalso. vm_compute in E. injection E as <-. vm_compute in E'. discriminate.
Defined.
