(* ===== verification/ConnectionIO.v ===== *)
(** * The bridge between the event loop and a worker

    [ConnectionIO] of connection_io.h.  The event loop and the worker share this object
    under two mutexes, so each method is one atomic step; a method that blocks is a
    partial function that is defined where its wait is over.  The theorems are about any
    interleaving of the two sides. *)

From S2P Require Export Prelude.

Open Scope Z_scope.

(** ** State *)

Inductive BodyReadStatus := Data | Complete | Truncated | Error.

Record BodyReadResult := mkResult { rr_data : list Z; rr_status : BodyReadStatus }.

(** The fields of the class, but for the descriptors and the mutexes. *)
Record ConnectionIO := mkConnIO {
  header_data_ : list Z;
  body_prefix_ : list Z;
  content_length_ : Z;
  read_chunk_ : list Z;
  body_bytes_fed_ : Z;
  read_data_ready_ : bool;
  read_eof_ : bool;
  read_error_ : bool;
  write_buffer_ : list Z;
  write_cursor_ : Z;
  write_pending_ : bool;
  finished_ : bool;
  write_error_ : bool
}.

Definition new_ConnectionIO : ConnectionIO := mkConnIO [] [] 0 [] 0 false false false [] 0 false false false.

Definition set_header (h p : list Z) (n fed : Z) (c : ConnectionIO) : ConnectionIO :=
  mkConnIO h p n (read_chunk_ c) fed (read_data_ready_ c) (read_eof_ c) (read_error_ c) (write_buffer_ c)
    (write_cursor_ c) (write_pending_ c) (finished_ c) (write_error_ c).
Definition set_read (chunk : list Z) (fed : Z) (ready eof error : bool) (c : ConnectionIO) : ConnectionIO :=
  mkConnIO (header_data_ c) (body_prefix_ c) (content_length_ c) chunk fed ready eof error (write_buffer_ c)
    (write_cursor_ c) (write_pending_ c) (finished_ c) (write_error_ c).
Definition set_write (buf : list Z) (cursor : Z) (pending finished error : bool) (c : ConnectionIO) : ConnectionIO :=
  mkConnIO (header_data_ c) (body_prefix_ c) (content_length_ c) (read_chunk_ c) (body_bytes_fed_ c)
    (read_data_ready_ c) (read_eof_ c) (read_error_ c) buf cursor pending finished error.

(** ** Setup *)

(** [content_length] is a [size_t]. *)
Definition setHeaderData (header_data body_prefix : list Z) (content_length : Z) (c : ConnectionIO) : ConnectionIO :=
  let prefix := if content_length <? zlen body_prefix then take (Z.to_nat content_length) body_prefix else body_prefix in
  set_header header_data prefix content_length (zlen prefix) c.

Definition bodyCompleteLocked (c : ConnectionIO) : bool := content_length_ c <=? body_bytes_fed_ c.

(** ** The worker's side *)

(** The predicate [readBodyChunk] waits for. *)
Definition read_ready (max_chunk : Z) (c : ConnectionIO) : bool :=
  (max_chunk <=? zlen (read_chunk_ c)) || bodyCompleteLocked c || read_eof_ c || read_error_ c.

(** What a body without buffered bytes has come to. *)
Definition empty_status (c : ConnectionIO) : BodyReadStatus :=
  if bodyCompleteLocked c then Complete
  else if read_error_ c then Error
  else if read_eof_ c then Truncated
  else Data.

(** [readBodyChunk] behind its wait. *)
Definition take_chunk (max_chunk : Z) (c : ConnectionIO) : BodyReadResult * ConnectionIO :=
  let chunk := read_chunk_ c in
  let result := if zlen chunk <=? max_chunk then chunk else take (Z.to_nat max_chunk) chunk in
  let rest := if zlen chunk <=? max_chunk then [] else drop (Z.to_nat max_chunk) chunk in
  let ready := match rest with [] => false | _ => read_data_ready_ c end in
  let c := set_read rest (body_bytes_fed_ c) ready (read_eof_ c) (read_error_ c) c in
  (mkResult result (match rest with [] => empty_status c | _ => Data end), c).

(** [readBodyChunk]; [None]: the worker blocks. *)
Definition readBodyChunk (max_chunk : Z) (c : ConnectionIO) : option (BodyReadResult * ConnectionIO) :=
  if negb (read_ready max_chunk c) then None
  else
    match read_chunk_ c, empty_status c with
    | [], Complete => Some (mkResult [] Complete, c)
    | [], Error => Some (mkResult [] Error, c)
    | [], Truncated => Some (mkResult [] Truncated, c)
    | _, _ => Some (take_chunk max_chunk c)
    end.

(** [writeData] (both versions); [None]: the worker blocks until the event loop has taken
    what was queued before. *)
Definition writeData (data : list Z) (c : ConnectionIO) : option ConnectionIO :=
  match data with
  | [] => Some c
  | _ =>
      match write_buffer_ c, write_error_ c with
      | _ :: _, false => None
      | _, true => Some c
      | [], false => Some (set_write data 0 true (finished_ c) false c)
      end
  end.

Definition io_finish (c : ConnectionIO) : ConnectionIO :=
  set_write (write_buffer_ c) (write_cursor_ c) (write_pending_ c) true (write_error_ c) c.

Definition setError (c : ConnectionIO) : ConnectionIO :=
  set_write (write_buffer_ c) (write_cursor_ c) (write_pending_ c) true true c.

(** ** The event loop's side *)

Definition feedBody (data : list Z) (eof : bool) (c : ConnectionIO) : ConnectionIO :=
  let c := match data with
    | [] => c
    | _ => set_read (read_chunk_ c ++ data) (u64 (body_bytes_fed_ c + zlen data)) true (read_eof_ c) (read_error_ c) c
    end in
  if eof then set_read (read_chunk_ c) (body_bytes_fed_ c) (read_data_ready_ c) true (read_error_ c) c else c.

Definition feedError (c : ConnectionIO) : ConnectionIO :=
  set_read (read_chunk_ c) (body_bytes_fed_ c) (read_data_ready_ c) (read_eof_ c) true c.

Definition writeError (c : ConnectionIO) : ConnectionIO :=
  set_write [] (write_cursor_ c) (write_pending_ c) (finished_ c) true c.

Definition pendingWriteData (c : ConnectionIO) : list Z :=
  if zlen (write_buffer_ c) <=? write_cursor_ c then [] else drop (Z.to_nat (write_cursor_ c)) (write_buffer_ c).

Definition advanceWrite (n : Z) (c : ConnectionIO) : ConnectionIO :=
  let cursor := u64 (write_cursor_ c + n) in
  if zlen (write_buffer_ c) <=? cursor then set_write [] 0 false (finished_ c) (write_error_ c) c
  else set_write (write_buffer_ c) cursor (write_pending_ c) (finished_ c) (write_error_ c) c.

Definition isWritePending (c : ConnectionIO) : bool := write_pending_ c.
Definition isFinished (c : ConnectionIO) : bool := finished_ c && match write_buffer_ c with [] => true | _ => false end.
Definition hasError (c : ConnectionIO) : bool := write_error_ c.
Definition needsMoreBody (c : ConnectionIO) : bool :=
  (body_bytes_fed_ c <? content_length_ c) && negb (read_eof_ c) && negb (read_error_ c).
Definition bodyBytesReceived (c : ConnectionIO) : Z := body_bytes_fed_ c.

(** ** The body: what the worker gets is what was fed *)

(** The two sides of the body, in any interleaving. *)
Inductive body_op := Feed (data : list Z) (eof : bool) | FeedError | ReadChunk (max_chunk : Z).

Definition body_step (op : body_op) (c : ConnectionIO) : option (list BodyReadResult * ConnectionIO) :=
  match op with
  | Feed data eof => Some ([], feedBody data eof c)
  | FeedError => Some ([], feedError c)
  | ReadChunk n => '(r, c) ← readBodyChunk n c; Some ([r], c)
  end.

(** What the worker has read; [None] when it would have to wait at that point. *)
Fixpoint body_run (ops : list body_op) (c : ConnectionIO) : option (list BodyReadResult * ConnectionIO) :=
  match ops with
  | [] => Some ([], c)
  | op :: ops =>
      '(out, c) ← body_step op c;
      '(outs, c) ← body_run ops c;
      Some (out ++ outs, c)
  end.

Definition fed (ops : list body_op) : list Z := mjoin ((fun op => match op with Feed d _ => d | _ => [] end) <$> ops).
Definition delivered (outs : list BodyReadResult) : list Z := mjoin (rr_data <$> outs).

Lemma take_chunk_data n c r c' : take_chunk n c = (r, c') -> rr_data r ++ read_chunk_ c' = read_chunk_ c.
Proof.
  unfold take_chunk. intros [= <- <-]. cbn. destruct (zlen (read_chunk_ c) <=? n); [apply app_nil_r|apply take_drop].
Qed.

Lemma readBodyChunk_data n c r c' :
  readBodyChunk n c = Some (r, c') ->
  rr_data r ++ read_chunk_ c' = read_chunk_ c /\ body_bytes_fed_ c' = body_bytes_fed_ c /\ content_length_ c' = content_length_ c.
Proof.
  unfold readBodyChunk. destruct (negb _); [done|]. intros H.
  assert ((r, c') = take_chunk n c \/ (c' = c /\ rr_data r = [] /\ read_chunk_ c = [])) as [E|(-> & -> & E)].
  { destruct (read_chunk_ c), (empty_status c); injection H as <- <-; auto. }
  - split; [by eapply take_chunk_data|]. unfold take_chunk in E. injection E as -> ->. done.
  - by rewrite E.
Qed.

Lemma body_step_data op c out c' : body_step op c = Some (out, c') ->
  delivered out ++ read_chunk_ c' = read_chunk_ c ++ fed [op] /\
  body_bytes_fed_ c' = (match op with Feed (_ :: _) _ => u64 (body_bytes_fed_ c + zlen (fed [op])) | _ => body_bytes_fed_ c end) /\
  content_length_ c' = content_length_ c.
Proof.
  destruct op as [data eof| |n]; cbn [body_step].
  - intros [= <- <-]. unfold fed, delivered, feedBody. cbn. rewrite !app_nil_r.
    destruct data, eof; cbn; rewrite ?app_nil_r; done.
  - intros [= <- <-]. unfold fed, delivered. cbn. by rewrite app_nil_r.
  - destruct (readBodyChunk n c) as [[r c1]|] eqn:E; [|done]. cbn. intros [= <- <-].
    apply readBodyChunk_data in E as (E1 & E2 & E3). unfold fed, delivered. cbn. by rewrite !app_nil_r.
Qed.

Lemma fed_cons op ops : fed (op :: ops) = fed [op] ++ fed ops.
Proof. unfold fed. cbn. by rewrite app_nil_r. Qed.

Lemma delivered_app outs outs' : delivered (outs ++ outs') = delivered outs ++ delivered outs'.
Proof. unfold delivered. by rewrite fmap_app, join_app. Qed.

Lemma body_run_data ops : forall c outs c', body_run ops c = Some (outs, c') ->
  0 <= body_bytes_fed_ c -> body_bytes_fed_ c + zlen (fed ops) < 2 ^ 64 ->
  delivered outs ++ read_chunk_ c' = read_chunk_ c ++ fed ops /\
  body_bytes_fed_ c' = body_bytes_fed_ c + zlen (fed ops) /\ content_length_ c' = content_length_ c.
Proof.
  induction ops as [|op ops IH]; intros c outs c' H B0 B; cbn [body_run] in H.
  { injection H as <- <-. unfold fed, delivered. cbn. rewrite app_nil_r. split; [done|]. split; [unfold zlen; cbn; lia|done]. }
  destruct (body_step op c) as [[out c1]|] eqn:E1; [|done]. cbn in H.
  destruct (body_run ops c1) as [[outs1 c2]|] eqn:E2; [|done]. cbn in H. injection H as <- <-.
  apply body_step_data in E1 as (D1 & B1 & L1). rewrite (fed_cons op ops) in *. rewrite zlen_app in *.
  assert (body_bytes_fed_ c1 = body_bytes_fed_ c + zlen (fed [op])) as B1'.
  { pose proof (zlen_nonneg (fed [op])). pose proof (zlen_nonneg (fed ops)). rewrite B1.
    destruct op as [[|x d] e| |n]; try (change (zlen (fed _)) with 0; lia). unfold u64. apply Z.mod_small. lia. }
  pose proof (zlen_nonneg (fed [op])). destruct (IH _ _ _ E2) as (D2 & B2 & L2); [lia|lia|].
  split; [|split; [lia|congruence]]. by rewrite delivered_app, <- app_assoc, D2, app_assoc, D1, <- app_assoc.
Qed.

(** What has happened to the body so far, as the flags show it. *)
Lemma body_run_flags ops : forall c outs c', body_run ops c = Some (outs, c') ->
  read_eof_ c' = read_eof_ c || existsb (fun op => match op with Feed _ e => e | _ => false end) ops /\
  read_error_ c' = read_error_ c || existsb (fun op => match op with FeedError => true | _ => false end) ops.
Proof.
  induction ops as [|op ops IH]; intros c outs c' H; cbn [body_run] in H.
  { injection H as <- <-. cbn. by rewrite !orb_false_r. }
  destruct (body_step op c) as [[out c1]|] eqn:E1; [|done]. cbn in H.
  destruct (body_run ops c1) as [[outs1 c2]|] eqn:E2; [|done]. cbn in H. injection H as <- <-.
  apply IH in E2 as [-> ->]. cbn [existsb]. rewrite !orb_assoc. destruct op as [data e| |n]; cbn in E1.
  - injection E1 as <- <-. unfold feedBody. destruct data, e; cbn; rewrite ?orb_true_r, ?orb_false_r; split; done.
  - injection E1 as <- <-. cbn. rewrite orb_true_r, orb_false_r. split; done.
  - unfold readBodyChunk in E1. destruct (negb _); [done|]. rewrite !orb_false_r.
    destruct (read_chunk_ c), (empty_status c); cbn in E1; injection E1 as <- <-; done.
Qed.

Lemma readBodyChunk_status n c r c' : 0 <= n -> readBodyChunk n c = Some (r, c') ->
  zlen (rr_data r) <= n /\
  match rr_status r with
  | Data => zlen (rr_data r) = n
  | st => read_chunk_ c' = [] /\ st = empty_status c'
  end.
Proof.
  intros Hn H. unfold readBodyChunk in H. destruct (read_ready n c) eqn:R; [|done]. cbn [negb] in H.
  assert ((r, c') = take_chunk n c \/ (c' = c /\ r = mkResult [] (empty_status c) /\ read_chunk_ c = [] /\ empty_status c <> Data))
    as [E|(-> & -> & E & N)].
  { destruct (read_chunk_ c), (empty_status c); injection H as <- <-; auto. }
  - unfold take_chunk in E. injection E as -> ->. cbn. destruct (Z.leb_spec (zlen (read_chunk_ c)) n).
    + cbn. split; [done|].
      change (empty_status (set_read [] _ false _ _ c)) with (empty_status c).
      destruct (empty_status c) eqn:S; try done.
      unfold read_ready in R. unfold empty_status in S.
      destruct (bodyCompleteLocked c); [done|]. destruct (read_error_ c); [done|]. destruct (read_eof_ c); [done|].
      rewrite !orb_false_r in R. lia.
    + destruct (drop (Z.to_nat n) (read_chunk_ c)) as [|x rest] eqn:D.
      { apply (f_equal length) in D. rewrite length_drop in D. unfold zlen in *. cbn in D. lia. }
      cbn. rewrite zlen_take by lia. split; lia.
  - cbn. split; [done|]. destruct (empty_status c); done.
Qed.

Lemma body_run_nonempty ops n c c' : body_run (ops ++ [ReadChunk n]) c = Some ([], c') -> 1 <= 0.
Proof.
  revert c. induction ops as [|op ops IH]; intros c H; cbn [body_run app] in H.
  - cbn [body_step] in H. destruct (readBodyChunk n c) as [[r1 c1]|] eqn:E; done.
  - destruct (body_step op c) as [[out c1]|] eqn:E1; [|done]. cbn in H.
    destruct (body_run (ops ++ [ReadChunk n]) c1) as [[outs1 c2]|] eqn:E2; [|done]. cbn in H. injection H as H <-.
    apply app_eq_nil in H as [_ ->]. by eapply IH.
Qed.

Lemma body_run_last ops : forall c outs r n c',
  body_run (ops ++ [ReadChunk n]) c = Some (outs ++ [r], c') ->
  exists c1, body_run ops c = Some (outs, c1) /\ readBodyChunk n c1 = Some (r, c').
Proof.
  induction ops as [|op ops IH]; intros c outs r n c' H; cbn [body_run app] in H.
  - cbn [body_step] in H. destruct (readBodyChunk n c) as [[r1 c1]|] eqn:E; [|done]. cbn in H.
    injection H as H <-. apply (app_inj_tail [] outs r1 r) in H as [<- <-]. by exists c.
  - destruct (body_step op c) as [[out c1]|] eqn:E1; [|done]. cbn in H.
    destruct (body_run (ops ++ [ReadChunk n]) c1) as [[outs1 c2]|] eqn:E2; [|done]. cbn in H. injection H as H <-.
    destruct outs1 as [|y outs1 _] using rev_ind.
    + exfalso. apply body_run_nonempty in E2. lia.
    + rewrite app_assoc in H. apply app_inj_tail in H as [<- <-]. apply IH in E2 as (c3 & E2 & E3).
      exists c3. split; [|done]. cbn [body_run]. rewrite E1. cbn. by rewrite E2.
Qed.

Lemma readBodyChunk_prefix n c r c' : readBodyChunk n c = Some (r, c') ->
  body_prefix_ c' = body_prefix_ c /\ read_eof_ c' = read_eof_ c /\ read_error_ c' = read_error_ c.
Proof.
  unfold readBodyChunk. destruct (negb _); [done|].
  destruct (read_chunk_ c), (empty_status c); intros [= <- <-]; done.
Qed.

Lemma body_run_prefix ops : forall c outs c', body_run ops c = Some (outs, c') -> body_prefix_ c' = body_prefix_ c.
Proof.
  induction ops as [|op ops IH]; intros c outs c' H; cbn [body_run] in H; [by injection H as <- <-|].
  destruct (body_step op c) as [[out c1]|] eqn:E1; [|done]. cbn in H.
  destruct (body_run ops c1) as [[outs1 c2]|] eqn:E2; [|done]. cbn in H. injection H as <- <-.
  rewrite (IH _ _ _ E2). destruct op as [data e| |n]; cbn in E1.
  - injection E1 as <- <-. unfold feedBody. by destruct data, e.
  - by injection E1 as <- <-.
  - destruct (readBodyChunk n c) as [[r c3]|] eqn:E3; [|done]. cbn in E1. injection E1 as <- <-.
    by apply readBodyChunk_prefix in E3 as (-> & _ & _).
Qed.

(** C30. The contract of [readBodyChunk], over any interleaving of the event loop and the
    worker.  What the worker has read and what is still buffered is what was fed, in
    order, nothing lost and nothing twice; and the last answer [r] means what it says:
    [Complete], that the worker has got everything that was fed and that with the prefix
    it is at least the content length; [Truncated] or [Error], that it has got everything
    before the end of file or the error, and that this is less; [Data], that the chunk
    has exactly the size that was asked for. *)
Theorem readBodyChunk_contract (h prefix : list Z) (n : Z) (ops : list body_op) (max : Z)
    (outs : list BodyReadResult) (r : BodyReadResult) (c' : ConnectionIO) :
  0 <= n -> 0 <= max -> zlen prefix + zlen (fed ops) < 2 ^ 64 ->
  body_run (ops ++ [ReadChunk max]) (setHeaderData h prefix n new_ConnectionIO) = Some (outs ++ [r], c') ->
  delivered (outs ++ [r]) ++ read_chunk_ c' = fed ops /\
  let received := zlen (body_prefix_ c') + zlen (fed ops) in
  match rr_status r with
  | Data => zlen (rr_data r) = max
  | Complete => delivered (outs ++ [r]) = fed ops /\ n <= received
  | Truncated => delivered (outs ++ [r]) = fed ops /\ received < n /\ exists d, Feed d true ∈ ops
  | Error => delivered (outs ++ [r]) = fed ops /\ received < n /\ FeedError ∈ ops
  end.
Proof.
  intros Hn Hm B H. apply body_run_last in H as (c1 & H1 & H2).
  set (c0 := setHeaderData h prefix n new_ConnectionIO) in *.
  assert (zlen (body_prefix_ c0) = body_bytes_fed_ c0 /\ content_length_ c0 = n /\ body_bytes_fed_ c0 <= zlen prefix
    /\ read_eof_ c0 = false /\ read_error_ c0 = false /\ read_chunk_ c0 = []) as (P0 & L0 & B0 & E0 & F0 & C0).
  { subst c0. unfold setHeaderData. cbn. repeat split. destruct (Z.ltb_spec n (zlen prefix)); [rewrite zlen_take by lia|]; lia. }
  pose proof (zlen_nonneg (body_prefix_ c0)). pose proof (body_run_prefix _ _ _ _ H1) as P1.
  pose proof (body_run_flags _ _ _ _ H1) as [Ef Er]. rewrite E0 in Ef. rewrite F0 in Er. cbn [orb] in Ef, Er.
  apply body_run_data in H1 as (D1 & B1 & L1); [|lia|lia]. rewrite C0 in D1. cbn [app] in D1.
  pose proof (readBodyChunk_data _ _ _ _ H2) as (D2 & B2 & L2). pose proof (readBodyChunk_prefix _ _ _ _ H2) as (P2 & Ef2 & Er2).
  assert (delivered (outs ++ [r]) ++ read_chunk_ c' = fed ops) as D.
  { rewrite delivered_app, <- app_assoc. unfold delivered at 2. cbn. rewrite app_nil_r, D2. exact D1. }
  split; [exact D|]. apply readBodyChunk_status in H2 as [_ S]; [|done].
  assert (forall st, read_chunk_ c' = [] /\ st = empty_status c' -> delivered (outs ++ [r]) = fed ops) as Dall.
  { intros st [Ec _]. by rewrite Ec, app_nil_r in D. }
  cbv zeta. rewrite P2, P1, P0. unfold empty_status, bodyCompleteLocked in *. rewrite B2, L2, B1, L1, L0, Ef2, Er2, Ef, Er in *.
  destruct (rr_status r); [exact S|..]; (split; [by eapply Dall|]); destruct S as [_ S];
    destruct (Z.leb_spec n (body_bytes_fed_ c0 + zlen (fed ops))) as [Hle|Hle]; try discriminate S; try exact Hle.
  - by destruct (existsb _ _), (existsb _ _).
  - split; [lia|]. destruct (existsb (fun op => match op with FeedError => true | _ => false end) ops); [discriminate|].
    destruct (existsb (fun op => match op with Feed _ e => e | _ => false end) ops) eqn:X; [|discriminate].
    apply existsb_exists in X as ([d []| |] & M & X); try discriminate X. exists d. by apply list_elem_of_In.
  - split; [lia|]. destruct (existsb (fun op => match op with FeedError => true | _ => false end) ops) eqn:X.
    + apply existsb_exists in X as ([| |] & M & X); try discriminate X. by apply list_elem_of_In.
    + by destruct (existsb (fun op => match op with Feed _ e => e | _ => false end) ops).
Qed.

Lemma readBodyChunk_contract_witness :
  match body_run ([Feed [1; 2; 3] false; ReadChunk 2; Feed [4] true] ++ [ReadChunk 5]) (setHeaderData [] [0] 5 new_ConnectionIO) with
  | Some (outs, c') => outs = [mkResult [1; 2] Data; mkResult [3; 4] Complete] /\ delivered outs ++ read_chunk_ c' = [1; 2; 3; 4]
  | None => False
  end.
Proof.
  destruct (body_run _ _) as [[outs c']|] eqn:E; [|vm_compute in E; discriminate].
  assert (outs = [mkResult [1; 2] Data] ++ [mkResult [3; 4] Complete]) as -> by (vm_compute in E; by injection E as <- _).
  split; [reflexivity|].
  apply (readBodyChunk_contract [] [0] 5 [Feed [1; 2; 3] false; ReadChunk 2; Feed [4] true] 5
    [mkResult [1; 2] Data] (mkResult [3; 4] Complete) c'); [discriminate|discriminate|reflexivity|exact E].
Defined.

(** ** The response: what was queued is what is sent *)

(** The two sides of the response, in any interleaving.  [Send n] is the event loop when
    the socket is writable: it offers what is pending, and the kernel takes [n] bytes of
    it at most; [SendError] is a socket that fails. *)
Inductive out_op := Write (data : list Z) | Finish | SetError | Send (n : Z) | SendError.

(** The object, with the bytes queued and sent so far. *)
Record out_state := mkOut { oc : ConnectionIO; queued : list Z; sent : list Z }.

Definition out_step (op : out_op) (o : out_state) : option out_state :=
  let c := oc o in
  match op with
  | Write data => c' ← writeData data c; Some (mkOut c' (if write_error_ c then queued o else queued o ++ data) (sent o))
  | Finish => Some (mkOut (io_finish c) (queued o) (sent o))
  | SetError => Some (mkOut (setError c) (queued o) (sent o))
  | Send n =>
      let n := Z.max 0 (Z.min n (zlen (pendingWriteData c))) in
      match pendingWriteData c with
      | [] => Some o
      | data => Some (mkOut (advanceWrite n c) (queued o) (sent o ++ take (Z.to_nat n) data))
      end
  | SendError => Some (mkOut (writeError c) (queued o) (sent o))
  end.

Fixpoint out_run (ops : list out_op) (o : out_state) : option out_state :=
  match ops with
  | [] => Some o
  | op :: ops => o ← out_step op o; out_run ops o
  end.

Definition out_start : out_state := mkOut new_ConnectionIO [] [].

Definition is_nil {A} (l : list A) : bool := match l with [] => true | _ => false end.

Record out_inv (o : out_state) : Prop := {
  oi_cursor : 0 <= write_cursor_ (oc o) < 2 ^ 64;
  oi_size : zlen (write_buffer_ (oc o)) < 2 ^ 64;
  oi_pending : write_error_ (oc o) = false ->
    write_pending_ (oc o) = negb (is_nil (write_buffer_ (oc o))) /\
    (write_buffer_ (oc o) <> [] -> write_cursor_ (oc o) < zlen (write_buffer_ (oc o)));
  oi_queued : exists rest, queued o = sent o ++ pendingWriteData (oc o) ++ rest /\ (write_error_ (oc o) = false -> rest = [])
}.

Lemma pending_cursor c : 0 <= write_cursor_ c -> pendingWriteData c = drop (Z.to_nat (write_cursor_ c)) (write_buffer_ c).
Proof.
  intros H. unfold pendingWriteData. destruct (Z.leb_spec (zlen (write_buffer_ c)) (write_cursor_ c)); [|done].
  symmetry. apply drop_ge. unfold zlen in *. lia.
Qed.

Lemma advanceWrite_inv n c data : let c' := advanceWrite n c in
  0 <= write_cursor_ c < zlen (write_buffer_ c) -> zlen (write_buffer_ c) < 2 ^ 64 -> data = pendingWriteData c ->
  0 <= n <= zlen data ->
  0 <= write_cursor_ c' < 2 ^ 64 /\ zlen (write_buffer_ c') < 2 ^ 64 /\ write_error_ c' = write_error_ c /\
  pendingWriteData c' = drop (Z.to_nat n) data /\
  (write_pending_ c = true -> write_pending_ c' = negb (is_nil (write_buffer_ c')) /\
     (write_buffer_ c' <> [] -> write_cursor_ c' < zlen (write_buffer_ c'))).
Proof.
  intros c' Hc Hs -> Hn. rewrite (pending_cursor c) in * by lia. rewrite zlen_drop in Hn by lia.
  subst c'. unfold advanceWrite. unfold u64. rewrite Z.mod_small by lia.
  destruct (Z.leb_spec (zlen (write_buffer_ c)) (write_cursor_ c + n)) as [H|H].
  - rewrite pending_cursor by (cbn; lia). cbn. split; [lia|]. split; [change (zlen []) with 0; lia|]. split; [done|].
    split; [|done]. symmetry. apply drop_ge. rewrite length_drop. unfold zlen in *. lia.
  - rewrite pending_cursor by (cbn; lia). cbn. split; [lia|]. split; [done|]. split; [done|].
    split; [rewrite drop_drop; f_equal; lia|]. intros ->. split; [|lia].
    destruct (write_buffer_ c); [|done]. change (zlen []) with 0 in *. lia.
Qed.

Definition small_writes (ops : list out_op) : Prop :=
  Forall (fun op => match op with Write d => zlen d < 2 ^ 64 | _ => True end) ops.

Lemma out_step_inv op o o' : match op with Write d => zlen d < 2 ^ 64 | _ => True end ->
  out_inv o -> out_step op o = Some o' -> out_inv o'.
Proof.
  intros Hd [C S P (rest & Q & R)] H. destruct op as [data| | |n|]; cbn in H.
  - unfold writeData in H. destruct data as [|x data].
    { cbn in H. injection H as <-. split; cbn; try done. exists rest. split; [|done].
      destruct (write_error_ (oc o)); [done|]. by rewrite app_nil_r. }
    destruct (write_error_ (oc o)) eqn:Ee.
    + assert (o' = o) as ->; [|by split; rewrite ?Ee; eauto].
      destruct o as [c q st]. cbn in *. destruct (write_buffer_ c); cbn in H; by injection H as <-.
    + destruct (write_buffer_ (oc o)) as [|y buf] eqn:Eb; cbn in H; [|done]. injection H as <-. split; cbn; [lia|done| |].
      * intros _. split; [done|]. intros _. pose proof (zlen_nonneg data). rewrite zlen_cons. lia.
      * exists []. split; [|done]. rewrite Q, (R eq_refl), !app_nil_r.
        rewrite !pending_cursor by (cbn; lia). cbn. by rewrite Eb, drop_nil, app_nil_r.
  - injection H as <-. split; cbn; try done. by exists rest.
  - injection H as <-. split; cbn; try done. by exists rest.
  - destruct (pendingWriteData (oc o)) as [|x data] eqn:Ep; [by injection H as <-; split; rewrite ?Ep; eauto|].
    injection H as <-. set (k := Z.max 0 (Z.min n (zlen (x :: data)))).
    assert (write_cursor_ (oc o) < zlen (write_buffer_ (oc o))) as Hlt.
    { unfold pendingWriteData in Ep. destruct (Z.ltb_spec (write_cursor_ (oc o)) (zlen (write_buffer_ (oc o)))) as [|Hc]; [done|].
      by rewrite (proj2 (Z.leb_le _ _) Hc) in Ep. }
    pose proof (zlen_nonneg (x :: data)).
    destruct (advanceWrite_inv k (oc o) (x :: data)) as (A1 & A2 & A3 & A4 & A5); [lia|done|done|lia|].
    split; cbn [oc queued sent]; [done|done| |].
    + rewrite A3. intros E. apply A5. destruct (P E) as [-> _]. destruct (write_buffer_ (oc o)); [|done].
      change (zlen []) with 0 in Hlt. lia.
    + exists rest. rewrite A3, A4. split; [|done]. rewrite Q. rewrite <- app_assoc. f_equal.
      rewrite app_assoc. f_equal. symmetry. apply take_drop.
  - injection H as <-. split; cbn; try done.
    exists (pendingWriteData (oc o) ++ rest). split; [|done]. rewrite Q. f_equal.
    rewrite (pending_cursor (writeError _)) by (cbn; lia). cbn. by rewrite drop_nil.
Qed.

Lemma out_run_inv ops o o' : small_writes ops -> out_inv o -> out_run ops o = Some o' -> out_inv o'.
Proof.
  intros F. revert o. induction F as [|op ops Hd F IH]; intros o I H; cbn in H; [by injection H as <-|].
  destruct (out_step op o) as [o1|] eqn:E; [|done]. eapply IH; [|exact H]. by eapply out_step_inv.
Qed.

(** C29. The response leaves in order and complete.  Over any interleaving of the worker
    and the event loop, with sends of any size and a failure at any point: what was sent is
    a prefix of what was queued.  As long as nothing failed, what was queued is what was
    sent and what is pending; [isWritePending] says whether something is pending, a worker
    blocks in [writeData] only while it does; and when [isFinished] says so, everything
    was sent. *)
Theorem writeData_delivers (ops : list out_op) (o : out_state) :
  small_writes ops -> out_run ops out_start = Some o ->
  sent o `prefix_of` queued o /\
  (write_error_ (oc o) = false ->
     queued o = sent o ++ pendingWriteData (oc o) /\
     isWritePending (oc o) = negb (is_nil (pendingWriteData (oc o))) /\
     (forall data, writeData data (oc o) = None -> isWritePending (oc o) = true) /\
     (isFinished (oc o) = true -> sent o = queued o)).
Proof.
  intros F H. apply out_run_inv in H as [C S P (rest & Q & R)]; [|done|].
  2: { split; cbn; try done. exists []. done. }
  split; [rewrite Q; by eexists|]. intros E. rewrite (R E), app_nil_r in Q. destruct (P E) as [P1 P2].
  assert (is_nil (pendingWriteData (oc o)) = is_nil (write_buffer_ (oc o))) as N.
  { rewrite pending_cursor by lia. destruct (write_buffer_ (oc o)) as [|x buf] eqn:Eb; [by rewrite drop_nil|].
    destruct (drop _ _) eqn:D; [|done]. apply (f_equal length) in D. rewrite length_drop in D.
    specialize (P2 ltac:(done)). unfold zlen in P2. cbn in *. lia. }
  split; [exact Q|]. unfold isWritePending. split; [by rewrite N|]. split.
  - intros data W. unfold writeData in W. rewrite E in W. rewrite P1. destruct data; [done|]. by destruct (write_buffer_ (oc o)).
  - unfold isFinished. intros [_ Eb]%andb_prop. rewrite Q. destruct (write_buffer_ (oc o)) eqn:B; [|done].
    destruct (pendingWriteData (oc o)); [by rewrite app_nil_r|done].
Qed.

Lemma writeData_delivers_witness :
  match out_run [Write [1; 2; 3]; Send 2; Send 9; Write [4]; Finish; Send 1] out_start with
  | Some o => isFinished (oc o) = true /\ sent o = queued o /\ sent o = [1; 2; 3; 4]
  | None => False
  end.
Proof.
  destruct (out_run _ _) as [o|] eqn:E; [|vm_compute in E; discriminate].
  assert (write_error_ (oc o) = false /\ isFinished (oc o) = true /\ sent o = [1; 2; 3; 4]) as (E1 & E2 & E3).
  { vm_compute in E. injection E as <-. repeat split; reflexivity. }
  split; [exact E2|]. split; [|exact E3].
  apply (writeData_delivers [Write [1; 2; 3]; Send 2; Send 9; Write [4]; Finish; Send 1] o); [|exact E|exact E1|exact E2].
  repeat constructor.
Defined.
