(* ===== verification/StdMap.v ===== *)
(** * [std::map] as its sorted sequence of entries

    The containers of the C++ code that are searched by key and walked in key order
    (the metrics of a module, the loaded modules, the scopes of a request).  A key type
    has a strict total order; the map is the list of its entries, and its invariant is
    that the keys increase. *)

From S2P Require Export Prelude.
From Stdlib Require Import Sorted.

Open Scope Z_scope.

(** ** Ordered keys *)

Class KeyOrder (K : Type) := {
  kless : K -> K -> bool;
  kless_irrefl a : kless a a = false;
  kless_trans a b c : kless a b = true -> kless b c = true -> kless a c = true;
  kless_total a b : kless a b = false -> kless b a = false -> a = b
}.

#[export] Program Instance Z_order : KeyOrder Z := {| kless := Z.ltb |}.
Next Obligation. intros. apply Z.ltb_irrefl. Qed.
Next Obligation. intros a b c H1%Z.ltb_lt H2%Z.ltb_lt. apply Z.ltb_lt. lia. Qed.
Next Obligation. intros a b H1%Z.ltb_ge H2%Z.ltb_ge. lia. Qed.

(** [operator<] of [std::string]: the first byte that differs decides. *)
Fixpoint bytes_less (a b : list Z) : bool :=
  match a, b with
  | _, [] => false
  | [], _ => true
  | x :: a, y :: b => (x <? y) || ((x =? y) && bytes_less a b)
  end.

#[export] Program Instance bytes_order : KeyOrder (list Z) := {| kless := bytes_less |}.
Next Obligation. intros a. induction a as [|x a IH]; [done|]. cbn. by rewrite Z.ltb_irrefl, Z.eqb_refl, IH. Qed.
Next Obligation.
  intros a. induction a as [|x a IH]; intros [|y b] [|z c]; cbn; try done.
  rewrite !orb_true_iff, !andb_true_iff, !Z.ltb_lt, !Z.eqb_eq. intros [H1|[-> H1]] [H2|[-> H2]]; [left; lia|left; lia|left; lia|].
  right. split; [done|]. by apply (IH b).
Qed.
Next Obligation.
  intros a. induction a as [|x a IH]; intros [|y b]; cbn; try done.
  rewrite !orb_false_iff, !andb_false_iff, !Z.ltb_ge, !Z.eqb_neq. intros [H1 H2] [H3 H4].
  assert (x = y) as -> by lia. destruct H2, H4; try done. f_equal. by apply IH.
Qed.

(** ** The map *)

Section StdMap.
Context {K V : Type} `{EqDecision K, KeyOrder K}.

Abbreviation smap := (list (K * V)).

(** [find]: the mapped value. *)
Fixpoint sfind (k : K) (m : smap) : option V :=
  match m with
  | [] => None
  | (k', v) :: m => if decide (k = k') then Some v else sfind k m
  end.

(** [emplace]: an entry that is there stays. *)
Fixpoint semplace (k : K) (v : V) (m : smap) : smap :=
  match m with
  | [] => [(k, v)]
  | (k', v') :: m' =>
      if decide (k = k') then m else if kless k k' then (k, v) :: m else (k', v') :: semplace k v m'
  end.

(** [m\[k\] = v] *)
Fixpoint sassign (k : K) (v : V) (m : smap) : smap :=
  match m with
  | [] => [(k, v)]
  | (k', v') :: m' =>
      if decide (k = k') then (k, v) :: m' else if kless k k' then (k, v) :: m else (k', v') :: sassign k v m'
  end.

(** A change of the value behind an iterator. *)
Fixpoint smodify (k : K) (f : V -> V) (m : smap) : smap :=
  match m with
  | [] => []
  | (k', v) :: m => if decide (k = k') then (k', f v) :: m else (k', v) :: smodify k f m
  end.

Fixpoint serase (k : K) (m : smap) : smap :=
  match m with
  | [] => []
  | (k', v) :: m => if decide (k = k') then m else (k', v) :: serase k m
  end.

Definition keys (m : smap) : list K := fst <$> m.

Definition key_lt (a b : K) : Prop := kless a b = true.
Definition smap_ok (m : smap) : Prop := StronglySorted key_lt (keys m).

Lemma smap_ok_cons k v m : smap_ok ((k, v) :: m) <-> Forall (key_lt k) (keys m) /\ smap_ok m.
Proof. unfold smap_ok. cbn. split; [by intros []%StronglySorted_inv|]. intros []. by constructor. Qed.

Lemma key_lt_ne a b : key_lt a b -> a <> b.
Proof. unfold key_lt. intros E ->. by rewrite kless_irrefl in E. Qed.

Lemma keys_NoDup m : smap_ok m -> NoDup (keys m).
Proof.
  induction m as [|[k v] m IH]; [constructor|]. intros [F O]%smap_ok_cons. cbn. constructor; [|auto].
  intros X. rewrite Forall_forall in F. by apply (key_lt_ne _ _ (F _ X)).
Qed.

Lemma sfind_None k m : sfind k m = None <-> k ∉ keys m.
Proof.
  induction m as [|[k' v] m IH]; cbn; [by split; [inversion 2|]|]. rewrite not_elem_of_cons. destruct (decide _) as [->|N].
  - split; [done|]. by intros [].
  - rewrite IH. tauto.
Qed.

Lemma sfind_elem k v m : sfind k m = Some v -> (k, v) ∈ m.
Proof.
  induction m as [|[k' v'] m IH]; cbn; [done|]. destruct (decide _) as [->|N]; [intros [= ->]; by constructor|].
  intros E%IH. by constructor.
Qed.

Lemma sfind_elem_ok k v m : smap_ok m -> (k, v) ∈ m -> sfind k m = Some v.
Proof.
  induction m as [|[k' v'] m IH]; [by inversion 2|]. intros [F O]%smap_ok_cons E. cbn.
  apply elem_of_cons in E as [[= -> ->]|E]; [by rewrite decide_True|].
  rewrite decide_False; [auto|]. intros ->. rewrite Forall_forall in F.
  apply (key_lt_ne k' k'); [|done]. apply F. by apply (list_elem_of_fmap_2 fst _ (k', v)).
Qed.

Lemma sfind_smodify k f k' m : sfind k' (smodify k f m) = if decide (k = k') then f <$> sfind k' m else sfind k' m.
Proof.
  induction m as [|[k1 v] m IH]; cbn; [by destruct (decide _)|]. destruct (decide (k = k1)) as [->|N]; cbn.
  - destruct (decide (k' = k1)) as [->|N']; [by rewrite decide_True|]. by rewrite decide_False by done.
  - destruct (decide (k' = k1)) as [->|N']; [by rewrite decide_False by done|done].
Qed.

Lemma keys_smodify k f m : keys (smodify k f m) = keys m.
Proof. induction m as [|[k1 v] m IH]; [done|]. cbn. destruct (decide _); cbn; by f_equal. Qed.

Lemma keys_semplace k v m : forall x, x ∈ keys (semplace k v m) <-> x = k \/ x ∈ keys m.
Proof.
  induction m as [|[k1 v1] m IH]; intros x; cbn; [by rewrite elem_of_cons|]. destruct (decide (k = k1)) as [->|N].
  - cbn. rewrite elem_of_cons. tauto.
  - destruct (kless k k1); cbn; rewrite !elem_of_cons; [done|]. rewrite IH. tauto.
Qed.

Lemma smap_ok_semplace k v m : smap_ok m -> smap_ok (semplace k v m).
Proof.
  induction m as [|[k1 v1] m IH]; intros O; cbn; [by repeat constructor|]. destruct (decide (k = k1)) as [->|N]; [done|].
  pose proof O as [F O']%smap_ok_cons. destruct (kless k k1) eqn:E.
  - apply smap_ok_cons. split; [|done]. cbn. constructor; [done|]. eapply Forall_impl; [exact F|]. intros x. by apply kless_trans.
  - apply smap_ok_cons. split; [|auto]. apply Forall_forall. intros x [-> |X]%keys_semplace.
    + unfold key_lt. destruct (kless k1 k) eqn:E'; [done|]. by destruct N; apply kless_total.
    + by rewrite Forall_forall in F; apply F.
Qed.

Lemma smap_ok_smodify k f m : smap_ok m -> smap_ok (smodify k f m).
Proof. unfold smap_ok. by rewrite keys_smodify. Qed.

(** A key that is not there is added, the other entries keep their value. *)
Lemma sfind_semplace k v k' m : smap_ok m ->
  sfind k' (semplace k v m) = if decide (k = k') then Some (default v (sfind k m)) else sfind k' m.
Proof.
  induction m as [|[k1 v1] m IH]; intros O; cbn.
  { destruct (decide (k' = k)) as [->|N]; [by rewrite decide_True|]. by rewrite decide_False. }
  apply smap_ok_cons in O as [F O]. destruct (decide (k = k1)) as [->|N]; cbn.
  - destruct (decide (k' = k1)) as [->|N']; [by rewrite decide_True|by rewrite decide_False].
  - destruct (kless k k1) eqn:E; cbn.
    + destruct (decide (k' = k)) as [->|N']; [|by rewrite (decide_False (P := k = k')) by done].
      rewrite decide_True by done. assert (sfind k m = None) as ->; [|done]. apply sfind_None. intros X.
      rewrite Forall_forall in F. apply F in X. pose proof (kless_trans _ _ _ E X). by rewrite kless_irrefl in *.
    + rewrite IH by done. destruct (decide (k' = k1)) as [->|N']; [by rewrite decide_False|done].
Qed.

Lemma sfind_sassign k v k' m : smap_ok m -> sfind k' (sassign k v m) = if decide (k = k') then Some v else sfind k' m.
Proof.
  induction m as [|[k1 v1] m IH]; intros O; cbn.
  { destruct (decide (k' = k)) as [->|N]; [by rewrite decide_True|]. by rewrite decide_False. }
  apply smap_ok_cons in O as [F O]. destruct (decide (k = k1)) as [->|N]; cbn.
  - destruct (decide (k' = k1)) as [->|N']; [by rewrite decide_True|]. by rewrite decide_False.
  - destruct (kless k k1) eqn:E; cbn.
    + destruct (decide (k' = k)) as [->|N']; [by rewrite decide_True|]. by rewrite (decide_False (P := k = k')).
    + rewrite IH by done. destruct (decide (k' = k1)) as [->|N']; [by rewrite decide_False|done].
Qed.
End StdMap.

Abbreviation smap K V := (list (K * V)).
#[export] Hint Resolve smap_ok_semplace smap_ok_smodify : core.
