(* ===== verification/HttpUtils.v ===== *)
(** * HTTP text: headers, request heads, marshalled header pairs

    http_utils.h, with [extract_content_length] and [HttpServer::parse_request] of
    main.cpp, and the [HttpData] they fill.  Strings of the C++ code are byte lists; an
    access outside of a buffer has no value. *)

From S2P Require Export Prelude.
From S2P Require Import ReqParse ReqHeaders.

Open Scope Z_scope.

Abbreviation HeaderPairs := (list (list Z * list Z)).

(** ** Characters and numbers *)

(** [tolower] in the C locale. *)
Definition tolower (c : Z) : Z := if (65 <=? c) && (c <=? 90) then c + 32 else c.

Definition digit_char (d : Z) : Z := if d <? 10 then 48 + d else 87 + d.

(** What [operator<<], [std::to_string] (base 10) and [%zx] (base 16) print. *)
Fixpoint to_base (b : Z) (fuel : nat) (z : Z) : list Z :=
  match fuel with
  | O => []
  | S fuel => if z <? b then [digit_char z] else to_base b fuel (z / b) ++ [digit_char (z mod b)]
  end.

(** 20 decimal and 16 hexadecimal digits hold every [size_t]. *)
Definition dec (z : Z) : list Z := to_base 10 20 z.
Definition hex (z : Z) : list Z := to_base 16 16 z.

Definition digit_val (c : Z) : option Z :=
  if (48 <=? c) && (c <=? 57) then Some (c - 48)
  else if (97 <=? c) && (c <=? 102) then Some (c - 87)
  else None.

(** The value of a run of digits. *)
Definition from_base (b : Z) (l : list Z) : Z := foldl (fun a c => b * a + default 0 (digit_val c)) 0 l.

Definition is_digit (c : Z) : bool := (48 <=? c) && (c <=? 57).

(** The longest prefix of characters that satisfy [f], and what follows it. *)
Fixpoint span (f : Z -> bool) (l : list Z) : list Z * list Z :=
  match l with
  | [] => ([], [])
  | c :: l' => if f c then let '(a, r) := span f l' in (c :: a, r) else ([], l)
  end.

(** The lines that repeated [std::getline] calls read, and that [extract_content_length]
    cuts out: a newline ends a line, and the last line may lack it. *)
Fixpoint lines (l : list Z) : list (list Z) :=
  match l with
  | [] => []
  | c :: l =>
      if c =? 10 then [] :: lines l
      else match lines l with [] => [[c]] | x :: xs => (c :: x) :: xs end
  end.

(** A string without its last character if that is a carriage return. *)
Definition strip_cr (l : list Z) : list Z :=
  match last l with Some 13 => take (length l - 1) l | _ => l end.

(** ** http_utils.h *)

Definition header_name_eq (a b : list Z) : bool :=
  if negb (zlen a =? zlen b) then false
  else forallb (fun '(x, y) => tolower x =? tolower y) (zip a b).

Definition reason_phrase (status_code : Z) : string :=
  match status_code with
  | 200 => "OK"
  | 201 => "Created"
  | 204 => "No Content"
  | 301 => "Moved Permanently"
  | 302 => "Found"
  | 304 => "Not Modified"
  | 400 => "Bad Request"
  | 401 => "Unauthorized"
  | 403 => "Forbidden"
  | 404 => "Not Found"
  | 405 => "Method Not Allowed"
  | 431 => "Request Header Fields Too Large"
  | 500 => "Internal Server Error"
  | 502 => "Bad Gateway"
  | 503 => "Service Unavailable"
  | _ => ""
  end%string.

Definition crlf : list Z := [13; 10].

Definition header_line (h : list Z * list Z) : list Z := h.1 ++ str ": " ++ h.2 ++ crlf.

Definition serialize_headers (status_code : Z) (headers : HeaderPairs) : list Z :=
  str "HTTP/1.1 " ++ dec status_code ++ str " " ++ str (reason_phrase status_code) ++ crlf
  ++ mjoin (header_line <$> headers) ++ crlf.

(** The size table of [deserialize_header_pairs]. *)
Fixpoint read_sizes (n : nat) (p : Z) (data : list Z) : option (list (Z * Z)) :=
  match n with
  | O => Some []
  | S n =>
      key_size ← load_u32 data p;
      value_size ← load_u32 data (p + 4);
      sizes ← read_sizes n (p + 8) data;
      Some ((key_size, value_size) :: sizes)
  end.

(** The keys and values; [key_size + 1] is computed in 32 bits where the pointer moves, in
    64 where it is compared. *)
Fixpoint read_pairs (sizes : list (Z * Z)) (p : Z) (data : list Z) (out : HeaderPairs) : option HeaderPairs :=
  match sizes with
  | [] => Some out
  | (key_size, value_size) :: sizes =>
      if zlen data <? p + key_size + 1 then Some out
      else
        key ← load data p key_size;
        let p := p + u32 (key_size + 1) in
        if zlen data <? p + value_size + 1 then Some out
        else
          value ← load data p value_size;
          read_pairs sizes (p + u32 (value_size + 1)) data (out ++ [(key, value)])
  end.

(** [None]: a read outside of [data]. *)
Definition deserialize_header_pairs (data : list Z) : option HeaderPairs :=
  if zlen data <? 4 then Some []
  else
    n ← load_u32 data 0;
    if zlen data <? 4 + n * 8 then Some []
    else
      sizes ← read_sizes (Z.to_nat n) 4 data;
      read_pairs sizes (4 + n * 8) data [].

(** ** main.cpp: the head of a request *)

(** [std::stoull] of a run of digits; it throws when the value does not fit. *)
Definition stoull (l : list Z) : option Z :=
  let n := from_base 10 l in if n <? 2 ^ 64 then Some n else None.

Definition is_blank (c : Z) : bool := (c =? 32) || (c =? 9).

(** A line of [extract_content_length]: the value it returns with this line, if any. *)
Definition content_length_line (line : list Z) : option Z :=
  let line := strip_cr line in
  if (15 <? zlen line) && bool_decide (line !! 14%nat = Some 58) then
    if header_name_eq (take 14 line) (str "Content-Length") then
      match span is_digit (span is_blank (drop 15 line)).2 with
      | ([], _) => None
      | (ds, _) => Some (default 0 (stoull ds))
      end
    else None
  else None.

Fixpoint first_some {A B} (f : A -> option B) (l : list A) : option B :=
  match l with
  | [] => None
  | x :: l => match f x with Some y => Some y | None => first_some f l end
  end.

Definition extract_content_length (headers : list Z) : Z :=
  default 0 (first_some content_length_line (lines headers)).

(** [HttpData] of http_filter.h. *)
Record HttpData := mkHttpData {
  hd_method : list Z;
  hd_path : list Z;
  hd_version : list Z;
  request_headers : HeaderPairs;
  response_headers : HeaderPairs;
  request_body : list Z;
  response_body : list Z;
  has_local_response : bool;
  local_response_code : Z;
  local_response_body : list Z;
  local_response_additional_headers : HeaderPairs
}.

(** [iss >> s] of a stream with [l] left: blanks are skipped, then the token is read. *)
Definition token (l : list Z) : list Z * list Z := span (fun c => negb (is_space c)) (skip_space l).

(** [std::getline] once: what is left behind the line. *)
Definition after_line (l : list Z) : list Z :=
  match (span (fun c => negb (c =? 10)) l).2 with [] => [] | _ :: l => l end.

(** A header line; a line without a colon is skipped. *)
Definition parse_header (line : list Z) : option (list Z * list Z) :=
  let '(name, rest) := span (fun c => negb (c =? 58)) line in
  match rest with
  | [] => None
  | _ :: value => Some (name, strip_cr (span is_blank value).2)
  end.

Fixpoint parse_headers (ls : list (list Z)) : HeaderPairs :=
  match ls with
  | [] => []
  | line :: ls =>
      if bool_decide (line = []) || bool_decide (line = [13]) then []
      else option_list (parse_header line) ++ parse_headers ls
  end.

Definition parse_request (request : list Z) : option HttpData :=
  let '(method, l) := token request in
  let '(path, l) := token l in
  let '(version, l) := token l in
  if bool_decide (method = []) || bool_decide (path = []) then None
  else Some (mkHttpData method path version (parse_headers (lines (after_line l))) [] [] [] false 0 [] []).

Example parse_get :
  (fun d => (hd_method d, hd_path d, hd_version d, request_headers d)) <$>
    parse_request (str "GET /x HTTP/1.1" ++ crlf ++ str "Host: a" ++ crlf ++ str "content-length:7" ++ crlf ++ crlf)
  = Some (str "GET", str "/x", str "HTTP/1.1", [(str "Host", str "a"); (str "content-length", str "7")]).
Proof. reflexivity. Qed.

Example content_length_7 :
  extract_content_length (str "GET /x HTTP/1.1" ++ crlf ++ str "Host: a" ++ crlf ++ str "content-length:7" ++ crlf ++ crlf) = 7.
Proof. reflexivity. Qed.

(** A head that the parser ends at a line with only a carriage return, behind which
    [extract_content_length] still finds a length: the event loop waits for a body that
    no header of the request announces. *)
Example hidden_content_length :
  let head := str "GET / HTTP/1.1" ++ [10] ++ crlf ++ str "Content-Length: 5" ++ crlf ++ crlf in
  extract_content_length head = 5 /\ request_headers <$> parse_request head = Some [].
Proof. split; reflexivity. Qed.
