(* ===== verification/HttpUtilsSpec.v ===== *)
(** * Properties of the HTTP text functions

    Numbers and header names; the marshalled header pairs, for any bytes, any cut and a
    whole message; the head of a request as the event loop and the worker read it. *)

From S2P Require Export HttpUtils.
From S2P Require Import ReqParse.

Open Scope Z_scope.

(** ** Numbers *)

Lemma digit_val_char d : 0 <= d < 16 -> digit_val (digit_char d) = Some d.
Proof.
  intros H. unfold digit_val, digit_char. destruct (Z.ltb_spec d 10).
  - rewrite (proj2 (Z.leb_le _ _)), (proj2 (Z.leb_le _ _)) by lia. cbn. f_equal. lia.
  - rewrite (proj2 (Z.leb_gt (87 + d) 57)) by lia. rewrite andb_false_r.
    rewrite (proj2 (Z.leb_le _ _)), (proj2 (Z.leb_le _ _)) by lia. cbn. f_equal. lia.
Qed.

Lemma from_base_app b l k : from_base b (l ++ k) = foldl (fun a c => b * a + default 0 (digit_val c)) (from_base b l) k.
Proof. unfold from_base. apply foldl_app. Qed.

(** A printed number reads back as itself. *)
Lemma from_to_base b fuel z : 1 < b <= 16 -> 0 <= z < b ^ Z.of_nat (S fuel) -> from_base b (to_base b (S fuel) z) = z.
Proof.
  intros Hb. revert z. induction fuel as [|fuel IH]; intros z Hz.
  - cbn [to_base]. change (Z.of_nat 1) with 1 in Hz. rewrite (proj2 (Z.ltb_lt z b)) by lia.
    unfold from_base. cbn [foldl]. rewrite digit_val_char by lia. cbn. lia.
  - cbn [to_base] in *. rewrite Nat2Z.inj_succ, Z.pow_succ_r in Hz by lia.
    destruct (Z.ltb_spec z b) as [H|H].
    + unfold from_base. cbn [foldl]. rewrite digit_val_char by lia. cbn. lia.
    + rewrite from_base_app. rewrite IH.
      * cbn [foldl]. pose proof (Z.mod_pos_bound z b). rewrite digit_val_char by lia. cbn. rewrite (Z.div_mod z b) at 3 by lia. lia.
      * split; [apply Z.div_pos; lia|]. apply Z.div_lt_upper_bound; lia.
Qed.

Lemma to_base_digits b fuel z : 1 < b <= 16 -> 0 <= z -> Forall (fun c => is_Some (digit_val c)) (to_base b fuel z).
Proof.
  intros Hb. revert z. induction fuel as [|fuel IH]; intros z Hz; cbn [to_base]; [constructor|].
  destruct (Z.ltb_spec z b).
  - constructor; [|constructor]. rewrite digit_val_char by lia. eauto.
  - apply Forall_app. split; [apply IH, Z.div_pos; lia|]. constructor; [|constructor].
    pose proof (Z.mod_pos_bound z b). rewrite digit_val_char by lia. eauto.
Qed.

Lemma to_base_not_nil b fuel z : to_base b (S fuel) z <> [].
Proof. cbn [to_base]. destruct (z <? b); [done|]. by intros []%app_eq_nil. Qed.

Lemma to_base_chars b fuel z : 1 < b <= 10 -> 0 <= z -> Forall (fun c => 48 <= c < 48 + b) (to_base b fuel z).
Proof.
  intros Hb. revert z. induction fuel as [|fuel IH]; intros z Hz; cbn [to_base]; [constructor|].
  assert (forall d, 0 <= d < b -> Forall (fun c => 48 <= c < 48 + b) [digit_char d]) as D.
  { intros d Hd. constructor; [|constructor]. unfold digit_char. destruct (Z.ltb_spec d 10); lia. }
  destruct (Z.ltb_spec z b); [by apply D; lia|]. apply Forall_app. split; [apply IH, Z.div_pos; lia|]. apply D, Z.mod_pos_bound. lia.
Qed.

Lemma span_all f l : Forall (fun c => f c = true) l -> span f l = (l, []).
Proof. induction l as [|c l IH]; [done|]. intros [H F]%Forall_cons. cbn. by rewrite H, IH. Qed.

Lemma span_stop f l c r : Forall (fun x => f x = true) l -> f c = false -> span f (l ++ c :: r) = (l, c :: r).
Proof. intros F H. induction F as [|x l Hx F IH]; cbn; [by rewrite H|]. by rewrite Hx, IH. Qed.

Lemma dec_digits n : 0 <= n < 10 ^ 20 -> span HttpUtils.is_digit (dec n) = (dec n, []) /\ from_base 10 (dec n) = n /\ dec n <> [] /\
  Forall (fun c => 48 <= c < 58) (dec n).
Proof.
  intros H. pose proof (to_base_chars 10 20 n ltac:(lia) ltac:(lia)) as F. split; [|split; [|split; [apply to_base_not_nil|exact F]]].
  - apply span_all. eapply Forall_impl; [exact F|]. cbn; intros c Hc; unfold HttpUtils.is_digit, ReqParse.is_digit; rewrite andb_true_iff, !Z.leb_le; lia.
  - by apply from_to_base.
Qed.

(** ** Header names *)

Lemma header_name_eq_spec a b : header_name_eq a b = true <-> tolower <$> a = tolower <$> b.
Proof.
  unfold header_name_eq. revert b. induction a as [|x a IH]; intros [|y b]; cbn [fmap list_fmap zip zip_with forallb].
  - done.
  - rewrite zlen_cons, zlen_nil. pose proof (zlen_nonneg b). rewrite (proj2 (Z.eqb_neq 0 (1 + zlen b))) by lia. done.
  - rewrite zlen_cons, zlen_nil. pose proof (zlen_nonneg a). rewrite (proj2 (Z.eqb_neq (1 + zlen a) 0)) by lia. done.
  - specialize (IH b). rewrite !zlen_cons. destruct (Z.eqb_spec (zlen a) (zlen b)) as [E|E]; cbn [negb] in *.
    + rewrite E, Z.eqb_refl. cbn [negb]. rewrite andb_true_iff, Z.eqb_eq, IH. split; [intros [-> ->]; done|by intros [= -> ->]].
    + rewrite (proj2 (Z.eqb_neq _ _)) by lia. cbn. split; [done|]. intros [= _ X]. by apply IH in X.
Qed.

(** A name equal to [Content-Length] up to case has its length, and no blank or colon. *)
Lemma content_length_name a : header_name_eq a (str "Content-Length") = true -> length a = 14%nat /\ (32 ∉ a) /\ (58 ∉ a).
Proof.
  intros H%header_name_eq_spec. split; [apply (f_equal length) in H; by rewrite !length_fmap in H|].
  assert (forall c, c ∈ a -> tolower c ∈ (fmap tolower (str "Content-Length"))) as X.
  { intros c Hc. rewrite <- H. apply list_elem_of_fmap. eauto. }
  split; intros C%X; apply (bool_decide_pack _) in C; by vm_compute in C.
Qed.

(** ** Splitting *)

Lemma span_app f a l : Forall (fun c => f c = true) a -> match l with [] => True | c :: _ => f c = false end -> span f (a ++ l) = (a, l).
Proof.
  intros Ha Hl. induction Ha as [|c a Hc Ha IH]; cbn [app span].
  - destruct l as [|c l]; [done|]. cbn [span]. by rewrite Hl.
  - by rewrite Hc, IH.
Qed.

Lemma span_none f l : match l with [] => True | c :: _ => f c = false end -> span f l = ([], l).
Proof. apply (span_app f []). constructor. Qed.

Lemma not_elem_Forall c (l : list Z) : c ∉ l -> Forall (fun x => negb (x =? c) = true) l.
Proof. intros H. apply Forall_forall. intros x Hx. apply negb_true_iff, Z.eqb_neq. by intros ->. Qed.

Lemma lines_app a l : 10 ∉ a -> lines (a ++ 10 :: l) = a :: lines l.
Proof.
  induction a as [|c a IH]; intros H; [done|]. cbn [app lines].
  rewrite (proj2 (Z.eqb_neq c 10)) by (intros ->; apply H; by constructor).
  rewrite IH; [done|]. intros X. apply H. by constructor.
Qed.

Lemma strip_cr_snoc l : strip_cr (l ++ [13]) = l.
Proof. unfold strip_cr. rewrite last_snoc, length_app. cbn [length]. by rewrite Nat.add_sub, take_app_length. Qed.

(** ** Marshalled header pairs *)

(** The format of [deserialize_header_pairs], as its comment gives it. *)
Definition size_entry (h : list Z * list Z) : list Z := le32 (zlen h.1) ++ le32 (zlen h.2).
Definition pair_bytes (h : list Z * list Z) : list Z := h.1 ++ [0] ++ h.2 ++ [0].

Definition marshal_pairs (hs : HeaderPairs) : list Z :=
  le32 (zlen hs) ++ mjoin (size_entry <$> hs) ++ mjoin (pair_bytes <$> hs).

Definition small_pair (h : list Z * list Z) : Prop := zlen h.1 + 1 < 2 ^ 32 /\ zlen h.2 + 1 < 2 ^ 32.

Lemma mjoin_cons {A} (x : list A) xs : mjoin (x :: xs) = x ++ mjoin xs.
Proof. reflexivity. Qed.

Lemma zlen_elem_join {A} (x : list A) xs : x ∈ xs -> zlen x <= zlen (mjoin xs).
Proof. intros (a & b & ->)%list_elem_of_split. rewrite join_app, mjoin_cons, !zlen_app. pose proof (zlen_nonneg (mjoin a)). pose proof (zlen_nonneg (mjoin b)). lia. Qed.

Lemma zlen_size_entries hs : zlen (mjoin (size_entry <$> hs)) = 8 * zlen hs.
Proof.
  induction hs as [|h hs IH]; [done|]. rewrite fmap_cons, mjoin_cons. unfold size_entry at 1.
  rewrite !zlen_app, !zlen_le32, zlen_cons, IH. lia.
Qed.

Lemma load_prefix {A} (d m l : list A) off n : d `prefix_of` m -> load d off n = Some l -> load m off n = Some l.
Proof.
  intros [r ->] (H1 & H2 & H3 & ->)%load_inv. pose proof (zlen_nonneg r).
  rewrite load_Some by (rewrite ?zlen_app; lia). by rewrite slice_app_l by lia.
Qed.

Lemma load_u32_range data p v : bytes data -> load_u32 data p = Some v -> 0 <= v < 2 ^ 32.
Proof.
  intros Hb H. unfold load_u32 in H. destruct (load data p 4) as [l|] eqn:E; [|done]. injection H as <-.
  pose proof (load_zlen _ _ _ _ E) as L. apply load_bytes in E; [|done]. apply le_val_bound in E. rewrite L in E. exact E.
Qed.

Lemma load_u32_Some data p : 0 <= p -> p + 4 <= zlen data -> exists v, load_u32 data p = Some v.
Proof. intros. unfold load_u32. rewrite load_Some by lia. eauto. Qed.

(** The size table is in range when the check before it says so. *)
Lemma read_sizes_total n p data : bytes data -> 0 <= p -> p + 8 * Z.of_nat n <= zlen data ->
  exists sizes, read_sizes n p data = Some sizes /\ Forall (fun '(k, v) => 0 <= k < 2 ^ 32 /\ 0 <= v < 2 ^ 32) sizes.
Proof.
  intros Hb. revert p. induction n as [|n IH]; intros p Hp H; cbn [read_sizes]; [eauto|].
  destruct (load_u32_Some data p) as [k E1]; [lia..|]. destruct (load_u32_Some data (p + 4)) as [v E2]; [lia..|].
  destruct (IH (p + 8)) as (sizes & E3 & F); [lia..|]. rewrite E1, E2, E3. cbn. eexists. split; [done|].
  constructor; [|done]. split; eapply load_u32_range; eauto.
Qed.

(** Every read of the pairs is in range, and a pair is added or the loop ends. *)
Lemma read_pairs_total sizes p data out :
  Forall (fun '(k, v) => 0 <= k < 2 ^ 32 /\ 0 <= v < 2 ^ 32) sizes -> 0 <= p ->
  exists more, read_pairs sizes p data out = Some (out ++ more).
Proof.
  intros F. revert p out. induction F as [|[k v] sizes [Hk Hv] F IH]; intros p out Hp; cbn [read_pairs].
  { exists []. by rewrite app_nil_r. }
  destruct (Z.ltb_spec (zlen data) (p + k + 1)). { exists []. by rewrite app_nil_r. }
  rewrite (load_Some data p k) by lia. cbn [mbind option_bind].
  assert (0 <= u32 (k + 1) <= k + 1) as K by (unfold u32; pose proof (Z.mod_pos_bound (k + 1) (2 ^ 32)); pose proof (Z.mod_le (k + 1) (2 ^ 32)); lia).
  destruct (Z.ltb_spec (zlen data) (p + u32 (k + 1) + v + 1)). { exists []. by rewrite app_nil_r. }
  rewrite load_Some by lia. cbn [mbind option_bind].
  edestruct IH as [more ->]; [|]. { pose proof (u32_range (v + 1)). lia. }
  eexists. by rewrite <- app_assoc.
Qed.

Lemma deserialize_total data : bytes data -> is_Some (deserialize_header_pairs data).
Proof.
  intros Hb. unfold deserialize_header_pairs. destruct (Z.ltb_spec (zlen data) 4); [eauto|].
  destruct (load_u32_Some data 0) as [n E]; [lia..|]. rewrite E. cbn [mbind option_bind].
  pose proof (load_u32_range _ _ _ Hb E). destruct (Z.ltb_spec (zlen data) (4 + n * 8)); [eauto|].
  destruct (read_sizes_total (Z.to_nat n) 4 data) as (sizes & -> & F); [done|lia|lia|]. cbn [mbind option_bind].
  destruct (read_pairs_total sizes (4 + n * 8) data []) as [out ->]; [done|lia|eauto].
Qed.

(** What the size table of a prefix of a message holds. *)
Lemma read_sizes_marshal hs data pre post :
  Forall small_pair hs -> data `prefix_of` pre ++ mjoin (size_entry <$> hs) ++ post ->
  zlen pre + 8 * zlen hs <= zlen data ->
  read_sizes (length hs) (zlen pre) data = Some ((fun h => (zlen h.1, zlen h.2)) <$> hs).
Proof.
  intros F. revert pre. induction F as [|h hs [H1 H2] F IH]; intros pre P L; [done|].
  rewrite fmap_cons, mjoin_cons in P. unfold size_entry at 1 in P. rewrite <- ?app_assoc in P. rewrite zlen_cons in L.
  assert (forall a b c, data `prefix_of` a ++ le32 b ++ c -> 0 <= b < 2 ^ 32 -> zlen a + 4 <= zlen data -> load_u32 data (zlen a) = Some b) as X.
  { intros a b c Q Hb La. unfold load_u32. destruct (load data (zlen a) 4) as [l|] eqn:E.
    - apply (load_prefix _ _ _ _ _ Q) in E. rewrite (load_mid a (le32 b) c) in E by (done || apply zlen_le32).
      injection E as <-. cbn. f_equal. rewrite le_val_le32. by apply u32_id.
    - rewrite load_Some in E; [done|zlen_pos; lia..]. }
  pose proof (zlen_nonneg hs). pose proof (zlen_nonneg h.1). pose proof (zlen_nonneg h.2). cbn [read_sizes length].
  rewrite (X pre (zlen h.1) (le32 (zlen h.2) ++ mjoin (size_entry <$> hs) ++ post)); [|by rewrite <- ?app_assoc|lia|lia]. cbn [mbind option_bind].
  replace (zlen pre + 4) with (zlen (pre ++ le32 (zlen h.1))) by zl.
  rewrite (X _ (zlen h.2) (mjoin (size_entry <$> hs) ++ post)); [|by rewrite <- ?app_assoc|lia|zl]. cbn [mbind option_bind].
  replace (zlen pre + 8) with (zlen (pre ++ size_entry h)) by (unfold size_entry; zl).
  rewrite IH; [done| |unfold size_entry; zl]. unfold size_entry. by rewrite <- ?app_assoc.
Qed.

Lemma read_pairs_marshal hs data pre out :
  Forall small_pair hs -> data `prefix_of` pre ++ mjoin (pair_bytes <$> hs) ->
  exists more, read_pairs ((fun h => (zlen h.1, zlen h.2)) <$> hs) (zlen pre) data out = Some (out ++ more) /\
    more `prefix_of` hs /\ (data = pre ++ mjoin (pair_bytes <$> hs) -> more = hs).
Proof.
  intros F. revert pre out. induction F as [|h hs [H1 H2] F IH]; intros pre out P.
  { exists []. cbn. by rewrite app_nil_r. }
  destruct h as [k v]. cbn [fst snd] in *. set (tl := mjoin (pair_bytes <$> hs)) in *.
  change (mjoin (pair_bytes <$> (k, v) :: hs)) with ((k ++ [0] ++ v ++ [0]) ++ tl) in *. rewrite <- ?app_assoc in P.
  cbn [fmap list_fmap read_pairs fst snd].
  assert (forall a b c, data `prefix_of` a ++ b ++ c -> zlen a + zlen b <= zlen data -> load data (zlen a) (zlen b) = Some b) as X.
  { intros a b c Q L. destruct (load data (zlen a) (zlen b)) as [l|] eqn:E.
    - apply (load_prefix _ _ _ _ _ Q) in E. by rewrite (load_mid a b c) in E.
    - rewrite load_Some in E; [done|zlen_pos; lia..]. }
  pose proof (zlen_nonneg k). pose proof (zlen_nonneg v). pose proof (zlen_nonneg tl).
  destruct (Z.ltb_spec (zlen data) (zlen pre + zlen k + 1)) as [L|L].
  { exists []. rewrite app_nil_r. repeat split; [by eexists|]. intros ->. zl. }
  rewrite (X pre k ([0] ++ v ++ [0] ++ tl)); [|by rewrite <- ?app_assoc|lia]. cbn [mbind option_bind].
  rewrite !u32_id by lia.
  replace (zlen pre + (zlen k + 1)) with (zlen (pre ++ k ++ [0])) by zl.
  destruct (Z.ltb_spec (zlen data) (zlen (pre ++ k ++ [0]) + zlen v + 1)) as [L2|L2].
  { exists []. rewrite app_nil_r. repeat split; [by eexists|]. intros ->. zl. }
  rewrite (X (pre ++ k ++ [0]) v ([0] ++ tl)); [|by rewrite <- ?app_assoc|lia]. cbn [mbind option_bind].
  replace (zlen (pre ++ k ++ [0]) + (zlen v + 1)) with (zlen (pre ++ (k ++ [0] ++ v ++ [0]))) by zl.
  destruct (IH (pre ++ k ++ [0] ++ v ++ [0]) (out ++ [(k, v)])) as (more & -> & [r Hm] & Hall); [by rewrite <- ?app_assoc|].
  exists ((k, v) :: more). rewrite <- app_assoc. repeat split.
  - exists r. by rewrite Hm.
  - intros E. rewrite Hall; [done|]. by rewrite E, <- ?app_assoc.
Qed.

(** Header pairs that a module marshals are read back.  Whatever bytes the module passes,
    [deserialize_header_pairs] reads nothing outside of them; of a message cut anywhere it
    returns a prefix of the pairs, and of the whole message exactly the pairs. *)
Theorem header_pairs_roundtrip (data : list Z) :
  bytes data ->
  exists out, deserialize_header_pairs data = Some out /\
    forall hs, Forall small_pair hs -> zlen hs < 2 ^ 32 -> data `prefix_of` marshal_pairs hs ->
      out `prefix_of` hs /\ (data = marshal_pairs hs -> out = hs).
Proof.
  intros Hb. unfold deserialize_header_pairs.
  destruct (Z.ltb_spec (zlen data) 4) as [L|L].
  { exists []. split; [done|]. intros hs _ _ _. split; [by eexists|]. intros ->. exfalso. unfold marshal_pairs in L. zl. }
  destruct (load_u32_Some data 0) as [n E]; [lia..|]. rewrite E. cbn [mbind option_bind].
  pose proof (load_u32_range _ _ _ Hb E) as Hn.
  assert (forall hs, zlen hs < 2 ^ 32 -> data `prefix_of` marshal_pairs hs -> n = zlen hs) as N.
  { intros hs Hs P. unfold load_u32 in E. destruct (load data 0 4) as [l|] eqn:El; [|done]. injection E as <-.
    apply (load_prefix _ _ _ _ _ P) in El. change (marshal_pairs hs) with ([] ++ marshal_pairs hs) in El. unfold marshal_pairs in El.
    rewrite (load_mid [] (le32 (zlen hs)) _ 0 4) in El by (done || apply zlen_le32). injection El as <-.
    rewrite le_val_le32. apply u32_id. zl. }
  destruct (Z.ltb_spec (zlen data) (4 + n * 8)) as [L2|L2].
  { exists []. split; [done|]. intros hs _ Hs P. split; [by eexists|]. intros ->. exfalso. rewrite (N hs Hs P) in L2.
    unfold marshal_pairs in L2. rewrite !zlen_app, zlen_size_entries, zlen_le32 in L2. zl. }
  destruct (read_sizes_total (Z.to_nat n) 4 data) as (sizes & Es & F); [done|lia|lia|]. rewrite Es. cbn [mbind option_bind].
  destruct (read_pairs_total sizes (4 + n * 8) data []) as [out Eo]; [done|lia|]. exists out. split; [exact Eo|].
  intros hs Fh Hs P. pose proof (N hs Hs P) as ->. clear N.
  replace (Z.to_nat (zlen hs)) with (length hs) in Es by (unfold zlen; lia). unfold marshal_pairs in *.
  change 4 with (zlen (le32 (zlen hs))) in Es. rewrite (read_sizes_marshal hs data (le32 (zlen hs)) (mjoin (pair_bytes <$> hs))) in Es;
    [|done|done|rewrite zlen_le32; lia]. injection Es as <-.
  destruct (read_pairs_marshal hs data (le32 (zlen hs) ++ mjoin (size_entry <$> hs)) []) as (more & Em & Pm & Am);
    [done|by rewrite <- app_assoc|].
  rewrite zlen_app, zlen_size_entries, zlen_le32 in Em. replace (4 + 8 * zlen hs) with (4 + zlen hs * 8) in Em by lia.
  rewrite Em in Eo. injection Eo as <-. split; [done|]. intros H. apply Am. by rewrite <- app_assoc.
Qed.

Lemma header_pairs_roundtrip_witness :
  let hs := [(str "a", str "bc"); ([], str "d")] in
  deserialize_header_pairs (marshal_pairs hs) = Some hs /\
  exists out, deserialize_header_pairs (marshal_pairs hs) = Some out /\ out = hs.
Proof.
  intros hs. split; [vm_compute; reflexivity|].
  destruct (header_pairs_roundtrip (marshal_pairs hs)) as (out & E & H).
  { apply bytes_b_bytes. vm_compute. reflexivity. }
  exists out. split; [exact E|]. apply (H hs); [|reflexivity|by exists []; rewrite app_nil_r|reflexivity].
  repeat constructor.
Defined.

(** ** The head of a request *)

(** A request head as a client writes it. *)
Definition print_head (method path version : list Z) (hs : HeaderPairs) : list Z :=
  method ++ 32 :: path ++ 32 :: version ++ crlf ++ mjoin (header_line <$> hs) ++ crlf.

Definition word (l : list Z) : Prop := l <> [] /\ Forall (fun c => is_space c = false) l.

Definition good_header (h : list Z * list Z) : Prop :=
  (58 ∉ h.1) /\ (10 ∉ h.1) /\ (10 ∉ h.2) /\ match h.2 with [] => True | c :: _ => is_blank c = false end.

(** The length that a list of headers announces. *)
Definition announced_length (hs : HeaderPairs) : Z :=
  default 0 (first_some (fun h =>
    if header_name_eq h.1 (str "Content-Length") then
      match span is_digit h.2 with ([], _) => None | (ds, _) => Some (default 0 (stoull ds)) end
    else None) hs).

Lemma token_word w l : word w -> match l with [] => True | c :: _ => is_space c = true end -> token (w ++ l) = (w, l).
Proof.
  intros [Hn Hw] Hl. unfold token. assert (skip_space (w ++ l) = w ++ l) as ->.
  { destruct w as [|c w]; [done|]. inversion Hw as [|? ? Hc _]; subst. cbn [app skip_space]. by rewrite Hc. }
  apply span_app.
  - eapply Forall_impl; [exact Hw|]. intros c ->. done.
  - destruct l; [done|]. by rewrite Hl.
Qed.

Lemma token_space w l : word w -> match l with [] => True | c :: _ => is_space c = true end -> token (32 :: w ++ l) = (w, l).
Proof. exact (token_word w l). Qed.

Lemma word_no c w : word w -> is_space c = true -> c ∉ w.
Proof. intros [_ Hw] Hc X. rewrite Forall_forall in Hw. apply Hw in X. congruence. Qed.

Lemma lines_headers hs l : Forall good_header hs ->
  lines (mjoin (header_line <$> hs) ++ l) = ((fun h => h.1 ++ 58 :: 32 :: h.2 ++ [13]) <$> hs) ++ lines l.
Proof.
  induction 1 as [|[k v] hs (_ & Hk & Hv & _) F IH]; [done|]. cbn [fmap list_fmap].
  rewrite mjoin_cons. unfold header_line at 1. cbn [fst snd] in *. unfold crlf.
  replace (((k ++ str ": " ++ v ++ [13; 10]) ++ mjoin (header_line <$> hs)) ++ l)
    with ((k ++ 58 :: 32 :: v ++ [13]) ++ 10 :: mjoin (header_line <$> hs) ++ l).
  - rewrite lines_app, IH; [done|]. rewrite elem_of_app, !elem_of_cons, elem_of_app, elem_of_cons. intros [?|[?|[?|[?|[?|X]]]]]; try done. by inversion X.
  - change (str ": ") with [58; 32]. rewrite <- !app_assoc. cbn. by rewrite <- !app_assoc.
Qed.

Lemma parse_header_line h : good_header h -> parse_header (h.1 ++ 58 :: 32 :: h.2 ++ [13]) = Some h.
Proof.
  destruct h as [k v]. intros (Hk & _ & _ & Hv). cbn [fst snd] in *. unfold parse_header.
  rewrite span_app; [|by apply not_elem_Forall|done].
  change (32 :: v ++ [13]) with ([32] ++ v ++ [13]). rewrite span_app.
  - cbn [snd]. by rewrite strip_cr_snoc.
  - by repeat constructor.
  - by destruct v.
Qed.

Lemma parse_headers_lines hs : Forall good_header hs ->
  parse_headers (((fun h => h.1 ++ 58 :: 32 :: h.2 ++ [13]) <$> hs) ++ [[13]]) = hs.
Proof.
  induction 1 as [|h hs Hh F IH]; [done|]. cbn [fmap list_fmap app parse_headers].
  assert (forall l : list Z, h.1 ++ 58 :: 32 :: l <> [] /\ h.1 ++ 58 :: 32 :: l <> [13]) as X.
  { intros l. split; destruct h as [[|c [|]] v]; done. }
  rewrite !bool_decide_eq_false_2 by apply X. cbn [orb]. rewrite parse_header_line by done. cbn. f_equal. exact IH.
Qed.

(** A line counts as a [Content-Length] header exactly when its name, the part before the
    colon, is one. *)
Lemma content_length_line_header h : good_header h ->
  content_length_line (h.1 ++ 58 :: 32 :: h.2 ++ [13]) =
  if header_name_eq h.1 (str "Content-Length") then
    match span is_digit h.2 with ([], _) => None | (ds, _) => Some (default 0 (stoull ds)) end
  else None.
Proof.
  destruct h as [k v]. intros (Hk & _ & _ & Hv). cbn [fst snd] in *. unfold content_length_line.
  change (k ++ 58 :: 32 :: v ++ [13]) with (k ++ [58; 32] ++ v ++ [13]). rewrite (app_assoc [58; 32]), app_assoc, strip_cr_snoc.
  destruct (header_name_eq k (str "Content-Length")) eqn:E.
  - destruct (content_length_name _ E) as (Lk & _ & _).
    assert ((15 <? zlen (k ++ [58; 32] ++ v)) = true) as ->. { apply Z.ltb_lt. unfold zlen. rewrite !length_app, Lk. cbn [length]. lia. }
    rewrite bool_decide_eq_true_2 by (rewrite lookup_app_r by lia; by rewrite Lk). cbn [andb].
    rewrite take_app_le, take_ge, E by lia. rewrite drop_app_ge, Lk by lia. cbn [Nat.sub drop app].
    change (32 :: v) with ([32] ++ v). rewrite span_app; [done|by repeat constructor|by destruct v].
  - destruct (15 <? zlen (k ++ [58; 32] ++ v)); [|done]. cbn [andb]. destruct (bool_decide_reflect ((k ++ [58; 32] ++ v) !! 14%nat = Some 58)) as [H|]; [|done].
    destruct (header_name_eq (take 14 (k ++ [58; 32] ++ v)) (str "Content-Length")) eqn:E2; [|done].
    exfalso. destruct (content_length_name _ E2) as (_ & _ & N). destruct (Nat.lt_trichotomy (length k) 14) as [L|[L|L]].
    + apply N. rewrite take_app_ge by lia. apply elem_of_app. right. destruct (14 - length k)%nat eqn:D; [lia|]. by left.
    + rewrite take_app_le, take_ge in E2 by lia. congruence.
    + rewrite lookup_app_l in H by lia. by apply list_elem_of_lookup_2, Hk in H.
Qed.

Lemma content_length_first_line method l : 58 ∉ method -> content_length_line (method ++ 32 :: l) = None.
Proof.
  intros Hm. unfold content_length_line.
  assert (exists l', strip_cr (method ++ 32 :: l) = method ++ 32 :: l') as [l' ->].
  { unfold strip_cr. destruct (last (method ++ 32 :: l)) as [z|] eqn:E; [|by exists l].
    destruct (decide (z = 13)) as [->|Hz]; [|exists l; by repeat case_match; simplify_eq].
    destruct l as [|c l _] using rev_ind; [by rewrite last_snoc in E|].
    exists l. rewrite app_comm_cons, app_assoc, length_app. cbn [length]. by rewrite Nat.add_sub, take_app_length. }
  destruct (_ && _) eqn:E; [|done]. apply andb_true_iff in E as [_ E%bool_decide_eq_true].
  destruct (header_name_eq _ _) eqn:E2; [|done]. exfalso. destruct (content_length_name _ E2) as (_ & N & _).
  destruct (Nat.lt_ge_cases (length method) 14) as [L|L].
  - apply N. rewrite take_app_ge by lia. apply elem_of_app. right. destruct (14 - length method)%nat eqn:D; [lia|]. by left.
  - destruct (Nat.eq_dec (length method) 14%nat) as [L2|L2]; [by rewrite lookup_app_r, L2 in E by lia|].
    rewrite lookup_app_l in E by lia. by apply list_elem_of_lookup_2, Hm in E.
Qed.

(** The two readers of a request head agree with its writer and with each other.  Of a
    head that is written with a method, a path, a version and headers, [parse_request]
    reads exactly these; and the length that [extract_content_length] finds in the raw
    bytes, case and blanks aside, is the one of the first header that announces one. *)
Theorem parse_request_head (method path version : list Z) (hs : HeaderPairs) :
  word method -> (58 ∉ method) -> word path -> word version -> Forall good_header hs ->
  parse_request (print_head method path version hs) =
    Some (mkHttpData method path version hs [] [] [] false 0 [] []) /\
  extract_content_length (print_head method path version hs) = announced_length hs.
Proof.
  intros Hm Hc Hp Hv F. unfold print_head. set (rest := mjoin (header_line <$> hs) ++ crlf). split.
  - unfold parse_request. rewrite token_word by done. rewrite token_space by done. rewrite token_space by done.
    rewrite !bool_decide_eq_false_2 by apply Hp || apply Hm. cbn [orb].
    change (crlf ++ rest) with ([13] ++ 10 :: rest). unfold after_line. rewrite span_app by (done || by repeat constructor). cbn [snd].
    unfold rest. rewrite (lines_headers hs crlf F). change (lines crlf) with [[13]]. by rewrite parse_headers_lines.
  - unfold extract_content_length, announced_length. f_equal.
    replace (method ++ 32 :: path ++ 32 :: version ++ crlf ++ rest)
      with ((method ++ 32 :: path ++ 32 :: version ++ [13]) ++ 10 :: rest) by (rewrite <- app_assoc; cbn; by rewrite <- app_assoc; cbn; rewrite <- app_assoc).
    rewrite lines_app.
    2: { rewrite elem_of_app, elem_of_cons, elem_of_app, elem_of_cons, elem_of_app.
         intros [X|[X|[X|[X|[X|X%list_elem_of_singleton]]]]]; try done; by apply word_no in X. }
    cbn [first_some]. rewrite content_length_first_line by done. unfold rest. rewrite (lines_headers hs crlf F).
    clear -F. induction F as [|h hs Hh F IH]; [reflexivity|]. cbn [fmap list_fmap app first_some].
    rewrite content_length_line_header by done. destruct (if header_name_eq _ _ then _ else _); [done|exact IH].
Qed.

Lemma parse_request_head_witness :
  let hs := [(str "Host", str "a"); (str "content-LENGTH", str "42")] in
  parse_request (print_head (str "POST") (str "/x") (str "HTTP/1.1") hs) =
    Some (mkHttpData (str "POST") (str "/x") (str "HTTP/1.1") hs [] [] [] false 0 [] []) /\
  extract_content_length (print_head (str "POST") (str "/x") (str "HTTP/1.1") hs) = 42.
Proof.
  intros hs. change 42 with (announced_length hs).
  assert (forall s, bool_decide (s <> [] /\ Forall (fun c => is_space c = false) s) = true -> word s) as W.
  { intros s H. exact (bool_decide_eq_true_1 _ H). }
  apply (parse_request_head (str "POST") (str "/x") (str "HTTP/1.1") hs).
  - apply W. vm_compute. reflexivity.
  - apply (bool_decide_unpack _). vm_compute. exact I.
  - apply W. vm_compute. reflexivity.
  - apply W. vm_compute. reflexivity.
  - repeat constructor; try reflexivity; apply (bool_decide_unpack _); vm_compute; exact I.
Defined.
