(* ===== verification/Sinks.v ===== *)
(** * Response sinks and streaming responses

    The interface [ResponseSink] of response_sink.h as a type class with its laws, its
    implementation for HTTP (http_response_sink.h), and its client, the streaming half of
    [LsWasmContext] (wasm_module_manager.h) with the foreign functions of main.cpp by
    which a module drives it. *)

From S2P Require Export HttpUtils.

Open Scope Z_scope.

(** ** The interface *)

(** Each operation gives its [bool] and the sink behind it; [None] is a call that does not
    return. *)
Class ResponseSink (S : Type) := {
  sendHeaders : Z -> HeaderPairs -> bool -> S -> option (bool * S);
  writeBody : list Z -> S -> option (bool * S);
  finishBody : S -> option (bool * S);
  sink_hasError : S -> bool
}.

(** What a sink has been given: nothing; headers and a part of the body; a whole response;
    or something it has refused. *)
Inductive sink_view :=
| Unused
| Opened (status : Z) (headers : HeaderPairs) (body : list Z)
| Ended (status : Z) (headers : HeaderPairs) (body : list Z)
| Broken.

(** The lifecycle of response_sink.h as laws: headers once, body any number of times, the
    end once; and a sink that has refused a call never completes a response.
    [fits] are the headers a sink is made for. *)
Class SinkLaws (S : Type) `{ResponseSink S} := {
  shows : S -> sink_view -> Prop;
  fits : HeaderPairs -> Prop;
  law_headers c hs s ok s' : fits hs -> shows s Unused -> sendHeaders c hs true s = Some (ok, s') ->
    shows s' (if ok then Opened c hs [] else Broken);
  law_body d c hs b s ok s' : zlen d < 2 ^ 63 -> shows s (Opened c hs b) -> writeBody d s = Some (ok, s') ->
    shows s' (if ok then Opened c hs (b ++ d) else Broken);
  law_finish c hs b s ok s' : shows s (Opened c hs b) -> finishBody s = Some (ok, s') ->
    shows s' (if ok then Ended c hs b else Broken);
  law_broken_headers c hs s ok s' : shows s Broken -> sendHeaders c hs true s = Some (ok, s') -> shows s' Broken;
  law_broken_body d s ok s' : shows s Broken -> writeBody d s = Some (ok, s') -> ok = false /\ shows s' Broken;
  law_broken_finish s ok s' : shows s Broken -> finishBody s = Some (ok, s') -> ok = false /\ shows s' Broken
}.

(** ** The HTTP sink *)

(** [conn_] is whether the pointer is set.  [writeData] of the connection blocks until the
    event loop has taken what was queued before, and drops the data of a failed
    connection; the sink does not see either, so the model records the calls. *)
Record HttpResponseSink := mkHttpSink {
  conn_ : bool;
  streaming_ : bool;
  error_ : bool;
  written : list (list Z)
}.

Definition new_HttpResponseSink : HttpResponseSink := mkHttpSink true false false [].

Definition push_write (d : list Z) (s : HttpResponseSink) : HttpResponseSink :=
  mkHttpSink (conn_ s) (streaming_ s) (error_ s) (written s ++ [d]).
Definition set_error (s : HttpResponseSink) : HttpResponseSink := mkHttpSink (conn_ s) (streaming_ s) true (written s).
Definition set_streaming (b : bool) (s : HttpResponseSink) : HttpResponseSink := mkHttpSink (conn_ s) b (error_ s) (written s).

(** The loop over the headers of a streaming response; [None]: refused. *)
Fixpoint normalize (headers : HeaderPairs) (saw_chunked : bool) (normalized : HeaderPairs) : option HeaderPairs :=
  match headers with
  | [] => Some (if saw_chunked then normalized else normalized ++ [(str "Transfer-Encoding", str "chunked")])
  | hdr :: headers =>
      if header_name_eq hdr.1 (str "Content-Length") then normalize headers saw_chunked normalized
      else if header_name_eq hdr.1 (str "Transfer-Encoding") then
        if bool_decide (fmap tolower hdr.2 = str "chunked") then normalize headers true (normalized ++ [hdr])
        else None
      else normalize headers saw_chunked (normalized ++ [hdr])
  end.

#[global] Arguments normalize : simpl never.
#[global] Arguments serialize_headers : simpl never.

Definition http_sendHeaders (status_code : Z) (headers : HeaderPairs) (streaming : bool) (s : HttpResponseSink) : bool * HttpResponseSink :=
  if negb (conn_ s) then (false, set_error s)
  else
    let s := set_streaming streaming s in
    if streaming then
      match normalize headers false [] with
      | None => (false, set_error s)
      | Some normalized => (true, push_write (serialize_headers status_code normalized) s)
      end
    else (true, push_write (serialize_headers status_code headers) s).

(** A chunk of the chunked transfer encoding. *)
Definition chunk (data : list Z) : list Z := hex (zlen data) ++ crlf ++ data ++ crlf.
Definition last_chunk : list Z := str "0" ++ crlf ++ crlf.

#[global] Arguments chunk : simpl never.
#[global] Arguments last_chunk : simpl never.

Definition http_writeBody (data : list Z) (s : HttpResponseSink) : bool * HttpResponseSink :=
  if negb (conn_ s) || error_ s then (false, s)
  else if bool_decide (data = []) then (true, s)
  else (true, push_write (if streaming_ s then chunk data else data) s).

Definition http_finishBody (s : HttpResponseSink) : bool * HttpResponseSink :=
  if negb (conn_ s) || error_ s then (false, s)
  else (true, if streaming_ s then push_write last_chunk s else s).

#[export] Instance http_sink : ResponseSink HttpResponseSink := {
  sendHeaders c hs b s := Some (http_sendHeaders c hs b s);
  writeBody d s := Some (http_writeBody d s);
  finishBody s := Some (http_finishBody s);
  sink_hasError := error_
}.

(** ** Streaming responses *)

Inductive StreamingResponseState := Idle | HeadersSent | StreamFinished.

(** The results of the proxy-wasm ABI that are used here. *)
Inductive WasmResult := Ok | BadArgument | InternalFailure | NotFound | Unimplemented.

Definition is_ok (r : WasmResult) : bool := match r with Ok => true | _ => false end.

Section Streaming.
Context {S : Type} `{ResponseSink S}.

(** [LsWasmContext]: the sink, if one was injected, and the state of the stream. *)
Record stream_ctx := mkStream { sink_ : option S; streaming_state_ : StreamingResponseState }.

Definition setResponseSink (s : option S) (c : stream_ctx) : stream_ctx := mkStream s (streaming_state_ c).
Definition resetStreamingState (c : stream_ctx) : stream_ctx := mkStream None Idle.
Definition hasStreamingResponse (c : stream_ctx) : bool := match streaming_state_ c with Idle => false | _ => true end.
Definition isStreamingFinished (c : stream_ctx) : bool := match streaming_state_ c with StreamFinished => true | _ => false end.

Definition streamingSendHeaders (status_code : Z) (headers : HeaderPairs) (c : stream_ctx) : option (WasmResult * stream_ctx) :=
  match sink_ c with
  | None => Some (InternalFailure, c)
  | Some s =>
      match streaming_state_ c with
      | Idle =>
          '(ok, s) ← sendHeaders status_code headers true s;
          Some (if ok : bool then (Ok, mkStream (Some s) HeadersSent) else (InternalFailure, mkStream (Some s) Idle))
      | _ => Some (BadArgument, c)
      end
  end.

Definition streamingWriteChunk (data : list Z) (c : stream_ctx) : option (WasmResult * stream_ctx) :=
  match sink_ c with
  | None => Some (InternalFailure, c)
  | Some s =>
      match streaming_state_ c with
      | HeadersSent =>
          if bool_decide (data = []) then Some (Ok, c)
          else
            '(ok, s) ← writeBody data s;
            Some (if ok : bool then Ok else InternalFailure, mkStream (Some s) HeadersSent)
      | _ => Some (BadArgument, c)
      end
  end.

Definition streamingFinish (c : stream_ctx) : option (WasmResult * stream_ctx) :=
  match sink_ c with
  | None => Some (InternalFailure, c)
  | Some s =>
      match streaming_state_ c with
      | HeadersSent =>
          '(ok, s) ← finishBody s;
          Some (if ok : bool then (Ok, mkStream (Some s) StreamFinished) else (InternalFailure, mkStream (Some s) HeadersSent))
      | _ => Some (BadArgument, c)
      end
  end.

(** The foreign functions [lswasm_send_response_headers], [lswasm_write_response_chunk] and
    [lswasm_finish_response], by their argument. *)
Inductive foreign_call := FSendHeaders (argument : list Z) | FWriteChunk (argument : list Z) | FFinish.

Definition send_response_headers (argument : list Z) (c : stream_ctx) : option (WasmResult * stream_ctx) :=
  if zlen argument <? 4 then Some (BadArgument, c)
  else
    status_code ← load_u32 argument 0;
    headers ← deserialize_header_pairs (drop 4 argument);
    streamingSendHeaders status_code headers c.

Definition foreign (call : foreign_call) (c : stream_ctx) : option (WasmResult * stream_ctx) :=
  match call with
  | FSendHeaders argument => send_response_headers argument c
  | FWriteChunk argument => streamingWriteChunk argument c
  | FFinish => streamingFinish c
  end.

(** The calls of a module, with their results. *)
Fixpoint foreign_run (calls : list foreign_call) (c : stream_ctx) : option (list WasmResult * stream_ctx) :=
  match calls with
  | [] => Some ([], c)
  | call :: calls =>
      '(r, c) ← foreign call c;
      '(rs, c) ← foreign_run calls c;
      Some (r :: rs, c)
  end.
End Streaming.

Arguments stream_ctx : clear implicits.
Arguments mkStream {S} _ _.

(** The calls that were answered with [Ok]: the heads, and the body. *)
Definition head_of (argument : list Z) : option (Z * HeaderPairs) :=
  status_code ← load_u32 argument 0;
  headers ← deserialize_header_pairs (drop 4 argument);
  Some (status_code, headers).

Definition accepted_heads (rs : list (foreign_call * WasmResult)) : list (Z * HeaderPairs) :=
  omap (fun '(call, r) => match call, r with FSendHeaders a, Ok => head_of a | _, _ => None end) rs.

Definition accepted_body (rs : list (foreign_call * WasmResult)) : list Z :=
  mjoin ((fun '(call, r) => match call, r with FWriteChunk d, Ok => d | _, _ => [] end) <$> rs).
