(* ===== verification/SinksSpec.v ===== *)
(** * What a streaming response sends

    The client against the interface: a module's calls, in any order, give the sink one
    head, the accepted body, one end.  The HTTP sink against the interface, and what its
    bytes decode to behind the event loop. *)

From S2P Require Export Sinks.
From S2P Require Import HttpUtilsSpec ConnectionIO.

Open Scope Z_scope.

(** ** The client *)

Section Client.
Context {S : Type} `{SinkLaws S}.

(** What the sink shows of a stream whose accepted heads and body are known.  A broken
    sink may be offered headers again, and take them, but never a whole response. *)
Definition stream_inv (c : stream_ctx S) (heads : list (Z * HeaderPairs)) (body : list Z) : Prop :=
  exists s, sink_ c = Some s /\
  match streaming_state_ c with
  | Idle => heads = [] /\ body = [] /\ (shows s Unused \/ shows s Broken)
  | HeadersSent => (exists n hs, heads = [(n, hs)] /\ shows s (Opened n hs body)) \/ shows s Broken
  | StreamFinished => exists n hs, heads = [(n, hs)] /\ shows s (Ended n hs body)
  end.

(** The calls a sink is made for: a C++ string has fewer than 2^63 bytes. *)
Definition fits_call (call : foreign_call) : Prop :=
  match call with
  | FSendHeaders a => forall n hs, head_of a = Some (n, hs) -> fits hs
  | FWriteChunk d => zlen d < 2 ^ 63
  | FFinish => True
  end.

Lemma stream_inv_step call c r c' heads body :
  fits_call call -> stream_inv c heads body -> foreign call c = Some (r, c') ->
  stream_inv c' (heads ++ accepted_heads [(call, r)]) (body ++ accepted_body [(call, r)]).
Proof.
  intros Hs (s & Es & I) E. destruct c as [sk state]. cbn in *. subst sk.
  assert (forall r0 heads' body', r0 <> Ok -> Some (r0, mkStream (Some s) state) = Some (r, c') ->
    heads' = heads ++ accepted_heads [(call, r)] -> body' = body ++ accepted_body [(call, r)] -> stream_inv c' heads' body') as Same.
  { intros r0 ? ? Hr [= <- <-] -> ->. unfold accepted_heads, accepted_body. cbn.
    assert (match call with FSendHeaders a => match r0 with Ok => head_of a | _ => None end | _ => None end = None) as ->.
    { by destruct call, r0. }
    assert (match call with FWriteChunk d => match r0 with Ok => d | _ => [] end | _ => [] end = []) as -> by (by destruct call, r0).
    cbn. rewrite !app_nil_r. by exists s. }
  assert (forall r0, Some (r0, mkStream (Some s) state) = Some (r, c') -> r0 <> Ok ->
    stream_inv c' (heads ++ accepted_heads [(call, r)]) (body ++ accepted_body [(call, r)])) as Refused by eauto. clear Same.
  destruct call as [a|d|]; cbn in E.
  - unfold send_response_headers in E. destruct (zlen a <? 4); [by apply (Refused _ E)|].
    destruct (load_u32 a 0) as [n|] eqn:E1; [|done]. cbn in E.
    destruct (deserialize_header_pairs (drop 4 a)) as [hs|] eqn:E2; [|done]. cbn in E.
    unfold streamingSendHeaders in E. cbn in E. destruct state; [|by apply (Refused _ E)..].
    destruct (sendHeaders n hs true s) as [[ok s']|] eqn:E3; [|done]. cbn in E. destruct I as (-> & -> & I).
    unfold accepted_heads, accepted_body. destruct ok; injection E as <- <-; cbn.
    + exists s'. split; [done|]. cbn. unfold head_of. rewrite E1. cbn. rewrite E2. cbn. destruct I as [I|I].
      * left. exists n, hs. split; [done|]. apply (law_headers _ _ _ _ _) in E3; try done. apply (Hs n hs). unfold head_of. rewrite E1. cbn. by rewrite E2.
      * right. by eapply law_broken_headers.
    + exists s'. split; [done|]. repeat split. right. destruct I as [I|I]; [|by eapply law_broken_headers].
      apply (law_headers _ _ _ _ _) in E3; try done. apply (Hs n hs). unfold head_of. rewrite E1. cbn. by rewrite E2.
  - unfold streamingWriteChunk in E. cbn in E. destruct state; [by apply (Refused _ E)| |by apply (Refused _ E)].
    case_bool_decide as Hd; [injection E as <- <-; subst d; unfold accepted_body; cbn; rewrite !app_nil_r; by exists s|].
    destruct (writeBody d s) as [[ok s']|] eqn:E3; [|done]. cbn in E. injection E as <- <-.
    exists s'. split; [done|]. cbn. unfold accepted_heads, accepted_body. cbn. rewrite !app_nil_r.
    destruct I as [(n & hs & -> & I)|I]; [|right; by apply (law_broken_body _ _ _ _ I) in E3 as [_ ?]].
    apply (law_body _ _ _ _ _ _ _ Hs I) in E3. destruct ok; [left; by exists n, hs|by right].
  - unfold streamingFinish in E. cbn in E. destruct state; [by apply (Refused _ E)| |by apply (Refused _ E)].
    destruct (finishBody s) as [[ok s']|] eqn:E3; [|done]. cbn in E. unfold accepted_heads, accepted_body. cbn. rewrite !app_nil_r.
    destruct I as [(n & hs & -> & I)|I].
    + apply (law_finish _ _ _ _ _ _ I) in E3. destruct ok; injection E as <- <-; exists s'; (split; [done|]); [by exists n, hs|by right].
    + apply (law_broken_finish _ _ _ I) in E3 as [-> E3]. injection E as <- <-. exists s'. split; [done|]. by right.
Qed.

Lemma accepted_heads_cons x rs : accepted_heads (x :: rs) = accepted_heads [x] ++ accepted_heads rs.
Proof. unfold accepted_heads. cbn. by destruct x as [[] []]; cbn; try destruct (head_of _). Qed.
Lemma accepted_body_cons x rs : accepted_body (x :: rs) = accepted_body [x] ++ accepted_body rs.
Proof. unfold accepted_body. cbn. by rewrite app_nil_r. Qed.

Lemma stream_inv_run calls : forall c rs c' heads body,
  Forall fits_call calls -> stream_inv c heads body -> foreign_run calls c = Some (rs, c') ->
  stream_inv c' (heads ++ accepted_heads (zip calls rs)) (body ++ accepted_body (zip calls rs)).
Proof.
  induction calls as [|call calls IH]; intros c rs c' heads body F I E; cbn in E.
  - injection E as <- <-. unfold accepted_heads, accepted_body. cbn. by rewrite !app_nil_r.
  - apply Forall_cons in F as [F1 F]. destruct (foreign call c) as [[r c1]|] eqn:E1; [|done]. cbn in E.
    destruct (foreign_run calls c1) as [[rs1 c2]|] eqn:E2; [|done]. cbn in E. injection E as <- <-.
    change (zip (call :: calls) (r :: rs1)) with ((call, r) :: zip calls rs1).
    rewrite accepted_heads_cons, accepted_body_cons, !app_assoc. eapply IH; [done| |exact E2]. by eapply stream_inv_step.
Qed.
End Client.

(** ** The HTTP sink implements the interface *)

Definition stream_writes (n : Z) (hs : HeaderPairs) (body : list Z) (ws : list (list Z)) : Prop :=
  exists nhs ds, normalize hs false [] = Some nhs /\ ws = serialize_headers n nhs :: (chunk <$> ds) /\
    mjoin ds = body /\ Forall (fun d => d <> [] /\ zlen d < 2 ^ 64) ds.

Definition http_shows (s : HttpResponseSink) (v : sink_view) : Prop :=
  conn_ s = true /\
  match v with
  | Unused => error_ s = false /\ written s = []
  | Opened n hs body => error_ s = false /\ streaming_ s = true /\ stream_writes n hs body (written s)
  | Ended n hs body => error_ s = false /\ exists ws, written s = ws ++ [last_chunk] /\ stream_writes n hs body ws
  | Broken => error_ s = true
  end.

#[export] Program Instance http_sink_laws : SinkLaws HttpResponseSink := {| shows := http_shows; fits _ := True |}.
Next Obligation.
  intros c hs s ok s' _ (Hc & He & Hw) E. cbn in E. unfold http_sendHeaders in E. rewrite Hc in E. cbn in E.
  destruct (normalize hs false []) as [nhs|] eqn:N; injection E as <- <-; split; cbn; try done.
  split; [done|]. split; [done|]. exists nhs, []. rewrite Hw. done.
Qed.
Next Obligation.
  intros d c hs b s ok s' Hd (Hc & He & Hs & nhs & ds & N & W & B & F) E. cbn in E. unfold http_writeBody in E. rewrite Hc, He in E. cbn in E.
  case_bool_decide as X; injection E as <- <-; split; try done; (split; [done|]); (split; [done|]); exists nhs.
  - exists ds. by rewrite X, app_nil_r.
  - exists (ds ++ [d]). cbn. rewrite Hs, W, fmap_app. split; [done|]. split; [done|].
    rewrite join_app, B. cbn. rewrite app_nil_r. split; [done|]. apply Forall_app_2, Forall_singleton; [done|]. split; [done|lia].
Qed.
Next Obligation.
  intros c hs b s ok s' (Hc & He & Hs & W) E. cbn in E. unfold http_finishBody in E. rewrite Hc, He, Hs in E. cbn in E.
  injection E as <- <-. split; [done|]. split; [done|]. by exists (written s).
Qed.
Next Obligation.
  intros c hs s ok s' (Hc & He) E. cbn in E. unfold http_sendHeaders in E. rewrite Hc in E. cbn in E.
  destruct (normalize hs false []); injection E as <- <-; by split.
Qed.
Next Obligation.
  intros d s ok s' (Hc & He) E. cbn in E. unfold http_writeBody in E. rewrite Hc, He in E. cbn in E. injection E as <- <-. by repeat split.
Qed.
Next Obligation.
  intros s ok s' (Hc & He) E. cbn in E. unfold http_finishBody in E. rewrite Hc, He in E. cbn in E. injection E as <- <-. by repeat split.
Qed.

(** The calls over HTTP: only the size of a piece is limited. *)
Definition small_call (call : foreign_call) : Prop := match call with FWriteChunk d => zlen d < 2 ^ 63 | _ => True end.

Lemma small_fits call : small_call call -> fits_call (S := HttpResponseSink) call.
Proof. by destruct call. Qed.

(** ** Decoding what was sent *)

(** A reader of the chunked transfer encoding: the body, and what follows it.  A size line
    holds hexadecimal digits only; [fuel] bounds the number of chunks. *)
Fixpoint dechunk (fuel : nat) (l : list Z) : option (list Z * list Z) :=
  match fuel with
  | O => None
  | S fuel =>
      match span (fun c => bool_decide (is_Some (digit_val c))) l with
      | ((_ :: _) as ds, 13 :: 10 :: l) =>
          let n := from_base 16 ds in
          if n =? 0 then
            match l with 13 :: 10 :: l => Some ([], l) | _ => None end
          else
            d ← load l 0 n;
            match drop (Z.to_nat n) l with
            | 13 :: 10 :: l => '(body, rest) ← dechunk fuel l; Some (d ++ body, rest)
            | _ => None
            end
      | _ => None
      end
  end.

Lemma dechunk_chunk fuel d l : d <> [] -> zlen d < 2 ^ 64 ->
  dechunk (S fuel) (chunk d ++ l) = '(body, rest) ← dechunk fuel l; Some (d ++ body, rest).
Proof.
  intros Hd Hz. assert (0 < zlen d) by (destruct d; [done|zl]).
  unfold chunk, hex, crlf. set (ds := to_base 16 16 (zlen d)). cbn [dechunk].
  replace ((ds ++ [13; 10] ++ d ++ [13; 10]) ++ l) with (ds ++ 13 :: 10 :: d ++ 13 :: 10 :: l)
    by (rewrite <- app_assoc; cbn; by rewrite <- app_assoc).
  rewrite span_app; [| |reflexivity].
  2: { eapply Forall_impl; [apply (to_base_digits 16 16 (zlen d)); lia|]. intros c. by apply bool_decide_eq_true_2. }
  assert (from_base 16 ds = zlen d) as V by (apply from_to_base; [lia|]; change (16 ^ Z.of_nat 16) with (2 ^ 64); lia).
  pose proof (to_base_not_nil 16 15 (zlen d) : ds <> []) as N. clearbody ds. destruct ds as [|x ds]; [done|].
  cbv beta iota zeta. rewrite V, (proj2 (Z.eqb_neq (zlen d) 0)) by lia.
  rewrite load_Some by zl. rewrite slice_app_exact. cbn [mbind option_bind].
  unfold zlen at 1. by rewrite Nat2Z.id, drop_app_length.
Qed.

Lemma dechunk_stream ds : forall fuel l, (length ds < fuel)%nat -> Forall (fun d => d <> [] /\ zlen d < 2 ^ 64) ds ->
  dechunk fuel (mjoin (chunk <$> ds) ++ last_chunk ++ l) = Some (mjoin ds, l).
Proof.
  induction ds as [|d ds IH]; intros [|fuel] l Hf F; try (cbn in Hf; lia); [reflexivity|].
  apply Forall_cons in F as [[Hd Hz] F]. cbn [fmap list_fmap]. rewrite !mjoin_cons, <- app_assoc, dechunk_chunk by done.
  rewrite IH; [done|cbn in Hf; lia|done].
Qed.

Definition dechunk_all (l : list Z) : option (list Z * list Z) := dechunk (S (length l)) l.

Lemma dechunk_all_stream ds : Forall (fun d => d <> [] /\ zlen d < 2 ^ 64) ds ->
  dechunk_all (mjoin (chunk <$> ds) ++ last_chunk) = Some (mjoin ds, []).
Proof.
  intros F. unfold dechunk_all. rewrite <- (app_nil_r last_chunk) at 2. apply dechunk_stream; [|done].
  rewrite length_app. enough (length ds <= length (mjoin (chunk <$> ds)))%nat by lia. clear F.
  induction ds as [|d ds IH]; [done|]. rewrite fmap_cons, mjoin_cons, length_app. cbn [length].
  enough (1 <= length (chunk d))%nat by lia. unfold chunk, crlf. rewrite !length_app. cbn [length]. lia.
Qed.

(** The calls of [writeData] in an interleaving of worker and event loop. *)
Definition worker_writes (ops : list out_op) : list (list Z) :=
  omap (fun op => match op with Write d => Some d | _ => None end) ops.

Lemma out_run_error ops : forall o o', out_run ops o = Some o' -> write_error_ (oc o') = false -> write_error_ (oc o) = false.
Proof.
  induction ops as [|op ops IH]; intros o o' H E; cbn in H; [by injection H as <-|].
  destruct (out_step op o) as [o1|] eqn:E1; [|done]. specialize (IH _ _ H E). destruct op as [d| | |n|]; cbn in E1.
  - unfold writeData in E1. destruct d; [by injection E1 as <-|]. destruct (write_error_ (oc o)) eqn:X; [|done].
    destruct (write_buffer_ (oc o)); cbn in E1; injection E1 as <-; by rewrite <- IH.
  - by injection E1 as <-.
  - by injection E1 as <-.
  - destruct (pendingWriteData (oc o)); injection E1 as <-; [done|]. cbn in IH. unfold advanceWrite in IH. by destruct (_ <=? _) in IH.
  - by injection E1 as <-.
Qed.

(** As long as nothing fails, what the connection queued is what the worker wrote. *)
Lemma out_run_queued ops : forall o o', out_run ops o = Some o' -> write_error_ (oc o') = false ->
  queued o' = queued o ++ mjoin (worker_writes ops).
Proof.
  induction ops as [|op ops IH]; intros o o' H E; cbn in H; [injection H as <-; by rewrite app_nil_r|].
  destruct (out_step op o) as [o1|] eqn:E1; [|done]. rewrite (IH _ _ H E).
  assert (write_error_ (oc o) = false) as X by (apply (out_run_error (op :: ops) o o'); [cbn; by rewrite E1|done]).
  destruct op as [d| | |n|]; cbn in E1.
  - destruct (writeData d (oc o)) as [c1|]; [|done]. cbn in E1. rewrite X in E1. injection E1 as <-. cbn. by rewrite <- app_assoc.
  - by injection E1 as <-.
  - by injection E1 as <-.
  - by destruct (pendingWriteData (oc o)); injection E1 as <-.
  - by injection E1 as <-.
Qed.

Lemma out_start_inv : out_inv out_start.
Proof. split; cbn; try done. by exists []. Qed.

(** When [isFinished] says so without an error, what was sent is what the worker wrote. *)
Lemma out_finished ops o : small_writes ops -> out_run ops out_start = Some o -> write_error_ (oc o) = false ->
  isFinished (oc o) = true -> sent o = mjoin (worker_writes ops).
Proof.
  intros F H E Fin. rewrite <- (app_nil_l (mjoin _)). change [] with (queued out_start). rewrite <- (out_run_queued _ _ _ H E).
  apply out_run_inv in H as [C S P (rest & Q & R)]; [|done|exact out_start_inv]. rewrite (R E), app_nil_r in Q.
  unfold isFinished in Fin. apply andb_prop in Fin as [_ B]. rewrite Q, pending_cursor by lia.
  destruct (write_buffer_ (oc o)); [|done]. by rewrite drop_nil, app_nil_r.
Qed.

(** C18. A streaming response arrives.  A module calls the streaming functions in any order
    and with any arguments; when the host finds the stream finished, it had accepted
    exactly one head.  And when, in any interleaving of the worker's writes with the event
    loop, the connection reports that it is finished without an error, the bytes on the
    wire are the serialised head, its headers made consistent with chunked transfer, and a
    chunked body that decodes to the accepted chunks, with nothing behind it. *)
Theorem streaming_response_arrives (calls : list foreign_call) (rs : list WasmResult)
    (c : stream_ctx HttpResponseSink) (s : HttpResponseSink) (ops : list out_op) (o : out_state) :
  Forall small_call calls ->
  foreign_run calls (mkStream (Some new_HttpResponseSink) Idle) = Some (rs, c) ->
  isStreamingFinished c = true -> sink_ c = Some s ->
  worker_writes ops = written s -> small_writes ops -> out_run ops out_start = Some o ->
  isFinished (oc o) = true -> write_error_ (oc o) = false ->
  exists status headers normalized body,
    accepted_heads (zip calls rs) = [(status, headers)] /\ normalize headers false [] = Some normalized /\
    sent o = serialize_headers status normalized ++ body /\
    dechunk_all body = Some (accepted_body (zip calls rs), []).
Proof.
  intros F R Fin Es W Fw Ro Fo Eo.
  assert (stream_inv (mkStream (Some new_HttpResponseSink) Idle) [] []) as I0 by (exists new_HttpResponseSink; repeat split; by left).
  pose proof (stream_inv_run _ _ _ _ _ _ (Forall_impl _ _ _ F small_fits) I0 R) as (s' & Es' & I). cbn [app] in I.
  assert (s' = s) as -> by congruence. unfold isStreamingFinished in Fin. destruct (streaming_state_ c); try discriminate Fin.
  destruct I as (n & hs & Eh & _ & _ & ws & Ew & nhs & ds & N & -> & Eb & Fd).
  exists n, hs, nhs, (mjoin (chunk <$> ds) ++ last_chunk). split; [exact Eh|]. split; [exact N|]. split.
  - rewrite (out_finished _ _ Fw Ro Eo Fo), W, Ew, join_app, mjoin_cons, <- app_assoc. by do 2 f_equal.
  - rewrite dechunk_all_stream by done. by rewrite Eb.
Qed.

Lemma small_writes_check ops :
  forallb (fun op => match op with Write d => zlen d <? 2 ^ 64 | _ => true end) ops = true -> small_writes ops.
Proof.
  rewrite forallb_forall. intros H. apply Forall_forall. intros op Hop%list_elem_of_In%H. destruct op; try done. by apply Z.ltb_lt.
Qed.

Lemma streaming_response_arrives_witness :
  let head := le32 200 ++ marshal_pairs [(str "content-length", str "9"); (str "X", str "y")] in
  let calls := [FWriteChunk [1]; FSendHeaders head; FWriteChunk (str "hello"); FSendHeaders head; FWriteChunk []; FWriteChunk [33]; FFinish] in
  match foreign_run calls (mkStream (Some new_HttpResponseSink) Idle) with
  | Some (rs, c) =>
      rs = [BadArgument; Ok; Ok; BadArgument; Ok; Ok; Ok] /\
      match sink_ c with
      | Some s =>
          match out_run (mjoin ((fun d => [Write d; Send 3; Send 1000]) <$> written s) ++ [Finish]) out_start with
          | Some o => exists status headers normalized body,
              accepted_heads (zip calls rs) = [(status, headers)] /\ normalize headers false [] = Some normalized /\
              sent o = serialize_headers status normalized ++ body /\
              dechunk_all body = Some (accepted_body (zip calls rs), [])
          | None => False
          end
      | None => False
      end
  | None => False
  end.
Proof.
  intros head calls. destruct (foreign_run calls _) as [[rs c]|] eqn:R; [|vm_compute in R; discriminate].
  assert (rs = [BadArgument; Ok; Ok; BadArgument; Ok; Ok; Ok] /\ isStreamingFinished c = true) as [Hrs Fin].
  { vm_compute in R. injection R as <- <-. split; reflexivity. }
  split; [exact Hrs|]. destruct (sink_ c) as [s|] eqn:Es; [|vm_compute in R; injection R as <- <-; vm_compute in Es; discriminate].
  set (ops := mjoin _ ++ _). assert (written s = worker_writes ops /\ small_writes ops) as [W F].
  { subst ops. vm_compute in R. injection R as <- <-. vm_compute in Es. injection Es as <-. split; [reflexivity|].
    apply small_writes_check. vm_compute. reflexivity. }
  destruct (out_run ops out_start) as [o|] eqn:Ro.
  2: { subst ops. vm_compute in R. injection R as <- <-. vm_compute in Es. injection Es as <-. vm_compute in Ro. discriminate. }
  assert (isFinished (oc o) = true /\ write_error_ (oc o) = false) as [Fo Eo].
  { subst ops. vm_compute in R. injection R as <- <-. vm_compute in Es. injection Es as <-. vm_compute in Ro. injection Ro as <-. split; reflexivity. }
  apply (streaming_response_arrives calls rs c s ops o); [|exact R|exact Fin|exact Es|exact (eq_sym W)|exact F|exact Ro|exact Fo|exact Eo].
  repeat constructor.
Defined.
