(* ===== verification/LsapiSink.v ===== *)
(** * The response sink over LSAPI

    [LsapiResponseSink] of lsapi_response_sink.h: the interface of [Sinks] implemented by
    the response calls of lsapilib.c ([Response]). *)

From S2P Require Export Response Sinks.

Open Scope Z_scope.

(** [c_str()]: what a C function sees of a string. *)
Fixpoint as_c_str (l : list Z) : list Z :=
  match l with
  | [] => []
  | b :: l => if b =? 0 then [] else b :: as_c_str l
  end.

(** [req_] is whether the pointer is set; [lsapi] is the request it points to, with its
    process and kernel. *)
Record LsapiResponseSink := mkLsapiSink {
  req_ : bool;
  lsapi_error_ : bool;
  lsapi : st
}.

Definition new_LsapiResponseSink (s : st) : LsapiResponseSink := mkLsapiSink true false s.

(** A computation on the request; its [false] sets [error_]. *)
Definition on_request (m : M bool) (k : LsapiResponseSink) : option (bool * LsapiResponseSink) :=
  '(ok, s) ← m (lsapi k);
  Some (ok, mkLsapiSink (req_ k) (lsapi_error_ k || negb ok) s).

(** The loop over the headers. *)
Fixpoint append_headers (headers : HeaderPairs) : M bool :=
  match headers with
  | [] => mret true
  | hdr :: headers =>
      if header_name_eq hdr.1 (str "Transfer-Encoding") then append_headers headers
      else
        r ← LSAPI_AppendRespHeader2_r (Some (as_c_str hdr.1)) (Some (as_c_str hdr.2));
        if r <? 0 then mret false else append_headers headers
  end.

Definition lsapi_head (status_code : Z) (headers : HeaderPairs) : M bool :=
  LSAPI_SetRespStatus_r (s32 status_code) ;;
  ok ← append_headers headers;
  if negb (ok : bool) then mret false
  else r ← LSAPI_FinalizeRespHeaders_r; mret (negb (r <? 0)).

Definition lsapi_sendHeaders (status_code : Z) (headers : HeaderPairs) (k : LsapiResponseSink) : option (bool * LsapiResponseSink) :=
  if negb (req_ k) then Some (false, mkLsapiSink false true (lsapi k))
  else on_request (lsapi_head status_code headers) k.

Definition lsapi_writeBody (data : list Z) (k : LsapiResponseSink) : option (bool * LsapiResponseSink) :=
  if negb (req_ k) || lsapi_error_ k then Some (false, k)
  else if bool_decide (data = []) then Some (true, k)
  else on_request (written ← LSAPI_Write_r (Some data) (zlen data); mret (negb (written <? 0))) k.

Definition lsapi_finishBody (k : LsapiResponseSink) : option (bool * LsapiResponseSink) :=
  if negb (req_ k) || lsapi_error_ k then Some (false, k)
  else on_request (r ← LSAPI_Flush_r; mret (negb (r <? 0))) k.

#[export] Instance lsapi_sink : ResponseSink LsapiResponseSink := {
  sendHeaders c hs _ k := lsapi_sendHeaders c hs k;
  writeBody := lsapi_writeBody;
  finishBody := lsapi_finishBody;
  sink_hasError := lsapi_error_
}.
