(* ===== verification/LsapiSinkSpec.v ===== *)
(** * What the LSAPI sink promises

    The laws of a sink, over LSAPI: what a reader decodes from the connection is the
    response the sink was given.  The abstract response is that of [Session]. *)

From S2P Require Export Session LsapiSink.
From S2P Require Import HttpUtilsSpec SinksSpec.

Open Scope Z_scope.

(** ** The head, as the abstract response sees it *)

Definition is_framing (hdr : list Z * list Z) : bool := header_name_eq hdr.1 (str "Transfer-Encoding").

(** The line a header becomes. *)
Definition header_line (hdr : list Z * list Z) : list Z := name_value (as_c_str hdr.1) (as_c_str hdr.2).

(** [append_headers], with its answer. *)
Fixpoint append_spec (headers : HeaderPairs) (a : response) : bool * response :=
  match headers with
  | [] => (true, a)
  | hdr :: headers =>
      if is_framing hdr then append_spec headers a
      else if header_refused (as_c_str hdr.1) (as_c_str hdr.2) a then (false, a)
      else append_spec headers (add_header (header_line hdr) a)
  end.

Definition head_spec (status_code : Z) (headers : HeaderPairs) (a : response) : bool * response :=
  let '(ok, a) := append_spec headers (mkResponse HeadOpen (s32 status_code) (rp_headers a) (rp_body a) (rp_err a)) in
  (ok, if ok then with_stage HeadFinal a else a).

(** The lines a head becomes when none of its headers is refused. *)
Definition head_lines (headers : HeaderPairs) : list (list Z) :=
  filter (fun l => l <> []) (header_line <$> filter (fun h => is_framing h = false) headers).

Definition small_headers (headers : HeaderPairs) : Prop :=
  Forall (fun h => zlen h.1 < 2 ^ 29 /\ zlen h.2 < 2 ^ 29) headers.

Lemma zlen_as_c_str l : zlen (as_c_str l) <= zlen l.
Proof. induction l as [|b l IH]; cbn [as_c_str]; [done|]. pose proof (zlen_nonneg l). destruct (b =? 0); rewrite ?zlen_cons; [rewrite zlen_nil|]; lia. Qed.

Lemma append_spec_stage headers : forall a, rp_stage (append_spec headers a).2 = rp_stage a /\
  rp_status (append_spec headers a).2 = rp_status a /\ rp_body (append_spec headers a).2 = rp_body a /\ rp_err (append_spec headers a).2 = rp_err a.
Proof.
  induction headers as [|hdr headers IH]; intros a; cbn [append_spec]; [done|].
  destruct (is_framing hdr); [apply IH|]. destruct (header_refused _ _ a); [done|]. apply (IH (add_header (header_line hdr) a)).
Qed.

Lemma append_spec_lines headers : forall a, (append_spec headers a).1 = true ->
  rp_headers (append_spec headers a).2 = rp_headers a ++ head_lines headers.
Proof.
  unfold head_lines. induction headers as [|hdr headers IH]; intros a E; cbn [append_spec] in *; [by rewrite app_nil_r|].
  rewrite filter_cons. destruct (is_framing hdr); [rewrite decide_False by done; by apply IH|]. rewrite decide_True, fmap_cons, filter_cons by done.
  destruct (header_refused _ _ a); [discriminate E|]. rewrite IH by done. unfold add_header. cbn.
  destruct (header_line hdr) eqn:L; [by rewrite decide_False by (by intros [])|]. rewrite decide_True by done. by rewrite <- app_assoc.
Qed.

Lemma head_spec_fields n headers a : let '(ok, a') := head_spec n headers a in
  rp_status a' = s32 n /\ rp_body a' = rp_body a /\ rp_err a' = rp_err a /\
  rp_stage a' = (if ok then HeadFinal else HeadOpen) /\ (ok = true -> rp_headers a' = rp_headers a ++ head_lines headers).
Proof.
  unfold head_spec. set (a0 := mkResponse HeadOpen _ _ _ _). pose proof (append_spec_stage headers a0) as (E1 & E2 & E3 & E4).
  pose proof (append_spec_lines headers a0) as E5. destruct (append_spec headers a0) as [[] a']; cbn in *; by repeat split; auto.
Qed.

(** ** The calls of the sink on an open connection *)

Section Live.
Context (fd : Z) (w0 : list Z).

Lemma live_append_headers headers : forall a s (Q : bool -> st -> Prop),
  ready fd s -> live fd w0 a s -> rp_stage a = HeadOpen -> small_headers headers ->
  (forall s', ready fd s' -> live fd w0 (append_spec headers a).2 s' -> Q (append_spec headers a).1 s') ->
  wp (append_headers headers) Q s.
Proof.
  induction headers as [|hdr headers IH]; intros a s Q Hr Hl Hst Hsm HQ; cbn [append_headers append_spec] in *.
  { wsteps. by apply HQ. }
  apply Forall_cons in Hsm as [[Hn Hv] Hsm]. unfold is_framing in *. destruct (header_name_eq _ _); [by apply (IH a)|].
  pose proof (zlen_as_c_str hdr.1). pose proof (zlen_as_c_str hdr.2). wsteps.
  apply (live_append_open fd w0 a); [done|done|done|lia|lia|]. cbv zeta. intros s' Hr' Hl'.
  destruct (header_refused _ _ a); closed_tests; wsteps; [by apply HQ|]. by apply (IH (add_header (header_line hdr) a)).
Qed.

Lemma live_head n headers a s (Q : bool -> st -> Prop) :
  ready fd s -> live fd w0 a s -> rp_stage a = HeadOpen -> small_headers headers ->
  (forall s', ready fd s' -> live fd w0 (head_spec n headers a).2 s' -> Q (head_spec n headers a).1 s') ->
  wp (lsapi_head n headers) Q s.
Proof.
  intros Hr Hl Hst Hsm HQ. unfold lsapi_head. wsteps. apply (live_status fd w0 a); [done..|].
  intros s1 [Hr1 [[_ Hl1]|[? _]]]; [|done]. wsteps. eapply (live_append_headers headers); [exact Hr1|exact Hl1|done|done|].
  intros s2 Hr2 Hl2. unfold head_spec in HQ. pose proof (append_spec_stage headers (mkResponse HeadOpen (s32 n) (rp_headers a) (rp_body a) (rp_err a))) as (E & _).
  destruct (append_spec headers _) as [[] a2]; cbn [negb fst snd] in *; wsteps; [|by apply HQ].
  apply (live_finalize fd w0 a2); [done..|]. intros s3 [Hr3 [[_ Hl3]|[? _]]]; [|done]. closed_tests. wsteps.
  rewrite E in Hl3. by apply HQ.
Qed.
End Live.

(** ** The laws *)

(** A head that was taken, and the body behind it. *)
Definition holds (n : Z) (headers : HeaderPairs) (body : list Z) (a : response) : Prop :=
  rp_stage a <> HeadOpen /\ rp_status a = s32 n /\ rp_headers a = head_lines headers /\ rp_body a = body /\ rp_err a = [].

Definition lsapi_shows (fd : Z) (w0 : list Z) (k : LsapiResponseSink) (v : sink_view) : Prop :=
  req_ k = true /\
  match v with
  | Sinks.Broken => lsapi_error_ k = true
  | Sinks.Unused => lsapi_error_ k = false /\ ready fd (lsapi k) /\ live fd w0 empty_response (lsapi k)
  | Sinks.Opened n headers body | Sinks.Ended n headers body =>
      lsapi_error_ k = false /\ ready fd (lsapi k) /\ exists a, live fd w0 a (lsapi k) /\ holds n headers body a
  end.

Lemma on_request_inv m k ok k' : on_request m k = Some (ok, k') ->
  exists s, m (lsapi k) = Some (ok, s) /\ k' = mkLsapiSink (req_ k) (lsapi_error_ k || negb ok) s.
Proof. unfold on_request. destruct (m (lsapi k)) as [[b s]|]; [|done]. cbn. intros [= -> <-]. by exists s. Qed.

(** What is left for an operation that can break the connection. *)
Lemma on_request_law fd w0 (m : M bool) k ok k' v :
  req_ k = true -> lsapi_error_ k = false -> on_request m k = Some (ok, k') ->
  wp m (fun ok s' => ok = true -> lsapi_shows fd w0 (mkLsapiSink true false s') v) (lsapi k) ->
  lsapi_shows fd w0 k' (if ok then v else Sinks.Broken).
Proof.
  intros Hreq He E Hwp. apply on_request_inv in E as (s' & E & ->). apply wp_run in Hwp as (ok1 & s1 & E1 & H).
  rewrite E1 in E. injection E as -> ->. rewrite Hreq, He. destruct ok; [by apply H|done].
Qed.

#[export] Program Instance lsapi_sink_laws (fd : Z) (w0 : list Z) : SinkLaws LsapiResponseSink :=
  {| shows := lsapi_shows fd w0; fits := small_headers |}.
Next Obligation.
  intros fd w0 c hs k ok k' Hsm (Hreq & He & Hr & Hl) E. cbn in E. unfold lsapi_sendHeaders in E. rewrite Hreq in E. cbn [negb] in E.
  eapply on_request_law; [done|done|exact E|]. apply (live_head fd w0 c hs empty_response); [done..|]. intros s' Hr' Hl' Ok.
  pose proof (head_spec_fields c hs empty_response) as F. destruct (head_spec c hs empty_response) as [ok1 a]. cbn in Ok, Hl'. subst ok1.
  destruct F as (F1 & F2 & F3 & F4 & F5). split; [done|]. split; [done|]. split; [done|]. exists a. split; [done|].
  split; [by rewrite F4|]. split; [done|]. split; [by apply F5|done].
Qed.
Next Obligation.
  intros fd w0 d c hs b k ok k' Hd (Hreq & He & Hr & a & Hl & H1 & H2 & H3 & H4 & H5) E. cbn in E. unfold lsapi_writeBody in E. rewrite Hreq, He in E. cbn [negb orb] in E.
  case_bool_decide as X.
  - injection E as <- <-. subst d. rewrite app_nil_r. split; [done|]. split; [done|]. split; [done|]. by exists a.
  - eapply on_request_law; [done|done|exact E|]. wsteps. apply (live_write fd w0 a); [done..|].
    intros r s' [Hr' [[H0 Hl']|[-> _]]]; wsteps; [|done]. intros _. split; [done|]. split; [done|]. split; [done|].
    eexists. split; [exact Hl'|]. cbn. split; [apply begun|]. by rewrite H4.
Qed.
Next Obligation.
  intros fd w0 c hs b k ok k' (Hreq & He & Hr & a & Hl & H) E. cbn in E. unfold lsapi_finishBody in E. rewrite Hreq, He in E. cbn [negb orb] in E.
  eapply on_request_law; [done|done|exact E|]. wsteps. apply (live_flush fd w0 a); [done..|].
  intros r s' [Hr' [[H0 Hl']|[-> _]]]; wsteps; [|done]. intros _. split; [done|]. split; [done|]. split; [done|]. by exists a.
Qed.
Next Obligation.
  intros fd w0 c hs k ok k' (Hreq & He) E. cbn in E. unfold lsapi_sendHeaders in E. rewrite Hreq in E. cbn [negb] in E.
  apply on_request_inv in E as (s & _ & ->). split; [done|]. cbn. by rewrite He.
Qed.
Next Obligation.
  intros fd w0 d k ok k' (Hreq & He) E. cbn in E. unfold lsapi_writeBody in E. rewrite Hreq, He in E. cbn in E. by injection E as <- <-.
Qed.
Next Obligation.
  intros fd w0 k ok k' (Hreq & He) E. cbn in E. unfold lsapi_finishBody in E. rewrite Hreq, He in E. cbn in E. by injection E as <- <-.
Qed.

(** ** A stream over LSAPI *)

(** Where every call of a stream returns: the request is still to be given its head, or has
    it, or takes no more. *)
Definition can_stream (fd : Z) (w0 : list Z) (x : stream_ctx LsapiResponseSink) : Prop :=
  exists k, sink_ x = Some k /\ req_ k = true /\
  match streaming_state_ x with
  | Idle => ready fd (lsapi k) /\ exists a, live fd w0 a (lsapi k) /\ rp_stage a = HeadOpen
  | HeadersSent => lsapi_error_ k = true \/ ready fd (lsapi k) /\ exists a, live fd w0 a (lsapi k)
  | StreamFinished => True
  end.

Lemma on_request_returns (m : M bool) k (Q : bool -> st -> Prop) : wp m Q (lsapi k) ->
  exists ok s', on_request m k = Some (ok, mkLsapiSink (req_ k) (lsapi_error_ k || negb ok) s') /\ Q ok s'.
Proof. intros (ok & s' & E & HQ)%wp_run. exists ok, s'. unfold on_request. by rewrite E. Qed.

Lemma send_returns fd w0 n hs k : small_headers hs -> can_stream fd w0 (mkStream (Some k) Idle) ->
  exists r x', streamingSendHeaders n hs (mkStream (Some k) Idle) = Some (r, x') /\ can_stream fd w0 x'.
Proof.
  intros Hsm (k' & [= <-] & Hreq & Hr & a & Hl & Ha). cbn in Hr, Hl.
  destruct (on_request_returns (lsapi_head n hs) k (fun ok s' => ready fd s' /\ live fd w0 (head_spec n hs a).2 s' /\ ok = (head_spec n hs a).1))
    as (ok & s' & E & Hr' & Hl' & Eok); [by apply (live_head fd w0 n hs a)|].
  unfold streamingSendHeaders. cbn. unfold lsapi_sendHeaders. rewrite Hreq. cbn [negb]. rewrite E. cbn [mbind option_bind].
  pose proof (head_spec_fields n hs a) as F. destruct (head_spec n hs a) as [ok1 a']. cbn in *. subst ok1. destruct F as (_ & _ & _ & Hst & _).
  destruct ok; eexists _, _; (split; [done|]); eexists; (split; [done|]); (split; [exact Hreq|]); cbn; [right|]; (split; [done|]); by exists a'.
Qed.

(** The calls a module can make over LSAPI: a C++ string holds bytes, and a header that is
    sent is shorter than 2^29. *)
Definition lsapi_call (call : foreign_call) : Prop :=
  match call with
  | FSendHeaders arg => bytes arg /\ (forall n hs, head_of arg = Some (n, hs) -> small_headers hs)
  | FWriteChunk d => zlen d < 2 ^ 63
  | FFinish => True
  end.

Lemma stream_call_returns fd w0 call x : lsapi_call call -> can_stream fd w0 x -> exists r x', foreign call x = Some (r, x') /\ can_stream fd w0 x'.
Proof.
  intros G Hx. pose proof Hx as (k & Ek & Hreq & Hst). destruct x as [sk state]. cbn in Ek, Hst. subst sk.
  assert (forall r : WasmResult, exists r' x', Some (r, mkStream (Some k) state) = Some (r', x') /\ can_stream fd w0 x') as Same by eauto.
  destruct call as [arg|d|]; cbn [foreign].
  - destruct G as [B G]. unfold send_response_headers. destruct (Z.ltb_spec (zlen arg) 4); [apply Same|].
    destruct (load_u32_Some arg 0) as [n En]; [lia..|]. destruct (deserialize_total (drop 4 arg)) as [hs Eh]; [by apply Forall_drop|].
    rewrite En. cbn [mbind option_bind]. rewrite Eh. cbn [mbind option_bind]. destruct state; [|apply Same..].
    apply send_returns; [|done]. apply (G n). unfold head_of. rewrite En. cbn. by rewrite Eh.
  - unfold streamingWriteChunk. cbn. destruct state; [apply Same| |apply Same]. case_bool_decide as Hd; [apply Same|].
    unfold lsapi_writeBody. rewrite Hreq. destruct (lsapi_error_ k) eqn:He; cbn [negb orb mbind option_bind].
    { eexists _, _. split; [done|]. exists k. split; [done|]. split; [done|]. by left. }
    destruct Hst as [?|(Hr & a & Hl)]; [congruence|]. rewrite bool_decide_false by done.
    destruct (on_request_returns (written ← LSAPI_Write_r (Some d) (zlen d); mret (negb (written <? 0))) k
      (fun ok s' => ok = true -> ready fd s' /\ exists a, live fd w0 a s')) as (ok & s' & E & HQ).
    { wsteps. apply (live_write fd w0 a); [done..|]. intros r s' [Hr' [[_ Hl']|[-> _]]]; wsteps; [|done]. intros _. split; [done|]. by eexists. }
    rewrite E. cbn [mbind option_bind]. eexists _, _. split; [done|]. eexists. split; [done|]. split; [exact Hreq|]. cbn. rewrite He.
    destruct ok; [right; by apply HQ|by left].
  - unfold streamingFinish. cbn. destruct state; [apply Same| |apply Same]. unfold lsapi_finishBody. rewrite Hreq.
    destruct (lsapi_error_ k) eqn:He; cbn [negb orb mbind option_bind].
    { eexists _, _. split; [done|]. exists k. split; [done|]. split; [done|]. by left. }
    destruct Hst as [?|(Hr & a & Hl)]; [congruence|].
    destruct (on_request_returns (r ← LSAPI_Flush_r; mret (negb (r <? 0))) k (fun _ _ => True)) as (ok & s' & E & _).
    { wsteps. apply (live_flush fd w0 a); [done..|]. intros r s' _. by wsteps. }
    rewrite E. cbn [mbind option_bind]. destruct ok; eexists _, _; (split; [done|]); eexists; (split; [done|]); (split; [exact Hreq|]); [done|].
    left. cbn. by rewrite He.
Qed.

Lemma stream_run_returns fd w0 calls : forall x, Forall lsapi_call calls -> can_stream fd w0 x -> exists rs x', foreign_run calls x = Some (rs, x').
Proof.
  induction calls as [|call calls IH]; intros x F Hx; cbn [foreign_run]; [eauto|]. apply Forall_cons in F as [F1 F].
  destruct (stream_call_returns fd w0 call x F1 Hx) as (r & x1 & -> & Hx1). cbn [mbind option_bind].
  destruct (IH x1 F Hx1) as (rs & x2 & ->). cbn [mbind option_bind]. eauto.
Qed.

(** C19. A streamed response arrives over LSAPI.  On a request that has just been read, a
    module calls the streaming functions in any order with any arguments: every call
    returns.  When the host finds the stream finished, exactly one head was accepted, and
    [LSAPI_Finish_r] leaves on the wire the one response with its status, the lines of its
    headers (but for [Transfer-Encoding]) and the accepted chunks as its body, or a prefix
    of its packets on a connection that has been closed. *)
Theorem lsapi_stream_arrives (fd : Z) (s : st) (calls : list foreign_call) :
  m_fd (req s) = fd -> ready fd s -> fresh_response s -> Forall lsapi_call calls ->
  exists rs c, foreign_run calls (mkStream (Some (new_LsapiResponseSink s)) Idle) = Some (rs, c) /\
    (isStreamingFinished c = true ->
     exists k status headers a s', sink_ c = Some k /\ accepted_heads (zip calls rs) = [(status, headers)] /\
       LSAPI_Finish_r (lsapi k) = Some (0, s') /\ wire_post fd (sent_on fd (os s)) a s' /\
       rp_status a = s32 status /\ rp_headers a = head_lines headers /\ rp_body a = accepted_body (zip calls rs) /\ rp_err a = []).
Proof.
  intros Hfd Hr Hf F. set (w0 := sent_on fd (os s)). pose proof (live_fresh fd s Hfd Hf) as Hl. fold w0 in Hl.
  destruct (stream_run_returns fd w0 calls (mkStream (Some (new_LsapiResponseSink s)) Idle) F) as (rs & c & R).
  { eexists. split; [done|]. split; [done|]. split; [done|]. by exists empty_response. }
  exists rs, c. split; [done|]. intros Fin. pose (L := lsapi_sink_laws fd w0).
  eapply (stream_inv_run (H0 := L)) in R as (k & Ek & I); [| |exists (new_LsapiResponseSink s); repeat split; by left].
  2: { eapply Forall_impl; [exact F|]. intros [arg|d|]; cbn; [by intros [_ ?]|done..]. }
  cbn [app] in I. unfold isStreamingFinished in Fin. destruct (streaming_state_ c); try discriminate Fin.
  destruct I as (n & hs & Eh & _ & _ & Hrk & a & Hlk & _ & H2 & H3 & H4 & H5).
  assert (step_post fd w0 a (lsapi k)) as P by (split; [done|by left]).
  apply finish_step in P. apply wp_run in P as (r & s' & Er & -> & P). by exists k, n, hs, a, s'.
Qed.

Lemma lsapi_stream_arrives_witness :
  let head := le32 201 ++ marshal_pairs [(str "X", str "y"); (str "Transfer-Encoding", str "chunked")] in
  let calls := [FWriteChunk [1]; FSendHeaders head; FWriteChunk (str "hello"); FSendHeaders head; FWriteChunk [33]; FFinish] in
  exists rs c k status headers a s',
    foreign_run calls (mkStream (Some (new_LsapiResponseSink session_start)) Idle) = Some (rs, c) /\ sink_ c = Some k /\
    accepted_heads (zip calls rs) = [(status, headers)] /\
    LSAPI_Finish_r (lsapi k) = Some (0, s') /\ wire_post 7 (sent_on 7 (os session_start)) a s' /\
    rp_headers a = [str "X:y"] /\ rp_body a = str "hello!" /\ rp_status a = 201.
Proof.
  intros head calls. destruct session_start_ok as (H1 & H2 & H3).
  assert (Forall lsapi_call calls) as F.
  { assert (bytes head) as B by (apply bytes_b_bytes; vm_compute; reflexivity).
    assert (forall n hs, head_of head = Some (n, hs) -> small_headers hs) as Sm.
    { intros n hs E. assert (head_of head = Some (201, [(str "X", str "y"); (str "Transfer-Encoding", str "chunked")])) as Eh by (vm_compute; reflexivity).
      rewrite Eh in E. injection E as <- <-. repeat (apply Forall_cons_2; [split; reflexivity|]). apply Forall_nil_2. }
    repeat (apply Forall_cons_2; [first [split; [exact B|exact Sm] | exact I | reflexivity]|]). apply Forall_nil_2. }
  destruct (lsapi_stream_arrives 7 session_start calls H1 H2 H3 F) as (rs & c & R & X).
  assert (match foreign_run calls (mkStream (Some (new_LsapiResponseSink session_start)) Idle) with
    | Some (rs, c) => isStreamingFinished c && bool_decide (accepted_heads (zip calls rs) = [(201, [(str "X", str "y"); (str "Transfer-Encoding", str "chunked")])])
        && bool_decide (accepted_body (zip calls rs) = str "hello!")
    | None => false end = true) as Y by (vm_compute; reflexivity).
  rewrite R in Y. apply andb_prop in Y as [Y Y3%bool_decide_eq_true]. apply andb_prop in Y as [Y1 Y2%bool_decide_eq_true].
  destruct (X Y1) as (k & n & hs & a & s' & E1 & E2 & E3 & E4 & E5 & E6 & E7 & E8).
  exists rs, c, k, n, hs, a, s'. rewrite Y2 in E2. injection E2 as <- <-. rewrite Y3 in E7.
  split; [exact R|]. split; [exact E1|]. split; [exact Y2|]. split; [exact E3|]. split; [exact E4|].
  split; [rewrite E6; vm_compute; reflexivity|]. split; [exact E7|]. rewrite E5. vm_compute. reflexivity.
Defined.
