(* ===== verification/Metrics.v ===== *)
(** * The metrics of a module

    [MetricStore] of wasm_module_manager.h.  The contexts of a module share one store, on
    all threads; [define] holds its mutex exclusively, the other operations hold it shared
    and change one value by one atomic operation.  So each operation is one step, and a
    history of the threads is a sequence of steps. *)

From S2P Require Export StdMap Sinks.

Open Scope Z_scope.

(** ** State *)

(** Values are [int64_t], ids and types [uint32_t]. *)
Record MetricEntry := mkEntry { me_name : list Z; me_type : Z; me_value : Z }.

Record MetricStore := mkStore {
  metrics_ : smap Z MetricEntry;
  next_counter_id_ : Z;
  next_gauge_id_ : Z;
  next_histogram_id_ : Z
}.

Definition new_MetricStore : MetricStore := mkStore [] 0 1 2.

Definition kIdIncrement : Z := 4.

Definition set_metrics (m : smap Z MetricEntry) (s : MetricStore) : MetricStore :=
  mkStore m (next_counter_id_ s) (next_gauge_id_ s) (next_histogram_id_ s).

(** ** Operations *)

Definition nextIdForType (type : Z) (s : MetricStore) : Z :=
  match type with
  | 0 => next_counter_id_ s
  | 1 => next_gauge_id_ s
  | 2 => next_histogram_id_ s
  | _ => next_counter_id_ s
  end.

Definition set_nextIdForType (type v : Z) (s : MetricStore) : MetricStore :=
  match type with
  | 0 => mkStore (metrics_ s) v (next_gauge_id_ s) (next_histogram_id_ s)
  | 1 => mkStore (metrics_ s) (next_counter_id_ s) v (next_histogram_id_ s)
  | 2 => mkStore (metrics_ s) (next_counter_id_ s) (next_gauge_id_ s) v
  | _ => mkStore (metrics_ s) v (next_gauge_id_ s) (next_histogram_id_ s)
  end.

#[global] Arguments nextIdForType : simpl never.
#[global] Arguments set_nextIdForType : simpl never.

(** The loop over the entries in [define]. *)
Fixpoint find_name (name : list Z) (m : smap Z MetricEntry) : option (Z * MetricEntry) :=
  match m with
  | [] => None
  | (id, entry) :: m => if decide (me_name entry = name) then Some (id, entry) else find_name name m
  end.

(** [id_out] is [None] where it is not written. *)
Definition metric_define (type : Z) (name : list Z) (s : MetricStore) : WasmResult * option Z * MetricStore :=
  match find_name name (metrics_ s) with
  | Some (id, entry) => if me_type entry =? type then (Ok, Some id, s) else (BadArgument, None, s)
  | None =>
      let id := nextIdForType type s in
      let s := set_nextIdForType type (u32 (id + kIdIncrement)) s in
      (Ok, Some id, set_metrics (semplace id (mkEntry name type 0) (metrics_ s)) s)
  end.

(** [std::atomic<int64_t>::fetch_add] wraps. *)
Definition fetch_add (n : Z) (e : MetricEntry) : MetricEntry := mkEntry (me_name e) (me_type e) (s64 (me_value e + n)).
Definition store_value (n : Z) (e : MetricEntry) : MetricEntry := mkEntry (me_name e) (me_type e) (s64 n).

Definition metric_increment (id offset : Z) (s : MetricStore) : WasmResult * MetricStore :=
  match sfind id (metrics_ s) with
  | None => (NotFound, s)
  | Some _ => (Ok, set_metrics (smodify id (fetch_add offset) (metrics_ s)) s)
  end.

Definition metric_record (id value : Z) (s : MetricStore) : WasmResult * MetricStore :=
  match sfind id (metrics_ s) with
  | None => (NotFound, s)
  | Some e =>
      (Ok, set_metrics (smodify id (if me_type e =? 1 then store_value value else fetch_add (s64 value)) (metrics_ s)) s)
  end.

Definition metric_get (id : Z) (s : MetricStore) : WasmResult * option Z :=
  match sfind id (metrics_ s) with
  | None => (NotFound, None)
  | Some e => (Ok, Some (u64 (me_value e)))
  end.

(** ** Histories *)

Inductive metric_op := MDefine (type : Z) (name : list Z) | MIncrement (id offset : Z) | MRecord (id value : Z) | MGet (id : Z).

Definition metric_step (op : metric_op) (s : MetricStore) : MetricStore :=
  match op with
  | MDefine type name => (metric_define type name s).2
  | MIncrement id offset => (metric_increment id offset s).2
  | MRecord id value => (metric_record id value s).2
  | MGet id => s
  end.

(** What the threads of a module do to its store, in the order of their critical sections. *)
Definition metric_run (ops : list metric_op) (s : MetricStore) : MetricStore := foldl (fun s op => metric_step op s) s ops.
