(* ===== verification/MetricsSpec.v ===== *)
(** * What the metrics of a module promise

    The invariant of the store over every history of its threads, and the value of a metric
    after such a history: ids are not shared, and no update is lost. *)

From S2P Require Export Metrics.

Open Scope Z_scope.

(** ** The invariant *)

(** The low bits of an id: its type, where the type is one of the three known ones. *)
Definition type_bits (type : Z) : Z := match type with 1 => 1 | 2 => 2 | _ => 0 end.

#[global] Arguments type_bits : simpl never.

Definition names (m : smap Z MetricEntry) : list (list Z) := (fun p => me_name p.2) <$> m.

Record store_ok (n : Z) (s : MetricStore) : Prop := {
  so_map : smap_ok (metrics_ s);
  so_names : NoDup (names (metrics_ s));
  so_ids : Forall (fun p => p.1 < nextIdForType (me_type p.2) s /\ p.1 mod 4 = type_bits (me_type p.2)) (metrics_ s);
  so_next : forall t, 0 <= nextIdForType t s <= 4 * n + 2 /\ nextIdForType t s mod 4 = type_bits t
}.

Lemma new_store_ok : store_ok 0 new_MetricStore.
Proof.
  split; [constructor|constructor|constructor|]. intros t. split; [|by destruct t as [|[|[]|]|]].
  unfold nextIdForType. destruct t as [|[|[]|]|]; cbn; lia.
Qed.

Lemma store_ok_mono n n' s : n <= n' -> store_ok n s -> store_ok n' s.
Proof. intros Hn []. split; try done. intros t. destruct (so_next0 t). split; [lia|done]. Qed.

(** The counter a type uses. *)
Lemma nextIdForType_bits t s : nextIdForType t s = nextIdForType (type_bits t) s.
Proof. by destruct t as [|[|[]|]|]. Qed.
Lemma nextIdForType_set t v s t' :
  nextIdForType t' (set_nextIdForType t v s) = if type_bits t =? type_bits t' then v else nextIdForType t' s.
Proof. by destruct t as [|[|[]|]|], t' as [|[|[]|]|]. Qed.
Lemma metrics_set_nextIdForType t v s : metrics_ (set_nextIdForType t v s) = metrics_ s.
Proof. by destruct t as [|[|[]|]|]. Qed.
Lemma nextIdForType_set_metrics t m s : nextIdForType t (set_metrics m s) = nextIdForType t s.
Proof. by destruct t as [|[|[]|]|]. Qed.
Lemma type_bits_range t : 0 <= type_bits t < 4.
Proof. unfold type_bits. destruct t as [|[|[]|]|]; lia. Qed.

(** A new id is not in use. *)
Lemma next_fresh n t s : store_ok n s -> sfind (nextIdForType t s) (metrics_ s) = None.
Proof.
  intros []. apply sfind_None. intros X. apply list_elem_of_fmap in X as ([id e] & E & X).
  rewrite Forall_forall in so_ids0. apply so_ids0 in X as [H1 H2]. cbn in *. subst id.
  destruct (so_next0 t) as [_ H3]. rewrite H3 in H2.
  rewrite (nextIdForType_bits t s), (nextIdForType_bits (me_type e) s), H2 in H1. lia.
Qed.

Lemma semplace_perm id e (m : smap Z MetricEntry) : sfind id m = None -> semplace id e m ≡ₚ (id, e) :: m.
Proof.
  induction m as [|[k v] m IH]; cbn; [done|]. destruct (decide (id = k)); [done|]. intros F. destruct (id <? k); [done|].
  rewrite IH by done. constructor.
Qed.

Lemma find_name_None name m : find_name name m = None <-> name ∉ names m.
Proof.
  induction m as [|[id e] m IH]; cbn; [by split; [inversion 2|]|]. rewrite not_elem_of_cons. destruct (decide _) as [E|N].
  - split; [done|]. cbn. intros []. congruence.
  - rewrite IH. split; [|by intros []]. intros H. split; [by intros ->|exact H].
Qed.

Lemma find_name_elem name m : NoDup (names m) -> forall id e, (id, e) ∈ m -> me_name e = name -> find_name name m = Some (id, e).
Proof.
  induction m as [|[id1 e1] m IH]; intros Hd id e X E; [by inversion X|]. cbn in *. apply NoDup_cons in Hd as [H1 H2].
  apply elem_of_cons in X as [[= -> ->]|X]; [by rewrite decide_True|]. rewrite decide_False; [by apply IH|].
  intros <-. apply H1. rewrite <- E. by apply (list_elem_of_fmap_2 (fun p => me_name p.2) m (id, e)).
Qed.

Lemma store_ok_define n type name s :
  n < 2 ^ 30 - 1 -> store_ok n s -> store_ok (n + 1) (metric_define type name s).2.
Proof.
  intros Hn Hs. unfold metric_define. destruct (find_name name (metrics_ s)) as [[id e]|] eqn:F.
  { assert (store_ok (n + 1) s) by (eapply store_ok_mono; [|done]; lia). by destruct (_ =? _). }
  cbn. pose proof (next_fresh n type s Hs) as Fr. apply find_name_None in F. destruct Hs as [M N I X].
  pose proof (semplace_perm (nextIdForType type s) (mkEntry name type 0) (metrics_ s) Fr) as P.
  assert (u32 (nextIdForType type s + kIdIncrement) = nextIdForType type s + 4) as Eu.
  { unfold kIdIncrement. destruct (X type). unfold u32. apply Z.mod_small. lia. }
  rewrite Eu. split; cbn; try rewrite metrics_set_nextIdForType.
  - by apply smap_ok_semplace.
  - unfold names. rewrite P. cbn. constructor; done.
  - rewrite P. constructor; cbn; rewrite ?nextIdForType_set_metrics, ?nextIdForType_set.
    + rewrite Z.eqb_refl. split; [lia|apply X].
    + eapply Forall_impl; [exact I|]. intros [id e] [I1 I2]. cbn in *. rewrite nextIdForType_set_metrics, nextIdForType_set.
      split; [|done]. destruct (Z.eqb_spec (type_bits type) (type_bits (me_type e))) as [E|]; [|done].
      rewrite nextIdForType_bits, <- E, <- nextIdForType_bits in I1. lia.
  - intros t. rewrite nextIdForType_set_metrics, nextIdForType_set. destruct (X t) as [X1 X2], (X type) as [X3 X4].
    destruct (Z.eqb_spec (type_bits type) (type_bits t)) as [E|]; [|split; [lia|done]]. split; [lia|].
    rewrite <- E, <- X4. replace (nextIdForType type s + 4) with (nextIdForType type s + 1 * 4) by lia. apply Z_mod_plus_full.
Qed.

Lemma names_smodify id f m : (forall e, me_name (f e) = me_name e /\ me_type (f e) = me_type e) -> names (smodify id f m) = names m.
Proof.
  intros Hf. induction m as [|[k v] m IH]; [done|]. unfold names in *. cbn. destruct (decide _); cbn; f_equal; [apply Hf|done].
Qed.

Lemma elem_of_smodify id f (Hf : forall e, me_name (f e) = me_name e /\ me_type (f e) = me_type e) k v (m : smap Z MetricEntry) :
  (k, v) ∈ smodify id f m -> exists v', me_type v = me_type v' /\ (k, v') ∈ m.
Proof.
  induction m as [|[k1 v1] m IH]; cbn; [by inversion 1|]. destruct (decide _) as [->|]; rewrite elem_of_cons.
  - intros [[= -> ->]|H]; [exists v1; split; [apply Hf|by constructor]|exists v; split; [done|by constructor]].
  - intros [[= -> ->]|H]; [exists v1; split; [done|by constructor]|]. apply IH in H as (v' & ? & ?).
    exists v'. split; [done|by constructor].
Qed.

(** A change of one value that keeps its name and type. *)
Lemma store_ok_smodify n id f s :
  (forall e, me_name (f e) = me_name e /\ me_type (f e) = me_type e) -> store_ok n s ->
  store_ok n (set_metrics (smodify id f (metrics_ s)) s).
Proof.
  intros Hf [M N I X]. split; cbn [metrics_ set_metrics].
  - by apply smap_ok_smodify.
  - by rewrite names_smodify.
  - apply Forall_forall. intros [k v] H. apply (elem_of_smodify id f Hf) in H as (v' & E & H).
    rewrite Forall_forall in I. specialize (I _ H). cbn in *. by rewrite nextIdForType_set_metrics, E.
  - done.
Qed.

Lemma store_ok_step n op s : n < 2 ^ 30 - 1 -> store_ok n s -> store_ok (n + 1) (metric_step op s).
Proof.
  intros Hn Hs. destruct op as [type name|id k|id v|id]; cbn [metric_step].
  - by apply store_ok_define.
  - unfold metric_increment. assert (store_ok (n + 1) s) by (eapply store_ok_mono; [|done]; lia).
    destruct (sfind _ _); [|done]. by apply store_ok_smodify.
  - unfold metric_record. assert (store_ok (n + 1) s) by (eapply store_ok_mono; [|done]; lia).
    destruct (sfind _ _) as [e|]; [|done]. apply store_ok_smodify; [|done]. by destruct (_ =? 1).
  - eapply store_ok_mono; [|done]. lia.
Qed.

Lemma store_ok_run ops : forall n s, n + zlen ops <= 2 ^ 30 - 1 -> store_ok n s -> store_ok (n + zlen ops) (metric_run ops s).
Proof.
  induction ops as [|op ops IH]; intros n s Hn Hs; [by rewrite zlen_nil, Z.add_0_r|]. rewrite zlen_cons in *. pose proof (zlen_nonneg ops).
  cbn. replace (n + (1 + zlen ops)) with ((n + 1) + zlen ops) by lia. apply IH; [lia|]. apply store_ok_step; [lia|done].
Qed.

(** ** Values *)

(** What a metric should hold after a history: a gauge what was recorded last, with the
    increments since; any other metric the sum of all. *)
Definition meant (type id : Z) (ops : list metric_op) : Z :=
  foldl (fun v op =>
    match op with
    | MIncrement i n => if i =? id then v + n else v
    | MRecord i n => if i =? id then (if type =? 1 then n else v + n) else v
    | _ => v
    end) 0 ops.

(** An entry after one more operation. *)
Definition entry_after (id : Z) (op : metric_op) (e : MetricEntry) : MetricEntry :=
  match op with
  | MIncrement i n => if decide (i = id) then fetch_add n e else e
  | MRecord i n => if decide (i = id) then (if me_type e =? 1 then store_value n e else fetch_add (s64 n) e) else e
  | _ => e
  end.

Lemma sfind_step n op id e s : store_ok n s -> sfind id (metrics_ s) = Some e ->
  sfind id (metrics_ (metric_step op s)) = Some (entry_after id op e).
Proof.
  intros Hs F. destruct op as [type name|i k|i v|i]; cbn [metric_step entry_after].
  - unfold metric_define. destruct (find_name _ _) as [[id1 e1]|]; [by destruct (_ =? _)|]. cbn.
    rewrite metrics_set_nextIdForType, sfind_semplace by apply Hs. rewrite (next_fresh _ _ _ Hs). destruct (decide _) as [<-|]; [|done].
    by rewrite (next_fresh _ _ _ Hs) in F.
  - unfold metric_increment. destruct (sfind i _) as [e1|] eqn:F1; cbn.
    + rewrite sfind_smodify. destruct (decide _) as [->|]; [|done]. by rewrite F.
    + destruct (decide _) as [->|]; [congruence|done].
  - unfold metric_record. destruct (sfind i _) as [e1|] eqn:F1; cbn.
    + rewrite sfind_smodify. destruct (decide _) as [->|]; [|done]. rewrite F. cbn. assert (e1 = e) as -> by congruence.
      by destruct (_ =? 1).
    + destruct (decide _) as [->|]; [congruence|done].
  - done.
Qed.

Lemma s64_add_l a b : s64 (s64 a + b) = s64 (a + b).
Proof.
  unfold s64. f_equal. replace ((a + 2 ^ 63) mod 2 ^ 64 - 2 ^ 63 + b + 2 ^ 63) with ((a + 2 ^ 63) mod 2 ^ 64 + b) by lia.
  rewrite Zplus_mod_idemp_l. f_equal. lia.
Qed.

Lemma u64_s64 a : u64 (s64 a) = u64 a.
Proof. unfold s64, u64. rewrite Zminus_mod_idemp_l. f_equal. lia. Qed.

Lemma sfind_run ops : forall n s id e v, n + zlen ops <= 2 ^ 30 - 1 -> store_ok n s ->
  sfind id (metrics_ s) = Some e -> me_value e = s64 v ->
  exists e', sfind id (metrics_ (metric_run ops s)) = Some e' /\ me_name e' = me_name e /\ me_type e' = me_type e /\
    me_value e' = s64 (foldl (fun v op => match op with
      | MIncrement i n => if i =? id then v + n else v
      | MRecord i n => if i =? id then (if me_type e =? 1 then n else v + n) else v
      | _ => v end) v ops).
Proof.
  induction ops as [|op ops IH]; intros n s id e v Hn Hs F V; [by exists e|]. rewrite zlen_cons in Hn. pose proof (zlen_nonneg ops).
  cbn [metric_run foldl]. pose proof (sfind_step _ op _ _ _ Hs F) as F1.
  assert (me_name (entry_after id op e) = me_name e /\ me_type (entry_after id op e) = me_type e) as [N T].
  { destruct op; cbn; try done; destruct (decide _); try done. by destruct (_ =? 1). }
  set (v1 := match op with MIncrement _ _ => _ | _ => _ end).
  assert (me_value (entry_after id op e) = s64 v1) as V1.
  { subst v1. destruct op as [| i k | i k |]; cbn; try done; destruct (decide (i = id)) as [->|Ne].
    1, 3: rewrite Z.eqb_refl. 3, 4: by rewrite (proj2 (Z.eqb_neq i id)).
    - cbn. by rewrite V, s64_add_l.
    - destruct (_ =? 1); cbn; [done|]. by rewrite V, s64_add_l, Z.add_comm, s64_add_l, Z.add_comm. }
  destruct (IH (n + 1) _ _ _ v1 ltac:(lia) (store_ok_step n op s ltac:(lia) Hs) F1 V1) as (e' & F' & N' & T' & V').
  exists e'. rewrite T in *. split; [exact F'|]. split; [congruence|]. split; [congruence|exact V'].
Qed.

Lemma metric_reads (ops1 ops2 : list metric_op) (type id : Z) (name : list Z) (s : MetricStore) :
  zlen ops1 + zlen ops2 < 2 ^ 30 - 2 ->
  find_name name (metrics_ (metric_run ops1 new_MetricStore)) = None ->
  metric_define type name (metric_run ops1 new_MetricStore) = (Ok, Some id, s) ->
  id mod 4 = type_bits type /\
  metric_define type name (metric_run ops2 s) = (Ok, Some id, metric_run ops2 s) /\
  metric_get id (metric_run ops2 s) = (Ok, Some (u64 (meant type id ops2))).
Proof.
  intros Hn F E. pose proof (zlen_nonneg ops1). pose proof (zlen_nonneg ops2).
  pose proof (store_ok_run ops1 0 _ ltac:(lia) new_store_ok) as H1. set (s1 := metric_run ops1 _) in *.
  assert (s = metric_step (MDefine type name) s1) as Es by (cbn; by rewrite E).
  pose proof (store_ok_step (0 + zlen ops1) (MDefine type name) s1 ltac:(lia) H1) as H2. rewrite <- Es in H2.
  unfold metric_define in E. rewrite F in E. injection E as <- Es'. pose proof (next_fresh _ type _ H1) as Fr.
  assert (sfind (nextIdForType type s1) (metrics_ s) = Some (mkEntry name type 0)) as F0.
  { rewrite <- Es'. cbn. rewrite metrics_set_nextIdForType, sfind_semplace by apply H1. by rewrite decide_True, Fr. }
  destruct (sfind_run ops2 (0 + zlen ops1 + 1) s _ _ 0 ltac:(lia) H2 F0 eq_refl) as (e & Fe & N & T & V). cbn in N, T, V.
  pose proof (store_ok_run ops2 (0 + zlen ops1 + 1) s ltac:(lia) H2) as H3. split; [apply H1|]. split.
  - unfold metric_define. erewrite (find_name_elem name); [|apply H3|by apply sfind_elem|done]. by rewrite T, Z.eqb_refl.
  - unfold metric_get. rewrite Fe, V, u64_s64. done.
Qed.

(** An operation that takes nothing away: the offset of an increment is signed. *)
Definition adds (op : metric_op) : Prop :=
  match op with MIncrement _ n | MRecord _ n => 0 <= n | _ => True end.

Lemma meant_grows type id ops1 ops2 :
  type <> 1 -> Forall adds (ops1 ++ ops2) -> 0 <= meant type id ops1 <= meant type id (ops1 ++ ops2).
Proof.
  intros Ht. apply Z.eqb_neq in Ht. unfold meant. rewrite foldl_app, Ht.
  assert (forall ops v, Forall adds ops -> v <= foldl (fun v op => match op with
    | MIncrement i n => if i =? id then v + n else v
    | MRecord i n => if i =? id then v + n else v
    | _ => v end) v ops) as Hf.
  { induction ops as [|op ops IH]; intros v H; [done|]. apply Forall_cons in H as [H1 H]. cbn [foldl].
    etransitivity; [|by apply IH]. destruct op; cbn [adds] in H1; try done; destruct (_ =? id); lia. }
  intros [H1 H2]%Forall_app. split; by apply Hf.
Qed.

(** C26. The value of a metric.  A metric is defined, under a new name, after any history of
    the threads of a module; the id it gets carries its type in the low bits.  After any further history,
    with fewer than 2^30 operations in both, defining it again gives the same id and
    changes nothing, and reading it gives what was meant modulo 2^64: no update is lost and
    none to another id counts.  The offset of an increment is signed, so nothing keeps a
    counter from falling; where no operation has a negative offset and the value stays
    below 2^64, what is read of a counter or a histogram never falls. *)
Theorem metric_value (ops1 ops2 : list metric_op) (type id : Z) (name : list Z) (s : MetricStore) :
  zlen ops1 + zlen ops2 < 2 ^ 30 - 2 ->
  find_name name (metrics_ (metric_run ops1 new_MetricStore)) = None ->
  metric_define type name (metric_run ops1 new_MetricStore) = (Ok, Some id, s) ->
  id mod 4 = type_bits type /\
  metric_define type name (metric_run ops2 s) = (Ok, Some id, metric_run ops2 s) /\
  metric_get id (metric_run ops2 s) = (Ok, Some (u64 (meant type id ops2))) /\
  (type <> 1 -> Forall adds ops2 -> meant type id ops2 < 2 ^ 64 -> forall k, exists v w,
     metric_get id (metric_run (take k ops2) s) = (Ok, Some v) /\
     metric_get id (metric_run ops2 s) = (Ok, Some w) /\ v <= w).
Proof.
  intros Hn F E. destruct (metric_reads ops1 ops2 type id name s Hn F E) as (H1 & H2 & H3).
  do 3 (split; [done|]). intros Ht Ha Hm k. exists (meant type id (take k ops2)), (meant type id ops2).
  assert (zlen (take k ops2) <= zlen ops2) as Hz by (unfold zlen; rewrite length_take; lia).
  destruct (metric_reads ops1 (take k ops2) type id name s ltac:(lia) F E) as (_ & _ & H4).
  rewrite <- (take_drop k ops2) in Ha. pose proof (meant_grows _ id _ _ Ht Ha) as Hg. rewrite take_drop in Hg.
  rewrite H4, H3. unfold u64. rewrite !Z.mod_small by lia. repeat split; lia.
Qed.

Lemma metric_value_witness :
  let ops1 := [MDefine 1 (str "a"); MIncrement 1 3] in
  let ops2 := [MIncrement 0 5; MRecord 1 9; MDefine 0 (str "c"); MRecord 0 7; MIncrement 0 2] in
  let s := (metric_define 0 (str "b") (metric_run ops1 new_MetricStore)).2 in
  0 mod 4 = type_bits 0 /\ metric_define 0 (str "b") (metric_run ops2 s) = (Ok, Some 0, metric_run ops2 s) /\
  metric_get 0 (metric_run ops2 s) = (Ok, Some 14) /\
  exists v w, metric_get 0 (metric_run (take 2 ops2) s) = (Ok, Some v) /\
    metric_get 0 (metric_run ops2 s) = (Ok, Some w) /\ v <= w.
Proof.
  intros ops1 ops2 s.
  destruct (metric_value ops1 ops2 0 0 (str "b") s) as (H1 & H2 & H3 & H4); [vm_compute; reflexivity..|].
  split; [exact H1|]. split; [exact H2|]. split; [exact H3|]. apply H4; [discriminate| |vm_compute; reflexivity].
  repeat (apply Forall_cons_2; [cbn; lia || exact I|]). constructor.
Defined.
