(* ===== verification/HostContext.v ===== *)
(** * The host side of a WASM context

    [LsWasmContext] of wasm_module_manager.h: what the host keeps for one module and one
    request, and the functions the proxy-wasm library calls on it on behalf of the
    module.  A module is code outside of the repository; what it can do is one of these
    calls after the other, and it sees their answers. *)

From S2P Require Export Sinks.
From stdpp Require Export gmap.

Open Scope Z_scope.

(** ** Data *)

(** The enumerations of the proxy-wasm ABI, by the constants the code names. *)
Inductive WasmHeaderMapType := RequestHeaders | ResponseHeaders | OtherHeaderMap (n : Z).
Inductive WasmBufferType := HttpRequestBody | HttpResponseBody | VmConfiguration | PluginConfiguration | OtherBuffer.

#[export] Instance WasmHeaderMapType_eq : EqDecision WasmHeaderMapType.
Proof. solve_decision. Defined.
#[export] Program Instance WasmHeaderMapType_countable : Countable WasmHeaderMapType :=
  inj_countable' (fun t => match t with RequestHeaders => inl true | ResponseHeaders => inl false | OtherHeaderMap n => inr n end)
    (fun x => match x with inl true => RequestHeaders | inl false => ResponseHeaders | inr n => OtherHeaderMap n end) _.
Next Obligation. by intros []. Qed.

(** What the base class of the library holds: the configuration of the plugin (two
    pointers), that of the VM, and the root id. *)
Record ContextBase := mkBase {
  plugin_ : option (list Z);
  temp_plugin_ : option (list Z);
  wasm_ : option (list Z);
  root_id : list Z
}.

(** A [std::string_view] of the request body in [HttpData]: the bytes it was made over, and
    which value of that string it was made for.  The string is replaced for every chunk;
    a view of a former value dangles. *)
Record body_view := mkView { view_bytes : list Z; view_of : Z }.

Record local_response := mkLocal {
  has_local_response_ : bool;
  local_response_code_ : Z;
  local_response_body_ : list Z;
  local_response_details_ : list Z;
  local_response_headers_ : HeaderPairs
}.

Definition no_local_response : local_response := mkLocal false 0 [] [] [].

(** The context; [sink_set] is whether [sink_] is not null (the sink itself is shared by
    the contexts of a request). *)
Record LsWasmContext := mkContext {
  base_ : ContextBase;
  log_ : list Z;
  local_ : local_response;
  header_maps_ : gmap WasmHeaderMapType HeaderPairs;
  request_body_ : body_view;
  response_body_ : list Z;
  end_of_stream_ : bool;
  sink_set : bool;
  stream_state : StreamingResponseState
}.

Definition new_context (b : ContextBase) : LsWasmContext :=
  mkContext b [] no_local_response ∅ (mkView [] 0) [] true false Idle.

Definition set_log (v : list Z) (c : LsWasmContext) : LsWasmContext :=
  mkContext (base_ c) v (local_ c) (header_maps_ c) (request_body_ c) (response_body_ c) (end_of_stream_ c) (sink_set c) (stream_state c).
Definition set_local (v : local_response) (c : LsWasmContext) : LsWasmContext :=
  mkContext (base_ c) (log_ c) v (header_maps_ c) (request_body_ c) (response_body_ c) (end_of_stream_ c) (sink_set c) (stream_state c).
Definition set_header_maps (v : gmap WasmHeaderMapType HeaderPairs) (c : LsWasmContext) : LsWasmContext :=
  mkContext (base_ c) (log_ c) (local_ c) v (request_body_ c) (response_body_ c) (end_of_stream_ c) (sink_set c) (stream_state c).
Definition setRequestBody (v : body_view) (c : LsWasmContext) : LsWasmContext :=
  mkContext (base_ c) (log_ c) (local_ c) (header_maps_ c) v (response_body_ c) (end_of_stream_ c) (sink_set c) (stream_state c).
Definition setResponseBody (v : list Z) (c : LsWasmContext) : LsWasmContext :=
  mkContext (base_ c) (log_ c) (local_ c) (header_maps_ c) (request_body_ c) v (end_of_stream_ c) (sink_set c) (stream_state c).
Definition setEndOfStream (v : bool) (c : LsWasmContext) : LsWasmContext :=
  mkContext (base_ c) (log_ c) (local_ c) (header_maps_ c) (request_body_ c) (response_body_ c) v (sink_set c) (stream_state c).
Definition set_stream (sink : bool) (state : StreamingResponseState) (c : LsWasmContext) : LsWasmContext :=
  mkContext (base_ c) (log_ c) (local_ c) (header_maps_ c) (request_body_ c) (response_body_ c) (end_of_stream_ c) sink state.

(** ** Header maps *)

(** [header_maps_\[type\]] creates an empty map; [find] does not. *)
Definition map_at (type : WasmHeaderMapType) (c : LsWasmContext) : HeaderPairs := default [] (header_maps_ c !! type).

Definition upd_map (type : WasmHeaderMapType) (f : HeaderPairs -> HeaderPairs) (c : LsWasmContext) : LsWasmContext :=
  set_header_maps (<[type := f (map_at type c)]> (header_maps_ c)) c.

(** [erase(remove_if(...))]: the pairs whose name is not [key]. *)
Definition without (key : list Z) (pairs : HeaderPairs) : HeaderPairs := filter (fun p => header_name_eq p.1 key = false) pairs.

Fixpoint first_value (key : list Z) (pairs : HeaderPairs) : option (list Z) :=
  match pairs with
  | [] => None
  | p :: pairs => if header_name_eq p.1 key then Some p.2 else first_value key pairs
  end.

Definition getHeaderMapPairs (type : WasmHeaderMapType) (c : LsWasmContext) : HeaderPairs := map_at type c.
Definition setHeaderMapPairs (type : WasmHeaderMapType) (pairs : HeaderPairs) : LsWasmContext -> LsWasmContext := upd_map type (fun _ => pairs).
Definition getHeaderMapValue (type : WasmHeaderMapType) (key : list Z) (c : LsWasmContext) : list Z :=
  default [] (first_value key (map_at type c)).
Definition addHeaderMapValue (type : WasmHeaderMapType) (key value : list Z) : LsWasmContext -> LsWasmContext :=
  upd_map type (fun pairs => pairs ++ [(key, value)]).
Definition replaceHeaderMapValue (type : WasmHeaderMapType) (key value : list Z) : LsWasmContext -> LsWasmContext :=
  upd_map type (fun pairs => without key pairs ++ [(key, value)]).
Definition removeHeaderMapValue (type : WasmHeaderMapType) (key : list Z) (c : LsWasmContext) : LsWasmContext :=
  match header_maps_ c !! type with
  | Some pairs => set_header_maps (<[type := without key pairs]> (header_maps_ c)) c
  | None => c
  end.

(** [size] is an [uint32_t]. *)
Definition getHeaderMapSize (type : WasmHeaderMapType) (c : LsWasmContext) : Z :=
  foldl (fun size p => u32 (size + (zlen p.1 + zlen p.2 + 4))) 0 (map_at type c).

Definition setHeaderMap (type : WasmHeaderMapType) (pairs : HeaderPairs) : LsWasmContext -> LsWasmContext := upd_map type (fun _ => pairs).
Definition getHeaderMapOwned (type : WasmHeaderMapType) (c : LsWasmContext) : HeaderPairs := map_at type c.
Definition resetHeaderMaps : LsWasmContext -> LsWasmContext := set_header_maps ∅.

(** ** Local responses *)

Definition sendLocalResponse (response_code : Z) (body : list Z) (additional_headers : HeaderPairs) (details : list Z)
    : LsWasmContext -> LsWasmContext :=
  set_local (mkLocal true response_code body details additional_headers).
Definition resetLocalResponse : LsWasmContext -> LsWasmContext := set_local no_local_response.

(** ** Buffers, configuration, properties, log *)

(** [getBuffer]; the outer [None]: the view of the request body dangles.  [live] is which
    value the string of the request body has. *)
Definition getBuffer (live : Z) (type : WasmBufferType) (c : LsWasmContext) : option (option (list Z)) :=
  match type with
  | PluginConfiguration =>
      Some (match plugin_ (base_ c) with Some conf => Some conf | None => temp_plugin_ (base_ c) end)
  | VmConfiguration => Some (wasm_ (base_ c))
  | HttpRequestBody =>
      match view_bytes (request_body_ c) with
      | [] => Some None
      | bytes => if view_of (request_body_ c) =? live then Some (Some bytes) else None
      end
  | HttpResponseBody => Some (match response_body_ c with [] => None | bytes => Some bytes end)
  | OtherBuffer => Some None
  end.

Definition getConfiguration (c : LsWasmContext) : list Z :=
  match plugin_ (base_ c) with Some conf => conf | None => default [] (wasm_ (base_ c)) end.

Definition getProperty (path : list Z) (c : LsWasmContext) : WasmResult * list Z :=
  if bool_decide (path = str "plugin_root_id") then (Ok, root_id (base_ c)) else (NotFound, []).

Definition log_message (message : list Z) (c : LsWasmContext) : LsWasmContext := set_log (log_ c ++ message ++ [10]) c.

(** ** What a module can call, and the answer *)

Inductive host_call :=
| GetHeaderMapPairs (type : WasmHeaderMapType)
| SetHeaderMapPairs (type : WasmHeaderMapType) (pairs : HeaderPairs)
| GetHeaderMapValue (type : WasmHeaderMapType) (key : list Z)
| AddHeaderMapValue (type : WasmHeaderMapType) (key value : list Z)
| ReplaceHeaderMapValue (type : WasmHeaderMapType) (key value : list Z)
| RemoveHeaderMapValue (type : WasmHeaderMapType) (key : list Z)
| GetHeaderMapSize (type : WasmHeaderMapType)
| GetBuffer (type : WasmBufferType)
| EndOfStream
| GetConfiguration
| GetProperty (path : list Z)
| SetProperty (key value : list Z)
| HttpCall (target : list Z)
| LogMessage (message : list Z)
| SendLocalResponse (code : Z) (body : list Z) (headers : HeaderPairs) (details : list Z)
| Foreign (call : foreign_call)
| ContinueStream
| CloseStream
| ClearRouteCache
| GetStatus
| GetLogLevel.

Definition answer (c : host_call) : Type :=
  match c with
  | GetHeaderMapPairs _ => HeaderPairs
  | GetHeaderMapValue _ _ | GetConfiguration => list Z
  | GetHeaderMapSize _ => Z
  | GetBuffer _ => option (list Z)
  | EndOfStream => bool
  | GetProperty _ => WasmResult * list Z
  | ClearRouteCache => unit
  | GetStatus => Z * list Z
  | GetLogLevel => Z
  | _ => WasmResult
  end.

Section HostCalls.
Context {S : Type} `{ResponseSink S}.

(** A foreign function on a context and the sink behind its pointer. *)
Definition foreign_on (call : foreign_call) (c : LsWasmContext) (s : S) : option (WasmResult * (LsWasmContext * S)) :=
  '(r, x) ← foreign call (mkStream (if sink_set c then Some s else None) (stream_state c));
  Some (r, (set_stream (sink_set c) (streaming_state_ x) c, default s (sink_ x))).

(** [LogLevel::trace], the first of the levels. *)
Definition LogLevel_trace : Z := 0.

(** One call.  [None]: undefined behaviour, or a call that does not return. *)
Definition host_step (live : Z) (call : host_call) (c : LsWasmContext) (s : S) : option (answer call * (LsWasmContext * S)) :=
  match call return option (answer call * (LsWasmContext * S)) with
  | GetHeaderMapPairs type => Some (getHeaderMapPairs type c, (c, s))
  | SetHeaderMapPairs type pairs => Some (Ok, (setHeaderMapPairs type pairs c, s))
  | GetHeaderMapValue type key => Some (getHeaderMapValue type key c, (c, s))
  | AddHeaderMapValue type key value => Some (Ok, (addHeaderMapValue type key value c, s))
  | ReplaceHeaderMapValue type key value => Some (Ok, (replaceHeaderMapValue type key value c, s))
  | RemoveHeaderMapValue type key => Some (Ok, (removeHeaderMapValue type key c, s))
  | GetHeaderMapSize type => Some (getHeaderMapSize type c, (c, s))
  | GetBuffer type => b ← getBuffer live type c; Some (b, (c, s))
  | EndOfStream => Some (end_of_stream_ c, (c, s))
  | GetConfiguration => Some (getConfiguration c, (c, s))
  | GetProperty path => Some (getProperty path c, (c, s))
  | SetProperty _ _ => Some (Ok, (c, s))
  | HttpCall _ => Some (Unimplemented, (c, s))
  | LogMessage message => Some (Ok, (log_message message c, s))
  | SendLocalResponse code body headers details => Some (Ok, (sendLocalResponse code body headers details c, s))
  | Foreign call => foreign_on call c s
  | ContinueStream => Some (Ok, (c, s))
  | CloseStream => Some (Ok, (c, s))
  | ClearRouteCache => Some (tt, (c, s))
  | GetStatus => Some ((0, []), (c, s))
  | GetLogLevel => Some (LogLevel_trace, (c, s))
  end.

(** What a module does in one callback: calls, each chosen by the answers so far, and then
    the state [W] its VM is left in. *)
Inductive prog (W : Type) : Type :=
| Ret (w : W)
| Do (call : host_call) (k : answer call -> prog W).

Arguments Ret {W} _.
Arguments Do {W} _ _.

Fixpoint run_prog {W} (live : Z) (p : prog W) (c : LsWasmContext) (s : S) : option (W * (LsWasmContext * S)) :=
  match p with
  | Ret w => Some (w, (c, s))
  | Do call k =>
      '(a, (c, s)) ← host_step live call c s;
      run_prog live (k a) c s
  end.
End HostCalls.

Arguments Ret {W} _.
Arguments Do {W} _ _.
