(* ===== verification/HostContextSpec.v ===== *)
(** * What the host side of a context promises

    The header maps refine an abstract map from names, up to case, to lists of values; what
    a module's calls leave alone in a context, and that on a sink that answers they always
    have an answer; and a log of a module's foreign calls beside the state of its VM, which
    changes nothing of the run. *)

From S2P Require Export HostContext.
From S2P Require Export SinksSpec.
From S2P Require Import HttpUtilsSpec.

Open Scope Z_scope.

(** ** Header maps *)

(** The values of a name, in order. *)
Definition values (n : list Z) (pairs : HeaderPairs) : list (list Z) := snd <$> filter (fun p => header_name_eq p.1 n = true) pairs.

Lemma header_name_eq_refl a : header_name_eq a a = true.
Proof. by apply header_name_eq_spec. Qed.

Lemma header_name_eq_sym a b : header_name_eq a b = header_name_eq b a.
Proof. apply eq_true_iff_eq. rewrite !header_name_eq_spec. done. Qed.

Lemma header_name_eq_l a b c : header_name_eq a b = true -> header_name_eq a c = header_name_eq b c.
Proof. intros E%header_name_eq_spec. apply eq_true_iff_eq. rewrite !header_name_eq_spec. by rewrite E. Qed.

Lemma values_app n l k : values n (l ++ k) = values n l ++ values n k.
Proof. unfold values. by rewrite filter_app, fmap_app. Qed.

Lemma values_one n k v : values n [(k, v)] = if header_name_eq k n then [v] else [].
Proof. unfold values. rewrite filter_cons. cbn. by destruct (header_name_eq k n) eqn:E; [rewrite decide_True|rewrite decide_False]. Qed.

Lemma values_without n k l : values n (without k l) = if header_name_eq k n then [] else values n l.
Proof.
  induction l as [|p l IH]; [by destruct (header_name_eq k n)|]. unfold without. rewrite filter_cons.
  fold (without k l). change (p :: l) with ([p] ++ l). rewrite values_app. destruct p as [a v]. rewrite values_one. cbn [fst].
  destruct (header_name_eq a k) eqn:E; [rewrite decide_False by congruence|rewrite decide_True by done].
  - rewrite IH, (header_name_eq_l a k n E). by destruct (header_name_eq k n).
  - change (_ :: without k l) with ([(a, v)] ++ without k l). rewrite values_app, values_one, IH.
    destruct (header_name_eq k n) eqn:Ek; [|done]. rewrite header_name_eq_sym in Ek.
    rewrite header_name_eq_sym, (header_name_eq_l n k a Ek), header_name_eq_sym, E. done.
Qed.

Lemma first_value_values n l : first_value n l = head (values n l).
Proof.
  induction l as [|p l IH]; [done|]. unfold values. cbn [first_value]. rewrite filter_cons.
  destruct (header_name_eq p.1 n) eqn:E; [by rewrite decide_True|]. by rewrite decide_False, IH by congruence.
Qed.

(** The header maps as functions from a name to its values; names that differ in case are
    one name. *)
Definition header_spec : Type := WasmHeaderMapType -> list Z -> list (list Z).

Definition change (t : WasmHeaderMapType) (k : list Z) (f : list (list Z) -> list (list Z)) (m : header_spec) : header_spec :=
  fun t' n => if bool_decide (t = t') && header_name_eq k n then f (m t' n) else m t' n.

Definition spec_headers (call : host_call) (m : header_spec) : header_spec :=
  match call with
  | SetHeaderMapPairs t pairs => fun t' n => if bool_decide (t = t') then values n pairs else m t' n
  | AddHeaderMapValue t k v => change t k (fun l => l ++ [v]) m
  | ReplaceHeaderMapValue t k v => change t k (fun _ => [v]) m
  | RemoveHeaderMapValue t k => change t k (fun _ => []) m
  | _ => m
  end.

Definition headers_are (m : header_spec) (c : LsWasmContext) : Prop := forall t n, values n (map_at t c) = m t n.

Lemma map_at_upd t f c t' : map_at t' (upd_map t f c) = if bool_decide (t = t') then f (map_at t c) else map_at t' c.
Proof.
  unfold map_at, upd_map. cbn. case_bool_decide as E; [subst; by rewrite lookup_insert_eq|by rewrite lookup_insert_ne].
Qed.

(** The laws of the library's getters in terms of the abstract map. *)
Definition answers_headers (m : header_spec) (call : host_call) : answer call -> Prop :=
  match call return answer call -> Prop with
  | GetHeaderMapValue t k => fun v => v = default [] (head (m t k))
  | GetHeaderMapPairs t => fun pairs => forall n, values n pairs = m t n
  | _ => fun _ => True
  end.

Section Steps.
Context {S : Type} `{ResponseSink S}.

Lemma foreign_on_inv call c (s : S) r c' s' : foreign_on call c s = Some (r, (c', s')) ->
  exists x, foreign call (mkStream (if sink_set c then Some s else None) (stream_state c)) = Some (r, x) /\
    c' = set_stream (sink_set c) (streaming_state_ x) c /\ s' = default s (sink_ x).
Proof.
  unfold foreign_on. destruct (foreign _ _) as [[r' x]|]; [|done]. cbn. intros [= -> <- <-]. by exists x.
Qed.

Lemma headers_step live call c (s : S) a c' s' m : headers_are m c -> host_step live call c s = Some (a, (c', s')) ->
  headers_are (spec_headers call m) c' /\ answers_headers m call a.
Proof.
  intros Hm E. destruct call; cbn [host_step] in E; cbn [spec_headers answers_headers].
  all: try (injection E as <- <- <-; split; [|done]; exact Hm).
  - injection E as <- <- <-. split; [|done]. intros t n. unfold setHeaderMapPairs. rewrite map_at_upd.
    case_bool_decide; [done|apply Hm].
  - injection E as <- <- <-. split; [exact Hm|]. unfold getHeaderMapValue. by rewrite first_value_values, Hm.
  - injection E as <- <- <-. split; [|done]. intros t n. unfold addHeaderMapValue, change. rewrite map_at_upd.
    case_bool_decide as Et; [|apply Hm]. subst. rewrite values_app, values_one, Hm. cbn. destruct (header_name_eq _ _); [done|apply app_nil_r].
  - injection E as <- <- <-. split; [|done]. intros t n. unfold replaceHeaderMapValue, change. rewrite map_at_upd.
    case_bool_decide as Et; [|apply Hm]. subst. rewrite values_app, values_one, values_without, Hm. cbn.
    destruct (header_name_eq _ _); [done|apply app_nil_r].
  - injection E as <- <- <-. split; [|done]. intros t n. unfold removeHeaderMapValue, change.
    destruct (header_maps_ c !! type) as [pairs|] eqn:P.
    + change (set_header_maps (<[type:=without key pairs]> (header_maps_ c)) c) with
        (set_header_maps (<[type:=without key (default [] (Some pairs))]> (header_maps_ c)) c). rewrite <- P.
      change (set_header_maps _ c) with (upd_map type (without key) c). rewrite map_at_upd.
      case_bool_decide as Et; [|apply Hm]. subst. rewrite values_without, Hm. cbn. by destruct (header_name_eq _ _).
    + rewrite Hm. case_bool_decide as Et; [|done]. subst. cbn. destruct (header_name_eq key n) eqn:Ek; [|done].
      rewrite <- Hm. unfold map_at. by rewrite P.
  - destruct (getBuffer live type c); [|done]. injection E as <- <- <-. done.
  - apply foreign_on_inv in E as (x & _ & -> & _). done.
Qed.
End Steps.

(** A sequence of calls of a module with its answers. *)
Section Calls.
Context {S : Type} `{ResponseSink S}.

Fixpoint run_calls (live : Z) (calls : list host_call) (c : LsWasmContext) (s : S) : option (list (sigT answer) * (LsWasmContext * S)) :=
  match calls with
  | [] => Some ([], (c, s))
  | call :: calls =>
      '(a, (c, s)) ← host_step live call c s;
      '(l, x) ← run_calls live calls c s;
      Some (existT call a :: l, x)
  end.
End Calls.

(** What each answer must be, along a sequence. *)
Fixpoint answers_along (m : header_spec) (l : list (sigT answer)) : Prop :=
  match l with
  | [] => True
  | existT call a :: l => answers_headers m call a /\ answers_along (spec_headers call m) l
  end.

(** C25. The header maps of a context refine an abstract map in which a name, whatever its
    case, has a list of values: after any calls of a module, in any order and among any
    other calls, each getter has answered with the values the calls before it have given
    (the first one for a single value, none for a name that is not there), and the maps
    hold the values of all of them. *)
Theorem header_maps_refine {S : Type} `{ResponseSink S} (live : Z) (calls : list host_call) (b : ContextBase) (s s' : S)
    (l : list (sigT answer)) (c' : LsWasmContext) :
  run_calls live calls (new_context b) s = Some (l, (c', s')) ->
  answers_along (fun _ _ => []) l /\ headers_are (foldl (fun m call => spec_headers call m) (fun _ _ => []) calls) c'.
Proof.
  assert (headers_are (fun _ _ => []) (new_context b)) as Hm by (intros t n; unfold map_at; cbn; by rewrite lookup_empty).
  revert Hm. generalize (new_context b) as c. generalize ((fun _ _ => []) : header_spec) as m.
  revert s l. induction calls as [|call calls IH]; intros s l m c Hm E; cbn in E; [by injection E as <- <- <-|].
  destruct (host_step live call c s) as [[a [c1 s1]]|] eqn:E1; [|done]. cbn in E.
  destruct (run_calls live calls c1 s1) as [[l1 x]|] eqn:E2; [|done]. cbn in E. injection E as <- ->.
  apply (headers_step _ _ _ _ _ _ _ _ Hm) in E1 as [H1 H2]. apply (IH _ _ _ _ H1) in E2 as [H3 H4]. cbn. done.
Qed.

Lemma header_maps_refine_witness :
  let calls := [AddHeaderMapValue RequestHeaders (str "A") (str "1"); AddHeaderMapValue RequestHeaders (str "a") (str "2");
    GetHeaderMapValue RequestHeaders (str "A"); ReplaceHeaderMapValue RequestHeaders (str "a") (str "3");
    RemoveHeaderMapValue ResponseHeaders (str "A"); GetHeaderMapPairs RequestHeaders] in
  let c0 := new_context (mkBase None None None []) in
  match run_calls 0 calls c0 new_HttpResponseSink with
  | Some (l, (c', _)) =>
      answers_along (fun _ _ => []) l /\ headers_are (foldl (fun m call => spec_headers call m) (fun _ _ => []) calls) c' /\
      values (str "A") (map_at RequestHeaders c') = [str "3"]
  | None => False
  end.
Proof.
  intros calls c0. destruct (run_calls 0 calls c0 new_HttpResponseSink) as [[l [c' s']]|] eqn:E; [|vm_compute in E; discriminate].
  destruct (header_maps_refine 0 calls (mkBase None None None []) new_HttpResponseSink s' l c' E) as [H1 H2].
  split; [exact H1|]. split; [exact H2|]. rewrite (H2 RequestHeaders (str "A")). vm_compute. reflexivity.
Defined.

(** ** What calls leave alone *)

(** Before and after calls of a module: what only the host changes, a stream that never goes
    back, and a local response that is not taken back. *)
Record context_le (c c' : LsWasmContext) : Prop := {
  cl_base : base_ c' = base_ c;
  cl_request_body : request_body_ c' = request_body_ c;
  cl_response_body : response_body_ c' = response_body_ c;
  cl_eos : end_of_stream_ c' = end_of_stream_ c;
  cl_sink : sink_set c' = sink_set c;
  cl_stream : stream_state c' = Idle -> stream_state c = Idle;
  cl_local : has_local_response_ (local_ c) = true -> has_local_response_ (local_ c') = true
}.

#[export] Instance context_le_preorder : PreOrder context_le.
Proof. split; [by intros c|]. intros a b c [] []. split; try congruence; auto. Qed.

Section Frame.
Context {S : Type} `{ResponseSink S}.

Lemma foreign_state call (x : stream_ctx S) r x' : foreign call x = Some (r, x') ->
  (streaming_state_ x' = Idle -> streaming_state_ x = Idle) /\ (sink_ x = None -> x' = x).
Proof.
  destruct x as [[s|] state]; intros E; (split; [|try done]).
  - intros I. destruct state; [done|exfalso..]; destruct call as [a|d|]; cbn in E; unfold send_response_headers, streamingWriteChunk in E; cbn in E.
    all: try (injection E as <- <-; done).
    all: try (destruct (zlen a <? 4); [injection E as <- <-; done|]; destruct (load_u32 a 0); [|done]; cbn in E;
      destruct (deserialize_header_pairs _); [|done]; cbn in E; injection E as <- <-; done).
    + destruct (bool_decide _); [injection E as <- <-; done|]. destruct (writeBody d s) as [[[] ?]|]; [..|done]; injection E as <- <-; done.
    + unfold streamingFinish in E. cbn in E. destruct (finishBody s) as [[[] ?]|]; [..|done]; injection E as <- <-; done.
  - intros I. destruct call as [a|d|]; cbn in E; try (injection E as <- <-; done).
    unfold send_response_headers in E. destruct (zlen a <? 4); [by injection E as <- <-|]. destruct (load_u32 a 0); [|done].
    cbn in E. destruct (deserialize_header_pairs _); [|done]. cbn in E. by injection E as <- <-.
  - intros _. destruct call as [a|d|]; cbn in E; try (by injection E as <- <-).
    unfold send_response_headers in E. destruct (zlen a <? 4); [by injection E as <- <-|]. destruct (load_u32 a 0); [|done].
    cbn in E. destruct (deserialize_header_pairs _); [|done]. cbn in E. by injection E as <- <-.
Qed.

Lemma host_step_le live call c (s : S) a c' s' : host_step live call c s = Some (a, (c', s')) -> context_le c c'.
Proof.
  intros E. destruct call; cbn [host_step] in E.
  all: try (injection E as <- <- <-; by split).
  - injection E as <- <- <-. unfold removeHeaderMapValue. by destruct (_ !! _).
  - destruct (getBuffer live type c); [|done]. by injection E as <- <- <-.
  - apply foreign_on_inv in E as (x & E & -> & _). apply foreign_state in E as [E _]. by split.
Qed.

(** A context without a sink leaves the sink alone. *)
Lemma host_step_no_sink live call c (s : S) a c' s' : sink_set c = false -> host_step live call c s = Some (a, (c', s')) ->
  s' = s /\ stream_state c' = stream_state c.
Proof.
  intros N E. destruct call; cbn [host_step] in E.
  all: try (injection E as <- <- <-; by split).
  - injection E as <- <- <-. unfold removeHeaderMapValue. by destruct (_ !! _).
  - destruct (getBuffer live type c); [|done]. by injection E as <- <- <-.
  - apply foreign_on_inv in E as (x & E & -> & ->). rewrite N in *. apply foreign_state in E as [_ E]. by rewrite E.
Qed.

(** A preorder that every call respects is respected by a callback. *)
Lemma run_prog_rel {W} (R : LsWasmContext * S -> LsWasmContext * S -> Prop) `{!PreOrder R} live (p : prog W) :
  (forall call c s a c' s', host_step live call c s = Some (a, (c', s')) -> R (c, s) (c', s')) ->
  forall c s w c' s', run_prog live p c s = Some (w, (c', s')) -> R (c, s) (c', s').
Proof.
  intros HR. induction p as [w0|call k IH]; intros c s w c' s' E; cbn in E; [by injection E as <- <- <-|].
  destruct (host_step live call c s) as [[a [c1 s1]]|] eqn:E1; [|done]. cbn in E.
  etransitivity; [by eapply HR|by eapply IH].
Qed.

Lemma run_prog_le {W} live (p : prog W) c (s : S) w c' s' : run_prog live p c s = Some (w, (c', s')) -> context_le c c'.
Proof.
  refine (run_prog_rel (fun x y => context_le x.1 y.1) live p _ c s w c' s').
  - split; [intros []; reflexivity|]. intros a b d. apply transitivity.
  - intros ?????? E. by eapply host_step_le.
Qed.

Lemma run_prog_no_sink {W} live (p : prog W) : forall c (s : S) w c' s',
  sink_set c = false -> run_prog live p c s = Some (w, (c', s')) -> s' = s /\ stream_state c' = stream_state c.
Proof.
  induction p as [w0|call k IH]; intros c s w c' s' N E; cbn in E; [by injection E as <- <- <-|].
  destruct (host_step live call c s) as [[a [c1 s1]]|] eqn:E1; [|done]. cbn in E.
  pose proof (cl_sink _ _ (host_step_le _ _ _ _ _ _ _ E1)) as N1.
  apply host_step_no_sink in E1 as [-> E1]; [|done]. apply IH in E as [-> E]; [|congruence]. split; [done|congruence].
Qed.
End Frame.

(** ** The HTTP sink *)

(** A C++ string holds bytes; this is all that is asked of the calls of a module. *)
Definition good_call (call : host_call) : Prop :=
  match call with Foreign (FSendHeaders a) => bytes a | Foreign (FWriteChunk d) => zlen d < 2 ^ 63 | _ => True end.

Fixpoint good_prog {W} (p : prog W) : Prop :=
  match p with Ret _ => True | Do call k => good_call call /\ forall a, good_prog (k a) end.

(** The view of the request body does not dangle. *)
Definition fresh_view (live : Z) (c : LsWasmContext) : Prop := view_bytes (request_body_ c) = [] \/ view_of (request_body_ c) = live.

Lemma http_foreign_total call (x : stream_ctx HttpResponseSink) : good_call (Foreign call) -> is_Some (foreign call x).
Proof.
  intros G. destruct x as [[s|] state]; destruct call as [a|d|]; cbn; try by eauto.
  1, 4: unfold send_response_headers; destruct (Z.ltb_spec (zlen a) 4); [eauto|]; destruct (load_u32_Some a 0) as [n ->]; [lia..|]; cbn;
    destruct (deserialize_total (drop 4 a)) as [hs ->]; [by apply Forall_drop|]; cbn; unfold streamingSendHeaders; cbn; try by eauto.
  - destruct state; [|eauto..]. destruct (http_sendHeaders n hs true s). cbn. eauto.
  - unfold streamingWriteChunk. cbn. destruct state; [eauto| |eauto]. destruct (bool_decide _); [eauto|].
    destruct (http_writeBody d s). cbn. eauto.
  - unfold streamingFinish. cbn. destruct state; [eauto| |eauto]. destruct (http_finishBody s). cbn. eauto.
Qed.

Lemma http_step_total live call c (s : HttpResponseSink) : good_call call -> fresh_view live c -> is_Some (host_step live call c s).
Proof.
  intros G F. destruct call; cbn [host_step]; eauto.
  - assert (is_Some (getBuffer live type c)) as [b ->]; [|cbn; eauto]. destruct type; cbn; eauto.
    destruct F as [-> | ->]; [eauto|]. rewrite Z.eqb_refl. destruct (view_bytes _); eauto.
  - unfold foreign_on. destruct (http_foreign_total call (mkStream (if sink_set c then Some s else None) (stream_state c)) G) as [[r x] ->].
    cbn. eauto.
Qed.

(** A callback of a module over HTTP always comes to an end. *)
Lemma http_prog_total {W} live (p : prog W) : good_prog p -> forall c (s : HttpResponseSink), fresh_view live c ->
  is_Some (run_prog live p c s).
Proof.
  induction p as [w|call k IH]; intros G c s F; cbn; [eauto|]. destruct G as [G1 G2].
  destruct (http_step_total live call c s G1 F) as [[a [c1 s1]] E]. rewrite E. cbn. apply IH; [apply G2|].
  unfold fresh_view in *. by rewrite (cl_request_body _ _ (host_step_le _ _ _ _ _ _ _ E)).
Qed.

(** As long as no stream has begun, nothing has been written. *)
Lemma http_foreign_idle call (x x' : stream_ctx HttpResponseSink) s r : sink_ x = Some s -> foreign call x = Some (r, x') ->
  exists s', sink_ x' = Some s' /\ (streaming_state_ x' = Idle -> written s' = written s).
Proof.
  destruct x as [? state]. intros Hx E. cbn in Hx. subst. destruct call as [a|d|]; cbn in E.
  - unfold send_response_headers in E. destruct (zlen a <? 4); [injection E as <- <-; by exists s|].
    destruct (load_u32 a 0) as [n|]; [|done]. cbn in E. destruct (deserialize_header_pairs _) as [hs|]; [|done]. cbn in E.
    unfold streamingSendHeaders in E. cbn in E. destruct state; [|by injection E as <- <-; exists s..].
    unfold http_sendHeaders in E. destruct (negb (conn_ s)); [injection E as <- <-; by eexists|].
    destruct (normalize hs false []); injection E as <- <-; by eexists.
  - unfold streamingWriteChunk in E. cbn in E. destruct state; [by injection E as <- <-; exists s| |by injection E as <- <-; exists s].
    destruct (bool_decide _); [by injection E as <- <-; exists s|]. destruct (http_writeBody d s) as [[] s1]; injection E as <- <-; by eexists.
  - unfold streamingFinish in E. cbn in E. destruct state; [by injection E as <- <-; exists s| |by injection E as <- <-; exists s].
    destruct (http_finishBody s) as [[] s1]; injection E as <- <-; by eexists.
Qed.

Definition idle_keeps (x y : LsWasmContext * HttpResponseSink) : Prop :=
  context_le x.1 y.1 /\ (stream_state y.1 = Idle -> written y.2 = written x.2).

#[export] Instance idle_keeps_preorder : PreOrder idle_keeps.
Proof.
  split; [by intros []; split|]. intros a b c [H1 H2] [H3 H4]. split; [by etransitivity|]. intros I.
  rewrite H4 by done. apply H2. by apply (cl_stream _ _ H3).
Qed.

Lemma http_prog_idle {W} live (p : prog W) c (s : HttpResponseSink) w c' s' :
  run_prog live p c s = Some (w, (c', s')) -> stream_state c' = Idle -> written s' = written s.
Proof.
  intros E. refine (proj2 (run_prog_rel idle_keeps live p _ _ _ _ _ _ E)). clear. intros call c s a c' s' E.
  split; [by eapply host_step_le|]. cbn. intros I. destruct call; cbn [host_step] in E.
  all: try (by injection E as <- <- <-).
  - destruct (getBuffer live type c); [|done]. by injection E as <- <- <-.
  - apply foreign_on_inv in E as (x & E & -> & ->). destruct (sink_set c) eqn:N.
    + apply (http_foreign_idle _ _ _ s) in E as (s' & -> & E); [by apply E|done].
    + apply foreign_state in E as [_ E]. by rewrite E.
Qed.

(** ** The streaming calls of a module *)

(** The foreign calls a module has made, with the answers it was given. *)
Abbreviation foreign_log := (list (foreign_call * WasmResult)).

Definition log_entry (call : host_call) : answer call -> foreign_log :=
  match call return answer call -> foreign_log with
  | Foreign c => fun a => [(c, a)]
  | _ => fun _ => []
  end.

(** A program that keeps a log of its foreign calls beside the state of its VM. *)
Fixpoint logged {W} (log : foreign_log) (p : prog W) : prog (W * foreign_log) :=
  match p with
  | Ret w => Ret (w, log)
  | Do call k => Do call (fun a => logged (log ++ log_entry call a) (k a))
  end.

(** The log changes nothing else. *)
Lemma run_logged {S} `{ResponseSink S} {W} live (p : prog W) : forall log c (s : S),
  (fun '((w, _), x) => (w, x)) <$> run_prog live (logged log p) c s = run_prog live p c s.
Proof.
  induction p as [w|call k IH]; intros log c s; cbn; [done|].
  destruct (host_step live call c s) as [[a [c1 s1]]|]; cbn; [apply IH|done].
Qed.

Lemma logged_good {W} (p : prog W) log : good_prog p -> good_prog (logged log p).
Proof. revert log. induction p as [w|call k IH]; intros log; cbn; [done|]. intros [G1 G2]. split; [done|]. intros a. by apply IH. Qed.

(** The modules of a server, with the log beside the state of the VMs. *)
Definition logged_callback {N P W} (callback : N -> P -> W -> prog W) (m : N) (ph : P) (w : W * foreign_log) : prog (W * foreign_log) :=
  logged w.2 (callback m ph w.1).
Definition logged_open {N B W} (open_scope : N -> W -> B * W) (m : N) (w : W * foreign_log) : B * (W * foreign_log) :=
  let '(b, w') := open_scope m w.1 in (b, (w', w.2)).

(** ** Streams *)

Section Streams.
Context {S : Type} `{SinkLaws S}.

(** The stream of a context whose streaming calls, with their answers, are [log]. *)
Definition streams (log : foreign_log) (s : S) (c : LsWasmContext) : Prop :=
  stream_inv (mkStream (Some s) (stream_state c)) (accepted_heads log) (accepted_body log).

(** The streaming calls of a callback are those the sink is made for. *)
Fixpoint prog_fits {W} (p : prog W) : Prop :=
  match p with
  | Ret _ => True
  | Do call k => match call with Foreign call => fits_call call | _ => True end /\ forall a, prog_fits (k a)
  end.

Lemma prog_logged_fits {W} (p : prog W) log : prog_fits p -> prog_fits (logged log p).
Proof. revert log. induction p as [w|call k IH]; intros log; cbn; [done|]. intros [G1 G2]. split; [done|]. intros a. by apply IH. Qed.

(** Over a sink that keeps its laws, a callback leaves a stream that its sink shows. *)
Lemma prog_streams {W} live (p : prog W) : prog_fits p -> forall log c (s : S) w log' c' s', sink_set c = true -> streams log s c ->
  run_prog live (logged log p) c s = Some ((w, log'), (c', s')) -> streams log' s' c'.
Proof.
  induction p as [w0|call k IH]; intros G log c s w log' c' s' N I E; cbn in E; [by injection E as <- <- <- <-|]. destruct G as [G1 G2].
  destruct (host_step live call c s) as [[a [c1 s1]]|] eqn:E1; [|done]. cbn in E.
  refine (IH a (G2 a) _ _ _ _ _ _ _ _ _ E); [by rewrite (cl_sink _ _ (host_step_le _ _ _ _ _ _ _ E1))|]. clear E IH G2.
  assert (s1 = s /\ stream_state c1 = stream_state c -> log_entry call a = [] -> streams (log ++ log_entry call a) s1 c1) as Same
    by (intros [-> Es] ->; unfold streams; by rewrite Es, app_nil_r).
  destruct call; cbn [host_step] in E1; try (injection E1 as <- <- <-; by apply Same).
  - injection E1 as <- <- <-. apply Same; [|done]. unfold removeHeaderMapValue. by destruct (_ !! _).
  - destruct (getBuffer live type c); [|done]. injection E1 as <- <- <-. by apply Same.
  - apply foreign_on_inv in E1 as (x & E1 & -> & ->). rewrite N in E1.
    eapply stream_inv_step in E1; [|exact G1|exact I]. destruct E1 as (s2 & Es & E1). rewrite Es. cbn.
    unfold streams, accepted_heads, accepted_body. cbn [log_entry]. rewrite omap_app, fmap_app, join_app. exists s2. split; [done|exact E1].
Qed.

(** Without a sink no streaming call is accepted. *)
Lemma prog_no_sink_log {W} live (p : prog W) : forall log c (s : S) w log' c' s', sink_set c = false ->
  run_prog live (logged log p) c s = Some ((w, log'), (c', s')) ->
  accepted_heads log' = accepted_heads log /\ accepted_body log' = accepted_body log.
Proof.
  induction p as [w0|call k IH]; intros log c s w log' c' s' N E; cbn in E; [by injection E as <- <- <- <-|].
  destruct (host_step live call c s) as [[a [c1 s1]]|] eqn:E1; [|done]. cbn in E.
  apply IH in E as [-> ->]; [|by rewrite (cl_sink _ _ (host_step_le _ _ _ _ _ _ _ E1))].
  unfold accepted_heads, accepted_body. rewrite omap_app, fmap_app, join_app.
  enough (omap (fun '(call, r) => match call, r with FSendHeaders a, Ok => head_of a | _, _ => None end) (log_entry call a) = [] /\
    mjoin ((fun '(call, r) => match call, r with FWriteChunk d, Ok => d | _, _ => [] end) <$> log_entry call a) = []) as [-> ->] by by rewrite !app_nil_r.
  destruct call; try done. cbn [host_step] in E1. apply foreign_on_inv in E1 as (x & E1 & _ & _). rewrite N in E1. cbn [log_entry].
  destruct call as [arg|d|]; cbn in E1; [|by injection E1 as <- _..].
  unfold send_response_headers in E1. destruct (zlen arg <? 4); [by injection E1 as <- _|].
  destruct (load_u32 arg 0); [|done]. cbn in E1. destruct (deserialize_header_pairs _); [|done]. by injection E1 as <- _.
Qed.
End Streams.

Lemma good_prog_fits {W} (p : prog W) : good_prog p -> prog_fits (S := HttpResponseSink) p.
Proof.
  induction p as [w|call k IH]; cbn; [done|]. intros [G1 G2]. split; [|intros a; by apply IH].
  destruct call; try done. by destruct call.
Qed.
