(* ===== verification/Filters.v ===== *)
(** * The filter chain of a request

    [HttpFilterContext] of http_filter.h, with the scopes it is handed
    ([RequestScope] of wasm_module_manager.h) by the table of loaded modules ([Modules]).
    The modules are parameters: whether a thread can get a VM for one, and the calls it
    makes in each of its callbacks. *)

From S2P Require Export HostContext StdMap.

Open Scope Z_scope.

Abbreviation name := (list Z).

(** ** Changes of [HttpData] *)

Definition set_request_headers (v : HeaderPairs) (d : HttpData) : HttpData :=
  mkHttpData (hd_method d) (hd_path d) (hd_version d) v (response_headers d) (request_body d) (response_body d)
    (has_local_response d) (local_response_code d) (local_response_body d) (local_response_additional_headers d).
Definition set_response_headers (v : HeaderPairs) (d : HttpData) : HttpData :=
  mkHttpData (hd_method d) (hd_path d) (hd_version d) (request_headers d) v (request_body d) (response_body d)
    (has_local_response d) (local_response_code d) (local_response_body d) (local_response_additional_headers d).
Definition set_request_body (v : list Z) (d : HttpData) : HttpData :=
  mkHttpData (hd_method d) (hd_path d) (hd_version d) (request_headers d) (response_headers d) v (response_body d)
    (has_local_response d) (local_response_code d) (local_response_body d) (local_response_additional_headers d).
Definition set_response_body (v : list Z) (d : HttpData) : HttpData :=
  mkHttpData (hd_method d) (hd_path d) (hd_version d) (request_headers d) (response_headers d) (request_body d) v
    (has_local_response d) (local_response_code d) (local_response_body d) (local_response_additional_headers d).
Definition take_local_response (l : local_response) (d : HttpData) : HttpData :=
  mkHttpData (hd_method d) (hd_path d) (hd_version d) (request_headers d) (response_headers d) (request_body d) (response_body d)
    true (local_response_code_ l) (local_response_body_ l) (local_response_headers_ l).

(** ** Pseudo-headers *)

Definition has_header (n : list Z) (hdrs : HeaderPairs) : bool := existsb (fun p => header_name_eq p.1 n) hdrs.

(** The [:authority] taken from [Host]. *)
Definition host_of (hdrs : HeaderPairs) : list Z := default (str "localhost") (first_value (str "Host") hdrs).

Definition pseudo_headers (d : HttpData) : HeaderPairs :=
  let hdrs := request_headers d in
  (if negb (has_header (str ":method") hdrs) && negb (bool_decide (hd_method d = [])) then [(str ":method", hd_method d)] else []) ++
  (if negb (has_header (str ":path") hdrs) && negb (bool_decide (hd_path d = [])) then [(str ":path", hd_path d)] else []) ++
  (if negb (has_header (str ":scheme") hdrs) then [(str ":scheme", str "http")] else []) ++
  (if negb (has_header (str ":authority") hdrs) then [(str ":authority", host_of hdrs)] else []).

Definition synthesizePseudoHeaders (d : HttpData) : HttpData :=
  match pseudo_headers d with
  | [] => d
  | pseudo => set_request_headers (pseudo ++ request_headers d) d
  end.

(** ** The chain *)

(** The callbacks of a module; the body of a request or response and the end of the stream
    are the arguments the module sees. *)
Inductive phase :=
| OnCreate
| OnRequestHeaders (end_of_stream : bool)
| OnRequestBody (body_size : Z) (end_of_stream : bool)
| OnRequestTrailers
| OnResponseHeaders (end_of_stream : bool)
| OnResponseBody (body_size : Z) (end_of_stream : bool)
| OnResponseTrailers
| OnDone
| OnDelete.

(** A callback of a module with what the host has put into its context. *)
Record event := mkEvent { ev_module : name; ev_phase : phase; ev_body : list Z; ev_eos : bool }.

Section Chain.
Context {S : Type} `{ResponseSink S}.
(** The state of the thread's VMs; whether [RequestScope::init] finds a VM with a root
    context for a module, which may create one; and the modules' code. *)
Context {W : Type} (open_scope : name -> W -> option ContextBase * W) (callback : name -> phase -> W -> prog W).

(** The [HttpFilterContext] with what it points to: the request data ([body_gen] counts the
    values of its request body), the sink, the VMs.  [scopes_] holds the context pointer of
    each scope.  [trace] records the callbacks, for the theorems. *)
Record chain := mkChain {
  http_data : HttpData;
  body_gen : Z;
  module_order_ : list name;
  scopes_ : smap name (option LsWasmContext);
  sink : S;
  vms : W;
  trace : list event
}.

Definition set_data (d : HttpData) (f : chain) : chain := mkChain d (body_gen f) (module_order_ f) (scopes_ f) (sink f) (vms f) (trace f).
Definition set_scopes (m : smap name (option LsWasmContext)) (f : chain) : chain :=
  mkChain (http_data f) (body_gen f) (module_order_ f) m (sink f) (vms f) (trace f).
Definition set_order (o : list name) (f : chain) : chain := mkChain (http_data f) (body_gen f) o (scopes_ f) (sink f) (vms f) (trace f).
Definition set_sink (s : S) (f : chain) : chain := mkChain (http_data f) (body_gen f) (module_order_ f) (scopes_ f) s (vms f) (trace f).
Definition set_vms (w : W) (f : chain) : chain := mkChain (http_data f) (body_gen f) (module_order_ f) (scopes_ f) (sink f) w (trace f).

(** The host gives the request body another value. *)
Definition assign_request_body (v : list Z) (f : chain) : chain :=
  mkChain (set_request_body v (http_data f)) (body_gen f + 1) (module_order_ f) (scopes_ f) (sink f) (vms f) (trace f).

(** One callback of the module [m] on its context. *)
Definition run_callback (m : name) (ph : phase) (c : LsWasmContext) (f : chain) : option (LsWasmContext * chain) :=
  '(w, (c', s)) ← run_prog (body_gen f) (callback m ph (vms f)) c (sink f);
  let body := match ph with OnRequestBody _ _ => view_bytes (request_body_ c) | OnResponseBody _ _ => response_body_ c | _ => [] end in
  Some (c', mkChain (http_data f) (body_gen f) (module_order_ f) (scopes_ f) s w
              (trace f ++ [mkEvent m ph body (end_of_stream_ c)])).

(** [RequestScope::init]: the scope's context, if it gets one. *)
Definition init_scope (m : name) (f : chain) : option (option LsWasmContext * chain) :=
  let '(b, w) := open_scope m (vms f) in
  let f := set_vms w f in
  match b with
  | None => Some (None, f)
  | Some b =>
      '(c, f) ← run_callback m OnCreate (new_context b) f;
      Some (Some (resetHeaderMaps (resetLocalResponse c)), f)
  end.

Definition checkLocalResponse (c : LsWasmContext) (f : chain) : chain :=
  if has_local_response_ (local_ c) then set_data (take_local_response (local_ c) (http_data f)) f else f.

(** What [onRequestHeaders] puts into a context, and what it does behind the callback: it
    takes back the headers and any answer, and stores the scope. *)
Definition give_request_headers (f : chain) (c : LsWasmContext) : LsWasmContext :=
  setHeaderMap RequestHeaders (request_headers (http_data f)) (set_stream true (stream_state c) c).

Definition store_scope (m : name) (c : LsWasmContext) (f : chain) : chain :=
  let f := set_data (set_request_headers (getHeaderMapOwned RequestHeaders c) (http_data f)) f in
  let f := checkLocalResponse c f in
  let f := set_order (module_order_ f ++ [m]) f in
  set_scopes (semplace m (Some c) (scopes_ f)) f.

(** The loop of [onRequestHeaders]. *)
Fixpoint request_headers_loop (modules : list name) (end_of_stream : bool) (f : chain) : option chain :=
  match modules with
  | [] => Some f
  | m :: modules =>
      '(scope, f) ← init_scope m f;
      match scope with
      | None => request_headers_loop modules end_of_stream f
      | Some c =>
          '(c, f) ← run_callback m (OnRequestHeaders end_of_stream) (give_request_headers f c) f;
          let f := store_scope m c f in
          if has_local_response (http_data f) then Some f else request_headers_loop modules end_of_stream f
      end
  end.

(** [loaded] are the names [getLoadedModules] gives; [None] if there is no module manager. *)
Definition onRequestHeaders (loaded : option (list name)) (end_of_stream : bool) (f : chain) : option chain :=
  let f := set_data (synthesizePseudoHeaders (http_data f)) f in
  match loaded with
  | None => Some f
  | Some modules => request_headers_loop modules end_of_stream f
  end.

(** What a later phase does behind the callback; [after] takes back what it wants. *)
Definition settle (m : name) (after : LsWasmContext -> HttpData -> HttpData) (c : LsWasmContext) (f : chain) : chain :=
  let f := set_scopes (smodify m (fun _ => Some c) (scopes_ f)) f in
  checkLocalResponse c (set_data (after c (http_data f)) f).

(** The loop every later phase has: over the modules in order, until one has answered;
    [before] fills the context. *)
Fixpoint phase_loop (modules : list name) (ph : phase) (before : HttpData -> LsWasmContext -> LsWasmContext)
    (after : LsWasmContext -> HttpData -> HttpData) (f : chain) : option chain :=
  match modules with
  | [] => Some f
  | m :: modules =>
      if has_local_response (http_data f) then Some f
      else
        match sfind m (scopes_ f) with
        | Some (Some c) =>
            '(c, f) ← run_callback m ph (before (http_data f) c) f;
            phase_loop modules ph before after (settle m after c f)
        | _ => phase_loop modules ph before after f
        end
  end.

Definition onRequestBody (end_of_stream : bool) (f : chain) : option chain :=
  let view := mkView (request_body (http_data f)) (body_gen f) in
  phase_loop (module_order_ f) (OnRequestBody (zlen (request_body (http_data f))) end_of_stream)
    (fun _ c => setEndOfStream end_of_stream (setRequestBody view c)) (fun _ d => d) f.

Definition onRequestTrailers (f : chain) : option chain :=
  phase_loop (module_order_ f) OnRequestTrailers (fun _ c => c) (fun _ d => d) f.

Definition give_response_headers (d : HttpData) : LsWasmContext -> LsWasmContext := setHeaderMap ResponseHeaders (response_headers d).
Definition take_response_headers (c : LsWasmContext) : HttpData -> HttpData := set_response_headers (getHeaderMapOwned ResponseHeaders c).

Definition onResponseHeaders (f : chain) : option chain :=
  phase_loop (module_order_ f) (OnResponseHeaders (bool_decide (response_body (http_data f) = [])))
    give_response_headers take_response_headers f.

Definition onResponseBody (f : chain) : option chain :=
  phase_loop (module_order_ f) (OnResponseBody (zlen (response_body (http_data f))) true)
    (fun d c => setEndOfStream true (setResponseBody (response_body d) (give_response_headers d c))) take_response_headers f.

Definition onResponseTrailers (f : chain) : option chain :=
  phase_loop (module_order_ f) OnResponseTrailers give_response_headers take_response_headers f.

(** Whether some scope's context satisfies [p]. *)
Definition any_context (p : LsWasmContext -> bool) (f : chain) : bool :=
  existsb (fun s => match s.2 with Some c => p c | None => false end) (scopes_ f).

Definition chain_hasStreamingResponse : chain -> bool :=
  any_context (fun c => match stream_state c with Idle => false | _ => true end).
Definition chain_isStreamingFinished : chain -> bool :=
  any_context (fun c => match stream_state c with StreamFinished => true | _ => false end).

(** The destructor of the scopes: [onDone], then [onDelete].  [std::map::clear] of libstdc++
    destroys the right subtree of a node, the node, and the left subtree: the names from
    the last to the first. *)
Fixpoint destroy_scopes (scopes : smap name (option LsWasmContext)) (f : chain) : option chain :=
  match scopes with
  | [] => Some f
  | (m, None) :: scopes => destroy_scopes scopes f
  | (m, Some c) :: scopes =>
      '(c, f) ← run_callback m OnDone c f;
      '(c, f) ← run_callback m OnDelete c f;
      destroy_scopes scopes f
  end.

Definition destroy (f : chain) : option chain :=
  f ← destroy_scopes (reverse (scopes_ f)) f;
  Some (set_order [] (set_scopes [] f)).

Definition new_chain (d : HttpData) (s : S) (w : W) : chain := mkChain d 0 [] [] s w [].
End Chain.

Arguments chain : clear implicits.
