(* ===== verification/Modules.v ===== *)
(** * The loaded modules

    [WasmModuleManager] of wasm_module_manager.h and wasm_module_manager.cc: its table of
    modules, how a module is loaded, and how a request gets a context on the virtual
    machine of its thread ([RequestScope::init]).  The host library makes and runs the
    machines; its answers are parameters. *)

From S2P Require Export Filters Metrics.

Open Scope Z_scope.

(** ** Data *)

(** [proxy_wasm::PluginBase] with what the code gives it. *)
Record PluginBase := mkPlugin {
  plugin_name : name;
  plugin_root_id : list Z;
  plugin_vm_id : name;
  plugin_engine : list Z;
  plugin_configuration : list Z;
  fail_open : bool;
  plugin_key : name
}.

Inductive AbiVersion := AbiUnknown | ProxyWasm_0_1_0 | ProxyWasm_0_2_0 | ProxyWasm_0_2_1.

Abbreviation environment := (gmap (list Z) (list Z)).

(** The library, over handles of base machines, root contexts, machines of a thread and the
    state [W] of all machines.  An outer [None] is an exception, an inner one a null
    pointer; [vm_available] is that the machine is there and has not failed; a stream
    context that is not an [LsWasmContext] is [Some None]. *)
Record wasm_library (Handle Root VM W : Type) := mkLibrary {
  getAbiVersion : list Z -> option AbiVersion;
  makeVmKey : name -> list Z -> list Z -> list Z;
  createWasm : list Z -> list Z -> PluginBase -> environment -> W -> option (option Handle) * W;
  is_LsWasm : Handle -> bool;
  wasm_start : Handle -> PluginBase -> W -> option (option Root) * W;
  wasm_configure : Handle -> Root -> PluginBase -> W -> option bool * W;
  getOrCreateThreadLocalPlugin : Handle -> PluginBase -> W -> option VM * W;
  vm_available : VM -> W -> bool;
  has_root_context : VM -> PluginBase -> W -> bool;
  createContext : VM -> PluginBase -> W -> option (option ContextBase) * W
}.

Arguments getAbiVersion {Handle Root VM W} _ _.
Arguments makeVmKey {Handle Root VM W} _ _ _ _.
Arguments createWasm {Handle Root VM W} _ _ _ _ _ _.
Arguments is_LsWasm {Handle Root VM W} _ _.
Arguments wasm_start {Handle Root VM W} _ _ _ _.
Arguments wasm_configure {Handle Root VM W} _ _ _ _ _.
Arguments getOrCreateThreadLocalPlugin {Handle Root VM W} _ _ _ _.
Arguments vm_available {Handle Root VM W} _ _ _.
Arguments has_root_context {Handle Root VM W} _ _ _ _.
Arguments createContext {Handle Root VM W} _ _ _ _.

(** What reading the file of a module finds: the answer of [tellg] at its end (-1: an
    error), and what is read then. *)
Inductive file_answer := CannotOpen | Opened (tellg : Z) (code : option (list Z)).

Section Modules.
Context {Handle Root VM W : Type} (lib : wasm_library Handle Root VM W).
(** The engine the build configuration selects. *)
Context (engine : list Z).

(** The factories of a module hold nothing but the environment of its making. *)
Record ModuleState := mkModule { base_handle : Handle; plugin : PluginBase }.

Record WasmModuleManager := mkManager { modules_ : smap name ModuleState; envs_ : environment }.

Definition new_WasmModuleManager : WasmModuleManager := mkManager [] ∅.

Definition set_modules (v : smap name ModuleState) (g : WasmModuleManager) : WasmModuleManager := mkManager v (envs_ g).
Definition setEnvironmentVariables (envs : environment) (g : WasmModuleManager) : WasmModuleManager := mkManager (modules_ g) envs.

Definition make_plugin (module_name : name) : PluginBase :=
  mkPlugin module_name [] module_name engine [] false module_name.

(** ** Loading *)

(** Between the two critical sections: the machine is made, started and configured.  An
    exception is caught and is a failure. *)
Definition build (envs : environment) (code : list Z) (module_name : name) (w : W) : option ModuleState * W :=
  match getAbiVersion lib code with
  | None | Some AbiUnknown => (None, w)
  | Some _ =>
      let p := make_plugin module_name in
      let vm_key := makeVmKey lib module_name [] code in
      let '(r, w) := createWasm lib vm_key code p envs w in
      match r with
      | Some (Some h) =>
          if negb (is_LsWasm lib h) then (None, w)
          else
            let '(r, w) := wasm_start lib h p w in
            match r with
            | Some (Some root) =>
                let '(r, w) := wasm_configure lib h root p w in
                match r with
                | Some true => (Some (mkModule h p), w)
                | _ => (None, w)
                end
            | _ => (None, w)
            end
      | _ => (None, w)
      end
  end.

(** Where a thread is in [loadModuleFromMemory]: before the test under the shared lock,
    before the making of the machine, before the exclusive lock; or behind it. *)
Inductive load_pc :=
| Testing (code : list Z) (module_name : name)
| Building (code : list Z) (module_name : name)
| Inserting (module_name : name) (state : ModuleState)
| Loaded (module_name : name) (ok : bool).

Definition hasModule (module_name : name) (g : WasmModuleManager) : bool :=
  match sfind module_name (modules_ g) with Some _ => true | None => false end.

Definition load_step (pc : load_pc) (g : WasmModuleManager) (w : W) : load_pc * (WasmModuleManager * W) :=
  match pc with
  | Testing code n => (if hasModule n g then Loaded n false else Building code n, (g, w))
  | Building code n =>
      let '(r, w) := build (envs_ g) code n w in
      (match r with Some st => Inserting n st | None => Loaded n false end, (g, w))
  | Inserting n st => (Loaded n true, (set_modules (sassign n st (modules_ g)) g, w))
  | Loaded _ _ => (pc, (g, w))
  end.

(** A load that nobody interrupts. *)
Definition loadModuleFromMemory (code : list Z) (module_name : name) (g : WasmModuleManager) (w : W) : bool * (WasmModuleManager * W) :=
  if hasModule module_name g then (false, (g, w))
  else
    let '(r, w) := build (envs_ g) code module_name w in
    match r with
    | Some st => (true, (set_modules (sassign module_name st (modules_ g)) g, w))
    | None => (false, (g, w))
    end.

(** [None]: the vector for the file is larger than any can be, and its constructor throws
    where nothing catches. *)
Definition loadModule (file : file_answer) (module_name : name) (g : WasmModuleManager) (w : W) : option (bool * (WasmModuleManager * W)) :=
  match file with
  | CannotOpen => Some (false, (g, w))
  | Opened tellg code =>
      if 2 ^ 63 <=? u64 tellg then None
      else
        match code with
        | None => Some (false, (g, w))
        | Some code => Some (loadModuleFromMemory code module_name g w)
        end
  end.

(** ** The other operations *)

Definition unloadModule (module_name : name) (g : WasmModuleManager) : bool * WasmModuleManager :=
  if hasModule module_name g then (true, set_modules (serase module_name (modules_ g)) g) else (false, g).

Definition getLoadedModules (g : WasmModuleManager) : list name := keys (modules_ g).

(** [RequestScope::init] up to the stream context, whose callback [Filters.init_scope] runs. *)
Definition RequestScope_init (state : ModuleState) (w : W) : option ContextBase * W :=
  let '(r, w) := getOrCreateThreadLocalPlugin lib (base_handle state) (plugin state) w in
  match r with
  | None => (None, w)
  | Some vm =>
      if negb (vm_available lib vm w) then (None, w)
      else if negb (has_root_context lib vm (plugin state) w) then (None, w)
      else
        let '(r, w) := createContext lib vm (plugin state) w in
        (match r with Some (Some ctx) => Some ctx | _ => None end, w)
  end.

Definition createRequestScope (g : WasmModuleManager) (module_name : name) (w : W) : option ContextBase * W :=
  match sfind module_name (modules_ g) with
  | None => (None, w)
  | Some state => RequestScope_init state w
  end.

(** What the handlers and the LSAPI loop take as parameters: opening a scope and loading,
    on the manager and the machines. *)
Definition manager_open (module_name : name) (s : WasmModuleManager * W) : option ContextBase * (WasmModuleManager * W) :=
  let '(c, w) := createRequestScope s.1 module_name s.2 in (c, (s.1, w)).

Definition manager_load (code : list Z) (module_name : name) (s : WasmModuleManager * W) : bool * (WasmModuleManager * W) :=
  loadModuleFromMemory code module_name s.1 s.2.

(** ** Threads *)

(** The manager, the machines, and the threads that load. *)
Record managed := mkManaged { manager : WasmModuleManager; machines : W; loads : list load_pc }.

Inductive action :=
| LoadStep (t : nat)
| Unload (module_name : name)
| SetEnvironment (envs : environment)
| OpenScope (module_name : name).

Definition act (a : action) (s : managed) : managed :=
  match a with
  | LoadStep t =>
      match loads s !! t with
      | None => s
      | Some pc =>
          let '(pc, (g, w)) := load_step pc (manager s) (machines s) in
          mkManaged g w (<[t := pc]> (loads s))
      end
  | Unload n => mkManaged (unloadModule n (manager s)).2 (machines s) (loads s)
  | SetEnvironment envs => mkManaged (setEnvironmentVariables envs (manager s)) (machines s) (loads s)
  | OpenScope n => mkManaged (manager s) (createRequestScope (manager s) n (machines s)).2 (loads s)
  end.

(** What the threads do, in the order of their critical sections. *)
Definition acts (l : list action) (s : managed) : managed := foldl (fun s a => act a s) s l.
End Modules.

Arguments ModuleState : clear implicits.
Arguments WasmModuleManager : clear implicits.
Arguments load_pc : clear implicits.
Arguments managed : clear implicits.
Arguments mkModule {Handle} _ _.
Arguments Testing {Handle} _ _.
Arguments Building {Handle} _ _.
Arguments Inserting {Handle} _ _.
Arguments Loaded {Handle} _ _.
Arguments new_WasmModuleManager {Handle}.
Arguments mkManaged {Handle W} _ _ _.

(** ** The metrics of a machine *)

(** The stores, by the pointer [LsWasm] has; a clone has the pointer of its base.  A
    context whose machine is not an [LsWasm] has none. *)
Abbreviation stores := (gmap nat MetricStore).

Definition new_LsWasm (h : stores) : nat * stores := let p := fresh (dom h) in (p, <[p := new_MetricStore]> h).
Definition clone_LsWasm (base : nat) : nat := base.

Definition lswasm_define (lw : option nat) (type : Z) (n : list Z) (h : stores) : option (WasmResult * option Z * stores) :=
  match lw with
  | None => Some (InternalFailure, None, h)
  | Some p => s ← h !! p; let '(r, s) := metric_define type n s in Some (r, <[p := s]> h)
  end.

Definition lswasm_increment (lw : option nat) (id offset : Z) (h : stores) : option (WasmResult * stores) :=
  match lw with
  | None => Some (InternalFailure, h)
  | Some p => s ← h !! p; let '(r, s) := metric_increment id offset s in Some (r, <[p := s]> h)
  end.

Definition lswasm_record (lw : option nat) (id value : Z) (h : stores) : option (WasmResult * stores) :=
  match lw with
  | None => Some (InternalFailure, h)
  | Some p => s ← h !! p; let '(r, s) := metric_record id value s in Some (r, <[p := s]> h)
  end.

Definition lswasm_get (lw : option nat) (id : Z) (h : stores) : option (WasmResult * option Z) :=
  match lw with
  | None => Some (InternalFailure, None)
  | Some p => s ← h !! p; Some (metric_get id s)
  end.
