(* ===== verification/Samples.v ===== *)
(** * The sample filters

    The three filters of samples/ ([sample_filter], [send_recv_all], [send_recv_stream]) as
    modules of the chain: each callback is a program of host calls ([HostContext.prog]),
    and the state of the VM is the stream context object, if there is one.  The SDK they
    are written against and the WASI functions are not in the repository: they are the
    record [sdk]. *)

From S2P Require Export Filters.

Open Scope Z_scope.

(** ** Programs of host calls *)

#[export] Instance prog_ret : MRet prog := @Ret.

Fixpoint prog_bind {A B} (f : A -> prog B) (p : prog A) : prog B :=
  match p with
  | Ret a => f a
  | Do c k => Do c (fun x => prog_bind f (k x))
  end.

#[export] Instance prog_mbind : MBind prog := @prog_bind.

Definition call (c : host_call) : prog (answer c) := Do c Ret.

(** ** The SDK *)

(** [__wasi_environ_sizes_get] and [__wasi_environ_get] ([None]: an error; a NULL entry is
    [None]); [getBufferBytes] from the start of a buffer, by the answer of the host; the
    argument [sendResponseHeaders] passes to the foreign function, and how [isSupported]
    judges the answer to an empty one; the id of the context; the line a log macro sends,
    and the number of a result. *)
Record sdk := mkSdk {
  environ_sizes : option (Z * Z);
  environ : option (list (option (list Z)));
  buffer_bytes : option (list Z) -> Z -> option (list Z);
  headers_argument : Z -> HeaderPairs -> list Z;
  api_supported : WasmResult -> bool;
  context_id : Z;
  log_line : list Z -> list Z;
  result_number : WasmResult -> Z
}.

Section Calls.
Context (k : sdk).

Definition LOG (message : list Z) : prog unit := _ ← call (LogMessage (log_line k message)); mret tt.
Definition getRequestHeaderPairs : prog HeaderPairs := call (GetHeaderMapPairs RequestHeaders).
Definition addResponseHeader (key value : list Z) : prog unit := _ ← call (AddHeaderMapValue ResponseHeaders key value); mret tt.
Definition getRequestBody (length : Z) : prog (option (list Z)) :=
  b ← call (GetBuffer HttpRequestBody); mret (buffer_bytes k b length).
Definition answer_with (code : Z) (body : list Z) : prog unit := _ ← call (SendLocalResponse code body [] []); mret tt.
End Calls.

(** ** Text *)

Definition bool_text (b : bool) : list Z := dec (Z.b2z b).

Definition pair_line (p : list Z * list Z) : list Z := str "  " ++ p.1 ++ str ": " ++ p.2 ++ [10].

(** The lines for the first [count] entries; a NULL entry has none. *)
Definition entry_lines (count : Z) (entries : list (option (list Z))) : list Z :=
  mjoin ((fun e => match e with Some e => str "  " ++ e ++ [10] | None => [] end) <$> take (Z.to_nat count) entries).

(** [build_environ_section] of send_recv_all.cpp. *)
Definition build_environ_section (k : sdk) : list Z :=
  let out := str "=== Environment Variables ===" ++ [10; 10] in
  match environ_sizes k with
  | None => out ++ str "Error: failed to retrieve environment variable sizes" ++ [10]
  | Some (env_count, env_buf_size) =>
      let out := out ++ str "Environment variable count: " ++ dec env_count ++ [10; 10] in
      if env_count =? 0 then out ++ str "(no environment variables set)" ++ [10]
      else
        match environ k with
        | None => out ++ str "Error: failed to retrieve environment variables" ++ [10]
        | Some entries => out ++ entry_lines env_count entries
        end
  end.

Definition headers_text (pairs : HeaderPairs) : list Z :=
  [10; 10] ++ str "=== Request Headers ===" ++ [10; 10] ++ str "Header count: " ++ dec (zlen pairs) ++ [10; 10] ++ mjoin (pair_line <$> pairs).

Definition build_headers_section : prog (list Z) := pairs ← getRequestHeaderPairs; mret (headers_text pairs).

(** ** sample_filter *)

Module SampleFilter.

(** The two functions of sample_filter.cpp say the same as those of send_recv_all.cpp. *)
Definition build_environ_body : sdk -> list Z := build_environ_section.
Definition build_header_body : prog (list Z) := build_headers_section.

(** The context has no members. *)
Definition onRequestHeaders (k : sdk) : prog unit :=
  LOG k (str "sample_filter: onRequestHeaders");;
  headers ← build_header_body;
  answer_with 200 (build_environ_body k ++ headers).

Definition onResponseHeaders (k : sdk) : prog unit :=
  LOG k (str "sample_filter: onResponseHeaders — adding custom headers");;
  addResponseHeader (str "X-Wasm-Filter") (str "sample_filter/active");;
  addResponseHeader (str "X-Powered-By") (str "lswasm/proxy-wasm").

Definition callback (k : sdk) (m : name) (ph : phase) (_ : unit) : prog unit :=
  match ph with
  | OnCreate => LOG k (str "sample_filter: onCreate")
  | OnRequestHeaders _ => onRequestHeaders k
  | OnRequestBody _ _ => LOG k (str "sample_filter: onRequestBody")
  | OnResponseHeaders _ => onResponseHeaders k
  | OnDone => LOG k (str "sample_filter: onDone")
  | _ => mret tt
  end.

End SampleFilter.

(** ** send_recv_all *)

Module SendRecvAll.

Record SendRecvAllContext := mkAll { header_section_ : list Z; body_accum_ : list Z }.

Definition set_header_section (v : list Z) (x : SendRecvAllContext) : SendRecvAllContext := mkAll v (body_accum_ x).
Definition append_body (v : list Z) (x : SendRecvAllContext) : SendRecvAllContext := mkAll (header_section_ x) (body_accum_ x ++ v).

Definition onRequestHeaders (k : sdk) (end_of_stream : bool) (x : SendRecvAllContext) : prog SendRecvAllContext :=
  LOG k (str "send_recv_all: onRequestHeaders (eos=" ++ bool_text end_of_stream ++ str ")");;
  headers ← build_headers_section;
  let x := set_header_section (build_environ_section k ++ headers ++ [10; 10] ++ str "=== Request Body ===" ++ [10; 10]) x in
  if end_of_stream then
    answer_with 200 (header_section_ x ++ str "(no body)" ++ [10]);;
    mret (set_header_section [] x)
  else mret x.

(** The body of the response at the end of the stream. *)
Definition compose (x : SendRecvAllContext) : list Z :=
  match body_accum_ x with
  | [] => header_section_ x ++ str "(empty body)" ++ [10]
  | accum =>
      let response_body := header_section_ x ++ accum in
      if default 0 (last response_body) =? 10 then response_body else response_body ++ [10]
  end.

Definition onRequestBody (k : sdk) (body_buffer_length : Z) (end_of_stream : bool) (x : SendRecvAllContext) : prog SendRecvAllContext :=
  LOG k (str "send_recv_all: onRequestBody (len=" ++ dec body_buffer_length ++ str ", eos=" ++ bool_text end_of_stream ++ str ")");;
  chunk ← (if 0 <? body_buffer_length then getRequestBody k body_buffer_length else mret None);
  let x := append_body (default [] chunk) x in
  if negb end_of_stream then mret x
  else
    answer_with 200 (compose x);;
    mret (mkAll [] []).

Definition onResponseHeaders (k : sdk) (x : SendRecvAllContext) : prog SendRecvAllContext :=
  LOG k (str "send_recv_all: onResponseHeaders — adding custom headers");;
  addResponseHeader (str "X-Wasm-Filter") (str "send_recv_all/active");;
  addResponseHeader (str "X-Powered-By") (str "lswasm/proxy-wasm");;
  mret x.

(** The object is made with the context and dropped with it. *)
Definition callback (k : sdk) (m : name) (ph : phase) (w : option SendRecvAllContext) : prog (option SendRecvAllContext) :=
  match ph, w with
  | OnCreate, _ => LOG k (str "send_recv_all: onCreate");; mret (Some (mkAll [] []))
  | OnRequestHeaders eos, Some x => x ← onRequestHeaders k eos x; mret (Some x)
  | OnRequestBody size eos, Some x => x ← onRequestBody k size eos x; mret (Some x)
  | OnResponseHeaders _, Some x => x ← onResponseHeaders k x; mret (Some x)
  | OnDone, _ => LOG k (str "send_recv_all: onDone");; mret w
  | OnDelete, _ => mret None
  | _, _ => mret w
  end.

End SendRecvAll.

(** ** send_recv_stream *)

Module SendRecvStream.

Record SendRecvStreamContext := mkStreamer {
  preamble_ : list Z;
  streaming_supported_ : bool;
  headers_sent_ : bool;
  total_body_echoed_ : Z  (* a [size_t] of 32 bits *)
}.

Definition set_preamble (v : list Z) (x : SendRecvStreamContext) : SendRecvStreamContext :=
  mkStreamer v (streaming_supported_ x) (headers_sent_ x) (total_body_echoed_ x).
Definition set_supported (v : bool) (x : SendRecvStreamContext) : SendRecvStreamContext :=
  mkStreamer (preamble_ x) v (headers_sent_ x) (total_body_echoed_ x).
Definition set_headers_sent (v : bool) (x : SendRecvStreamContext) : SendRecvStreamContext :=
  mkStreamer (preamble_ x) (streaming_supported_ x) v (total_body_echoed_ x).
Definition set_echoed (v : Z) (x : SendRecvStreamContext) : SendRecvStreamContext :=
  mkStreamer (preamble_ x) (streaming_supported_ x) (headers_sent_ x) v.

Definition environ_part (k : sdk) : list Z :=
  match environ_sizes k with
  | Some (env_count, env_buf_size) =>
      if (0 <? env_count) && (0 <? env_buf_size) then
        match environ k with Some entries => entry_lines env_count entries | None => [] end
      else str "  (none)" ++ [10]
  | None => str "  (none)" ++ [10]
  end.

Definition preamble_text (k : sdk) (pairs : HeaderPairs) : list Z :=
  str "=== Environment Variables ===" ++ [10] ++ environ_part k ++ [10] ++ str "=== Request Headers ===" ++ [10] ++
  mjoin (pair_line <$> pairs) ++ [10] ++ str "=== Request Body ===" ++ [10].

Definition buildPreamble (k : sdk) (x : SendRecvStreamContext) : prog SendRecvStreamContext :=
  pairs ← getRequestHeaderPairs;
  mret (set_preamble (preamble_text k pairs) x).

Definition response_head : HeaderPairs :=
  [(str "Content-Type", str "text/plain"); (str "Connection", str "close");
   (str "X-Wasm-Filter", str "send_recv_stream/active"); (str "X-Powered-By", str "lswasm/proxy-wasm")].

Definition rc_text (k : sdk) (rc : WasmResult) : list Z := str "(rc=" ++ dec (result_number k rc) ++ str ")".

Definition streamPreamble (k : sdk) (x : SendRecvStreamContext) : prog (bool * SendRecvStreamContext) :=
  if headers_sent_ x then mret (true, x)
  else
    rc ← call (Foreign (FSendHeaders (headers_argument k 200 response_head)));
    if negb (is_ok rc) then
      LOG k (str "send_recv_stream: sendResponseHeaders failed " ++ rc_text k rc);;
      mret (false, x)
    else
      let x := set_headers_sent true x in
      match preamble_ x with
      | [] => mret (true, x)
      | preamble =>
          rc ← call (Foreign (FWriteChunk preamble));
          (if is_ok rc then mret tt else LOG k (str "send_recv_stream: writeResponseChunk (preamble) failed"));;
          mret (true, set_preamble [] x)
      end.

Definition onRequestHeaders (k : sdk) (end_of_stream : bool) (x : SendRecvStreamContext) : prog SendRecvStreamContext :=
  LOG k (str "send_recv_stream: onRequestHeaders (eos=" ++ bool_text end_of_stream ++ str ")");;
  rc ← call (Foreign (FSendHeaders []));
  let x := set_supported (api_supported k rc) x in
  LOG k (str "send_recv_stream: streaming API " ++ (if streaming_supported_ x then str "supported" else str "NOT supported"));;
  x ← buildPreamble k x;
  if end_of_stream then
    '(sent, x) ← (if streaming_supported_ x then streamPreamble k x else mret (false, x));
    if sent : bool then
      _ ← call (Foreign (FWriteChunk (str "(no body)" ++ [10])));
      _ ← call (Foreign FFinish);
      mret x
    else
      answer_with 200 (preamble_ x ++ str "(no body)" ++ [10]);;
      mret (set_preamble [] x)
  else mret x.

(** The response of the fallback. *)
Definition fallback_text (preamble : list Z) : list Z :=
  match preamble with
  | [] => str "(empty body)" ++ [10]
  | _ => if default 0 (last preamble) =? 10 then preamble else preamble ++ [10]
  end.

Definition onRequestBody (k : sdk) (body_buffer_length : Z) (end_of_stream : bool) (x : SendRecvStreamContext) : prog SendRecvStreamContext :=
  LOG k (str "send_recv_stream: onRequestBody (len=" ++ dec body_buffer_length ++ str ", eos=" ++ bool_text end_of_stream ++ str ")");;
  x ← (if streaming_supported_ x then
         '(sent, x) ← streamPreamble k x;
         if sent : bool then mret x
         else
           LOG k (str "send_recv_stream: streaming fallback — preamble send failed during body phase");;
           mret (set_supported false x)
       else mret x);
  chunk ← (if 0 <? body_buffer_length then getRequestBody k body_buffer_length else mret None);
  x ← (match default [] chunk with
       | [] => mret x
       | data =>
           if streaming_supported_ x then
             rc ← call (Foreign (FWriteChunk data));
             (if is_ok rc then mret tt else LOG k (str "send_recv_stream: writeResponseChunk failed " ++ rc_text k rc));;
             mret (set_echoed (u32 (total_body_echoed_ x + zlen data)) x)
           else mret (set_preamble (preamble_ x ++ data) x)
       end);
  if negb end_of_stream then mret x
  else if streaming_supported_ x then
    LOG k (str "send_recv_stream: finishing streaming response, total_body_echoed=" ++ dec (total_body_echoed_ x));;
    _ ← call (Foreign FFinish);
    mret x
  else
    let x := set_preamble (fallback_text (preamble_ x)) x in
    answer_with 200 (preamble_ x);;
    mret x.

Definition onResponseHeaders (k : sdk) (x : SendRecvStreamContext) : prog SendRecvStreamContext :=
  LOG k (str "send_recv_stream: onResponseHeaders");;
  (if headers_sent_ x then mret tt
   else
     addResponseHeader (str "X-Wasm-Filter") (str "send_recv_stream/active");;
     addResponseHeader (str "X-Powered-By") (str "lswasm/proxy-wasm"));;
  mret x.

Definition callback (k : sdk) (m : name) (ph : phase) (w : option SendRecvStreamContext) : prog (option SendRecvStreamContext) :=
  match ph, w with
  | OnCreate, _ =>
      LOG k (str "send_recv_stream: onCreate (context_id=" ++ dec (context_id k) ++ str ")");;
      mret (Some (mkStreamer [] false false 0))
  | OnRequestHeaders eos, Some x => x ← onRequestHeaders k eos x; mret (Some x)
  | OnRequestBody size eos, Some x => x ← onRequestBody k size eos x; mret (Some x)
  | OnResponseHeaders _, Some x => x ← onResponseHeaders k x; mret (Some x)
  | OnDone, _ => LOG k (str "send_recv_stream: onDone");; mret w
  | OnDelete, _ => LOG k (str "send_recv_stream: onDelete");; mret None
  | _, _ => mret w
  end.

End SendRecvStream.
