(* ===== verification/FiltersSpec.v ===== *)
(** * What the filter chain promises

    Rules for the loops of the chain; its invariant: the scopes are those of the modules in
    the order, each has one context with the sink, the first answer of a module ends the
    chain and is the one that goes out, and no context reads a body that is gone; the
    pseudo-headers; the scopes are closed exactly once. *)

From S2P Require Export Filters HostContextSpec.

Open Scope Z_scope.

(** ** Rules *)

Section Rules.
Context {S : Type} `{ResponseSink S} {W : Type}.
Context (open_scope : name -> W -> option ContextBase * W) (callback : name -> phase -> W -> prog W).

Abbreviation chain := (Filters.chain S W).

(** What a callback changes of the chain: sink, VMs and trace. *)
Definition called (m : name) (ph : phase) (c : LsWasmContext) (s : S) (w : W) (f : chain) : chain :=
  mkChain (http_data f) (body_gen f) (module_order_ f) (scopes_ f) s w
    (trace f ++ [mkEvent m ph
      (match ph with OnRequestBody _ _ => view_bytes (request_body_ c) | OnResponseBody _ _ => response_body_ c | _ => [] end)
      (end_of_stream_ c)]).

Lemma run_callback_inv m ph c f c' f' : run_callback callback m ph c f = Some (c', f') ->
  exists w s, run_prog (body_gen f) (callback m ph (vms f)) c (sink f) = Some (w, (c', s)) /\ f' = called m ph c s w f.
Proof.
  unfold run_callback. destruct (run_prog _ _ _ _) as [[w [c1 s]]|]; [|done]. cbn. intros [= <- <-]. by exists w, s.
Qed.

Lemma run_callback_eq m ph c f w c' s : run_prog (body_gen f) (callback m ph (vms f)) c (sink f) = Some (w, (c', s)) ->
  run_callback callback m ph c f = Some (c', called m ph c s w f).
Proof. intros R. unfold run_callback. by rewrite R. Qed.

(** What is behind a callback and [checkLocalResponse]: the fields of the chain. *)
Lemma scopes_settle m after c (f : chain) : scopes_ (settle m after c f) = smodify m (fun _ => Some c) (scopes_ f).
Proof. unfold settle, checkLocalResponse. by destruct (has_local_response_ _). Qed.
Lemma gen_settle m after c (f : chain) : body_gen (settle m after c f) = body_gen f.
Proof. unfold settle, checkLocalResponse. by destruct (has_local_response_ _). Qed.
Lemma order_settle m after c (f : chain) : module_order_ (settle m after c f) = module_order_ f.
Proof. unfold settle, checkLocalResponse. by destruct (has_local_response_ _). Qed.
Lemma vms_settle m after c (f : chain) : vms (settle m after c f) = vms f.
Proof. unfold settle, checkLocalResponse. by destruct (has_local_response_ _). Qed.
Lemma sink_settle m after c (f : chain) : sink (settle m after c f) = sink f.
Proof. unfold settle, checkLocalResponse. by destruct (has_local_response_ _). Qed.
Lemma trace_settle m after c (f : chain) : trace (settle m after c f) = trace f.
Proof. unfold settle, checkLocalResponse. by destruct (has_local_response_ _). Qed.
Lemma scopes_store m c (f : chain) : scopes_ (store_scope m c f) = semplace m (Some c) (scopes_ f).
Proof. unfold store_scope, checkLocalResponse. by destruct (has_local_response_ _). Qed.
Lemma gen_store m c (f : chain) : body_gen (store_scope m c f) = body_gen f.
Proof. unfold store_scope, checkLocalResponse. by destruct (has_local_response_ _). Qed.
Lemma order_store m c (f : chain) : module_order_ (store_scope m c f) = module_order_ f ++ [m].
Proof. unfold store_scope, checkLocalResponse. by destruct (has_local_response_ _). Qed.
Lemma vms_store m c (f : chain) : vms (store_scope m c f) = vms f.
Proof. unfold store_scope, checkLocalResponse. by destruct (has_local_response_ _). Qed.
Lemma sink_store m c (f : chain) : sink (store_scope m c f) = sink f.
Proof. unfold store_scope, checkLocalResponse. by destruct (has_local_response_ _). Qed.
Lemma trace_store m c (f : chain) : trace (store_scope m c f) = trace f.
Proof. unfold store_scope, checkLocalResponse. by destruct (has_local_response_ _). Qed.

(** A later phase keeps what each of its callbacks keeps; behind an answer it does nothing. *)
Lemma phase_loop_rule (I : chain -> Prop) ph before after modules :
  (forall m c c' s w f, m ∈ modules -> I f -> has_local_response (http_data f) = false -> sfind m (scopes_ f) = Some (Some c) ->
    run_prog (body_gen f) (callback m ph (vms f)) (before (http_data f) c) (sink f) = Some (w, (c', s)) ->
    I (settle m after c' (called m ph (before (http_data f) c) s w f))) ->
  forall f f', I f -> phase_loop callback modules ph before after f = Some f' -> I f'.
Proof.
  induction modules as [|m modules IH]; intros Hc f f' HI E; cbn in E; [by injection E as <-|].
  assert (forall f, I f -> phase_loop callback modules ph before after f = Some f' -> I f') as IH'.
  { intros f0 H0 E0. eapply IH; [|exact H0|exact E0]. intros m0 c c' s w f1 Hm. apply Hc. by constructor. }
  destruct (has_local_response (http_data f)) eqn:L; [by injection E as <-|].
  destruct (sfind m (scopes_ f)) as [[c|]|] eqn:F; [|by apply (IH' f)..].
  destruct (run_callback callback m ph (before (http_data f) c) f) as [[c' f1]|] eqn:R; [|done]. cbn in E.
  apply run_callback_inv in R as (w & s & R & ->). eapply IH'; [|exact E]. eapply Hc; try done. by constructor.
Qed.

(** The same with termination: each callback comes to an end. *)
Lemma phase_loop_total (I : chain -> Prop) ph before after modules :
  (forall m c f, m ∈ modules -> I f -> has_local_response (http_data f) = false -> sfind m (scopes_ f) = Some (Some c) ->
    exists w c' s, run_prog (body_gen f) (callback m ph (vms f)) (before (http_data f) c) (sink f) = Some (w, (c', s)) /\
      I (settle m after c' (called m ph (before (http_data f) c) s w f))) ->
  forall f, I f -> exists f', phase_loop callback modules ph before after f = Some f' /\ I f'.
Proof.
  induction modules as [|m modules IH]; intros Hc f HI; cbn; [eauto|].
  assert (forall f, I f -> exists f', phase_loop callback modules ph before after f = Some f' /\ I f') as IH'.
  { intros f0 H0. apply IH; [|exact H0]. intros m0 c f1 Hm. apply Hc. by constructor. }
  destruct (has_local_response (http_data f)) eqn:L; [eauto|]. destruct (sfind m (scopes_ f)) as [[c|]|] eqn:F; [|by apply IH'..].
  destruct (Hc m c f) as (w & c' & s & R & HI'); [by constructor|done..|]. rewrite (run_callback_eq _ _ _ _ _ _ _ R). cbn. by apply IH'.
Qed.

(** [init_scope]: a scope that could not be opened, or a context fresh from [onCreate]. *)
Lemma init_scope_inv m f r f' : init_scope open_scope callback m f = Some (r, f') ->
  exists b w0, open_scope m (vms f) = (b, w0) /\
  match b with
  | None => r = None /\ f' = set_vms w0 f
  | Some b => exists c w s, run_prog (body_gen f) (callback m OnCreate w0) (new_context b) (sink f) = Some (w, (c, s)) /\
      r = Some (resetHeaderMaps (resetLocalResponse c)) /\ f' = called m OnCreate (new_context b) s w (set_vms w0 f)
  end.
Proof.
  unfold init_scope. destruct (open_scope m (vms f)) as [[b|] w0] eqn:E; intros H1.
  - destruct (run_callback callback m OnCreate (new_context b) (set_vms w0 f)) as [[c f1]|] eqn:R; [|done]. cbn in H1.
    injection H1 as <- <-. apply run_callback_inv in R as (w & s & R & ->). exists (Some b), w0. split; [done|]. by exists c, w, s.
  - injection H1 as <- <-. by exists None, w0.
Qed.

(** The loop over the headers keeps what opening a scope and its callbacks keep; the names
    are those not yet in the chain. *)
Lemma request_headers_rule (I : chain -> Prop) eos :
  (forall w f, I f -> I (set_vms w f)) ->
  (forall m b w0 c w s w2 c2 s2 f, I f -> has_local_response (http_data f) = false -> m ∉ keys (scopes_ f) ->
    run_prog (body_gen f) (callback m OnCreate w0) (new_context b) (sink f) = Some (w, (c, s)) ->
    let f1 := called m OnCreate (new_context b) s w (set_vms w0 f) in
    let c1 := give_request_headers f1 (resetHeaderMaps (resetLocalResponse c)) in
    run_prog (body_gen f) (callback m (OnRequestHeaders eos) w) c1 s = Some (w2, (c2, s2)) ->
    I (store_scope m c2 (called m (OnRequestHeaders eos) c1 s2 w2 f1))) ->
  forall modules f f', NoDup modules -> (forall m, m ∈ modules -> m ∉ keys (scopes_ f)) -> I f ->
    has_local_response (http_data f) = false ->
    request_headers_loop open_scope callback modules eos f = Some f' -> I f'.
Proof.
  intros Hw Hc. induction modules as [|m modules IH]; intros f f' Hd Hk HI L E; cbn in E; [by injection E as <-|].
  apply NoDup_cons in Hd as [Hm Hd].
  destruct (init_scope open_scope callback m f) as [[r f1]|] eqn:E1; [|done]. cbn in E.
  apply init_scope_inv in E1 as (b & w0 & Eo & E1). destruct b as [b|].
  - destruct E1 as (c & w & s & R1 & -> & ->). set (f1 := called m OnCreate _ _ _ _) in *.
    destruct (run_callback callback m _ _ f1) as [[c2 f2]|] eqn:R2; [|done]. cbn in E.
    apply run_callback_inv in R2 as (w2 & s2 & R2 & ->).
    pose proof (Hc m b w0 c w s w2 c2 s2 f HI L (Hk m ltac:(by constructor)) R1 R2) as HI2. cbv zeta in HI2. fold f1 in HI2.
    set (g := store_scope m c2 _) in *.
    change ((if has_local_response (http_data g) then Some g else request_headers_loop open_scope callback modules eos g) = Some f') in E.
    destruct (has_local_response (http_data g)) eqn:L2; [by injection E as <-|].
    eapply IH; [done| |exact HI2|exact L2|exact E].
    intros m' Hm' X. assert (scopes_ g = semplace m (Some c2) (scopes_ f)) as Es.
    { unfold g. by rewrite scopes_store. }
    rewrite Es in X. apply keys_semplace in X as [-> |X]; [done|]. by apply (Hk m'); [constructor|].
  - destruct E1 as [-> ->]. eapply (IH (set_vms w0 f)); [done| |by apply Hw|done|exact E]. intros m' Hm'. apply Hk. by constructor.
Qed.

Lemma request_headers_total (I : chain -> Prop) eos :
  (forall w f, I f -> I (set_vms w f)) ->
  (forall m b w0 f, I f -> has_local_response (http_data f) = false -> m ∉ keys (scopes_ f) ->
    exists w c s, run_prog (body_gen f) (callback m OnCreate w0) (new_context b) (sink f) = Some (w, (c, s)) /\
    let f1 := called m OnCreate (new_context b) s w (set_vms w0 f) in
    let c1 := give_request_headers f1 (resetHeaderMaps (resetLocalResponse c)) in
    exists w2 c2 s2, run_prog (body_gen f) (callback m (OnRequestHeaders eos) w) c1 s = Some (w2, (c2, s2)) /\
    I (store_scope m c2 (called m (OnRequestHeaders eos) c1 s2 w2 f1))) ->
  forall modules f, NoDup modules -> (forall m, m ∈ modules -> m ∉ keys (scopes_ f)) -> I f ->
    has_local_response (http_data f) = false ->
    exists f', request_headers_loop open_scope callback modules eos f = Some f' /\ I f'.
Proof.
  intros Hw Hc. induction modules as [|m modules IH]; intros f Hd Hk HI L; cbn; [eauto|]. apply NoDup_cons in Hd as [Hm Hd].
  unfold init_scope. destruct (open_scope m (vms f)) as [[b|] w0].
  - destruct (Hc m b w0 f HI L (Hk m ltac:(by constructor))) as (w & c & s & R1 & w2 & c2 & s2 & R2 & HI2).
    rewrite (run_callback_eq m OnCreate (new_context b) (set_vms w0 f) w c s R1). cbn [mbind option_bind].
    rewrite (run_callback_eq m (OnRequestHeaders eos) _ (called m OnCreate (new_context b) s w (set_vms w0 f)) w2 c2 s2 R2).
    cbn [mbind option_bind].
    set (g := store_scope m c2 _). change (I g) in HI2.
    change (exists f', (if has_local_response (http_data g) then Some g else request_headers_loop open_scope callback modules eos g) = Some f' /\ I f').
    destruct (has_local_response (http_data g)) eqn:L2; [by exists g|].
    apply IH; [done| |exact HI2|exact L2]. intros m' Hm' X. unfold g in X. rewrite scopes_store in X.
    apply keys_semplace in X as [-> |X]; [done|]. by apply (Hk m'); [constructor|].
  - cbn [mbind option_bind]. apply IH; [done| |by apply Hw|done]. intros m' Hm'. apply Hk. by constructor.
Qed.
End Rules.

(** ** The invariant of the chain *)

Section Invariant.
Context {S : Type} `{ResponseSink S} {W : Type}.
Abbreviation chain := (Filters.chain S W).

Definition contexts (P : LsWasmContext -> Prop) (f : chain) : Prop := forall m c, sfind m (scopes_ f) = Some (Some c) -> P c.

(** The answer that goes out is that of the module called last, and no other module has
    given one. *)
Definition first_answer (f : chain) : Prop :=
  if has_local_response (http_data f) then
    exists tr e c, trace f = tr ++ [e] /\ sfind (ev_module e) (scopes_ f) = Some (Some c) /\
      has_local_response_ (local_ c) = true /\ local_response_code (http_data f) = local_response_code_ (local_ c) /\
      local_response_body (http_data f) = local_response_body_ (local_ c) /\
      local_response_additional_headers (http_data f) = local_response_headers_ (local_ c) /\
      (forall m c', m <> ev_module e -> sfind m (scopes_ f) = Some (Some c') -> has_local_response_ (local_ c') = false)
  else contexts (fun c => has_local_response_ (local_ c) = false) f.

Record chain_ok (f : chain) : Prop := {
  co_map : smap_ok (scopes_ f);
  co_order : NoDup (module_order_ f);
  co_keys : forall m, m ∈ keys (scopes_ f) <-> m ∈ module_order_ f;
  co_some : Forall (fun p => is_Some p.2) (scopes_ f);
  co_sink : contexts (fun c => sink_set c = true) f;
  co_first : first_answer f
}.

(** The same chain for what the invariant says. *)
Definition same_chain (f f' : chain) : Prop :=
  scopes_ f' = scopes_ f /\ module_order_ f' = module_order_ f /\ trace f' = trace f /\
  has_local_response (http_data f') = has_local_response (http_data f) /\
  local_response_code (http_data f') = local_response_code (http_data f) /\
  local_response_body (http_data f') = local_response_body (http_data f) /\
  local_response_additional_headers (http_data f') = local_response_additional_headers (http_data f).

Lemma chain_ok_same f f' : same_chain f f' -> chain_ok f -> chain_ok f'.
Proof.
  intros (E1 & E2 & E3 & E4 & E5 & E6 & E7) [M O K So Si F].
  split; unfold first_answer, contexts in *; rewrite ?E1, ?E2, ?E3, ?E4, ?E5, ?E6, ?E7; auto.
Qed.

Definition keeps_answer (after : LsWasmContext -> HttpData -> HttpData) : Prop :=
  forall c d, has_local_response (after c d) = has_local_response d.

(** What [checkLocalResponse] behind a callback of [m] means for the answer. *)
Lemma first_answer_check m e tr c (f : chain) scopes :
  trace f = tr ++ [e] -> ev_module e = m -> has_local_response (http_data f) = false ->
  scopes_ (checkLocalResponse c f) = scopes -> sfind m scopes = Some (Some c) ->
  (forall m' c', m' <> m -> sfind m' scopes = Some (Some c') -> has_local_response_ (local_ c') = false) ->
  first_answer (checkLocalResponse c f).
Proof.
  intros T <- L Es F Ho. subst scopes. unfold first_answer. destruct (has_local_response_ (local_ c)) eqn:Lc.
  - assert (checkLocalResponse c f = set_data (take_local_response (local_ c) (http_data f)) f) as Ec
      by (unfold checkLocalResponse; by rewrite Lc).
    rewrite Ec in *. cbn. exists tr, e, c. by repeat split.
  - assert (checkLocalResponse c f = f) as Ec by (unfold checkLocalResponse; by rewrite Lc).
    rewrite Ec in *. rewrite L. intros m' c' Fm. destruct (decide (m' = ev_module e)) as [->|N]; [congruence|by eapply Ho].
Qed.

Lemma contexts_answered_none f : chain_ok f -> has_local_response (http_data f) = false ->
  contexts (fun c => has_local_response_ (local_ c) = false) f.
Proof. intros [] L. unfold first_answer in co_first0. by rewrite L in co_first0. Qed.

Lemma smodify_some (m : name) (c : LsWasmContext) (scopes : smap name (option LsWasmContext)) : Forall (fun p => is_Some p.2) scopes ->
  Forall (fun p => is_Some p.2) (smodify m (fun _ => Some c) scopes).
Proof. induction 1 as [|[k v] l Hv Hl IH]; [constructor|]. cbn. destruct (decide _); constructor; cbn; eauto. Qed.

Lemma semplace_some (m : name) (c : LsWasmContext) (scopes : smap name (option LsWasmContext)) : Forall (fun p => is_Some p.2) scopes ->
  Forall (fun p => is_Some p.2) (semplace m (Some c) scopes).
Proof.
  induction 1 as [|[k v] l Hv Hl IH]; [repeat constructor; cbn; eauto|]. cbn. destruct (decide _); [by constructor|].
  destruct (bytes_less m k); repeat constructor; cbn; eauto.
Qed.

Lemma chain_ok_settle m after c0 c' ph s w cb f : chain_ok f -> keeps_answer after ->
  has_local_response (http_data f) = false -> sfind m (scopes_ f) = Some (Some c0) -> sink_set c' = true ->
  chain_ok (settle m after c' (called m ph cb s w f)).
Proof.
  intros Hok Ha L F Hs. pose proof Hok as [M O K So Si _]. pose proof (contexts_answered_none f Hok L) as Hn.
  set (g := set_data (after c' (http_data f)) (set_scopes (smodify m (fun _ => Some c') (scopes_ f)) (called m ph cb s w f))).
  change (settle m after c' (called m ph cb s w f)) with (checkLocalResponse c' g).
  pose proof (scopes_settle m after c' (called m ph cb s w f)) as Es. pose proof (order_settle m after c' (called m ph cb s w f)) as Eo.
  change (settle m after c' (called m ph cb s w f)) with (checkLocalResponse c' g) in Es, Eo. cbn [called scopes_ module_order_] in Es, Eo.
  assert (forall m' c1, sfind m' (smodify m (fun _ => Some c') (scopes_ f)) = Some (Some c1) ->
    (m' = m /\ c1 = c') \/ (m' <> m /\ sfind m' (scopes_ f) = Some (Some c1))) as Fi.
  { intros m' c1. rewrite sfind_smodify. destruct (decide (m = m')) as [->|N]; [|by right]. rewrite F. cbn. intros [= <-]. by left. }
  split; rewrite ?Es, ?Eo; unfold contexts; rewrite ?Es.
  - by apply smap_ok_smodify.
  - done.
  - intros m'. rewrite keys_smodify. apply K.
  - by apply smodify_some.
  - intros m' c1 [[-> ->]|[N F1]]%Fi; [done|by eapply Si].
  - eapply (first_answer_check m); [reflexivity|done|exact (eq_trans (Ha _ _) L)|exact Es| |].
    + rewrite sfind_smodify. destruct (decide _); [by rewrite F|done].
    + intros m' c1 N [[-> ->]|[_ F1]]%Fi; [done|by eapply Hn].
Qed.

Lemma chain_ok_store_scope m c' ph s w cb f1 f : chain_ok f -> has_local_response (http_data f) = false ->
  same_chain f (mkChain (http_data f1) (body_gen f1) (module_order_ f1) (scopes_ f1) (sink f1) (vms f1) (trace f)) ->
  m ∉ keys (scopes_ f) -> sink_set c' = true ->
  chain_ok (store_scope m c' (called m ph cb s w f1)).
Proof.
  intros Hok L (E1 & E2 & _ & E4 & _) Hm Hs. cbn in E1, E2, E4. pose proof Hok as [M O K So Si _].
  pose proof (contexts_answered_none f Hok L) as Hn.
  set (g := set_data (set_request_headers (getHeaderMapOwned RequestHeaders c') (http_data f1)) (called m ph cb s w f1)).
  assert (store_scope m c' (called m ph cb s w f1) =
    set_scopes (semplace m (Some c') (scopes_ f)) (set_order (module_order_ f ++ [m]) (checkLocalResponse c' g))) as Eg.
  { unfold store_scope. fold g. unfold checkLocalResponse. destruct (has_local_response_ _); cbn; by rewrite E1, E2. }
  rewrite Eg. pose proof (proj2 (sfind_None m (scopes_ f)) Hm) as Fm.
  assert (forall m' c1, sfind m' (semplace m (Some c') (scopes_ f)) = Some (Some c1) ->
    (m' = m /\ c1 = c') \/ (m' <> m /\ sfind m' (scopes_ f) = Some (Some c1))) as Fi.
  { intros m' c1. rewrite sfind_semplace by done. destruct (decide (m = m')) as [->|N]; [|by right]. rewrite Fm. cbn. intros [= <-]. by left. }
  split; unfold contexts; cbn [scopes_ module_order_ set_scopes set_order].
  - by apply smap_ok_semplace.
  - apply NoDup_app. split; [done|]. split; [|apply NoDup_singleton]. intros m' H1 ->%list_elem_of_singleton. by apply Hm, K.
  - intros m'. rewrite keys_semplace, K, elem_of_app, list_elem_of_singleton. tauto.
  - by apply semplace_some.
  - intros m' c1 [[-> ->]|[N F1]]%Fi; [done|by eapply Si].
  - unfold first_answer. cbn. destruct (has_local_response_ (local_ c')) eqn:Lc.
    + assert (checkLocalResponse c' g = set_data (take_local_response (local_ c') (http_data g)) g) as ->
        by (unfold checkLocalResponse; by rewrite Lc). cbn.
      eexists _, _, c'. split; [reflexivity|]. cbn. rewrite sfind_semplace by done. rewrite decide_True, Fm by done. repeat (split; [done|]).
      intros m' c1 N [[-> ->]|[_ F1]]%Fi; [done|by eapply Hn].
    + assert (checkLocalResponse c' g = g) as -> by (unfold checkLocalResponse; by rewrite Lc). cbn. rewrite E4, L.
      intros m' c1 [[-> ->]|[N F1]]%Fi; [done|by eapply Hn].
Qed.

Context (open_scope : name -> W -> option ContextBase * W) (callback : name -> phase -> W -> prog W).

Lemma chain_ok_phase ph before after modules f f' : keeps_answer after -> (forall d c, sink_set (before d c) = sink_set c) ->
  chain_ok f -> phase_loop callback modules ph before after f = Some f' -> chain_ok f'.
Proof.
  intros Ha Hb. refine (phase_loop_rule callback chain_ok _ _ _ _ _ f f'). clear f f'. intros m c c' s w f _ Hok L F R.
  eapply chain_ok_settle; try done. rewrite (cl_sink _ _ (run_prog_le _ _ _ _ _ _ _ R)), Hb. by eapply co_sink.
Qed.

Lemma chain_ok_new d s w : has_local_response d = false -> chain_ok (new_chain d s w).
Proof.
  intros L. split; cbn; try by constructor.
  - intros m c. done.
  - unfold first_answer. cbn. rewrite L. intros m c. done.
Qed.

Lemma give_request_headers_sink f c : sink_set (give_request_headers (S := S) (W := W) f c) = true.
Proof. done. Qed.

Lemma synthesize_same d : has_local_response (synthesizePseudoHeaders d) = has_local_response d.
Proof. unfold synthesizePseudoHeaders. by destruct (pseudo_headers d). Qed.

Lemma chain_ok_request_headers loaded eos d s w f' :
  has_local_response d = false -> match loaded with Some ms => NoDup ms | None => True end ->
  onRequestHeaders open_scope callback loaded eos (new_chain d s w) = Some f' -> chain_ok f'.
Proof.
  intros L Hd E. unfold onRequestHeaders in E. set (f := set_data _ _) in E.
  assert (chain_ok f) as Hok by (apply chain_ok_new; by rewrite synthesize_same).
  destruct loaded as [ms|]; [|by injection E as <-].
  refine (request_headers_rule open_scope callback chain_ok eos _ _ ms f f' Hd _ Hok _ E).
  - intros w0 g. by apply chain_ok_same.
  - intros m b w0 c w1 s1 w2 c2 s2 g Hg Lg Hm R1 f1 c1 R2. eapply chain_ok_store_scope; [exact Hg|exact Lg|by repeat split|exact Hm|].
    by rewrite (cl_sink _ _ (run_prog_le _ _ _ _ _ _ _ R2)).
  - intros m _ X. by inversion X.
  - cbn. by rewrite synthesize_same.
Qed.

(** Behind a phase that no module has ended, what its callbacks establish holds of the
    contexts of all its modules. *)
Lemma phase_loop_visits (P : chain -> LsWasmContext -> Prop) ph before after modules :
  (forall m c c' s w f, run_prog (body_gen f) (callback m ph (vms f)) (before (http_data f) c) (sink f) = Some (w, (c', s)) -> P f c') ->
  (forall f f' c, body_gen f' = body_gen f -> P f c -> P f' c) ->
  forall f f', phase_loop callback modules ph before after f = Some f' -> has_local_response (http_data f') = false ->
    body_gen f' = body_gen f /\ (forall m c, m ∈ modules -> sfind m (scopes_ f') = Some (Some c) -> P f' c).
Proof.
  intros HP Hg. assert (forall modules f f', phase_loop callback modules ph before after f = Some f' -> body_gen f' = body_gen f) as Gen.
  { clear modules. intros modules f f'. refine (phase_loop_rule callback (fun g => body_gen g = body_gen f) _ _ _ _ _ f f' eq_refl).
    intros m c c' s w g _ <- _ _ _. by rewrite gen_settle. }
  induction modules as [|m modules IH]; intros f f' E L; [split; [by apply (Gen [])|intros m c X; by inversion X]|].
  split; [by eapply Gen|]. intros m' c Hm' F'. cbn in E. destruct (has_local_response (http_data f)) eqn:L1.
  { injection E as <-. congruence. }
  assert (forall m0 c0, m0 ∈ modules -> sfind m0 (scopes_ f') = Some (Some c0) -> P f' c0) as IH'.
  { destruct (sfind m (scopes_ f)) as [[c0|]|] eqn:F0; [|by apply (IH _ _ E L)..].
    destruct (run_callback _ _ _ _ _) as [[c1 f1]|] eqn:R; [|done]. cbn in E. by apply (IH _ _ E L). }
  apply elem_of_cons in Hm' as [->|Hm']; [|by eapply IH']. clear IH IH'.
  assert (forall g, (forall c0, sfind m (scopes_ g) = Some (Some c0) -> P g c0) -> phase_loop callback modules ph before after g = Some f' -> P f' c) as X.
  { intros g Hq Eg. refine (phase_loop_rule callback (fun g => forall c0, sfind m (scopes_ g) = Some (Some c0) -> P g c0) _ _ _ _ _ g f' Hq Eg c F').
    clear -HP Hg. intros m1 c1 c' s w f _ Hq _ _ R c0. rewrite scopes_settle. cbn [called scopes_].
    assert (forall x, P f x -> P (settle m1 after c' (called m1 ph (before (http_data f) c1) s w f)) x) as Hs.
    { intros x. apply Hg. by rewrite gen_settle. }
    rewrite sfind_smodify. destruct (decide (m1 = m)) as [->|]; [|by intros ?%Hq%Hs].
    destruct (sfind m (scopes_ f)) as [x|]; [|done]. cbn. intros [= <-]. apply Hs. by eapply HP. }
  destruct (sfind m (scopes_ f)) as [[c0|]|] eqn:F0.
  - destruct (run_callback callback m ph (before (http_data f) c0) f) as [[c1 f1]|] eqn:R; [|done]. cbn in E.
    apply run_callback_inv in R as (w & s & R & ->). eapply X; [|exact E]. intros c2.
    rewrite scopes_settle. cbn [called scopes_]. rewrite sfind_smodify, decide_True, F0 by done. cbn. intros [= <-].
    apply (Hg f); [by rewrite gen_settle|by eapply HP].
  - eapply X; [|exact E]. intros c0. by rewrite F0.
  - eapply X; [|exact E]. intros c0. by rewrite F0.
Qed.

(** The callbacks of a phase: a prefix of the modules, in their order, each once; all of
    them when no module answers.  [E] is what [before] makes true of the events. *)
Definition phase_events (ph : phase) (E : event -> Prop) (visited : list name) (evs : list event) : Prop :=
  Forall2 (fun m e => ev_module e = m /\ ev_phase e = ph /\ E e) visited evs.

Lemma phase_loop_trace ph before after (E : event -> Prop) :
  (forall m d c, E (mkEvent m ph
    (match ph with OnRequestBody _ _ => view_bytes (request_body_ (before d c)) | OnResponseBody _ _ => response_body_ (before d c) | _ => [] end)
    (end_of_stream_ (before d c)))) ->
  forall modules f f', phase_loop callback modules ph before after f = Some f' ->
    (forall m, m ∈ modules -> exists c, sfind m (scopes_ f) = Some (Some c)) ->
    exists visited evs, trace f' = trace f ++ evs /\ phase_events ph E visited evs /\ visited `prefix_of` modules /\
      (has_local_response (http_data f') = false -> visited = modules) /\ (forall m, is_Some (sfind m (scopes_ f)) <-> is_Some (sfind m (scopes_ f'))).
Proof.
  intros HE. induction modules as [|m modules IH]; intros f f' R Hs; cbn in R.
  { injection R as <-. exists [], []. rewrite app_nil_r. repeat split; try done. constructor. }
  destruct (has_local_response (http_data f)) eqn:L.
  { injection R as <-. exists [], []. rewrite app_nil_r, L. repeat split; try done; [constructor|apply prefix_nil]. }
  destruct (Hs m) as [c F]; [by constructor|]. rewrite F in R.
  destruct (run_callback callback m ph (before (http_data f) c) f) as [[c' f1]|] eqn:R1; [|done]. cbn in R.
  apply run_callback_inv in R1 as (w & s & _ & ->).
  assert (forall m0, sfind m0 (scopes_ (settle m after c' (called m ph (before (http_data f) c) s w f))) =
    if decide (m = m0) then Some (Some c') else sfind m0 (scopes_ f)) as Fs.
  { intros m0. rewrite scopes_settle. cbn [called scopes_]. rewrite sfind_smodify. destruct (decide _) as [<-|]; [by rewrite F|done]. }
  destruct (IH _ _ R) as (visited & evs & T & Hp & [r ->] & Hl & Hk).
  { intros m0 Hm0. rewrite Fs. destruct (decide _); [by eexists|]. apply Hs. by constructor. }
  rewrite trace_settle in T. cbn [called trace] in T. rewrite <- app_assoc in T.
  eexists (m :: visited), (_ :: evs). split; [exact T|]. split; [|split; [|split]].
  - constructor; [|done]. cbn. split; [done|]. split; [done|]. apply HE.
  - by exists r.
  - intros Lf. f_equal. by apply Hl.
  - intros m0. rewrite <- Hk, Fs. destruct (decide _) as [<-|]; [|done]. rewrite F. by split; eauto.
Qed.

(** The loop over the headers: every module whose scope opens is created and sees the
    headers; the others are not called. *)
Lemma request_headers_trace eos : forall modules f f', request_headers_loop open_scope callback modules eos f = Some f' ->
  exists visited evs, trace f' = trace f ++ evs /\ module_order_ f' = module_order_ f ++ visited /\
    visited `sublist_of` modules /\
    (fun e => (ev_module e, ev_phase e)) <$> evs = mjoin ((fun m => [(m, OnCreate); (m, OnRequestHeaders eos)]) <$> visited).
Proof.
  induction modules as [|m modules IH]; intros f f' R; cbn in R.
  { injection R as <-. exists [], []. by rewrite !app_nil_r. }
  destruct (init_scope open_scope callback m f) as [[r f1]|] eqn:E1; [|done]. cbn in R.
  apply init_scope_inv in E1 as (b & w0 & _ & E1). destruct b as [b|].
  - destruct E1 as (c & w & s & _ & -> & ->). set (f1 := called m OnCreate _ _ _ _) in *.
    destruct (run_callback callback m _ _ f1) as [[c2 f2]|] eqn:R2; [|done]. cbn in R. apply run_callback_inv in R2 as (w2 & s2 & _ & ->).
    set (g := store_scope m c2 _) in *.
    change ((if has_local_response (http_data g) then Some g else request_headers_loop open_scope callback modules eos g) = Some f') in R.
    assert (exists e1 e2, trace g = trace f ++ [e1; e2] /\ (fun e => (ev_module e, ev_phase e)) <$> [e1; e2] = [(m, OnCreate); (m, OnRequestHeaders eos)]) as (e1 & e2 & Tg & Eg).
    { unfold g. rewrite trace_store. cbn. eexists _, _. rewrite <- app_assoc. cbn. done. }
    assert (module_order_ g = module_order_ f ++ [m]) as Og by (unfold g; by rewrite order_store).
    destruct (has_local_response (http_data g)).
    + injection R as <-. exists [m], [e1; e2]. split; [done|]. split; [done|]. split; [by constructor; apply sublist_nil_l|done].
    + destruct (IH _ _ R) as (visited & evs & T & O & Sub & Ev). exists (m :: visited), (e1 :: e2 :: evs).
      rewrite T, O, Tg, Og, <- !app_assoc. split; [done|]. split; [done|]. split; [by constructor|]. cbn in *. injection Eg as -> -> -> ->. by rewrite Ev.
  - destruct E1 as [-> ->]. destruct (IH _ _ R) as (visited & evs & T & O & Sub & Ev). exists visited, evs.
    split; [done|]. split; [done|]. split; [by constructor|done].
Qed.

(** Closing the scopes. *)
Lemma destroy_scopes_trace scopes : forall f f', Forall (fun p => is_Some p.2) scopes -> destroy_scopes callback scopes f = Some f' ->
  exists evs, trace f' = trace f ++ evs /\
    (fun e => (ev_module e, ev_phase e)) <$> evs = mjoin ((fun m => [(m, OnDone); (m, OnDelete)]) <$> keys scopes).
Proof.
  induction scopes as [|[m [c|]] scopes IH]; intros f f' F R; cbn in R; [injection R as <-; exists []; by rewrite app_nil_r| |].
  - apply Forall_cons in F as [_ F]. destruct (run_callback callback m OnDone c f) as [[c1 f1]|] eqn:R1; [|done]. cbn in R.
    destruct (run_callback callback m OnDelete c1 f1) as [[c2 f2]|] eqn:R2; [|done]. cbn in R.
    apply run_callback_inv in R1 as (w1 & s1 & _ & ->). apply run_callback_inv in R2 as (w2 & s2 & _ & ->).
    destruct (IH _ _ F R) as (evs & T & Ev). cbn in T. rewrite <- !app_assoc in T. eexists (_ :: _ :: evs).
    split; [exact T|]. cbn. by rewrite Ev.
  - apply Forall_cons in F as [[] _]. done.
Qed.

Lemma destroy_trace f f' : chain_ok f -> destroy callback f = Some f' ->
  exists evs, trace f' = trace f ++ evs /\
    (fun e => (ev_module e, ev_phase e)) <$> evs = mjoin ((fun m => [(m, OnDone); (m, OnDelete)]) <$> reverse (keys (scopes_ f))).
Proof.
  intros Hok R. unfold destroy in R. destruct (destroy_scopes callback _ f) as [g|] eqn:R1; [|done]. cbn in R. injection R as <-.
  apply destroy_scopes_trace in R1 as (evs & T & Ev); [|apply Forall_reverse, Hok]. exists evs. split; [exact T|].
  rewrite Ev. unfold keys. by rewrite fmap_reverse.
Qed.
End Invariant.

(** ** Pseudo-headers *)

Lemma has_header_app n l k : has_header n (l ++ k) = has_header n l || has_header n k.
Proof. apply existsb_app. Qed.

Lemma has_header_values n l : has_header n l = true <-> values n l <> [].
Proof.
  unfold has_header, values. induction l as [|p l IH]; [done|]. cbn [existsb]. rewrite filter_cons.
  destruct (header_name_eq p.1 n) eqn:E; [by rewrite decide_True|]. by rewrite decide_False by congruence.
Qed.

(** The four names, none of which is another up to case. *)
Definition pseudo_names : list name := [str ":method"; str ":path"; str ":scheme"; str ":authority"].

Lemma pseudo_added d p : p ∈ pseudo_headers d -> p.1 ∈ pseudo_names /\ has_header p.1 (request_headers d) = false.
Proof.
  assert (forall (b : bool) (k v : list Z), p ∈ (if b then [(k, v)] else []) -> p.1 = k /\ b = true) as X.
  { intros [] k v H; [by apply list_elem_of_singleton in H as ->|by apply not_elem_of_nil in H]. }
  unfold pseudo_headers, pseudo_names. rewrite !elem_of_app, !elem_of_cons.
  intros [[-> H]%X|[[-> H]%X|[[-> H]%X|[-> H]%X]]]; rewrite ?andb_true_iff, ?negb_true_iff in H; split; try tauto.
Qed.

Lemma synthesize_headers d : request_headers (synthesizePseudoHeaders d) = pseudo_headers d ++ request_headers d.
Proof. unfold synthesizePseudoHeaders. by destruct (pseudo_headers d). Qed.

Lemma has_one n k v : has_header n [(k, v)] = header_name_eq k n.
Proof. unfold has_header. cbn. apply orb_false_r. Qed.

(** Which of the four names the added headers hold. *)
Lemma has_pseudo d :
  let hdrs := request_headers d in
  has_header (str ":method") (pseudo_headers d) = negb (has_header (str ":method") hdrs) && negb (bool_decide (hd_method d = [])) /\
  has_header (str ":path") (pseudo_headers d) = negb (has_header (str ":path") hdrs) && negb (bool_decide (hd_path d = [])) /\
  has_header (str ":scheme") (pseudo_headers d) = negb (has_header (str ":scheme") hdrs) /\
  has_header (str ":authority") (pseudo_headers d) = negb (has_header (str ":authority") hdrs).
Proof.
  cbv zeta. unfold pseudo_headers. cbv zeta. set (b1 := negb (has_header (str ":method") (request_headers d)) && negb (bool_decide (hd_method d = []))).
  set (b2 := negb (has_header (str ":path") (request_headers d)) && negb (bool_decide (hd_path d = []))).
  set (b3 := negb (has_header (str ":scheme") (request_headers d))). set (b4 := negb (has_header (str ":authority") (request_headers d))).
  generalize (host_of (request_headers d)). intros host. clearbody b1 b2 b3 b4.
  assert (forall n (b : bool) k v, has_header n (if b then [(k, v)] else []) = b && header_name_eq k n) as X.
  { intros n [] k v; [apply has_one|done]. }
  rewrite !has_header_app, !X. destruct b1, b2, b3, b4; repeat split; vm_compute; reflexivity.
Qed.

Lemma not_has_header_values n l : has_header n l = false -> values n l = [].
Proof. intros E. destruct (values n l) eqn:V; [done|]. apply not_true_iff_false in E. destruct E. apply has_header_values. by rewrite V. Qed.

Lemma pseudo_authority d : has_header (str ":authority") (request_headers d) = false ->
  values (str ":authority") (pseudo_headers d) = [host_of (request_headers d)].
Proof.
  intros E. unfold pseudo_headers. cbv zeta. rewrite E. cbn [negb]. rewrite !values_app, values_one, header_name_eq_refl.
  assert (forall (b : bool) n v, header_name_eq n (str ":authority") = false -> values (str ":authority") (if b then [(n, v)] else []) = []) as X.
  { intros [] n v En; [|done]. by rewrite values_one, En. }
  by rewrite !X by (vm_compute; reflexivity).
Qed.

(** Where every pseudo-header that could be added is there, none is. *)
Lemma synthesize_again d : synthesizePseudoHeaders (synthesizePseudoHeaders d) = synthesizePseudoHeaders d.
Proof.
  set (d' := synthesizePseudoHeaders d). enough (pseudo_headers d' = []) as E by (unfold synthesizePseudoHeaders at 1; by rewrite E).
  assert (hd_method d' = hd_method d /\ hd_path d' = hd_path d) as [Em Ep]
    by (unfold d', synthesizePseudoHeaders; by destruct (pseudo_headers d)).
  destruct (has_pseudo d) as (P1 & P2 & P3 & P4). unfold pseudo_headers. cbv zeta. rewrite Em, Ep. unfold d'.
  rewrite synthesize_headers, !has_header_app, P1, P2, P3, P4.
  generalize (has_header (str ":method") (request_headers d)), (has_header (str ":path") (request_headers d)),
    (has_header (str ":scheme") (request_headers d)), (has_header (str ":authority") (request_headers d)),
    (bool_decide (hd_method d = [])), (bool_decide (hd_path d = [])).
  by intros [] [] [] [] [] [].
Qed.

(** The pseudo-headers.  The header list of the client stays as it is behind what is
    added, and what is added are some of the four pseudo-headers; a header the client sent
    keeps its values; [:scheme] and [:authority] are always there afterwards, [:method]
    and [:path] unless the request line had none; an added [:authority] is the [Host] of
    the client; and adding them again adds nothing. *)
Theorem pseudo_headers_added (d : HttpData) :
  let d' := synthesizePseudoHeaders d in
  (exists added, request_headers d' = added ++ request_headers d /\ Forall (fun p => p.1 ∈ pseudo_names) added) /\
  (forall n, has_header n (request_headers d) = true -> values n (request_headers d') = values n (request_headers d)) /\
  has_header (str ":scheme") (request_headers d') = true /\ has_header (str ":authority") (request_headers d') = true /\
  (hd_method d <> [] -> has_header (str ":method") (request_headers d') = true) /\
  (hd_path d <> [] -> has_header (str ":path") (request_headers d') = true) /\
  (has_header (str ":authority") (request_headers d) = false ->
     first_value (str ":authority") (request_headers d') = Some (default (str "localhost") (first_value (str "Host") (request_headers d)))) /\
  synthesizePseudoHeaders d' = d'.
Proof.
  cbv zeta. rewrite synthesize_headers. destruct (has_pseudo d) as (P1 & P2 & P3 & P4).
  assert (forall n k : name, n = k -> has_header n (pseudo_headers d) = negb (has_header k (request_headers d)) ->
    has_header k (pseudo_headers d ++ request_headers d) = true) as Always.
  { intros n k -> E. rewrite has_header_app, E. by destruct (has_header k (request_headers d)). }
  assert (forall (n : name) (e : bool), has_header n (pseudo_headers d) = negb (has_header n (request_headers d)) && e -> e = true ->
    has_header n (pseudo_headers d ++ request_headers d) = true) as When.
  { intros n e E ->. apply (Always n n); [done|]. by rewrite E, andb_true_r. }
  split; [|split; [|split; [|split; [|split; [|split; [|split]]]]]].
  - exists (pseudo_headers d). split; [done|]. apply Forall_forall. intros p. apply pseudo_added.
  - intros n Hn. rewrite values_app. enough (values n (pseudo_headers d) = []) as -> by done.
    destruct (has_header n (pseudo_headers d)) eqn:E; [|by apply not_has_header_values]. exfalso.
    unfold has_header in E. apply existsb_exists in E as (p & Hp%list_elem_of_In%pseudo_added & Ep). destruct Hp as [_ Hp].
    apply not_true_iff_false in Hp. apply Hp. unfold has_header in *. rewrite <- Hn. clear -Ep. induction (request_headers d) as [|q l IH]; [done|].
    cbn. rewrite IH. f_equal. by rewrite header_name_eq_sym, (header_name_eq_l _ _ _ Ep), header_name_eq_sym.
  - by apply (Always _ _ eq_refl).
  - by apply (Always _ _ eq_refl).
  - intros Hd. apply (When _ _ P1), negb_true_iff, bool_decide_eq_false_2, Hd.
  - intros Hd. apply (When _ _ P2), negb_true_iff, bool_decide_eq_false_2, Hd.
  - intros Hn. rewrite first_value_values, values_app, (pseudo_authority d Hn). reflexivity.
  - apply synthesize_again.
Qed.

Lemma pseudo_headers_added_witness :
  let d := mkHttpData (str "GET") (str "/x") (str "HTTP/1.1") [(str "host", str "a"); (str ":Scheme", str "ftp")] [] [] [] false 0 [] [] in
  let d' := synthesizePseudoHeaders d in
  request_headers d' = [(str ":method", str "GET"); (str ":path", str "/x"); (str ":authority", str "a")] ++ request_headers d /\
  first_value (str ":authority") (request_headers d') = Some (str "a") /\ values (str ":scheme") (request_headers d') = [str "ftp"].
Proof.
  intros d d'. split; [vm_compute; reflexivity|]. destruct (pseudo_headers_added d) as (_ & V & _ & _ & _ & _ & A & _).
  split; [apply A; vm_compute; reflexivity|]. rewrite V; vm_compute; reflexivity.
Defined.
