(* ===== verification/ModulesSpec.v ===== *)
(** * What the table of modules promises

    Over any interleaving of threads that load, unload and use modules: the table holds
    configured machines only, the name of a successful load is there until it is unloaded,
    with the machine of that load when no other load has the name, and a load alone does what [loadModuleFromMemory] says. *)

From S2P Require Export Modules MetricsSpec FiltersSpec.

Open Scope Z_scope.

(** ** Erasing from a map *)

Section Erase.
Context {K V : Type} `{EqDecision K, KeyOrder K}.

Lemma keys_serase (k : K) (m : smap K V) x : x ∈ keys (serase k m) -> x ∈ keys m.
Proof.
  induction m as [|[k1 v1] m IH]; [done|]. cbn. destruct (decide (k = k1)); cbn; rewrite !elem_of_cons; [tauto|]. intros [->|X]; [tauto|]. right. auto.
Qed.

Lemma smap_ok_serase (k : K) (m : smap K V) : smap_ok m -> smap_ok (serase k m).
Proof.
  induction m as [|[k1 v1] m IH]; [done|]. intros O. pose proof O as [F O']%smap_ok_cons. cbn. destruct (decide (k = k1)); [done|].
  apply smap_ok_cons. split; [|auto]. apply Forall_forall. intros x X%keys_serase. by rewrite Forall_forall in F; apply F.
Qed.

Lemma sfind_serase (k k' : K) (m : smap K V) : smap_ok m -> sfind k' (serase k m) = if decide (k = k') then None else sfind k' m.
Proof.
  induction m as [|[k1 v1] m IH]; intros O; cbn; [by destruct (decide _)|]. apply smap_ok_cons in O as [F O].
  destruct (decide (k = k1)) as [->|N].
  - destruct (decide (k1 = k')) as [<-|N']; [|by rewrite decide_False].
    apply sfind_None. intros X. rewrite Forall_forall in F. by apply (key_lt_ne k1 k1); [apply F|].
  - cbn. destruct (decide (k' = k1)) as [->|N']; [by rewrite decide_False|]. by apply IH.
Qed.

Lemma keys_sassign (k : K) (v : V) (m : smap K V) x : x ∈ keys (sassign k v m) <-> x = k \/ x ∈ keys m.
Proof.
  induction m as [|[k1 v1] m IH]; cbn; [by rewrite elem_of_cons|]. destruct (decide (k = k1)) as [->|N].
  - cbn. rewrite elem_of_cons. tauto.
  - destruct (kless k k1); cbn; rewrite !elem_of_cons; [done|]. rewrite IH. tauto.
Qed.

Lemma smap_ok_sassign (k : K) (v : V) (m : smap K V) : smap_ok m -> smap_ok (sassign k v m).
Proof.
  induction m as [|[k1 v1] m IH]; intros O; cbn; [by repeat constructor|]. pose proof O as [F O']%smap_ok_cons.
  destruct (decide (k = k1)) as [->|N]; [by apply smap_ok_cons|]. destruct (kless k k1) eqn:E.
  - apply smap_ok_cons. split; [|done]. cbn. constructor; [done|]. eapply Forall_impl; [exact F|]. intros x. by apply kless_trans.
  - apply smap_ok_cons. split; [|auto]. apply Forall_forall. intros x [-> |X]%keys_sassign.
    + unfold key_lt. destruct (kless k1 k) eqn:E'; [done|]. by destruct N; apply kless_total.
    + by rewrite Forall_forall in F; apply F.
Qed.
End Erase.

Section ModulesSpec.
Context {Handle Root VM W : Type} (lib : wasm_library Handle Root VM W) (engine : list Z).

Abbreviation managed := (managed Handle W).

(** A machine that was made, started and configured for the module [n]. *)
Definition configured (n : name) (st : ModuleState Handle) : Prop :=
  plugin st = make_plugin engine n /\ is_LsWasm lib (base_handle st) = true /\
  exists code abi root envs w0 w1 w2 w3 w4 w5,
    getAbiVersion lib code = Some abi /\ abi <> AbiUnknown /\
    createWasm lib (makeVmKey lib n [] code) code (plugin st) envs w0 = (Some (Some (base_handle st)), w1) /\
    wasm_start lib (base_handle st) (plugin st) w2 = (Some (Some root), w3) /\
    wasm_configure lib (base_handle st) root (plugin st) w4 = (Some true, w5).

Lemma build_configured envs code n w st w' : build lib engine envs code n w = (Some st, w') -> configured n st.
Proof.
  unfold build. destruct (getAbiVersion lib code) as [abi|] eqn:E1; [|done].
  destruct abi eqn:Ea; [done|..];
    destruct (createWasm lib _ _ _ _ _) as [[[h|]|] w1] eqn:E2; try done;
    destruct (is_LsWasm lib h) eqn:E3; try done; cbn [negb];
    destruct (wasm_start lib _ _ _) as [[[root|]|] w2] eqn:E4; try done;
    destruct (wasm_configure lib _ _ _ _) as [[[]|] w3] eqn:E5; try done;
    intros [= <- <-]; (split; [done|]); (split; [done|]); by eexists code, _, root, envs, w, w1, w1, w2, w2, w3.
Qed.

(** ** The invariant *)

Definition pc_ok (pc : load_pc Handle) : Prop := match pc with Inserting n st => configured n st | _ => True end.

Record table_ok (s : managed) : Prop := {
  tk_map : smap_ok (modules_ (manager s));
  tk_entries : forall n st, sfind n (modules_ (manager s)) = Some st -> configured n st;
  tk_loads : forall t pc, loads s !! t = Some pc -> pc_ok pc
}.

Lemma load_step_ok pc g w pc' g' w' : load_step lib engine pc g w = (pc', (g', w')) ->
  smap_ok (modules_ g) -> (forall n st, sfind n (modules_ g) = Some st -> configured n st) -> pc_ok pc ->
  smap_ok (modules_ g') /\ (forall n st, sfind n (modules_ g') = Some st -> configured n st) /\ pc_ok pc'.
Proof.
  intros E O C P. destruct pc as [code n|code n|n st|n ok]; cbn in E.
  - injection E as <- <- <-. split; [done|]. split; [done|]. by destruct (hasModule n g).
  - destruct (build lib engine (envs_ g) code n w) as [r w1] eqn:B. injection E as <- <- <-. split; [done|]. split; [done|].
    destruct r; [by eapply build_configured|done].
  - injection E as <- <- <-. cbn. split; [by apply smap_ok_sassign|]. split; [|done]. intros n' st'. rewrite sfind_sassign by done.
    destruct (decide (n = n')) as [<-|]; [|apply C]. by intros [= <-].
  - by injection E as <- <- <-.
Qed.

Lemma act_ok a s : table_ok s -> table_ok (act lib engine a s).
Proof.
  intros [O C L]. destruct a as [t|n|envs|n]; cbn; [| |by split..].
  - destruct (loads s !! t) as [pc|] eqn:Et; [|done]. destruct (load_step lib engine pc (manager s) (machines s)) as [pc' [g w]] eqn:E.
    destruct (load_step_ok _ _ _ _ _ _ E O C (L _ _ Et)) as (O' & C' & P'). split; [done|done|]. cbn. intros t' pc1.
    destruct (decide (t = t')) as [<-|N]; [|rewrite list_lookup_insert_ne by done; apply L].
    rewrite list_lookup_insert_eq by (by apply lookup_lt_Some in Et). by intros [= <-].
  - unfold unloadModule. destruct (hasModule n (manager s)); [|by split]. split; cbn; [by apply smap_ok_serase| |exact L].
    intros n' st. rewrite sfind_serase by done. destruct (decide (n = n')); [done|apply C].
Qed.

Lemma acts_ok l : forall s, table_ok s -> table_ok (acts lib engine l s).
Proof. induction l as [|a l IH]; intros s Hs; [done|]. cbn. apply IH. by apply act_ok. Qed.

(** ** Loads *)

Definition load_name (pc : load_pc Handle) : name :=
  match pc with Testing _ n | Building _ n | Inserting n _ | Loaded n _ => n end.

Lemma load_step_name pc g w pc' x : load_step lib engine pc g w = (pc', x) -> load_name pc' = load_name pc.
Proof.
  destruct pc as [code n|code n|n st|n ok]; cbn.
  - destruct (hasModule n g); by intros [= <- _].
  - destruct (build lib engine (envs_ g) code n w) as [[st|] w1]; by intros [= <- _].
  - by intros [= <- _].
  - by intros [= <- _].
Qed.

Lemma act_names a s : load_name <$> loads (act lib engine a s) = load_name <$> loads s.
Proof.
  destruct a as [t|n|envs|n]; cbn; try done. destruct (loads s !! t) as [pc|] eqn:Et; [|done].
  destruct (load_step lib engine pc (manager s) (machines s)) as [pc' [g w]] eqn:E. cbn. apply load_step_name in E.
  rewrite list_fmap_insert. apply list_insert_id. by rewrite list_lookup_fmap, Et, E.
Qed.

Lemma has_sassign n st n' (g : WasmModuleManager Handle) : smap_ok (modules_ g) ->
  hasModule n' (set_modules (sassign n st (modules_ g)) g) = bool_decide (n = n') || hasModule n' g.
Proof. intros O. unfold hasModule. cbn. rewrite sfind_sassign by done. by destruct (decide (n = n')) as [<-|N]; [rewrite bool_decide_eq_true_2|rewrite bool_decide_eq_false_2]. Qed.

(** A load that succeeded is in the table, if nobody unloads it; and the names of the table
    are those of loads that succeeded. *)
Record table_of_loads (unloaded : name -> Prop) (s : managed) : Prop := {
  tl_ok : table_ok s;
  tl_there n t : loads s !! t = Some (Loaded n true) -> ~ unloaded n -> hasModule n (manager s) = true;
  tl_loaded n : hasModule n (manager s) = true -> exists t, loads s !! t = Some (Loaded n true)
}.

(** Equivalences with a disjunction whose members are equations. *)
Ltac iff_cases := split; [intros H|intros [H|[? H]]]; try congruence; eauto.

(** A step answers with success exactly when it inserts, and the table gains that name. *)
Lemma load_step_success pc g w pc' g' w' : load_step lib engine pc g w = (pc', (g', w')) -> smap_ok (modules_ g) -> forall n,
  (pc' = Loaded n true <-> pc = Loaded n true \/ exists st, pc = Inserting n st) /\
  (hasModule n g' = true <-> hasModule n g = true \/ exists st, pc = Inserting n st).
Proof.
  intros E O n. destruct pc as [code m|code m|m st|m ok]; cbn in E.
  - injection E as <- <- <-. by destruct (hasModule m g); split; iff_cases.
  - destruct (build lib engine (envs_ g) code m w) as [[st|] w1]; injection E as <- <- <-; split; iff_cases.
  - injection E as <- <- <-. rewrite has_sassign by done. split; [iff_cases; injection H as <-; eauto|]. destruct (decide (m = n)) as [->|N].
    + rewrite bool_decide_eq_true_2 by done. iff_cases.
    + rewrite bool_decide_eq_false_2 by done. iff_cases.
  - injection E as <- <- <-. split; iff_cases.
Qed.

Lemma act_loads unloaded a s : (forall n, a = Unload n -> unloaded n) -> table_of_loads unloaded s -> table_of_loads unloaded (act lib engine a s).
Proof.
  intros Hu [Ok T1 T2]. pose proof (act_ok a s Ok) as Ok'. pose proof (tk_map _ Ok) as O. split; [done|..].
  - destruct a as [t|m|envs|m]; cbn; [|unfold unloadModule|exact T1|exact T1].
    + destruct (loads s !! t) as [pc|] eqn:Et; [|exact T1]. destruct (load_step lib engine pc (manager s) (machines s)) as [pc' [g w]] eqn:E.
      cbn. intros n t' X Hn. destruct (load_step_success _ _ _ _ _ _ E O n) as [L1 L2]. apply L2. destruct (decide (t = t')) as [<-|N].
      * rewrite list_lookup_insert_eq in X by (by apply lookup_lt_Some in Et). injection X as X. apply L1 in X as [->|X]; [|by right]. left. by apply (T1 n t).
      * rewrite list_lookup_insert_ne in X by done. left. by apply (T1 n t').
    + destruct (hasModule m (manager s)) eqn:Em; cbn; [|exact T1]. intros n t Ht Hn. pose proof (T1 _ _ Ht Hn) as X.
      unfold hasModule in *. cbn. rewrite sfind_serase by done. rewrite decide_False; [done|]. intros <-. by apply Hn, Hu.
  - destruct a as [t|m|envs|m]; cbn; [|unfold unloadModule|exact T2|exact T2].
    + destruct (loads s !! t) as [pc|] eqn:Et; [|exact T2]. destruct (load_step lib engine pc (manager s) (machines s)) as [pc' [g w]] eqn:E.
      cbn. intros n X. destruct (load_step_success _ _ _ _ _ _ E O n) as [L1 L2]. pose proof (lookup_lt_Some _ _ _ Et) as Lt.
      apply L2 in X as [(t' & X)%T2|X]; [|exists t; rewrite list_lookup_insert_eq by done; f_equal; apply L1; by right].
      exists t'. destruct (decide (t = t')) as [<-|N]; [|by rewrite list_lookup_insert_ne]. rewrite list_lookup_insert_eq by done. f_equal. apply L1. left. congruence.
    + destruct (hasModule m (manager s)) eqn:Em; cbn; [|exact T2]. intros n. unfold hasModule. cbn. rewrite sfind_serase by done. destruct (decide (m = n)); [done|]. apply T2.
Qed.

Lemma acts_loads unloaded l : forall s, Forall (fun a => forall n, a = Unload n -> unloaded n) l ->
  table_of_loads unloaded s -> table_of_loads unloaded (acts lib engine l s) /\ load_name <$> loads (acts lib engine l s) = load_name <$> loads s.
Proof.
  induction l as [|a l IH]; intros s F Hs; [done|]. apply Forall_cons in F as [Fa F]. cbn.
  destruct (IH (act lib engine a s) F (act_loads _ _ _ Fa Hs)) as [H1 H2]. split; [exact H1|]. etrans; [exact H2|apply act_names].
Qed.

(** The machine of a name whose loads are over stays. *)
Definition settled (n : name) (st : ModuleState Handle) (s : managed) : Prop :=
  smap_ok (modules_ (manager s)) /\ sfind n (modules_ (manager s)) = Some st /\
  forall t pc, loads s !! t = Some pc -> load_name pc = n -> exists ok, pc = Loaded n ok.

Lemma act_settled n st a s : a <> Unload n -> settled n st s -> settled n st (act lib engine a s).
Proof.
  intros Ha (O & F & D). destruct a as [t|m|envs|m]; cbn; [| |done..].
  - destruct (loads s !! t) as [pc|] eqn:Et; [|done]. destruct (load_step lib engine pc (manager s) (machines s)) as [pc' [g w]] eqn:E.
    pose proof (load_step_name _ _ _ _ _ E) as En.
    assert (smap_ok (modules_ g) /\ sfind n (modules_ g) = Some st /\ (load_name pc' = n -> exists ok, pc' = Loaded n ok)) as (O' & F' & D').
    { destruct (decide (load_name pc = n)) as [Hn|Hn].
      - destruct (D _ _ Et Hn) as [ok ->]. cbn in E. injection E as <- <- <-. eauto.
      - assert (load_name pc' <> n) by congruence. destruct pc as [code m|code m|m st'|m ok]; cbn in E.
        + by injection E as <- <- <-.
        + destruct (build lib engine (envs_ (manager s)) code m (machines s)) as [r w1]. by injection E as <- <- <-.
        + injection E as <- <- <-. split; [by apply smap_ok_sassign|]. split; [|done]. cbn. by rewrite sfind_sassign, decide_False.
        + by injection E as <- <- <-. }
    split; [done|]. split; [done|]. cbn. intros t' pc1. destruct (decide (t = t')) as [<-|N]; [|rewrite list_lookup_insert_ne by done; apply D].
    rewrite list_lookup_insert_eq by (by apply lookup_lt_Some in Et). by intros [= <-].
  - unfold unloadModule. destruct (hasModule m (manager s)); [|done]. split; [by apply smap_ok_serase|]. split; [|exact D].
    cbn. rewrite sfind_serase by done. rewrite decide_False; [done|]. by intros ->.
Qed.

Lemma acts_settled n st l : forall s, Unload n ∉ l -> settled n st s -> settled n st (acts lib engine l s).
Proof.
  induction l as [|a l IH]; intros s N Hs; [done|]. apply not_elem_of_cons in N as [N1 N2]. cbn. apply IH; [done|].
  apply act_settled; [by intros ->|done].
Qed.

Lemma acts_app l1 l2 s : acts lib engine (l1 ++ l2) s = acts lib engine l2 (acts lib engine l1 s).
Proof. apply foldl_app. Qed.

(** C36. The table of modules over any interleaving.  Threads load modules (each as its three
    critical sections), unload them, set the environment and open scopes, in any order.
    Then the table has each name once; a context is handed out only on a machine that was
    made, started and configured for the module of that name; and the name of a load that
    was answered with success is in the table as long as nobody unloads it.  When moreover
    the threads load modules of different names, no load is refused as loaded already, and
    the very machine a successful load has put into the table stays there, at any later
    point of the run, until its name is unloaded.  (Two loads of one name are not kept
    apart by the locks: the later one replaces the machine of the earlier,
    [both_loads_succeed].) *)
Theorem modules_configured (codes : list (list Z * name)) (envs : environment) (w : W) (before behind : list action) :
  let s0 := mkManaged (mkManager [] envs) w ((fun c => Testing c.1 c.2) <$> codes) in
  let s := acts lib engine before s0 in let s' := acts lib engine (before ++ behind) s0 in
  NoDup (getLoadedModules (manager s')) /\
  (forall n w1 b w2, createRequestScope lib (manager s') n w1 = (Some b, w2) ->
     exists st, sfind n (modules_ (manager s')) = Some st /\ configured n st) /\
  (forall n t, loads s' !! t = Some (Loaded n true) -> Unload n ∉ before ++ behind -> hasModule n (manager s') = true) /\
  (NoDup (snd <$> codes) ->
     (forall t code n, loads s' !! t = Some (Testing code n) -> hasModule n (manager s') = false) /\
     (forall n t, loads s !! t = Some (Loaded n true) -> Unload n ∉ before ++ behind ->
        exists st, configured n st /\ sfind n (modules_ (manager s)) = Some st /\ sfind n (modules_ (manager s')) = Some st)).
Proof.
  intros s0.
  assert (forall l : list action, table_of_loads (fun n => Unload n ∈ l) s0) as H0.
  { intros l. split; [split|..]; cbn; [constructor|done| | |done].
    - intros t pc. rewrite list_lookup_fmap. by destruct (codes !! t); intros [= <-].
    - intros n t. rewrite list_lookup_fmap. by destruct (codes !! t). }
  assert (load_name <$> loads s0 = snd <$> codes) as E0 by (cbn; by rewrite <- list_fmap_compose).
  assert (forall l : list action, let s := acts lib engine l s0 in table_of_loads (fun n => Unload n ∈ l) s /\ load_name <$> loads s = snd <$> codes) as R.
  { intros l s. rewrite <- E0. apply acts_loads; [|done]. apply Forall_forall. intros a Ha n ->. done. }
  intros s s'. destruct (R (before ++ behind)) as [[[O C _] T1 T2] N]. fold s' in O, C, T1, T2, N.
  split; [by apply keys_NoDup|]. split; [|split; [|intros Hd; split]].
  - intros n w1 b w2. unfold createRequestScope. destruct (sfind n _) as [st|] eqn:E; [|done]. intros _. exists st. split; [done|by apply C].
  - intros n t Ht Hu. by apply (T1 n t).
  - intros t code n Ht. destruct (hasModule n (manager s')) eqn:E; [|done]. apply T2 in E as (t' & Ht'). exfalso.
    rewrite <- N in Hd. assert (t = t') as ->; [|congruence].
    eapply (NoDup_lookup _ _ _ _ Hd); rewrite list_lookup_fmap; [by rewrite Ht|by rewrite Ht'].
  - intros n t Ht Hu. rewrite elem_of_app in Hu. destruct (R before) as [[[O1 C1 _] T3 _] N1]. fold s in O1, C1, T3, N1.
    pose proof (T3 n t Ht ltac:(tauto)) as Hm. unfold hasModule in Hm. destruct (sfind n (modules_ (manager s))) as [st|] eqn:E; [|done].
    exists st. split; [by apply C1|]. split; [done|]. unfold s'. rewrite acts_app.
    apply (acts_settled n st behind s); [tauto|]. split; [done|]. split; [done|]. intros t' pc Ht' Hn. exists true.
    rewrite <- N1 in Hd. assert (t = t') as <-; [|congruence].
    eapply (NoDup_lookup _ _ _ _ Hd); rewrite list_lookup_fmap; [by rewrite Ht|by rewrite Ht', <- Hn].
Qed.

(** A load that nobody interrupts does what the sequential function says. *)
Lemma act_load t pc g w ls : ls !! t = Some pc ->
  act lib engine (LoadStep t) (mkManaged g w ls) = let '(pc', (g', w')) := load_step lib engine pc g w in mkManaged g' w' (<[t := pc']> ls).
Proof. intros E. cbn. by rewrite E. Qed.

Lemma load_alone t code n s : loads s !! t = Some (Testing code n) ->
  let '(ok, (g, w)) := loadModuleFromMemory lib engine code n (manager s) (machines s) in
  acts lib engine [LoadStep t; LoadStep t; LoadStep t] s = mkManaged g w (<[t := Loaded n ok]> (loads s)).
Proof.
  destruct s as [g w ls]. cbn [manager machines loads]. intros Et. pose proof (lookup_lt_Some _ _ _ Et) as Lt.
  assert (forall pc, <[t := pc]> ls !! t = Some pc) as L by (intros pc; by apply list_lookup_insert_eq).
  unfold acts, loadModuleFromMemory. cbn [foldl]. rewrite (act_load _ _ _ _ _ Et). cbn [load_step].
  destruct (hasModule n g).
  - do 2 (rewrite (act_load _ _ _ _ _ (L _)); cbn [load_step]; rewrite list_insert_insert_eq). done.
  - rewrite (act_load _ _ _ _ _ (L _)). cbn [load_step].
    destruct (build lib engine (envs_ g) code n w) as [[st|] w1]; rewrite list_insert_insert_eq, (act_load _ _ _ _ _ (L _));
      cbn [load_step]; by rewrite list_insert_insert_eq.
Qed.

(** Two threads that load one name are both told that they did, and the later one has
    overwritten the machine of the earlier. *)
Lemma both_loads_succeed code n (g : WasmModuleManager Handle) w st1 w1 st2 w2 :
  hasModule n g = false -> build lib engine (envs_ g) code n w = (Some st1, w1) -> build lib engine (envs_ g) code n w1 = (Some st2, w2) ->
  acts lib engine [LoadStep 0; LoadStep 1; LoadStep 0; LoadStep 1; LoadStep 0; LoadStep 1]
    (mkManaged g w [Testing code n; Testing code n]) =
  mkManaged (set_modules (sassign n st2 (sassign n st1 (modules_ g))) g) w2 [Loaded n true; Loaded n true].
Proof. intros E B1 B2. cbn. rewrite E. cbn. rewrite B1. cbn. rewrite B2. done. Qed.

(** Behind a load that succeeded every request gets its context from the machine that was
    configured for the module; requests leave the manager alone. *)
Lemma manager_load_opens code n g w g' w' : smap_ok (modules_ g) -> manager_load lib engine code n (g, w) = (true, (g', w')) ->
  exists st, configured n st /\ forall w1, manager_open lib n (g', w1) = ((RequestScope_init lib st w1).1, (g', (RequestScope_init lib st w1).2)).
Proof.
  intros O. unfold manager_load, loadModuleFromMemory. cbn [fst snd]. destruct (hasModule n g); [done|].
  destruct (build lib engine (envs_ g) code n w) as [[st|] w2] eqn:B; [|done]. intros [= <- <-]. exists st. split; [by eapply build_configured|].
  intros w1. unfold manager_open, createRequestScope. cbn. rewrite sfind_sassign by done. rewrite decide_True by done.
  by destruct (RequestScope_init lib st w1).
Qed.
End ModulesSpec.

(** ** A library to try the theorem on *)

(** A machine is the number of those made before; the code ["bad"] is refused. *)
Definition toy_library : wasm_library nat unit unit nat := mkLibrary nat unit unit nat
  (fun code => if bool_decide (code = str "bad") then None else Some ProxyWasm_0_2_1)
  (fun n _ code => n ++ code)
  (fun _ _ _ _ w => (Some (Some w), S w))
  (fun _ => true)
  (fun _ _ w => (Some (Some tt), w))
  (fun _ _ _ w => (Some true, w))
  (fun _ _ w => (Some tt, w))
  (fun _ _ => true)
  (fun _ _ _ => true)
  (fun _ _ w => (Some (Some (mkBase (Some []) None (Some []) [])), w)).

(** Two threads load two modules at the same time, a third one a module that is refused. *)
Definition toy_codes : list (list Z * name) := [(str "x", str "auth"); (str "y", str "log"); (str "bad", str "none")].
Definition toy_before : list action := [LoadStep 0; LoadStep 1; LoadStep 0; LoadStep 1; LoadStep 0].
Definition toy_behind : list action := [LoadStep 2; OpenScope (str "auth"); LoadStep 1; LoadStep 2; Unload (str "log"); LoadStep 2].

Lemma modules_configured_witness :
  let s0 := mkManaged (mkManager [] ∅) 0%nat ((fun c => Testing c.1 c.2) <$> toy_codes) in
  let s' := acts toy_library [] (toy_before ++ toy_behind) s0 in
  loads s' = [Loaded (str "auth") true; Loaded (str "log") true; Loaded (str "none") false] /\
  NoDup (getLoadedModules (manager s')) /\
  exists st, configured toy_library [] (str "auth") st /\ sfind (str "auth") (modules_ (manager s')) = Some st.
Proof.
  intros s0 s'. split; [vm_compute; reflexivity|].
  destruct (modules_configured toy_library [] toy_codes ∅ 0%nat toy_before toy_behind) as (H1 & _ & _ & H4).
  split; [exact H1|]. destruct H4 as [_ H5].
  { apply (bool_decide_eq_true _). vm_compute. reflexivity. }
  destruct (H5 (str "auth") 0%nat) as (st & C & _ & F); [vm_compute; reflexivity| |exists st; split; [exact C|exact F]].
  rewrite !not_elem_of_app. unfold toy_before, toy_behind. split; repeat (apply not_elem_of_cons; split; [discriminate|]); apply not_elem_of_nil.
Defined.

(** ** The metrics of a machine *)

(** What a thread counts on its clone is read on the base and on every other clone, and no
    other module sees it. *)
Lemma clone_counts (h : stores) p s id e d : h !! p = Some s -> sfind id (metrics_ s) = Some e ->
  exists h', lswasm_increment (Some (clone_LsWasm p)) id d h = Some (Ok, h') /\
    lswasm_get (Some p) id h' = Some (Ok, Some (u64 (me_value e + d))) /\ forall q, q <> p -> h' !! q = h !! q.
Proof.
  intros Hp He. unfold lswasm_increment, lswasm_get, clone_LsWasm, metric_increment, metric_get. rewrite Hp. cbn [mbind option_bind]. rewrite He.
  eexists. split; [reflexivity|]. split; [|intros q N; by rewrite lookup_insert_ne].
  rewrite lookup_insert_eq. cbn [mbind option_bind metrics_ set_metrics]. rewrite sfind_smodify, decide_True, He by done. cbn. by rewrite u64_s64.
Qed.

Lemma new_LsWasm_fresh (h : stores) : let '(p, h') := new_LsWasm h in
  h !! p = None /\ h' !! p = Some new_MetricStore /\ forall q s, h !! q = Some s -> h' !! q = Some s.
Proof.
  unfold new_LsWasm. cbn. pose proof (is_fresh (dom h)) as F%not_elem_of_dom. split; [done|]. split; [by rewrite lookup_insert_eq|].
  intros q s E. rewrite lookup_insert_ne; [done|]. intros <-. congruence.
Qed.
