(* ===== verification/ChainFrame.v ===== *)
(** * What a filter chain does to its sink

    The modules reach the sink only through the streaming functions of their contexts, so
    a relation that the three operations of the sink keep is kept by every phase of the
    chain and by its destructor, whatever the modules do. *)

From S2P Require Export FiltersSpec.

Open Scope Z_scope.

Section Frame.
Context {Sk : Type} `{ResponseSink Sk} (K : relation Sk) `{!PreOrder K}.
Context (K_head : forall n headers streaming k b k', sendHeaders n headers streaming k = Some (b, k') -> K k k').
Context (K_body : forall data k b k', writeBody data k = Some (b, k') -> K k k').
Context (K_finish : forall k b k', finishBody k = Some (b, k') -> K k k').

(** ** One call *)

(** The sink a streaming context writes to. *)
Definition sink_moves (c c' : stream_ctx Sk) : Prop :=
  match sink_ c with Some k => exists k', sink_ c' = Some k' /\ K k k' | None => sink_ c' = None end.

Lemma sink_stays c : sink_moves c c.
Proof using PreOrder0. unfold sink_moves. destruct (sink_ c); [|done]. by eexists. Qed.

Lemma streaming_moves (step : Sk -> option (bool * Sk)) (f : bool * Sk -> WasmResult * stream_ctx Sk) c r c' :
  (forall k b k', step k = Some (b, k') -> K k k') -> (forall b k, sink_ (f (b, k)).2 = Some k) ->
  match sink_ c with
  | None => Some (InternalFailure, c)
  | Some k => x ← step k; Some (f x)
  end = Some (r, c') -> sink_moves c c'.
Proof using PreOrder0.
  unfold sink_moves. intros HK Hf. destruct (sink_ c) as [k|] eqn:Ek; [|by intros [= <- <-]].
  destruct (step k) as [[b k']|] eqn:E; [|done]. cbn. intros [= Ef]. exists k'. split; [|by eapply HK].
  pose proof (Hf b k') as X. by rewrite Ef in X.
Qed.

Lemma foreign_moves call c r c' : foreign call c = Some (r, c') -> sink_moves c c'.
Proof using PreOrder0 K_head K_body K_finish.
  assert (forall n headers, streamingSendHeaders n headers c = Some (r, c') -> sink_moves c c') as Hhead.
  { intros n headers E. unfold streamingSendHeaders in E. destruct (streaming_state_ c); [|destruct (sink_ c); injection E as <- <-; apply sink_stays..].
    apply (streaming_moves (sendHeaders n headers true)
      (fun '(ok, s) => if ok : bool then (Ok, mkStream (Some s) HeadersSent) else (InternalFailure, mkStream (Some s) Idle)) c r c');
      [by intros k b k'; apply K_head|by intros [] k|]. destruct (sink_ c) as [k|]; [|done]. destruct (sendHeaders _ _ _ k) as [[[] k']|]; exact E. }
  destruct call as [arg|arg|]; cbn [foreign].
  - unfold send_response_headers. destruct (_ <? 4); [intros [= <- <-]; apply sink_stays|].
    destruct (load_u32 arg 0) as [n|]; [|done]. destruct (deserialize_header_pairs _) as [hs|]; [|done]. apply Hhead.
  - unfold streamingWriteChunk. destruct (streaming_state_ c); [destruct (sink_ c); intros [= <- <-]; apply sink_stays| |destruct (sink_ c); intros [= <- <-]; apply sink_stays].
    case_bool_decide; [destruct (sink_ c); intros [= <- <-]; apply sink_stays|]. intros E.
    apply (streaming_moves (writeBody arg) (fun '(ok, s) => (if ok : bool then Ok else InternalFailure, mkStream (Some s) HeadersSent)) c r c');
      [by intros k b k'; apply K_body|done|]. destruct (sink_ c) as [k|]; [|done]. destruct (writeBody arg k) as [[[] k']|]; exact E.
  - unfold streamingFinish. destruct (streaming_state_ c); [destruct (sink_ c); intros [= <- <-]; apply sink_stays| |destruct (sink_ c); intros [= <- <-]; apply sink_stays].
    intros E. apply (streaming_moves finishBody
      (fun '(ok, s) => if ok : bool then (Ok, mkStream (Some s) StreamFinished) else (InternalFailure, mkStream (Some s) HeadersSent)) c r c');
      [by intros k b k'; apply K_finish|by intros [] k|]. destruct (sink_ c) as [k|]; [|done]. destruct (finishBody k) as [[[] k']|]; exact E.
Qed.

Lemma host_step_moves live call c k a c' k' : host_step live call c k = Some (a, (c', k')) -> K k k'.
Proof using PreOrder0 K_head K_body K_finish.
  destruct call; cbn [host_step]; try (intros [= _ _ <-]; reflexivity).
  - destruct (getBuffer live type c); [|done]. intros [= _ _ <-]; reflexivity.
  - unfold foreign_on. destruct (foreign call _) as [[r x]|] eqn:E; [|done]. cbn. intros [= _ _ <-].
    apply foreign_moves in E. unfold sink_moves in E. cbn in E. destruct (sink_set c); [|by rewrite E].
    by destruct E as (k1 & -> & ?).
Qed.

Lemma run_prog_moves {W} live (p : prog W) : forall c k w c' k', run_prog live p c k = Some (w, (c', k')) -> K k k'.
Proof using PreOrder0 K_head K_body K_finish.
  induction p as [w|call next IH]; intros c k w' c' k' E; cbn in E; [injection E as _ _ <-; reflexivity|].
  destruct (host_step live call c k) as [[a [c1 k1]]|] eqn:E1; [|done]. cbn in E. apply host_step_moves in E1.
  transitivity k1; [done|]. by eapply IH.
Qed.

(** ** The chain *)

Section Chain.
Context {W : Type} (open_scope : name -> W -> option ContextBase * W) (callback : name -> phase -> W -> prog W).

Abbreviation chain := (Filters.chain Sk W).
Abbreviation moves f f' := (K (sink f) (sink f')).

Lemma run_callback_moves m ph c (f : chain) c' f' : run_callback callback m ph c f = Some (c', f') -> moves f f'.
Proof using PreOrder0 K_head K_body K_finish. intros (w & s & R & ->)%run_callback_inv. by apply run_prog_moves in R. Qed.

Lemma phase_moves ph before after modules : forall (f f' : chain), phase_loop callback modules ph before after f = Some f' -> moves f f'.
Proof using PreOrder0 K_head K_body K_finish.
  intros f f'. apply (phase_loop_rule callback (fun g => moves f g)); [|reflexivity].
  intros m c c' s w g _ Hg _ _ R. rewrite sink_settle. apply run_prog_moves in R. by transitivity (sink g).
Qed.

Lemma init_scope_moves m (f : chain) r f' : init_scope open_scope callback m f = Some (r, f') -> moves f f'.
Proof using PreOrder0 K_head K_body K_finish.
  unfold init_scope. destruct (open_scope m (vms f)) as [[b|] w]; [|intros [= _ <-]; reflexivity].
  destruct (run_callback _ _ _ _ _) as [[c g]|] eqn:E; [|done]. cbn. intros [= _ <-]. by apply run_callback_moves in E.
Qed.

Lemma request_headers_moves eos modules : forall (f f' : chain), request_headers_loop open_scope callback modules eos f = Some f' -> moves f f'.
Proof using PreOrder0 K_head K_body K_finish.
  induction modules as [|m modules IH]; intros f f' E; cbn in E; [injection E as <-; reflexivity|].
  destruct (init_scope _ _ _ _) as [[[c|] f1]|] eqn:E1; [| |done]; cbn in E; apply init_scope_moves in E1; (transitivity (sink f1); [done|]).
  - destruct (run_callback _ _ _ _ _) as [[c2 f2]|] eqn:E2; [|done]. cbn in E. apply run_callback_moves in E2.
    rewrite <- (sink_store m c2 f2) in E2. set (g := store_scope m c2 f2) in *. transitivity (sink g); [done|].
    change ((if has_local_response (http_data g) then Some g else request_headers_loop open_scope callback modules eos g) = Some f') in E.
    destruct (has_local_response (http_data g)); [injection E as <-; reflexivity|by apply IH].
  - by apply IH.
Qed.

Lemma onRequestHeaders_moves loaded eos (f f' : chain) : onRequestHeaders open_scope callback loaded eos f = Some f' -> moves f f'.
Proof using PreOrder0 K_head K_body K_finish.
  unfold onRequestHeaders. destruct loaded as [ms|]; [|intros [= <-]; reflexivity]. intros E. by apply request_headers_moves in E.
Qed.

Lemma destroy_moves (f f' : chain) : destroy callback f = Some f' -> moves f f'.
Proof using PreOrder0 K_head K_body K_finish.
  unfold destroy. assert (forall scopes g g', destroy_scopes callback scopes g = Some g' -> moves g g') as X.
  { induction scopes as [|[m [c|]] scopes IH]; intros g g' E; cbn in E; [injection E as <-; reflexivity| |by apply IH].
    destruct (run_callback _ m OnDone _ _) as [[c1 g1]|] eqn:E1; [|done]. cbn in E.
    destruct (run_callback _ m OnDelete _ _) as [[c2 g2]|] eqn:E2; [|done]. cbn in E.
    apply run_callback_moves in E1, E2. transitivity (sink g1); [done|]. transitivity (sink g2); [done|]. by apply IH. }
  destruct (destroy_scopes _ _ _) as [g|] eqn:E; [|done]. intros [= <-]. by apply X in E.
Qed.
End Chain.
End Frame.
