(* ===== verification/ChainSpec.v ===== *)
(** * What passes through a filter chain

    Over any sink: how a handler moves the chain of a request (pieces of the body, then the
    later phases), the callbacks every module sees on the way, and the stream of the one
    module of a chain.  The handlers over HTTP and over LSAPI are runs of this kind. *)

From S2P Require Export FiltersSpec SinksSpec.
From S2P Require Import HttpUtilsSpec.

Open Scope Z_scope.

Definition gives (before : HttpData -> LsWasmContext -> LsWasmContext) : Prop :=
  forall d c, sink_set (before d c) = sink_set c /\ stream_state (before d c) = stream_state c.

(** The place of a phase in a stream. *)
Definition rank (ph : phase) : nat :=
  match ph with OnRequestTrailers => 1 | OnResponseHeaders _ => 2 | OnResponseBody _ _ => 3 | OnResponseTrailers => 4 | _ => 0 end.

Definition phases_of (m : name) (tr : list event) : list phase := ev_phase <$> filter (fun e => ev_module e = m) tr.

Definition body_seen (e : event) : option (list Z * bool) :=
  match ev_phase e with OnRequestBody _ eos => Some (ev_body e, eos) | _ => None end.

(** The pieces of the body a module has seen, with the end-of-stream flags. *)
Definition bodies_of (m : name) (tr : list event) : list (list Z * bool) := omap body_seen (filter (fun e => ev_module e = m) tr).

Section ChainSpec.
Context {Sk : Type} `{SinkOps : ResponseSink Sk} {W : Type}.
Context {open_scope : name -> W -> option ContextBase * W} {callback : name -> phase -> W -> prog W}.
(** What the host does to the sink between the phases of a request. *)
Context {host : relation Sk}.

Abbreviation chain := (Filters.chain Sk W).

Lemma no_streaming_idle (f : chain) : chain_hasStreamingResponse f = false -> contexts (fun c => stream_state c = Idle) f.
Proof.
  intros St m c F%sfind_elem. unfold chain_hasStreamingResponse, any_context in St.
  destruct (stream_state c) eqn:E; [done|exfalso..]; apply not_true_iff_false in St; apply St; apply existsb_exists;
    exists (m, Some c); (split; [by apply list_elem_of_In|cbn; by rewrite E]).
Qed.

(** ** Runs of a chain *)

Definition host_moves (f f' : chain) : Prop := same_chain f f' /\ host (sink f) (sink f') /\ vms f' = vms f.

(** The chain advances by phases of the next rank, and by what the host does in between. *)
Inductive advance : nat -> chain -> nat -> chain -> Prop :=
| AdvRefl k f : advance k f k f
| AdvPhase k ph before after f f1 k' g :
    rank ph = S k -> gives before -> keeps_answer after -> phase_loop callback (module_order_ f) ph before after f = Some f1 ->
    advance (S k) f1 k' g -> advance k f k' g
| AdvHost k f f1 k' g : host_moves f f1 -> advance k f1 k' g -> advance k f k' g.

(** Pieces of the body with their end-of-stream flags. *)
Inductive body_run : chain -> list (list Z * bool) -> chain -> Prop :=
| BodyNil f f' : host_moves f f' -> body_run f [] f'
| BodyCons f f1 f2 data eos ds g :
    host_moves f f1 -> onRequestBody callback eos (assign_request_body data f1) = Some f2 -> body_run f2 ds g ->
    body_run f ((data, eos) :: ds) g.

(** ** The callbacks of a module *)

Lemma phase_events_of ph E visited evs m : phase_events ph E visited evs -> NoDup visited ->
  filter (fun e => ev_module e = m) evs = [] /\ m ∉ visited \/
  exists e, filter (fun e => ev_module e = m) evs = [e] /\ ev_phase e = ph /\ E e /\ m ∈ visited.
Proof.
  induction 1 as [|m0 e visited evs (Em & Ep & Ee) F IH]; intros Hd; [left; split; [done|by inversion 1]|].
  apply NoDup_cons in Hd as [Hm Hd]. rewrite filter_cons, Em. destruct (decide (m0 = m)) as [->|N].
  - right. exists e. destruct (IH Hd) as [[-> _]|(e' & _ & _ & _ & X)]; [|done]. repeat split; try done. by constructor.
  - destruct (IH Hd) as [[-> X]|(e' & -> & ? & ? & ?)].
    + left. split; [done|]. by rewrite not_elem_of_cons.
    + right. exists e'. repeat split; try done. by constructor.
Qed.

(** What every module of the chain has seen, [k] phases behind the body. *)
Definition at_stage (eos : bool) (k : nat) (f : chain) : Prop := forall m,
  if decide (m ∈ module_order_ f) then
    exists bodies rest, phases_of m (trace f) = [OnCreate; OnRequestHeaders eos] ++ bodies ++ rest /\
      Forall (fun ph => exists n b, ph = OnRequestBody n b) bodies /\ (rank <$> rest) `prefix_of` seq 1 k /\
      (has_local_response (http_data f) = false -> rank <$> rest = seq 1 k)
  else phases_of m (trace f) = [].

Lemma chain_order_phase ph before after modules f f' : phase_loop callback modules ph before after f = Some f' -> module_order_ f' = module_order_ f.
Proof.
  refine (phase_loop_rule callback (fun g => module_order_ g = module_order_ f) _ _ _ _ _ f f' eq_refl).
  intros m0 c0 c' s w g _ <- _ _ _. by rewrite order_settle.
Qed.

Lemma chain_ok_scopes (f : chain) m : chain_ok f -> m ∈ module_order_ f -> exists c, sfind m (scopes_ f) = Some (Some c).
Proof.
  intros [M O K So _ _] Hm%K. apply list_elem_of_fmap in Hm as ([m' c] & -> & Hm). rewrite Forall_forall in So.
  destruct (So _ Hm) as [c' E]. cbn in *. subst. exists c'. by apply sfind_elem_ok.
Qed.

(** What a phase adds to a stage. *)
Lemma phase_adds ph before after E f f' :
  (forall m d c, E (mkEvent m ph
    (match ph with OnRequestBody _ _ => view_bytes (request_body_ (before d c)) | OnResponseBody _ _ => response_body_ (before d c) | _ => [] end)
    (end_of_stream_ (before d c)))) ->
  chain_ok f -> phase_loop callback (module_order_ f) ph before after f = Some f' ->
  exists evs, trace f' = trace f ++ evs /\ forall m,
    (filter (fun e => ev_module e = m) evs = [] /\ (m ∈ module_order_ f -> has_local_response (http_data f') = true)) \/
    (m ∈ module_order_ f /\ exists e, filter (fun e => ev_module e = m) evs = [e] /\ ev_phase e = ph /\ E e).
Proof.
  intros HE Hok R. destruct (phase_loop_trace callback ph before after E HE _ _ _ R) as (visited & evs & T & Hp & [r Hv] & Hl & _).
  { intros m Hm. by apply chain_ok_scopes. }
  exists evs. split; [done|]. intros m. assert (NoDup visited) as Hd.
  { pose proof (co_order _ Hok) as O. rewrite Hv in O. by apply NoDup_app in O as [O _]. }
  destruct (phase_events_of ph E visited evs m Hp Hd) as [[Hf Hm]|(e & Hf & Hph & He & Hm)].
  - left. split; [done|]. intros Hm'. destruct (has_local_response (http_data f')); [done|]. rewrite Hl in Hm by done. done.
  - right. split; [rewrite Hv; apply elem_of_app; by left|eauto].
Qed.

Lemma phase_loop_answered ph before after modules (f : chain) : has_local_response (http_data f) = true ->
  phase_loop callback modules ph before after f = Some f.
Proof. intros L. destruct modules; [done|]. cbn. by rewrite L. Qed.

Lemma phases_of_app m tr evs : phases_of m (tr ++ evs) = phases_of m tr ++ (ev_phase <$> filter (fun e => ev_module e = m) evs).
Proof. unfold phases_of. by rewrite filter_app, fmap_app. Qed.

(** A phase of rank [k'] takes every module from stage [k] to stage [k'], unless the chain has been answered. *)
Lemma stage_step eos k k' ph before after f f1 : chain_ok f -> phase_loop callback (module_order_ f) ph before after f = Some f1 ->
  ((k' = S k /\ rank ph = S k) \/ (k' = k /\ k = 0%nat /\ exists n b, ph = OnRequestBody n b)) ->
  at_stage eos k f -> at_stage eos k' f1.
Proof.
  intros Hok R Hk Hs m. specialize (Hs m). rewrite (chain_order_phase _ _ _ _ _ _ R).
  destruct (has_local_response (http_data f)) eqn:L.
  { rewrite phase_loop_answered in R by done. injection R as <-. destruct (decide _); [|done].
    destruct Hs as (bodies & rest & -> & F & Pr & _). exists bodies, rest. split; [done|]. split; [done|]. split; [|congruence].
    destruct Hk as [[-> _]|[-> _]]; [|done]. etransitivity; [exact Pr|]. rewrite seq_S. by apply prefix_app_r. }
  destruct (phase_adds ph before after (fun _ => True) f f1) as (evs & T & Ev); [done..|]. rewrite T, phases_of_app.
  destruct (decide (m ∈ module_order_ f)) as [Hm|Hm].
  - destruct Hs as (bodies & rest & -> & F & Pr & Al). specialize (Al eq_refl).
    destruct (Ev m) as [[-> Hl]|(_ & e & -> & Hp & _)].
    + exists bodies, rest. rewrite app_nil_r. split; [done|]. split; [done|]. split; [|rewrite Hl by done; done].
      destruct Hk as [[-> _]|[-> _]]; [|done]. etransitivity; [exact Pr|]. rewrite seq_S. by apply prefix_app_r.
    + cbn [fmap list_fmap]. rewrite Hp. destruct Hk as [[-> Hr]|(-> & -> & Hb)].
      * exists bodies, (rest ++ [ph]). split; [by rewrite <- !app_assoc|]. split; [done|]. rewrite fmap_app, Al, seq_S. cbn. by rewrite Hr.
      * exists (bodies ++ [ph]), []. assert (rest = []) as -> by (by destruct rest). rewrite !app_nil_r. split; [done|].
        split; [by apply Forall_app_2, Forall_singleton|]. done.
  - rewrite Hs. by destruct (Ev m) as [[-> _]|[X _]].
Qed.

Lemma stage_same eos k f f1 : same_chain f f1 -> at_stage eos k f -> at_stage eos k f1.
Proof. intros (_ & E2 & E3 & E4 & _) Hs m. specialize (Hs m). by rewrite E2, E3, E4. Qed.

Lemma chain_ok_body eos f f1 : chain_ok f -> onRequestBody callback eos f = Some f1 -> chain_ok f1.
Proof. apply chain_ok_phase; by intros. Qed.

Lemma chain_ok_assign data (f : chain) : chain_ok f -> chain_ok (assign_request_body data f).
Proof. by apply chain_ok_same. Qed.

Lemma stage_advance eos k f k' g : advance k f k' g -> chain_ok f -> at_stage eos k f -> chain_ok g /\ at_stage eos k' g.
Proof.
  induction 1 as [k f|k ph before after f f1 k' g Hr Hb Ha R A IH|k f f1 k' g [Es _] A IH]; intros Hok Hs; [done|apply IH..].
  - eapply chain_ok_phase; [exact Ha|apply Hb|exact Hok|exact R].
  - eapply stage_step; [exact Hok|exact R|left; done|exact Hs].
  - by apply (chain_ok_same f).
  - by apply (stage_same _ _ f).
Qed.

Lemma stage_body_run eos f ds g : body_run f ds g -> chain_ok f -> at_stage eos 0 f -> chain_ok g /\ at_stage eos 0 g.
Proof.
  induction 1 as [f f' [Es _]|f f1 f2 data eos' ds g [Es _] R B IH]; intros Hok Hs.
  - split; [by apply (chain_ok_same f)|by apply (stage_same _ _ f)].
  - pose proof (chain_ok_same _ _ Es Hok) as H1. pose proof (chain_ok_assign data f1 H1) as H2. apply IH.
    + by eapply chain_ok_body.
    + eapply (stage_step _ 0 0); [exact H2|exact R|right; eauto|]. apply (stage_same _ _ f1); [done|]. by apply (stage_same _ _ f).
Qed.

Lemma phases_of_pairs m (visited : list name) a b evs : NoDup visited ->
  (fun e => (ev_module e, ev_phase e)) <$> evs = mjoin ((fun m => [(m, a); (m, b)]) <$> visited) ->
  ev_phase <$> filter (fun e => ev_module e = m) evs = if decide (m ∈ visited) then [a; b] else [].
Proof.
  revert evs. induction visited as [|m0 visited IH]; intros evs Hd E.
  { destruct evs; [|done]. by rewrite decide_False by (by inversion 1). }
  apply NoDup_cons in Hd as [Hm Hd]. destruct evs as [|e1 [|e2 evs]]; try discriminate E. cbn in E. injection E as E1 E2 E3 E4 E.
  specialize (IH _ Hd E). rewrite !filter_cons, E1, E3. destruct (decide (m0 = m)) as [->|N].
  - cbn. rewrite IH, decide_False by done. rewrite decide_True by (by constructor). by rewrite E2, E4.
  - rewrite IH. destruct (decide (m ∈ visited)) as [X|X]; [rewrite decide_True by (by constructor)|rewrite decide_False]; try done.
    by rewrite not_elem_of_cons.
Qed.

Lemma stage_headers loaded eos d s0 w f : has_local_response d = false -> match loaded with Some ms => NoDup ms | None => True end ->
  onRequestHeaders open_scope callback loaded eos (new_chain d s0 w) = Some f -> chain_ok f /\ at_stage eos 0 f.
Proof.
  intros L loaded_names E. split; [by eapply chain_ok_request_headers|]. unfold onRequestHeaders in E. destruct loaded as [ms|].
  2: { injection E as <-. intros m. cbn. by rewrite decide_False by (by inversion 1). }
  apply request_headers_trace in E as (visited & evs & T & O & Sub & Ev). cbn in T, O. intros m. rewrite O, T. cbn [app].
  unfold phases_of. rewrite (phases_of_pairs _ visited _ _ _ (sublist_NoDup _ _ loaded_names Sub) Ev).
  destruct (decide (m ∈ visited)); [|done]. exists [], []. split; [done|]. split; [constructor|]. done.
Qed.

Lemma advance_rank k f k' g : advance k f k' g -> (k <= 4)%nat -> (k' <= 4)%nat.
Proof.
  induction 1 as [|k ph before after f f1 k' g Hr _ _ _ A IH|]; [done| |done]. intros _. apply IH. rewrite <- Hr. destruct ph; cbn; lia.
Qed.

Lemma bodies_of_app m tr evs : bodies_of m (tr ++ evs) = bodies_of m tr ++ omap body_seen (filter (fun e => ev_module e = m) evs).
Proof. unfold bodies_of. by rewrite filter_app, omap_app. Qed.

Lemma onRequestBody_seen eos data f f1 : chain_ok f -> onRequestBody callback eos (assign_request_body data f) = Some f1 ->
  module_order_ f1 = module_order_ f /\
  (has_local_response (http_data f1) = false -> forall m, m ∈ module_order_ f ->
    bodies_of m (trace f1) = bodies_of m (trace f) ++ [(data, eos)]).
Proof.
  intros Hok R. pose proof (chain_ok_assign data f Hok) as Ha.
  split; [by apply chain_order_phase in R|]. intros L m Hm. unfold onRequestBody in R.
  eapply (phase_adds _ _ _ (fun e => ev_body e = data)) in R as (evs & T & Ev); [|by intros|exact Ha].
  rewrite T, bodies_of_app. destruct (Ev m) as [[_ X]|(_ & e & -> & Hp & He)]; [rewrite X in L by done; done|].
  cbn. unfold body_seen. rewrite Hp, He. done.
Qed.

Lemma advance_local k f k' g : advance k f k' g -> has_local_response (http_data g) = false -> has_local_response (http_data f) = false.
Proof.
  induction 1 as [k f|k ph before after f f1 k' g Hr Hb Ha R A IH|k f f1 k' g [Es _] A IH]; intros L; [done| |].
  - specialize (IH L). destruct (has_local_response (http_data f)) eqn:X; [|done]. rewrite phase_loop_answered in R by done. congruence.
  - specialize (IH L). destruct Es as (_ & _ & _ & Es & _). congruence.
Qed.

(** Behind an answer no module is called. *)
Lemma advance_answered k f k' g : advance k f k' g -> has_local_response (http_data f) = true -> same_chain f g.
Proof.
  induction 1 as [k f|k ph before after f f1 k' g Hr Hb Ha R A IH|k f f1 k' g [Es _] A IH]; intros L; [by repeat split| |].
  - rewrite phase_loop_answered in R by done. injection R as <-. by apply IH.
  - assert (has_local_response (http_data f1) = true) as L1 by (destruct Es as (_ & _ & _ & -> & _); done).
    specialize (IH L1). unfold same_chain in *. intuition congruence.
Qed.

Lemma advance_bodies k f k' g m : advance k f k' g -> chain_ok f -> bodies_of m (trace g) = bodies_of m (trace f) /\ module_order_ g = module_order_ f.
Proof.
  induction 1 as [k f|k ph before after f f1 k' g Hr Hb Ha R A IH|k f f1 k' g [Es _] A IH]; intros Hok; [done| |].
  - destruct (phase_adds ph before after (fun _ => True) f f1) as (evs & T & Ev); [done..|].
    destruct IH as [-> ->]; [eapply chain_ok_phase; [exact Ha|apply Hb|exact Hok|exact R]|].
    split; [|by apply chain_order_phase in R]. rewrite T, bodies_of_app.
    destruct (Ev m) as [[-> _]|(_ & e & -> & Hp & _)]; [by rewrite app_nil_r|]. cbn. unfold body_seen. rewrite Hp.
    destruct ph; try (by rewrite app_nil_r); discriminate Hr.
  - destruct IH as [-> ->]; [by apply (chain_ok_same f)|]. by destruct Es as (_ & -> & -> & _).
Qed.

Lemma headers_no_body loaded eos d s0 w f m :
  onRequestHeaders open_scope callback loaded eos (new_chain d s0 w) = Some f -> bodies_of m (trace f) = [].
Proof.
  intros E. unfold onRequestHeaders in E. destruct loaded as [ms|]; [|by injection E as <-].
  apply request_headers_trace in E as (visited & evs & T & _ & _ & Ev). cbn in T. rewrite T. cbn [app]. clear T. unfold bodies_of.
  revert evs Ev. induction visited as [|m0 visited IH]; intros evs Ev; [by destruct evs|].
  destruct evs as [|e1 [|e2 evs]]; try discriminate Ev. cbn in Ev. injection Ev as E1 E2 E3 E4 Ev.
  assert (body_seen e1 = None /\ body_seen e2 = None) as [B1 B2] by (unfold body_seen; by rewrite E2, E4).
  rewrite !filter_cons. destruct (decide _), (decide _); cbn; rewrite ?B1, ?B2; by apply IH.
Qed.

(** Where no module has answered, every module has seen the pieces. *)
Lemma body_run_seen f ds g : body_run f ds g -> chain_ok f -> has_local_response (http_data g) = false ->
  module_order_ g = module_order_ f /\ has_local_response (http_data f) = false /\
  forall m, m ∈ module_order_ f -> bodies_of m (trace g) = bodies_of m (trace f) ++ ds.
Proof.
  induction 1 as [f f' [Es _]|f f1 f2 data eos ds g [Es _] R B IH]; intros Hok L.
  - destruct Es as (_ & -> & -> & <- & _). split; [done|]. split; [done|]. intros. by rewrite app_nil_r.
  - pose proof (chain_ok_same _ _ Es Hok) as H1. destruct (onRequestBody_seen _ _ _ _ H1 R) as [O S1].
    destruct (IH (chain_ok_body _ _ _ (chain_ok_assign _ _ H1) R) L) as (O2 & L2 & S2). destruct Es as (_ & E2 & E3 & E4 & _).
    assert (has_local_response (http_data f1) = false) as L1.
    { destruct (has_local_response (http_data f1)) eqn:X; [|done]. unfold onRequestBody in R. rewrite phase_loop_answered in R by done.
      injection R as <-. cbn in L2. congruence. }
    split; [congruence|]. split; [congruence|]. intros m Hm. rewrite S2 by (rewrite O; congruence).
    rewrite (S1 L2 m ltac:(congruence)), E3, <- app_assoc. done.
Qed.

(** ** Invariants of a run *)

Section Invariant.
Context (J : chain -> Prop) (J_host : forall f f', host_moves f f' -> J f -> J f').
Context (J_assign : forall data f, J f -> J (assign_request_body data f)).
Context (J_callback : forall m ph before after c c' s w f, gives before -> J f -> sfind m (scopes_ f) = Some (Some c) ->
    run_prog (body_gen f) (callback m ph (vms f)) (before (http_data f) c) (sink f) = Some (w, (c', s)) ->
    J (settle m after c' (called m ph (before (http_data f) c) s w f))).

Lemma phase_invariant ph before after modules f f' : gives before -> J f -> phase_loop callback modules ph before after f = Some f' -> J f'.
Proof using J_callback. intros Hb. refine (phase_loop_rule callback J _ _ _ _ _ f f'). intros m0 c0 c' s w0 h0 _ Hj _ F R. by eapply J_callback. Qed.

Lemma body_run_invariant f ds g : body_run f ds g -> J f -> J g.
Proof using J_host J_assign J_callback.
  induction 1 as [f f' Es|f f1 f2 data eos ds g Es R B IH]; intros Hj; [by eapply J_host|]. apply IH.
  unfold onRequestBody in R. eapply phase_invariant; [|by apply J_assign, (J_host f)|exact R]. done.
Qed.

Lemma advance_invariant k f k' g : advance k f k' g -> J f -> J g.
Proof using J_host J_callback.
  induction 1 as [k f|k ph before after f f1 k' g Hr Hb Ha R A IH|k f f1 k' g Es A IH]; intros Hj; [done|apply IH..].
  - by eapply phase_invariant.
  - by apply (J_host f).
Qed.
End Invariant.

(** ** Runs come to an end *)

(** A callback whose view of the body is fresh returns, and as long as a context does not
    stream [K] holds of the sink. *)
Section Total.
Context (K : Sk -> Prop).
Context (prog_total : forall live m ph w c s, fresh_view live c -> is_Some (run_prog live (callback m ph w) c s)).
Context (prog_idle : forall live m ph w c s w' c' s', run_prog live (callback m ph w) c s = Some (w', (c', s')) ->
  stream_state c' = Idle -> K s -> K s').

Record run_ok (f : chain) : Prop := {
  ro_chain : chain_ok f;
  ro_idle : contexts (fun c => stream_state c = Idle) f -> K (sink f)
}.

Definition fresh_views (f : chain) : Prop := contexts (fresh_view (body_gen f)) f.

Lemma run_ok_settle m ph (before : HttpData -> LsWasmContext -> LsWasmContext) after c c' s w f :
  gives before -> keeps_answer after -> run_ok f -> has_local_response (http_data f) = false -> sfind m (scopes_ f) = Some (Some c) ->
  run_prog (body_gen f) (callback m ph (vms f)) (before (http_data f) c) (sink f) = Some (w, (c', s)) ->
  run_ok (settle m after c' (called m ph (before (http_data f) c) s w f)).
Proof.
  intros Hb Ha [Hok Hi] L F R. pose proof (run_prog_le _ _ _ _ _ _ _ R) as Le. destruct (Hb (http_data f) c) as [Hb1 Hb2]. split.
  - eapply chain_ok_settle; try done. rewrite (cl_sink _ _ Le), Hb1. by eapply co_sink.
  - intros Hc. rewrite sink_settle. cbn [called sink].
    assert (stream_state c' = Idle) as I'.
    { apply (Hc m). rewrite scopes_settle. cbn [called scopes_]. rewrite sfind_smodify, decide_True by done. by rewrite F. }
    apply (prog_idle _ _ _ _ _ _ _ _ _ R I'), Hi. intros m0 c0 F0. destruct (decide (m = m0)) as [<-|N].
    + assert (c0 = c) as -> by congruence. rewrite <- Hb2. by apply (cl_stream _ _ Le).
    + apply (Hc m0). rewrite scopes_settle. cbn [called scopes_]. by rewrite sfind_smodify, decide_False.
Qed.

(** A phase whose contexts come with fresh views ends, and keeps the invariant. *)
Lemma run_phase ph before after modules (f : chain) :
  gives before -> keeps_answer after -> (forall d c, request_body_ (before d c) = request_body_ c) ->
  run_ok f -> fresh_views f ->
  exists f', phase_loop callback modules ph before after f = Some f' /\ run_ok f' /\ fresh_views f'.
Proof.
  intros Hb Ha Hv Hok Hf. apply (phase_loop_total callback (fun f => run_ok f /\ fresh_views f)); [|done]. clear f Hok Hf.
  intros m c f _ [Hok Hf] L F. destruct (prog_total (body_gen f) m ph (vms f)
    (before (http_data f) c) (sink f)) as [[w [c' s]] R]. { unfold fresh_view. rewrite Hv. by eapply Hf. }
  exists w, c', s. split; [done|]. split; [by eapply run_ok_settle|]. intros m0 c0. rewrite scopes_settle, gen_settle. cbn [called scopes_ body_gen].
  rewrite sfind_smodify. destruct (decide (m = m0)) as [<-|]; [|apply Hf]. rewrite F. cbn. intros [= <-].
  unfold fresh_view. rewrite (cl_request_body _ _ (run_prog_le _ _ _ _ _ _ _ R)), Hv. by eapply Hf.
Qed.

(** The body phase gives every context a fresh view. *)
Lemma run_body_phase eos (f : chain) : run_ok f ->
  exists f', onRequestBody callback eos f = Some f' /\ run_ok f' /\ (has_local_response (http_data f') = false -> fresh_views f').
Proof.
  intros Hok. unfold onRequestBody. set (view := mkView _ _). set (before := fun (_ : HttpData) c => setEndOfStream eos (setRequestBody view c)).
  set (ph := OnRequestBody _ _). set (after := fun _ d => d).
  destruct (phase_loop_total callback (fun g => run_ok g /\ body_gen g = body_gen f) ph before after (module_order_ f)) with (f := f)
    as (f' & E & Hok' & G); [|done|].
  { intros m c g _ [Hg G] L F. destruct (prog_total (body_gen g) m ph (vms g)
      (before (http_data g) c) (sink g)) as [[w [c' s]] R]. { right. by rewrite G. }
    exists w, c', s. split; [done|]. split; [by eapply run_ok_settle|]. by rewrite gen_settle. }
  exists f'. split; [exact E|]. split; [exact Hok'|]. intros L.
  destruct (phase_loop_visits callback (fun _ c => fresh_view (body_gen f) c) ph before after (module_order_ f)) with (f := f) (f' := f')
    as [_ V]; [|done|exact E|exact L|].
  { intros m c c' s w g R. unfold fresh_view. rewrite (cl_request_body _ _ (run_prog_le _ _ _ _ _ _ _ R)). by right. }
  intros m c F. rewrite G. apply (V m); [|done].
  assert (module_order_ f' = module_order_ f) as <-.
  { refine (phase_loop_rule callback (fun g => module_order_ g = module_order_ f) _ _ _ _ _ f f' eq_refl E).
    intros m0 c0 c' s w g _ <- _ _ _. by rewrite order_settle. }
  apply (co_keys _ (ro_chain _ Hok')). apply sfind_elem in F. by apply (list_elem_of_fmap_2 fst _ (m, Some c)).
Qed.

Lemma run_request_headers loaded eos d s0 w : has_local_response d = false -> match loaded with Some ms => NoDup ms | None => True end -> K s0 ->
  exists f, onRequestHeaders open_scope callback loaded eos (new_chain d s0 w) = Some f /\ run_ok f /\ fresh_views f.
Proof.
  intros L loaded_names HK. unfold onRequestHeaders. set (f := set_data _ _).
  assert (run_ok f /\ fresh_views f) as Hok by (split; [split; [apply chain_ok_new; by rewrite synthesize_same|done]|done]).
  destruct loaded as [ms|]; [|by exists f].
  apply (request_headers_total open_scope callback (fun f => run_ok f /\ fresh_views f)); [| |done| |done|cbn; by rewrite synthesize_same].
  - intros w0 g [[H1 H2] H3]. split; [split; [by apply (chain_ok_same g)|done]|done].
  - clear f Hok. intros m b w0 f [Hok Hf] Lf Hm.
    destruct (prog_total (body_gen f) m OnCreate w0 (new_context b) (sink f)) as [[w1 [c s]] R1]; [by left|].
    exists w1, c, s. split; [done|]. intros f1 c1. pose proof (run_prog_le _ _ _ _ _ _ _ R1) as Le1.
    destruct (run_prog_no_sink (body_gen f) (callback m OnCreate w0) (new_context b) (sink f) w1 c s eq_refl R1) as [-> Es].
    assert (request_body_ c1 = mkView [] 0) as Ev by (unfold c1; cbn; by rewrite (cl_request_body _ _ Le1)).
    destruct (prog_total (body_gen f) m (OnRequestHeaders eos) w1 c1 (sink f)) as [[w2 [c2 s2]] R2].
    { left. by rewrite Ev. }
    exists w2, c2, s2. split; [done|]. pose proof (run_prog_le _ _ _ _ _ _ _ R2) as Le2.
    assert (forall m' c', sfind m' (scopes_ (store_scope m c2 (called m (OnRequestHeaders eos) c1 s2 w2 f1))) = Some (Some c') ->
      (m' = m /\ c' = c2) \/ (m' <> m /\ sfind m' (scopes_ f) = Some (Some c'))) as Fi.
    { intros m' c'. rewrite scopes_store. cbn [called scopes_ f1 set_vms]. rewrite sfind_semplace by exact (co_map _ (ro_chain _ Hok)).
      destruct (decide (m = m')) as [->|N]; [|by right]. rewrite (proj2 (sfind_None m' (scopes_ f)) Hm). intros [= <-]. by left. }
    split; [split|].
    + eapply chain_ok_store_scope; [exact (ro_chain _ Hok)|exact Lf|by repeat split|exact Hm|]. by rewrite (cl_sink _ _ Le2).
    + intros Hi. rewrite sink_store. cbn [called sink]. apply (prog_idle _ _ _ _ _ _ _ _ _ R2).
      * apply (Hi m). rewrite scopes_store. cbn [called scopes_ f1 set_vms]. rewrite sfind_semplace by exact (co_map _ (ro_chain _ Hok)).
        rewrite decide_True by done. by rewrite (proj2 (sfind_None m (scopes_ f)) Hm).
      * apply (ro_idle _ Hok). intros m' c' F. apply (Hi m'). rewrite scopes_store. cbn [called scopes_ f1 set_vms].
        rewrite sfind_semplace by exact (co_map _ (ro_chain _ Hok)). destruct (decide (m = m')) as [->|]; [|done].
        exfalso. apply Hm. apply sfind_elem in F. by apply (list_elem_of_fmap_2 fst _ (m', Some c')).
    + intros m' c' [[-> ->]|[N F]]%Fi; rewrite gen_store; cbn [called body_gen f1 set_vms]; [|by eapply Hf].
      left. by rewrite (cl_request_body _ _ Le2), Ev.
  - intros m _ X. by inversion X.
Qed.

Definition fresh_or_answered (f : chain) : Prop := has_local_response (http_data f) = false -> fresh_views f.

Lemma run_ok_same f f' : same_chain f f' -> (K (sink f) -> K (sink f')) -> run_ok f -> run_ok f'.
Proof.
  intros Es Ek [H1 H2]. pose proof Es as (E1 & _). split; [by apply (chain_ok_same f)|].
  intros Hi. apply Ek, H2. unfold contexts in *. by rewrite <- E1.
Qed.

Lemma fresh_same f f' : same_chain f f' -> body_gen f' = body_gen f -> fresh_views f -> fresh_views f'.
Proof. intros (E1 & _) Eg Hf. unfold fresh_views, contexts in *. by rewrite E1, Eg. Qed.

(** One piece of the body. *)
Lemma run_body_piece eos data f : run_ok f ->
  exists f', onRequestBody callback eos (assign_request_body data f) = Some f' /\ run_ok f' /\ fresh_or_answered f'.
Proof. intros Hok. apply run_body_phase. by apply (run_ok_same f). Qed.

Lemma run_trailers f : run_ok f -> fresh_views f -> exists f', onRequestTrailers callback f = Some f' /\ run_ok f' /\ fresh_views f'.
Proof. by apply run_phase. Qed.

(** The three phases of the response. *)
Lemma run_responses f : run_ok f -> fresh_views f ->
  exists f1 f2 f3, onResponseHeaders callback f = Some f1 /\ onResponseBody callback f1 = Some f2 /\
    onResponseTrailers callback f2 = Some f3 /\ run_ok f3.
Proof.
  intros Hok Hf. unfold onResponseHeaders, onResponseBody, onResponseTrailers.
  destruct (run_phase (OnResponseHeaders (bool_decide (response_body (http_data f) = []))) give_response_headers take_response_headers (module_order_ f) f)
    as (f1 & E1 & H1 & F1); try done.
  destruct (run_phase (OnResponseBody (zlen (response_body (http_data f1))) true)
    (fun d c => setEndOfStream true (setResponseBody (response_body d) (give_response_headers d c))) take_response_headers (module_order_ f1) f1)
    as (f2 & E2 & H2 & F2); try done.
  destruct (run_phase OnResponseTrailers give_response_headers take_response_headers (module_order_ f2) f2) as (f3 & E3 & H3 & F3); try done.
  by exists f1, f2, f3.
Qed.
End Total.

End ChainSpec.

#[global] Arguments advance {Sk SinkOps W} callback host _ _ _ _.
#[global] Arguments body_run {Sk SinkOps W} callback host _ _ _.

(** What the loop over the body shows every module, with the flags: the pieces of the
    stream that complete it. *)
Fixpoint marks (content_length consumed : Z) (ds : list (list Z)) : list (list Z * bool) :=
  match ds with
  | [] => []
  | d :: ds => (d, content_length <=? consumed + zlen d) :: marks content_length (consumed + zlen d) ds
  end.

Lemma marks_last content_length : forall ds consumed, consumed + zlen (mjoin ds) = content_length -> Forall (fun d => d <> []) ds -> ds <> [] ->
  exists init last, ds = init ++ [last] /\ marks content_length consumed ds = ((fun d => (d, false)) <$> init) ++ [(last, true)].
Proof.
  induction ds as [|d ds IH]; intros consumed E F N; [done|]. apply Forall_cons in F as [Fd F]. rewrite mjoin_cons, zlen_app in E. cbn [marks].
  pose proof (zlen_nonneg d). pose proof (zlen_nonneg (mjoin ds)). destruct ds as [|d1 ds].
  - exists [], d. cbn. rewrite (proj2 (Z.leb_le _ _)); [done|]. change (mjoin []) with (@nil Z) in E. rewrite zlen_nil in E. lia.
  - destruct (IH (consumed + zlen d)) as (init & last & Ei & M); [lia|done|done|].
    exists (d :: init), last. rewrite M, Ei in *. split; [done|]. cbn. do 2 f_equal. apply Z.leb_gt.
    apply Forall_app in F as [_ F]. apply Forall_cons in F as [Fl _]. rewrite join_app, zlen_app in E. cbn in E. rewrite app_nil_r in E.
    destruct last as [|y last]; [done|]. rewrite zlen_cons in E. pose proof (zlen_nonneg last). pose proof (zlen_nonneg (mjoin init)). lia.
Qed.

Lemma marks_open content_length : forall ds consumed, consumed + zlen (mjoin ds) < content_length ->
  marks content_length consumed ds = (fun d => (d, false)) <$> ds.
Proof.
  induction ds as [|d ds IH]; intros consumed E; [done|]. rewrite mjoin_cons, zlen_app in E. pose proof (zlen_nonneg (mjoin ds)). cbn [marks].
  rewrite IH by lia. cbn. by rewrite (proj2 (Z.leb_gt _ _)) by lia.
Qed.

(** ** One module *)

Section OneStream.
Context {Sk : Type} `{SinkLaws Sk} {W : Type} {open_scope : name -> W -> option ContextBase * W} {callback : name -> phase -> W -> prog W}.
Context (callback_fits : forall m ph w, prog_fits (callback m ph w)).

Abbreviation chain := (Filters.chain Sk (W * foreign_log)).
Abbreviation callback' := (logged_callback callback).

(** The one context of a chain with one module, and its stream: the sink shows what the
    log says was accepted. *)
Definition one_stream (m : name) (f : chain) : Prop :=
  forall m' c, sfind m' (scopes_ f) = Some (Some c) -> m' = m /\ sink_set c = true /\ streams (vms f).2 (sink f) c.

Lemma one_stream_settle m m0 ph before after c c' s w f : gives before -> one_stream m f -> sfind m0 (scopes_ f) = Some (Some c) ->
  run_prog (body_gen f) (callback' m0 ph (vms f)) (before (http_data f) c) (sink f) = Some (w, (c', s)) ->
  one_stream m (settle m0 after c' (called m0 ph (before (http_data f) c) s w f)).
Proof.
  intros Hb Hj F R m' c1. rewrite scopes_settle, sink_settle, vms_settle. cbn [called scopes_ sink vms].
  destruct (Hj _ _ F) as (-> & N & I). destruct (Hb (http_data f) c) as [B1 B2]. rewrite sfind_smodify. destruct (decide (m = m')) as [<-|Ne].
  - rewrite F. cbn. intros [= <-]. split; [done|]. split; [by rewrite (cl_sink _ _ (run_prog_le _ _ _ _ _ _ _ R)), B1|].
    destruct w as [w log]. refine (prog_streams _ _ (callback_fits _ _ _) _ _ _ _ _ _ _ _ _ R); [by rewrite B1|]. unfold streams. by rewrite B2.
  - intros F'. apply Hj in F' as [-> _]. done.
Qed.

Lemma one_stream_headers m eos d s0 w f : shows s0 Unused ->
  onRequestHeaders (logged_open open_scope) callback' (Some [m]) eos (new_chain d s0 (w, [])) = Some f -> one_stream m f.
Proof.
  intros U. unfold onRequestHeaders. set (f0 := set_data _ _). cbn [request_headers_loop]. intros E.
  destruct (init_scope _ callback' m f0) as [[r f1]|] eqn:E1; [|done]. cbn [mbind option_bind] in E.
  apply init_scope_inv in E1 as (b & w0 & Ew & E1).
  assert (w0.2 = []) as L0. { unfold logged_open in Ew. cbn in Ew. destruct (open_scope m w). by injection Ew as _ <-. }
  destruct b as [b|].
  - destruct E1 as (c & w1 & s & R1 & -> & ->). set (f1 := called m OnCreate _ _ _ _) in *. set (c1 := resetHeaderMaps _) in *.
    destruct (run_callback callback' m _ _ f1) as [[c2 f2]|] eqn:R2; [|done]. cbn [mbind option_bind] in E.
    assert (f = store_scope m c2 f2) as -> by (destruct (has_local_response _) in E; by injection E as <-).
    apply run_callback_inv in R2 as (w2 & s2 & R2 & ->).
    destruct (run_prog_no_sink (body_gen f0) (callback' m OnCreate w0) (new_context b) (sink f0) w1 c s eq_refl R1) as [-> Es].
    destruct w1 as [w1 log1], w2 as [w2 log2]. apply prog_no_sink_log in R1 as [R1h R1b]; [|done]. rewrite L0 in R1h, R1b.
    intros m' c'. rewrite scopes_store, sink_store, vms_store. cbn [called scopes_ sink vms f1 f0 set_vms set_data new_chain semplace sfind].
    destruct (decide (m' = m)) as [->|]; [|done]. intros [= <-]. split; [done|].
    split; [by rewrite (cl_sink _ _ (run_prog_le _ _ _ _ _ _ _ R2))|].
    refine (prog_streams _ _ (callback_fits _ _ _) _ _ _ _ _ _ _ _ _ R2); [done|]. unfold streams. change (vms f1).2 with log1. rewrite R1h, R1b.
    cbn. rewrite Es. exists s0. repeat split. by left.
  - destruct E1 as [-> ->]. injection E as <-. by intros m' c'.
Qed.
End OneStream.
