(* ===== verification/Handler.v ===== *)
(** * Handling an HTTP request

    [HttpServer::handle_request] of main.cpp, as a worker thread runs it: the head of the
    request, the filter chain over headers and body, and the response, through the
    connection it shares with the event loop. *)

From S2P Require Export Filters ConnectionIO.

Open Scope Z_scope.

Definition BODY_CHUNK_SIZE : Z := 524288.

(** What the event loop does to the body while the worker waits for it. *)
Inductive loop_feed := FeedData (data : list Z) (eof : bool) | FeedFailure.

Definition apply_feed (c : ConnectionIO) (f : loop_feed) : ConnectionIO :=
  match f with FeedData data eof => feedBody data eof c | FeedFailure => feedError c end.

Definition apply_feeds (fs : list loop_feed) (c : ConnectionIO) : ConnectionIO := foldl apply_feed c fs.

(** How a worker leaves its connection: [finish], [setError], or still waiting for more of
    the body than the event loop has given. *)
Inductive conn_end := Finished | Errored | Waiting.

(** ** What is written *)

(** [write_chunked]; the fuel is one more than the number of full chunks. *)
Fixpoint write_chunks (fuel : nat) (offset : Z) (data : list Z) (s : HttpResponseSink) : HttpResponseSink :=
  match fuel with
  | O => s
  | S fuel =>
      if offset <? zlen data then
        let chunk := Z.min (zlen data - offset) BODY_CHUNK_SIZE in
        write_chunks fuel (offset + chunk) data (push_write (slice offset chunk data) s)
      else s
  end.

Definition write_chunked (data : list Z) (s : HttpResponseSink) : HttpResponseSink :=
  write_chunks (S (Z.to_nat (zlen data / BODY_CHUNK_SIZE))) 0 data s.

#[global] Arguments write_chunked : simpl never.

Definition content_length_header (body : list Z) : list Z * list Z := (str "Content-Length", dec (zlen body)).

(** The headers a module may not set on a local response. *)
Definition kept_local_header (h : list Z * list Z) : bool :=
  negb (header_name_eq h.1 (str "Content-Length") || header_name_eq h.1 (str "Content-Type")
        || header_name_eq h.1 (str "Connection")).

Definition local_headers (d : HttpData) : HeaderPairs :=
  [(str "Content-Type", str "text/plain"); (str "X-Powered-By", str "lswasm/proxy-wasm"); (str "Connection", str "close")]
  ++ filter (fun h => kept_local_header h = true) (local_response_additional_headers d)
  ++ [content_length_header (local_response_body d)].

Definition build_local_response (d : HttpData) : list Z :=
  serialize_headers (local_response_code d) (local_headers d) ++ local_response_body d.

(** [runtime_line] is the line the build configuration selects; [modules] are the loaded
    modules, if there is a module manager. *)
Definition build_response_body (runtime_line : list Z) (modules : option (list name)) (d : HttpData) : list Z :=
  let nl := [10] in
  let line s := str s ++ nl in
  line "=== WASM HTTP Proxy Server ===" ++ nl ++ line "Request Information:" ++
  str "  Method: " ++ hd_method d ++ nl ++ str "  Path: " ++ hd_path d ++ nl ++
  str "  Version: " ++ hd_version d ++ nl ++ nl ++
  line "Runtime Information:" ++ runtime_line ++ nl ++ line "Filter Status:" ++
  match modules with
  | None => []
  | Some [] => line "  • No filters loaded"
  | Some modules => line "  Loaded filters:" ++ mjoin ((fun m => str "    - " ++ m ++ nl) <$> modules)
  end ++
  nl ++ line "Proxy-WASM Support:" ++ line "  • RootContext lifecycle callbacks" ++
  line "  • HTTP filter callbacks (onRequest*, onResponse*)" ++
  line "  • Response header manipulation from WASM modules" ++ line "  • Connection events" ++
  line "  • Metadata and data processing" ++ line "  • Status/error codes" ++ nl ++
  line "Submodules:" ++ line "  • proxy-wasm-cpp-host" ++ line "  • proxy-wasm-cpp-sdk" ++ line "  • proxy-wasm-spec".

(** ** The request *)

Section Handler.
Context {W : Type} (open_scope : name -> W -> option ContextBase * W) (callback : name -> phase -> W -> prog W).
(** The loaded modules, [g_body_pacifier], and the line of the build configuration. *)
Context (loaded : option (list name)) (g_body_pacifier : bool) (runtime_line : list Z).

Abbreviation chain := (Filters.chain HttpResponseSink W).

Definition respond_local (f : chain) : conn_end * chain :=
  (Finished, set_sink (write_chunked (build_local_response (http_data f)) (sink f)) f).

Definition end_streaming (f : chain) : conn_end * chain :=
  (if chain_isStreamingFinished f then Finished else Errored, f).

(** The loop over the body: [feeds] is what the event loop does before each read. *)
Fixpoint body_loop (feeds : list (list loop_feed)) (content_length body_consumed : Z) (c : ConnectionIO) (f : chain)
    : option (option conn_end * chain) :=
  if (body_consumed <? content_length) && negb (has_local_response (http_data f)) then
    match feeds with
    | [] => Some (Some Waiting, f)
    | fs :: feeds =>
        let want := Z.min (content_length - body_consumed) BODY_CHUNK_SIZE in
        match readBodyChunk want (apply_feeds fs c) with
        | None => Some (Some Waiting, f)
        | Some (r, c) =>
            match rr_status r, rr_data r with
            | Error, _ | Truncated, _ | _, [] => Some (Some Errored, f)
            | _, data =>
                let body_consumed := body_consumed + zlen data in
                f ← onRequestBody callback (content_length <=? body_consumed) (assign_request_body data f);
                body_loop feeds content_length body_consumed c f
            end
        end
    end
  else Some (None, f).

(** The body phase; an answer is an early return. *)
Definition stream_body (feeds : list (list loop_feed)) (c : ConnectionIO) (f : chain) : option (option conn_end * chain) :=
  let content_length := content_length_ c in
  if 0 <? content_length then
    let prefix := body_prefix_ c in
    f ← (match prefix with
         | [] => Some f
         | _ => onRequestBody callback (content_length <=? zlen prefix) (assign_request_body prefix f)
         end);
    body_loop feeds content_length (zlen prefix) c f
  else Some (None, f).

Definition default_response (f : chain) : chain :=
  let body := if g_body_pacifier then build_response_body runtime_line loaded (http_data f) else [] in
  set_data (set_response_headers [(str "Content-Type", str "text/plain"); (str "Connection", str "close")]
              (set_response_body body (http_data f))) f.

(** The response as the chain has left it, with its length. *)
Definition send_response (f : chain) : conn_end * chain :=
  let d := http_data f in
  let hdrs := without (str "Content-Length") (response_headers d) ++ [content_length_header (response_body d)] in
  let f := set_data (set_response_headers hdrs d) f in
  (Finished, set_sink (write_chunked (response_body d) (push_write (serialize_headers 200 hdrs) (sink f))) f).

Definition response_phases (f : chain) : option (conn_end * chain) :=
  f ← onResponseHeaders callback (default_response f);
  f ← onResponseBody callback f;
  f ← onResponseTrailers callback f;
  Some (if has_local_response (http_data f) then
          if chain_hasStreamingResponse f then (Errored, f) else respond_local f
        else if chain_hasStreamingResponse f then end_streaming f
        else send_response f).

(** Behind the headers phase. *)
Definition request_phases (feeds : list (list loop_feed)) (c : ConnectionIO) (f : chain) : option (conn_end * chain) :=
  '(r, f) ← stream_body feeds c f;
  match r with
  | Some e => Some (e, f)
  | None =>
      f ← (if has_local_response (http_data f) then Some f else onRequestTrailers callback f);
      if has_local_response (http_data f) then Some (respond_local f)
      else if chain_hasStreamingResponse f then Some (end_streaming f)
      else response_phases f
  end.

(** Up to the end of [handle_request], where the destructors follow; the chain is missing
    if the head of the request could not be parsed.  The outer [None] is undefined
    behaviour. *)
Definition handle_request (feeds : list (list loop_feed)) (c : ConnectionIO) (w : W) : option (conn_end * option chain) :=
  match parse_request (header_data_ c) with
  | None => Some (Errored, None)
  | Some d =>
      f ← onRequestHeaders open_scope callback loaded (negb (0 <? content_length_ c)) (new_chain d new_HttpResponseSink w);
      '(e, f) ← (if has_local_response (http_data f) then Some (respond_local f) else request_phases feeds c f);
      Some (e, Some f)
  end.
End Handler.
