(* ===== verification/HandlerSpec.v ===== *)
(** * What handling an HTTP request promises

    The worker comes to an end whatever the modules do; the response it writes is one
    message with the headers that were asked for and the length it announces, or the stream
    the module sent; its answer is the first one given; every
    module sees the whole body, and the callbacks of a stream in their order, each once. *)

From S2P Require Export Handler ChainSpec.
From S2P Require Import HttpUtilsSpec.

Open Scope Z_scope.

Section HandlerSpec.
Context {W : Type} (open_scope : name -> W -> option ContextBase * W) (callback : name -> phase -> W -> prog W).
Context (loaded : option (list name)) (g_body_pacifier : bool) (runtime_line : list Z).
Context (callback_good : forall m ph w, good_prog (callback m ph w)) (loaded_names : match loaded with Some ms => NoDup ms | None => True end).

Abbreviation chain := (Filters.chain HttpResponseSink W).

(** ** The invariant over HTTP *)

(** As long as no context streams, nothing has been written. *)
Abbreviation nothing_written := (fun s => written s = []).
Abbreviation http_ok := (run_ok nothing_written).

#[local] Lemma callback_total live m ph w c (s : HttpResponseSink) : fresh_view live c -> is_Some (run_prog live (callback m ph w) c s).
Proof using callback_good. intros F. by apply http_prog_total. Qed.
#[local] Lemma callback_idle live m ph w c (s : HttpResponseSink) w' c' s' : run_prog live (callback m ph w) c s = Some (w', (c', s')) ->
  stream_state c' = Idle -> nothing_written s -> nothing_written s'.
Proof. intros R I E. cbn. by rewrite (http_prog_idle _ _ _ _ _ _ _ R I). Qed.

(** ** The worker comes to an end *)

Abbreviation stream_body := (Handler.stream_body callback).
Abbreviation request_phases := (Handler.request_phases callback loaded g_body_pacifier runtime_line).
Abbreviation handle_request := (Handler.handle_request open_scope callback loaded g_body_pacifier runtime_line).

Lemma http_body_loop content_length : forall feeds consumed c f, http_ok f -> fresh_or_answered f ->
  exists r f', body_loop callback feeds content_length consumed c f = Some (r, f') /\ http_ok f' /\ fresh_or_answered f' /\ r <> Some Finished.
Proof using callback_good.
  induction feeds as [|fs feeds IH]; intros consumed c f Hok Hf; cbn [body_loop]; destruct (_ && _) eqn:G; try (by eauto 10).
  destruct (readBodyChunk _ _) as [[r c1]|]; [|by eauto 10].
  assert (exists r' f', Some (Some Errored, f) = Some (r', f') /\ http_ok f' /\ fresh_or_answered f' /\ r' <> Some Finished) as Err by eauto 10.
  destruct (run_body_piece nothing_written callback_total callback_idle (content_length <=? consumed + zlen (rr_data r)) (rr_data r) f Hok) as (f1 & E1 & H1 & F1).
  destruct (rr_status r); [| |exact Err..]; (destruct (rr_data r) as [|x l] eqn:Ed; [exact Err|]); rewrite E1; cbn [mbind option_bind]; by apply IH.
Qed.

Lemma http_stream_body feeds c f : http_ok f -> fresh_views f ->
  exists r f', stream_body feeds c f = Some (r, f') /\ http_ok f' /\ fresh_or_answered f' /\ r <> Some Finished.
Proof using callback_good.
  intros Hok Hf. unfold Handler.stream_body. assert (fresh_or_answered f) as Hf' by by intros _.
  destruct (0 <? content_length_ c); [|by eauto 10].
  destruct (body_prefix_ c) as [|x l] eqn:Ep; cbn [mbind option_bind]; [by apply http_body_loop|].
  destruct (run_body_piece nothing_written callback_total callback_idle (content_length_ c <=? zlen (x :: l)) (x :: l) f Hok) as (f1 & -> & H1 & F1).
  cbn [mbind option_bind]. by apply http_body_loop.
Qed.

(** How the handler ends, from the chain [g] it has then. *)
Inductive outcome : conn_end -> chain -> chain -> Prop :=
| OutLocal g : has_local_response (http_data g) = true -> outcome Finished (respond_local g).2 g
| OutStream g : has_local_response (http_data g) = false -> chain_hasStreamingResponse g = true -> outcome (end_streaming g).1 g g
| OutDefault g : has_local_response (http_data g) = false -> chain_hasStreamingResponse g = false -> outcome Finished (send_response g).2 g
| OutFailure e g : e <> Finished -> outcome e g g.

Definition ends (r : option (conn_end * chain)) : Prop := exists e f g, r = Some (e, f) /\ http_ok g /\ outcome e f g.

Lemma http_response_phases f : http_ok f -> fresh_views f -> ends (response_phases callback loaded g_body_pacifier runtime_line f).
Proof using callback_good.
  intros Hok Hf. unfold response_phases. set (f0 := default_response _ _ _ f).
  destruct (run_responses nothing_written callback_total callback_idle f0) as (f1 & f2 & f3 & E1 & E2 & E3 & H3); [by apply (run_ok_same _ f)|done|].
  rewrite E1; cbn [mbind option_bind]. rewrite E2; cbn [mbind option_bind]. rewrite E3; cbn [mbind option_bind].
  destruct (has_local_response (http_data f3)) eqn:L, (chain_hasStreamingResponse f3) eqn:St.
  - exists Errored, f3, f3. split; [done|]. split; [done|]. by apply OutFailure.
  - eexists _, _, f3. split; [done|]. split; [done|]. by apply OutLocal.
  - eexists _, _, f3. split; [done|]. split; [done|]. by apply OutStream.
  - eexists _, _, f3. split; [done|]. split; [done|]. by apply OutDefault.
Qed.

Lemma http_request_phases feeds c f : http_ok f -> fresh_views f -> ends (request_phases feeds c f).
Proof.
  intros Hok Hf. unfold Handler.request_phases. destruct (http_stream_body feeds c f Hok Hf) as (r & f1 & -> & H1 & F1 & Hr).
  cbn [mbind option_bind]. destruct r as [e|].
  { exists e, f1, f1. split; [done|]. split; [done|]. apply OutFailure. congruence. }
  destruct (has_local_response (http_data f1)) eqn:L; cbn [mbind option_bind].
  { rewrite L. eexists _, _, f1. split; [done|]. split; [done|]. by apply OutLocal. }
  destruct (run_trailers nothing_written callback_total callback_idle f1) as (f2 & -> & H2 & F2); [done|by apply F1|]. cbn [mbind option_bind]. destruct (has_local_response (http_data f2)) eqn:L2.
  { eexists _, _, f2. split; [done|]. split; [done|]. by apply OutLocal. }
  destruct (chain_hasStreamingResponse f2) eqn:St; [|by apply http_response_phases].
  eexists _, _, f2. split; [done|]. split; [done|]. by apply OutStream.
Qed.

Lemma handle_request_ends feeds c w : exists e r, handle_request feeds c w = Some (e, r) /\
  match r with None => e = Errored | Some f => exists g, http_ok g /\ outcome e f g end.
Proof.
  unfold Handler.handle_request. destruct (parse_request (header_data_ c)) as [d|] eqn:P; [|by exists Errored, None].
  assert (has_local_response d = false) as L.
  { unfold parse_request in P. destruct (token _) as [a l]. destruct (token l) as [b l1]. destruct (token l1) as [v l2].
    destruct (_ || _); [done|]. by injection P as <-. }
  destruct (run_request_headers (open_scope := open_scope) nothing_written callback_total callback_idle loaded (negb (0 <? content_length_ c)) d new_HttpResponseSink w L loaded_names eq_refl)
    as (f & -> & Hok & Hf). cbn [mbind option_bind].
  destruct (has_local_response (http_data f)) eqn:Lf.
  - eexists _, _. split; [done|]. exists f. split; [done|]. by apply OutLocal.
  - destruct (http_request_phases feeds c f Hok Hf) as (e & f1 & g & -> & Hg & O). cbn [mbind option_bind].
    exists e, (Some f1). split; [done|]. by exists g.
Qed.

(** A callback that does not ask for the request body. *)
Fixpoint leaves_body (p : prog W) : Prop :=
  match p with
  | Ret _ => True
  | Do call k => match call with GetBuffer HttpRequestBody => False | _ => True end /\ forall a, leaves_body (k a)
  end.

Lemma leaves_body_total live (p : prog W) : good_prog p -> leaves_body p -> forall c (s : HttpResponseSink), is_Some (run_prog live p c s).
Proof.
  induction p as [w|call k IH]; intros G L c s; cbn; [eauto|]. destruct G as [G1 G2], L as [L1 L2].
  assert (is_Some (host_step live call c s)) as [[a [c1 s1]] E]; [|rewrite E; cbn; by apply IH].
  destruct call; cbn [host_step]; eauto.
  - assert (is_Some (getBuffer live type c)) as [b ->]; [|cbn; eauto]. destruct type; cbn; eauto. done.
  - unfold foreign_on. destruct (http_foreign_total call (mkStream (if sink_set c then Some s else None) (stream_state c)) G1) as [[r x] ->].
    cbn. eauto.
Qed.

Lemma destroy_total (f : chain) : (forall m w, leaves_body (callback m OnDone w) /\ leaves_body (callback m OnDelete w)) ->
  is_Some (destroy callback f).
Proof using callback_good.
  intros Hq. unfold destroy.
  assert (forall scopes (f : chain), is_Some (destroy_scopes callback scopes f)) as X.
  { induction scopes as [|[m [c|]] scopes IH]; intros g; cbn [destroy_scopes]; [by exists g| |by apply IH].
    destruct (leaves_body_total (body_gen g) (callback m OnDone (vms g)) (callback_good _ _ _) (proj1 (Hq _ _)) c (sink g)) as [[w1 [c1 s1]] R1].
    rewrite (run_callback_eq _ _ _ _ _ _ _ _ R1). cbn [mbind option_bind]. set (g1 := called m OnDone c s1 w1 g).
    destruct (leaves_body_total (body_gen g1) (callback m OnDelete (vms g1)) (callback_good _ _ _) (proj2 (Hq _ _)) c1 (sink g1)) as [[w2 [c2 s2]] R2].
    rewrite (run_callback_eq _ _ _ _ _ _ _ _ R2). cbn [mbind option_bind]. apply IH. }
  destruct (X (reverse (scopes_ f)) f) as (f' & ->). cbn. by eexists.
Qed.

(** C22. A worker always comes to an end with a request.  Whatever the modules call in their
    callbacks, whatever they answer, and whatever the event loop feeds: the handler
    finishes the connection, marks it as failed, or waits for the event loop; up to there
    no module reads a request body that is gone.  The destruction of the filter context
    behind it comes to an end too when the modules do not ask for the request body in
    [onDone] and [onDelete]; when they do, it need not ([body_view_dangles_in_onDone]). *)
Theorem handle_request_returns (feeds : list (list loop_feed)) (c : ConnectionIO) (w : W) :
  exists e r, handle_request feeds c w = Some (e, r) /\
    ((forall m w, leaves_body (callback m OnDone w) /\ leaves_body (callback m OnDelete w)) ->
     match r with Some f => is_Some (destroy callback f) | None => True end).
Proof.
  destruct (handle_request_ends feeds c w) as (e & r & E & _). exists e, r. split; [exact E|].
  intros Q. destruct r as [f|]; [|done]. by apply destroy_total.
Qed.

(** ** What is written *)

Lemma write_chunks_data fuel : forall offset data s, 0 <= offset -> zlen data - offset <= Z.of_nat fuel * BODY_CHUNK_SIZE ->
  mjoin (written (write_chunks fuel offset data s)) = mjoin (written s) ++ drop (Z.to_nat offset) data.
Proof.
  unfold BODY_CHUNK_SIZE. induction fuel as [|fuel IH]; intros offset data s H0 Hf; cbn [write_chunks].
  { rewrite drop_ge by (unfold zlen in *; lia). by rewrite app_nil_r. }
  destruct (Z.ltb_spec offset (zlen data)) as [L|L]; [|rewrite drop_ge by (unfold zlen in *; lia); by rewrite app_nil_r].
  set (n := Z.min _ _). assert (0 <= n) by (unfold n, BODY_CHUNK_SIZE; lia).
  rewrite IH; [|lia|unfold n, BODY_CHUNK_SIZE; lia]. cbn. rewrite join_app. cbn. rewrite app_nil_r, <- app_assoc. f_equal. unfold slice.
  replace (Z.to_nat (offset + n)) with (Z.to_nat offset + Z.to_nat n)%nat by lia. by rewrite <- drop_drop, take_drop.
Qed.

Lemma write_chunked_data data s : mjoin (written (write_chunked data s)) = mjoin (written s) ++ data.
Proof.
  unfold write_chunked. rewrite write_chunks_data; [by rewrite drop_0|lia|]. unfold BODY_CHUNK_SIZE.
  pose proof (zlen_nonneg data). pose proof (Z.mod_pos_bound (zlen data) 524288). pose proof (Z.div_mod (zlen data) 524288).
  pose proof (Z.div_pos (zlen data) 524288). lia.
Qed.

Lemma outcome_chain e f g : http_ok g -> outcome e f g ->
  same_chain g f /\ (has_local_response (http_data f) = false -> chain_hasStreamingResponse f = false -> e = Finished -> f = (send_response g).2).
Proof.
  intros Hg O. destruct O as [g L|g L St|g L St|e g N].
  - split; [by repeat split|]. intros L'. cbn in L'. congruence.
  - split; [by repeat split|]. intros _ St'. congruence.
  - split; [by repeat split|done].
  - split; [by repeat split|]. done.
Qed.

Lemma outcome_streaming f g : outcome Finished f g -> has_local_response (http_data f) = false -> chain_hasStreamingResponse f = true ->
  f = g /\ chain_isStreamingFinished f = true.
Proof.
  intros O. remember Finished as e eqn:Ee. revert Ee. destruct O as [g0 L'|g0 L' St'|g0 L' St'|e0 g0 N]; intros Ee L St; [cbn in L; congruence| | |done].
  - split; [done|]. unfold end_streaming in Ee. cbn in Ee. by destruct (chain_isStreamingFinished g0).
  - destruct (eq_true_false_abs _ St St').
Qed.

Lemma local_content_length d : values (str "Content-Length") (local_headers d) = [dec (zlen (local_response_body d))].
Proof.
  unfold local_headers. rewrite !values_app. unfold content_length_header. rewrite values_one, header_name_eq_refl.
  change (values (str "Content-Length") [(str "Content-Type", str "text/plain"); (str "X-Powered-By", str "lswasm/proxy-wasm"); (str "Connection", str "close")])
    with (@nil (list Z)). cbn [app].
  enough (values (str "Content-Length") (filter (fun h => kept_local_header h = true) (local_response_additional_headers d)) = []) as -> by done.
  induction (local_response_additional_headers d) as [|p l IH]; [done|]. rewrite filter_cons.
  destruct (decide (kept_local_header p = true)) as [K|K]; [|done]. change (p :: filter _ l) with ([p] ++ filter (fun h => kept_local_header h = true) l).
  rewrite values_app, IH. destruct p as [k v]. rewrite values_one, app_nil_r. unfold kept_local_header in K. cbn [fst] in K.
  destruct (header_name_eq k (str "Content-Length")); [done|done].
Qed.

(** A reader of a message: the lines up to the first empty one, each ended by a line feed
    with or without a carriage return before it, and what follows. *)
Fixpoint read_head (fuel : nat) (l : list Z) : option (list (list Z) * list Z) :=
  match fuel with
  | O => None
  | S fuel =>
      match span (fun c => negb (c =? 10)) l with
      | (_, []) => None
      | (line, _ :: l) =>
          match strip_cr line with
          | [] => Some ([], l)
          | line => ('(lines, rest) ← read_head fuel l; Some (line :: lines, rest))
          end
      end
  end.
Definition read_message (l : list Z) : option (list (list Z) * list Z) := read_head (length l) l.

Definition status_text (status : Z) : list Z := str "HTTP/1.1 " ++ dec status ++ str " " ++ str (reason_phrase status).
Definition header_text (h : list Z * list Z) : list Z := h.1 ++ str ": " ++ h.2.
(** A header without a line break. *)
Definition one_line (h : list Z * list Z) : Prop := (10 ∉ h.1) /\ (10 ∉ h.2).

Lemma read_head_line fuel line l : line <> [] -> 10 ∉ line ->
  read_head (S fuel) (line ++ crlf ++ l) = ('(lines, rest) ← read_head fuel l; Some (line :: lines, rest)).
Proof.
  intros N H. cbn [read_head]. replace (line ++ crlf ++ l) with ((line ++ [13]) ++ 10 :: l) by (rewrite <- app_assoc; reflexivity).
  rewrite span_app; [|apply not_elem_Forall; rewrite elem_of_app; intros [X|X%list_elem_of_singleton]; [done|lia]|reflexivity].
  rewrite strip_cr_snoc. by destruct line.
Qed.

Lemma read_head_lines ls : forall fuel body, (length ls < fuel)%nat -> Forall (fun l => l <> [] /\ 10 ∉ l) ls ->
  read_head fuel (mjoin ((fun l => l ++ crlf) <$> ls) ++ crlf ++ body) = Some (ls, body).
Proof.
  induction ls as [|l ls IH]; intros [|fuel] body Hf F; try (cbn in Hf; lia); [reflexivity|].
  apply Forall_cons in F as [[N H] F]. rewrite fmap_cons, mjoin_cons, <- !app_assoc, read_head_line by done.
  rewrite IH by (cbn in Hf; done || lia). done.
Qed.

Lemma reason_one_line n : 10 ∉ str (reason_phrase n).
Proof. unfold reason_phrase. repeat case_match; apply (bool_decide_unpack _); vm_compute; exact I. Qed.

Lemma serialize_read status headers body : 0 <= status -> Forall one_line headers ->
  read_message (serialize_headers status headers ++ body) = Some (status_text status :: (header_text <$> headers), body).
Proof.
  intros Hs F. unfold read_message. set (ls := status_text status :: (header_text <$> headers)).
  assert (serialize_headers status headers ++ body = mjoin ((fun l => l ++ crlf) <$> ls) ++ crlf ++ body) as ->.
  { unfold serialize_headers. assert ((fun l => l ++ crlf) <$> (header_text <$> headers) = header_line <$> headers) as <-.
    { rewrite <- list_fmap_compose. apply list_fmap_ext. intros i h _. unfold header_line, header_text. cbn. by rewrite <- !app_assoc. }
    unfold ls, status_text. rewrite fmap_cons, mjoin_cons. by rewrite <- !app_assoc. }
  apply read_head_lines.
  - clearbody ls. rewrite !length_app. change (length crlf) with 2%nat. enough ((length ls <= length (mjoin ((fun l => l ++ crlf) <$> ls)))%nat) by lia.
    clear. induction ls as [|l ls IH]; [done|]. rewrite fmap_cons, mjoin_cons, !length_app. cbn. lia.
  - constructor.
    + split; [done|]. unfold status_text. rewrite !elem_of_app. intros [X|[X|[X|X]]].
      * revert X. apply (bool_decide_unpack _). vm_compute. exact I.
      * pose proof (to_base_chars 10 20 status ltac:(lia) Hs) as D. rewrite Forall_forall in D. apply D in X. lia.
      * apply list_elem_of_singleton in X. discriminate X.
      * by apply reason_one_line in X.
    + apply Forall_fmap. eapply Forall_impl; [exact F|]. intros h [H1 H2]. cbn. unfold header_text. split.
      * intros X. apply app_nil in X as [_ X]. discriminate X.
      * rewrite !elem_of_app. intros [X|[X|X]]; [done| |done]. revert X. apply (bool_decide_unpack _). vm_compute. exact I.
Qed.

(** The header list of a local response: the host's own, then those the module gave but
    for [Content-Type], [Connection] and [Content-Length], then the length. *)
Definition local_response_headers (given : HeaderPairs) (length : Z) : HeaderPairs :=
  [(str "Content-Type", str "text/plain"); (str "X-Powered-By", str "lswasm/proxy-wasm"); (str "Connection", str "close")] ++
  without (str "Connection") (without (str "Content-Type") (without (str "Content-Length") given)) ++
  [(str "Content-Length", dec length)].

Lemma local_headers_spec d : local_headers d = local_response_headers (local_response_additional_headers d) (zlen (local_response_body d)).
Proof.
  unfold local_headers, local_response_headers. do 4 f_equal. unfold without. rewrite !list_filter_filter.
  apply list_filter_iff. intros [k v]. unfold kept_local_header. cbn [fst].
  destruct (header_name_eq k (str "Content-Length")), (header_name_eq k (str "Content-Type")), (header_name_eq k (str "Connection"));
    split; first [intros X; discriminate X|intros [[X1 X2] X3]; first [discriminate X1|discriminate X2|discriminate X3]|by repeat split].
Qed.

(** C7. The response is one message of the length it announces.  When the worker finishes a
    connection on which no module has streamed, the bytes it wrote are one head and one
    body, those of the local response a module has given, if one has: its code and body,
    and exactly the host's own headers with the module's but for the three it may not set;
    and otherwise status 200 with the headers and the body of the response.  The header
    list has exactly one [Content-Length], the length of the body, whatever headers the
    modules have set.  And when no header of the list contains a line feed (the code does
    not refuse one), a reader finds on the wire the status line, exactly these headers and
    the body. *)
Theorem response_framed (feeds : list (list loop_feed)) (c : ConnectionIO) (w : W) (f : chain) :
  handle_request feeds c w = Some (Finished, Some f) -> chain_hasStreamingResponse f = false ->
  exists headers body status,
    mjoin (written (sink f)) = serialize_headers status headers ++ body /\
    values (str "Content-Length") headers = [dec (zlen body)] /\
    (if has_local_response (http_data f)
     then status = local_response_code (http_data f) /\ body = local_response_body (http_data f) /\
          headers = local_response_headers (local_response_additional_headers (http_data f)) (zlen body)
     else status = 200 /\ body = response_body (http_data f) /\ headers = response_headers (http_data f)) /\
    (0 <= status -> Forall one_line headers ->
     read_message (mjoin (written (sink f))) = Some (status_text status :: (header_text <$> headers), body)).
Proof.
  intros E St. destruct (handle_request_ends feeds c w) as (e & r & E' & X). rewrite E in E'. injection E' as <- <-.
  destruct X as (g & Hg & O). assert (same_chain g f) as Sf by (by apply (outcome_chain Finished)).
  assert (written (sink g) = []) as Wg.
  { apply Hg. intros m c0. destruct Sf as (<- & _). by apply no_streaming_idle. }
  inversion O as [g' L|g' L St' Ee|g' L St'|e' g' N]; subst.
  - exists (local_headers (http_data g)), (local_response_body (http_data g)), (local_response_code (http_data g)).
    cbn. rewrite L, write_chunked_data, Wg. split; [done|]. split; [apply local_content_length|].
    split; [|by apply serialize_read]. split; [done|]. split; [done|]. apply local_headers_spec.
  - congruence.
  - set (hdrs := without (str "Content-Length") (response_headers (http_data g)) ++ [content_length_header (response_body (http_data g))]).
    exists hdrs, (response_body (http_data g)), 200. unfold send_response. cbn. rewrite L, write_chunked_data. cbn. rewrite Wg. cbn. rewrite app_nil_r.
    split; [done|]. split; [|split; [done|by apply serialize_read]]. unfold hdrs, content_length_header.
    by rewrite values_app, values_without, values_one, header_name_eq_refl.
  - done.
Qed.

(** ** The run of the phases behind the body *)

(** Between the phases the handler leaves the sink alone. *)
Abbreviation advance := (ChainSpec.advance (Sk := HttpResponseSink) callback eq).
Abbreviation body_run := (ChainSpec.body_run (Sk := HttpResponseSink) callback eq).

Lemma response_phases_run f e f' : response_phases callback loaded g_body_pacifier runtime_line f = Some (e, f') ->
  exists k g, advance 1 f k g /\ outcome e f' g.
Proof.
  unfold response_phases, onResponseHeaders, onResponseBody, onResponseTrailers. set (f0 := default_response _ _ _ f). intros E.
  destruct (phase_loop _ (module_order_ f0) _ _ _ f0) as [f1|] eqn:E1; [|done]. cbn [mbind option_bind] in E.
  destruct (phase_loop _ (module_order_ f1) _ _ _ f1) as [f2|] eqn:E2; [|done]. cbn [mbind option_bind] in E.
  destruct (phase_loop _ (module_order_ f2) _ _ _ f2) as [f3|] eqn:E3; [|done]. cbn [mbind option_bind] in E.
  exists 4%nat, f3. split.
  - apply (AdvHost _ _ f0); [by repeat split|]. eapply AdvPhase; [| | |exact E1|]; [done..|].
    eapply AdvPhase; [| | |exact E2|]; [done..|]. eapply AdvPhase; [| | |exact E3|]; [done..|]. constructor.
  - destruct (has_local_response (http_data f3)) eqn:L, (chain_hasStreamingResponse f3) eqn:St; injection E as <- <-;
      [by apply OutFailure|by apply OutLocal|by apply (OutStream f3)|by apply OutDefault].
Qed.

Definition feed_data (f : loop_feed) : list Z := match f with FeedData data _ => data | FeedFailure => [] end.
Definition fed_data (fs : list loop_feed) : list Z := mjoin (feed_data <$> fs).

Lemma apply_feeds_chunk fs : forall c, read_chunk_ (apply_feeds fs c) = read_chunk_ c ++ fed_data fs.
Proof.
  induction fs as [|[data eof|] fs IH]; intros c; cbn.
  - by rewrite app_nil_r.
  - unfold apply_feeds in IH. rewrite IH. unfold fed_data. cbn. rewrite app_assoc. f_equal. unfold feedBody. by destruct data, eof; cbn; rewrite ?app_nil_r.
  - unfold apply_feeds in IH. by rewrite IH.
Qed.

Lemma readBodyChunk_size n c r c' : readBodyChunk n c = Some (r, c') -> 0 <= n -> zlen (rr_data r) <= n.
Proof.
  intros E Hn. unfold readBodyChunk in E. destruct (negb _); [done|].
  assert (zlen (rr_data (take_chunk n c).1) <= n) as T.
  { unfold take_chunk. cbn. destruct (Z.leb_spec (zlen (read_chunk_ c)) n); [done|]. rewrite zlen_take by lia. lia. }
  destruct (read_chunk_ c), (empty_status c); injection E as <- <-; done.
Qed.

(** What the loop over the body shows the modules: pieces of what there is to read; all of
    the body when it is not left early. *)
Definition loop_post (feeds : list (list loop_feed)) (content_length consumed : Z) (c : ConnectionIO) (f : chain)
    (r : option conn_end) (f' : chain) : Prop :=
  exists ds, body_run f (marks content_length consumed ds) f' /\ r <> Some Finished /\ Forall (fun d => d <> []) ds /\
    mjoin ds `prefix_of` read_chunk_ c ++ mjoin (fed_data <$> feeds) /\
    (r = None -> has_local_response (http_data f') = false -> consumed <= content_length -> consumed + zlen (mjoin ds) = content_length) /\
    (consumed <= content_length -> consumed + zlen (mjoin ds) <= content_length).

Lemma loop_stop feeds content_length consumed c f r : r <> Some Finished ->
  (r = None -> has_local_response (http_data f) = false -> content_length <= consumed) ->
  loop_post feeds content_length consumed c f r f.
Proof.
  intros N Hr. exists []. split; [by constructor|]. change (mjoin []) with (@nil Z). rewrite (zlen_nil (A:=Z)).
  repeat split; try done; [apply prefix_nil| |lia]. intros -> L Hc. specialize (Hr eq_refl L). lia.
Qed.

Lemma body_loop_run content_length : forall feeds consumed c f r f',
  body_loop callback feeds content_length consumed c f = Some (r, f') -> loop_post feeds content_length consumed c f r f'.
Proof.
  induction feeds as [|fs feeds IH]; intros consumed c f r f' E; cbn [body_loop] in E;
    (destruct ((consumed <? content_length) && negb (has_local_response (http_data f))) eqn:G;
     [|injection E as <- <-; apply loop_stop; [done|]; intros _ L; rewrite L, andb_true_r in G; by apply Z.ltb_ge in G]).
  { injection E as <- <-. by apply loop_stop. }
  apply andb_prop in G as [G%Z.ltb_lt _]. set (want := Z.min (content_length - consumed) BODY_CHUNK_SIZE) in E.
  destruct (readBodyChunk want (apply_feeds fs c)) as [[rd c1]|] eqn:R; [|injection E as <- <-; by apply loop_stop].
  assert (zlen (rr_data rd) <= want) as Hw by (apply (readBodyChunk_size _ _ _ _ R); unfold want, BODY_CHUNK_SIZE; lia).
  apply readBodyChunk_data in R as (R & _ & _). rewrite apply_feeds_chunk in R.
  assert ((r, f') = (Some Errored, f) \/ rr_data rd <> [] /\ exists f1,
    onRequestBody callback (content_length <=? consumed + zlen (rr_data rd)) (assign_request_body (rr_data rd) f) = Some f1 /\
    body_loop callback feeds content_length (consumed + zlen (rr_data rd)) c1 f1 = Some (r, f')) as [[= -> ->]|(Hd & f1 & E1 & E2)];
    [|by apply loop_stop|].
  { destruct (rr_status rd); try (injection E as <- <-; by left); (destruct (rr_data rd) as [|x l]; [injection E as <- <-; by left|]); right; (split; [done|]);
      (destruct (onRequestBody _ _ _) as [f1|]; [|done]); by exists f1. }
  clear E. destruct (IH _ _ _ _ _ E2) as (ds & B & Nf & F & Pr & Z1 & Z2). exists (rr_data rd :: ds). cbn [marks].
  split; [by eapply BodyCons; [|exact E1|exact B]|]. split; [done|]. split; [by constructor|]. rewrite mjoin_cons, zlen_app. unfold want in Hw. split; [|split].
  - cbn [fmap list_fmap]. rewrite mjoin_cons, app_assoc, <- R, <- app_assoc. by apply prefix_app.
  - intros -> L Hc. specialize (Z1 eq_refl L). lia.
  - intros Hc. lia.
Qed.

Lemma stream_body_run feeds c f r f' : stream_body feeds c f = Some (r, f') ->
  exists ds, body_run f (marks (content_length_ c) 0 ds) f' /\ r <> Some Finished /\ Forall (fun d => d <> []) ds /\
    mjoin ds `prefix_of` body_prefix_ c ++ read_chunk_ c ++ mjoin (fed_data <$> feeds) /\
    (r = None -> has_local_response (http_data f') = false -> 0 <= content_length_ c -> zlen (body_prefix_ c) <= content_length_ c ->
     zlen (mjoin ds) = content_length_ c) /\
    (0 <= content_length_ c -> zlen (body_prefix_ c) <= content_length_ c -> zlen (mjoin ds) <= content_length_ c).
Proof.
  unfold Handler.stream_body. destruct (Z.ltb_spec 0 (content_length_ c)) as [H0|H0].
  2: { intros [= <- <-]. exists []. split; [by constructor|]. change (mjoin []) with (@nil Z). rewrite (zlen_nil (A:=Z)). repeat split; try done; [apply prefix_nil|lia]. }
  destruct (body_prefix_ c) as [|x l]; cbn [mbind option_bind].
  - intros (ds & B & N & F & Pr & Z1 & Z2)%body_loop_run. exists ds. repeat (split; [done|]). split; intros; [by apply Z1|by apply Z2].
  - destruct (onRequestBody _ _ _) as [f1|] eqn:Eb; [|done]. cbn [mbind option_bind]. intros (ds & B & N & F & Pr & Z1 & Z2)%body_loop_run.
    exists ((x :: l) :: ds). cbn [marks]. rewrite Z.add_0_l, mjoin_cons, zlen_app. split; [by eapply BodyCons; [|exact Eb|exact B]|].
    split; [done|]. split; [by constructor|]. split; [by apply prefix_app|]. split; intros; [by apply Z1|by apply Z2].
Qed.

Lemma request_phases_run feeds c f e f' : request_phases feeds c f = Some (e, f') ->
  exists r f1 k g, stream_body feeds c f = Some (r, f1) /\ advance 0 f1 k g /\ outcome e f' g /\
    (e = Finished -> r = None).
Proof.
  unfold Handler.request_phases. intros E. destruct (stream_body feeds c f) as [[r f1]|] eqn:E0; [|done]. cbn [mbind option_bind] in E.
  exists r, f1. destruct r as [e1|].
  { injection E as <- <-. exists 0%nat, f1. pose proof (stream_body_run _ _ _ _ _ E0) as (_ & _ & N & _). split; [done|]. split; [constructor|].
    split; [by apply OutFailure; congruence|]. by intros ->. }
  enough (exists k g, advance 0 f1 k g /\ outcome e f' g) as (k & g & ? & ?) by eauto 10.
  destruct (has_local_response (http_data f1)) eqn:L; cbn [mbind option_bind] in E.
  { rewrite L in E. injection E as <- <-. exists 0%nat, f1. split; [constructor|by apply (OutLocal f1)]. }
  destruct (onRequestTrailers callback f1) as [f2|] eqn:E2; [|done]. cbn [mbind option_bind] in E. unfold onRequestTrailers in E2.
  assert (forall k g, advance 1 f2 k g -> advance 0 f1 k g) as Adv.
  { intros k g. by eapply AdvPhase; [| | |exact E2]. }
  destruct (has_local_response (http_data f2)) eqn:L2.
  { injection E as <- <-. exists 1%nat, f2. split; [apply Adv; constructor|by apply (OutLocal f2)]. }
  destruct (chain_hasStreamingResponse f2) eqn:St.
  { injection E as <- <-. exists 1%nat, f2. split; [apply Adv; constructor|by apply (OutStream f2)]. }
  apply response_phases_run in E as (k & g & A & O). exists k, g. eauto.
Qed.

Lemma parsed_unanswered l d : parse_request l = Some d -> has_local_response d = false.
Proof.
  unfold parse_request. destruct (token _) as [a l0]. destruct (token l0) as [b l1]. destruct (token l1) as [v l2].
  destruct (_ || _); [done|]. by intros [= <-].
Qed.

Lemma handle_request_run feeds c w e f : handle_request feeds c w = Some (e, Some f) ->
  exists d f0, parse_request (header_data_ c) = Some d /\ has_local_response d = false /\
    onRequestHeaders open_scope callback loaded (negb (0 <? content_length_ c)) (new_chain d new_HttpResponseSink w) = Some f0 /\
    (if has_local_response (http_data f0) then outcome e f f0
     else exists r f1 k g, stream_body feeds c f0 = Some (r, f1) /\ advance 0 f1 k g /\ outcome e f g /\ (e = Finished -> r = None)).
Proof.
  unfold Handler.handle_request. intros E. destruct (parse_request (header_data_ c)) as [d|] eqn:P; [|done].
  exists d. destruct (onRequestHeaders _ _ _ _ _) as [f0|]; [|done]. cbn [mbind option_bind] in E. exists f0.
  split; [done|]. split; [by eapply parsed_unanswered|]. split; [done|]. destruct (has_local_response (http_data f0)) eqn:L.
  - injection E as <- <-. by apply (OutLocal f0).
  - destruct (request_phases feeds c f0) as [[e1 f1]|] eqn:R; [|done]. cbn [mbind option_bind] in E. injection E as <- <-.
    by apply request_phases_run.
Qed.

(** ** The stream of a module *)

Lemma outcome_same e f g : outcome e f g -> same_chain g f.
Proof. by destruct 1; repeat split. Qed.

Lemma handle_request_stage feeds c w e f : handle_request feeds c w = Some (e, Some f) ->
  chain_ok f /\ exists k, (k <= 4)%nat /\ at_stage (negb (0 <? content_length_ c)) k f.
Proof.
  intros E. apply handle_request_run in E as (d & f0 & _ & L & E & X). apply (stage_headers _ _ _ _ _ _ L loaded_names) in E as [H0 S0].
  destruct (has_local_response (http_data f0)) eqn:L0.
  - apply outcome_same in X. split; [by apply (chain_ok_same f0)|]. exists 0%nat. split; [lia|]. by apply (stage_same _ _ f0).
  - destruct X as (r & f1 & k & g & E1 & A & O & _). apply outcome_same in O.
    apply stream_body_run in E1 as (ds & B & _). destruct (stage_body_run _ _ _ _ B H0 S0) as [H1 S1]. destruct (stage_advance _ _ _ _ _ A H1 S1) as [H2 S2].
    split; [by apply (chain_ok_same g)|]. exists k. split; [|by apply (stage_same _ _ g)].
    eapply advance_rank; [exact A|lia].
Qed.

(** C11. The callbacks of a stream.  Whatever the modules do, and over the whole life of the
    filter context up to its destruction: a module of the chain is created, sees the
    request headers once, then pieces of the body, then a beginning of request trailers,
    response headers, response body, response trailers, each at most once and in this
    order, and is then done and deleted, once each; any other module is not called. *)
Theorem module_stream (feeds : list (list loop_feed)) (c : ConnectionIO) (w : W) (e : conn_end) (f f' : chain) (m : name) :
  handle_request feeds c w = Some (e, Some f) -> destroy callback f = Some f' ->
  if decide (m ∈ module_order_ f) then
    exists bodies rest,
      phases_of m (trace f') = [OnCreate; OnRequestHeaders (negb (0 <? content_length_ c))] ++ bodies ++ rest ++ [OnDone; OnDelete] /\
      Forall (fun ph => exists n b, ph = OnRequestBody n b) bodies /\ (rank <$> rest) `prefix_of` [1; 2; 3; 4]%nat
  else phases_of m (trace f') = [].
Proof.
  intros E D. apply handle_request_stage in E as (Hok & k & Hk & Hs). destruct (destroy_trace callback f f' Hok D) as (evs & T & Ev).
  specialize (Hs m). rewrite T, phases_of_app.
  assert (NoDup (reverse (keys (scopes_ f)))) as Hd by (rewrite reverse_Permutation; apply keys_NoDup, Hok).
  rewrite (phases_of_pairs m _ _ _ _ Hd Ev).
  pose proof (co_keys _ Hok m) as K. destruct (decide (m ∈ module_order_ f)) as [Hm|Hm].
  - destruct Hs as (bodies & rest & -> & F & Pr & _). rewrite decide_True by (by apply elem_of_reverse, K).
    exists bodies, rest. split; [by rewrite <- !app_assoc|]. split; [done|]. etransitivity; [exact Pr|].
    change [1; 2; 3; 4]%nat with (seq 1 4). replace 4%nat with (k + (4 - k))%nat by lia. rewrite seq_app. by apply prefix_app_r.
  - rewrite Hs, decide_False; [done|]. by rewrite elem_of_reverse, K.
Qed.

(** C24. The first answer of a module is the one that goes out.  When some module has given a
    local response, the module called last gave it, the response of the host is exactly
    that one, and no other module of the chain has given one; and when the host has no
    local response, none has. *)
Theorem first_answer_wins (feeds : list (list loop_feed)) (c : ConnectionIO) (w : W) (e : conn_end) (f : chain) :
  handle_request feeds c w = Some (e, Some f) -> first_answer f.
Proof.
  intros E. by apply handle_request_stage in E as [[] _].
Qed.

(** ** The body *)

(** C10. The body reaches every module.  When a request with a body, of which the head brought
    no more than the announced length (as the event loop sees to), is finished and no module
    has answered by itself, every module of the chain has seen the same pieces in the same
    order; together they are exactly the announced length of what arrived with the head and
    what the event loop has fed; no piece is empty, and the end of
    the stream is signalled with the last piece and no other. *)
Theorem body_reaches_modules (feeds : list (list loop_feed)) (c : ConnectionIO) (w : W) (f : chain) :
  handle_request feeds c w = Some (Finished, Some f) -> has_local_response (http_data f) = false ->
  0 < content_length_ c -> zlen (body_prefix_ c) <= content_length_ c ->
  exists init last,
    zlen (mjoin init ++ last) = content_length_ c /\
    mjoin init ++ last `prefix_of` body_prefix_ c ++ read_chunk_ c ++ mjoin (fed_data <$> feeds) /\
    Forall (fun d => d <> []) (init ++ [last]) /\
    forall m, m ∈ module_order_ f -> bodies_of m (trace f) = ((fun d => (d, false)) <$> init) ++ [(last, true)].
Proof.
  intros E L Hp Hpre. apply handle_request_run in E as (d & f0 & _ & Ld & E & X).
  pose proof (stage_headers _ _ _ _ _ _ Ld loaded_names E) as [H0 S0]. pose proof (fun m => headers_no_body _ _ _ _ _ _ m E) as B0.
  destruct (has_local_response (http_data f0)) eqn:L0; [apply outcome_same in X as (_ & _ & _ & X & _); congruence|].
  destruct X as (r & f1 & k & g & E1 & A & O & Hr). rewrite (Hr eq_refl) in E1. apply outcome_same in O as (_ & Es2 & Es3 & Es4 & _).
  assert (has_local_response (http_data f1) = false) as L1 by (eapply advance_local; [exact A|congruence]).
  apply stream_body_run in E1 as (ds & B & _ & F & Pr & Z1 & _). specialize (Z1 eq_refl L1 ltac:(lia) Hpre).
  assert (ds <> []) as Nd by (intros ->; change (mjoin []) with (@nil Z) in Z1; rewrite (zlen_nil (A:=Z)) in Z1; lia).
  destruct (body_run_seen _ _ _ B H0 L1) as (O1 & _ & S1). pose proof (stage_body_run _ _ _ _ B H0 S0) as [H1 _].
  destruct (marks_last (content_length_ c) ds 0) as (init & last & -> & M); [lia|done|done|].
  exists init, last. rewrite join_app in Z1, Pr. cbn in Z1, Pr. rewrite app_nil_r in Z1, Pr. repeat (split; [done|]).
  intros m. destruct (advance_bodies _ _ _ _ m A H1) as [Ba Oa]. rewrite Es2, Oa, O1. intros Hm. by rewrite Es3, Ba, S1, B0, M.
Qed.

(** ** Streamed responses *)

(** What opening the chain establishes and every callback keeps holds where the handler
    ends. *)
Lemma run_invariant (J : chain -> Prop) (w : W) :
  (forall f f', same_chain f f' -> sink f' = sink f -> vms f' = vms f -> J f -> J f') ->
  (forall m ph before after c c' s w f, gives before -> J f -> sfind m (scopes_ f) = Some (Some c) ->
    run_prog (body_gen f) (callback m ph (vms f)) (before (http_data f) c) (sink f) = Some (w, (c', s)) ->
    J (settle m after c' (called m ph (before (http_data f) c) s w f))) ->
  (forall eos d f, onRequestHeaders open_scope callback loaded eos (new_chain d new_HttpResponseSink w) = Some f -> J f) ->
  forall feeds c e f, handle_request feeds c w = Some (e, Some f) -> exists g, J g /\ outcome e f g.
Proof.
  intros Jh Js J0 feeds c e f E. apply handle_request_run in E as (d & f0 & _ & _ & E & X). apply J0 in E.
  destruct (has_local_response (http_data f0)); [by exists f0|]. destruct X as (r & f1 & k & g & E1 & A & O & _).
  apply stream_body_run in E1 as (ds & B & _). exists g. split; [|done].
  assert (forall f f' : chain, host_moves (host := eq) f f' -> J f -> J f') as Jm by (intros h h' (? & ? & ?); by apply Jh).
  eapply (advance_invariant J Jm Js); [exact A|]. eapply (body_run_invariant J Jm); [|exact Js|exact B|exact E].
  intros data h. by apply Jh.
Qed.
End HandlerSpec.

Section OneModule.
Context {W : Type} (open_scope : name -> W -> option ContextBase * W) (callback : name -> phase -> W -> prog W).
Context (m : name) (g_body_pacifier : bool) (runtime_line : list Z) (callback_good : forall m ph w, good_prog (callback m ph w)).

(** C23. A streamed response is what the module sent.  The server loads one module, whatever
    it does; its foreign calls and the answers to them are logged beside the state of its
    VM.  When it has streamed and the worker finishes the connection without a local
    response, exactly one head was accepted, and the bytes the worker wrote are that head,
    its headers made consistent with chunked transfer, and a chunked body that decodes to
    the accepted chunks in order, with nothing behind it. *)
Theorem streamed_response_whole (feeds : list (list loop_feed)) (c : ConnectionIO) (w : W) (f : chain HttpResponseSink (W * foreign_log)) :
  handle_request (logged_open open_scope) (logged_callback callback) (Some [m]) g_body_pacifier runtime_line feeds c (w, [])
    = Some (Finished, Some f) ->
  chain_hasStreamingResponse f = true -> has_local_response (http_data f) = false ->
  exists status headers normalized chunks,
    accepted_heads (vms f).2 = [(status, headers)] /\ normalize headers false [] = Some normalized /\
    mjoin (written (sink f)) = serialize_headers status normalized ++ chunks /\
    dechunk_all chunks = Some (accepted_body (vms f).2, []).
Proof.
  intros E St L. pose proof E as Hok. apply handle_request_stage in Hok as [Hok _]; [|apply NoDup_singleton].
  apply (run_invariant (logged_open open_scope) (logged_callback callback) (Some [m]) g_body_pacifier runtime_line (one_stream m) (w, [])) in E as (g & J & O).
  - apply outcome_streaming in O as [<- Fin]; [|done..].
    unfold chain_isStreamingFinished, any_context in Fin. apply existsb_exists in Fin as ([m0 [c0|]] & Hin%list_elem_of_In & Fc); [|done].
    assert (exists c1, sfind m0 (scopes_ f) = Some (Some c1) /\ stream_state c1 = StreamFinished) as (c1 & F1 & S1).
    { exists c0. split; [apply sfind_elem_ok; [apply Hok|done]|]. cbn in Fc. by destruct (stream_state c0). }
    destruct (J _ _ F1) as (_ & _ & s & Es & I). cbn in Es. injection Es as <-. cbn in I. rewrite S1 in I.
    destruct I as (n & hs & Eh & _ & _ & ws & Ew & nhs & ds & N & -> & Eb & Fd).
    exists n, hs, nhs, (mjoin (chunk <$> ds) ++ last_chunk). rewrite Ew, join_app, mjoin_cons, <- app_assoc.
    cbn. rewrite app_nil_r. split; [done|]. split; [done|]. split; [done|]. rewrite <- Eb. by apply dechunk_all_stream.
  - intros f0 f' (E1 & _) E2 E3 Hj m' c'. rewrite E1, E2, E3. apply Hj.
  - intros m0 ph before after c0 c' s w0 f0 Hb Hj F R. eapply one_stream_settle; try done. intros. by apply good_prog_fits.
  - intros eos d f0. apply one_stream_headers; [|done]. intros. by apply good_prog_fits.
Qed.
End OneModule.

(** ** Filters to try the theorems on *)

(** The VM state selects what the modules do: nothing but read the body and set a length
    (0), answer at the request trailers (1), stream a response (2). *)
Definition demo_open (m : name) (w : nat) : option ContextBase * nat := (Some (mkBase (Some []) None (Some []) []), w).

Definition demo_callback (m : name) (ph : phase) (w : nat) : prog nat :=
  match ph, w with
  | OnRequestBody _ _, _ => Do (GetBuffer HttpRequestBody) (fun _ => Ret w)
  | OnResponseHeaders _, 0%nat => Do (AddHeaderMapValue ResponseHeaders (str "content-length") (str "99")) (fun _ => Ret w)
  | OnRequestTrailers, 1%nat => Do (SendLocalResponse 403 m [(str "Content-Length", str "7"); (str "X", str "y")] []) (fun _ => Ret w)
  | OnRequestHeaders _, 2%nat =>
      Do (Foreign (FSendHeaders (le32 200 ++ marshal_pairs [(str "X", str "y")]))) (fun _ =>
      Do (Foreign (FWriteChunk (str "hello"))) (fun _ => Do (Foreign FFinish) (fun _ => Ret w)))
  | _, _ => Ret w
  end.

Lemma demo_good m ph w : good_prog (demo_callback m ph w).
Proof.
  assert (bytes (le32 200 ++ marshal_pairs [(str "X", str "y")])) as B by (apply bytes_b_bytes; vm_compute; reflexivity).
  destruct ph, w as [|[|[|w]]]; try exact I; try (split; [exact I|intros; exact I]).
  split; [exact B|]. intros _. split; [vm_compute; reflexivity|]. intros _. split; [exact I|]. intros _. exact I.
Qed.

Definition demo_head : list Z := str "POST /x HTTP/1.1" ++ crlf ++ str "Host: a" ++ crlf ++ str "Content-Length: 7" ++ crlf ++ crlf.
Definition demo_io : ConnectionIO := setHeaderData demo_head (str "ab") 7 new_ConnectionIO.
Definition demo_feeds : list (list loop_feed) := [[FeedData (str "cde") false; FeedData (str "fg") false]].
Definition demo_modules : list name := [str "auth"; str "log"].

Abbreviation demo w := (handle_request demo_open demo_callback (Some demo_modules) false [] demo_feeds demo_io w%nat).

Lemma demo_modules_NoDup : NoDup demo_modules.
Proof. apply (bool_decide_unpack _). vm_compute. exact I. Qed.

Lemma demo_leaves_body m w : leaves_body (demo_callback m OnDone w) /\ leaves_body (demo_callback m OnDelete w).
Proof. by destruct w as [|[|[|w]]]. Qed.

Lemma handle_request_returns_witness : exists e r, demo 0 = Some (e, r) /\ match r with Some f => is_Some (destroy demo_callback f) | None => True end.
Proof.
  destruct (handle_request_returns demo_open demo_callback (Some demo_modules) false [] demo_good demo_modules_NoDup demo_feeds demo_io 0%nat) as (e & r & E & D).
  exists e, r. split; [exact E|]. apply D. exact demo_leaves_body.
Defined.

(** The response of the host, and the local response of a module. *)
Lemma response_framed_witness :
  match demo 0 with
  | Some (Finished, Some f) => exists headers body status,
      mjoin (written (sink f)) = serialize_headers status headers ++ body /\
      values (str "Content-Length") headers = [dec (zlen body)] /\ status = 200
  | _ => False
  end /\
  match demo 1 with
  | Some (Finished, Some f) =>
      read_message (mjoin (written (sink f))) = Some (
        [str "HTTP/1.1 403 Forbidden"; str "Content-Type: text/plain"; str "X-Powered-By: lswasm/proxy-wasm"; str "Connection: close";
         str "X: y"; str "Content-Length: 4"], str "auth")
  | _ => False
  end.
Proof.
  split.
  - assert (match demo 0 with
      | Some (Finished, Some f) => negb (chain_hasStreamingResponse f) && negb (has_local_response (http_data f)) | _ => false end = true) as X
      by (vm_compute; reflexivity).
    destruct (demo 0) as [[[] [f|]]|] eqn:E; try discriminate X. apply andb_prop in X as [St%negb_true_iff L%negb_true_iff].
    destruct (response_framed demo_open demo_callback (Some demo_modules) false [] demo_good demo_modules_NoDup demo_feeds demo_io 0%nat f E St)
      as (headers & body & status & H1 & H2 & H3 & _). rewrite L in H3. exists headers, body, status. split; [exact H1|]. split; [exact H2|apply H3].
  - assert (match demo 1 with
      | Some (Finished, Some f) => negb (chain_hasStreamingResponse f) && has_local_response (http_data f)
          && bool_decide (local_response_code (http_data f) = 403)
          && bool_decide (local_response_body (http_data f) = str "auth")
          && bool_decide (local_response_additional_headers (http_data f) = [(str "Content-Length", str "7"); (str "X", str "y")])
      | _ => false end = true) as X by (vm_compute; reflexivity).
    destruct (demo 1) as [[[] [f|]]|] eqn:E; try discriminate X.
    apply andb_prop in X as [[[[St%negb_true_iff L]%andb_prop Hc%bool_decide_eq_true]%andb_prop Hb%bool_decide_eq_true]%andb_prop Hh%bool_decide_eq_true].
    destruct (response_framed demo_open demo_callback (Some demo_modules) false [] demo_good demo_modules_NoDup demo_feeds demo_io 1%nat f E St)
      as (headers & body & status & _ & _ & H3 & H4). rewrite L, Hc, Hb, Hh in H3. destruct H3 as (-> & -> & ->).
    rewrite H4; [vm_compute; reflexivity|lia|]. apply (bool_decide_unpack _). vm_compute. exact I.
Defined.

Lemma first_answer_wins_witness :
  match demo 1 with
  | Some (_, Some f) => first_answer f /\ local_response_body (http_data f) = str "auth"
  | _ => False
  end.
Proof.
  assert (match demo 1 with Some (_, Some f) => bool_decide (local_response_body (http_data f) = str "auth") | _ => false end = true) as X
    by (vm_compute; reflexivity).
  destruct (demo 1) as [[e [f|]]|] eqn:E; try discriminate X. apply bool_decide_eq_true in X.
  split; [|exact X]. exact (first_answer_wins demo_open demo_callback (Some demo_modules) false [] demo_modules_NoDup demo_feeds demo_io 1%nat e f E).
Defined.

Lemma module_stream_witness :
  match demo 1 with
  | Some (_, Some f) =>
      match destroy demo_callback f with
      | Some f' => exists bodies rest,
          phases_of (str "log") (trace f') = [OnCreate; OnRequestHeaders false] ++ bodies ++ rest ++ [OnDone; OnDelete] /\
          Forall (fun ph => exists n b, ph = OnRequestBody n b) bodies /\ (rank <$> rest) `prefix_of` [1; 2; 3; 4]%nat
      | None => False
      end
  | _ => False
  end.
Proof.
  assert (match demo 1 with
    | Some (_, Some f) => bool_decide (str "log" ∈ module_order_ f) && match destroy demo_callback f with Some _ => true | None => false end
    | _ => false end = true) as X by (vm_compute; reflexivity).
  destruct (demo 1) as [[e [f|]]|] eqn:E; try discriminate X. apply andb_prop in X as [Hm%bool_decide_eq_true X].
  destruct (destroy demo_callback f) as [f'|] eqn:D; [|discriminate X].
  pose proof (module_stream demo_open demo_callback (Some demo_modules) false [] demo_modules_NoDup demo_feeds demo_io 1%nat e f f' (str "log") E D) as H.
  destruct (decide _) in H; [exact H|contradiction].
Defined.

Lemma body_reaches_modules_witness :
  match demo 0 with
  | Some (Finished, Some f) => exists init last,
      zlen (mjoin init ++ last) = 7 /\ mjoin init ++ last `prefix_of` str "abcdefg" /\
      Forall (fun d => d <> []) (init ++ [last]) /\
      forall m, m ∈ module_order_ f -> bodies_of m (trace f) = ((fun d => (d, false)) <$> init) ++ [(last, true)]
  | _ => False
  end.
Proof.
  assert (match demo 0 with Some (Finished, Some f) => negb (has_local_response (http_data f)) | _ => false end = true) as X
    by (vm_compute; reflexivity).
  destruct (demo 0) as [[[] [f|]]|] eqn:E; try discriminate X. apply negb_true_iff in X as L.
  apply (body_reaches_modules demo_open demo_callback (Some demo_modules) false [] demo_modules_NoDup demo_feeds demo_io 0%nat f E L);
    [reflexivity|vm_compute; discriminate].
Defined.

Lemma streamed_response_whole_witness :
  match handle_request (logged_open demo_open) (logged_callback demo_callback) (Some [str "log"]) false [] demo_feeds demo_io (2%nat, []) with
  | Some (Finished, Some f) =>
      accepted_body (vms f).2 = str "hello" /\
      exists status headers normalized chunks,
        accepted_heads (vms f).2 = [(status, headers)] /\ normalize headers false [] = Some normalized /\
        mjoin (written (sink f)) = serialize_headers status normalized ++ chunks /\
        dechunk_all chunks = Some (accepted_body (vms f).2, [])
  | _ => False
  end.
Proof.
  assert (match handle_request (logged_open demo_open) (logged_callback demo_callback) (Some [str "log"]) false [] demo_feeds demo_io (2%nat, []) with
    | Some (Finished, Some f) => chain_hasStreamingResponse f && negb (has_local_response (http_data f))
        && bool_decide (accepted_body (vms f).2 = str "hello") | _ => false end = true) as X
    by (vm_compute; reflexivity).
  destruct (handle_request _ _ _ _ _ _ _ _) as [[[] [f|]]|] eqn:E; try discriminate X.
  apply andb_prop in X as [[St L%negb_true_iff]%andb_prop B%bool_decide_eq_true]. split; [exact B|].
  exact (streamed_response_whole demo_open demo_callback (str "log") false [] demo_good demo_feeds demo_io 2%nat f E St L).
Defined.

(** ** Where the code does less than it means to *)

(** The scopes are closed after the body has moved on: a module that has seen an earlier
    piece of the body and reads the body in [onDone], when another module has answered a
    later piece, reads a string that is gone. *)
Definition late_reader (m : name) (ph : phase) (w : nat) : prog nat :=
  match ph with
  | OnRequestBody n true => if decide (m = str "auth") then Do (SendLocalResponse 403 [] [] []) (fun _ => Ret w) else Ret w
  | OnDone => Do (GetBuffer HttpRequestBody) (fun _ => Ret w)
  | _ => Ret w
  end.

Example body_view_dangles_in_onDone :
  match handle_request demo_open late_reader (Some demo_modules) false [] demo_feeds demo_io 0%nat with
  | Some (Finished, Some f) => destroy late_reader f = None
  | _ => False
  end.
Proof. vm_compute. reflexivity. Qed.

(** Two modules that both stream write two responses on one connection. *)
Example two_streams_one_connection :
  match handle_request demo_open demo_callback (Some demo_modules) false [] demo_feeds demo_io 2%nat with
  | Some (Finished, Some f) => mjoin (written (sink f)) =
      let one := serialize_headers 200 [(str "X", str "y"); (str "Transfer-Encoding", str "chunked")] ++ chunk (str "hello") ++ last_chunk in one ++ one
  | _ => False
  end.
Proof. vm_compute. reflexivity. Qed.
