(* ===== verification/LsapiHandler.v ===== *)
(** * Handling an LSAPI request

    [lsapi_handle_request] of main.cpp with its callback [lsapi_header_cb], and the loop of
    [run_lsapi_loop]: the request of lsapilib.c is turned into an [HttpData], goes through
    the filter chain of [Filters], and is answered through the sink of [LsapiSink]. *)

From S2P Require Export Handler LsapiSink ReqHeaders ReqRead.

Open Scope Z_scope.

(** ** Header names *)

Definition strip_http (name : list Z) : list Z :=
  if (5 <? zlen name) && bool_decide (take 5 name = str "HTTP_") then drop 5 name else name.

Definition dashes (name : list Z) : list Z := (fun c => if c =? 95 then 45 else c) <$> name.

(** The first character and those behind a dash in upper case, the others in lower case. *)
Fixpoint title_case (next_upper : bool) (name : list Z) : list Z :=
  match name with
  | [] => []
  | c :: name =>
      if c =? 45 then c :: title_case true name
      else if next_upper then toupper c :: title_case false name
      else tolower c :: title_case false name
  end.

(** [HTTP_ACCEPT] is [Accept]. *)
Definition http_name (key : list Z) : list Z := title_case true (dashes (strip_http key)).

#[global] Arguments http_name : simpl never.

Example http_name_accept : http_name (str "HTTP_ACCEPT_CHARSET") = str "Accept-Charset".
Proof. reflexivity. Qed.

Definition lsapi_header_cb (c : header_call) (hdrs : HeaderPairs) : M (Z * HeaderPairs) :=
  mem ← get_in m_pReqBuf;
  key ← lift (match c_name c with
              | Lit s => load s 0 (c_nameLen c)
              | InReq off => load mem off (c_nameLen c)
              end);
  value ← lift (load mem (c_value c) (c_valueLen c));
  mret (1, hdrs ++ [(http_name key, value)]).

(** ** The request *)

(** The C string behind a pointer into the request; NULL is [None]. *)
Definition c_string (p : option Z) : M (option (list Z)) :=
  match p with
  | None => mret None
  | Some off => mem ← get_in m_pReqBuf; s ← lift (load_str mem off); mret (Some s)
  end.

(** [LSAPI_GetScriptName_r], or the variable [REQUEST_URI], or the root. *)
Definition lsapi_path : M (list Z) :=
  script ← LSAPI_GetScriptName_r;
  match script with
  | Some _ => script ← c_string script; mret (default [] script)
  | None => uri ← LSAPI_GetEnv_r (str "REQUEST_URI"); uri ← c_string uri; mret (default (str "/") uri)
  end.

(** A header of the table that the list does not hold. *)
Definition add_missing (name : list Z) (index : Z) (hdrs : HeaderPairs) : M HeaderPairs :=
  if has_header name hdrs then mret hdrs
  else
    v ← LSAPI_GetHeader_r index;
    v ← c_string v;
    mret (match v with Some ((_ :: _) as v) => hdrs ++ [(name, v)] | _ => hdrs end).

Definition lsapi_request : M HttpData :=
  method ← LSAPI_GetRequestMethod_r;
  method ← c_string method;
  path ← lsapi_path;
  query ← LSAPI_GetQueryString_r;
  query ← c_string query;
  let path := match query with Some ((_ :: _) as q) => path ++ str "?" ++ q | _ => path end in
  '(_, hdrs) ← LSAPI_ForeachHeader_r lsapi_header_cb [];
  hdrs ← add_missing (str "Content-Type") H_CONTENT_TYPE hdrs;
  hdrs ← add_missing (str "Content-Length") H_CONTENT_LENGTH hdrs;
  mret (mkHttpData (default (str "GET") method) path (str "HTTP/1.1") hdrs [] [] [] false 0 [] []).

(** ** The response *)

(** How the handler leaves the request: with the response of a module or of its own, with
    the response a module has streamed, or (its other returns) without one. *)
Inductive lsapi_end := LocalResponse | DefaultResponse | Streamed | GivenUp.

Section Handler.
Context {W : Type} (open_scope : name -> W -> option ContextBase * W) (callback : name -> phase -> W -> prog W).
Context (loaded : option (list name)) (g_body_pacifier : bool).

Abbreviation chain := (Filters.chain LsapiResponseSink W).

(** A computation on the request behind the sink. *)
Definition with_request {A} (m : M A) (f : chain) : option (A * chain) :=
  let k := sink f in
  '(a, s) ← m (lsapi k);
  Some (a, set_sink (mkLsapiSink (req_ k) (lsapi_error_ k) s) f).

(** Headers, body and end of a whole response; the answers of the sink are not looked at. *)
Definition respond (status_code : Z) (headers : HeaderPairs) (body : list Z) (f : chain) : option chain :=
  '(_, k) ← sendHeaders status_code headers false (sink f);
  '(_, k) ← writeBody body k;
  '(_, k) ← finishBody k;
  Some (set_sink k f).

Definition lsapi_end_streaming (f : chain) : lsapi_end := if chain_isStreamingFinished f then Streamed else GivenUp.

(** The loop over the body; each round takes a byte at least, so the length is fuel
    enough. *)
Fixpoint lsapi_body_loop (fuel : nat) (body_len body_consumed : Z) (f : chain) : option (bool * chain) :=
  if (body_consumed <? body_len) && negb (has_local_response (http_data f)) then
    match fuel with
    | O => None
    | S fuel =>
        let want := Z.min (body_len - body_consumed) BODY_CHUNK_SIZE in
        '((n, bytes), f) ← with_request (LSAPI_ReadReqBody_r want) f;
        if n <=? 0 then Some (false, f)
        else
          let body_consumed := body_consumed + n in
          f ← onRequestBody callback (body_len <=? body_consumed) (assign_request_body bytes f);
          lsapi_body_loop fuel body_len body_consumed f
    end
  else Some (true, f).

Definition lsapi_default_response (f : chain) : chain :=
  let d := http_data f in
  let body :=
    if g_body_pacifier then
      str "=== WASM LSAPI Proxy ===" ++ [10] ++ str "Method: " ++ hd_method d ++ [10] ++ str "Path: " ++ hd_path d ++ [10]
    else [] in
  set_data (set_response_headers [(str "Content-Type", str "text/plain")] (set_response_body body d)) f.

Definition lsapi_response_phases (f : chain) : option (lsapi_end * chain) :=
  f ← onResponseHeaders callback (lsapi_default_response f);
  f ← onResponseBody callback f;
  f ← onResponseTrailers callback f;
  Some (if has_local_response (http_data f) then
          if chain_hasStreamingResponse f then GivenUp else LocalResponse
        else if chain_hasStreamingResponse f then lsapi_end_streaming f
        else DefaultResponse, f).

(** Behind the headers phase. *)
Definition lsapi_request_phases (body_len : Z) (f : chain) : option (lsapi_end * chain) :=
  '(whole, f) ← (if 0 <? body_len then lsapi_body_loop (Z.to_nat body_len) body_len 0 f else Some (true, f));
  if negb whole then Some (GivenUp, f)
  else
    f ← (if has_local_response (http_data f) then Some f else onRequestTrailers callback f);
    if has_local_response (http_data f) then Some (LocalResponse, f)
    else if chain_hasStreamingResponse f then Some (lsapi_end_streaming f, f)
    else lsapi_response_phases f.

(** Up to the response, which is the last thing the handler does. *)
Definition lsapi_phases (s : st) (w : W) : option (lsapi_end * chain) :=
  '(d, s) ← lsapi_request s;
  '(body_len, s) ← LSAPI_GetReqBodyLen_r s;
  f ← onRequestHeaders open_scope callback loaded (negb (0 <? body_len)) (new_chain d (new_LsapiResponseSink s) w);
  if has_local_response (http_data f) then Some (LocalResponse, f) else lsapi_request_phases body_len f.

(** The response: status, headers and body.  That of the host is what the chain has left,
    with its length. *)
Definition response_of (e : lsapi_end) (d : HttpData) : option (Z * HeaderPairs * list Z) :=
  match e with
  | LocalResponse => Some (local_response_code d, local_response_additional_headers d, local_response_body d)
  | DefaultResponse =>
      Some (200, without (str "Content-Length") (response_headers d) ++ [content_length_header (response_body d)], response_body d)
  | Streamed | GivenUp => None
  end.

Definition lsapi_answer (e : lsapi_end) (f : chain) : option chain :=
  match response_of e (http_data f) with
  | Some (status_code, headers, body) => respond status_code headers body f
  | None => Some f
  end.

(** With the destructor of the filter context: the state behind, and that of the VMs. *)
Definition lsapi_handle_request (w : W) : M W :=
  fun s =>
    '(e, f) ← lsapi_phases s w;
    f ← lsapi_answer e f;
    f ← destroy callback f;
    Some (vms f, lsapi (sink f)).

(** A request and its end, as the loop of [run_lsapi_loop] runs them. *)
Definition serve_request (w : W) : M W :=
  w ← lsapi_handle_request w;
  LSAPI_Finish_r;;
  mret w.
End Handler.
