(* ===== verification/LsapiRequestSpec.v ===== *)
(** * The request a filter sees over LSAPI

    From a parsed request, [lsapi_request] builds the [HttpData] that the packet describes:
    its method and path, and every header once, known ones under their HTTP names, other
    ones under a name of the same letters. *)

From S2P Require Import HttpUtilsSpec Session.
From S2P Require Export LsapiHandler ReqHeadersSpec ReqReadSpec.

Open Scope Z_scope.

(** ** Names *)

Lemma http_name_known i : (i < 25)%nat -> http_name (nth i CGI_HEADERS []) = nth i HTTP_HEADERS [].
Proof. intros Hi. do 25 (destruct i as [|i]; [vm_compute; reflexivity|]). lia. Qed.

Lemma tolower_toupper c : tolower (toupper c) = tolower c.
Proof.
  unfold tolower, toupper. destruct (Z.leb_spec 97 c), (Z.leb_spec c 122); cbn [andb]; try done.
  rewrite (proj2 (Z.leb_le 65 (c - 32))), (proj2 (Z.leb_le (c - 32) 90)), (proj2 (Z.leb_gt c 90)) by lia. rewrite andb_false_r. cbn. lia.
Qed.

Lemma tolower_idem c : tolower (tolower c) = tolower c.
Proof.
  unfold tolower. destruct (Z.leb_spec 65 c), (Z.leb_spec c 90); cbn [andb]; try done.
  - rewrite (proj2 (Z.leb_gt (c + 32) 90)) by lia. by rewrite andb_false_r.
  - rewrite (proj2 (Z.leb_gt c 90)) by lia. by rewrite andb_false_r.
  - by rewrite (proj2 (Z.leb_gt 65 c)) by lia.
  - by rewrite (proj2 (Z.leb_gt 65 c)) by lia.
Qed.

Lemma title_case_lower l : forall b, tolower <$> title_case b l = tolower <$> l.
Proof.
  induction l as [|c l IH]; intros b; cbn [title_case]; [done|].
  destruct (Z.eqb_spec c 45) as [->|]; [|destruct b]; cbn [fmap list_fmap]; by rewrite IH, ?tolower_toupper, ?tolower_idem.
Qed.

(** A name without underscores comes through, but for the case of its letters. *)
Lemma http_name_unknown n : n <> [] -> 95 ∉ n -> header_name_eq (http_name (str "HTTP_" ++ (cgi_char <$> n))) n = true.
Proof.
  intros Hn Hu. apply header_name_eq_spec. unfold http_name. rewrite title_case_lower.
  assert (strip_http (str "HTTP_" ++ (cgi_char <$> n)) = cgi_char <$> n) as ->.
  { unfold strip_http. rewrite zlen_app. rewrite (proj2 (Z.ltb_lt _ _)); [done|]. destruct n; [done|]. cbn [fmap list_fmap]. rewrite zlen_cons.
    pose proof (zlen_nonneg (cgi_char <$> n)). change (zlen (str "HTTP_")) with 5. lia. }
  unfold dashes. rewrite <- !list_fmap_compose. clear Hn. induction n as [|c n IH]; [done|]. apply not_elem_of_cons in Hu as [Hc Hu].
  cbn [fmap list_fmap]. rewrite IH by done. f_equal. unfold compose, cgi_char. destruct (Z.eqb_spec c 45) as [->|]; [done|].
  destruct (Z.eqb_spec (toupper c) 95) as [E|]; [|apply tolower_toupper]. exfalso. apply Hc. unfold toupper in E.
  destruct (Z.leb_spec 97 c), (Z.leb_spec c 122); cbn in E; lia.
Qed.

(** ** The headers of a request *)

(** The values of the headers that are visited, as intervals of the request buffer. *)
Fixpoint known_spans (r : request_image) (n i : nat) : list (Z * Z) :=
  match n with
  | O => []
  | S n =>
      match ri_index r !! i with
      | Some (len, off) => if off =? 0 then [] else [(ri_http_at r + off, len)]
      | None => []
      end ++ known_spans r n (S i)
  end.

Definition unknown_span (r : request_image) (u : unknown_header) : Z * Z := (ri_http_at r + u.1.2, u.2).
Definition name_span (r : request_image) (u : unknown_header) : Z * Z := (ri_http_at r + u.1.1.1, Z.min 250 u.1.1.2).

Definition value_spans (r : request_image) : list (Z * Z) := known_spans r 24 0 ++ (unknown_span r <$> ri_unknown r).
Definition value_ends (r : request_image) : list Z := (fun s => s.1 + s.2) <$> value_spans r.

(** The byte behind a value is in the header text, and in no name and no other value; the
    web server ends each header line with a line break. *)
Definition separated (r : request_image) : Prop :=
  Forall (fun e => e < ri_total r /\
    Forall (fun s => ~ (s.1 <= e < s.1 + s.2)) (value_spans r ++ (name_span r <$> ri_unknown r))) (value_ends r).

(** The pairs the packet describes. *)
Fixpoint known_pairs (r : request_image) (n i : nat) : HeaderPairs :=
  match n with
  | O => []
  | S n =>
      match ri_index r !! i with
      | Some (len, off) => if off =? 0 then [] else [(nth i HTTP_HEADERS [], slice off len (ri_http r))]
      | None => []
      end ++ known_pairs r n (S i)
  end.

(** The name of an unknown header, at most 250 bytes of it. *)
Definition unknown_name (r : request_image) (u : unknown_header) : list Z := slice u.1.1.1 (Z.min 250 u.1.1.2) (ri_http r).

Definition unknown_pair (r : request_image) (u : unknown_header) : list Z * list Z :=
  (http_name (str "HTTP_" ++ (cgi_char <$> unknown_name r u)), slice u.1.2 u.2 (ri_http r)).

Definition request_pairs (r : request_image) : HeaderPairs := known_pairs r 24 0 ++ (unknown_pair r <$> ri_unknown r).

Lemma cgi_table i : (i < 25)%nat -> zlen (nth i CGI_HEADERS []) = nth i CGI_HEADER_LEN 0.
Proof. intros Hi. do 25 (destruct i as [|i]; [done|]). lia. Qed.

Lemma known_spans_in r n i j len off : (i <= j < i + n)%nat -> ri_index r !! j = Some (len, off) -> off <> 0 -> (ri_http_at r + off, len) ∈ known_spans r n i.
Proof.
  revert i. induction n as [|n IH]; intros i Hj Hi Ho; [lia|]. cbn [known_spans]. destruct (decide (i = j)) as [->|].
  - rewrite Hi, (proj2 (Z.eqb_neq off 0)) by done. by constructor.
  - apply elem_of_app. right. apply IH; [lia|done|done].
Qed.

Section Headers.
Context (flag : bool) (r : request_image) (slack : list Z) (s0 : st).
Context (Hok : image_ok r) (Hp : parsed r (m_in (req s0))) (Hslack : 0 < zlen slack).
Context (Hm : m_pReqBuf (m_in (req s0)) = image flag false false r slack) (Hsep : separated r).

Abbreviation memory := (image flag false false r slack).
Abbreviation at_mem mem := (on_in (set_m_pReqBuf mem) s0).

(** The buffer with NULs behind some of the values. *)
Record cut (mem : list Z) : Prop := {
  cut_blanked : blanked flag r slack mem;
  cut_byte : forall o, o ∉ value_ends r -> load8 mem o = load8 memory o
}.

Lemma cut_load mem o n : cut mem -> Forall (fun e => ~ (o <= e < o + n)) (value_ends r) -> load mem o n = load memory o n.
Proof.
  intros [[Hz _] Hb] Hf. unfold load. rewrite Hz. destruct (in_range o n _) eqn:E; [|done].
  apply in_range_spec in E. f_equal. apply list_eq. intros i. destruct (Z.ltb_spec (Z.of_nat i) n).
  - rewrite !lookup_slice by lia. assert (load8 mem (o + Z.of_nat i) = load8 memory (o + Z.of_nat i)) as Hl.
    { apply Hb. rewrite Forall_forall in Hf. intros X%Hf. lia. }
    unfold load8 in Hl. rewrite Hz, (proj2 (in_range_spec _ _ _)) in Hl by lia.
    by replace (Z.to_nat (o + Z.of_nat i)) with (Z.to_nat o + i)%nat in Hl by lia.
  - unfold slice. by rewrite !lookup_take_ge by lia.
Qed.

Lemma cut_span mem s : cut mem -> s ∈ value_spans r ++ (name_span r <$> ri_unknown r) -> load mem s.1 s.2 = load memory s.1 s.2.
Proof.
  intros Hc Hs. apply cut_load; [done|]. eapply Forall_impl; [exact Hsep|]. intros e [_ F]. cbn in F. rewrite Forall_forall in F. by apply F.
Qed.

Lemma cut_put e mem (Q : unit -> st -> Prop) : cut mem -> e ∈ value_ends r -> ri_http_at r <= e ->
  (forall mem', cut mem' -> Q tt (at_mem mem')) -> wp (put_nul e) Q (at_mem mem).
Proof.
  intros Hc He Hlo HQ. pose proof Hsep as F. unfold separated in F. rewrite Forall_forall in F. destruct (F e He) as [Hhi _].
  apply (put_nul_only flag r slack s0 Hok Hp Hslack Hm); [apply Hc|lia|]. intros mem' Hb' _ Hne. apply HQ. split; [done|].
  intros o Ho. rewrite Hne by (by intros ->). by apply Hc.
Qed.

(** The callback, on a span of the buffer. *)
Lemma header_cb name len off vlen v acc mem (Q : Z * HeaderPairs -> st -> Prop) :
  zlen name = len -> load mem off vlen = Some v -> Q (1, acc ++ [(http_name name, v)]) (at_mem mem) ->
  wp (lsapi_header_cb (mkCall (Lit name) len off vlen) acc) Q (at_mem mem).
Proof.
  intros Hl Hv HQ. unfold lsapi_header_cb. cbn [c_name c_nameLen c_value c_valueLen]. do 2 wstep. wstep.
  eapply wp_lift. { rewrite load_Some by (pose proof (zlen_nonneg name); lia). rewrite <- Hl, slice_all. reflexivity. }
  wstep. eapply wp_lift; [exact Hv|]. by wsteps.
Qed.

Lemma each_known_spec n : forall i count acc mem (Q : (Z + Z) * HeaderPairs -> st -> Prop),
  (i + n <= 24)%nat -> cut mem ->
  (forall s, s ∈ known_spans r n i -> s ∈ value_spans r) ->
  (forall count' mem', cut mem' -> Q (inr count', acc ++ known_pairs r n i) (at_mem mem')) ->
  wp (each_known lsapi_header_cb n (Z.of_nat i) count acc) Q (at_mem mem).
Proof.
  induction n as [|n IH]; intros i count acc mem Q Hi Hc Hv HQ; cbn [each_known known_pairs known_spans] in *.
  { wstep. rewrite <- (app_nil_r acc). by apply HQ. }
  destruct (lookup_lt_is_Some_2 (ri_index r) i) as [[len off] Hlo]. { rewrite (io_index r Hok). lia. }
  pose proof (Forall_lookup_1 _ _ _ _ (io_entries r Hok) Hlo) as (Hl & _ & Hr). cbn [fst snd] in *.
  rewrite Hlo in HQ, Hv. wstep. eapply (known_header_spec flag r slack s0 Hok Hp); [apply Hc|done|].
  replace (Z.of_nat i + 1) with (Z.of_nat (S i)) by lia.
  destruct (Z.eqb_spec off 0) as [E|Hne]; [by apply IH; [lia|done| |]|].
  destruct Hr as [?|[Hr1 Hr2]]; [done|]. set (sp := (ri_http_at r + off, len)) in *.
  assert (sp ∈ value_spans r) as Hsp by (apply Hv; by constructor).
  wstep. apply (http_text_spec r s0 Hp). wstep. apply cut_put; [done|exact (list_elem_of_fmap_2 (fun s : Z * Z => s.1 + s.2) _ _ Hsp)|lia|].
  intros mem' Hc'. rewrite Nat2Z.id. wstep. eapply header_cb; [apply cgi_table; lia| |].
  { refine (eq_trans (cut_span mem' sp Hc' _) _); [apply elem_of_app; by left|]. apply (image_http_value flag r slack off len); [done|lia..]. }
  change (1 <=? 0) with false. cbv iota. apply IH; [lia|done| |].
  - intros s Hs. apply Hv. apply elem_of_app. by right.
  - intros count' mem2 Hc2. rewrite <- app_assoc. cbn [app]. rewrite http_name_known by lia. by apply HQ.
Qed.

Lemma each_unknown_spec n : forall i total acc mem (Q : Z * HeaderPairs -> st -> Prop),
  (i + n)%nat = length (ri_unknown r) -> cut mem ->
  (forall mem', cut mem' -> Q (total, acc ++ (unknown_pair r <$> drop i (ri_unknown r))) (at_mem mem')) ->
  wp (each_unknown lsapi_header_cb n (Z.of_nat i) total acc) Q (at_mem mem).
Proof.
  induction n as [|n IH]; intros i total acc mem Q Hi Hc HQ; cbn [each_unknown].
  { wstep. rewrite drop_ge in HQ by lia. rewrite <- (app_nil_r acc). by apply HQ. }
  destruct (lookup_lt_is_Some_2 (ri_unknown r) i) as [u Hu]; [lia|].
  pose proof (Forall_lookup_1 _ _ _ _ (io_unknown r Hok) Hu) as (?&?&?&?&?&?).
  rewrite (drop_S _ u i Hu), fmap_cons in HQ. assert (u ∈ ri_unknown r) as Hin by (by eapply list_elem_of_lookup_2).
  assert (unknown_span r u ∈ value_spans r) as Hsp by (apply elem_of_app; right; by apply list_elem_of_fmap_2).
  assert (load mem (name_span r u).1 (name_span r u).2 = Some (unknown_name r u)) as Hname.
  { rewrite (cut_span mem (name_span r u) Hc) by (apply elem_of_app; right; by apply list_elem_of_fmap_2). apply (image_http_value flag r slack u.1.1.1 (Z.min 250 u.1.1.2)); [done|lia..]. }
  assert (load memory (unknown_span r u).1 (unknown_span r u).2 = Some (slice u.1.2 u.2 (ri_http r))) as Hval by (apply (image_http_value flag r slack u.1.2 u.2); [done|lia..]).
  pose proof (list_elem_of_fmap_2 (fun s : Z * Z => s.1 + s.2) _ _ Hsp) as Hend.
  assert (zlen (unknown_name r u) = Z.min 250 u.1.1.2) as Hzn by (unfold unknown_name; rewrite zlen_slice; lia).
  wstep. eapply (unknown_header_spec flag r slack s0 Hok Hp); [apply Hc|done|].
  unfold unknown_pair in HQ. destruct u as [[[nO nL] vO] vL]. unfold unknown_span, name_span, unknown_name in *. cbn [fst snd] in *.
  wstep. apply (http_text_spec r s0 Hp). cbv zeta. do 2 wstep.
  assert ((if 250 <? nL then 250 else nL) = Z.min 250 nL) as -> by (destruct (Z.ltb_spec 250 nL); lia). wstep.
  assert (cgi_name mem (ri_http_at r + nO) (Z.min 250 nL) = Some (str "HTTP_" ++ (cgi_char <$> slice nO (Z.min 250 nL) (ri_http r)))) as Hcgi.
  { unfold cgi_name. rewrite Z.max_r by lia. by rewrite Hname. }
  eapply wp_lift; [exact Hcgi|].
  wstep. apply cut_put; [done|exact Hend|lia|]. intros mem' Hc'. wstep. eapply header_cb.
  - rewrite zlen_app. unfold zlen at 2. rewrite length_fmap. fold (zlen (slice nO (Z.min 250 nL) (ri_http r))). rewrite Hzn.
    change (zlen (str "HTTP_")) with 5. lia.
  - refine (eq_trans (cut_span mem' (ri_http_at r + vO, vL) Hc' _) Hval). apply elem_of_app. by left.
  - change (1 <=? 0) with false. cbv iota. replace (Z.of_nat i + 1) with (Z.of_nat (S i)) by lia. apply IH; [lia|done|].
    intros mem2 Hc2. rewrite <- app_assoc. by apply HQ.
Qed.

Lemma ForeachHeader_spec acc mem (Q : Z * HeaderPairs -> st -> Prop) : cut mem ->
  (forall ret mem', cut mem' -> Q (ret, acc ++ request_pairs r) (at_mem mem')) ->
  wp (LSAPI_ForeachHeader_r lsapi_header_cb acc) Q (at_mem mem).
Proof.
  intros Hc HQ. unfold LSAPI_ForeachHeader_r. change (Z.to_nat H_TRANSFER_ENCODING) with 24%nat. wstep.
  apply (each_known_spec 24 0 0 acc); [lia|done|intros s Hs; apply elem_of_app; by left|]. intros count mem1 Hc1.
  wstep. eapply get_field_spec.
  { unfold load_s32. cbn [m_pReqBuf m_in req]. rewrite (blanked_load flag r slack mem1 _ _ (cut_blanked _ Hc1)).
    - by apply (image_count flag false r slack 6).
    - change off_cntUnknownHeaders with 32. pose proof (ri_order r). unfold ri_http_at, ri_unknown_at in *.
      pose proof (zlen_nonneg (ri_unknown r)). lia. }
  replace (Z.to_nat (zlen (ri_unknown r))) with (length (ri_unknown r)) by (unfold zlen; lia).
  apply (each_unknown_spec (length (ri_unknown r)) 0); [done|done|]. intros mem2 Hc2. rewrite drop_0, <- app_assoc. by apply HQ.
Qed.

(** *** The two headers that are looked for again *)

Lemma known_pairs_in n i j len off : (i <= j < i + n)%nat -> ri_index r !! j = Some (len, off) -> off <> 0 ->
  (nth j HTTP_HEADERS [], slice off len (ri_http r)) ∈ known_pairs r n i.
Proof.
  revert i. induction n as [|n IH]; intros i Hj Hi Ho; [lia|]. cbn [known_pairs]. apply elem_of_app. destruct (decide (i = j)) as [->|].
  - left. rewrite Hi, (proj2 (Z.eqb_neq off 0)) by done. by constructor.
  - right. apply IH; [lia|done|done].
Qed.

(** Nothing is added: a header of the table has been visited if it is there. *)
Lemma add_missing_spec (i : nat) mem (Q : HeaderPairs -> st -> Prop) : (i < 24)%nat -> cut mem -> Q (request_pairs r) (at_mem mem) ->
  wp (add_missing (nth i HTTP_HEADERS []) (Z.of_nat i) (request_pairs r)) Q (at_mem mem).
Proof.
  intros Hi Hc HQ. unfold add_missing. destruct (has_header _ _) eqn:E; [by wstep|].
  destruct (lookup_lt_is_Some_2 (ri_index r) i) as [[len off] Hlo]. { rewrite (io_index r Hok). lia. }
  assert (off = 0) as ->.
  { destruct (decide (off = 0)) as [|Ho]; [done|exfalso]. apply not_true_iff_false in E. apply E. unfold has_header. apply existsb_exists.
    exists (nth i HTTP_HEADERS [], slice off len (ri_http r)). split; [|by apply header_name_eq_spec].
    apply list_elem_of_In, elem_of_app. left. apply (known_pairs_in 24 0 i len off); [lia|done|done]. }
  destruct (blanked_index flag r slack Hok mem i len 0 (cut_blanked _ Hc) Hlo) as [Ho _].
  unfold LSAPI_GetHeader_r. rewrite (proj2 (Z.leb_le 0 _)), (proj2 (Z.leb_le (Z.of_nat i) _)) by (unfold H_TRANSFER_ENCODING; lia).
  cbn [andb negb]. do 2 wstep. do 2 wstep. eapply wp_lift; [exact (pa_index _ _ Hp)|]. wsteps. eapply wp_lift; [exact Ho|].
  change (0 =? 0) with true. cbv iota. wsteps. unfold c_string. by wsteps.
Qed.
End Headers.

(** ** The request *)

Definition request_path (script query : list Z) : list Z := script ++ match query with [] => [] | _ => str "?" ++ query end.

Lemma lsapi_request_run flag r slack s method script query :
  image_ok r -> parsed r (m_in (req s)) -> 0 < zlen slack -> m_pReqBuf (m_in (req s)) = image flag false false r slack -> separated r ->
  load_str (m_pReqBuf (m_in (req s))) (ri_requestMethod r) = Some method ->
  load_str (m_pReqBuf (m_in (req s))) (ri_scriptName r) = Some script ->
  load_str (m_pReqBuf (m_in (req s))) (ri_queryString r) = Some query ->
  exists mem', cut flag r slack mem' /\
    lsapi_request s = Some (mkHttpData method (request_path script query) (str "HTTP/1.1") (request_pairs r) [] [] [] false 0 [] [],
                            on_in (set_m_pReqBuf mem') s).
Proof.
  intros Hok Hp Hslack Hm Hsep Hmethod Hscript Hquery. destruct (pa_script _ _ Hp) as (_ & P1 & P2 & P3).
  assert (on_in (set_m_pReqBuf (image flag false false r slack)) s = s) as Hs by (rewrite <- Hm; by destruct s as [[? ? ? [] ? ?] ?]).
  assert (wp lsapi_request (fun d s' => exists mem', cut flag r slack mem' /\
    (d, s') = (mkHttpData method (request_path script query) (str "HTTP/1.1") (request_pairs r) [] [] [] false 0 [] [], on_in (set_m_pReqBuf mem') s)) s) as Hwp.
  { assert (forall off v (Q : option (list Z) -> st -> Prop), load_str (m_pReqBuf (m_in (req s))) off = Some v -> Q (Some v) s ->
      wp (c_string (Some off)) Q s) as Str.
    { intros off v Q E HQ. unfold c_string. do 2 wstep. wstep. eapply wp_lift; [exact E|]. by wstep. }
    unfold lsapi_request, LSAPI_GetRequestMethod_r, LSAPI_GetQueryString_r. do 2 wstep. rewrite P3. wstep. eapply Str; [exact Hmethod|].
    wstep. unfold lsapi_path, LSAPI_GetScriptName_r. do 2 wstep. rewrite P1. wstep. eapply Str; [exact Hscript|]. wstep.
    do 2 wstep. rewrite P2. wstep. eapply Str; [exact Hquery|]. cbv zeta. wstep.
    refine (eq_rect _ (fun x => wp _ _ x) _ _ Hs). apply (ForeachHeader_spec flag r slack s Hok Hp Hslack Hm Hsep []).
    { split; [apply blanked_image|done]. }
    intros ret mem1 Hc1. cbn [app]. wstep. apply (add_missing_spec flag r slack s Hok Hp 6); [lia|done|].
    wstep. apply (add_missing_spec flag r slack s Hok Hp 7); [lia|done|]. wstep. exists mem1. split; [done|]. do 2 f_equal.
    unfold request_path. destruct query; cbn [default]; [by rewrite app_nil_r|done]. }
  apply wp_run in Hwp as (d & s' & E & mem' & Hc & X). injection X as -> ->. by exists mem'.
Qed.

(** The body is not touched. *)
Lemma cut_body flag r slack s mem : image_ok r -> m_pReqBuf (m_in (req s)) = image flag false false r slack -> separated r -> cut flag r slack mem ->
  ri_total r <= m_bufProcessed (m_in (req s)) -> body_ok s ->
  body_ok (on_in (set_m_pReqBuf mem) s) /\ body (on_in (set_m_pReqBuf mem) s) = body s.
Proof.
  intros Hok Hm Hsep Hc Hbp [Hfd Hpeer [Hs1 Hs2] Hl (q & Hq & Hq1 & Hq2)]. pose proof (cut_blanked _ _ _ _ Hc) as Hb.
  set (i := m_in (req s)) in *. set (s1 := on_in (set_m_pReqBuf mem) s).
  assert (zlen mem = zlen (m_pReqBuf i)) as Hz by (rewrite Hm; apply Hb).
  assert (buffered (m_in (req s1)) = buffered i) as HB.
  { assert (load mem (m_bufProcessed i) (m_bufRead i - m_bufProcessed i) = load (m_pReqBuf i) (m_bufProcessed i) (m_bufRead i - m_bufProcessed i)) as E.
    { rewrite Hm. apply (cut_load flag r slack mem); [done|]. eapply Forall_impl; [exact Hsep|]. cbn. intros e [He _]. lia. }
    rewrite !load_Some in E by lia. by injection E. }
  split.
  - split; [exact Hfd|by destruct Hpeer as [A B]; split; [exact A|exact B]| |by rewrite HB|].
    + cbn. fold i. lia.
    + exists q. cbn. fold i. split; [|lia]. unfold load_s32 in *. pose proof (ri_order r).
      rewrite (blanked_load flag r slack mem) by (done || lia). by rewrite <- Hm.
  - unfold body. by rewrite HB.
Qed.

(** C8. The filters see the request of the packet.  From a parsed request whose header values,
    and the bytes that the code writes a NUL on behind them, do not overlap ([separated]),
    the handler builds the request data without undefined behaviour: the method, the path
    with the query behind it, and the headers of the packet, each exactly once, with its
    value: the known ones from 0 to 23 of the index under their HTTP names in the order of
    the index (the 25th, Transfer-Encoding, is not visited), and then the unknown ones in
    the order of the packet.  The name of an unknown header is cut to 250 bytes and rewritten
    as a variable and back: up to 250 bytes without an underscore it is the name in the
    packet but for the case of its letters.  The body that is still to be read is the same. *)
Theorem lsapi_request_built (flag : bool) (r : request_image) (slack : list Z) (s : st) (method script query : list Z) :
  image_ok r -> parsed r (m_in (req s)) -> 0 < zlen slack -> m_pReqBuf (m_in (req s)) = image flag false false r slack -> separated r ->
  load_str (m_pReqBuf (m_in (req s))) (ri_requestMethod r) = Some method ->
  load_str (m_pReqBuf (m_in (req s))) (ri_scriptName r) = Some script ->
  load_str (m_pReqBuf (m_in (req s))) (ri_queryString r) = Some query ->
  body_ok s -> ri_total r <= m_bufProcessed (m_in (req s)) ->
  exists headers s1,
    lsapi_request s = Some (mkHttpData method (request_path script query) (str "HTTP/1.1") headers [] [] [] false 0 [] [], s1) /\
    headers = known_pairs r 24 0 ++ (unknown_pair r <$> ri_unknown r) /\
    Forall (fun u => let name := slice u.1.1.1 u.1.1.2 (ri_http r) in
      0 < u.1.1.2 <= 250 -> 95 ∉ name -> header_name_eq (unknown_pair r u).1 name = true) (ri_unknown r) /\
    body_ok s1 /\ body s1 = body s.
Proof.
  intros Hok Hp Hslack Hm Hsep H1 H2 H3 Hb Hbp.
  destruct (lsapi_request_run flag r slack s method script query Hok Hp Hslack Hm Hsep H1 H2 H3) as (mem' & Hc & E).
  destruct (cut_body flag r slack s mem' Hok Hm Hsep Hc Hbp Hb) as [Hb' Eb].
  exists (request_pairs r), (on_in (set_m_pReqBuf mem') s). split; [exact E|]. split; [done|]. split; [|done].
  apply Forall_forall. intros u Hu name Hl Hn. pose proof (proj1 (Forall_forall _ _) (io_unknown r Hok) u Hu) as (?&?&?&_). cbn in *.
  unfold unknown_name. rewrite Z.min_r by lia. apply http_name_unknown; [|done]. intros X. apply (f_equal zlen) in X.
  change (zlen []) with 0 in X. fold name in X. unfold name in X. rewrite zlen_slice in X by lia. lia.
Qed.

(** A request to try the theorems on: two headers of the table and one that is not, and
    a body of seven bytes, two of them already in the buffer. *)
Definition web_request : request_image :=
  mkImage 7 88 88 108 67 [] [(str "REQUEST_METHOD", str "POST"); (str "SCRIPT_NAME", str "/x"); (str "QUERY_STRING", str "q=1")]
    ((3, 8) :: replicate 6 (0, 0) ++ (1, 29) :: replicate 17 (0, 0)) [(32, 5, 39, 1)]
    (str "Accept: */*" ++ [13; 10] ++ str "Content-Length: 7" ++ [13; 10] ++ str "X-Api: k" ++ [13; 10]).

Definition web_slack : list Z := str "ab" ++ replicate 14 0.

Definition web_parsed : st :=
  on_os (set_k_reads [mkRev false (RData (str "cde")); mkRev false (RData (str "fg"))])
    (on_in (fun _ => let r := web_request in
       mkIn (image false false false r web_slack) (Some <$> env_entries (ri_env_at r) (ri_env r)) []
         (Some (ri_index_at r)) (Some (ri_unknown_at r)) (Some 88) (Some 88) (Some 108) (Some (ri_http_at r)) (Some 67)
         7 0 (ri_total r) (ri_total r + 2)) session_start).

Lemma web_request_ok : image_ok web_request.
Proof.
  split.
  - by vm_compute.
  - split; [constructor|by vm_compute].
  - split; [repeat (apply Forall_cons_2; [split; reflexivity|]); constructor|by vm_compute].
  - repeat (apply Forall_cons_2; [split; [discriminate|reflexivity]|]). constructor.
  - split; [split; [discriminate|reflexivity]|discriminate].
  - reflexivity.
  - change (zlen (ri_http web_request)) with 42. cbn [ri_index web_request replicate Z.to_nat app].
    repeat (apply Forall_cons_2; [unfold is_s32; cbn [fst snd]; lia|]). constructor.
  - change (zlen (ri_http web_request)) with 42. apply Forall_cons_2; [cbn; lia|constructor].
Qed.

Lemma web_parsed_ok : parsed web_request (m_in (req web_parsed)).
Proof.
  split; try done.
  - exists []. split; [apply prefix_nil|constructor].
  - exists (env_entries (ri_env_at web_request) (ri_env web_request)). split; [reflexivity|].
    repeat (apply Forall2_cons; split; [by split|]). constructor.
Qed.

Lemma web_separated : separated web_request.
Proof. unfold separated. apply (bool_decide_unpack _). vm_compute. exact I. Qed.

Lemma web_body_ok : body_ok web_parsed /\ ri_total web_request <= m_bufProcessed (m_in (req web_parsed)) /\ body web_parsed = str "abcdefg".
Proof.
  assert (match load_s32 (m_pReqBuf (m_in (req web_parsed))) 4 with
    | Some p => (8 <=? p) && (p <=? m_bufProcessed (m_in (req web_parsed))) && (p <? zlen (m_pReqBuf (m_in (req web_parsed)))) | None => false end = true) as P
    by (vm_compute; reflexivity).
  split; [|split; [reflexivity|vm_compute; reflexivity]]. split.
  - discriminate.
  - split; [reflexivity|]. repeat (apply Forall_cons_2; [split; [reflexivity|discriminate]|]). apply Forall_nil_2.
  - split; [split; vm_compute; discriminate|]. split; [vm_compute; discriminate|reflexivity].
  - vm_compute. discriminate.
  - destruct (load_s32 _ 4) as [p|]; [|discriminate P]. exists p. split; [reflexivity|].
    apply andb_prop in P as [[P1%Z.leb_le P2%Z.leb_le]%andb_prop P3%Z.ltb_lt]. split; [split; [exact P1|exact P2]|exact P3].
Qed.

Lemma lsapi_request_built_witness :
  exists headers s1,
    lsapi_request web_parsed = Some (mkHttpData (str "POST") (str "/x?q=1") (str "HTTP/1.1") headers [] [] [] false 0 [] [], s1) /\
    headers = [(str "Accept", str "*/*"); (str "Content-Length", str "7"); (str "X-Api", str "k")] /\
    body_ok s1 /\ body s1 = str "abcdefg".
Proof.
  destruct web_body_ok as (B1 & B2 & B3).
  destruct (lsapi_request_built false web_request web_slack web_parsed (str "POST") (str "/x") (str "q=1")) as (hs & s1 & E & Eh & _ & H1 & H2).
  - exact web_request_ok.
  - exact web_parsed_ok.
  - reflexivity.
  - reflexivity.
  - exact web_separated.
  - vm_compute. reflexivity.
  - vm_compute. reflexivity.
  - vm_compute. reflexivity.
  - exact B1.
  - exact B2.
  - exists hs, s1. split; [exact E|]. split; [rewrite Eh; vm_compute; reflexivity|]. split; [exact H1|]. rewrite H2. exact B3.
Defined.
