(* ===== verification/LsapiHandlerSpec.v ===== *)
(** * What handling an LSAPI request promises

    A request whose modules do not stream is always answered, by one response whose packets
    a reader decodes to the answer of the module, or to the response of the chain; a
    streamed response arrives as it was given; every module sees the whole body. *)

From S2P Require Import HttpUtilsSpec.
From S2P Require Export LsapiSinkSpec LsapiRequestSpec ReadReqSpec ChainSpec.

Open Scope Z_scope.

(** ** What reading a request leaves alone *)

(** All that the response depends on. *)
Definition response_view (s : st) :=
  (m_out (req s), (m_reqState (req s), m_fd (req s), m_fdListen (req s)),
   (k_sent (os s), k_writes (os s), k_allocs (os s)), (s_skip_write (os s), s_stderr_log_path (os s))).

Lemma view_ready fd s s' : response_view s' = response_view s -> ready fd s -> ready fd s'.
Proof. unfold response_view. intros [= E1 E2 E3 E4 E5 E6 E7 E8 E9] []. split; unfold kernel_ok in *; rewrite ?E4, ?E6, ?E7, ?E8, ?E9; done. Qed.

Lemma view_live fd w0 a s s' : response_view s' = response_view s -> live fd w0 a s -> live fd w0 a s'.
Proof.
  unfold response_view. intros [= E1 E2 E3 E4 E5 E6 E7 E8 E9] [Hfd (B & P & ps & [? ? ?] & Hst & Hs & Hw)]. split; [congruence|].
  exists B, P, ps. split; [split; rewrite ?E1, ?E2; done|]. split; [by rewrite E1|]. split; [|done]. unfold sent_on in *. by rewrite E5.
Qed.

Lemma keeps_read_loop evs len : keeps response_view (read_loop evs len).
Proof. induction evs; cbn [read_loop]; unfold sys_read_ev, signal_stop; keep. Qed.
#[export] Hint Resolve keeps_read_loop : keeps.

Lemma keeps_ReadReqBody bufLen : keeps response_view (LSAPI_ReadReqBody_r bufLen).
Proof.
  unfold LSAPI_ReadReqBody_r, take_buffered.
  assert (forall fuel n acc, keeps response_view (ReadReqBody_loop fuel n acc)) as X.
  { induction fuel; intros; cbn [ReadReqBody_loop]; unfold lsapi_read; keep. }
  keep.
Qed.

Lemma keeps_known_header i : keeps response_view (known_header i).
Proof. unfold known_header. keep. Qed.
Lemma response_put_nul off : keeps response_view (put_nul off).
Proof. unfold put_nul. keep. Qed.
#[export] Hint Resolve keeps_known_header response_put_nul : keeps.

Lemma keeps_GetHeader i : keeps response_view (LSAPI_GetHeader_r i).
Proof. unfold LSAPI_GetHeader_r. keep. Qed.
Lemma keeps_GetEnv name : keeps response_view (LSAPI_GetEnv_r name).
Proof.
  unfold LSAPI_GetEnv_r, GetHeaderVar, get_field.
  assert (forall n i, keeps response_view (known_var n i name)) by (induction n; intros; cbn [known_var]; unfold end_string, http_text; keep).
  assert (forall n i, keeps response_view (unknown_var n i name)) by (induction n; intros; cbn [unknown_var]; unfold end_string, http_text, unknown_header_at; keep).
  keep.
Qed.
Lemma keeps_ForeachHeader hdrs : keeps response_view (LSAPI_ForeachHeader_r lsapi_header_cb hdrs).
Proof.
  unfold LSAPI_ForeachHeader_r, get_field.
  assert (forall c hs, keeps response_view (lsapi_header_cb c hs)) by (intros; unfold lsapi_header_cb; keep).
  assert (forall n i c hs, keeps response_view (each_known lsapi_header_cb n i c hs)) by (induction n; intros; cbn [each_known]; unfold http_text; keep).
  assert (forall n i c hs, keeps response_view (each_unknown lsapi_header_cb n i c hs))
    by (induction n; intros; cbn [each_unknown]; unfold unknown_header_at, http_text; keep).
  keep.
Qed.
#[export] Hint Resolve keeps_GetHeader keeps_GetEnv keeps_ForeachHeader : keeps.

Lemma keeps_lsapi_request : keeps response_view lsapi_request.
Proof.
  unfold lsapi_request, lsapi_path, add_missing, LSAPI_GetRequestMethod_r, LSAPI_GetScriptName_r, LSAPI_GetQueryString_r, c_string.
  assert (forall p, keeps response_view (c_string p)) by (intros; unfold c_string; keep). keep.
Qed.

(** ** Modules that do not stream *)

(** No streaming function is called, whatever the host answers. *)
Fixpoint no_stream {W} (p : prog W) : Prop :=
  match p with
  | Ret _ => True
  | Do call k => match call with Foreign _ => False | _ => True end /\ forall a, no_stream (k a)
  end.

(** Such a callback comes to an end over any sink and does not touch it. *)
Lemma no_stream_total {S} `{ResponseSink S} {W} live (p : prog W) : no_stream p -> forall c (s : S), fresh_view live c ->
  is_Some (run_prog live p c s).
Proof.
  induction p as [w|call k IH]; intros G c s F; cbn; [eauto|]. destruct G as [G1 G2].
  assert (is_Some (host_step live call c s)) as [[a [c1 s1]] E].
  { destruct call; cbn [host_step]; eauto; [|done]. assert (is_Some (getBuffer live type c)) as [b ->]; [|cbn; eauto].
    destruct type; cbn; eauto. destruct F as [-> | ->]; [eauto|]. rewrite Z.eqb_refl. destruct (view_bytes _); eauto. }
  rewrite E. cbn. apply IH; [apply G2|]. unfold fresh_view in *. by rewrite (cl_request_body _ _ (host_step_le _ _ _ _ _ _ _ E)).
Qed.

Lemma no_stream_same {S} `{ResponseSink S} {W} live (p : prog W) : no_stream p -> forall c (s : S) w c' s',
  run_prog live p c s = Some (w, (c', s')) -> s' = s /\ stream_state c' = stream_state c.
Proof.
  induction p as [w0|call k IH]; intros G c s w c' s' E; cbn in E; [by injection E as <- <- <-|]. destruct G as [G1 G2].
  destruct (host_step live call c s) as [[a [c1 s1]]|] eqn:E1; [|done]. cbn in E. apply (IH _ (G2 a)) in E as [-> ->].
  destruct call; cbn [host_step] in E1; try (by injection E1 as <- <- <-); [| |done].
  - injection E1 as <- <- <-. unfold removeHeaderMapValue. by destruct (_ !! _).
  - destruct (getBuffer live type c); [|done]. by injection E1 as <- <- <-.
Qed.

(** The request body is not read either, so that a view of it may dangle. *)
Fixpoint no_body {W} (p : prog W) : Prop :=
  match p with
  | Ret _ => True
  | Do call k => match call with Foreign _ | GetBuffer HttpRequestBody => False | _ => True end /\ forall a, no_body (k a)
  end.

Lemma no_body_stream {W} (p : prog W) : no_body p -> no_stream p.
Proof. induction p as [w|call k IH]; [done|]. intros [G1 G2]. split; [by destruct call|]. intros a. apply IH, G2. Qed.

Lemma no_body_total {S} `{ResponseSink S} {W} live (p : prog W) : no_body p -> forall c (s : S), is_Some (run_prog live p c s).
Proof.
  induction p as [w|call k IH]; intros G c s; cbn; [eauto|]. destruct G as [G1 G2].
  assert (is_Some (host_step live call c s)) as [[a [c1 s1]] E]; [|rewrite E; cbn; apply IH, G2].
  destruct call; cbn [host_step]; eauto; [|done]. assert (is_Some (getBuffer live type c)) as [b ->]; [|cbn; eauto].
  destruct type; cbn; eauto. done.
Qed.

(** ** A chain whose modules do not stream *)

Section Quiet.
Context {Sk : Type} `{ResponseSink Sk} {W : Type} {open_scope : name -> W -> option ContextBase * W} {callback : name -> phase -> W -> prog W}.
Context (quiet : forall m ph w, no_stream (callback m ph w)).

Abbreviation chain := (Filters.chain Sk W).

Definition no_streams (f : chain) : Prop := contexts (fun c => stream_state c = Idle) f.

Lemma no_streams_settle m ph before after c c' s w (f : chain) : gives before -> no_streams f -> sfind m (scopes_ f) = Some (Some c) ->
  run_prog (body_gen f) (callback m ph (vms f)) (before (http_data f) c) (sink f) = Some (w, (c', s)) ->
  no_streams (settle m after c' (called m ph (before (http_data f) c) s w f)).
Proof using quiet.
  intros Hb Hn F R m' c1. rewrite scopes_settle. cbn [called scopes_]. rewrite sfind_smodify. destruct (decide (m = m')) as [<-|]; [|apply Hn].
  rewrite F. cbn. intros [= <-]. apply no_stream_same in R as [_ ->]; [|apply quiet]. destruct (Hb (http_data f) c) as [_ ->]. by eapply Hn.
Qed.

Lemma no_streams_headers loaded eos d s0 w (f : chain) : has_local_response d = false -> match loaded with Some ms => NoDup ms | None => True end ->
  onRequestHeaders open_scope callback loaded eos (new_chain d s0 w) = Some f -> no_streams f.
Proof using quiet.
  intros L Hd E. unfold onRequestHeaders in E. destruct loaded as [ms|]; [|by injection E as <-].
  refine (proj1 (request_headers_rule open_scope callback (fun f => no_streams f /\ smap_ok (scopes_ f)) eos _ _ ms _ f Hd _ _ _ E)).
  - done.
  - intros m b w0 c w1 s w2 c2 s2 g [Hn Hm] L1 N R1 f1 c1 R2. rewrite scopes_store. cbn [called scopes_ f1 set_vms]. split; [|by apply smap_ok_semplace].
    intros m' c'. rewrite scopes_store. cbn [called scopes_ f1 set_vms]. rewrite sfind_semplace by done.
    destruct (decide (m = m')) as [<-|]; [|apply Hn]. rewrite (proj2 (sfind_None m (scopes_ g)) N). intros [= <-].
    apply no_stream_same in R1 as [-> I1]; [|apply quiet]. apply no_stream_same in R2 as [_ ->]; [|apply quiet]. exact I1.
  - intros m _ X. by inversion X.
  - split; [by intros m c|constructor].
  - cbn. by rewrite synthesize_same.
Qed.

Lemma no_streams_phase ph before after modules (f f' : chain) : gives before -> no_streams f ->
  phase_loop callback modules ph before after f = Some f' -> no_streams f'.
Proof using quiet. apply phase_invariant. apply no_streams_settle. Qed.

(** Only the host moves the sink. *)
Lemma sink_phase ph before after modules (f f' : chain) : gives before ->
  phase_loop callback modules ph before after f = Some f' -> sink f' = sink f.
Proof using quiet.
  intros Hb. refine (phase_invariant (fun g => sink g = sink f) _ _ _ _ _ _ _ Hb eq_refl).
  intros m ph0 before0 after0 c c' s w g _ <- _ R. rewrite sink_settle. by apply no_stream_same in R as [-> _].
Qed.

Lemma sink_headers loaded eos d s0 w (f : chain) : has_local_response d = false -> match loaded with Some ms => NoDup ms | None => True end ->
  onRequestHeaders open_scope callback loaded eos (new_chain d s0 w) = Some f -> sink f = s0.
Proof using quiet.
  intros L Hd E. unfold onRequestHeaders in E. destruct loaded as [ms|]; [|by injection E as <-].
  refine (request_headers_rule open_scope callback (fun f => sink f = s0) eos _ _ ms _ f Hd _ _ _ E).
  - done.
  - intros m b w0 c w1 s w2 c2 s2 g <- L1 N R1 f1 c1 R2. rewrite sink_store. cbn [called sink].
    apply no_stream_same in R1 as [-> I1]; [|apply quiet]. by apply no_stream_same in R2 as [-> _].
  - intros m _ X. by inversion X.
  - done.
  - cbn. by rewrite synthesize_same.
Qed.

(** Closing the scopes. *)
Lemma quiet_destroy (f : chain) : (forall m w, no_body (callback m OnDone w) /\ no_body (callback m OnDelete w)) ->
  exists f', destroy callback f = Some f' /\ sink f' = sink f.
Proof using quiet.
  intros Hq. unfold destroy.
  assert (forall scopes (f : chain), exists f', destroy_scopes callback scopes f = Some f' /\ sink f' = sink f) as X.
  { induction scopes as [|[m [c|]] scopes IH]; intros g; cbn [destroy_scopes]; [by exists g| |by apply IH].
    destruct (no_body_total (body_gen g) (callback m OnDone (vms g)) (proj1 (Hq _ _)) c (sink g)) as [[w1 [c1 s1]] R1].
    rewrite (run_callback_eq _ _ _ _ _ _ _ _ R1). cbn [mbind option_bind]. apply no_stream_same in R1 as [-> _]; [|apply quiet].
    set (g1 := called m OnDone c (sink g) w1 g).
    destruct (no_body_total (body_gen g1) (callback m OnDelete (vms g1)) (proj2 (Hq _ _)) c1 (sink g1)) as [[w2 [c2 s2]] R2].
    rewrite (run_callback_eq _ _ _ _ _ _ _ _ R2). cbn [mbind option_bind]. apply no_stream_same in R2 as [-> _]; [|apply quiet].
    destruct (IH (called m OnDelete c1 (sink g1) w2 g1)) as (f' & -> & E). exists f'. by split. }
  destruct (X (reverse (scopes_ f)) f) as (f' & -> & E). cbn. by eexists.
Qed.

Lemma no_streams_none (f : chain) : chain_ok f -> no_streams f -> chain_hasStreamingResponse f = false.
Proof.
  intros Hok Hn. unfold chain_hasStreamingResponse, any_context. apply not_true_iff_false. rewrite existsb_exists. intros ([m [c|]] & Hin%list_elem_of_In & Hc); [|done].
  cbn in Hc. by rewrite (Hn m c) in Hc by (apply sfind_elem_ok; [apply Hok|done]).
Qed.
End Quiet.

(** ** A request is answered *)

Section Answered.
Context {W : Type} (open_scope : name -> W -> option ContextBase * W) (callback : name -> phase -> W -> prog W).
Context (loaded : option (list name)) (g_body_pacifier : bool) (fd : Z) (w0 : list Z).
Context (quiet : forall m ph w, no_stream (callback m ph w)) (loaded_names : match loaded with Some ms => NoDup ms | None => True end).

Abbreviation chain := (Filters.chain LsapiResponseSink W).

(** Nothing of a response is there yet, and the body can be read. *)
Definition unanswered (k : LsapiResponseSink) : Prop := lsapi_shows fd w0 k Sinks.Unused /\ body_ok (lsapi k).

Record quiet_ok (f : chain) : Prop := {
  qo_run : run_ok unanswered f;
  qo_streams : no_streams f
}.

Lemma quiet_sink f : quiet_ok f -> unanswered (sink f).
Proof. intros [[_ H1] H2]. by apply H1. Qed.

#[local] Lemma lsapi_callback_total live m ph w c (s : LsapiResponseSink) : fresh_view live c -> is_Some (run_prog live (callback m ph w) c s).
Proof using quiet. by apply no_stream_total. Qed.
#[local] Lemma lsapi_callback_idle live m ph w c (s : LsapiResponseSink) w' c' s' : run_prog live (callback m ph w) c s = Some (w', (c', s')) ->
  stream_state c' = Idle -> unanswered s -> unanswered s'.
Proof using quiet. intros R _. by apply no_stream_same in R as [-> _]. Qed.

(** A piece of the body is read. *)
Lemma read_piece want f : 0 <= want -> quiet_ok f -> exists n (bs : list Z) f1,
  with_request (LSAPI_ReadReqBody_r want) f = Some ((n, bs), f1) /\ quiet_ok f1 /\ same_chain f f1 /\ body_gen f1 = body_gen f /\
  (0 < want -> body (lsapi (sink f)) <> [] -> 0 < n) /\ zlen (body (lsapi (sink f))) <= zlen (body (lsapi (sink f1))) + Z.max 0 n.
Proof.
  intros Hw Hq. destruct (quiet_sink f Hq) as [(Hreq & He & Hr & Hl) Hb]. unfold with_request.
  destruct (ReadReqBody_r_run want (lsapi (sink f)) Hb Hw) as (s' & E & Eb & Hb').
  pose proof (keeps_ReadReqBody _ _ _ _ E) as V. rewrite E. set (b := body (lsapi (sink f))) in *. set (fail := _ && bool_decide _) in *.
  set (r := if fail then _ else _) in *. assert ((0 < want -> b <> [] -> 0 < r.1) /\ zlen b <= zlen (body s') + Z.max 0 r.1) as Hn.
  { rewrite Eb. assert (zlen b = zlen (take (Z.to_nat want) b) + zlen (drop (Z.to_nat want) b)) as Z1 by (rewrite <- zlen_app; by rewrite take_drop).
    pose proof (zlen_nonneg (take (Z.to_nat want) b)). subst r fail. destruct (bool_decide_reflect (b = [])) as [X|X].
    - split; [done|]. rewrite X. rewrite drop_nil. destruct (_ && _); cbn; lia.
    - rewrite andb_false_r. cbn. split; [|lia]. intros W0 _. rewrite zlen_take by lia. destruct b; [done|]. rewrite zlen_cons. pose proof (zlen_nonneg b). lia. }
  destruct r as [n bs]. cbn [fst mbind option_bind] in *.
  exists n, bs. eexists. split; [done|]. cbn [sink set_sink lsapi]. split; [|by repeat split; apply Hn]. destruct Hq as [Hq Hs]. split; [|exact Hs].
  apply (run_ok_same _ f); [by repeat split| |done]. intros _. split; [|done]. repeat (split; [done|]). split; [by apply (view_ready fd _ _ V)|by apply (view_live fd w0 _ _ _ V)].
Qed.

Lemma quiet_same f f1 : same_chain f f1 -> sink f1 = sink f -> quiet_ok f -> quiet_ok f1.
Proof.
  intros Es Ek [Hr Hn]. split; [apply (run_ok_same _ f); [done|by rewrite Ek|done]|]. destruct Es as (E & _). unfold no_streams, contexts in *. by rewrite E.
Qed.

Lemma quiet_body_piece eos bs f : quiet_ok f -> exists f1,
  onRequestBody callback eos (assign_request_body bs f) = Some f1 /\ quiet_ok f1 /\ fresh_or_answered f1 /\ sink f1 = sink f.
Proof using quiet.
  intros [Hr Hn]. destruct (run_body_piece unanswered lsapi_callback_total lsapi_callback_idle eos bs f Hr) as (f1 & E & H1 & F1).
  exists f1. split; [done|]. split; [split; [done|]|split; [done|]].
  - eapply no_streams_phase; [exact quiet| | |exact E]; done.
  - by eapply sink_phase in E; [exact E|exact quiet|].
Qed.

Lemma quiet_body_loop body_len : forall fuel consumed f, body_len - consumed <= Z.of_nat fuel -> quiet_ok f -> fresh_or_answered f ->
  exists whole f1, lsapi_body_loop callback fuel body_len consumed f = Some (whole, f1) /\ quiet_ok f1 /\ fresh_or_answered f1 /\
    (body_len - consumed <= zlen (body (lsapi (sink f))) -> whole = true).
Proof using quiet.
  induction fuel as [|fuel IH]; intros consumed f Hf Hq Hv; cbn [lsapi_body_loop];
    (destruct (Z.ltb_spec consumed body_len) as [L|L]; cbn [andb]; [|by eauto 10]); [lia|].
  destruct (negb _); [|by eauto 10]. destruct (read_piece (Z.min (body_len - consumed) BODY_CHUNK_SIZE) f) as (n & bs & f1 & -> & H1 & Es & Eg & Hn & Hz);
    [unfold BODY_CHUNK_SIZE; lia|done|]. cbn [mbind option_bind]. destruct (Z.leb_spec n 0).
  - exists false, f1. split; [done|]. split; [done|]. split.
    + intros L1. apply (fresh_same f); [done|done|]. apply Hv. destruct Es as (_ & _ & _ & <- & _). done.
    + intros Hb. enough (0 < n) by lia. apply Hn; [unfold BODY_CHUNK_SIZE; lia|]. intros X. rewrite X in Hb. change (zlen []) with 0 in Hb. lia.
  - destruct (quiet_body_piece (body_len <=? consumed + n) bs f1 H1) as (f2 & -> & H2 & F2 & S2). cbn [mbind option_bind].
    destruct (IH (consumed + n) f2) as (whole & f3 & E3 & H3 & F3 & W3); [lia|done|done|]. exists whole, f3. repeat (split; [done|]).
    intros Hb. apply W3. rewrite S2. lia.
Qed.

(** How the handler ends: with an answer, or without one. *)
Definition ends_with (answers : Prop) (e : lsapi_end) (f : chain) : Prop :=
  match e with
  | LocalResponse => has_local_response (http_data f) = true
  | DefaultResponse => has_local_response (http_data f) = false
  | Streamed => False
  | GivenUp => ~ answers
  end.

Lemma quiet_response_phases answers f : quiet_ok f -> fresh_views f -> exists e f1,
  lsapi_response_phases callback g_body_pacifier f = Some (e, f1) /\ quiet_ok f1 /\ ends_with answers e f1.
Proof using quiet.
  intros Hq Hv. unfold lsapi_response_phases. set (f0 := lsapi_default_response _ f).
  assert (quiet_ok f0) as [H0 N0] by by apply (quiet_same f).
  destruct (run_responses unanswered lsapi_callback_total lsapi_callback_idle f0) as (f1 & f2 & f3 & E1 & E2 & E3 & H3); [done|done|].
  rewrite E1; cbn [mbind option_bind]. rewrite E2; cbn [mbind option_bind]. rewrite E3; cbn [mbind option_bind].
  assert (no_streams f3) as N3.
  { eapply no_streams_phase; [exact quiet| | |exact E3]; [done|]. eapply no_streams_phase; [exact quiet| | |exact E2]; [done|].
    eapply no_streams_phase; [exact quiet| | |exact E1]; done. }
  rewrite (no_streams_none f3) by (done || apply H3). destruct (has_local_response (http_data f3)) eqn:L; by eexists _, f3.
Qed.

Lemma quiet_request_phases body_len f : quiet_ok f -> fresh_views f -> exists e f1,
  lsapi_request_phases callback g_body_pacifier body_len f = Some (e, f1) /\ quiet_ok f1 /\
  ends_with (body_len <= zlen (body (lsapi (sink f)))) e f1.
Proof using quiet.
  intros Hq Hv. unfold lsapi_request_phases. set (answers := body_len <= _).
  assert (exists whole f1, (if 0 <? body_len then lsapi_body_loop callback (Z.to_nat body_len) body_len 0 f else Some (true, f)) = Some (whole, f1) /\
    quiet_ok f1 /\ fresh_or_answered f1 /\ (answers -> whole = true)) as (whole & f1 & -> & H1 & F1 & W1).
  { destruct (Z.ltb_spec 0 body_len).
    - destruct (quiet_body_loop body_len (Z.to_nat body_len) 0 f) as (whole & f1 & E & H1 & F1 & W1); [lia|done|by intros _|].
      exists whole, f1. repeat (split; [done|]). intros A. apply W1. unfold answers in A. lia.
    - exists true, f. split; [done|]. split; [done|]. split; [|done]. by intros _. }
  cbn [mbind option_bind]. destruct whole; cbn [negb]; [|exists GivenUp, f1; repeat (split; [done|]); by intros A%W1].
  destruct (has_local_response (http_data f1)) eqn:L; cbn [mbind option_bind].
  { rewrite L. by eexists _, f1. }
  destruct H1 as [R1 N1]. destruct (run_trailers unanswered lsapi_callback_total lsapi_callback_idle f1) as (f2 & E2 & R2 & F2); [done|by apply F1|].
  rewrite E2. cbn [mbind option_bind]. assert (quiet_ok f2) as H2.
  { split; [done|]. eapply no_streams_phase; [exact quiet| | |exact E2]; done. }
  destruct (has_local_response (http_data f2)) eqn:L2; [by eexists _, f2|].
  rewrite (no_streams_none f2) by (apply R2 || apply H2). by apply quiet_response_phases.
Qed.

Lemma quiet_phases s d s1 w : m_fd (req s) = fd -> w0 = sent_on fd (os s) -> ready fd s -> fresh_response s ->
  lsapi_request s = Some (d, s1) -> body_ok s1 ->
  exists e f, lsapi_phases open_scope callback loaded g_body_pacifier s w = Some (e, f) /\ unanswered (sink f) /\ first_answer f /\
    ends_with (m_reqBodyLen (m_in (req s1)) <= zlen (body s1)) e f.
Proof using quiet loaded_names.
  intros Hfd Hw Hr Hf E Hb. unfold lsapi_phases. rewrite E. cbn [mbind option_bind]. unfold LSAPI_GetReqBodyLen_r, get_in, gets. cbn [mbind option_bind].
  set (body_len := m_reqBodyLen _). pose proof (keeps_lsapi_request _ _ _ E) as V.
  assert (has_local_response d = false) as L.
  { unfold lsapi_request in E. repeat (apply bind_inv in E as (? & ? & _ & E); cbv zeta beta in E; try match type of E with (let '(_, _) := ?x in _) _ = _ => destruct x end).
    by injection E as <- _. }
  assert (unanswered (new_LsapiResponseSink s1)) as U.
  { split; [|done]. repeat (split; [done|]). split; [by apply (view_ready fd _ _ V)|]. apply (view_live fd w0 _ _ _ V). rewrite Hw. by apply live_fresh. }
  destruct (run_request_headers (open_scope := open_scope) unanswered lsapi_callback_total lsapi_callback_idle loaded (negb (0 <? body_len)) d
    (new_LsapiResponseSink s1) w L loaded_names U) as (f & Ef & Rf & Ff).
  rewrite Ef. cbn [mbind option_bind].
  assert (quiet_ok f) as Hq by (split; [done|by eapply no_streams_headers; [exact quiet|exact L|exact loaded_names|exact Ef]]).
  destruct (has_local_response (http_data f)) eqn:Lf.
  - exists LocalResponse, f. split; [done|]. split; [by apply quiet_sink|]. split; [apply Rf|done].
  - destruct (quiet_request_phases body_len f Hq Ff) as (e & f1 & -> & H1 & He). exists e, f1. split; [done|]. split; [by apply quiet_sink|]. split; [apply H1|].
    assert (sink f = new_LsapiResponseSink s1) as Es by (by eapply sink_headers; [exact quiet|exact L|exact loaded_names|exact Ef]).
    by rewrite Es in He.
Qed.

(** ** The response *)

(** What a whole response is, as the sink takes it. *)
Definition whole_response (r : option (Z * HeaderPairs * list Z)) : response :=
  match r with
  | None => empty_response
  | Some (status_code, headers, bytes) =>
      let '(ok, a) := head_spec status_code headers empty_response in
      match ok, bytes with
      | true, _ :: _ => mkResponse (begin_stage (rp_stage a)) (rp_status a) (rp_headers a) (rp_body a ++ bytes) (rp_err a)
      | _, _ => a
      end
  end.

Definition small_response (r : option (Z * HeaderPairs * list Z)) : Prop :=
  match r with Some (_, headers, bytes) => small_headers headers /\ zlen bytes < 2 ^ 63 | None => True end.

(** A step of the sink on its request. *)
Lemma on_request_wp (m : M bool) k (Q : bool -> st -> Prop) : wp m Q (lsapi k) ->
  exists ok s', on_request m k = Some (ok, mkLsapiSink (req_ k) (lsapi_error_ k || negb ok) s') /\ Q ok s'.
Proof. intros (ok & s' & E & HQ)%wp_run. exists ok, s'. unfold on_request. by rewrite E. Qed.

Lemma respond_spec n headers bytes (f : chain) : lsapi_shows fd w0 (sink f) Sinks.Unused -> small_response (Some (n, headers, bytes)) ->
  exists f', respond n headers bytes f = Some f' /\ same_chain f f' /\ step_post fd w0 (whole_response (Some (n, headers, bytes))) (lsapi (sink f')).
Proof.
  intros (Hreq & He & Hr & Hl) [Hh Hb]. unfold respond, sendHeaders, writeBody, finishBody, lsapi_sink, lsapi_sendHeaders. rewrite Hreq. cbn [negb].
  destruct (on_request_wp (lsapi_head n headers) (sink f) (fun ok s' => ready fd s' /\ live fd w0 (head_spec n headers empty_response).2 s' /\
    ok = (head_spec n headers empty_response).1)) as (ok & s1 & -> & Hr1 & Hl1 & Eok); [by apply (live_head fd w0 n headers empty_response)|].
  cbn [mbind option_bind whole_response]. destruct (head_spec n headers empty_response) as [ok1 a]. cbn [fst snd] in *. subst ok1.
  unfold lsapi_writeBody, lsapi_finishBody. cbn [req_ lsapi_error_]. rewrite Hreq, He. cbn [negb orb].
  assert (forall f' : chain, lsapi (sink f') = s1 -> step_post fd w0 a (lsapi (sink f'))) as Same by (intros f' ->; split; [done|by left]).
  destruct ok; cbn [negb orb mbind option_bind]; [|eexists; split; [done|split; [by repeat split|by apply Same]]].
  assert (forall a' s, ready fd s -> live fd w0 a' s -> exists f',
    ('(_, k) ← on_request (r ← LSAPI_Flush_r; mret (negb (r <? 0))) (mkLsapiSink true false s); Some (set_sink k f) : option chain) = Some f' /\
    same_chain f f' /\ step_post fd w0 a' (lsapi (sink f'))) as Fin.
  { intros a' s Hrs Hls. destruct (on_request_wp (r ← LSAPI_Flush_r; mret (negb (r <? 0))) (mkLsapiSink true false s)
      (fun _ s' => step_post fd w0 a' s')) as (ok2 & s2 & -> & P2).
    { wsteps. apply (live_flush fd w0 a'); [done..|]. intros r s' P. wsteps. by eapply io_step. }
    cbn [mbind option_bind]. eexists. split; [done|]. split; [by repeat split|done]. }
  destruct bytes as [|b bytes]; [rewrite bool_decide_true by done; by apply Fin|rewrite bool_decide_false by done].
  set (a1 := mkResponse _ _ _ _ _). set (bs := b :: bytes) in *.
  destruct (on_request_wp (written ← LSAPI_Write_r (Some bs) (zlen bs); mret (negb (written <? 0))) (mkLsapiSink true false s1)
    (fun ok s' => ready fd s' /\ (ok = true /\ live fd w0 a1 s' \/ ok = false /\ dead fd w0 (rp_stage a1) s'))) as (ok2 & s2 & -> & Hr2 & P2).
  { wsteps. apply (live_write fd w0 a); [done..|]. intros r s' [Hr2 [[H0 H2]|[-> H2]]]; wsteps; (split; [done|]); [left|right; done].
    split; [|exact H2]. apply negb_true_iff. apply Z.ltb_ge. lia. }
  cbn [mbind option_bind req_ lsapi_error_]. destruct P2 as [[-> L2]|[-> D2]]; cbn [negb orb]; [by apply Fin|].
  cbn [mbind option_bind]. eexists. split; [done|]. split; [by repeat split|]. split; [done|by right].
Qed.
End Answered.

(** ** The body *)

Section Body.
Context {W : Type} (open_scope : name -> W -> option ContextBase * W) (callback : name -> phase -> W -> prog W).
Context (loaded : option (list name)) (g_body_pacifier : bool).
Context (quiet : forall m ph w, no_stream (callback m ph w)) (loaded_names : match loaded with Some ms => NoDup ms | None => True end).

Abbreviation chain := (Filters.chain LsapiResponseSink W).

(** The host reads the request between the phases. *)
Abbreviation any_sink := (fun _ _ : LsapiResponseSink => True).
Abbreviation advance := (ChainSpec.advance (Sk := LsapiResponseSink) callback any_sink).
Abbreviation body_run := (ChainSpec.body_run (Sk := LsapiResponseSink) callback any_sink).

Lemma lsapi_loop_run body_len : forall fuel consumed f whole f', body_ok (lsapi (sink f)) ->
  lsapi_body_loop callback fuel body_len consumed f = Some (whole, f') ->
  exists ds, body_run f (marks body_len consumed ds) f' /\ Forall (fun d => d <> []) ds /\ mjoin ds `prefix_of` body (lsapi (sink f)) /\
    (whole = true -> has_local_response (http_data f') = false -> consumed <= body_len -> consumed + zlen (mjoin ds) = body_len).
Proof using quiet.
  induction fuel as [|fuel IH]; intros consumed f whole f' Hb E; cbn [lsapi_body_loop] in E;
    (destruct ((consumed <? body_len) && negb (has_local_response (http_data f))) eqn:G;
     [|injection E as <- <-; exists []; split; [by constructor|]; split; [constructor|]; split; [apply prefix_nil|];
       intros _ L ?; rewrite L, andb_true_r in G; apply Z.ltb_ge in G; change (mjoin []) with (@nil Z); rewrite (zlen_nil (A:=Z)); lia]); [done|].
  apply andb_prop in G as [G%Z.ltb_lt _]. set (want := Z.min (body_len - consumed) BODY_CHUNK_SIZE) in E.
  assert (0 < want <= body_len - consumed) as Hw by (unfold want, BODY_CHUNK_SIZE; lia).
  destruct (ReadReqBody_r_run want (lsapi (sink f)) Hb ltac:(lia)) as (s' & R & Eb & Hb').
  unfold with_request in E. rewrite R in E. set (b := body (lsapi (sink f))) in *. set (fail := _ && bool_decide _) in E.
  destruct fail; cbn [mbind option_bind] in E; [change (-1 <=? 0) with true in E|destruct (Z.leb_spec (zlen (take (Z.to_nat want) b)) 0) as [Hz|Hz]]; cbv iota in E.
  1, 2: injection E as <- <-; exists []; split; [by constructor; repeat split|]; split; [constructor|]; split; [apply prefix_nil|done].
  set (d := take (Z.to_nat want) b) in *. set (f1 := set_sink _ f) in E. destruct (onRequestBody callback _ _) as [f2|] eqn:E2; [|done]. cbn [mbind option_bind] in E.
  assert (sink f2 = sink f1) as Es2 by (by eapply sink_phase in E2; [exact E2|exact quiet|]).
  apply IH in E as (ds & B & F & Pr & Z1); [|by rewrite Es2]. exists (d :: ds). cbn [marks]. rewrite mjoin_cons, zlen_app.
  split; [apply (BodyCons f f1 f2); [by repeat split|exact E2|exact B]|]. split; [constructor; [intros X; rewrite X in Hz; by change (zlen []) with 0 in Hz|done]|]. split.
  - pose proof (take_drop (Z.to_nat want) b) as T. fold d in T. rewrite <- T. apply prefix_app. rewrite Es2 in Pr. cbn in Pr. by rewrite Eb in Pr.
  - intros Hwh L Hc. specialize (Z1 Hwh L). enough (zlen d <= want) by lia. unfold d. rewrite zlen_take by lia. lia.
Qed.

Lemma lsapi_response_run f e f' : lsapi_response_phases callback g_body_pacifier f = Some (e, f') ->
  advance 1 f 4 f' /\ (e = DefaultResponse -> has_local_response (http_data f') = false).
Proof.
  unfold lsapi_response_phases, onResponseHeaders, onResponseBody, onResponseTrailers. set (f0 := lsapi_default_response _ f). intros E.
  destruct (phase_loop _ (module_order_ f0) _ _ _ f0) as [f1|] eqn:E1; [|done]. cbn [mbind option_bind] in E.
  destruct (phase_loop _ (module_order_ f1) _ _ _ f1) as [f2|] eqn:E2; [|done]. cbn [mbind option_bind] in E.
  destruct (phase_loop _ (module_order_ f2) _ _ _ f2) as [f3|] eqn:E3; [|done]. cbn [mbind option_bind] in E. injection E as Ee <-. split.
  2: { intros ->. by destruct (has_local_response (http_data f3)), (chain_hasStreamingResponse f3). }
  apply (AdvHost _ _ f0); [by repeat split|]. eapply AdvPhase; [| | |exact E1|]; [done..|].
  eapply AdvPhase; [| | |exact E2|]; [done..|]. eapply AdvPhase; [| | |exact E3|]; [done..|]. constructor.
Qed.

Lemma lsapi_request_run_phases body_len f e f' : lsapi_request_phases callback g_body_pacifier body_len f = Some (e, f') ->
  exists whole f1 k, (if 0 <? body_len then lsapi_body_loop callback (Z.to_nat body_len) body_len 0 f else Some (true, f)) = Some (whole, f1) /\
    advance 0 f1 k f' /\ (e <> GivenUp -> whole = true) /\ (e = DefaultResponse -> has_local_response (http_data f') = false).
Proof.
  unfold lsapi_request_phases. intros E. destruct (if 0 <? body_len then _ else _) as [[whole f1]|] eqn:E0; [|done]. cbn [mbind option_bind] in E.
  exists whole, f1. destruct whole; cbn [negb] in E.
  2: { injection E as <- <-. exists 0%nat. split; [done|]. split; [constructor|]. by split. }
  destruct (has_local_response (http_data f1)) eqn:L; cbn [mbind option_bind] in E.
  { rewrite L in E. injection E as <- <-. exists 0%nat. split; [done|]. split; [constructor|]. by split. }
  destruct (onRequestTrailers callback f1) as [f2|] eqn:E2; [|done]. cbn [mbind option_bind] in E. unfold onRequestTrailers in E2.
  assert (forall k, advance 1 f2 k f' -> advance 0 f1 k f') as Adv by (intros k; by eapply AdvPhase; [| | |exact E2]).
  destruct (has_local_response (http_data f2)).
  { injection E as <- <-. exists 1%nat. split; [done|]. split; [apply Adv; constructor|]. by split. }
  destruct (chain_hasStreamingResponse f2).
  { injection E as <- <-. exists 1%nat. split; [done|]. split; [apply Adv; constructor|]. split; [done|]. unfold lsapi_end_streaming. by destruct (chain_isStreamingFinished f2). }
  apply lsapi_response_run in E as [A L0]. exists 4%nat. by repeat split; auto.
Qed.

(** C9. The body of an LSAPI request reaches every module.  The modules do not stream.  When
    the handler ends with the response of the host, every module of the chain has seen the
    same pieces in the same order: together they are exactly the announced length of the
    body of the packet, no piece is empty, and the end of the stream is signalled with the
    last piece and no other. *)
Theorem lsapi_body_reaches_modules (s s1 : st) (d : HttpData) (w : W) (f : chain) :
  lsapi_request s = Some (d, s1) -> body_ok s1 -> 0 < m_reqBodyLen (m_in (req s1)) ->
  lsapi_phases open_scope callback loaded g_body_pacifier s w = Some (DefaultResponse, f) ->
  exists init last,
    zlen (mjoin init ++ last) = m_reqBodyLen (m_in (req s1)) /\ mjoin init ++ last `prefix_of` body s1 /\
    Forall (fun d => d <> []) (init ++ [last]) /\
    forall m, m ∈ module_order_ f -> bodies_of m (trace f) = ((fun d => (d, false)) <$> init) ++ [(last, true)].
Proof.
  intros E Hb Hp Eph. unfold lsapi_phases in Eph. rewrite E in Eph. cbn [mbind option_bind] in Eph. unfold LSAPI_GetReqBodyLen_r, get_in, gets in Eph.
  cbn [mbind option_bind] in Eph. set (body_len := m_reqBodyLen _) in *.
  assert (has_local_response d = false) as Ld.
  { clear Eph. unfold lsapi_request in E. repeat (apply bind_inv in E as (? & ? & _ & E); cbv zeta beta in E; try match type of E with (let '(_, _) := ?x in _) _ = _ => destruct x end).
    by injection E as <- _. }
  destruct (onRequestHeaders _ _ _ _ _) as [f0|] eqn:E0; [|done]. cbn [mbind option_bind] in Eph.
  pose proof (stage_headers _ _ _ _ _ _ Ld loaded_names E0) as [H0 S0]. pose proof (fun m => headers_no_body _ _ _ _ _ _ m E0) as B0.
  assert (sink f0 = new_LsapiResponseSink s1) as Es by (by eapply sink_headers; [exact quiet|exact Ld|exact loaded_names|exact E0]).
  destruct (has_local_response (http_data f0)); [done|]. apply lsapi_request_run_phases in Eph as (whole & f1 & k & E1 & A & Hwh & L).
  specialize (Hwh ltac:(done)). specialize (L eq_refl). subst whole. rewrite (proj2 (Z.ltb_lt 0 body_len)) in E1 by done.
  assert (has_local_response (http_data f1) = false) as L1 by (eapply advance_local; [exact A|exact L]).
  apply lsapi_loop_run in E1 as (ds & B & F & Pr & Z1); [|by rewrite Es]. rewrite Es in Pr. specialize (Z1 eq_refl L1 ltac:(lia)).
  assert (ds <> []) as Nd by (intros ->; change (mjoin []) with (@nil Z) in Z1; rewrite (zlen_nil (A:=Z)) in Z1; lia).
  destruct (body_run_seen _ _ _ B H0 L1) as (O1 & _ & S1). pose proof (stage_body_run _ _ _ _ B H0 S0) as [H1 _].
  destruct (marks_last body_len ds 0) as (init & last & -> & M); [lia|done|done|].
  exists init, last. rewrite join_app in Z1, Pr. cbn in Z1, Pr. rewrite app_nil_r in Z1, Pr. repeat (split; [done|]).
  intros m. destruct (advance_bodies _ _ _ _ m A H1) as [Ba Oa]. rewrite Oa, O1. intros Hm. by rewrite Ba, S1, B0, M.
Qed.
End Body.

(** The response half of a request before its first response. *)
Definition empty_out (o : resp_out) : Prop := resp_ok [] [] [] o /\ m_pIovecCur o = 1 /\ m_pIovecToWrite o = 1 /\ m_status o = 0.

Section Served.
Context {W : Type} (open_scope : name -> W -> option ContextBase * W) (callback : name -> phase -> W -> prog W).
Context (loaded : option (list name)) (g_body_pacifier : bool).
Context (quiet : forall m ph w, no_stream (callback m ph w)) (loaded_names : match loaded with Some ms => NoDup ms | None => True end).
Context (closing : forall m w, no_body (callback m OnDone w) /\ no_body (callback m OnDelete w)).

(** What is known about a request that has been served: how the handler ended, the state
    behind its answer, and the end of the response. *)
Record served (fd : Z) (s : st) (w : W) (e : lsapi_end) (f f1 : Filters.chain LsapiResponseSink W) (w' : W) (s' : st) : Prop := {
  sv_phases : lsapi_phases open_scope callback loaded g_body_pacifier s w = Some (e, f);
  sv_first : first_answer f;
  sv_body : body_ok (lsapi (sink f));
  sv_answer : lsapi_answer e f = Some f1;
  sv_ready : ready fd (lsapi (sink f1));
  sv_finish : LSAPI_Finish_r (lsapi (sink f1)) = Some (0, s');
  sv_run : serve_request open_scope callback loaded g_body_pacifier w s = Some (w', s');
  sv_wire : wire_post fd (sent_on fd (os s)) (whole_response (response_of e (http_data f))) s';
  sv_state : m_reqState (req (lsapi (sink f1))) <> 0;
  sv_reset : m_fd (req s') = fd -> resp_ok [] [] [] (m_out (req s')) /\ false ∉ k_allocs (os s')
}.

Lemma serve_request_spec (fd : Z) (s s1 : st) (d : HttpData) (w : W) :
  m_fd (req s) = fd -> ready fd s -> fresh_response s -> lsapi_request s = Some (d, s1) -> body_ok s1 ->
  (forall e f, lsapi_phases open_scope callback loaded g_body_pacifier s w = Some (e, f) -> small_response (response_of e (http_data f))) ->
  exists e f f1 w' s', served fd s w e f f1 w' s' /\ ends_with (m_reqBodyLen (m_in (req s1)) <= zlen (body s1)) e f.
Proof using quiet loaded_names closing.
  intros Hfd Hr Hf E Hb Hs. set (w0 := sent_on fd (os s)).
  destruct (quiet_phases open_scope callback loaded g_body_pacifier fd w0 quiet loaded_names s d s1 w Hfd eq_refl Hr Hf E Hb) as (e & f & Ep & [U Ub] & Hfirst & He).
  specialize (Hs _ _ Ep). exists e, f.
  assert (exists f1, lsapi_answer e f = Some f1 /\ step_post fd w0 (whole_response (response_of e (http_data f))) (lsapi (sink f1))) as (f1 & E1 & P1).
  { unfold lsapi_answer. destruct (response_of e (http_data f)) as [[[n hs] bs]|].
    - destruct (respond_spec fd w0 n hs bs f U Hs) as (f1 & E1 & _ & P1). by exists f1.
    - destruct U as (_ & _ & Hr1 & Hl1). exists f. split; [done|]. split; [done|by left]. }
  destruct (quiet_destroy (callback := callback) quiet f1 closing) as (f2 & E2 & Es2). pose proof (proj1 P1) as R1. pose proof (step_post_state _ _ _ _ P1) as St1.
  apply finish_step_reset in P1. apply wp_run in P1 as (r & s' & Er & -> & Hwire & Hreset).
  exists f1, (vms f2), s'. split; [|done]. split; try done.
  unfold serve_request, lsapi_handle_request. unfold mbind at 1, M_bind. rewrite Ep. cbn [mbind option_bind]. rewrite E1. cbn [mbind option_bind].
  rewrite E2. cbn [mbind option_bind]. rewrite Es2. unfold mbind, M_bind. by rewrite Er.
Qed.

(** C2. An LSAPI request that no module streams gets one answer.  Assumed of the modules:
    distinct names, no call of the streaming functions or of any other foreign function, no
    reading of the request body in [onDone] and [onDelete], and an answer whose names and
    values are below 2^29 and whose body is below 2^63 bytes; of the request: it has just
    been read, its response is untouched, its body can be read; of the rest: memory to be
    had, and a kernel as in [response_refinement] (short counts below a packet header in
    all).  Then the handler and [LSAPI_Finish_r] come to an end without undefined
    behaviour; unless the body breaks off before its announced length the handler ends with
    the local response of a module, the first that answered, or with the response of the
    host when none has; and what is on the wire is that one response with its status, its
    headers and its body (or a prefix of its packets on a connection that has been closed).
    [Transfer-Encoding] is left out of the headers, a text ends at its NUL, and behind a
    header that LSAPI refuses for its limits neither further headers nor the body follow
    ([whole_response]). *)
Theorem lsapi_request_answered (fd : Z) (s s1 : st) (d : HttpData) (w : W) :
  m_fd (req s) = fd -> ready fd s -> fresh_response s -> lsapi_request s = Some (d, s1) -> body_ok s1 ->
  (forall e f, lsapi_phases open_scope callback loaded g_body_pacifier s w = Some (e, f) -> small_response (response_of e (http_data f))) ->
  exists e f w' s',
    lsapi_phases open_scope callback loaded g_body_pacifier s w = Some (e, f) /\
    ends_with (m_reqBodyLen (m_in (req s1)) <= zlen (body s1)) e f /\ first_answer f /\
    serve_request open_scope callback loaded g_body_pacifier w s = Some (w', s') /\
    wire_post fd (sent_on fd (os s)) (whole_response (response_of e (http_data f))) s'.
Proof.
  intros Hfd Hr Hf E Hb Hs. destruct (serve_request_spec fd s s1 d w Hfd Hr Hf E Hb Hs) as (e & f & f1 & w' & s' & [] & He).
  by exists e, f, w', s'.
Qed.

(** What a request that arrives on a connection that waits is to the handler. *)
Lemma arrival_run (ctx : lsapi_MD5Context) (fd : Z) (big : bool) (r : request_image) (content : list Z) (s : st) (method script query : list Z) :
  image_ok r -> (big = true -> swappable r) -> separated r ->
  load_str (image big false false r []) (ri_requestMethod r) = Some method ->
  load_str (image big false false r []) (ri_scriptName r) = Some script ->
  load_str (image big false false r []) (ri_queryString r) = Some query ->
  waiting fd s -> fd <> 2 -> fd <> m_fdListen (req s) -> s_stderr_log_path (os s) = false -> s_skip_write (os s) = false ->
  empty_out (m_out (req s)) ->
  8 <= first_piece (k_reads (os s)) -> incoming s = wire big r ++ content -> zlen content = ri_bodyLen r ->
  exists i evs allocs s2, let s1 := request_read fd i evs allocs s in
    readReq ctx s = Some (0, s1) /\
    lsapi_request s1 = Some (mkHttpData method (request_path script query) (str "HTTP/1.1") (request_pairs r) [] [] [] false 0 [] [], s2) /\
    m_fd (req s1) = fd /\ ready fd s1 /\ fresh_response s1 /\ body_ok s2 /\ body s2 = content /\ m_reqBodyLen (m_in (req s2)) = zlen content.
Proof using.
  intros Hok Hsw Hsep L1 L2 L3 Hw H2 Hlisten Hlog Hskip Hresp Hfirst Hin Hz.
  destruct (readReq_run ctx fd big r content s Hok Hsw Hw Hfirst Hin ltac:(lia)) as (i & evs & allocs & slack & R & Hp & Hm & Hslack & Hbp & Hb & Eb & Hal).
  set (s1 := request_read fd i evs allocs s) in *. destruct Hw as [[Hfd Hfd0] _ _ _ _ Hwr _ _].
  assert (forall off v, load_str (image big false false r []) off = Some v -> load_str (m_pReqBuf (m_in (req s1))) off = Some v) as Str.
  { intros off v. change (m_in (req s1)) with i. rewrite Hm, (image_slack big false false r slack). apply load_str_app. }
  destruct (lsapi_request_run big r slack s1 method script query Hok Hp Hslack Hm Hsep (Str _ _ L1) (Str _ _ L2) (Str _ _ L3)) as (mem & Hc & E).
  destruct (cut_body big r slack s1 mem Hok Hm Hsep Hc ltac:(change (m_in (req s1)) with i; lia) Hb) as [Hb2 Eb2].
  eexists i, evs, allocs, _. cbv zeta. fold s1. split; [exact R|]. split; [exact E|]. split; [done|]. split; [|split; [|split; [exact Hb2|split; [by rewrite Eb2|]]]].
  - split; [done|done| |done|done|exact Hal]. split; [exact Hskip|]. change (k_writes (os s1)) with (k_writes (os s)). by rewrite Hwr.
  - destruct Hresp as (X1 & X2 & X3 & X4). split; [|exact X4]. by split.
  - rewrite Hz. exact (pa_body _ _ Hp).
Qed.

(** An exchange: a request that arrives on a connection that waits, and its response. *)
Lemma exchange_run (ctx : lsapi_MD5Context) (fd : Z) (big : bool) (r : request_image) (content : list Z) (s : st) (w : W) (method script query : list Z) :
  image_ok r -> (big = true -> swappable r) -> separated r ->
  load_str (image big false false r []) (ri_requestMethod r) = Some method ->
  load_str (image big false false r []) (ri_scriptName r) = Some script ->
  load_str (image big false false r []) (ri_queryString r) = Some query ->
  waiting fd s -> fd <> 2 -> fd <> m_fdListen (req s) -> s_stderr_log_path (os s) = false -> s_skip_write (os s) = false ->
  empty_out (m_out (req s)) ->
  8 <= first_piece (k_reads (os s)) -> incoming s = wire big r ++ content -> zlen content = ri_bodyLen r ->
  (forall s1 e f, readReq ctx s = Some (0, s1) -> lsapi_phases open_scope callback loaded g_body_pacifier s1 w = Some (e, f) ->
     small_response (response_of e (http_data f))) ->
  exists i evs allocs d s2 e f f1 w' s', let s1 := request_read fd i evs allocs s in
    readReq ctx s = Some (0, s1) /\ lsapi_request s1 = Some (d, s2) /\
    hd_method d = method /\ hd_path d = request_path script query /\ request_headers d = request_pairs r /\
    served fd s1 w e f f1 w' s' /\ (e = LocalResponse \/ e = DefaultResponse).
Proof.
  intros Hok Hsw Hsep L1 L2 L3 Hw H2 Hlisten Hlog Hskip Hresp Hfirst Hin Hz Hsmall.
  destruct (arrival_run ctx fd big r content s method script query Hok Hsw Hsep L1 L2 L3 Hw H2 Hlisten Hlog Hskip Hresp Hfirst Hin Hz)
    as (i & evs & allocs & s2 & R & E & Hfd & Hr & Hf & Hb2 & Eb2 & El).
  set (s1 := request_read fd i evs allocs s) in *.
  destruct (serve_request_spec fd s1 _ _ w Hfd Hr Hf E Hb2 (fun e f => Hsmall s1 e f R)) as (e & f & f1 & w' & s' & Hsv & He).
  eexists i, evs, allocs, _, _, e, f, f1, w', s'. split; [exact R|]. split; [exact E|]. do 3 (split; [done|]). split; [exact Hsv|].
  rewrite Eb2, El in He. destruct e; cbn in He; [by left|by right|done|lia].
Qed.

(** What was sent behind the acknowledgement. *)
Lemma sent_request_read fd i evs allocs s : sent_on fd (os (request_read fd i evs allocs s)) = sent_on fd (os s) ++ pkt_bytes s_ack.
Proof. unfold sent_on. cbn. by rewrite filter_app, fmap_app, concat_app, filter_cons_True, filter_nil by done. Qed.

(** C3. From the bytes of a request to the bytes of its response.  On a connection that waits
    for a request, in a worker that is no longer root, notifies nobody of accepted
    requests and has no log of its own for stderr, a request packet in either byte order
    and its whole body arrive; the first piece has at least the 8 bytes of a packet header
    (with a shorter one the request is lost, [readReq_short_first_piece]), the pieces
    behind it are any, and the header values are [separated].  The kernel accepts every
    write and memory is to be had; the modules have distinct names, do not call the
    streaming or other foreign functions, do not read the body in [onDone] and [onDelete],
    and answer with names and values below 2^29 and a body below 2^63 bytes.  Then
    [readReq] takes the request; the chain sees the method, path and headers of the packet;
    the handler ends with a local response or that of the host; and what follows the
    acknowledgement on the wire is that one response, or a prefix of its packets on a
    connection that has been closed. *)
Theorem lsapi_end_to_end (ctx : lsapi_MD5Context) (fd : Z) (big : bool) (r : request_image) (content : list Z) (s : st) (w : W) (method script query : list Z) :
  image_ok r -> (big = true -> swappable r) -> separated r ->
  load_str (image big false false r []) (ri_requestMethod r) = Some method ->
  load_str (image big false false r []) (ri_scriptName r) = Some script ->
  load_str (image big false false r []) (ri_queryString r) = Some query ->
  waiting fd s -> fd <> 2 -> fd <> m_fdListen (req s) -> s_stderr_log_path (os s) = false -> s_skip_write (os s) = false ->
  empty_out (m_out (req s)) ->
  8 <= first_piece (k_reads (os s)) -> incoming s = wire big r ++ content -> zlen content = ri_bodyLen r ->
  (forall s1 e f, readReq ctx s = Some (0, s1) -> lsapi_phases open_scope callback loaded g_body_pacifier s1 w = Some (e, f) ->
     small_response (response_of e (http_data f))) ->
  exists s1 d s2 e f w' s',
    readReq ctx s = Some (0, s1) /\
    lsapi_request s1 = Some (d, s2) /\ hd_method d = method /\ hd_path d = request_path script query /\ request_headers d = request_pairs r /\
    lsapi_phases open_scope callback loaded g_body_pacifier s1 w = Some (e, f) /\ (e = LocalResponse \/ e = DefaultResponse) /\
    serve_request open_scope callback loaded g_body_pacifier w s1 = Some (w', s') /\
    wire_post fd (sent_on fd (os s) ++ pkt_bytes s_ack) (whole_response (response_of e (http_data f))) s'.
Proof.
  intros Hok Hsw Hsep L1 L2 L3 Hw H2 Hlisten Hlog Hskip Hresp Hfirst Hin Hz Hsmall.
  destruct (exchange_run ctx fd big r content s w method script query Hok Hsw Hsep L1 L2 L3 Hw H2 Hlisten Hlog Hskip Hresp Hfirst Hin Hz Hsmall)
    as (i & evs & allocs & d & s2 & e & f & f1 & w' & s' & R & E & Em & Epa & Eh & [] & He).
  rewrite sent_request_read in *. by exists (request_read fd i evs allocs s), d, s2, e, f, w', s'.
Qed.
End Served.

(** ** Filters to try the theorems on *)

(** The VM state selects what the modules do: read the body and set a length (0), or answer
    at the request trailers (1). *)
Definition lsapi_demo_open (m : name) (w : nat) : option ContextBase * nat := (Some (mkBase (Some []) None (Some []) []), w).

Definition lsapi_demo (m : name) (ph : phase) (w : nat) : prog nat :=
  match ph, w with
  | OnRequestBody _ _, _ => Do (GetBuffer HttpRequestBody) (fun _ => Ret w)
  | OnResponseHeaders _, 0%nat => Do (AddHeaderMapValue ResponseHeaders (str "content-length") (str "99")) (fun _ => Ret w)
  | OnRequestTrailers, 1%nat => Do (SendLocalResponse 403 (str "no") [(str "X", str "y"); (str "Transfer-Encoding", str "chunked")] []) (fun _ => Ret w)
  | _, _ => Ret w
  end.

Lemma lsapi_demo_quiet m ph w : no_stream (lsapi_demo m ph w).
Proof. destruct ph, w as [|[|w]]; try exact I; (split; [exact I|intros; exact I]). Qed.

Lemma lsapi_demo_closing m w : no_body (lsapi_demo m OnDone w) /\ no_body (lsapi_demo m OnDelete w).
Proof. by destruct w as [|[|w]]. Qed.

Definition lsapi_modules : list name := [str "auth"; str "log"].

Lemma lsapi_modules_NoDup : NoDup lsapi_modules.
Proof. apply (bool_decide_unpack _). vm_compute. exact I. Qed.

Abbreviation web_phases w s := (lsapi_phases lsapi_demo_open lsapi_demo (Some lsapi_modules) true s w).

(** [small_response], computed. *)
Definition small_response_b (r : option (Z * HeaderPairs * list Z)) : bool :=
  match r with
  | Some (_, headers, bytes) => forallb (fun h => (zlen h.1 <? 2 ^ 29) && (zlen h.2 <? 2 ^ 29)) headers && (zlen bytes <? 2 ^ 63)
  | None => true
  end.

Lemma small_response_check r : small_response_b r = true -> small_response r.
Proof.
  destruct r as [[[n hs] bs]|]; [|done]. intros [F Z1%Z.ltb_lt]%andb_prop. split; [|done]. rewrite forallb_forall in F. apply Forall_forall.
  intros h Hh%list_elem_of_In%F. apply andb_prop in Hh as [?%Z.ltb_lt ?%Z.ltb_lt]. done.
Qed.

Lemma lsapi_request_answered_witness :
  exists e f w' s',
    web_phases 1%nat web_parsed = Some (e, f) /\ e = LocalResponse /\
    serve_request lsapi_demo_open lsapi_demo (Some lsapi_modules) true 1%nat web_parsed = Some (w', s') /\
    wire_post 7 [] (whole_response (Some (403, [(str "X", str "y"); (str "Transfer-Encoding", str "chunked")], str "no"))) s'.
Proof.
  destruct session_start_ok as (H1 & H2 & H3). assert (response_view web_parsed = response_view session_start) as V by reflexivity.
  destruct lsapi_request_built_witness as (hs & s1 & E & _ & Hb & _).
  assert (match web_phases 1%nat web_parsed with
    | Some (e, f) => match e with LocalResponse => true | _ => false end &&
        bool_decide (response_of e (http_data f) = Some (403, [(str "X", str "y"); (str "Transfer-Encoding", str "chunked")], str "no"))
    | None => false end = true) as X by (vm_compute; reflexivity).
  assert (fresh_response web_parsed) as Hf by (destruct H3 as [[A B C] D]; split; [split; [exact A|exact B|exact C]|exact D]).
  destruct (web_phases 1%nat web_parsed) as [[e0 f0]|] eqn:Ep; [|discriminate X].
  destruct (lsapi_request_answered lsapi_demo_open lsapi_demo (Some lsapi_modules) true lsapi_demo_quiet lsapi_modules_NoDup lsapi_demo_closing
    7 web_parsed s1 _ 1%nat eq_refl (view_ready 7 _ _ V H2) Hf E Hb) as (e & f & w' & s' & Ep' & _ & _ & Es & P).
  - intros e f Ee. rewrite Ep in Ee. injection Ee as <- <-. apply andb_prop in X as [_ X%bool_decide_eq_true]. rewrite X.
    apply small_response_check. vm_compute. reflexivity.
  - rewrite Ep in Ep'. injection Ep' as <- <-. apply andb_prop in X as [X1 X%bool_decide_eq_true]. rewrite X in P.
    exists e0, f0, w', s'. split; [reflexivity|]. split; [destruct e0; [reflexivity|discriminate X1..]|]. split; [exact Es|exact P].
Defined.

Lemma lsapi_body_reaches_modules_witness :
  match web_phases 0%nat web_parsed with
  | Some (e, f) => exists init last,
      zlen (mjoin init ++ last) = 7 /\ mjoin init ++ last `prefix_of` str "abcdefg" /\ Forall (fun d => d <> []) (init ++ [last]) /\
      forall m, m ∈ module_order_ f -> bodies_of m (trace f) = ((fun d => (d, false)) <$> init) ++ [(last, true)]
  | None => False
  end.
Proof.
  destruct lsapi_request_built_witness as (hs & s1 & E & _ & Hb & Eb).
  assert (match web_phases 0%nat web_parsed with Some (DefaultResponse, _) => true | _ => false end = true) as X by (vm_compute; reflexivity).
  assert (match lsapi_request web_parsed with Some (_, s) => m_reqBodyLen (m_in (req s)) =? 7 | None => false end = true) as Y by (vm_compute; reflexivity).
  rewrite E in Y. apply Z.eqb_eq in Y.
  destruct (web_phases 0%nat web_parsed) as [[[] f]|] eqn:Ep; try discriminate X.
  destruct (lsapi_body_reaches_modules lsapi_demo_open lsapi_demo (Some lsapi_modules) true lsapi_demo_quiet lsapi_modules_NoDup
    web_parsed s1 _ 0%nat f E Hb) as (init & last & Z1 & Z2 & Z3 & Z4); [rewrite Y; reflexivity|exact Ep|].
  exists init, last. rewrite Y in Z1. rewrite Eb in Z2. split; [exact Z1|]. split; [exact Z2|]. split; [exact Z3|exact Z4].
Defined.

(** The same request on the connection, in big-endian order and in three pieces. *)
Definition web_stream : list Z := wire true web_request ++ str "abcdefg".

Definition web_waiting : st :=
  on_os (fun _ => set_k_reads ((fun p => mkRev false (RData p)) <$> [take 20 web_stream; take 100 (drop 20 web_stream); drop 120 web_stream]) (os st0))
    (on_in (fun _ => m_in (req st0)) session_start).

Lemma web_waiting_ok : waiting 7 web_waiting.
Proof.
  split.
  - split; [done|lia].
  - split; [done|]. repeat (constructor; [split; [done|vm_compute; discriminate]|]). constructor.
  - done.
  - by vm_compute.
  - apply not_elem_of_nil.
  - done.
  - discriminate.
  - done.
Qed.

Lemma lsapi_end_to_end_witness :
  exists s1 d s2 e f w' s',
    readReq ctx0 web_waiting = Some (0, s1) /\
    lsapi_request s1 = Some (d, s2) /\ hd_method d = str "POST" /\ hd_path d = str "/x?q=1" /\
    web_phases 0%nat s1 = Some (e, f) /\ (e = LocalResponse \/ e = DefaultResponse) /\
    serve_request lsapi_demo_open lsapi_demo (Some lsapi_modules) true 0%nat s1 = Some (w', s') /\
    wire_post 7 (pkt_bytes s_ack) (whole_response (response_of e (http_data f))) s'.
Proof.
  assert (match readReq ctx0 web_waiting with
    | Some (_, s1) => match web_phases 0%nat s1 with Some (e, f) => small_response_b (response_of e (http_data f)) | None => true end
    | None => true end = true) as X by (vm_compute; reflexivity).
  destruct session_start_ok as (_ & _ & [[A _ [B1 [B2 _]]] C]).
  destruct (lsapi_end_to_end lsapi_demo_open lsapi_demo (Some lsapi_modules) true lsapi_demo_quiet lsapi_modules_NoDup lsapi_demo_closing
    ctx0 7 true web_request (str "abcdefg") web_waiting 0%nat (str "POST") (str "/x") (str "q=1"))
    as (s1 & d & s2 & e & f & w' & s' & R & E & E1 & E2 & _ & E4 & E5 & E6 & E7).
  - exact web_request_ok.
  - intros _. split; [|reflexivity]. cbn [ri_index web_request replicate Z.to_nat app]. repeat (apply Forall_cons_2; [cbn; done|]). apply Forall_nil_2.
  - exact web_separated.
  - vm_compute. reflexivity.
  - vm_compute. reflexivity.
  - vm_compute. reflexivity.
  - exact web_waiting_ok.
  - discriminate.
  - discriminate.
  - reflexivity.
  - reflexivity.
  - split; [exact A|]. split; [exact B1|]. split; [exact B2|exact C].
  - vm_compute. discriminate.
  - vm_compute. reflexivity.
  - reflexivity.
  - intros s1 e f R Ep. rewrite R in X. rewrite Ep in X. by apply small_response_check.
  - exists s1, d, s2, e, f, w', s'. split; [exact R|]. split; [exact E|]. split; [exact E1|]. split; [exact E2|]. split; [exact E4|].
    split; [exact E5|]. split; [exact E6|exact E7].
Defined.
