(* ===== verification/LsapiLoop.v ===== *)
(** * The LSAPI process from start to end

    [LSAPI_Init] of lsapilib.c and [run_lsapi_loop] of main.cpp: the set-up of the process,
    then requests one after the other, the module being loaded behind the first. *)

From S2P Require Export Env LsapiHandler.

Open Scope Z_scope.

(** ** Initialisation *)

(** What [LSAPI_Init] asks the system: the effective user, the copy of descriptor 0 and
    whether it is connected, the parent. *)
Record init_in := mkInit {
  in_euid : Z;
  in_dup : Z;
  in_pipe : bool;
  in_ppid : Z
}.

Definition LSAPI_Init (g_inited : bool) (i : init_in) (v : statics) : M (Z * statics) :=
  if g_inited then mret (0, v)
  else
    mod_os (set_s_uid (in_euid i)) ;;
    secret ← get_os s_secret;
    secret ← lift (store secret 0 [0]);
    mod_os (set_s_secret secret) ;;
    r ← LSAPI_InitRequest (in_dup i) (in_pipe i);
    if r =? -1 then mret (-1, v) else mret (0, set_s_ppid (in_ppid i) v).

(** ** The loop *)

(** What one turn of the loop finds: the events of [LSAPI_Prefork_Accept_r] ([ctx] is the
    uninitialised MD5 context on the stack), in a server also its turns, and whether
    [g_shutdown] is set behind it. *)
Record loop_in := mkLoopIn {
  li_ctx : lsapi_MD5Context;
  li_evs : list sel_ev;
  li_now : Z;
  li_mmap : bool;
  li_turns : list turn;
  li_pid : Z;
  li_enough_mem : bool;
  li_shutdown : bool
}.

Definition server_of (i : loop_in) (p : prefork) : server_part := mkServerPart p (li_mmap i) (li_turns i) (li_pid i) (li_enough_mem i).

(** The process has left the loop with an exit code; or is in it still, as a worker or as
    the parent. *)
Inductive loop_end (W : Type) :=
| Exited (code : Z)
| InLoop (module_loaded : bool) (wk : worker) (server : option prefork) (w : W)
| InParent (p : prefork).

Arguments Exited {W} code.
Arguments InLoop {W} module_loaded wk server w.
Arguments InParent {W} p.

Definition custom_filter : name := str "custom_filter".

Section Loop.
Context {W : Type} (open_scope : name -> W -> option ContextBase * W) (callback : name -> phase -> W -> prog W).
(** Loading the module: whether it succeeds, and the VMs behind it. *)
Context (load : W -> bool * W) (g_body_pacifier : bool).

Fixpoint accept_rounds (ins : list loop_in) (module_loaded : bool) (wk : worker) (server : option prefork) (w : W) : M (loop_end W) :=
  match ins with
  | [] => mret (InLoop module_loaded wk server w)
  | i :: ins =>
      a ← LSAPI_Prefork_Accept_r (server_of i <$> server) (li_ctx i) (li_evs i) (li_now i) wk;
      match a with
      | Serving p => mret (InParent p)
      | Returned ret wk server =>
          if ret <? 0 then mret (Exited 0)
          else if li_shutdown i then mret (Exited 0)
          else
            let '(ok, w) := if module_loaded then (true, w) else load w in
            if negb ok then LSAPI_Finish_r ;; mret (Exited 0)
            else
              w ← serve_request open_scope callback (Some [custom_filter]) g_body_pacifier w;
              accept_rounds ins true wk server w
      end
  end.

Definition run_lsapi_loop (ii : init_in) (i : inputs) (ins : list loop_in) (v : statics) (w : W) : M (loop_end W) :=
  '(r, v) ← LSAPI_Init false ii v;
  if r <? 0 then mret (Exited 1)
  else
    '(_, v) ← LSAPI_Init_Env_Parameters i v;
    accept_rounds ins false (st_worker v) (g_prefork_server v) w.
End Loop.
