(* ===== verification/LsapiLoopSpec.v ===== *)
(** * What the LSAPI process promises

    The books of a worker balance whatever its modules do; on a connection that is kept
    alive every request gets its own answer. *)

From S2P Require Import HttpUtilsSpec.
From S2P Require Export LsapiLoop LsapiHandlerSpec ChainFrame WorkerSpec EnvSpec.

Open Scope Z_scope.

(** ** The sink keeps the frame *)

Section Sink.
Context (R : relation st) `{!ResponseFrame R}.

Lemma frame_append_headers hs : stable R (append_headers hs).
Proof. induction hs; cbn [append_headers]; keep. Qed.
#[local] Hint Resolve frame_append_headers : keeps.
Lemma frame_lsapi_head n hs : stable R (lsapi_head n hs).
Proof. unfold lsapi_head. keep. Qed.
#[local] Hint Resolve frame_lsapi_head : keeps.

(** The sinks whose requests are related. *)
Definition sink_frame (k k' : LsapiResponseSink) : Prop := R (lsapi k) (lsapi k').

#[export] Instance sink_frame_preorder : PreOrder sink_frame.
Proof. split; [intros k; unfold sink_frame; reflexivity|]. intros k1 k2 k3 H1 H2. unfold sink_frame in *. by transitivity (lsapi k2). Qed.

Lemma on_request_frame (m : M bool) k b k' : stable R m -> on_request m k = Some (b, k') -> sink_frame k k'.
Proof. intros Hm. unfold on_request. destruct (m (lsapi k)) as [[ok s]|] eqn:E; [|done]. cbn. intros [= _ <-]. by apply Hm in E. Qed.

Lemma sink_frame_head n hs streaming k b k' : sendHeaders n hs streaming k = Some (b, k') -> sink_frame k k'.
Proof.
  cbn. unfold lsapi_sendHeaders. destruct (req_ k); cbn [negb]; [apply on_request_frame; auto with keeps nocore|].
  intros [= _ <-]. unfold sink_frame. reflexivity.
Qed.

Lemma sink_frame_body data k b k' : writeBody data k = Some (b, k') -> sink_frame k k'.
Proof.
  cbn. unfold lsapi_writeBody. destruct (_ || _); [intros [= _ <-]; unfold sink_frame; reflexivity|].
  case_bool_decide; [intros [= _ <-]; unfold sink_frame; reflexivity|]. apply on_request_frame. keep.
Qed.

Lemma sink_frame_finish k b k' : finishBody k = Some (b, k') -> sink_frame k k'.
Proof.
  cbn. unfold lsapi_finishBody. destruct (_ || _); [intros [= _ <-]; unfold sink_frame; reflexivity|].
  apply on_request_frame. keep.
Qed.

Lemma respond_moves {W} n hs bs (f f' : chain LsapiResponseSink W) : respond n hs bs f = Some f' -> sink_frame (sink f) (sink f').
Proof.
  unfold respond. destruct (sendHeaders _ _ _ _) as [[b1 k1]|] eqn:E1; [|done]. cbn [mbind option_bind].
  destruct (writeBody bs k1) as [[b2 k2]|] eqn:E2; [|done]. cbn [mbind option_bind].
  destruct (finishBody k2) as [[b3 k3]|] eqn:E3; [|done]. cbn. intros [= <-]. cbn.
  apply sink_frame_head in E1. apply sink_frame_body in E2. apply sink_frame_finish in E3.
  transitivity k1; [done|]. by transitivity k2.
Qed.

End Sink.

(** ** Handling a request keeps the frame *)

Section Served.
Context (R : relation st) `{!Frame R}.

Lemma frame_c_string p : stable R (c_string p).
Proof. unfold c_string. keep. Qed.
Lemma frame_header_cb c hs : stable R (lsapi_header_cb c hs).
Proof. unfold lsapi_header_cb. keep. Qed.
#[local] Hint Resolve frame_c_string frame_header_cb : keeps.
Lemma frame_known_header i : stable R (known_header i).
Proof. unfold known_header. keep. Qed.
#[local] Hint Resolve frame_known_header : keeps.
Lemma frame_GetHeader i : stable R (LSAPI_GetHeader_r i).
Proof. unfold LSAPI_GetHeader_r, put_nul. keep. Qed.
#[local] Hint Resolve frame_GetHeader : keeps.
Lemma frame_each_known n : forall i c hs, stable R (each_known lsapi_header_cb n i c hs).
Proof. induction n; intros; cbn [each_known]; unfold http_text; keep. Qed.
Lemma frame_each_unknown n : forall i c hs, stable R (each_unknown lsapi_header_cb n i c hs).
Proof. induction n; intros; cbn [each_unknown]; unfold unknown_header_at, http_text; keep. Qed.
#[local] Hint Resolve frame_each_known frame_each_unknown : keeps.

Lemma frame_lsapi_request : stable R lsapi_request.
Proof.
  unfold lsapi_request, lsapi_path, add_missing, LSAPI_GetRequestMethod_r, LSAPI_GetScriptName_r, LSAPI_GetQueryString_r,
    LSAPI_ForeachHeader_r. keep.
Qed.

Lemma frame_ReadReqBody bufLen : stable R (LSAPI_ReadReqBody_r bufLen).
Proof.
  assert (forall fuel n acc, stable R (ReadReqBody_loop fuel n acc)) by (induction fuel; intros; cbn [ReadReqBody_loop]; keep).
  unfold LSAPI_ReadReqBody_r, take_buffered. keep.
Qed.

End Served.

(** ** The handler *)

Section Handler.
Context (R : relation st) `{!ResponseFrame R} (R_request : stable R lsapi_request) (R_body : forall n, stable R (LSAPI_ReadReqBody_r n)).
Context {W : Type} (open_scope : name -> W -> option ContextBase * W) (callback : name -> phase -> W -> prog W).
Context (loaded : option (list name)) (g_body_pacifier : bool).

Abbreviation chain := (Filters.chain LsapiResponseSink W).
Abbreviation moves f f' := (sink_frame R (sink f) (sink f')).

Lemma with_request_moves {A} (m : M A) (f : chain) a f' : stable R m -> with_request m f = Some (a, f') -> moves f f'.
Proof. intros Hm. unfold with_request. destruct (m _) as [[x s]|] eqn:E; [|done]. cbn. intros [= _ <-]. by apply Hm in E. Qed.

Lemma phase_frame ph before after modules (f f' : chain) : phase_loop callback modules ph before after f = Some f' -> moves f f'.
Proof. apply (phase_moves (sink_frame R) (sink_frame_head R) (sink_frame_body R) (sink_frame_finish R)). Qed.

Lemma body_loop_moves body_len : forall fuel consumed (f : chain) whole f',
  lsapi_body_loop callback fuel body_len consumed f = Some (whole, f') -> moves f f'.
Proof.
  induction fuel as [|fuel IH]; intros consumed f whole f' E; cbn [lsapi_body_loop] in E; (destruct (_ && _); [|injection E as _ <-; reflexivity]); [done|].
  destruct (with_request _ f) as [[[n bs] f1]|] eqn:E1; [|done]. cbn [mbind option_bind] in E.
  apply with_request_moves in E1; [|apply R_body]. destruct (n <=? 0); [by injection E as _ <-|].
  destruct (onRequestBody _ _ _) as [f2|] eqn:E2; [|done]. cbn [mbind option_bind] in E. apply phase_frame in E2. apply IH in E.
  transitivity (sink f1); [done|]. by transitivity (sink f2).
Qed.

Lemma response_phases_moves (f : chain) e f' : lsapi_response_phases callback g_body_pacifier f = Some (e, f') -> moves f f'.
Proof.
  unfold lsapi_response_phases. destruct (onResponseHeaders _ _) as [f1|] eqn:E1; [|done]. cbn [mbind option_bind].
  destruct (onResponseBody _ f1) as [f2|] eqn:E2; [|done]. cbn [mbind option_bind].
  destruct (onResponseTrailers _ f2) as [f3|] eqn:E3; [|done]. cbn [mbind option_bind]. intros [= _ <-].
  apply phase_frame in E1, E2, E3. transitivity (sink f1); [done|]. by transitivity (sink f2).
Qed.

Lemma request_phases_moves body_len (f : chain) e f' : lsapi_request_phases callback g_body_pacifier body_len f = Some (e, f') -> moves f f'.
Proof.
  unfold lsapi_request_phases. intros E.
  destruct (if 0 <? body_len then _ else _) as [[whole f1]|] eqn:E1; [|done]. cbn [mbind option_bind] in E.
  assert (moves f f1) as M1.
  { destruct (0 <? body_len); [by apply body_loop_moves in E1|]. injection E1 as _ <-. reflexivity. }
  destruct whole; cbn [negb] in E; [|by injection E as _ <-].
  destruct (if has_local_response (http_data f1) then _ else _) as [f2|] eqn:E2; [|done]. cbn [mbind option_bind] in E.
  assert (moves f1 f2) as M2.
  { destruct (has_local_response (http_data f1)); [injection E2 as <-; reflexivity|by apply phase_frame in E2]. }
  transitivity (sink f1); [done|]. destruct (has_local_response (http_data f2)); [by injection E as _ <-|].
  destruct (chain_hasStreamingResponse f2); [by injection E as _ <-|]. apply response_phases_moves in E. by transitivity (sink f2).
Qed.

Lemma lsapi_phases_moves s w e (f : chain) : lsapi_phases open_scope callback loaded g_body_pacifier s w = Some (e, f) -> R s (lsapi (sink f)).
Proof.
  unfold lsapi_phases. destruct (lsapi_request s) as [[d s1]|] eqn:E1; [|done]. apply R_request in E1. cbn [mbind option_bind].
  unfold LSAPI_GetReqBodyLen_r, get_in, gets. cbn [mbind option_bind]. destruct (onRequestHeaders _ _ _ _ _) as [f1|] eqn:E2; [|done].
  cbn [mbind option_bind]. apply (onRequestHeaders_moves (sink_frame R) (sink_frame_head R) (sink_frame_body R) (sink_frame_finish R)) in E2.
  unfold sink_frame in E2. cbn in E2. intros E. transitivity s1; [done|].
  destruct (has_local_response _); [by injection E as _ <-|]. apply request_phases_moves in E. by transitivity (lsapi (sink f1)).
Qed.

Lemma frame_handle_request w : stable R (lsapi_handle_request open_scope callback loaded g_body_pacifier w).
Proof.
  intros s w' s'. unfold lsapi_handle_request. destruct (lsapi_phases _ _ _ _ _ _) as [[e f]|] eqn:E; [|done]. cbn [mbind option_bind].
  apply lsapi_phases_moves in E. destruct (lsapi_answer e f) as [f1|] eqn:E1; [|done]. cbn [mbind option_bind].
  destruct (destroy callback f1) as [f2|] eqn:E2; [|done]. cbn. intros [= _ <-].
  apply (destroy_moves (sink_frame R) (sink_frame_head R) (sink_frame_body R) (sink_frame_finish R)) in E2. unfold sink_frame in E2.
  transitivity (lsapi (sink f1)); [|done]. transitivity (lsapi (sink f)); [done|].
  unfold lsapi_answer in E1. destruct (response_of _ _) as [[[n hs] bs]|]; [by apply (respond_moves R) in E1|injection E1 as <-; reflexivity].
Qed.

End Handler.

(** Whatever the modules do, a request is served inside the frame. *)
Lemma frame_serve_request (R : relation st) `{!Frame R} {W} open_scope callback loaded g_body_pacifier (w : W) :
  stable R (serve_request open_scope callback loaded g_body_pacifier w).
Proof. unfold serve_request. pose proof (frame_handle_request R (frame_lsapi_request R) (frame_ReadReqBody R) open_scope callback loaded g_body_pacifier w). keep. Qed.


(** ** The books of a worker *)

Section Loop.
Context {W : Type} (open_scope : name -> W -> option ContextBase * W) (callback : name -> phase -> W -> prog W).
Context (load : W -> bool * W) (g_body_pacifier : bool).

Abbreviation rounds ins := (accept_rounds open_scope callback load g_body_pacifier ins).

Lemma rounds_settled b ins : Forall (fun i => Forall quiet_ev (li_evs i)) ins -> forall loaded wk w s e s',
  settled b s -> rounds ins loaded wk None w s = Some (e, s') ->
  settled b s' /\ match e with InParent _ => False | InLoop _ _ server _ => server = None | Exited code => code = 0 end.
Proof.
  induction 1 as [|i ins Q F IH]; intros loaded wk w s e s' S H; cbn [accept_rounds] in H; [by injection H as <- <-|].
  apply bind_inv in H as (a & s1 & Ha & H). pose proof (Prefork_Accept_settled _ _ _ _ b _ _ _ Q S Ha) as S1.
  assert (exists ret wk1, a = Returned ret wk1 None) as (ret & wk1 & ->).
  { cbn [fmap option_fmap option_map] in Ha. unfold LSAPI_Prefork_Accept_r in Ha. apply bind_inv in Ha as (skip & t & _ & Ha).
    destruct skip; [injection Ha as <- _; eauto|]. apply bind_inv in Ha as (x & t1 & _ & Ha). apply bind_inv in Ha as (u & t2 & _ & Ha).
    apply bind_inv in Ha as ([r1 w1] & t3 & _ & [= <- _]). eauto. }
  destruct (ret <? 0); [by injection H as <- <-|]. destruct (li_shutdown i); [by injection H as <- <-|].
  destruct (if loaded then (true, w) else load w) as [ok w1]. destruct ok; cbn [negb] in H.
  - apply bind_inv in H as (w2 & s2 & Hs & H). apply (frame_serve_request steady) in Hs. apply (settled_steady _ _ _ Hs) in S1. by eapply IH.
  - apply bind_inv in H as (x & s2 & Hf & [= <- <-]). apply (frame_finish steady) in Hf. by apply (settled_steady _ _ _ Hf) in S1.
Qed.

(** C17. The books of an LSAPI process over its whole life.  A worker whose slot and whose
    count of busy workers agree with its connection (as [prefork_child] leaves them) runs
    the loop of [run_lsapi_loop]: it accepts connections, reads requests, loads its module,
    serves every request through modules that may call anything, streaming functions
    included.  Wherever it stops, errors and lost connections included, it has not become
    a parent, and the SIGCHLD handler that forgets its slot brings the count of busy
    workers back to that of the other processes. *)
Theorem lsapi_loop_balances (ins : list loop_in) (module_loaded : bool) (wk : worker) (w : W) (e : loop_end W)
    (s s' : st) (b : Z) (c : lsapi_child_status) (i : nat) (p : prefork) :
  Forall (fun i => Forall quiet_ev (li_evs i)) ins -> settled b s ->
  accept_rounds open_scope callback load g_body_pacifier ins module_loaded wk None w s = Some (e, s') ->
  s_worker_status (os s') = Some c -> table p !! i = Some c -> pf_busy p = s_busy_workers (os s') ->
  is_s32 b -> is_s32 (b + 1) ->
  pf_busy (forget_child i p) = Some b /\
  match e with InParent _ => False | InLoop _ _ server _ => server = None | Exited code => code = 0 end.
Proof.
  intros Q S H Hc Ht Hp B1 B2. destruct (rounds_settled b ins Q _ _ _ _ _ _ S H) as [S' He].
  split; [by eapply forget_child_balances|done].
Qed.
End Loop.

(** ** A connection that is kept alive *)

(** With a kernel that accepts every write, the response operations leave all this alone. *)
Definition rest_view (s : st) :=
  (m_in (req s), m_fdListen (req s), (s_uid (os s), s_accept_notify (os s), s_notified_pid (os s), s_schedule_notify (os s)),
   (s_skip_write (os s), s_stderr_log_path (os s), k_writes (os s), k_reads (os s))).

Definition calm (s s' : st) : Prop := k_writes (os s) = [] -> rest_view s' = rest_view s.

#[export] Instance calm_preorder : PreOrder calm.
Proof.
  split; [by intros s _|]. intros s1 s2 s3 H1 H2 E. specialize (H1 E). rewrite H2; [done|].
  transitivity (k_writes (os s1)); [|done]. exact (f_equal (fun x => x.2.1.2) H1).
Qed.

Lemma keeps_calm {A} (m : M A) : keeps rest_view m -> stable calm m.
Proof. intros Hk s a s' E _. by eapply Hk. Qed.

Lemma rest_write_ev fd data : keeps rest_view (sys_write_ev (mkWev false WAll) fd data).
Proof. unfold sys_write_ev, signal_stop. cbn [w_stop w_res]. keep. Qed.

#[export] Instance calm_frame : ResponseFrame calm.
Proof.
  split; [exact _| | | |].
  - unfold calm, response_side, process_view, rest_view. congruence.
  - intros fd data s r s' E Hk. unfold sys_write, next_write in E. apply bind_inv in E as (ev & s1 & E1 & E).
    unfold mbind, M_bind, get_os, gets in E1. rewrite Hk in E1. injection E1 as <- <-. by eapply rest_write_ev.
  - intros fd vec pos n total s r s' E Hk. unfold lsapi_writev in E. apply bind_inv in E as (skip & s1 & [= <- <-] & E).
    destruct (s_skip_write (os s)); [by injection E as _ <-|]. apply bind_inv in E as (evs & s1 & [= <- <-] & E). rewrite Hk in E.
    assert (keeps rest_view (writev_loop [] fd vec pos n total total)) as X by (pose proof (rest_write_ev fd); cbn [writev_loop]; keep).
    by eapply X.
  - apply keeps_calm. unfold lsapi_close_connection, lsapi_close, count_busy, worker_state.
    assert (forall evs fd, keeps rest_view (close_loop evs fd)) by (induction evs; intros; cbn [close_loop]; unfold sys_close_ev, signal_stop; keep).
    keep.
Qed.

(** What reading a request and its body leaves alone as well. *)
Definition setting (s : st) :=
  (m_fdListen (req s), (s_uid (os s), s_accept_notify (os s), s_notified_pid (os s), s_schedule_notify (os s)), s_skip_write (os s)).

#[export] Instance setting_frame : Frame (agree setting).
Proof.
  split; [exact _| |].
  - unfold process_view, agree, setting. congruence.
  - unfold lsapi_close_connection, lsapi_close, count_busy, worker_state.
    assert (forall evs fd, keeps setting (close_loop evs fd)) by (induction evs; intros; cbn [close_loop]; unfold sys_close_ev, signal_stop; keep).
    keep.
Qed.

Definition untroubled (s s' : st) : Prop :=
  k_writes (os s) = [] -> setting s' = setting s /\ s_stderr_log_path (os s') = s_stderr_log_path (os s) /\ k_writes (os s') = [].

#[export] Instance untroubled_preorder : PreOrder untroubled.
Proof.
  split; [by intros s|]. intros s1 s2 s3 H1 H2 E. destruct (H1 E) as (A1 & B1 & C1). destruct (H2 C1) as (A2 & B2 & C2).
  split; [congruence|]. split; [congruence|done].
Qed.

Lemma calm_untroubled s s' : calm s s' -> untroubled s s'.
Proof. intros H E. specialize (H E). unfold rest_view in H. unfold setting. injection H. intros. repeat split; congruence. Qed.

#[export] Instance untroubled_frame : ResponseFrame untroubled.
Proof.
  split; [exact _| | | |].
  - intros s s' E. apply calm_untroubled. by apply (rf_view (R := calm)).
  - intros fd data s r s' E. apply calm_untroubled. by apply (rf_write (R := calm)) in E.
  - intros fd vec pos n total s r s' E. apply calm_untroubled. by apply (rf_writev (R := calm)) in E.
  - intros s r s' E. apply calm_untroubled. by apply (rf_close (R := calm)) in E.
Qed.

Lemma untroubled_request {A} (m : M A) : stable (agree setting) m -> keeps response_view m -> stable untroubled m.
Proof.
  intros H1 H2 s a s' E Hk. pose proof (H1 _ _ _ E) as E1. pose proof (H2 _ _ _ E) as E2. unfold agree in *. split; [done|].
  unfold response_view in E2. injection E2. intros. split; congruence.
Qed.

Lemma untroubled_phases {W} open_scope callback loaded g_body_pacifier s (w : W) e f :
  lsapi_phases open_scope callback loaded g_body_pacifier s w = Some (e, f) -> untroubled s (lsapi (sink f)).
Proof.
  apply (lsapi_phases_moves untroubled).
  - apply untroubled_request; [apply frame_lsapi_request; exact _|apply keeps_lsapi_request].
  - intros n. apply untroubled_request; [apply frame_ReadReqBody; exact _|apply keeps_ReadReqBody].
Qed.

(** The end of a response: the response operations, and the reset. *)
Definition reset_request (s : st) : st :=
  on_req (fun q => set_m_reqState 0 (set_m_in (reset_in (m_in q))
    (set_m_out (reset_out (set_m_pRespHeaderBufPos 0 (set_m_pIovecCur 1 (set_m_pIovecToWrite 1 (set_m_pRespBufPos 0 (m_out q)))))) q))) s.

Lemma finish_calm s r s' : m_reqState (req s) <> 0 -> LSAPI_Finish_r s = Some (r, s') -> exists s1, calm s s1 /\ s' = reset_request s1.
Proof.
  intros Hs E. unfold LSAPI_Finish_r in E. apply bind_inv in E as (state & t & [= <- <-] & E). rewrite (proj2 (Z.eqb_neq _ _) Hs) in E.
  apply bind_inv in E as (fd & t & [= <- <-] & E). apply bind_inv in E as ([] & s1 & E1 & E). apply bind_inv in E as ([] & s2 & [= <-] & [= _ <-]).
  exists s1. split; [|done]. revert E1. generalize (m_fd (req s)). intros fd. revert s s1 Hs. intros s s1 _. revert s s1.
  enough (stable calm (if fd =? -1 then mret tt else ensure_finalized ;; flush_body ;; push_finish LSAPI_PACKET_HEADER_LEN ;; LSAPI_Flush_r ;; mret tt))
    as X by (intros s s1; apply X).
  unfold ensure_finalized, flush_body, push_finish, Flush_RespBuf_r, push_iov, add_total, set_iov, set_pkt, set_state_bit, has_state. keep.
Qed.

(** A connection on which the worker waits for the next request, with a kernel that accepts
    every write and has memory. *)
Record at_rest (fd : Z) (s : st) : Prop := {
  ar_fd : m_fd (req s) = fd /\ 0 <= fd /\ fd <> 2 /\ fd <> m_fdListen (req s);
  ar_read : m_bufRead (m_in (req s)) = 0 /\ m_reqBodyRead (m_in (req s)) = 0;
  ar_buf : zlen (m_pReqBuf (m_in (req s))) < 2 ^ 31;
  ar_mem : false ∉ k_allocs (os s);
  ar_writes : k_writes (os s) = [];
  ar_uid : s_uid (os s) <> 0;
  ar_notify : s_accept_notify (os s) = false /\ s_notified_pid (os s) = false /\ s_schedule_notify (os s) = false;
  ar_settings : s_stderr_log_path (os s) = false /\ s_skip_write (os s) = false;
  ar_out : empty_out (m_out (req s))
}.

(** A request and how it is answered. *)
Record exchange := mkExchange {
  x_big : bool;
  x_image : request_image;
  x_content : list Z;
  x_reads : list rev;  (* the pieces it arrives in *)
  x_answer : option (Z * HeaderPairs * list Z)
}.

Definition arrive (reads : list rev) (s : st) : st := on_os (fun o => set_k_reads (k_reads o ++ reads) o) s.

(** What is to be read is a well-formed request packet and its body, from a peer that does
    nothing but send. *)
Record asks (x : exchange) (s : st) : Prop := {
  as_image : image_ok (x_image x) /\ (x_big x = true -> swappable (x_image x)) /\ separated (x_image x);
  as_strings : Forall (fun off => is_Some (load_str (image (x_big x) false false (x_image x) []) off))
                 [ri_requestMethod (x_image x); ri_scriptName (x_image x); ri_queryString (x_image x)];
  as_peer : peer_ok s;
  as_first : 8 <= first_piece (k_reads (os s));
  as_bytes : incoming s = wire (x_big x) (x_image x) ++ x_content x;
  as_content : zlen (x_content x) = ri_bodyLen (x_image x)
}.

Lemma at_rest_waiting fd s : at_rest fd s -> peer_ok s -> waiting fd s.
Proof. intros [(? & ? & _)] Hp. split; try done. Qed.

Lemma at_rest_arrive fd reads s : at_rest fd s -> at_rest fd (arrive reads s).
Proof. by intros []. Qed.

Section KeepAlive.
Context {W : Type} (open_scope : name -> W -> option ContextBase * W) (callback : name -> phase -> W -> prog W).
Context (loaded : option (list name)) (g_body_pacifier : bool).

(** A request that was served leaves the connection at rest, unless it is closed. *)
Lemma served_at_rest fd i evs allocs s w e f f1 w' s' :
  at_rest fd s -> let s1 := request_read fd i evs allocs s in
  served open_scope callback loaded g_body_pacifier fd s1 w e f f1 w' s' -> m_fd (req s') = fd -> at_rest fd s'.
Proof.
  intros [(Hfd & H0 & H2 & Hl) _ _ _ Hw Hu (N1 & N2 & N3) [Hlog Hskip] _] s1 [Hp _ Hb Ha Hr Hf _ _ Hst Hreset] Hfd'.
  destruct (Hreset Hfd') as [Hok Hal]. apply untroubled_phases in Hp.
  assert (calm (lsapi (sink f)) (lsapi (sink f1))) as C1.
  { unfold lsapi_answer in Ha. destruct (response_of _ _) as [[[n hs] bs]|]; [by apply (respond_moves calm) in Ha|by injection Ha as <-]. }
  apply finish_calm in Hf as (s4 & C2 & ->); [|done]. destruct (Hp Hw) as (E1 & E2 & E3).
  assert (rest_view s4 = rest_view (lsapi (sink f))) as E by (transitivity (rest_view (lsapi (sink f1))); [apply C2|by apply C1]; rewrite <- E3; by apply (f_equal (fun x => x.2.1.2) (C1 E3))).
  unfold setting in E1. unfold rest_view in E. injection E1 as A1 A2 A3 A4 A5 A6.
  injection E as B1 B2 B3 B4 B5 B6 B7 B8 B9 B10. cbn in Hfd', Hok, Hal.
  change (m_fdListen (req s1)) with (m_fdListen (req s)) in *. change (s_uid (os s1)) with (s_uid (os s)) in *.
  change (s_accept_notify (os s1)) with (s_accept_notify (os s)) in *. change (s_notified_pid (os s1)) with (s_notified_pid (os s)) in *.
  change (s_schedule_notify (os s1)) with (s_schedule_notify (os s)) in *. change (s_skip_write (os s1)) with (s_skip_write (os s)) in *.
  change (s_stderr_log_path (os s1)) with (s_stderr_log_path (os s)) in *.
  split; cbn.
  - split; [done|]. split; [done|]. split; [done|]. congruence.
  - done.
  - rewrite B1. apply Hb.
  - done.
  - congruence.
  - congruence.
  - repeat split; congruence.
  - split; congruence.
  - by split.
Qed.

Context (quiet : forall m ph w, no_stream (callback m ph w)) (loaded_names : match loaded with Some ms => NoDup ms | None => True end).
Context (closing : forall m w, no_body (callback m OnDone w) /\ no_body (callback m OnDelete w)).

(** The requests [xs] arrive one after the other on the connection [fd], each when the one
    before it has been answered, and the connection is not lost. *)
Inductive conversation (ctx : lsapi_MD5Context) (fd : Z) : list exchange -> st -> W -> st -> W -> Prop :=
| conv_end s w : conversation ctx fd [] s w s w
| conv_next x xs s s1 s2 s3 w w2 w3 e f :
    asks x (arrive (x_reads x) s) ->
    readReq ctx (arrive (x_reads x) s) = Some (0, s1) ->
    lsapi_phases open_scope callback loaded g_body_pacifier s1 w = Some (e, f) ->
    x_answer x = response_of e (http_data f) -> small_response (x_answer x) ->
    serve_request open_scope callback loaded g_body_pacifier w s1 = Some (w2, s2) -> m_fd (req s2) = fd ->
    conversation ctx fd xs s2 w2 s3 w3 ->
    conversation ctx fd (x :: xs) s w s3 w3.

(** The bytes of one exchange: the acknowledgement and the whole response. *)
Definition answered (x : exchange) (piece : list Z) : Prop :=
  exists rest ps, piece = pkt_bytes s_ack ++ rest /\ decode_stream rest = Some ps /\ packets_of (whole_response (x_answer x)) ps.

Lemma next_exchange ctx fd x s w :
  at_rest fd s -> asks x (arrive (x_reads x) s) -> let t := arrive (x_reads x) s in
  (forall s1 e f, readReq ctx t = Some (0, s1) -> lsapi_phases open_scope callback loaded g_body_pacifier s1 w = Some (e, f) ->
     small_response (response_of e (http_data f))) ->
  exists i evs allocs d s2 e f f1 w' s', let s1 := request_read fd i evs allocs t in
    readReq ctx t = Some (0, s1) /\ lsapi_request s1 = Some (d, s2) /\ request_headers d = request_pairs (x_image x) /\
    served open_scope callback loaded g_body_pacifier fd s1 w e f f1 w' s' /\ (e = LocalResponse \/ e = DefaultResponse).
Proof using quiet loaded_names closing.
  intros A [(Hok & Hsw & Hsep) Hstr Hp Hfirst Hin Hz] t Hsmall. apply (at_rest_arrive _ (x_reads x)) in A. fold t in A.
  inversion Hstr as [|? ? [method L1] Hs1]. inversion Hs1 as [|? ? [script L2] Hs2]. inversion Hs2 as [|? ? [query L3] _].
  pose proof A as [(Hfd & Hpos & Hn2 & Hl) _ _ _ _ _ _ [Hlog Hskip] Hout].
  destruct (exchange_run open_scope callback loaded g_body_pacifier quiet loaded_names closing ctx fd (x_big x) (x_image x) (x_content x) t w method script query)
    as (i & evs & allocs & d & s2 & e & f & f1 & w' & s' & R & E & _ & _ & Eh & Hsv & He); try done; [by apply at_rest_waiting|].
  by exists i, evs, allocs, d, s2, e, f, f1, w', s'.
Qed.

(** C4. A connection that is kept alive.  Assumed: a worker that is no longer root, notifies
    nobody of accepted requests and has no log of its own for stderr; the kernel accepts
    every write and memory is to be had; the modules have distinct names, do not call the
    streaming or other foreign functions, do not read the body in [onDone] and [onDelete],
    and answer with names and values below 2^29 and a body below 2^63 bytes; the requests
    arrive one after the other, each well-formed with [separated] header values, in either
    byte order, with a first piece of at least the 8 bytes of a packet header (a shorter one
    loses the request, [readReq_short_first_piece]) and any pieces behind it.  After any such
    conversation that has left the connection open, the bytes sent are, for each request in
    its turn, the acknowledgement and the one response the handler ended with; and the
    connection is fit for the next request: whatever such request arrives then is read, its
    headers are what the filters see, it is answered, and its response is what goes out (or
    a prefix of its packets on a connection that is closed). *)
Theorem lsapi_keep_alive (ctx : lsapi_MD5Context) (fd : Z) (xs : list exchange) (s s' : st) (w w' : W) :
  at_rest fd s -> conversation ctx fd xs s w s' w' ->
  (exists pieces, sent_on fd (os s') = sent_on fd (os s) ++ mjoin pieces /\ Forall2 answered xs pieces) /\
  forall x, asks x (arrive (x_reads x) s') ->
    (forall s1 e f, readReq ctx (arrive (x_reads x) s') = Some (0, s1) ->
       lsapi_phases open_scope callback loaded g_body_pacifier s1 w' = Some (e, f) -> small_response (response_of e (http_data f))) ->
    exists s1 d s2 e f w2 s3,
      readReq ctx (arrive (x_reads x) s') = Some (0, s1) /\
      lsapi_request s1 = Some (d, s2) /\ request_headers d = request_pairs (x_image x) /\
      lsapi_phases open_scope callback loaded g_body_pacifier s1 w' = Some (e, f) /\ (e = LocalResponse \/ e = DefaultResponse) /\
      serve_request open_scope callback loaded g_body_pacifier w' s1 = Some (w2, s3) /\
      wire_post fd (sent_on fd (os s') ++ pkt_bytes s_ack) (whole_response (response_of e (http_data f))) s3.
Proof using quiet loaded_names closing.
  intros A H. assert (at_rest fd s' /\ exists pieces, sent_on fd (os s') = sent_on fd (os s) ++ mjoin pieces /\ Forall2 answered xs pieces) as [A' Hwire].
  { induction H as [s w|x xs s s1 s2 s3 w w2 w3 e f Hx Hread Hph Hans Hsmall Hserve Hfd H IH].
    - split; [done|]. exists []. split; [by rewrite app_nil_r|constructor].
    - destruct (next_exchange ctx fd x s w A Hx) as (i & evs & allocs & d & s4 & e1 & f1 & f2 & w1 & s5 & Hread1 & _ & _ & Hsv & _).
      { intros s0 e0 f0 E0 P0. rewrite Hread in E0. injection E0 as <-. rewrite Hph in P0. injection P0 as <- <-. by rewrite <- Hans. }
      rewrite Hread in Hread1. injection Hread1 as ->. pose proof (sv_run _ _ _ _ _ _ _ _ _ _ _ _ Hsv) as Hrun.
      rewrite Hserve in Hrun. injection Hrun as <- <-. pose proof (sv_phases _ _ _ _ _ _ _ _ _ _ _ _ Hsv) as Hph1.
      rewrite Hph in Hph1. injection Hph1 as <- <-. pose proof (at_rest_arrive fd (x_reads x) s A) as At.
      pose proof (served_at_rest _ _ _ _ _ _ _ _ _ _ _ At Hsv Hfd) as A2.
      destruct (IH A2) as [A3 (pieces & Hsent & Hpieces)]. split; [done|].
      destruct (sv_wire _ _ _ _ _ _ _ _ _ _ _ _ Hsv) as (rest & Hw & [[_ (ps & Hd & Hps)]|[Hclosed _]]).
      2:{ exfalso. pose proof (ar_fd _ _ A). lia. }
      exists ((pkt_bytes s_ack ++ rest) :: pieces). split.
      + rewrite Hsent, Hw, sent_request_read. cbn [mjoin list_join]. change (sent_on fd (os (arrive (x_reads x) s))) with (sent_on fd (os s)).
        by rewrite <- !app_assoc.
      + constructor; [|done]. exists rest, ps. by rewrite Hans. }
  split; [done|]. intros x Hx Hsmall.
  destruct (next_exchange ctx fd x s' w' A' Hx Hsmall) as (i & evs & allocs & d & s2 & e & f & f1 & w2 & s3 & Hread & Hreq & Hh & Hsv & He).
  destruct Hsv as [S1 _ _ _ _ _ S2 S3 _ _]. rewrite sent_request_read in S3.
  by exists (request_read fd i evs allocs (arrive (x_reads x) s')), d, s2, e, f, w2, s3.
Qed.
End KeepAlive.

(** ** A loop and a conversation to try the theorems on *)

(** The module streams a response to the first request (VM state 0), and drops dead then. *)
Definition streamer (m : name) (ph : phase) (w : nat) : prog nat :=
  match ph, w with
  | OnRequestHeaders _, 0%nat =>
      Do (Foreign (FSendHeaders (le32 200 ++ marshal_pairs [(str "X", str "y")]))) (fun _ =>
      Do (Foreign (FWriteChunk (str "hi"))) (fun _ => Do (Foreign FFinish) (fun _ => Ret 1%nat)))
  | _, _ => Ret w
  end.

Definition web_worker : st :=
  on_os (set_s_busy_workers (Some 3)) (on_os (set_s_worker_status (Some (mkChild 100 0 0 0 LSAPI_STATE_CONNECTED 0 0 0 0))) web_waiting).

Lemma web_worker_settled : settled 2 web_worker.
Proof. split; [by vm_compute|by vm_compute|]. constructor. Qed.

Definition loop_ins : list loop_in :=
  [mkLoopIn ctx0 [sel SelTimeout; sel SelReady] 70 true [] 0 true false; mkLoopIn ctx0 [sel SelReady] 80 true [] 0 true false].

Abbreviation loop_run := (accept_rounds lsapi_demo_open streamer (fun w => (true, w)) true loop_ins false worker0 None 0%nat web_worker).

Lemma lsapi_loop_balances_witness :
  match loop_run with
  | Some (e, s') => s_busy_workers (os s') = Some 2 /\
      match s_worker_status (os s') with
      | Some c => pf_busy (forget_child 0 (set_counters (s_busy_workers (os s')) (Some 0) (set_table [c] 1 prefork3))) = Some 2
      | None => False
      end
  | None => False
  end.
Proof.
  assert (match loop_run with
    | Some (e, s') => bool_decide (s_busy_workers (os s') = Some 2) && bool_decide (is_Some (s_worker_status (os s')))
    | None => false end = true) as X by (vm_compute; reflexivity).
  destruct loop_run as [[e s']|] eqn:E; [|discriminate X]. apply andb_prop in X as [X1%bool_decide_eq_true X2%bool_decide_eq_true].
  split; [exact X1|]. destruct X2 as [c Hc]. rewrite Hc.
  refine (proj1 (lsapi_loop_balances lsapi_demo_open streamer (fun w => (true, w)) true loop_ins false worker0 0%nat e web_worker s' 2 c 0
    (set_counters (s_busy_workers (os s')) (Some 0) (set_table [c] 1 prefork3)) _ web_worker_settled E Hc eq_refl eq_refl _ _)).
  - repeat constructor.
  - split; [discriminate|reflexivity].
  - split; [discriminate|reflexivity].
Defined.

Definition web_resting : st := on_os (set_k_reads []) web_waiting.

Lemma web_resting_ok : at_rest 7 web_resting.
Proof.
  destruct session_start_ok as (_ & _ & [[A _ [B1 [B2 _]]] C]). split.
  - repeat split; discriminate.
  - split; reflexivity.
  - vm_compute. reflexivity.
  - apply not_elem_of_nil.
  - reflexivity.
  - discriminate.
  - repeat split.
  - split; reflexivity.
  - split; [exact A|]. split; [exact B1|]. split; [exact B2|exact C].
Qed.

Definition web_pieces (big : bool) : list rev :=
  let bytes := wire big web_request ++ str "abcdefg" in (fun p => mkRev false (RData p)) <$> [take 20 bytes; drop 20 bytes].

Definition web_exchange (big : bool) (answer : option (Z * HeaderPairs * list Z)) : exchange :=
  mkExchange big web_request (str "abcdefg") (web_pieces big) answer.

Lemma web_exchange_asks big answer s : g_running (os s) = true -> k_reads (os s) = [] ->
  asks (web_exchange big answer) (arrive (web_pieces big) s).
Proof.
  intros Hg Hk. assert (k_reads (os (arrive (web_pieces big) s)) = web_pieces big) as E by (cbn; by rewrite Hk).
  split.
  - split; [exact web_request_ok|]. split; [|exact web_separated]. intros _. split; [|reflexivity]. cbn [x_image web_exchange ri_index web_request replicate Z.to_nat app].
    repeat (apply Forall_cons_2; [cbn; done|]). apply Forall_nil_2.
  - destruct big; repeat (apply Forall_cons_2; [eexists; vm_compute; reflexivity|]); apply Forall_nil_2.
  - split; [exact Hg|]. rewrite E. destruct big; repeat (apply Forall_cons_2; [split; [reflexivity|vm_compute; discriminate]|]); apply Forall_nil_2.
  - rewrite E. destruct big; vm_compute; discriminate.
  - unfold incoming. rewrite E. destruct big; vm_compute; reflexivity.
  - reflexivity.
Qed.

Abbreviation web_rest_phases s := (lsapi_phases lsapi_demo_open lsapi_demo (Some lsapi_modules) true s 0%nat).

Abbreviation web_reads s := (readReq ctx0 (arrive (web_pieces true) s)).

Lemma web_exchange_reads big answer : x_reads (web_exchange big answer) = web_pieces big.
Proof. reflexivity. Qed.

Lemma web_exchange_answer big answer : x_answer (web_exchange big answer) = answer.
Proof. reflexivity. Qed.

Lemma lsapi_keep_alive_witness :
  exists answer s' w' piece, conversation lsapi_demo_open lsapi_demo (Some lsapi_modules) true ctx0 7 [web_exchange true answer] web_resting 0%nat s' w' /\
    sent_on 7 (os s') = piece /\ answered (web_exchange true answer) piece /\
    exists s1 w2 s3, readReq ctx0 (arrive (web_pieces false) s') = Some (0, s1) /\
      serve_request lsapi_demo_open lsapi_demo (Some lsapi_modules) true w' s1 = Some (w2, s3).
Proof.
  assert (match web_reads web_resting with
    | Some (r, s1) => (r =? 0) &&
        match web_rest_phases s1 with
        | Some (e, f) => match e with DefaultResponse => true | _ => false end && small_response_b (response_of DefaultResponse (http_data f))
        | None => false end &&
        match serve_request lsapi_demo_open lsapi_demo (Some lsapi_modules) true 0%nat s1 with
        | Some (w2, s2) => (w2 =? 0)%nat && (m_fd (req s2) =? 7) && g_running (os s2) && match k_reads (os s2) with [] => true | _ => false end &&
            match readReq ctx0 (arrive (web_pieces false) s2) with
            | Some (_, s3) => match web_rest_phases s3 with Some (e, f) => small_response_b (response_of e (http_data f)) | None => true end
            | None => true end
        | None => false end
    | None => false end = true) as X by (vm_compute; reflexivity).
  destruct (web_reads web_resting) as [[r s1]|] eqn:Er; [|discriminate X].
  apply andb_prop in X as [[X1%Z.eqb_eq X2]%andb_prop X3]. subst r.
  destruct (web_rest_phases s1) as [[e f]|] eqn:Ep; [|discriminate X2]. apply andb_prop in X2 as [X2 Xs]. destruct e; try discriminate X2.
  destruct (serve_request _ _ _ _ 0%nat s1) as [[w2 s2]|] eqn:Es; [|discriminate X3].
  apply andb_prop in X3 as [[[[X4%Nat.eqb_eq X5%Z.eqb_eq]%andb_prop X6]%andb_prop X7]%andb_prop X8]. subst w2.
  assert (k_reads (os s2) = []) as X9 by (destruct (k_reads (os s2)); [reflexivity|discriminate X7]).
  set (answer := response_of DefaultResponse (http_data f)) in *.
  assert (conversation lsapi_demo_open lsapi_demo (Some lsapi_modules) true ctx0 7 [web_exchange true answer] web_resting 0%nat s2 0%nat) as C.
  { apply (conv_next _ _ _ _ ctx0 7 (web_exchange true answer) [] web_resting s1 s2 s2 0%nat 0%nat 0%nat DefaultResponse f); rewrite ?web_exchange_reads, ?web_exchange_answer;
      [exact (web_exchange_asks true answer web_resting eq_refl eq_refl)|exact Er|exact Ep|exact eq_refl|exact (small_response_check _ Xs)|exact Es|exact X5|apply conv_end]. }
  destruct (lsapi_keep_alive lsapi_demo_open lsapi_demo (Some lsapi_modules) true lsapi_demo_quiet lsapi_modules_NoDup lsapi_demo_closing
    ctx0 7 _ _ _ _ _ web_resting_ok C) as [(pieces & Hsent & Hp) Hnext].
  inversion Hp as [|x piece xs pieces0 Hpiece Hnil]. inversion Hnil. subst. exists answer, s2, 0%nat, piece. split; [exact C|]. split.
  { rewrite Hsent. cbn [mjoin list_join]. rewrite app_nil_r. reflexivity. }
  split; [exact Hpiece|].
  specialize (Hnext (web_exchange false None)). rewrite web_exchange_reads in Hnext.
  destruct Hnext as (s3 & d & s4 & e & f1 & w3 & s5 & R & _ & _ & _ & _ & S & _).
  - exact (web_exchange_asks false None s2 X6 X9).
  - intros s3 e f1 R P. rewrite R in X8. rewrite P in X8. exact (small_response_check _ X8).
  - exact (ex_intro _ s3 (ex_intro _ w3 (ex_intro _ s5 (conj R S)))).
Defined.
