(* ===== verification/SamplesSpec.v ===== *)
(** * What the sample filters do

    From end to end: [send_recv_all] over LSAPI and [send_recv_stream] over HTTP give back
    the body they were sent, behind what they say of the request. *)

From S2P Require Import HttpUtilsSpec.
From S2P Require Export Samples LsapiLoopSpec HandlerSpec.

Open Scope Z_scope.

(** What is documented of it: the whole buffer is given when it is asked for; main.cpp
    states the format of the argument, and that a refused probe means that the function is
    there. *)
Class SdkLaws (k : sdk) := {
  law_buffer b : buffer_bytes k (Some b) (zlen b) = Some b;
  law_argument status hs : headers_argument k status hs = le32 status ++ marshal_pairs hs;
  law_probe : api_supported k BadArgument = true
}.

(** ** A chain with one module *)

Section Alone.
Context {Sk : Type} `{ResponseSink Sk} {W : Type}.
Context (open_scope : name -> W -> option ContextBase * W) (callback : name -> phase -> W -> prog W).

Abbreviation chain := (Filters.chain Sk W).

(** The request data hold the answer of the context. *)
Definition answered_as (l : local_response) (d : HttpData) : Prop :=
  has_local_response d = has_local_response_ l /\
  (has_local_response_ l = true ->
    local_response_code d = local_response_code_ l /\ local_response_body d = local_response_body_ l /\
    local_response_additional_headers d = local_response_headers_ l).

Record alone (m : name) (c : LsWasmContext) (f : chain) : Prop := {
  al_order : module_order_ f = [m];
  al_scopes : scopes_ f = [(m, Some c)];
  al_answer : answered_as (local_ c) (http_data f)
}.

Lemma alone_same m c f f' : same_chain f f' -> alone m c f -> alone m c f'.
Proof. intros (E1 & E2 & _ & E4 & E5 & E6 & E7) [A B [C D]]. by repeat split; rewrite ?E1, ?E2, ?E4, ?E5, ?E6, ?E7; try apply D. Qed.

Lemma alone_open m c f : alone m c f -> has_local_response_ (local_ c) = false -> has_local_response (http_data f) = false.
Proof. intros [_ _ [-> _]]. done. Qed.

Lemma check_answer c (f : chain) : has_local_response (http_data f) = false -> answered_as (local_ c) (http_data (checkLocalResponse c f)).
Proof. intros L. unfold checkLocalResponse. destruct (has_local_response_ (local_ c)) eqn:E; split; rewrite ?E; done. Qed.

(** One callback of a later phase. *)
Lemma alone_phase m ph before after c c' s w (f : chain) :
  alone m c f -> has_local_response_ (local_ c) = false -> keeps_answer after ->
  run_prog (body_gen f) (callback m ph (vms f)) (before (http_data f) c) (sink f) = Some (w, (c', s)) ->
  exists f', phase_loop callback (module_order_ f) ph before after f = Some f' /\ alone m c' f' /\ vms f' = w /\ sink f' = s.
Proof.
  intros A N Ha R. pose proof (alone_open _ _ _ A N) as L. destruct A as [O S _]. rewrite O. cbn [phase_loop]. rewrite L, S. cbn [sfind].
  rewrite decide_True by done. rewrite (run_callback_eq callback _ _ _ _ _ _ _ R). cbn [mbind option_bind]. eexists. split; [done|].
  set (g := called m ph (before (http_data f) c) s w f). split; [split|].
  - by rewrite order_settle.
  - rewrite scopes_settle. unfold g. cbn [called scopes_]. rewrite S. cbn [smodify]. by rewrite decide_True.
  - unfold settle. apply check_answer. cbn. by rewrite Ha.
  - unfold settle, checkLocalResponse. by destruct (has_local_response_ (local_ c')); split.
Qed.

(** A piece of the body. *)
Lemma alone_body m eos data c c' s w (f : chain) :
  alone m c f -> has_local_response_ (local_ c) = false ->
  run_prog (body_gen f + 1) (callback m (OnRequestBody (zlen data) eos) (vms f))
    (setEndOfStream eos (setRequestBody (mkView data (body_gen f + 1)) c)) (sink f) = Some (w, (c', s)) ->
  exists f', onRequestBody callback eos (assign_request_body data f) = Some f' /\ alone m c' f' /\ vms f' = w /\ sink f' = s.
Proof.
  intros A N R. apply (alone_same _ _ _ (assign_request_body data f)) in A; [|done]. unfold onRequestBody.
  eapply (alone_phase m _ _ _ c c' s w (assign_request_body data f)); try done.
Qed.

(** The context [onRequestHeaders] calls the module with, from the one [onCreate] has left. *)
Definition opened_context (d : HttpData) (c : LsWasmContext) : LsWasmContext :=
  setHeaderMap RequestHeaders (request_headers (synthesizePseudoHeaders d))
    (set_stream true (stream_state c) (resetHeaderMaps (resetLocalResponse c))).

Lemma alone_headers m eos d s0 s1 s2 w w0 w1 w2 b c1 c2 :
  has_local_response d = false -> open_scope m w = (Some b, w0) ->
  run_prog 0 (callback m OnCreate w0) (new_context b) s0 = Some (w1, (c1, s1)) ->
  run_prog 0 (callback m (OnRequestHeaders eos) w1) (opened_context d c1) s1 = Some (w2, (c2, s2)) ->
  exists f, onRequestHeaders open_scope callback (Some [m]) eos (new_chain d s0 w) = Some f /\ alone m c2 f /\ vms f = w2 /\ sink f = s2.
Proof.
  intros L Eo R1 R2. unfold onRequestHeaders. cbn [request_headers_loop]. unfold init_scope. cbn [vms set_data new_chain]. rewrite Eo.
  rewrite (run_callback_eq callback m OnCreate (new_context b) _ w1 c1 s1) by exact R1. cbn [mbind option_bind].
  rewrite (run_callback_eq callback m (OnRequestHeaders eos) _ _ w2 c2 s2) by exact R2. cbn [mbind option_bind].
  set (f1 := store_scope _ _ _). exists f1. split; [destruct (has_local_response (http_data f1)); reflexivity|]. split; [split|].
  - unfold f1. by rewrite order_store.
  - unfold f1. by rewrite scopes_store.
  - unfold f1, store_scope. cbn [http_data set_scopes set_order]. apply check_answer. cbn. by rewrite synthesize_same.
  - unfold f1, store_scope, checkLocalResponse. by destruct (has_local_response_ (local_ c2)); split.
Qed.

(** The module has answered with this body. *)
Definition answers (m : name) (body : list Z) (f : chain) : Prop := exists c, alone m c f /\ local_ c = mkLocal true 200 body [] [].

Lemma answers_data m body f : answers m body f ->
  has_local_response (http_data f) = true /\ response_of LocalResponse (http_data f) = Some (200, [], body).
Proof. intros (c & [_ _ [E1 E2]] & E). rewrite E in *. destruct (E2 eq_refl) as (E3 & E4 & E5). unfold response_of. by rewrite E1, E3, E4, E5. Qed.

Lemma answers_moves m body f f' : same_chain f f' -> answers m body f -> answers m body f'.
Proof. intros Es (c & A & E). exists c. split; [by apply (alone_same m c f)|done]. Qed.

End Alone.

(** ** Runs of programs *)

Section Runs.
Context {Sk : Type} `{ResponseSink Sk}.

(** The program comes to its end, where [Q] holds. *)
Definition runs {A} (live : Z) (p : prog A) (c : LsWasmContext) (s : Sk) (Q : A -> LsWasmContext -> Sk -> Prop) : Prop :=
  exists a c' s', run_prog live p c s = Some (a, (c', s')) /\ Q a c' s'.

(** What a context has but for its log. *)
Definition view (c : LsWasmContext) := (local_ c, header_maps_ c, request_body_ c, (sink_set c, stream_state c)).

Lemma runs_ret {A} live (a : A) c s (Q : A -> LsWasmContext -> Sk -> Prop) : Q a c s -> runs live (mret a) c s Q.
Proof. intros HQ. by exists a, c, s. Qed.

Lemma runs_bind {A B} live (p : prog A) (f : A -> prog B) c s Q :
  runs live p c s (fun a c s => runs live (f a) c s Q) -> runs live (p ≫= f) c s Q.
Proof.
  revert c s. induction p as [a|cl k IH]; intros c s (a1 & c1 & s1 & R & HQ); cbn in R.
  - by injection R as -> -> ->.
  - destruct (host_step live cl c s) as [[x [c0 s0]]|] eqn:E; [|done]. cbn in R.
    destruct (IH x c0 s0) as (b & c2 & s2 & R2 & HQ2); [by exists a1, c1, s1|]. exists b, c2, s2. split; [|done].
    change (run_prog live (prog_bind f (Do cl k)) c s = Some (b, (c2, s2))). cbn. rewrite E. exact R2.
Qed.

Lemma runs_call live cl c s a c' s' (Q : answer cl -> LsWasmContext -> Sk -> Prop) :
  host_step live cl c s = Some (a, (c', s')) -> Q a c' s' -> runs live (call cl) c s Q.
Proof. intros E HQ. exists a, c', s'. cbn. by rewrite E. Qed.

Lemma runs_weaken {A} live (p : prog A) c s (Q Q' : A -> LsWasmContext -> Sk -> Prop) :
  (forall a c s, Q a c s -> Q' a c s) -> runs live p c s Q -> runs live p c s Q'.
Proof. intros HQ (a & c' & s' & R & X). exists a, c', s'. auto. Qed.

Lemma runs_LOG k live message c s (Q : unit -> LsWasmContext -> Sk -> Prop) :
  (forall c', view c' = view c -> Q tt c' s) -> runs live (LOG k message) c s Q.
Proof. intros HQ. apply runs_bind. eapply runs_call; [done|]. by apply runs_ret, HQ. Qed.

Lemma runs_log_if k live (b : bool) message c s (Q : unit -> LsWasmContext -> Sk -> Prop) :
  (forall c', view c' = view c -> Q tt c' s) -> runs live (if b then mret tt else LOG k message) c s Q.
Proof. intros HQ. destruct b; [by apply runs_ret, HQ|by apply runs_LOG]. Qed.

Lemma runs_pairs live c s (Q : HeaderPairs -> LsWasmContext -> Sk -> Prop) :
  Q (map_at RequestHeaders c) c s -> runs live getRequestHeaderPairs c s Q.
Proof. exact (runs_call live (GetHeaderMapPairs RequestHeaders) c s _ c s Q eq_refl). Qed.

Lemma runs_add_header live key value c s (Q : unit -> LsWasmContext -> Sk -> Prop) :
  Q tt (addHeaderMapValue ResponseHeaders key value c) s -> runs live (addResponseHeader key value) c s Q.
Proof. intros HQ. apply runs_bind. eapply runs_call; [done|]. by apply runs_ret. Qed.

Lemma runs_answer live code body c s (Q : unit -> LsWasmContext -> Sk -> Prop) :
  Q tt (sendLocalResponse code body [] [] c) s -> runs live (answer_with code body) c s Q.
Proof. intros HQ. apply runs_bind. eapply runs_call; [done|]. by apply runs_ret. Qed.

(** A piece of the body is what the module gets. *)
Lemma runs_piece k `{!SdkLaws k} live data c s (Q : option (list Z) -> LsWasmContext -> Sk -> Prop) :
  request_body_ c = mkView data live -> data <> [] -> Q (Some data) c s ->
  runs live (if 0 <? zlen data then getRequestBody k (zlen data) else mret None) c s Q.
Proof.
  intros E N HQ. destruct data as [|x data]; [done|]. rewrite (proj2 (Z.ltb_lt _ _)) by (rewrite zlen_cons; pose proof (zlen_nonneg data); lia).
  apply runs_bind, (runs_call live (GetBuffer HttpRequestBody) c s (Some (x :: data)) c s).
  - cbn. rewrite E. cbn. by rewrite Z.eqb_refl.
  - apply runs_ret. by rewrite law_buffer.
Qed.
End Runs.

(** The body is read. *)
Lemma view_body c c' : view c' = view c -> request_body_ c' = request_body_ c.
Proof. by intros [=]. Qed.
Lemma view_local c c' : view c' = view c -> local_ c' = local_ c.
Proof. by intros [=]. Qed.
Lemma view_headers c c' : view c' = view c -> map_at RequestHeaders c' = map_at RequestHeaders c.
Proof. intros [=]. unfold map_at. congruence. Qed.
Lemma view_stream c c' : view c' = view c -> sink_set c' = sink_set c /\ stream_state c' = stream_state c.
Proof. by intros [=]. Qed.

(** ** send_recv_all *)

Module AllSpec.
Import SendRecvAll.

Section AllSpec.
Context {Sk : Type} `{ResponseSink Sk} (k : sdk) `{!SdkLaws k}.

Definition header_section (pairs : HeaderPairs) : list Z :=
  build_environ_section k ++ headers_text pairs ++ [10; 10] ++ str "=== Request Body ===" ++ [10; 10].

Lemma all_create m live w c (s : Sk) :
  runs live (callback k m OnCreate w) c s (fun w' c' s' => w' = Some (mkAll [] []) /\ s' = s).
Proof. unfold callback. apply runs_bind, runs_LOG. intros c' _. by apply runs_ret. Qed.

Lemma all_headers m live eos c (s : Sk) :
  runs live (callback k m (OnRequestHeaders eos) (Some (mkAll [] []))) c s (fun w' c' s' => s' = s /\
    if eos then local_ c' = mkLocal true 200 (header_section (map_at RequestHeaders c) ++ str "(no body)" ++ [10]) [] []
    else local_ c' = local_ c /\ w' = Some (mkAll (header_section (map_at RequestHeaders c)) [])).
Proof.
  unfold callback, onRequestHeaders. apply runs_bind, runs_bind, runs_LOG. intros c1 V1. apply runs_bind, runs_bind, runs_pairs, runs_ret.
  rewrite (view_headers _ _ V1). fold (header_section (map_at RequestHeaders c)). destruct eos; [|by apply runs_ret, runs_ret, conj, conj; [|apply view_local|]].
  by apply runs_bind, runs_answer, runs_ret, runs_ret.
Qed.

Lemma all_body m live data eos x c (s : Sk) : request_body_ c = mkView data live -> data <> [] ->
  runs live (callback k m (OnRequestBody (zlen data) eos) (Some x)) c s (fun w' c' s' => s' = s /\
    if eos then local_ c' = mkLocal true 200 (compose (append_body data x)) [] []
    else local_ c' = local_ c /\ w' = Some (append_body data x)).
Proof.
  intros E N. unfold callback, onRequestBody. apply runs_bind, runs_bind, runs_LOG. intros c1 V1. rewrite <- (view_body _ _ V1) in E.
  apply runs_bind. apply (runs_piece k); [done..|]. cbn [default]. destruct eos; cbn [negb].
  - by apply runs_bind, runs_answer, runs_ret, runs_ret.
  - apply runs_ret, runs_ret. split; [done|]. split; [by apply view_local|done].
Qed.

(** The chain with this module. *)
Context (m : name) (host : relation Sk).

Abbreviation chain := (Filters.chain Sk (option SendRecvAllContext)).

(** It collects the body and has not answered. *)
Definition collects (x : SendRecvAllContext) (f : chain) : Prop :=
  exists c, alone m c f /\ has_local_response_ (local_ c) = false /\ vms f = Some x.

Lemma collects_open x f : collects x f -> has_local_response (http_data f) = false.
Proof. intros (c & A & N & _). by eapply alone_open. Qed.

Lemma collects_moves x f f' : host_moves (host := host) f f' -> collects x f -> collects x f'.
Proof. intros (Es & _ & Ev) (c & A & N & E). exists c. split; [by apply (alone_same m c f)|]. split; [done|congruence]. Qed.

Lemma all_opens open_scope b w0 eos d s w : open_scope m w = (Some b, w0) -> has_local_response d = false ->
  let section := header_section (request_headers (synthesizePseudoHeaders d)) in
  exists f, Filters.onRequestHeaders open_scope (callback k) (Some [m]) eos (new_chain d s w) = Some f /\ sink f = s /\
    if eos then answers m (section ++ str "(no body)" ++ [10]) f else collects (mkAll section []) f.
Proof.
  intros Eo L section. destruct (all_create m 0 w0 (new_context b) s) as (w1 & c1 & s1 & R1 & -> & ->).
  destruct (all_headers m 0 eos (opened_context d c1) s) as (w2 & c2 & s2 & R2 & -> & X).
  destruct (alone_headers open_scope (callback k) m eos d s s s w w0 _ w2 b c1 c2 L Eo R1 R2) as (f & E & A & Ev & Es).
  exists f. split; [done|]. split; [done|]. unfold map_at in X. change (header_maps_ (opened_context d c1)) with
    (<[RequestHeaders := request_headers (synthesizePseudoHeaders d)]> (header_maps_ (set_stream true (stream_state c1) (resetHeaderMaps (resetLocalResponse c1))))) in X.
  rewrite lookup_insert_eq in X. destruct eos; [by exists c2|]. destruct X as [X ->]. exists c2. split; [done|]. by rewrite X.
Qed.

Lemma all_piece eos data x f : collects x f -> data <> [] ->
  exists f', Filters.onRequestBody (callback k) eos (assign_request_body data f) = Some f' /\
    if eos then answers m (compose (append_body data x)) f' else collects (append_body data x) f'.
Proof.
  intros (c & A & N & Ev) Hd.
  destruct (all_body m (body_gen f + 1) data eos x (setEndOfStream eos (setRequestBody (mkView data (body_gen f + 1)) c)) (sink f))
    as (w & c' & s & R & _ & X); [done..|]. rewrite <- Ev in R.
  destruct (alone_body (callback k) m eos data c c' s w f A N R) as (f' & E & A' & Ev' & _). exists f'. split; [done|].
  destruct eos; [by exists c'|]. destruct X as [X ->]. exists c'. rewrite X. done.
Qed.

Lemma all_pieces ds : forall f g x, body_run (callback k) host f ((fun d => (d, false)) <$> ds) g -> Forall (fun d => d <> []) ds ->
  collects x f -> collects (append_body (mjoin ds) x) g.
Proof.
  induction ds as [|d ds IH]; intros f g x B F Hc; inversion B as [? ? Hm|f0 f1 f2 ? ? ? ? Hm R B2]; subst.
  - apply (collects_moves _ _ _ Hm) in Hc. unfold append_body. cbn. rewrite app_nil_r. by destruct x.
  - apply Forall_cons in F as [Fd F]. apply (collects_moves _ _ _ Hm) in Hc. destruct (all_piece false d x f1 Hc Fd) as (f3 & E & Hc2).
    rewrite R in E. injection E as <-. apply (IH _ _ _ B2 F) in Hc2. rewrite mjoin_cons. unfold append_body in *. cbn in *. by rewrite <- app_assoc in Hc2.
Qed.

Lemma all_whole init last : forall f g x, body_run (callback k) host f (((fun d => (d, false)) <$> init) ++ [(last, true)]) g ->
  Forall (fun d => d <> []) (init ++ [last]) -> collects x f -> answers m (compose (append_body (mjoin init ++ last) x)) g.
Proof.
  induction init as [|d init IH]; intros f g x B F Hc; inversion B as [? ? Hm|f0 f1 f2 ? ? ? ? Hm R B2]; subst;
    cbn [app] in F; apply Forall_cons in F as [Fd F]; apply (collects_moves _ _ _ Hm) in Hc.
  - destruct (all_piece true last x f1 Hc Fd) as (f3 & E & Ha). rewrite R in E. injection E as <-. inversion B2 as [? ? Hm2|]; subst.
    eapply answers_moves; [|exact Ha]. apply Hm2.
  - destruct (all_piece false d x f1 Hc Fd) as (f3 & E & Hc2). rewrite R in E. injection E as <-. apply (IH _ _ _ B2 F) in Hc2.
    rewrite mjoin_cons. unfold append_body in *. cbn in *. by rewrite <- !app_assoc in *.
Qed.
End AllSpec.
End AllSpec.

(** ** send_recv_all over LSAPI *)

Lemma no_stream_bind {A B} (p : prog A) (f : A -> prog B) : no_stream p -> (forall a, no_stream (f a)) -> no_stream (p ≫= f).
Proof. induction p as [a|cl k IH]; intros Hp Hf; [apply Hf|]. destruct Hp as [Hc Hk]. split; [done|]. intros a. by apply IH. Qed.

Lemma no_body_bind {A B} (p : prog A) (f : A -> prog B) : no_body p -> (forall a, no_body (f a)) -> no_body (p ≫= f).
Proof. induction p as [a|cl k IH]; intros Hp Hf; [apply Hf|]. destruct Hp as [Hc Hk]. split; [done|]. intros a. by apply IH. Qed.

Ltac no_calls :=
  repeat match goal with
  | |- no_stream (_ ≫= _) => apply no_stream_bind
  | |- no_body (_ ≫= _) => apply no_body_bind
  | |- no_stream (if ?b then _ else _) => destruct b
  | |- no_body (if ?b then _ else _) => destruct b
  | |- forall _, _ => intros ?
  end; try done.

Lemma all_quiet k m ph w : no_stream (SendRecvAll.callback k m ph w).
Proof.
  destruct ph, w; cbn [SendRecvAll.callback];
    unfold SendRecvAll.onRequestHeaders, SendRecvAll.onRequestBody, SendRecvAll.onResponseHeaders, getRequestBody, build_headers_section; no_calls.
Qed.

Lemma all_closing k m w : no_body (SendRecvAll.callback k m OnDone w) /\ no_body (SendRecvAll.callback k m OnDelete w).
Proof. destruct w; split; cbn [SendRecvAll.callback]; no_calls. Qed.

(** What the module makes of a body. *)
Definition echoed (content : list Z) : list Z :=
  match content with
  | [] => str "(no body)" ++ [10]
  | _ => if default 0 (last content) =? 10 then content else content ++ [10]
  end.

Lemma compose_echoed section content : content <> [] ->
  SendRecvAll.compose (SendRecvAll.append_body content (SendRecvAll.mkAll section [])) = section ++ echoed content.
Proof.
  intros N. unfold SendRecvAll.compose. cbn. destruct content as [|x content]; [done|]. cbn [echoed].
  rewrite last_app_cons. destruct (_ =? 10); [done|]. by rewrite <- app_assoc.
Qed.

Section EchoAll.
Context {k : sdk} `{!SdkLaws k} (m : name) (b : ContextBase) (g_body_pacifier : bool).
Context (open_scope : name -> option SendRecvAll.SendRecvAllContext -> option ContextBase * option SendRecvAll.SendRecvAllContext).
Context (opens : forall w, exists w0, open_scope m w = (Some b, w0)).

Abbreviation phases := (lsapi_phases open_scope (SendRecvAll.callback k) (Some [m]) g_body_pacifier).

(** The response to a request with these data. *)
Definition echo_text (d : HttpData) (content : list Z) : list Z :=
  AllSpec.header_section k (request_headers (synthesizePseudoHeaders d)) ++ echoed content.

Lemma all_phases (s s1 : st) d w e f (content : list Z) :
  lsapi_request s = Some (d, s1) -> has_local_response d = false -> body_ok s1 -> body s1 = content ->
  m_reqBodyLen (m_in (req s1)) = zlen content -> phases s w = Some (e, f) -> ends_with True e f ->
  e = LocalResponse /\ response_of e (http_data f) = Some (200, [], echo_text d content).
Proof using SdkLaws0 opens.
  intros E Ld Hb Eb El Ep He. unfold lsapi_phases in Ep. rewrite E in Ep. cbn [mbind option_bind] in Ep. unfold LSAPI_GetReqBodyLen_r, get_in, gets in Ep.
  cbn [mbind option_bind] in Ep. rewrite El in Ep. destruct (opens w) as [w0 Eo].
  destruct (AllSpec.all_opens k m open_scope b w0 (negb (0 <? zlen content)) d (new_LsapiResponseSink s1) w Eo Ld) as (f0 & E0 & Es & X).
  rewrite E0 in Ep. cbn [mbind option_bind] in Ep. unfold echo_text. destruct (Z.ltb_spec 0 (zlen content)) as [Hp|Hz]; cbn [negb] in X.
  2: { assert (content = []) as -> by (destruct content; [done|rewrite zlen_cons in Hz; pose proof (zlen_nonneg content); lia]).
       apply (answers_data m) in X as [L X]. rewrite L in Ep. injection Ep as <- <-. done. }
  rewrite (AllSpec.collects_open m _ _ X) in Ep. apply lsapi_request_run_phases in Ep as (whole & f1 & n & E1 & A & Hwh & L).
  assert (whole = true) as -> by (apply Hwh; by intros ->). rewrite (proj2 (Z.ltb_lt _ _)) in E1 by done.
  apply lsapi_loop_run in E1 as (ds & B & F & Pr & Z1); [|apply all_quiet|by rewrite Es]. rewrite Es in Pr. change (body (lsapi _)) with (body s1) in Pr. rewrite Eb in Pr.
  assert (mjoin ds = content) as Ed.
  { destruct (Z.lt_ge_cases (zlen (mjoin ds)) (zlen content)) as [Hlt|Hge].
    - rewrite marks_open in B by lia. apply (AllSpec.all_pieces k m _ _ _ _ _ B F) in X.
      specialize (Z1 eq_refl (AllSpec.collects_open m _ _ X) ltac:(lia)). lia.
    - destruct Pr as [rest Er]. assert (rest = []) as ->; [|by rewrite app_nil_r in Er].
      apply (f_equal zlen) in Er. rewrite zlen_app in Er. destruct rest; [done|]. rewrite zlen_cons in Er. pose proof (zlen_nonneg rest). lia. }
  assert (content <> []) as Nc by (intros ->; by change (zlen []) with 0 in Hp). assert (ds <> []) as Nd by (by intros ->; apply Nc).
  destruct (marks_last (zlen content) ds 0) as (init & last & -> & M); [by rewrite Ed|done|done|]. rewrite M in B.
  apply (AllSpec.all_whole k m _ _ _ _ _ _ B F) in X. clear B. rename X into B.
  rewrite join_app in Ed. cbn in Ed. rewrite app_nil_r in Ed. rewrite Ed, compose_echoed in B by done.
  destruct (answers_data m _ _ B) as [L1 _]. apply advance_answered in A; [|done]. apply (answers_moves m _ _ _ A) in B.
  apply (answers_data m) in B as [L2 B]. destruct e; cbn in He; [done|congruence|done|by destruct He].
Qed.
(** C5. The sample filter send_recv_all over LSAPI, from bytes to bytes.  On a connection at
    rest (in a worker that is no longer root, notifies nobody of accepted requests and has
    no log of its own for stderr; the kernel accepts every write, memory is to be had) a
    well-formed request with [separated] header values arrives, in either byte order, with
    a first piece of at least the 8 bytes of a packet header (a shorter one loses the
    request, [readReq_short_first_piece]) and any pieces behind it; the text of the answer
    stays below 2^63 bytes.  It is served without undefined behaviour; behind the
    acknowledgement the wire carries one response of status 200 whose body is the text on
    the environment and the headers of the request, and then the body of the request byte
    for byte, with one line end behind it if it had none (or a prefix of its packets on a
    connection that is closed); and if the connection stays open it is at rest again. *)
Theorem send_recv_all_echoes (ctx : lsapi_MD5Context) (fd : Z) (x : exchange) (s : st) (w : option SendRecvAll.SendRecvAllContext) :
  at_rest fd s -> let t := arrive (x_reads x) s in asks x t ->
  (forall s1 d s2, readReq ctx t = Some (0, s1) -> lsapi_request s1 = Some (d, s2) -> zlen (echo_text d (x_content x)) < 2 ^ 63) ->
  exists s1 d s2 w' s3,
    readReq ctx t = Some (0, s1) /\ lsapi_request s1 = Some (d, s2) /\ request_headers d = request_pairs (x_image x) /\
    serve_request open_scope (SendRecvAll.callback k) (Some [m]) g_body_pacifier w s1 = Some (w', s3) /\
    wire_post fd (sent_on fd (os s) ++ pkt_bytes s_ack) (whole_response (Some (200, [], echo_text d (x_content x)))) s3 /\
    (m_fd (req s3) = fd -> at_rest fd s3).
Proof.
  intros A t [(Hok & Hsw & Hsep) Hstr Hp Hfirst Hin Hz] Hsmall. pose proof (at_rest_arrive _ (x_reads x) _ A) as At. fold t in At.
  inversion Hstr as [|? ? [method L1] Hs1]. inversion Hs1 as [|? ? [script L2] Hs2]. inversion Hs2 as [|? ? [query L3] _].
  pose proof At as [(Hfd & Hpos & Hn2 & Hl) _ _ _ _ _ _ [Hlog Hskip] Hout].
  destruct (arrival_run ctx fd (x_big x) (x_image x) (x_content x) t method script query)
    as (i & evs & allocs & s2 & R & E & Hfd1 & Hr & Hf & Hb2 & Eb2 & El); try done; [by apply at_rest_waiting|].
  set (s1 := request_read fd i evs allocs t) in *. set (d := mkHttpData _ _ _ _ _ _ _ _ _ _ _) in *.
  pose proof (all_quiet k) as Q. pose proof (all_closing k) as C. assert (NoDup [m]) as N by apply NoDup_singleton.
  destruct (quiet_phases open_scope (SendRecvAll.callback k) (Some [m]) g_body_pacifier fd (sent_on fd (os s1)) Q N s1 d s2 w Hfd1 eq_refl Hr Hf E Hb2)
    as (e & f & Ep & _ & _ & He).
  destruct (all_phases s1 s2 d w e f (x_content x) E eq_refl Hb2 Eb2 El Ep) as [-> Er].
  { rewrite Eb2, El in He. destruct e; cbn in *; try done; lia. }
  destruct (serve_request_spec open_scope (SendRecvAll.callback k) (Some [m]) g_body_pacifier Q N C fd s1 s2 d w Hfd1 Hr Hf E Hb2)
    as (e1 & g & f1 & w' & s3 & Hsv & _).
  { intros e1 g Eg. rewrite Ep in Eg. injection Eg as <- <-. rewrite Er. split; [constructor|]. by apply (Hsmall s1 d s2). }
  pose proof Hsv as [V1 _ _ _ _ _ V2 V3 _ _]. rewrite Ep in V1. injection V1 as <- <-. rewrite Er in V3. unfold s1 in V3. rewrite sent_request_read in V3.
  exists s1, d, s2, w', s3. repeat (split; [done|]). by eapply served_at_rest.
Qed.
End EchoAll.

(** An SDK and a module to try the theorems on. *)
Definition demo_sdk : sdk :=
  mkSdk (Some (2, 8)) (Some [Some (str "A=b"); Some (str "C=d")]) (fun b n => take (Z.to_nat n) <$> b)
    (fun status hs => le32 status ++ marshal_pairs hs) (fun r => match r with BadArgument => true | _ => false end) 2 (fun l => l) (fun _ => 0).

#[export] Instance demo_sdk_laws : SdkLaws demo_sdk.
Proof.
  split; [|done|done]. intros b. cbn. f_equal. unfold zlen. rewrite Nat2Z.id. by rewrite take_ge.
Qed.

Definition sample_open {X} (m : name) (w : option X) : option ContextBase * option X := (Some (mkBase (Some []) None (Some []) []), w).

Lemma sample_opens {X} m (w : option X) : exists w0, sample_open m w = (Some (mkBase (Some []) None (Some []) []), w0).
Proof. by exists w. Qed.

Lemma send_recv_all_echoes_witness :
  exists s1 d s2 w' s3,
    readReq ctx0 (arrive (web_pieces true) web_resting) = Some (0, s1) /\ lsapi_request s1 = Some (d, s2) /\
    serve_request sample_open (SendRecvAll.callback demo_sdk) (Some [custom_filter]) false None s1 = Some (w', s3) /\
    wire_post 7 (sent_on 7 (os web_resting) ++ pkt_bytes s_ack) (whole_response (Some (200, [], echo_text (k := demo_sdk) d (str "abcdefg")))) s3.
Proof.
  assert (match web_reads web_resting with
    | Some (r, s1) => match lsapi_request s1 with Some (d, _) => zlen (echo_text (k := demo_sdk) d (str "abcdefg")) <? 2 ^ 63 | None => true end
    | None => true end = true) as X by (vm_compute; reflexivity).
  destruct (send_recv_all_echoes (k := demo_sdk) custom_filter (mkBase (Some []) None (Some []) []) false sample_open (sample_opens custom_filter)
    ctx0 7 (web_exchange true None) web_resting None web_resting_ok) as (s1 & d & s2 & w' & s3 & R & E & _ & S & Wr & _); rewrite ?web_exchange_reads.
  - exact (web_exchange_asks true None web_resting eq_refl eq_refl).
  - intros s1 d s2 R E. rewrite R in X. rewrite E in X. exact (proj1 (Z.ltb_lt _ _) X).
  - rewrite web_exchange_reads in R. exact (ex_intro _ s1 (ex_intro _ d (ex_intro _ s2 (ex_intro _ w' (ex_intro _ s3 (conj R (conj E (conj S Wr)))))))).
Defined.

(** ** send_recv_stream *)

Module StreamSpec.
Import SendRecvStream.

(** The head on the wire: that of the module, made consistent with chunked transfer. *)
Definition head_on_wire : list Z := serialize_headers 200 (response_head ++ [(str "Transfer-Encoding", str "chunked")]).

#[global] Arguments head_on_wire : simpl never.

Definition sink_with (ws : list (list Z)) : HttpResponseSink := mkHttpSink true true false ws.

Section Foreign.
Context (k : sdk) `{!SdkLaws k}.

Lemma runs_foreign live cl c s r x (Q : WasmResult -> LsWasmContext -> HttpResponseSink -> Prop) :
  sink_set c = true -> foreign cl (mkStream (Some s) (stream_state c)) = Some (r, x) ->
  Q r (set_stream true (streaming_state_ x) c) (default s (sink_ x)) -> runs live (call (Foreign cl)) c s Q.
Proof.
  intros Hs E HQ. apply (runs_call live (Foreign cl) c s r (set_stream true (streaming_state_ x) c) (default s (sink_ x))); [|done].
  cbn [host_step]. unfold foreign_on. rewrite Hs. cbn [default]. by rewrite E.
Qed.

Lemma runs_probe live c s (Q : WasmResult -> LsWasmContext -> HttpResponseSink -> Prop) :
  sink_set c = true -> (forall c', view c' = view c -> Q BadArgument c' s) -> runs live (call (Foreign (FSendHeaders []))) c s Q.
Proof. intros Hs HQ. eapply runs_foreign; [done|reflexivity|]. cbn. apply HQ. unfold view. cbn. by rewrite Hs. Qed.

Lemma runs_head live c (Q : WasmResult -> LsWasmContext -> HttpResponseSink -> Prop) :
  sink_set c = true -> stream_state c = Idle -> Q Ok (set_stream true HeadersSent c) (sink_with [head_on_wire]) ->
  runs live (call (Foreign (FSendHeaders (headers_argument k 200 response_head)))) c new_HttpResponseSink Q.
Proof.
  intros Hs Hi HQ. rewrite law_argument. eapply (runs_foreign _ _ _ _ Ok (mkStream (Some (sink_with [head_on_wire])) HeadersSent)); [done| |exact HQ].
  rewrite Hi. vm_compute. reflexivity.
Qed.

Lemma runs_chunk live data ws c (Q : WasmResult -> LsWasmContext -> HttpResponseSink -> Prop) :
  sink_set c = true -> stream_state c = HeadersSent -> data <> [] ->
  Q Ok (set_stream true HeadersSent c) (sink_with (ws ++ [chunk data])) ->
  runs live (call (Foreign (FWriteChunk data))) c (sink_with ws) Q.
Proof.
  intros Hs Hi Hd HQ. eapply (runs_foreign _ _ _ _ Ok (mkStream (Some (sink_with (ws ++ [chunk data]))) HeadersSent)); [done| |exact HQ].
  rewrite Hi. cbn [foreign]. unfold streamingWriteChunk. cbn [sink_ streaming_state_]. rewrite bool_decide_eq_false_2 by done.
  cbn. unfold http_writeBody. cbn. by rewrite bool_decide_eq_false_2 by done.
Qed.

Lemma runs_finish live ws c (Q : WasmResult -> LsWasmContext -> HttpResponseSink -> Prop) :
  sink_set c = true -> stream_state c = HeadersSent ->
  Q Ok (set_stream true StreamFinished c) (sink_with (ws ++ [last_chunk])) ->
  runs live (call (Foreign FFinish)) c (sink_with ws) Q.
Proof.
  intros Hs Hi HQ. eapply (runs_foreign _ _ _ _ Ok (mkStream (Some (sink_with (ws ++ [last_chunk]))) StreamFinished)); [done| |exact HQ].
  by rewrite Hi.
Qed.
End Foreign.

(** ** Its callbacks *)

Definition at_state (state : StreamingResponseState) (c : LsWasmContext) : Prop :=
  sink_set c = true /\ stream_state c = state /\ has_local_response_ (local_ c) = false.

Lemma view_at_state state c c' : view c' = view c -> at_state state c -> at_state state c'.
Proof. intros V (A & B & C). destruct (view_stream _ _ V). pose proof (view_local _ _ V). unfold at_state. by repeat split; congruence. Qed.

Lemma set_stream_at state state' c : at_state state c -> at_state state' (set_stream true state' c).
Proof. by intros (_ & _ & C). Qed.

(** The preamble [P] is held back; or it is on the wire with the pieces [ds]. *)
Definition waits (P : list Z) (x : SendRecvStreamContext) (c : LsWasmContext) (s : HttpResponseSink) : Prop :=
  preamble_ x = P /\ streaming_supported_ x = true /\ headers_sent_ x = false /\ at_state Idle c /\ s = new_HttpResponseSink.

Definition written_chunks (P : list Z) (ds : list (list Z)) : list (list Z) := head_on_wire :: (chunk <$> P :: ds).

Definition opened (P : list Z) (ds : list (list Z)) (x : SendRecvStreamContext) (c : LsWasmContext) (s : HttpResponseSink) : Prop :=
  streaming_supported_ x = true /\ headers_sent_ x = true /\ at_state HeadersSent c /\ s = sink_with (written_chunks P ds).

Definition streams (P : list Z) (ds : list (list Z)) (x : SendRecvStreamContext) (c : LsWasmContext) (s : HttpResponseSink) : Prop :=
  (ds = [] /\ waits P x c s) \/ opened P ds x c s.

Definition finished (P : list Z) (ds : list (list Z)) (c : LsWasmContext) (s : HttpResponseSink) : Prop :=
  at_state StreamFinished c /\ s = sink_with (written_chunks P ds ++ [last_chunk]).

Lemma view_streams P ds x c c' s : view c' = view c -> streams P ds x c s -> streams P ds x c' s.
Proof. intros V [[-> (A & B & C & D & E)]|(A & B & C & D)]; [left|right]; unfold waits, opened; eauto 10 using view_at_state. Qed.

Lemma written_app P ds d : written_chunks P ds ++ [chunk d] = written_chunks P (ds ++ [d]).
Proof. unfold written_chunks. by rewrite !fmap_cons, fmap_app. Qed.

Section Callbacks.
Context (k : sdk) `{!SdkLaws k} (m : name).

Lemma runs_streamPreamble live P ds x c s : P <> [] -> streams P ds x c s ->
  runs live (streamPreamble k x) c s (fun r c' s' => r.1 = true /\ opened P ds r.2 c' s' /\ request_body_ c' = request_body_ c).
Proof.
  intros NP [[-> (EP & Su & Se & Hc & ->)]|(Su & Se & Hc & ->)]; unfold streamPreamble; rewrite Se; [|by apply runs_ret].
  apply runs_bind, runs_head; [done|apply Hc..|]. cbn [is_ok negb preamble_ set_headers_sent]. rewrite EP. destruct P as [|y P]; [done|].
  pose proof (set_stream_at _ HeadersSent _ Hc) as H1. apply runs_bind, runs_chunk; [apply H1..|done|]. cbn [is_ok]. apply runs_bind, runs_ret, runs_ret.
  split; [done|]. split; [|done]. by repeat split; try apply Hc.
Qed.

Lemma runs_stream_headers live eos c : at_state Idle c ->
  let P := preamble_text k (map_at RequestHeaders c) in
  runs live (callback k m (OnRequestHeaders eos) (Some (mkStreamer [] false false 0))) c new_HttpResponseSink (fun w' c' s' =>
    if eos then exists x, w' = Some x /\ finished P [str "(no body)" ++ [10]] c' s' else exists x, w' = Some x /\ waits P x c' s').
Proof.
  intros Hc P. unfold callback, onRequestHeaders. apply runs_bind, runs_bind, runs_LOG. intros c1 V1. pose proof (view_at_state _ _ _ V1 Hc) as H1.
  apply runs_bind, runs_probe; [apply H1|]. intros c2 V2. pose proof (view_at_state _ _ _ V2 H1) as H2. rewrite law_probe.
  apply runs_bind, runs_LOG. intros c3 V3. pose proof (view_at_state _ _ _ V3 H2) as H3. apply runs_bind. unfold buildPreamble. apply runs_bind, runs_pairs, runs_ret.
  rewrite (view_headers _ _ V3), (view_headers _ _ V2), (view_headers _ _ V1). fold P. set (x := set_preamble P _).
  assert (waits P x c3 new_HttpResponseSink) as Hx by done. destruct eos; [|by apply runs_ret, runs_ret; exists x].
  cbn [streaming_supported_ x set_preamble set_supported]. apply runs_bind. eapply runs_weaken; [|apply (runs_streamPreamble live P []); [done|by left]].
  intros [sent x1] c4 s4 (Et & (Su & Se & Hc4 & ->) & _). cbn [fst snd] in *. subst sent. apply runs_bind, runs_chunk; [apply Hc4..|done|]. pose proof (set_stream_at _ HeadersSent _ Hc4) as H5.
  apply runs_bind, runs_finish; [apply H5..|]. apply runs_ret, runs_ret. exists x1. split; [done|]. split; [by eapply set_stream_at|].
  by rewrite written_app.
Qed.

Lemma runs_stream_body live P ds data eos x c s : P <> [] -> streams P ds x c s -> request_body_ c = mkView data live -> data <> [] ->
  runs live (callback k m (OnRequestBody (zlen data) eos) (Some x)) c s (fun w' c' s' =>
    exists x', w' = Some x' /\ if eos then finished P (ds ++ [data]) c' s' else opened P (ds ++ [data]) x' c' s').
Proof.
  intros NP Hs E N. unfold callback, onRequestBody. apply runs_bind, runs_bind, runs_LOG. intros c1 V1. rewrite <- (view_body _ _ V1) in E.
  pose proof (view_streams _ _ _ _ _ _ V1 Hs) as H1.
  assert (streaming_supported_ x = true) as -> by (destruct H1 as [[_ (_ & ? & _)]|(? & _)]; done).
  apply runs_bind, runs_bind. eapply runs_weaken; [|by apply (runs_streamPreamble live P ds)]. intros [sent x1] c2 s2 (Et & (Su & Se & H2 & ->) & E2). cbn [fst snd] in *. subst sent.
  rewrite E in E2. apply runs_ret, runs_bind. apply (runs_piece k); [done..|]. cbn [default]. destruct data as [|y data]; [done|]. rewrite Su.
  apply runs_bind, runs_bind, runs_chunk; [apply H2..|done|]. pose proof (set_stream_at _ HeadersSent _ H2) as H3. cbn [is_ok]. apply runs_bind, runs_ret, runs_ret.
  rewrite written_app. destruct eos; cbn [negb].
  - cbn [streaming_supported_ set_echoed]. rewrite Su. apply runs_bind, runs_LOG. intros c4 V4. pose proof (view_at_state _ _ _ V4 H3) as H4.
    apply runs_bind, runs_finish; [apply H4..|]. apply runs_ret, runs_ret. eexists. split; [done|]. split; [by eapply set_stream_at|]. reflexivity.
  - apply runs_ret, runs_ret. eexists. split; [done|]. by repeat split; try apply H3.
Qed.

Lemma runs_stream_create live w c (s : HttpResponseSink) :
  runs live (callback k m OnCreate w) c s (fun w' c' s' => w' = Some (mkStreamer [] false false 0) /\ view c' = view c /\ s' = s).
Proof. unfold callback. apply runs_bind, runs_LOG. intros c' V. by apply runs_ret. Qed.
End Callbacks.

(** ** The chain with this module *)

Section Chain.
Context (k : sdk) `{!SdkLaws k} (m : name) (P : list Z) (NP : P <> []).

Abbreviation chain := (Filters.chain HttpResponseSink (option SendRecvStreamContext)).
Abbreviation body_run := (ChainSpec.body_run (Sk := HttpResponseSink) (callback k) eq).

Definition streaming (ds : list (list Z)) (f : chain) : Prop :=
  exists x c, alone m c f /\ vms f = Some x /\ streams P ds x c (sink f).
Definition ended (ds : list (list Z)) (f : chain) : Prop :=
  exists w c, alone m c f /\ vms f = w /\ finished P ds c (sink f).

Lemma streams_silent ds x c s : streams P ds x c s -> has_local_response_ (local_ c) = false.
Proof. by intros [[_ (_ & _ & _ & (_ & _ & ?) & _)]|(_ & _ & (_ & _ & ?) & _)]. Qed.

Lemma streaming_open ds f : streaming ds f -> has_local_response (http_data f) = false.
Proof. intros (x & c & A & _ & S). eapply alone_open; [exact A|]. by eapply streams_silent. Qed.

Lemma ended_open ds f : ended ds f -> has_local_response (http_data f) = false.
Proof. intros (w & c & A & _ & (_ & _ & N) & _). by eapply alone_open. Qed.

Lemma stream_moves ds f f' : host_moves (host := eq) f f' -> streaming ds f -> streaming ds f'.
Proof. intros (Es & E & Ev) (x & c & A & V & S). exists x, c. rewrite Ev, <- E. by repeat split; try apply (alone_same m c f). Qed.

Lemma stream_opens open_scope b w0 eos d w : open_scope m w = (Some b, w0) -> has_local_response d = false ->
  P = preamble_text k (request_headers (synthesizePseudoHeaders d)) ->
  exists f, Filters.onRequestHeaders open_scope (callback k) (Some [m]) eos (new_chain d new_HttpResponseSink w) = Some f /\
    if eos then ended [str "(no body)" ++ [10]] f else streaming [] f.
Proof.
  intros Eo L EP. destruct (runs_stream_create k m 0 w0 (new_context b) new_HttpResponseSink) as (w1 & c1 & s1 & R1 & -> & V & ->).
  assert (at_state Idle (opened_context d c1)) as Hc by (destruct (view_stream _ _ V) as [_ St]; split; [done|]; split; [exact St|done]).
  destruct (runs_stream_headers k m 0 eos (opened_context d c1) Hc) as (w2 & c2 & s2 & R2 & X).
  destruct (alone_headers open_scope (callback k) m eos d _ _ _ w w0 _ w2 b c1 c2 L Eo R1 R2) as (f & E & A & Ev & Es). exists f. split; [done|].
  assert (map_at RequestHeaders (opened_context d c1) = request_headers (synthesizePseudoHeaders d)) as Em.
  { unfold map_at, opened_context, setHeaderMap, upd_map. cbn. by rewrite lookup_insert_eq. }
  rewrite Em, <- EP, <- Es in X. destruct eos; destruct X as (x & -> & X); [by exists (Some x), c2|]. exists x, c2. split; [done|]. split; [done|]. by left.
Qed.

Lemma stream_piece eos data ds f : streaming ds f -> data <> [] ->
  exists f', Filters.onRequestBody (callback k) eos (assign_request_body data f) = Some f' /\
    if eos then ended (ds ++ [data]) f' else streaming (ds ++ [data]) f'.
Proof.
  intros (x & c & A & V & S) Hd. set (c0 := setEndOfStream eos (setRequestBody (mkView data (body_gen f + 1)) c)).
  assert (streams P ds x c0 (sink f)) as S0 by exact S.
  destruct (runs_stream_body k m (body_gen f + 1) P ds data eos x c0 (sink f) NP S0 eq_refl Hd) as (w & c' & s & R & x' & -> & X). rewrite <- V in R.
  destruct (alone_body (callback k) m eos data c c' s _ f A (streams_silent _ _ _ _ S) R) as (f' & E & A' & Ev & Es). exists f'. split; [done|].
  rewrite <- Es in X. destruct eos; [by exists (Some x'), c'|]. exists x', c'. split; [done|]. split; [done|]. by right.
Qed.

Lemma stream_pieces es : forall f g ds, body_run f ((fun d => (d, false)) <$> es) g -> Forall (fun d => d <> []) es ->
  streaming ds f -> streaming (ds ++ es) g.
Proof.
  induction es as [|d es IH]; intros f g ds B F Hs; inversion B as [? ? Hm|f0 f1 f2 ? ? ? ? Hm R B2]; subst; apply (stream_moves _ _ _ Hm) in Hs.
  - by rewrite app_nil_r.
  - apply Forall_cons in F as [Fd F]. destruct (stream_piece false d ds f1 Hs Fd) as (f3 & E & X). rewrite R in E. injection E as <-.
    apply (IH _ _ _ B2 F) in X. by rewrite <- app_assoc in X.
Qed.

Lemma stream_whole init last : forall f g ds, body_run f (((fun d => (d, false)) <$> init) ++ [(last, true)]) g ->
  Forall (fun d => d <> []) (init ++ [last]) -> streaming ds f -> ended (ds ++ init ++ [last]) g.
Proof.
  induction init as [|d init IH]; intros f g ds B F Hs; inversion B as [? ? Hm|f0 f1 f2 ? ? ? ? Hm R B2]; subst;
    cbn [app] in F; apply Forall_cons in F as [Fd F]; apply (stream_moves _ _ _ Hm) in Hs.
  - destruct (stream_piece true last ds f1 Hs Fd) as (f3 & E & (w & c & A & V & X)). rewrite R in E. injection E as <-.
    inversion B2 as [? ? (Es & Ek & Ev)|]; subst. exists (vms g), c. rewrite <- Ek. split; [by apply (alone_same m c f2)|done].
  - destruct (stream_piece false d ds f1 Hs Fd) as (f3 & E & X). rewrite R in E. injection E as <-.
    apply (IH _ _ _ B2 F) in X. by rewrite <- app_assoc in X.
Qed.

(** The loop over the body comes to an end, whatever the event loop feeds. *)
Lemma stream_loop_total content_length : forall feeds consumed c ds f, consumed < content_length -> streaming ds f ->
  exists r f', body_loop (callback k) feeds content_length consumed c f = Some (r, f').
Proof.
  induction feeds as [|fs feeds IH]; intros consumed c ds f Hc Hs; cbn [body_loop]; rewrite (proj2 (Z.ltb_lt _ _)) by done;
    rewrite (streaming_open _ _ Hs); cbn [andb negb]; [by eexists _, f|].
  destruct (readBodyChunk _ _) as [[rd c1]|]; [|by eexists _, f]. destruct (rr_status rd) eqn:St; try (by eexists _, f);
    (destruct (rr_data rd) as [|x l] eqn:Ed; [by eexists _, f|]); set (data := x :: l) in *;
    (destruct (stream_piece (content_length <=? consumed + zlen data) data ds f Hs) as (f1 & -> & X); [done|]); cbn [mbind option_bind];
    (destruct (Z.leb_spec content_length (consumed + zlen data)); [|by eapply IH]);
    destruct feeds; cbn [body_loop]; rewrite (proj2 (Z.ltb_ge _ _)) by done; by eexists _, f1.
Qed.

(** Behind the last piece the trailers change nothing, and the host finds the stream ended. *)
Lemma ended_finishes g_body_pacifier runtime_line feeds c f r f1 ds :
  stream_body (callback k) feeds c f = Some (r, f1) -> (r = None -> ended ds f1) ->
  exists e f2, request_phases (callback k) (Some [m]) g_body_pacifier runtime_line feeds c f = Some (e, f2) /\
    (e = Finished -> r = Some Finished \/ r = None /\ sink f2 = sink_with (written_chunks P ds ++ [last_chunk])).
Proof.
  intros E X. unfold request_phases. rewrite E. cbn [mbind option_bind]. destruct r as [e|]; [exists e, f1; split; [done|]; intros ->; by left|].
  specialize (X eq_refl). rewrite (ended_open _ _ X). cbn [mbind option_bind]. destruct X as (w & c0 & A & V & Hc & Hk).
  assert (exists f2, onRequestTrailers (callback k) f1 = Some f2 /\ alone m c0 f2 /\ vms f2 = w /\ sink f2 = sink f1) as (f2 & E2 & A2 & _ & Es).
  { apply (alone_phase (callback k) m OnRequestTrailers (fun _ c => c) (fun _ d => d) c0 c0 (sink f1) w f1); [done|apply Hc|done|]. rewrite <- V. by destruct (vms f1). }
  rewrite E2. cbn [mbind option_bind]. rewrite (alone_open _ _ _ A2) by apply Hc. destruct Hc as (_ & St & _).
  assert (chain_hasStreamingResponse f2 = true /\ chain_isStreamingFinished f2 = true) as [-> Fin].
  { unfold chain_hasStreamingResponse, chain_isStreamingFinished, any_context. rewrite (al_scopes _ _ _ A2). cbn. by rewrite St. }
  unfold end_streaming. rewrite Fin. exists Finished, f2. split; [done|]. intros _. right. split; [done|]. congruence.
Qed.
End Chain.

Section EchoStream.
Context {k : sdk} `{!SdkLaws k} (m : name) (b : ContextBase) (g_body_pacifier : bool) (runtime_line : list Z).
Context (open_scope : name -> option SendRecvStreamContext -> option ContextBase * option SendRecvStreamContext).
Context (opens : forall w, exists w0, open_scope m w = (Some b, w0)).

Abbreviation handle := (handle_request open_scope (callback k) (Some [m]) g_body_pacifier runtime_line).

Definition preamble_of (d : HttpData) : list Z := preamble_text k (request_headers (synthesizePseudoHeaders d)).

Lemma preamble_some d : preamble_of d <> [].
Proof. unfold preamble_of, preamble_text. by destruct (str "=== Environment Variables ===") eqn:E. Qed.

Lemma stream_body_total P feeds c f : P <> [] -> 0 < content_length_ c -> streaming m P [] f ->
  exists r f1, stream_body (callback k) feeds c f = Some (r, f1).
Proof using SdkLaws0.
  intros NP Hl Hs. unfold stream_body. rewrite (proj2 (Z.ltb_lt _ _)) by done. destruct (body_prefix_ c) as [|x l]; cbn [mbind option_bind].
  - by eapply (stream_loop_total k m P NP).
  - set (data := x :: l). destruct (stream_piece k m P NP (content_length_ c <=? zlen data) data [] f Hs) as (f1 & -> & X); [done|]. cbn [mbind option_bind].
    destruct (Z.leb_spec (content_length_ c) (zlen data)); [|by eapply (stream_loop_total k m P NP)].
    destruct feeds; cbn [body_loop]; rewrite (proj2 (Z.ltb_ge _ _)) by done; by eexists _, f1.
Qed.

(** The pieces of a body that is whole. *)
Lemma stream_body_ended P feeds c f f1 : P <> [] -> 0 < content_length_ c -> zlen (body_prefix_ c) <= content_length_ c -> streaming m P [] f ->
  stream_body (callback k) feeds c f = Some (None, f1) -> exists ds, ended m P ds f1 /\ Forall (fun d => d <> []) ds /\
    zlen (mjoin ds) = content_length_ c /\ mjoin ds `prefix_of` body_prefix_ c ++ read_chunk_ c ++ mjoin (fed_data <$> feeds).
Proof using SdkLaws0.
  intros NP Hl Hpre Hs E. apply stream_body_run in E as (ds & B & _ & F & Pr & Z1 & Z2). exists ds.
  assert (zlen (mjoin ds) = content_length_ c) as Z3.
  { apply Z.le_antisymm; [apply Z2; lia|]. apply Z.le_ngt. intros Hlt. rewrite marks_open in B by lia. apply (stream_pieces k m P NP _ _ _ _ B F) in Hs.
    specialize (Z1 eq_refl (streaming_open _ _ _ _ Hs) ltac:(lia) Hpre). lia. }
  assert (ds <> []) as Nd. { intros ->. change (mjoin []) with (@nil Z) in Z3. rewrite (zlen_nil (A:=Z)) in Z3. lia. }
  destruct (marks_last (content_length_ c) ds 0) as (init & last & -> & M); [lia|done|done|]. rewrite M in B.
  apply (stream_whole k m P NP _ _ _ _ _ B F) in Hs. done.
Qed.

(** C6. The sample filter send_recv_stream over HTTP.  Whatever the event loop feeds, and when,
    the handler comes to its end or waits for the event loop.  When it finishes the
    connection, the bytes written are the head of the module made consistent with chunked
    transfer, and a chunked body that decodes, with nothing behind it, to the text on the
    environment and the headers of the request followed by the body of the request: its
    announced length of the bytes that arrived, in order. *)
Theorem send_recv_stream_echoes (feeds : list (list loop_feed)) (c : ConnectionIO) (w : option SendRecvStreamContext) :
  0 <= content_length_ c < 2 ^ 64 -> zlen (body_prefix_ c) <= content_length_ c ->
  (forall d, parse_request (header_data_ c) = Some d -> zlen (preamble_of d) < 2 ^ 64) ->
  exists e r, handle feeds c w = Some (e, r) /\
    (e = Finished -> exists f d chunks content,
      r = Some f /\ parse_request (header_data_ c) = Some d /\
      mjoin (written (sink f)) = head_on_wire ++ chunks /\
      dechunk_all chunks = Some (preamble_of d ++ (if content_length_ c =? 0 then str "(no body)" ++ [10] else content), []) /\
      zlen content = content_length_ c /\ content `prefix_of` body_prefix_ c ++ read_chunk_ c ++ mjoin (fed_data <$> feeds)).
Proof.
  intros Hl Hpre Hsize. unfold handle_request. destruct (parse_request (header_data_ c)) as [d|] eqn:Ep; [|by exists Errored, None].
  specialize (Hsize d eq_refl). set (P := preamble_of d) in *. pose proof (preamble_some d : P <> []) as NP. destruct (opens w) as [w0 Eo].
  destruct (stream_opens k m P open_scope b w0 (negb (0 <? content_length_ c)) d w Eo (parsed_unanswered _ _ Ep) eq_refl) as (f0 & -> & X).
  cbn [mbind option_bind].
  assert (forall (f : chain HttpResponseSink (option SendRecvStreamContext)) ds, sink f = sink_with (written_chunks P ds ++ [last_chunk]) -> Forall (fun x => x <> [] /\ zlen x < 2 ^ 64) ds -> exists chunks,
    mjoin (written (sink f)) = head_on_wire ++ chunks /\ dechunk_all chunks = Some (P ++ mjoin ds, [])) as Wire.
  { intros f ds -> F. exists (mjoin (chunk <$> P :: ds) ++ last_chunk). cbn [written sink_with]. unfold written_chunks.
    rewrite join_app, mjoin_cons. cbn [mjoin list_join]. rewrite app_nil_r, <- app_assoc. split; [done|].
    rewrite dechunk_all_stream by (by constructor). by rewrite mjoin_cons. }
  destruct (Z.ltb_spec 0 (content_length_ c)) as [Hp|Hz]; cbn [negb] in X.
  - rewrite (streaming_open _ _ _ _ X). destruct (stream_body_total P feeds c f0 NP Hp X) as (r & f1 & E).
    assert (exists ds, (r = None -> ended m P ds f1 /\ Forall (fun d => d <> []) ds /\ zlen (mjoin ds) = content_length_ c /\
      mjoin ds `prefix_of` body_prefix_ c ++ read_chunk_ c ++ mjoin (fed_data <$> feeds))) as [ds Hds].
    { destruct r as [e|]; [by exists []|]. destruct (stream_body_ended P feeds c f0 f1 NP Hp Hpre X E) as (ds & H). by exists ds. }
    destruct (ended_finishes k m P g_body_pacifier runtime_line feeds c f0 r f1 ds E ltac:(intros ->; by apply Hds)) as (e & f2 & -> & He).
    cbn [mbind option_bind]. exists e, (Some f2). split; [done|]. intros He1. destruct (He He1) as [-> |[-> Es]].
    { exfalso. by apply stream_body_run in E as (_ & _ & N & _). }
    destruct (Hds eq_refl) as (_ & F & Z & Pr). destruct (Wire f2 ds Es) as (chunks & W1 & W2).
    { apply Forall_forall. intros x Hx. rewrite Forall_forall in F. split; [by apply F|]. pose proof (zlen_elem_join x ds Hx). lia. }
    exists f2, d, chunks, (mjoin ds). rewrite (proj2 (Z.eqb_neq _ _)) by lia. done.
  - rewrite (ended_open _ _ _ _ X). assert (content_length_ c = 0) as El by lia.
    assert (stream_body (callback k) feeds c f0 = Some (None, f0)) as E by (unfold stream_body; by rewrite El).
    destruct (ended_finishes k m P g_body_pacifier runtime_line feeds c f0 None f0 _ E (fun _ => X)) as (e & f2 & -> & He).
    cbn [mbind option_bind]. exists e, (Some f2). split; [done|]. intros He1. destruct (He He1) as [He2|[_ Es]]; [done|].
    destruct (Wire f2 _ Es) as (chunks & W1 & W2); [by repeat constructor|]. exists f2, d, chunks, []. rewrite El. change (0 =? 0) with true.
    cbn [mjoin list_join] in W2. rewrite app_nil_r in W2. repeat (split; [done|]). apply prefix_nil.
Qed.
End EchoStream.

Abbreviation demo_stream := (handle_request sample_open (callback demo_sdk) (Some [str "custom_filter"]) false [] demo_feeds demo_io None).

Lemma send_recv_stream_echoes_witness :
  match demo_stream with
  | Some (Finished, Some f) => exists d chunks content,
      mjoin (written (sink f)) = head_on_wire ++ chunks /\
      dechunk_all chunks = Some (preamble_of (k := demo_sdk) d ++ content, []) /\ zlen content = 7 /\ content `prefix_of` str "abcdefg"
  | _ => False
  end.
Proof.
  assert (match demo_stream with Some (Finished, Some _) => true | _ => false end &&
    match parse_request (header_data_ demo_io) with Some d => zlen (preamble_of (k := demo_sdk) d) <? 2 ^ 64 | None => true end = true) as X
    by (vm_compute; reflexivity).
  apply andb_prop in X as [X1 X2].
  destruct (send_recv_stream_echoes (k := demo_sdk) (str "custom_filter") (mkBase (Some []) None (Some []) []) false [] sample_open (sample_opens (str "custom_filter"))
    demo_feeds demo_io None) as (e & r & E & H).
  - split; [discriminate|reflexivity].
  - discriminate.
  - intros d Ed. rewrite Ed in X2. exact (proj1 (Z.ltb_lt _ _) X2).
  - rewrite E in X1 |- *. destruct e; try discriminate X1. destruct (H eq_refl) as (f & d & chunks & content & -> & _ & W1 & W2 & Z1 & Pr).
    exists d, chunks, content. split; [exact W1|]. split; [exact W2|]. split; [exact Z1|exact Pr].
Defined.
End StreamSpec.

(** ** sample_filter *)

(** The filter answers every request at its headers, over either transport, with the text
    on the environment and the headers, and does not touch the sink. *)
Lemma sample_filter_answers {Sk} `{ResponseSink Sk} (k : sdk) (m : name) (b : ContextBase) open_scope eos d (s : Sk) w w0 :
  open_scope m w = (Some b, w0) -> has_local_response d = false ->
  exists f, Filters.onRequestHeaders open_scope (SampleFilter.callback k) (Some [m]) eos (new_chain d s w) = Some f /\ sink f = s /\
    answers m (SampleFilter.build_environ_body k ++ headers_text (request_headers (synthesizePseudoHeaders d))) f.
Proof.
  intros Eo L.
  assert (forall live c s, runs live (SampleFilter.callback k m OnCreate w0) c s (fun _ _ s' => s' = s)) as C.
  { intros live c s1. by apply runs_LOG. }
  destruct (C 0 (new_context b) s) as (w1 & c1 & s1 & R1 & ->).
  assert (runs 0 (SampleFilter.callback k m (OnRequestHeaders eos) w1) (opened_context d c1) s (fun _ c' s' => s' = s /\
    local_ c' = mkLocal true 200 (SampleFilter.build_environ_body k ++ headers_text (request_headers (synthesizePseudoHeaders d))) [] []))
    as (w2 & c2 & s2 & R2 & -> & E2).
  { cbn [SampleFilter.callback]. unfold SampleFilter.onRequestHeaders, SampleFilter.build_header_body, build_headers_section.
    apply runs_bind, runs_LOG. intros c2 V. apply runs_bind, runs_bind, runs_pairs, runs_ret, runs_answer. rewrite (view_headers _ _ V).
    unfold map_at, opened_context, setHeaderMap, upd_map. cbn [header_maps_ set_header_maps]. by rewrite lookup_insert_eq. }
  destruct (alone_headers open_scope (SampleFilter.callback k) m eos d s s s w w0 w1 w2 b c1 c2 L Eo R1 R2) as (f & E & A & _ & Es).
  exists f. split; [done|]. split; [done|]. by exists c2.
Qed.
