(* ===== verification/EventLoop.v ===== *)
(** * The event loop of the HTTP server

    [HttpServer::accept_connections] of main.cpp: the table of connections, the kernel's
    epoll set, the eventfd, and the handlers for a new connection, the eventfd and a
    client.  Workers run in other threads: between any two accesses of the loop to a
    [ConnectionIO], which each take its lock, any number of worker steps may happen. *)

From stdpp Require Export gmap.
From S2P Require Export HttpUtils ConnectionIO.

Open Scope Z_scope.

(** ** State *)

Definition EPOLLIN : Z := 1.
Definition EPOLLOUT : Z := 4.
Definition EPOLLERR : Z := 8.
Definition EPOLLHUP : Z := 16.
Definition MAX_HEADER_SIZE : Z := 65536.

Definition has_ev (flag ev : Z) : bool := negb (Z.land ev flag =? 0).

Inductive ConnState := ReadingHeaders | Active.

(** [conn_io] is a shared pointer: an index into the objects.  The last field is history:
    everything that [recv] returned on this connection. *)
Record ConnCtx := mkConnCtx {
  state : ConnState;
  header_buf : list Z;
  conn_io : option nat;
  body_complete : bool;
  epoll_events : Z;
  received : list Z
}.

Definition new_ConnCtx : ConnCtx := mkConnCtx ReadingHeaders [] None false EPOLLIN [].

(** What a worker may do to a [ConnectionIO]. *)
Inductive worker_op := WWrite (data : list Z) | WFinish | WSetError | WRead (max_chunk : Z).

(** The objects with the body bytes fed to each (history); the tasks in the order of
    [submit]; the counter of the eventfd; the closed descriptors and the bytes sent on
    each descriptor (history); and, for every later access of the loop to an object, the
    worker steps that come before it. *)
Record loop := mkLoop {
  connections : gmap Z ConnCtx;
  interest : gmap Z Z;
  objects : list (ConnectionIO * list Z);
  tasks : list nat;
  counter : Z;
  closed : list Z;
  wire : list (Z * list Z);
  workers : list (list (nat * worker_op))
}.

Definition L (A : Type) : Type := loop -> A * loop.
#[export] Instance L_ret : MRet L := fun A x l => (x, l).
#[export] Instance L_bind : MBind L := fun A B f m l => let '(x, l) := m l in f x l.

#[export] Instance L_map : FMap L := fun A B f m l => let '(x, l) := m l in (f x, l).

Definition get {A} (f : loop -> A) : L A := fun l => (f l, l).
Definition modify (f : loop -> loop) : L unit := fun l => (tt, f l).

Definition set_connections (c : gmap Z ConnCtx) (l : loop) : loop :=
  mkLoop c (interest l) (objects l) (tasks l) (counter l) (closed l) (wire l) (workers l).
Definition set_interest (i : gmap Z Z) (l : loop) : loop :=
  mkLoop (connections l) i (objects l) (tasks l) (counter l) (closed l) (wire l) (workers l).
Definition set_objects (o : list (ConnectionIO * list Z)) (l : loop) : loop :=
  mkLoop (connections l) (interest l) o (tasks l) (counter l) (closed l) (wire l) (workers l).
Definition set_counter (n : Z) (l : loop) : loop :=
  mkLoop (connections l) (interest l) (objects l) (tasks l) n (closed l) (wire l) (workers l).
Definition set_workers (w : list (list (nat * worker_op))) (l : loop) : loop :=
  mkLoop (connections l) (interest l) (objects l) (tasks l) (counter l) (closed l) (wire l) w.
Definition add_task (id : nat) (l : loop) : loop :=
  mkLoop (connections l) (interest l) (objects l) (tasks l ++ [id]) (counter l) (closed l) (wire l) (workers l).
Definition add_closed (fd : Z) (l : loop) : loop :=
  mkLoop (connections l) (interest l) (objects l) (tasks l) (counter l) (closed l ++ [fd]) (wire l) (workers l).
Definition add_wire (fd : Z) (d : list Z) (l : loop) : loop :=
  mkLoop (connections l) (interest l) (objects l) (tasks l) (counter l) (closed l) (wire l ++ [(fd, d)]) (workers l).

(** ** The workers *)

(** One step of a worker: the object behind it, and whether it writes to the eventfd.  A
    call that blocks is a step that does not happen yet. *)
Definition worker_effect (op : worker_op) (io : ConnectionIO) : ConnectionIO * bool :=
  match op with
  | WWrite data =>
      match writeData data io with
      | Some io' => (io', negb (is_nil data) && negb (write_error_ io))
      | None => (io, false)
      end
  | WFinish => (io_finish io, true)
  | WSetError => (setError io, true)
  | WRead n => match readBodyChunk n io with Some (_, io') => (io', false) | None => (io, false) end
  end.

Definition worker_step (s : nat * worker_op) (l : loop) : loop :=
  match objects l !! s.1 with
  | Some (io, fed) =>
      let '(io', signal) := worker_effect s.2 io in
      let l := set_objects (<[s.1 := (io', fed)]> (objects l)) l in
      if signal then set_counter (counter l + 1) l else l
  | None => l
  end.

Definition worker_steps (ss : list (nat * worker_op)) (l : loop) : loop := foldl (fun l s => worker_step s l) l ss.

(** An access of the loop to the object [id], with what it feeds to the body. *)
Definition io_call {A} (id : nat) (fed : list Z) (f : ConnectionIO -> A * ConnectionIO) : L A := fun l =>
  let l := worker_steps (hd [] (workers l)) (set_workers (tl (workers l)) l) in
  match objects l !! id with
  | Some (io, past) => let '(x, io') := f io in (x, set_objects (<[id := (io', past ++ fed)]> (objects l)) l)
  | None => ((f new_ConnectionIO).1, l)
  end.

Definition io_get {A} (id : nat) (f : ConnectionIO -> A) : L A := io_call id [] (fun io => (f io, io)).
Definition io_do (id : nat) (fed : list Z) (f : ConnectionIO -> ConnectionIO) : L unit := io_call id fed (fun io => (tt, f io)).

(** ** epoll *)

(** [epoll_ctl] with ADD, MOD and DEL; one that fails changes nothing. *)
Definition ctl_add (fd ev : Z) : L unit :=
  modify (fun l => match interest l !! fd with None => set_interest (<[fd := ev]> (interest l)) l | Some _ => l end).
Definition ctl_mod (fd ev : Z) : L unit :=
  modify (fun l => match interest l !! fd with Some _ => set_interest (<[fd := ev]> (interest l)) l | None => l end).
Definition ctl_del (fd : Z) : L unit := modify (fun l => set_interest (delete fd (interest l)) l).

Definition put_ctx (fd : Z) (ctx : ConnCtx) : L unit := modify (fun l => set_connections (<[fd := ctx]> (connections l)) l).
Definition set_events (ev : Z) (c : ConnCtx) : ConnCtx :=
  mkConnCtx (state c) (header_buf c) (conn_io c) (body_complete c) ev (received c).
Definition set_complete (b : bool) (c : ConnCtx) : ConnCtx :=
  mkConnCtx (state c) (header_buf c) (conn_io c) b (epoll_events c) (received c).
Definition set_buf (b : list Z) (c : ConnCtx) : ConnCtx :=
  mkConnCtx (state c) b (conn_io c) (body_complete c) (epoll_events c) (received c).
Definition set_received (b : list Z) (c : ConnCtx) : ConnCtx :=
  mkConnCtx (state c) (header_buf c) (conn_io c) (body_complete c) (epoll_events c) b.
Definition activate (id : nat) (c : ConnCtx) : ConnCtx :=
  mkConnCtx Active [] (Some id) (body_complete c) (epoll_events c) (received c).

Definition update_epoll (fd : Z) (ctx : ConnCtx) (new_events : Z) : L unit :=
  if new_events =? epoll_events ctx then mret tt
  else
    (if new_events =? 0 then ctl_del fd
     else if epoll_events ctx =? 0 then ctl_add fd new_events
     else ctl_mod fd new_events) ;;
    put_ctx fd (set_events new_events ctx).

(** [close_conn] and the [erase] that follows each of its calls.  [close] takes the
    descriptor out of the epoll set. *)
Definition close_conn (fd : Z) (ctx : ConnCtx) : L unit :=
  (if epoll_events ctx =? 0 then mret tt else ctl_del fd) ;;
  match conn_io ctx with
  | Some id => io_do id [] feedError ;; io_do id [] writeError
  | None => mret tt
  end ;;
  modify (fun l => add_closed fd (set_interest (delete fd (interest l)) l)) ;;
  modify (fun l => set_connections (delete fd (connections l)) l).

(** ** Handlers *)

(** A connection that [accept] returned; [added]: whether [epoll_ctl] succeeded. *)
Definition on_accept (fd : Z) (added : bool) : L unit :=
  if added then ctl_add fd EPOLLIN ;; put_ctx fd new_ConnCtx
  else modify (add_closed fd).

(** Pending output of an active connection: wait until it can be sent. *)
Definition register_pending (fd : Z) (ctx : ConnCtx) (id : nat) : L unit :=
  pending ← io_get id isWritePending;
  if pending : bool then update_epoll fd ctx (if body_complete ctx then EPOLLOUT else Z.lor EPOLLOUT EPOLLIN)
  else mret tt.

(** The scan for pending writes and finished workers, over the connections in the order of
    the hash table, and the connections it wants closed. *)
Definition scan_conn (fd : Z) : L (list Z) :=
  ctx ← get (fun l => connections l !! fd);
  match ctx with
  | None => mret []
  | Some ctx =>
      match state ctx, conn_io ctx with
      | Active, Some id =>
          err ← io_get id hasError;
          if err : bool then mret [fd]
          else
            fin ← io_get id isFinished;
            idle ← (if fin : bool then negb <$> io_get id isWritePending else mret false);
            if idle : bool then mret [fd] else register_pending fd ctx id ;; mret []
      | _, _ => mret []
      end
  end.

Fixpoint scan (fds : list Z) : L (list Z) :=
  match fds with
  | [] => mret []
  | fd :: fds => a ← scan_conn fd; b ← scan fds; mret (a ++ b)
  end.

Fixpoint close_all (fds : list Z) : L unit :=
  match fds with
  | [] => mret tt
  | fd :: fds =>
      ctx ← get (fun l => connections l !! fd);
      match ctx with Some ctx => close_conn fd ctx | None => mret tt end ;;
      close_all fds
  end.

(** [order] enumerates the hash table. *)
Definition on_eventfd (order : list Z) : L unit :=
  modify (set_counter 0) ;;
  to_close ← scan order;
  close_all to_close.

Inductive recv_result := RecvError | RecvAgain | Recv (data : list Z).
Inductive send_result := SendFailed | SendAgain | Sent (n : Z).

(** Where the blank line ends, if it has arrived. *)
Fixpoint head_end (l : list Z) : option nat :=
  match l with
  | [] => None
  | _ :: l' => if bool_decide (take 4 l = [13; 10; 13; 10]) then Some 4%nat else S <$> head_end l'
  end.

Definition response_431 : list Z :=
  str "HTTP/1.1 431 Request Header Fields Too Large" ++ crlf ++ str "Connection: close" ++ crlf
  ++ str "Content-Length: 0" ++ crlf ++ crlf.

(** The head is complete: the bridge is made, and the request goes to the pool. *)
Definition dispatch_request (fd : Z) (ctx : ConnCtx) (header_data body_prefix : list Z) : L unit :=
  let content_length := extract_content_length header_data in
  let io := setHeaderData header_data body_prefix content_length new_ConnectionIO in
  id ← get (fun l => length (objects l));
  modify (fun l => set_objects (objects l ++ [(io, [])]) l) ;;
  let ctx := activate id ctx in
  complete ← (if content_length =? 0 then mret true
              else (fun n => content_length <=? n) <$> io_get id bodyBytesReceived);
  let ctx := set_complete complete ctx in
  put_ctx fd ctx ;;
  (if complete : bool then update_epoll fd ctx 0 else mret tt) ;;
  modify (add_task id).

(** Body bytes, up to the content length; what is behind it is dropped. *)
Definition feed_body (fd : Z) (ctx : ConnCtx) (id : nat) (buf : list Z) : L unit :=
  received ← io_get id bodyBytesReceived;
  cl ← io_get id content_length_;
  let remaining := if received <? cl then cl - received else 0 in
  let to_feed := Z.min (zlen buf) remaining in
  let eof := remaining <=? to_feed in
  io_do id (take (Z.to_nat to_feed) buf) (feedBody (take (Z.to_nat to_feed) buf) eof) ;;
  if eof then
    let ctx := set_complete true ctx in
    put_ctx fd ctx ;; update_epoll fd ctx (Z.land (epoll_events ctx) (Z.lnot EPOLLIN))
  else mret tt.

(** [recv] returned 0: the peer sends no more. *)
Definition on_eof (fd : Z) (ctx : ConnCtx) : L bool :=
  match state ctx with
  | ReadingHeaders => close_conn fd ctx ;; mret true
  | Active =>
      match body_complete ctx, conn_io ctx with
      | false, Some id => io_do id [] (feedBody [] true)
      | _, _ => mret tt
      end ;;
      let ctx := set_complete true ctx in
      put_ctx fd ctx ;;
      update_epoll fd ctx (Z.land (epoll_events ctx) (Z.lnot EPOLLIN)) ;;
      mret false
  end.

(** Bytes of the head. *)
Definition on_head (fd : Z) (ctx : ConnCtx) (buf : list Z) : L bool :=
  let ctx := set_buf (header_buf ctx ++ buf) (set_received (received ctx ++ buf) ctx) in
  put_ctx fd ctx ;;
  if MAX_HEADER_SIZE <? zlen (header_buf ctx) then
    modify (add_wire fd response_431) ;; close_conn fd ctx ;; mret true
  else
    match head_end (header_buf ctx) with
    | Some n => dispatch_request fd ctx (take n (header_buf ctx)) (drop n (header_buf ctx))
    | None => mret tt
    end ;;
    mret false.

(** Bytes of the body, or behind it. *)
Definition on_body (fd : Z) (ctx : ConnCtx) (buf : list Z) : L bool :=
  let ctx := set_received (received ctx ++ buf) ctx in
  put_ctx fd ctx ;;
  match body_complete ctx, conn_io ctx with
  | false, Some id => feed_body fd ctx id buf
  | _, _ => mret tt
  end ;;
  mret false.

(** The EPOLLIN part of the client handler; [true]: the handler is done with the event. *)
Definition on_readable (fd : Z) (ctx : ConnCtx) (r : recv_result) : L bool :=
  match r with
  | RecvError => close_conn fd ctx ;; mret true
  | RecvAgain => mret false
  | Recv [] => on_eof fd ctx
  | Recv buf => match state ctx with ReadingHeaders => on_head fd ctx buf | Active => on_body fd ctx buf end
  end.

(** The EPOLLOUT part. *)
Definition idle_or_close (fd : Z) (ctx : ConnCtx) (id : nat) : L unit :=
  fin ← io_get id isFinished;
  if fin : bool then close_conn fd ctx
  else update_epoll fd ctx (if body_complete ctx then 0 else EPOLLIN).

Definition on_writable (fd : Z) (s : send_result) : L unit :=
  ctx ← get (fun l => connections l !! fd);
  match ctx with
  | None => mret tt
  | Some ctx =>
      match conn_io ctx with
      | None => mret tt
      | Some id =>
          pending ← io_get id pendingWriteData;
          match pending with
          | [] => idle_or_close fd ctx id
          | _ =>
              match s with
              | SendFailed => io_do id [] writeError ;; close_conn fd ctx
              | SendAgain => mret tt
              | Sent n =>
                  let sent := Z.max 0 (Z.min n (zlen pending)) in
                  modify (add_wire fd (take (Z.to_nat sent) pending)) ;;
                  io_do id [] (advanceWrite sent) ;;
                  more ← io_get id isWritePending;
                  if more : bool then mret tt else idle_or_close fd ctx id
              end
          end
      end
  end.

Definition on_client (fd ev : Z) (r : recv_result) (s : send_result) : L unit :=
  ctx ← get (fun l => connections l !! fd);
  match ctx with
  | None => mret tt
  | Some ctx =>
      if has_ev EPOLLERR ev || has_ev EPOLLHUP ev then close_conn fd ctx
      else
        done ← (if has_ev EPOLLIN ev then on_readable fd ctx r else mret false);
        if done : bool then mret tt
        else if has_ev EPOLLOUT ev then on_writable fd s
        else mret tt
  end.

(** ** Runs *)

(** What may happen next: a connection is accepted, the eventfd or a client is reported,
    or workers run. *)
Inductive event :=
| EAccept (fd : Z) (added : bool)
| EEventfd (order : list Z)
| EClient (fd ev : Z) (r : recv_result) (s : send_result)
| EWorkers (ss : list (nat * worker_op)).

Definition step (e : event) (l : loop) : loop :=
  match e with
  | EAccept fd added => (on_accept fd added l).2
  | EEventfd order => (on_eventfd order l).2
  | EClient fd ev r s => (on_client fd ev r s l).2
  | EWorkers ss => worker_steps ss l
  end.

Definition run (es : list event) (l : loop) : loop := foldl (fun l e => step e l) l es.

(** Behind the loop: the connections that are left, in the order of the hash table. *)
Definition clean_up (order : list Z) : L unit := close_all order ;; modify (set_connections ∅).

Definition start (ws : list (list (nat * worker_op))) : loop := mkLoop ∅ ∅ [] [] 0 [] [] ws.
