(* ===== verification/EventLoopSpec.v ===== *)
(** * Properties of the event loop

    An invariant of every reachable state: the epoll set agrees with the table of
    connections, no wake-up is lost, and the body that a worker is fed is the one that
    arrived.  The handlers preserve it with any worker steps between any two accesses to a
    shared object. *)

From S2P Require Export EventLoop.
From S2P Require Import HttpUtilsSpec.

Open Scope Z_scope.

(** ** The shared objects *)

(** What holds of an object at any time, with the body bytes it was fed. *)
Record obj_ok (x : ConnectionIO * list Z) : Prop := {
  oo_cursor : 0 <= write_cursor_ x.1;
  oo_size : zlen (write_buffer_ x.1) < 2 ^ 64;
  oo_pending : write_error_ x.1 = false ->
    write_pending_ x.1 = negb (is_nil (write_buffer_ x.1)) /\
    (write_buffer_ x.1 <> [] -> write_cursor_ x.1 < zlen (write_buffer_ x.1));
  oo_fed : body_bytes_fed_ x.1 = zlen (body_prefix_ x.1 ++ x.2);
  oo_length : body_bytes_fed_ x.1 <= content_length_ x.1 < 2 ^ 64;
  oo_unread : read_chunk_ x.1 `suffix_of` x.2
}.

(** No worker blocks on the object any more. *)
Definition released (io : ConnectionIO) : Prop := read_error_ io = true /\ write_error_ io = true.

(** What worker steps do to an object, with the counter of the eventfd before and after:
    whatever the loop has to know about raises the counter. *)
Record later (io io' : ConnectionIO) (n n' : Z) : Prop := {
  lt_counter : n <= n';
  lt_head : header_data_ io' = header_data_ io;
  lt_prefix : body_prefix_ io' = body_prefix_ io;
  lt_length : content_length_ io' = content_length_ io;
  lt_fed : body_bytes_fed_ io' = body_bytes_fed_ io;
  lt_eof : read_eof_ io' = read_eof_ io;
  lt_error : write_error_ io' = true -> write_error_ io = true \/ 0 < n';
  lt_pending : write_pending_ io' = true -> write_pending_ io = true \/ 0 < n';
  lt_finished : finished_ io' = true -> finished_ io = true \/ 0 < n';
  lt_keeps : write_pending_ io = true -> write_pending_ io' = true;
  lt_buffer : write_buffer_ io <> [] -> write_buffer_ io' = write_buffer_ io /\ write_cursor_ io' = write_cursor_ io;
  lt_read_error : read_error_ io = true -> read_error_ io' = true;
  lt_write_error : write_error_ io = true -> write_error_ io' = true
}.

Lemma later_released io io' n n' : later io io' n n' -> released io -> released io'.
Proof. intros L [A B]. split; [by apply (lt_read_error _ _ _ _ L)|by apply (lt_write_error _ _ _ _ L)]. Qed.

Lemma later_refl io n n' : n <= n' -> later io io n n'.
Proof. split; auto. Qed.

Lemma later_trans io1 io2 io3 n1 n2 n3 : later io1 io2 n1 n2 -> later io2 io3 n2 n3 -> later io1 io3 n1 n3.
Proof.
  intros [A1 A2 A3 A4 A5 A6 A7 A8 A9 A10 A11 A12 A13] [B1 B2 B3 B4 B5 B6 B7 B8 B9 B10 B11 B12 B13].
  split; try congruence; try lia; intros H.
  - apply B7 in H as [H|H]; [apply A7 in H as [H|H]|]; auto with lia.
  - apply B8 in H as [H|H]; [apply A8 in H as [H|H]|]; auto with lia.
  - apply B9 in H as [H|H]; [apply A9 in H as [H|H]|]; auto with lia.
  - auto.
  - destruct (A11 H) as [E1 E2]. destruct B11 as [E3 E4]; [congruence|]. split; congruence.
  - auto.
  - auto.
Qed.

Definition small_op (op : worker_op) : Prop := match op with WWrite d => zlen d < 2 ^ 64 | _ => True end.

Lemma readBodyChunk_write n c r c' : readBodyChunk n c = Some (r, c') ->
  header_data_ c' = header_data_ c /\ write_buffer_ c' = write_buffer_ c /\ write_cursor_ c' = write_cursor_ c /\
  write_pending_ c' = write_pending_ c /\ finished_ c' = finished_ c /\ write_error_ c' = write_error_ c /\ read_error_ c' = read_error_ c.
Proof.
  unfold readBodyChunk. destruct (negb _); [done|].
  destruct (read_chunk_ c), (empty_status c); intros [= <- <-]; done.
Qed.

Lemma worker_effect_ok op io fed io' b n :
  small_op op -> 0 <= n -> obj_ok (io, fed) -> worker_effect op io = (io', b) ->
  obj_ok (io', fed) /\ later io io' n (if b then n + 1 else n).
Proof.
  intros Hs Hn [A1 A2 A3 A4 A5 A6] H. cbn in *. destruct op as [d| | |k]; cbn in H.
  - unfold writeData in H. destruct d as [|x d]; [by injection H as <- <-; split; [split|apply later_refl]|].
    destruct (write_error_ io) eqn:E.
    { destruct (write_buffer_ io) eqn:Eb; injection H as <- <-;
        (split; [split; cbn; rewrite ?E, ?Eb; done|apply later_refl; lia]). }
    destruct (write_buffer_ io) eqn:Eb; injection H as <- <-.
    + split; split; cbn; try done; try lia; congruence.
    + split; [split; cbn; rewrite ?E, ?Eb; done|apply later_refl; lia].
  - injection H as <- <-. split; split; cbn; auto with lia.
  - injection H as <- <-. split; split; cbn; auto with lia.
  - destruct (readBodyChunk k io) as [[r io1]|] eqn:E; injection H as <- <-.
    + pose proof (readBodyChunk_data _ _ _ _ E) as (D & E1 & E2). pose proof (readBodyChunk_prefix _ _ _ _ E) as (E3 & E4 & E5).
      pose proof (readBodyChunk_write _ _ _ _ E) as (W1 & W2 & W3 & W4 & W5 & W6 & W7). split.
      * split; cbn; rewrite ?W2, ?W3, ?W4, ?W6, ?E1, ?E2, ?E3; try done.
        destruct A6 as [z ->]. exists (z ++ rr_data r). by rewrite <- app_assoc, D.
      * split; rewrite ?W1, ?W4, ?W5, ?W6, ?W7, ?E1, ?E2, ?E3, ?E4; auto with lia.
    + split; [by split|apply later_refl; lia].
Qed.

(** ** The invariant *)

(** What the loop knows of an object: an error is always announced on the eventfd, output or
    the end of the worker is announced there or waited for by EPOLLOUT. *)
Definition awake (mask : Z) (io : ConnectionIO) (n : Z) : Prop :=
  (write_error_ io = true -> 0 < n) /\
  (write_pending_ io = true \/ finished_ io = true -> has_ev EPOLLOUT mask = true \/ 0 < n).

(** The registered events of an active connection. *)
Definition mask_ok (mask : Z) (complete : bool) : Prop :=
  if complete then mask = 0 \/ mask = EPOLLOUT else mask = EPOLLIN \/ mask = Z.lor EPOLLOUT EPOLLIN.

(** The body that was fed, against everything that was received: it is the part behind the
    head up to the announced length, and until the body is complete it is all of it. *)
Definition body_ok (received : list Z) (complete : bool) (io : ConnectionIO) (fed : list Z) : Prop :=
  exists body, received = header_data_ io ++ body /\
    head_end received = Some (length (header_data_ io)) /\
    content_length_ io = extract_content_length (header_data_ io) /\
    body_prefix_ io ++ fed `prefix_of` take (Z.to_nat (content_length_ io)) body /\
    if complete then zlen (body_prefix_ io ++ fed) = content_length_ io \/ read_eof_ io = true
    else body_prefix_ io ++ fed = body /\ zlen body < content_length_ io.

Definition conn_ok (ex : Z -> Prop) (l : loop) (fd : Z) (ctx : ConnCtx) : Prop :=
  interest l !! fd = (if epoll_events ctx =? 0 then None else Some (epoll_events ctx)) /\
  match state ctx with
  | ReadingHeaders =>
      conn_io ctx = None /\ epoll_events ctx = EPOLLIN /\ body_complete ctx = false /\
      header_buf ctx = received ctx /\ head_end (received ctx) = None /\ zlen (received ctx) <= MAX_HEADER_SIZE
  | Active =>
      exists id io fed, conn_io ctx = Some id /\ objects l !! id = Some (io, fed) /\
        mask_ok (epoll_events ctx) (body_complete ctx) /\
        body_ok (received ctx) (body_complete ctx) io fed /\
        (ex fd \/ awake (epoll_events ctx) io (counter l))
  end.

Definition small_steps (ss : list (nat * worker_op)) : Prop := Forall (fun s => small_op s.2) ss.

(** What holds of everything but the descriptor [fd] and the object [oid]. *)
Record rest_ok (ex : Z -> Prop) (fd : Z) (oid : option nat) (l : loop) : Prop := {
  rk_counter : 0 <= counter l;
  rk_workers : Forall small_steps (workers l);
  rk_objects : forall id x, objects l !! id = Some x -> obj_ok x;
  rk_interest : forall fd', fd' <> fd -> is_Some (interest l !! fd') -> is_Some (connections l !! fd');
  rk_conns : forall fd' ctx, fd' <> fd -> connections l !! fd' = Some ctx -> conn_ok ex l fd' ctx;
  rk_apart : forall fd' ctx, fd' <> fd -> connections l !! fd' = Some ctx -> conn_io ctx = oid -> oid = None;
  rk_distinct : forall fd1 fd2 c1 c2, fd1 <> fd -> fd2 <> fd -> connections l !! fd1 = Some c1 -> connections l !! fd2 = Some c2 ->
    conn_io c1 = conn_io c2 -> conn_io c1 = None \/ fd1 = fd2;
  rk_gone : forall id io fed, objects l !! id = Some (io, fed) -> Some id <> oid ->
    released io \/ exists fd' ctx, fd' <> fd /\ connections l !! fd' = Some ctx /\ conn_io ctx = Some id
}.

(** Everything holds; [ex] are the connections whose wake-up is being handled. *)
Record inv (ex : Z -> Prop) (l : loop) : Prop := {
  iv_counter : 0 <= counter l;
  iv_workers : Forall small_steps (workers l);
  iv_objects : forall id x, objects l !! id = Some x -> obj_ok x;
  iv_interest : forall fd, is_Some (interest l !! fd) -> is_Some (connections l !! fd);
  iv_conns : forall fd ctx, connections l !! fd = Some ctx -> conn_ok ex l fd ctx;
  iv_distinct : forall fd1 fd2 c1 c2, connections l !! fd1 = Some c1 -> connections l !! fd2 = Some c2 ->
    conn_io c1 = conn_io c2 -> conn_io c1 = None \/ fd1 = fd2;
  iv_gone : forall id io fed, objects l !! id = Some (io, fed) ->
    released io \/ exists fd ctx, connections l !! fd = Some ctx /\ conn_io ctx = Some id
}.

Lemma inv_split ex l fd ctx : inv ex l -> connections l !! fd = Some ctx -> rest_ok ex fd (conn_io ctx) l /\ conn_ok ex l fd ctx.
Proof.
  intros [A B C D E F G] H. split; [|by apply E]. split; try done; eauto.
  - intros fd' ctx' Hne H' Heq. destruct (F _ _ _ _ H' H Heq); [congruence|done].
  - intros id io fed Ho N. destruct (G _ _ _ Ho) as [|(fd' & ctx' & H' & E')]; [by left|]. right. exists fd', ctx'. split; [|done].
    intros ->. congruence.
Qed.

Lemma inv_apart ex l fd : inv ex l -> connections l !! fd = None -> rest_ok ex fd None l.
Proof.
  intros [A B C D E F G] H. split; try done; eauto. intros id io fed Ho _.
  destruct (G _ _ _ Ho) as [|(fd' & ctx' & H' & E')]; [by left|]. right. exists fd', ctx'. split; [congruence|done].
Qed.

Lemma inv_join ex l fd ctx : rest_ok ex fd (conn_io ctx) l -> connections l !! fd = Some ctx -> conn_ok ex l fd ctx -> inv ex l.
Proof.
  intros [A B C D E F G I] H K. split; try done.
  - intros fd' H'. destruct (decide (fd' = fd)) as [->|N]; [by rewrite H|by apply D].
  - intros fd' ctx' H'. destruct (decide (fd' = fd)) as [->|N]; [|by apply E]. by assert (ctx' = ctx) as -> by congruence.
  - intros f1 f2 c1 c2 H1 H2 Heq. destruct (decide (f1 = fd)) as [->|N1], (decide (f2 = fd)) as [->|N2]; [by right|..].
    + assert (c1 = ctx) as -> by congruence. left. by apply (F f2 c2).
    + assert (c2 = ctx) as -> by congruence. left. rewrite Heq. by apply (F f1 c1).
    + by eapply G.
  - intros id io fed Ho. destruct (decide (Some id = conn_io ctx)) as [Eq|N]; [right; by exists fd, ctx|].
    destruct (I _ _ _ Ho N) as [|(fd' & ctx' & _ & H' & E')]; [by left|right; by exists fd', ctx'].
Qed.

Lemma inv_drop ex oid l fd : rest_ok ex fd oid l -> connections l !! fd = None -> interest l !! fd = None ->
  (forall id io fed, oid = Some id -> objects l !! id = Some (io, fed) -> released io) -> inv ex l.
Proof.
  intros [A B C D E F G I] H K Hg. split; try done.
  - intros fd' H'. destruct (decide (fd' = fd)) as [->|N]; [|by apply D]. rewrite K in H'. by destruct H'.
  - intros fd' ctx' H'. apply E; [congruence|done].
  - intros f1 f2 c1 c2 H1 H2. apply G; congruence.
  - intros id io fed Ho. destruct (decide (Some id = oid)) as [Eq|N]; [left; by eapply Hg|].
    destruct (I _ _ _ Ho N) as [|(fd' & ctx' & _ & H' & E')]; [by left|right; by exists fd', ctx'].
Qed.

(** Changes at [fd] and [oid] only do not matter to the rest. *)
Lemma rest_frame ex fd oid l l' :
  rest_ok ex fd oid l -> counter l' = counter l -> Forall small_steps (workers l') ->
  (forall fd', fd' <> fd -> connections l' !! fd' = connections l !! fd') ->
  (forall fd', fd' <> fd -> interest l' !! fd' = interest l !! fd') ->
  (forall id, Some id <> oid -> (id < length (objects l))%nat -> objects l' !! id = objects l !! id) ->
  (forall id x, objects l' !! id = Some x -> obj_ok x) ->
  length (objects l') = length (objects l) ->
  rest_ok ex fd oid l'.
Proof.
  intros [A B C D E F G I] Hc Hw Hn Hi Ho Hk Hl. split; try done; [by rewrite Hc|..].
  - intros fd' N. rewrite Hn, Hi by done. by apply D.
  - intros fd' ctx N H'. rewrite Hn in H' by done. destruct (E _ _ N H') as [E1 E2]. split; [by rewrite Hi|].
    destruct (state ctx); [done|]. destruct E2 as (id & io & fed & I1 & I2 & I3). exists id, io, fed. rewrite Hc.
    split; [done|]. split; [|done]. rewrite Ho; [done| |by eapply lookup_lt_Some]. intros X.
    assert (oid = None) by (apply (F _ _ N H'); congruence). congruence.
  - intros fd' ctx N H'. rewrite Hn in H' by done. by eapply F.
  - intros f1 f2 c1 c2 N1 N2 H1 H2. rewrite Hn in H1, H2 by done. by eapply G.
  - intros id io fed H' N. rewrite Ho in H' by (try done; rewrite <- Hl; by eapply lookup_lt_Some).
    destruct (I _ _ _ H' N) as [|(fd' & ctx' & N' & C' & E')]; [by left|]. right. exists fd', ctx'. by rewrite Hn.
Qed.

(** ** Worker steps *)

Lemma awake_later mask io io' n n' : later io io' n n' -> awake mask io n -> awake mask io' n'.
Proof.
  intros L [A B]. split.
  - intros H. apply (lt_error _ _ _ _ L) in H as [H|H]; [|done]. apply A in H. pose proof (lt_counter _ _ _ _ L). lia.
  - intros H. assert ((write_pending_ io = true \/ finished_ io = true) \/ 0 < n') as [X|X]; [|apply B in X as [X|X]|]; auto.
    + destruct H as [H|H]; [apply (lt_pending _ _ _ _ L) in H as [H|H]|apply (lt_finished _ _ _ _ L) in H as [H|H]]; auto.
    + pose proof (lt_counter _ _ _ _ L). right. lia.
Qed.

Lemma body_later received complete io io' fed n n' :
  later io io' n n' -> body_ok received complete io fed -> body_ok received complete io' fed.
Proof. intros L. unfold body_ok. by rewrite (lt_head _ _ _ _ L), (lt_prefix _ _ _ _ L), (lt_length _ _ _ _ L), (lt_eof _ _ _ _ L). Qed.

(** An object moved on and the counter with it. *)
Lemma conn_ok_later ex l l' fd ctx :
  interest l' = interest l ->
  (forall id io fed, objects l !! id = Some (io, fed) -> exists io', objects l' !! id = Some (io', fed) /\ later io io' (counter l) (counter l')) ->
  conn_ok ex l fd ctx -> conn_ok ex l' fd ctx.
Proof.
  intros Hi Ho [H1 H2]. split; [by rewrite Hi|]. destruct (state ctx); [done|].
  destruct H2 as (id & io & fed & I1 & I2 & I3 & I4 & I5). destruct (Ho _ _ _ I2) as (io' & I2' & L).
  exists id, io', fed. split; [done|]. split; [done|]. split; [done|]. split; [by eapply body_later|].
  destruct I5 as [|I5]; [by left|right; by eapply awake_later].
Qed.

(** What any number of worker steps leaves alone, and how the objects move. *)
Record steps_rel (l l' : loop) : Prop := {
  sr_conns : connections l' = connections l;
  sr_interest : interest l' = interest l;
  sr_workers : workers l' = workers l;
  sr_length : length (objects l') = length (objects l);
  sr_counter : counter l <= counter l';
  sr_objects : forall id io fed, objects l !! id = Some (io, fed) ->
    exists io', objects l' !! id = Some (io', fed) /\ later io io' (counter l) (counter l');
  sr_ok : (forall id x, objects l !! id = Some x -> obj_ok x) -> forall id x, objects l' !! id = Some x -> obj_ok x
}.

Lemma steps_rel_refl l : steps_rel l l.
Proof. split; try done; try lia. intros. eexists. split; [done|]. apply later_refl. lia. Qed.

Lemma worker_step_rel s l : small_op s.2 -> 0 <= counter l -> (forall id x, objects l !! id = Some x -> obj_ok x) -> steps_rel l (worker_step s l).
Proof.
  intros Hs Hn Ho. unfold worker_step. destruct s as [i op]. cbn in *.
  destruct (objects l !! i) as [[io fed]|] eqn:E; [|apply steps_rel_refl].
  destruct (worker_effect op io) as [io' b] eqn:W.
  pose proof (lookup_lt_Some _ _ _ E) as Hlt.
  destruct (worker_effect_ok _ _ fed _ _ (counter l) Hs Hn (Ho _ _ E) W) as [Hok L].
  set (l1 := set_objects _ _). assert (steps_rel l (set_counter (if b then counter l + 1 else counter l) l1)) as R.
  { split; try done; cbn.
    - apply length_insert.
    - destruct b; lia.
    - intros id io0 fed0 H. destruct (decide (id = i)) as [->|N].
      + assert (io0 = io /\ fed0 = fed) as [-> ->] by (split; congruence). exists io'. by rewrite list_lookup_insert_eq.
      + exists io0. rewrite list_lookup_insert_ne by done. split; [done|]. apply later_refl. destruct b; lia.
    - intros _ id x H. apply list_lookup_insert_Some in H as [(<- & <- & _)|(N & H)]; [done|by eapply Ho]. }
  destruct b; [exact R|]. by destruct l.
Qed.

Lemma worker_steps_rel ss : forall l, small_steps ss -> 0 <= counter l -> (forall id x, objects l !! id = Some x -> obj_ok x) -> steps_rel l (worker_steps ss l).
Proof.
  induction ss as [|s ss IH]; intros l F Hn Ho; [apply steps_rel_refl|]. apply Forall_cons in F as [F1 F]. cbn [worker_steps foldl].
  pose proof (worker_step_rel s l F1 Hn Ho) as R1. destruct (IH (worker_step s l) F) as [A B W C D E G].
  - pose proof (sr_counter _ _ R1). lia.
  - by apply (sr_ok _ _ R1).
  - destruct R1 as [A1 B1 W1 C1 D1 E1 G1]. unfold worker_steps in *. split; try congruence; try lia; [|by intros H; apply G, G1].
    intros id io fed H. destruct (E1 _ _ _ H) as (io1 & H1 & L1). destruct (E _ _ _ H1) as (io2 & H2 & L2). exists io2. split; [done|by eapply later_trans].
Qed.

Lemma sr_back l l' id {io' fed'} : steps_rel l l' -> objects l' !! id = Some (io', fed') ->
  exists io fed, objects l !! id = Some (io, fed) /\ later io io' (counter l) (counter l').
Proof.
  intros R H. pose proof (lookup_lt_Some _ _ _ H) as Hlt. rewrite (sr_length _ _ R) in Hlt. apply lookup_lt_is_Some in Hlt as [[io fed] H0].
  exists io, fed. split; [done|]. destruct (sr_objects _ _ R _ _ _ H0) as (io2 & H2 & L). by assert (io2 = io') as <- by congruence.
Qed.

Lemma rest_steps ex fd oid l l' : rest_ok ex fd oid l -> steps_rel l l' -> Forall small_steps (workers l') -> rest_ok ex fd oid l'.
Proof.
  intros [A B C D E F G I] R Hw. split; rewrite ?(sr_conns _ _ R), ?(sr_interest _ _ R); try done.
  - pose proof (sr_counter _ _ R). lia.
  - by apply (sr_ok _ _ R).
  - intros fd' ctx N H. eapply (conn_ok_later ex l l'); [by apply (sr_interest _ _ R)|apply (sr_objects _ _ R)|by apply E].
  - intros id io' fed' H N. destruct (sr_back _ _ _ R H) as (io & fed & H0 & L). destruct (I _ _ _ H0 N); [left|by right].
    by eapply later_released.
Qed.

Lemma inv_steps ex l l' : inv ex l -> steps_rel l l' -> Forall small_steps (workers l') -> inv ex l'.
Proof.
  intros [A B C D E F I] R Hw. split; rewrite ?(sr_conns _ _ R), ?(sr_interest _ _ R); try done.
  - pose proof (sr_counter _ _ R). lia.
  - by apply (sr_ok _ _ R).
  - intros fd ctx H. eapply (conn_ok_later ex l l'); [by apply (sr_interest _ _ R)|apply (sr_objects _ _ R)|by apply E].
  - intros id io' fed' H. destruct (sr_back _ _ _ R H) as (io & fed & H0 & L). destruct (I _ _ _ H0); [left|by right].
    by eapply later_released.
Qed.

(** ** Accesses of the loop *)

Definition lwp {A} (m : L A) (Q : A -> loop -> Prop) (l : loop) : Prop := Q (m l).1 (m l).2.

Lemma lwp_bind {A B} (m : L A) (f : A -> L B) Q l : lwp m (fun x l' => lwp (f x) Q l') l -> lwp (m ≫= f) Q l.
Proof. unfold lwp, mbind, L_bind. by destruct (m l). Qed.
Lemma lwp_ret {A} (x : A) (Q : A -> loop -> Prop) l : Q x l -> lwp (mret x) Q l.
Proof. done. Qed.
Lemma lwp_fmap {A B} (f : A -> B) (m : L A) Q l : lwp m (fun x l' => Q (f x) l') l -> lwp (f <$> m) Q l.
Proof. unfold lwp, fmap, L_map. by destruct (m l). Qed.
Lemma lwp_get {A} (f : loop -> A) (Q : A -> loop -> Prop) l : Q (f l) l -> lwp (get f) Q l.
Proof. done. Qed.
Lemma lwp_modify f (Q : unit -> loop -> Prop) l : Q tt (f l) -> lwp (modify f) Q l.
Proof. done. Qed.
Lemma lwp_mono {A} (m : L A) (Q Q' : A -> loop -> Prop) l : lwp m Q l -> (forall x l', Q x l' -> Q' x l') -> lwp m Q' l.
Proof. unfold lwp. auto. Qed.

(** An access to an object: the workers run, then the object changes. *)
Lemma lwp_io_call {A} ex fd id fed new (f : ConnectionIO -> A * ConnectionIO) io l (Q : A -> loop -> Prop) :
  rest_ok ex fd (Some id) l -> objects l !! id = Some (io, fed) ->
  (forall io' l', rest_ok ex fd (Some id) l' -> connections l' = connections l -> interest l' = interest l ->
     objects l' !! id = Some (io', fed) -> later io io' (counter l) (counter l') -> obj_ok (io', fed) ->
     Q (f io').1 (set_objects (<[id := ((f io').2, fed ++ new)]> (objects l')) l')) ->
  lwp (io_call id new f) Q l.
Proof.
  intros R E H. unfold lwp, io_call. set (l0 := set_workers _ l).
  assert (rest_ok ex fd (Some id) l0) as R0.
  { destruct R as [A1 A2 A3 A4 A5 A6 A7 A8]. split; try done. cbn. destruct (workers l); [done|]. by apply Forall_cons in A2 as [_ ?]. }
  assert (small_steps (hd [] (workers l))) as Hs.
  { pose proof (rk_workers _ _ _ _ R) as W. destruct (workers l); [constructor|]. by apply Forall_cons in W as [? _]. }
  pose proof (worker_steps_rel (hd [] (workers l)) l0 Hs (rk_counter _ _ _ _ R0) (rk_objects _ _ _ _ R0)) as S.
  set (l1 := worker_steps _ _) in *. assert (rest_ok ex fd (Some id) l1) as R1.
  { eapply rest_steps; [exact R0|exact S|]. rewrite (sr_workers _ _ S). apply (rk_workers _ _ _ _ R0). }
  destruct (sr_objects _ _ S id io fed E) as (io' & E1 & L1). rewrite E1.
  specialize (H io' l1). destruct (f io') as [x io2]. cbn in *. apply H; try done.
  - apply (sr_conns _ _ S).
  - apply (sr_interest _ _ S).
  - by apply (rk_objects _ _ _ _ R1 id).
Qed.

Lemma lwp_io_get {A} ex fd id fed (g : ConnectionIO -> A) io l (Q : A -> loop -> Prop) :
  rest_ok ex fd (Some id) l -> objects l !! id = Some (io, fed) ->
  (forall io' l', rest_ok ex fd (Some id) l' -> connections l' = connections l -> interest l' = interest l ->
     objects l' !! id = Some (io', fed) -> later io io' (counter l) (counter l') -> obj_ok (io', fed) -> Q (g io') l') ->
  lwp (io_get id g) Q l.
Proof.
  intros R E H. eapply lwp_io_call; [exact R|exact E|]. intros io' l' R' C I E' L Ok. cbn in *.
  rewrite app_nil_r, list_insert_id by done. replace (set_objects (objects l') l') with l' by (by destruct l'). by apply H.
Qed.

Lemma lwp_io_do ex fd id fed new (f : ConnectionIO -> ConnectionIO) io l (Q : unit -> loop -> Prop) :
  rest_ok ex fd (Some id) l -> objects l !! id = Some (io, fed) ->
  (forall io' n, later io io' (counter l) n -> obj_ok (io', fed) -> obj_ok (f io', fed ++ new)) ->
  (forall io' l', rest_ok ex fd (Some id) l' -> connections l' = connections l -> interest l' = interest l ->
     objects l' !! id = Some (f io', fed ++ new) -> later io io' (counter l) (counter l') -> obj_ok (io', fed) -> Q tt l') ->
  lwp (io_do id new f) Q l.
Proof.
  intros R E Hf H. eapply lwp_io_call; [exact R|exact E|]. intros io' l' R' C I E' L Ok. cbn in *.
  pose proof (lookup_lt_Some _ _ _ E') as Hlt. apply (H io'); try done; cbn.
  - eapply rest_frame; [exact R'|done|apply (rk_workers _ _ _ _ R')|done|done| | |]; cbn.
    + intros i N _. apply list_lookup_insert_ne. congruence.
    + intros i y Hy. apply list_lookup_insert_Some in Hy as [(<- & <- & _)|(_ & Hy)]; [by eapply Hf|by eapply (rk_objects _ _ _ _ R')].
    + apply length_insert.
  - by apply list_lookup_insert_eq.
Qed.

(** The errors that a closing loop reports to the worker. *)
Lemma obj_ok_feedError io fed : obj_ok (io, fed) -> obj_ok (feedError io, fed ++ []).
Proof. intros [A B C D E F]. rewrite app_nil_r. by split. Qed.
Lemma obj_ok_writeError io fed : obj_ok (io, fed) -> obj_ok (writeError io, fed ++ []).
Proof. intros [A B C D E F]. rewrite app_nil_r. by split. Qed.

Lemma close_conn_spec ex fd ctx l (Q : unit -> loop -> Prop) :
  rest_ok ex fd (conn_io ctx) l ->
  (forall id, conn_io ctx = Some id -> is_Some (objects l !! id)) ->
  (forall l', inv ex l' -> connections l' = delete fd (connections l) -> Q tt l') ->
  lwp (close_conn fd ctx) Q l.
Proof.
  intros R Hid HQ. unfold close_conn. apply lwp_bind.
  assert (forall oid l1, rest_ok ex fd oid l1 -> connections l1 = connections l ->
    (forall id io fed, oid = Some id -> objects l1 !! id = Some (io, fed) -> released io) ->
    lwp (modify (fun l => add_closed fd (set_interest (delete fd (interest l)) l)) ;;
         modify (fun l => set_connections (delete fd (connections l)) l)) Q l1) as Hend.
  { intros oid l1 R1 C1 G1. apply lwp_bind, lwp_modify, lwp_modify, HQ; [|by cbn; rewrite C1].
    apply (inv_drop ex oid _ fd); cbn; [|apply lookup_delete_eq..|exact G1].
    eapply rest_frame; [exact R1|done|apply (rk_workers _ _ _ _ R1)| | |done|apply (rk_objects _ _ _ _ R1)|done]; intros fd' N; cbn; by apply lookup_delete_ne. }
  assert (lwp (if epoll_events ctx =? 0 then mret tt else ctl_del fd) (fun _ l1 =>
    rest_ok ex fd (conn_io ctx) l1 /\ connections l1 = connections l /\ objects l1 = objects l) l) as Hdel.
  { destruct (epoll_events ctx =? 0); [by apply lwp_ret|]. apply lwp_modify. split; [|done].
    eapply rest_frame; [exact R|done|apply (rk_workers _ _ _ _ R)|done| |done|apply (rk_objects _ _ _ _ R)|done].
    intros fd' N. cbn. by apply lookup_delete_ne. }
  eapply lwp_mono; [exact Hdel|]. intros _ l1 (R1 & C1 & O1). apply lwp_bind. destruct (conn_io ctx) as [id|] eqn:Eid.
  - destruct (Hid id eq_refl) as [[io fed] E]. rewrite <- O1 in E. apply lwp_bind.
    eapply lwp_io_do; [exact R1|exact E|intros ? ? _; apply obj_ok_feedError|]. intros io2 l2 R2 C2 _ E2 _ _.
    eapply lwp_io_do; [exact R2|exact E2|intros ? ? _; apply obj_ok_writeError|]. intros io3 l3 R3 C3 _ E3 L3 _.
    eapply Hend; [exact R3|congruence|]. intros id' io' fed' [= <-] E4. assert (io' = writeError io3) as -> by congruence. split; [|done].
    by apply (lt_read_error _ _ _ _ L3).
  - apply lwp_ret. by eapply Hend.
Qed.

Lemma update_epoll_spec ex fd oid ctx ev l (Q : unit -> loop -> Prop) :
  rest_ok ex fd oid l -> connections l !! fd = Some ctx ->
  interest l !! fd = (if epoll_events ctx =? 0 then None else Some (epoll_events ctx)) ->
  (forall l', rest_ok ex fd oid l' -> connections l' = <[fd := set_events ev ctx]> (connections l) ->
     interest l' !! fd = (if ev =? 0 then None else Some ev) -> objects l' = objects l -> counter l' = counter l -> Q tt l') ->
  lwp (update_epoll fd ctx ev) Q l.
Proof.
  intros R E I HQ. unfold update_epoll. destruct (Z.eqb_spec ev (epoll_events ctx)) as [->|N].
  { apply lwp_ret, HQ; try done. rewrite insert_id; [done|]. rewrite E. by destruct ctx. }
  assert (forall i', (forall fd', fd' <> fd -> i' !! fd' = interest l !! fd') ->
    rest_ok ex fd oid (set_connections (<[fd := set_events ev ctx]> (connections l)) (set_interest i' l))) as Hr.
  { intros i' Hi'. eapply rest_frame; [exact R|done|apply (rk_workers _ _ _ _ R)| |exact Hi'|done|apply (rk_objects _ _ _ _ R)|done].
    intros fd' N'. cbn. by apply lookup_insert_ne. }
  apply lwp_bind. destruct (Z.eqb_spec ev 0) as [->|N0]; [|destruct (Z.eqb_spec (epoll_events ctx) 0) as [Z0|Z0]].
  - apply lwp_modify, lwp_modify, HQ; try done; [apply Hr|cbn; apply lookup_delete_eq]. intros fd' N'. by apply lookup_delete_ne.
  - apply lwp_modify. cbn. rewrite I. apply lwp_modify, HQ; try done; [apply Hr|cbn; apply lookup_insert_eq]. intros fd' N'. by apply lookup_insert_ne.
  - apply lwp_modify. cbn. rewrite I. apply lwp_modify, HQ; try done; [apply Hr|cbn; apply lookup_insert_eq]. intros fd' N'. by apply lookup_insert_ne.
Qed.

(** ** The eventfd *)

Lemma conn_ok_weaken (ex ex' : Z -> Prop) l fd ctx : (ex fd -> ex' fd) -> conn_ok ex l fd ctx -> conn_ok ex' l fd ctx.
Proof.
  intros H [I C]. split; [done|]. destruct (state ctx); [done|].
  destruct C as (id & io & fed & C1 & C2 & C3 & C4 & C5).
  exists id, io, fed. repeat (split; [done|]). destruct C5; auto.
Qed.

Lemma rest_weaken (ex ex' : Z -> Prop) fd oid l : (forall x, x <> fd -> ex x -> ex' x) -> rest_ok ex fd oid l -> rest_ok ex' fd oid l.
Proof. intros H [A B C D E F G I]. split; try done. intros fd' ctx N X. eapply conn_ok_weaken; [by apply H|by apply E]. Qed.

Lemma inv_weaken (ex ex' : Z -> Prop) l : (forall x, ex x -> ex' x) -> inv ex l -> inv ex' l.
Proof. intros H [A B C D E F G]. split; try done. intros fd ctx X. eapply conn_ok_weaken; [by apply H|by apply E]. Qed.

(** A handler that leaves the connection [fd] active, with object [id]. *)
Lemma inv_active ex fd id ctx io fed l :
  rest_ok ex fd (Some id) l -> connections l !! fd = Some ctx -> state ctx = Active -> conn_io ctx = Some id ->
  interest l !! fd = (if epoll_events ctx =? 0 then None else Some (epoll_events ctx)) ->
  objects l !! id = Some (io, fed) -> mask_ok (epoll_events ctx) (body_complete ctx) ->
  body_ok (received ctx) (body_complete ctx) io fed -> ex fd \/ awake (epoll_events ctx) io (counter l) -> inv ex l.
Proof.
  intros R C S I In O M B A. apply (inv_join ex l fd ctx); [by rewrite I|done|]. split; [done|]. rewrite S. by exists id, io, fed.
Qed.

Lemma mask_out (complete : bool) : mask_ok (if complete then EPOLLOUT else Z.lor EPOLLOUT EPOLLIN) complete.
Proof. destruct complete; by right. Qed.

Lemma same_dom {A} (m : gmap Z A) fd x y : m !! fd = Some x -> forall k, is_Some (<[fd := y]> m !! k) <-> is_Some (m !! k).
Proof. intros H k. destruct (decide (fd = k)) as [->|N]; [by rewrite lookup_insert_eq, H|by rewrite lookup_insert_ne]. Qed.

Definition scanned (ex : Z -> Prop) (fds r : list Z) : Z -> Prop := fun x => (ex x /\ x ∉ fds) \/ x ∈ r.

(** Behind the tests of the scan: no error, and no end of the worker, is unannounced. *)
Lemma register_pending_spec ex fd id ctx io fed l (Q : unit -> loop -> Prop) :
  rest_ok ex fd (Some id) l -> connections l !! fd = Some ctx -> state ctx = Active -> conn_io ctx = Some id ->
  interest l !! fd = (if epoll_events ctx =? 0 then None else Some (epoll_events ctx)) ->
  objects l !! id = Some (io, fed) -> mask_ok (epoll_events ctx) (body_complete ctx) ->
  body_ok (received ctx) (body_complete ctx) io fed ->
  (write_error_ io = true -> 0 < counter l) -> (finished_ io = true -> write_pending_ io = true \/ 0 < counter l) ->
  (forall l', inv ex l' -> (forall x, is_Some (connections l' !! x) <-> is_Some (connections l !! x)) -> Q tt l') ->
  lwp (register_pending fd ctx id) Q l.
Proof.
  intros R C S In I O M B He Hf HQ. unfold register_pending.
  apply lwp_bind. eapply lwp_io_get; [exact R|exact O|]. intros io1 l1 R1 C1 I1 O1 L1 Ok1. pose proof (lt_counter _ _ _ _ L1) as Hn.
  assert (write_error_ io1 = true -> 0 < counter l1) as He1.
  { intros X. apply (lt_error _ _ _ _ L1) in X as [X|X]; [|done]. specialize (He X). lia. }
  unfold isWritePending. destruct (write_pending_ io1) eqn:P.
  - eapply update_epoll_spec; [exact R1|rewrite C1; exact C|by rewrite I1|]. intros l2 R2 C2 I2 O2 N2.
    apply HQ; [|rewrite C2, C1; by eapply same_dom]. eapply inv_active; [exact R2|rewrite C2; apply lookup_insert_eq|done..| | | |].
    + rewrite O2. exact O1.
    + apply mask_out.
    + by eapply body_later.
    + right. split; [by rewrite N2|]. intros _. left. cbn. by destruct (body_complete ctx).
  - apply lwp_ret, HQ; [|by rewrite C1]. eapply inv_active; [exact R1|by rewrite C1|done..|by rewrite I1|exact O1|done|by eapply body_later|].
    right. split; [done|]. intros [X|X]; [congruence|]. right. apply (lt_finished _ _ _ _ L1) in X as [X|X]; [|done].
    destruct (Hf X) as [Y|Y]; [|lia]. apply (lt_keeps _ _ _ _ L1) in Y. congruence.
Qed.

Lemma scanned_rest ex fd r oid l : rest_ok ex fd oid l -> rest_ok (scanned ex [fd] r) fd oid l.
Proof. apply rest_weaken. intros x N X. left. split; [done|]. by intros ?%list_elem_of_singleton. Qed.

(** An object whose worker is done but that still holds output has it marked as pending. *)
Lemma unfinished io fed n : obj_ok (io, fed) -> (write_error_ io = true -> 0 < n) -> isFinished io = false ->
  finished_ io = true -> write_pending_ io = true \/ 0 < n.
Proof.
  intros Ok He Fin X. destruct (write_error_ io) eqn:E; [auto|]. left. destruct (oo_pending _ Ok E) as [P _]. cbn in P.
  unfold isFinished in Fin. rewrite X in Fin. cbn in Fin. rewrite P. by destruct (write_buffer_ io).
Qed.

Lemma scan_conn_spec ex fd l (Q : list Z -> loop -> Prop) :
  inv ex l ->
  (forall r l', inv (scanned ex [fd] r) l' -> (forall x, is_Some (connections l' !! x) <-> is_Some (connections l !! x)) -> Q r l') ->
  lwp (scan_conn fd) Q l.
Proof.
  intros I HQ. unfold scan_conn. apply lwp_bind, lwp_get.
  destruct (connections l !! fd) as [ctx|] eqn:C.
  2: { apply lwp_ret, HQ; [|done]. apply (inv_drop _ None _ fd); [by apply scanned_rest, inv_apart|done| |done].
       destruct (interest l !! fd) eqn:E; [|done]. destruct (iv_interest _ _ I fd) as [? X]; [by rewrite E|congruence]. }
  destruct (inv_split _ _ _ _ I C) as [R [KI K]]. destruct (state ctx) eqn:S.
  { destruct K as (K1 & K). apply lwp_ret, HQ; [|done]. eapply inv_join; [by apply scanned_rest|exact C|]. split; [done|]. by rewrite S. }
  destruct K as (id & io & fed & Kc & Ko & Km & Kb & _). rewrite Kc in *.
  apply lwp_bind. eapply lwp_io_get; [exact R|exact Ko|]. intros io1 l1 R1 C1 I1 O1 L1 Ok1.
  assert (forall l' io', rest_ok ex fd (Some id) l' -> connections l' = connections l -> interest l' = interest l ->
    objects l' !! id = Some (io', fed) -> later io io' (counter l) (counter l') -> Q [fd] l') as Close.
  { intros l' io' R' C' I' O' L'. apply HQ; [|by rewrite C'].
    eapply inv_active; [by apply scanned_rest|rewrite C'; exact C|done|done|by rewrite I'|exact O'|done|by eapply body_later|left; right; by left]. }
  destruct (hasError io1) eqn:E1; [by eapply lwp_ret, Close|]. unfold hasError in E1.
  apply lwp_bind. eapply lwp_io_get; [exact R1|exact O1|]. intros io2 l2 R2 C2 I2 O2 L2 Ok2.
  assert (write_error_ io2 = true -> 0 < counter l2) as He2 by (intros X; apply (lt_error _ _ _ _ L2) in X as [X|X]; congruence).
  assert (forall io3 l3, rest_ok ex fd (Some id) l3 -> connections l3 = connections l -> interest l3 = interest l ->
    objects l3 !! id = Some (io3, fed) -> later io2 io3 (counter l2) (counter l3) ->
    (finished_ io3 = true -> write_pending_ io3 = true \/ 0 < counter l3) ->
    lwp (register_pending fd ctx id ;; mret []) Q l3) as Rest.
  { intros io3 l3 R3 C3 I3 O3 L3 F3. apply lwp_bind.
    eapply register_pending_spec; [by apply scanned_rest|rewrite C3; exact C|done|done|by rewrite I3|exact O3|done| | |done|].
    - do 3 (eapply body_later; [eassumption|]). exact Kb.
    - intros X. apply (lt_error _ _ _ _ L3) in X as [X|X]; [|done]. apply He2 in X. pose proof (lt_counter _ _ _ _ L3). lia.
    - intros l4 I4 D4. apply lwp_ret, HQ; [exact I4|]. by rewrite <- C3. }
  destruct (isFinished io2) eqn:Fin.
  - apply lwp_bind, lwp_fmap. eapply lwp_io_get; [exact R2|exact O2|]. intros io3 l3 R3 C3 I3 O3 L3 Ok3.
    unfold isWritePending at 1. destruct (write_pending_ io3) eqn:P3; cbn [negb].
    + eapply Rest; [exact R3|congruence|congruence|exact O3|exact L3|by left].
    + apply lwp_ret. eapply Close; [exact R3|congruence|congruence|exact O3|]. do 2 (eapply later_trans; [eassumption|]). exact L3.
  - apply lwp_bind, lwp_ret. eapply Rest; [exact R2|congruence|congruence|exact O2|apply later_refl; lia|]. by eapply unfinished.
Qed.

Lemma scan_spec fds : forall ex l (Q : list Z -> loop -> Prop),
  inv ex l ->
  (forall r l', inv (scanned ex fds r) l' -> (forall x, is_Some (connections l' !! x) <-> is_Some (connections l !! x)) -> Q r l') ->
  lwp (scan fds) Q l.
Proof.
  induction fds as [|fd fds IH]; intros ex l Q I HQ; cbn [scan].
  - apply lwp_ret, HQ; [|done]. eapply inv_weaken; [|exact I]. intros x X. left. split; [done|]. apply not_elem_of_nil.
  - apply lwp_bind. eapply scan_conn_spec; [exact I|]. intros r1 l1 I1 D1. apply lwp_bind.
    eapply IH; [exact I1|]. intros r2 l2 I2 D2. apply lwp_ret, HQ; [|intros x; by rewrite D2].
    eapply inv_weaken; [|exact I2]. intros x [[[[X N]|X] N']|X]; [left|right; apply elem_of_app; auto..].
    split; [done|]. apply not_elem_of_cons. split; [|done]. intros ->. apply N. by left.
Qed.

Lemma close_all_spec fds : forall ex l (Q : unit -> loop -> Prop),
  inv ex l ->
  (forall l', inv ex l' -> (forall x, is_Some (connections l' !! x) -> is_Some (connections l !! x) /\ x ∉ fds) -> Q tt l') ->
  lwp (close_all fds) Q l.
Proof.
  induction fds as [|fd fds IH]; intros ex l Q I HQ; cbn [close_all].
  - apply lwp_ret, HQ; [done|]. intros x X. split; [done|apply not_elem_of_nil].
  - assert (forall l1, inv ex l1 -> connections l1 = delete fd (connections l) -> lwp (close_all fds) Q l1) as Rest.
    { intros l1 I1 C1. eapply IH; [exact I1|]. intros l2 I2 D2. apply HQ; [done|]. intros x X. apply D2 in X as [X N].
      rewrite C1 in X. destruct (decide (x = fd)) as [->|Hne]; [rewrite lookup_delete_eq in X; by destruct X|].
      rewrite lookup_delete_ne in X by done. split; [done|]. by apply not_elem_of_cons. }
    apply lwp_bind, lwp_get, lwp_bind. destruct (connections l !! fd) as [ctx|] eqn:C.
    + destruct (inv_split _ _ _ _ I C) as [R [_ K]]. eapply close_conn_spec; [exact R| |exact Rest].
      intros id Hid. destruct (state ctx); [destruct K as [K _]; congruence|]. destruct K as (id' & io & fed & K1 & K2 & _).
      assert (id' = id) as -> by congruence. by rewrite K2.
    + apply lwp_ret, Rest; [done|]. by rewrite delete_id.
Qed.

Lemma on_eventfd_spec order l : inv (fun _ => False) l -> (forall fd, is_Some (connections l !! fd) -> fd ∈ order) ->
  inv (fun _ => False) (on_eventfd order l).2.
Proof.
  intros I Ho. change (lwp (on_eventfd order) (fun _ l' => inv (fun _ => False) l') l). unfold on_eventfd.
  apply lwp_bind, lwp_modify, lwp_bind. apply (scan_spec _ (fun _ => True)).
  - destruct I as [A B C D E F G]. split; try done. intros fd ctx X. destruct (E _ _ X) as [E1 E2]. split; [done|].
    destruct (state ctx); [done|]. destruct E2 as (id & io & fed & E2 & E3 & E4 & E5 & _). exists id, io, fed. auto 6.
  - intros r l1 I1 D1. eapply close_all_spec; [exact I1|]. intros l2 [A B C D E F G] D2. split; try done.
    intros fd ctx X. eapply conn_ok_weaken; [|by apply E]. destruct (D2 fd) as [Y N]; [by rewrite X|].
    intros [[_ Z]|Z]; [|done]. apply Z, Ho, D1, Y.
Qed.

(** ** New connections and requests *)

Lemma on_accept_spec fd added l : inv (fun _ => False) l -> connections l !! fd = None -> inv (fun _ => False) (on_accept fd added l).2.
Proof.
  intros I C. assert (interest l !! fd = None) as In.
  { destruct (interest l !! fd) eqn:E; [|done]. destruct (iv_interest _ _ I fd) as [? X]; [by rewrite E|congruence]. }
  destruct added; [|by destruct I].
  change (lwp (on_accept fd true) (fun _ l' => inv (fun _ => False) l') l). unfold on_accept.
  apply lwp_bind, lwp_modify. rewrite In. apply lwp_modify.
  eapply (inv_join _ _ fd new_ConnCtx); cbn; [|apply lookup_insert_eq|].
  - pose proof (inv_apart _ _ _ I C) as R. eapply rest_frame; [exact R|done|apply (rk_workers _ _ _ _ R)| | |done|apply (rk_objects _ _ _ _ R)|done];
      intros fd' N; cbn; by apply lookup_insert_ne.
  - split; [apply lookup_insert_eq|]. by repeat split.
Qed.

Lemma head_end_length a n : head_end a = Some n -> (4 <= n <= length a)%nat.
Proof.
  revert n. induction a as [|c a IH]; intros n H; [done|]. cbn [head_end] in H.
  destruct (bool_decide_reflect (take 4 (c :: a) = [13; 10; 13; 10])) as [E|E].
  - injection H as <-. apply (f_equal length) in E. rewrite length_take in E. cbn [length] in *. lia.
  - destruct (head_end a) as [m|]; [|done]. injection H as <-. specialize (IH m eq_refl). cbn. lia.
Qed.

Lemma head_end_app a b n : head_end a = Some n -> head_end (a ++ b) = Some n.
Proof.
  revert n. induction a as [|c a IH]; intros n H; [done|]. pose proof (head_end_length _ _ H) as Hl. cbn [head_end app] in *.
  replace (take 4 (c :: a ++ b)) with (take 4 (c :: a)).
  - destruct (bool_decide _); [done|]. destruct (head_end a) as [k|] eqn:Ek; [|done]. cbn in H. injection H as <-. by rewrite (IH k eq_refl).
  - change (c :: a ++ b) with ((c :: a) ++ b). symmetry. apply take_app_le. lia.
Qed.

Lemma from_base_nonneg l : 0 <= from_base 10 l.
Proof.
  unfold from_base. assert (forall a, 0 <= a -> 0 <= foldl (fun a c => 10 * a + default 0 (digit_val c)) a l); [|auto with lia].
  induction l as [|c l IH]; intros a H; [done|]. cbn [foldl]. apply IH.
  enough (0 <= default 0 (digit_val c)) by lia. unfold digit_val. repeat case_match; bsplit; cbn; lia.
Qed.

Lemma content_length_range h : 0 <= extract_content_length h < 2 ^ 64.
Proof.
  unfold extract_content_length. induction (lines h) as [|x ls IH]; [done|]. cbn [first_some].
  destruct (content_length_line x) as [n|] eqn:E; [|done]. cbn.
  unfold content_length_line in E. destruct (_ && _); [|done]. destruct (header_name_eq _ _); [|done].
  destruct (span is_digit _) as [[|d ds] r]; [done|]. injection E as <-. unfold stoull.
  pose proof (from_base_nonneg (d :: ds)). destruct (Z.ltb_spec (from_base 10 (d :: ds)) (2 ^ 64)); [by split|done].
Qed.

(** The object of a new request. *)
Lemma new_object_ok head body : let n := extract_content_length head in
  let io := setHeaderData head body n new_ConnectionIO in
  obj_ok (io, []) /\ header_data_ io = head /\ content_length_ io = n /\ body_prefix_ io = take (Z.to_nat n) body /\
  write_error_ io = false /\ write_pending_ io = false /\ finished_ io = false.
Proof.
  intros n io. pose proof (content_length_range head) as Hn. fold n in Hn. subst io. unfold setHeaderData.
  assert ((if n <? zlen body then take (Z.to_nat n) body else body) = take (Z.to_nat n) body) as ->.
  { destruct (Z.ltb_spec n (zlen body)); [done|]. symmetry. apply take_ge. unfold zlen in *. lia. }
  cbn. split; [|done]. split; cbn; try done; try lia.
  - by rewrite app_nil_r.
  - rewrite zlen_take by lia. lia.
Qed.

Lemma rest_new_object ex fd x l : rest_ok ex fd None l -> obj_ok x ->
  rest_ok ex fd (Some (length (objects l))) (set_objects (objects l ++ [x]) l).
Proof.
  intros [A B C D E F G I] Hx.
  assert (forall fd' ctx, fd' <> fd -> connections l !! fd' = Some ctx -> conn_io ctx <> Some (length (objects l))) as Hlt.
  { intros fd' ctx N H Heq. destruct (E fd' ctx N H) as [_ K]. destruct (state ctx); [destruct K as [K _]; congruence|].
    destruct K as (id & io & fed & K1 & K2 & _). apply lookup_lt_Some in K2. assert (id = length (objects l)) by congruence. lia. }
  split; try done; cbn.
  - intros id y Hy. apply lookup_app_Some in Hy as [Hy|[_ Hy]]; [by eapply C|]. by apply list_lookup_singleton_Some in Hy as [_ <-].
  - intros fd' ctx N H. destruct (E _ _ N H) as [E1 E2]. split; [done|]. destruct (state ctx); [done|].
    destruct E2 as (id & io & fed & K1 & K2 & K3). exists id, io, fed. split; [done|]. split; [|exact K3]. by apply lookup_app_l_Some.
  - intros fd' ctx N H Heq. by destruct (Hlt fd' ctx N H).
  - intros id io fed H N. apply lookup_app_Some in H as [H|[H1 H2]]; [by eapply I|].
    apply list_lookup_singleton_Some in H2 as [H2 _]. destruct N. f_equal. lia.
Qed.

(** Steps at [fd] alone: its entry and its object's companions stay as they are. *)
Lemma put_ctx_rest ex fd oid ctx l : rest_ok ex fd oid l -> rest_ok ex fd oid (set_connections (<[fd := ctx]> (connections l)) l).
Proof.
  intros R. eapply rest_frame; [exact R|done|apply (rk_workers _ _ _ _ R)| |done|done|apply (rk_objects _ _ _ _ R)|done].
  intros fd' N. cbn. by apply lookup_insert_ne.
Qed.

Lemma inv_same ex l l' : inv ex l -> connections l' = connections l -> interest l' = interest l -> objects l' = objects l ->
  counter l' = counter l -> workers l' = workers l -> inv ex l'.
Proof.
  intros [A B C D E F G] Hc Hi Ho Hn Hw. split; rewrite ?Hc, ?Hi, ?Ho, ?Hn, ?Hw; try done.
  intros fd ctx X. destruct (E _ _ X) as [E1 E2]. split; [by rewrite Hi|]. by rewrite Ho, Hn.
Qed.

Lemma dispatch_request_spec fd ctx hd body l (Q : unit -> loop -> Prop) :
  rest_ok (fun _ => False) fd None l -> connections l !! fd = Some ctx ->
  interest l !! fd = Some EPOLLIN -> epoll_events ctx = EPOLLIN ->
  received ctx = hd ++ body -> head_end (received ctx) = Some (length hd) ->
  (forall l', inv (fun _ => False) l' -> Q tt l') ->
  lwp (dispatch_request fd ctx hd body) Q l.
Proof.
  intros R C I Ev Rc Hd HQ. unfold dispatch_request. set (n := extract_content_length hd). set (io := setHeaderData hd body n _).
  destruct (new_object_ok hd body) as (Ok & E1 & E2 & E3 & E4 & E5 & E6). fold n io in Ok, E1, E2, E3, E4, E5, E6. clearbody io.
  pose proof (content_length_range hd) as Hn. fold n in Hn.
  apply lwp_bind, lwp_get, lwp_bind, lwp_modify. set (id := length (objects l)). set (l0 := set_objects _ l).
  assert (rest_ok (fun _ => False) fd (Some id) l0) as R0 by by apply rest_new_object.
  assert (objects l0 !! id = Some (io, [])) as O0 by (cbn; by apply list_lookup_middle).
  set (full := (n =? 0) || (n <=? zlen (take (Z.to_nat n) body))).
  assert (body_ok (received ctx) full io []) as B.
  { exists body. rewrite E1, E2, E3, app_nil_r. split; [done|]. split; [done|]. split; [done|]. split; [done|].
    rewrite zlen_take by lia. unfold full. rewrite zlen_take by lia.
    destruct (Z.eqb_spec n 0) as [->|N0]; cbn [orb]; [left; zlen_pos; lia|]. destruct (Z.leb_spec n (Z.min n (zlen body))); [left; lia|].
    split; [apply take_ge; unfold zlen in *; lia|lia]. }
  apply lwp_bind.
  assert (forall io' l', rest_ok (fun _ => False) fd (Some id) l' -> connections l' = connections l -> interest l' = interest l ->
    objects l' !! id = Some (io', []) -> later io io' (counter l0) (counter l') ->
    lwp (put_ctx fd (set_complete full (activate id ctx)) ;;
         (if full then update_epoll fd (set_complete full (activate id ctx)) 0 else mret tt) ;; modify (add_task id)) Q l') as Rest.
  { intros io' l' R' C' I' O' L'.
    assert (awake EPOLLIN io' (counter l') /\ awake 0 io' (counter l')) as [A1 A0].
    { split; apply (awake_later _ io _ (counter l0)); try done; split; rewrite ?E4, ?E5, ?E6; try done; by intros []. }
    apply lwp_bind, lwp_modify, lwp_bind. apply (put_ctx_rest _ _ _ (set_complete full (activate id ctx))) in R'.
    destruct full eqn:Efull.
    - eapply update_epoll_spec; [exact R'|cbn; apply lookup_insert_eq|cbn; by rewrite I', I, Ev|]. intros l2 R2 C2 I2 O2 N2.
      apply lwp_modify, HQ. apply (inv_same _ l2); [|done..].
      eapply inv_active; [exact R2|rewrite C2; apply lookup_insert_eq|done..|by rewrite O2| | |]; [by left|by eapply body_later|].
      right. by rewrite N2.
    - apply lwp_ret, lwp_modify, HQ. eapply (inv_same _ (set_connections _ l')); [|done..].
      eapply inv_active; [exact R'|cbn; apply lookup_insert_eq|done|done|cbn; by rewrite I', I, Ev|exact O'|left; exact Ev|by eapply body_later|].
      right. cbn. by rewrite Ev. }
  unfold full in Rest. destruct (n =? 0); cbn [orb] in Rest.
  - apply lwp_ret. eapply Rest; [exact R0|done|done|exact O0|apply later_refl; lia].
  - apply lwp_fmap. eapply lwp_io_get; [exact R0|exact O0|]. intros io' l' R' C' I' O' L' _.
    assert (bodyBytesReceived io' = zlen (take (Z.to_nat n) body)) as ->.
    { pose proof (oo_fed _ Ok) as X. cbn in X. unfold bodyBytesReceived. by rewrite (lt_fed _ _ _ _ L'), X, app_nil_r, E3. }
    eapply Rest; eauto.
Qed.

(** Feeding a part of the body that the announced length allows. *)
Lemma feedBody_fields d e io : body_bytes_fed_ io + zlen d < 2 ^ 64 -> 0 <= body_bytes_fed_ io ->
  let io' := feedBody d e io in
  header_data_ io' = header_data_ io /\ body_prefix_ io' = body_prefix_ io /\ content_length_ io' = content_length_ io /\
  read_chunk_ io' = read_chunk_ io ++ d /\ body_bytes_fed_ io' = body_bytes_fed_ io + zlen d /\
  read_eof_ io' = read_eof_ io || e /\ write_buffer_ io' = write_buffer_ io /\ write_cursor_ io' = write_cursor_ io /\
  write_pending_ io' = write_pending_ io /\ finished_ io' = finished_ io /\ write_error_ io' = write_error_ io.
Proof.
  intros H1 H2 io'. subst io'. unfold feedBody. destruct d as [|x d].
  - rewrite zlen_nil, Z.add_0_r, app_nil_r. destruct e; cbn; rewrite ?orb_true_r, ?orb_false_r; done.
  - pose proof (zlen_nonneg (x :: d)). unfold u64. rewrite Z.mod_small by lia.
    destruct e; cbn; rewrite ?orb_true_r, ?orb_false_r; done.
Qed.

Lemma feedBody_ok d e io fed : obj_ok (io, fed) -> body_bytes_fed_ io + zlen d <= content_length_ io -> obj_ok (feedBody d e io, fed ++ d).
Proof.
  intros [A B C D E F] H. cbn in *. zlen_pos. assert (0 <= body_bytes_fed_ io) by (rewrite D; apply zlen_nonneg).
  destruct (feedBody_fields d e io) as (_ & F2 & F3 & F4 & F5 & _ & F7 & F8 & F9 & F10 & F11); [lia..|].
  split; cbn; rewrite ?F2, ?F3, ?F4, ?F5, ?F7, ?F8, ?F9, ?F11; try done; try lia.
  - rewrite D. zl.
  - destruct F as [z ->]. exists z. by rewrite app_assoc.
Qed.

Lemma awake_feed mask d e io n : body_bytes_fed_ io + zlen d < 2 ^ 64 -> 0 <= body_bytes_fed_ io ->
  awake mask io n -> awake mask (feedBody d e io) n.
Proof. intros H1 H2. destruct (feedBody_fields d e io H1 H2) as (_ & _ & _ & _ & _ & _ & _ & _ & F9 & F10 & F11). unfold awake. by rewrite F9, F10, F11. Qed.

(** The mask without EPOLLIN. *)
Lemma mask_off mask complete : mask_ok mask complete -> mask_ok (Z.land mask (Z.lnot EPOLLIN)) true /\
  has_ev EPOLLOUT (Z.land mask (Z.lnot EPOLLIN)) = has_ev EPOLLOUT mask.
Proof. unfold mask_ok. destruct complete; intros [-> | ->]; (split; [first [left; reflexivity|right; reflexivity]|done]). Qed.

Lemma update_off_spec ex fd id ctx io fed l (Q : unit -> loop -> Prop) b :
  rest_ok ex fd (Some id) l -> connections l !! fd = Some ctx -> state ctx = Active -> conn_io ctx = Some id ->
  body_complete ctx = true ->
  interest l !! fd = (if epoll_events ctx =? 0 then None else Some (epoll_events ctx)) ->
  objects l !! id = Some (io, fed) -> mask_ok (epoll_events ctx) b ->
  body_ok (received ctx) true io fed -> ex fd \/ awake (epoll_events ctx) io (counter l) ->
  (forall l', inv ex l' -> Q tt l') ->
  lwp (update_epoll fd ctx (Z.land (epoll_events ctx) (Z.lnot EPOLLIN))) Q l.
Proof.
  intros R C S Ci Bc I O M B A HQ. eapply update_epoll_spec; [exact R|exact C|exact I|]. intros l2 R2 C2 I2 O2 N2.
  destruct (mask_off _ _ M) as [M1 M2]. apply HQ. eapply inv_active; [exact R2|rewrite C2; apply lookup_insert_eq|done..| | | |].
  - by rewrite O2.
  - cbn. by rewrite Bc.
  - cbn. by rewrite Bc.
  - destruct A as [A|A]; [by left|right]. cbn. unfold awake. by rewrite M2, N2.
Qed.

(** ** A readable client *)

(** More of the body has arrived. *)
Lemma body_more old buf io fed d (eof : bool) :
  obj_ok (io, fed) -> body_ok old false io fed ->
  let remaining := content_length_ io - body_bytes_fed_ io in
  d = take (Z.to_nat (Z.min (zlen buf) remaining)) buf -> eof = (remaining <=? Z.min (zlen buf) remaining) ->
  0 < remaining /\ body_bytes_fed_ io + zlen d <= content_length_ io /\
  body_ok (old ++ buf) eof (feedBody d eof io) (fed ++ d).
Proof.
  intros Ok (body & Er & Eh & El & _ & Ef & Hl) remaining Ed Ee.
  pose proof (oo_fed _ Ok) as Hf. pose proof (oo_length _ Ok) as Hn. cbn in Hf, Hn. rewrite Ef in Hf. subst remaining.
  pose proof (zlen_nonneg buf). pose proof (zlen_nonneg body).
  assert (zlen d = Z.min (zlen buf) (content_length_ io - body_bytes_fed_ io)) as Hd by (rewrite Ed, zlen_take; lia).
  split; [lia|]. split; [lia|]. destruct (feedBody_fields d eof io) as (F1 & F2 & F3 & _ & _ & F6 & _); [lia..|].
  exists (body ++ buf). rewrite F1, F2, F3, F6, Er, !app_assoc, Ef. split; [done|]. split; [rewrite <- Er; by apply head_end_app|]. split; [done|].
  assert (take (Z.to_nat (content_length_ io)) (body ++ buf) = body ++ d) as Ht.
  { rewrite take_app_ge by (unfold zlen in *; lia). f_equal. rewrite Ed. unfold zlen in *.
    destruct (Z.leb_spec (Z.of_nat (length buf)) (content_length_ io - body_bytes_fed_ io)).
    - rewrite !take_ge by lia. done.
    - rewrite Z.min_r by lia. f_equal. lia. }
  split; [by rewrite Ht|]. destruct eof; symmetry in Ee; bsplit.
  - left. rewrite zlen_app. lia.
  - assert (d = buf) as -> by (rewrite Ed; apply take_ge; unfold zlen in *; lia). split; [done|]. rewrite zlen_app. lia.
Qed.

Lemma feed_body_spec fd id ctx old buf io fed l (Q : unit -> loop -> Prop) :
  rest_ok (fun _ => False) fd (Some id) l -> connections l !! fd = Some ctx -> state ctx = Active -> conn_io ctx = Some id ->
  received ctx = old ++ buf -> body_complete ctx = false ->
  interest l !! fd = (if epoll_events ctx =? 0 then None else Some (epoll_events ctx)) ->
  objects l !! id = Some (io, fed) -> mask_ok (epoll_events ctx) false ->
  body_ok old false io fed -> awake (epoll_events ctx) io (counter l) ->
  (forall l', inv (fun _ => False) l' -> Q tt l') ->
  lwp (feed_body fd ctx id buf) Q l.
Proof.
  intros R C S Ci Er Bc I O M B A HQ. unfold feed_body.
  apply lwp_bind. eapply lwp_io_get; [exact R|exact O|]. intros io1 l1 R1 C1 I1 O1 L1 Ok1.
  apply lwp_bind. eapply lwp_io_get; [exact R1|exact O1|]. intros io2 l2 R2 C2 I2 O2 L2 Ok2.
  assert (later io io2 (counter l) (counter l2)) as L02 by by eapply later_trans.
  assert (bodyBytesReceived io1 = body_bytes_fed_ io2) as -> by (by rewrite (lt_fed _ _ _ _ L2)).
  pose proof (body_later _ _ _ _ _ _ _ L02 B) as B2.
  destruct (body_more old buf io2 fed _ _ Ok2 B2 eq_refl eq_refl) as (Hpos & Hfit & Hbody).
  rewrite (proj2 (Z.ltb_lt _ _)) by lia. set (d := take _ buf) in *. set (eof := _ <=? _) in *.
  apply lwp_bind. eapply lwp_io_do; [exact R2|exact O2| |].
  { intros io3 n L3 Ok3. apply feedBody_ok; [done|]. by rewrite (lt_fed _ _ _ _ L3), (lt_length _ _ _ _ L3). }
  intros io3 l3 R3 C3 I3 O3 L3 Ok3.
  assert (body_ok (old ++ buf) eof (feedBody d eof io3) (fed ++ d)) as B3.
  { eapply (body_more old buf io3 fed d eof); [done|by eapply body_later| |]; by rewrite (lt_fed _ _ _ _ L3), (lt_length _ _ _ _ L3). }
  assert (awake (epoll_events ctx) (feedBody d eof io3) (counter l3)) as A3.
  { pose proof (oo_length _ Ok3) as Hl. pose proof (oo_fed _ Ok3) as Hf. cbn in Hl, Hf. pose proof (zlen_nonneg (body_prefix_ io3 ++ fed)).
    rewrite <- (lt_fed _ _ _ _ L3), <- (lt_length _ _ _ _ L3) in Hfit. apply awake_feed; [lia|lia|].
    eapply awake_later; [|exact A]. by eapply later_trans. }
  assert (connections l3 = connections l) as C30 by congruence. assert (interest l3 = interest l) as I30 by congruence.
  destruct eof.
  - apply lwp_bind, lwp_modify. eapply update_off_spec; [apply put_ctx_rest; exact R3|cbn; apply lookup_insert_eq|done|done|done|cbn; by rewrite I30| |exact M| | |exact HQ].
    + exact O3.
    + cbn. by rewrite Er.
    + by right.
  - apply lwp_ret, HQ. eapply inv_active; [exact R3|rewrite C30; exact C|done|done|by rewrite I30|exact O3|by rewrite Bc| |by right]. by rewrite Er, Bc.
Qed.

(** A connection with its object, if it has one. *)
Lemma conn_object ex l fd ctx id : conn_ok ex l fd ctx -> conn_io ctx = Some id -> is_Some (objects l !! id).
Proof.
  intros [_ K] H. destruct (state ctx); [destruct K as [K _]; congruence|]. destruct K as (id' & io & fed & K1 & K2 & _).
  assert (id' = id) as -> by congruence. by rewrite K2.
Qed.

Section Readable.
Context (fd : Z) (ctx : ConnCtx) (l : loop) (Q : bool -> loop -> Prop).
Hypothesis Iv : inv (fun _ => False) l.
Hypothesis C : connections l !! fd = Some ctx.
Hypothesis HQ : forall b l', inv (fun _ => False) l' -> Q b l'.

Lemma close_spec ctx1 l1 b : rest_ok (fun _ => False) fd (conn_io ctx) l1 -> objects l1 = objects l -> conn_io ctx1 = conn_io ctx ->
  lwp (close_conn fd ctx1 ;; mret b) Q l1.
Proof.
  intros R1 O1 E1. destruct (inv_split _ _ _ _ Iv C) as [_ K]. apply lwp_bind.
  eapply close_conn_spec; [rewrite E1; exact R1| |intros l' I' _; by apply lwp_ret, HQ].
  intros id Hid. rewrite O1. rewrite E1 in Hid. by eapply conn_object.
Qed.

Lemma on_eof_spec : lwp (on_eof fd ctx) Q l.
Proof.
  destruct (inv_split _ _ _ _ Iv C) as [R [KI K]]. unfold on_eof. destruct (state ctx) eqn:S; [by apply close_spec|].
  destruct K as (id & io & fed & Kc & Ko & Km & Kb & [[]|Ka]). rewrite Kc in *.
  assert (forall io' l', rest_ok (fun _ => False) fd (Some id) l' -> connections l' = connections l -> interest l' = interest l ->
    objects l' !! id = Some (io', fed) -> awake (epoll_events ctx) io' (counter l') -> body_ok (received ctx) true io' fed ->
    lwp (put_ctx fd (set_complete true ctx) ;; update_epoll fd (set_complete true ctx) (Z.land (epoll_events (set_complete true ctx)) (Z.lnot EPOLLIN)) ;; mret false) Q l') as Rest.
  { intros io' l' R' C' I' O' A' B'. apply lwp_bind, lwp_modify, lwp_bind.
    eapply update_off_spec; [apply put_ctx_rest; exact R'|cbn; apply lookup_insert_eq|done|done|done|cbn; by rewrite I'|exact O'|exact Km|exact B'|by right|].
    intros l2 I2. by apply lwp_ret, HQ. }
  apply lwp_bind. destruct (body_complete ctx) eqn:Bc; [apply lwp_ret; by eapply Rest|].
  eapply lwp_io_do; [exact R|exact Ko| |].
  { intros io' n L' Ok'. apply feedBody_ok; [done|]. rewrite zlen_nil. pose proof (oo_length _ Ok'). cbn in *. lia. }
  intros io' l' R' C' I' O' L' Ok'. rewrite app_nil_r in O'. eapply Rest; [exact R'|done|done|exact O'| |].
  - exact (awake_later _ _ _ _ _ L' Ka).
  - apply (body_later _ _ _ _ _ _ _ L') in Kb as (body & B1 & B2 & B3 & B4 & _). exists body. by repeat (split; [done|]); right.
Qed.

Lemma on_head_spec buf : state ctx = ReadingHeaders -> lwp (on_head fd ctx buf) Q l.
Proof.
  intros S. destruct (inv_split _ _ _ _ Iv C) as [R [KI K]]. rewrite S in K. destruct K as (K1 & K2 & K3 & K4 & K5 & K6). rewrite K1 in R.
  unfold on_head. set (ctx1 := set_buf _ _). apply lwp_bind, lwp_modify. apply (put_ctx_rest _ _ _ ctx1) in R. set (l1 := set_connections _ l) in *.
  assert (header_buf ctx1 = received ctx1) as Hb by (cbn; by rewrite K4).
  destruct (Z.ltb_spec MAX_HEADER_SIZE (zlen (header_buf ctx1))) as [Hbig|Hsmall].
  { apply lwp_bind, lwp_modify. apply close_spec; [|done|done]. rewrite K1.
    eapply rest_frame; [exact R|done|apply (rk_workers _ _ _ _ R)|done|done|done|apply (rk_objects _ _ _ _ R)|done]. }
  rewrite Hb in *. apply lwp_bind. destruct (head_end (received ctx1)) as [n|] eqn:Hh.
  - pose proof (head_end_length _ _ Hh). eapply (dispatch_request_spec fd ctx1); [exact R|apply lookup_insert_eq|cbn; by rewrite KI, K2|exact K2| | |intros l' I'; by apply lwp_ret, HQ].
    + symmetry. apply take_drop.
    + by rewrite length_take, Nat.min_l by lia.
  - apply lwp_ret, lwp_ret, HQ. apply (inv_join _ _ fd ctx1); [cbn; by rewrite K1|apply lookup_insert_eq|]. split; [exact KI|].
    change (state ctx1) with (state ctx). by rewrite S.
Qed.

Lemma on_body_spec buf : state ctx = Active -> lwp (on_body fd ctx buf) Q l.
Proof.
  intros S. destruct (inv_split _ _ _ _ Iv C) as [R [KI K]]. rewrite S in K. destruct K as (id & io & fed & Kc & Ko & Km & Kb & [[]|Ka]). rewrite Kc in R.
  unfold on_body. set (ctx1 := set_received _ ctx). apply lwp_bind, lwp_modify, lwp_bind. apply (put_ctx_rest _ _ _ ctx1) in R.
  change (body_complete ctx1) with (body_complete ctx). change (conn_io ctx1) with (conn_io ctx). rewrite Kc. destruct (body_complete ctx) eqn:Bc.
  - apply lwp_ret, lwp_ret, HQ. eapply (inv_active _ fd id ctx1); [exact R|apply lookup_insert_eq|done|done|exact KI|exact Ko|cbn; by rewrite Bc| |by right].
    cbn. rewrite Bc. destruct Kb as (body & B1 & B2 & B3 & B4 & B5). exists (body ++ buf). split; [by rewrite app_assoc, B1|].
    split; [by apply head_end_app|]. split; [done|]. split; [|done]. etrans; [exact B4|]. rewrite take_app. by eexists.
  - eapply feed_body_spec; [exact R|apply lookup_insert_eq|done|done|done|done|exact KI|exact Ko|exact Km|exact Kb|exact Ka|]. intros l' I'. by apply lwp_ret, HQ.
Qed.

Lemma on_readable_spec r : lwp (on_readable fd ctx r) Q l.
Proof.
  destruct (inv_split _ _ _ _ Iv C) as [R _]. destruct r as [| |[|x buf]]; cbn [on_readable].
  - by apply close_spec.
  - by apply lwp_ret, HQ.
  - apply on_eof_spec.
  - destruct (state ctx) eqn:S; [by apply on_head_spec|by apply on_body_spec].
Qed.
End Readable.

(** ** A writable client *)

Lemma pending_nil io fed : obj_ok (io, fed) -> pendingWriteData io = [] -> write_error_ io = false -> write_pending_ io = false.
Proof.
  intros Ok P E. destruct (oo_pending _ Ok E) as [Ep Hlt]. cbn in *. rewrite Ep. clear Ep. destruct (write_buffer_ io) as [|x buf] eqn:Eb; [done|].
  specialize (Hlt ltac:(done)). pose proof (oo_cursor _ Ok) as Hc. cbn in Hc. unfold pendingWriteData in P. rewrite Eb in P.
  rewrite (proj2 (Z.leb_gt _ _)) in P by lia. apply (f_equal length) in P. rewrite length_drop in P. unfold zlen in *. cbn [length] in *. lia.
Qed.

Lemma pending_later io io' n n' : later io io' n n' -> pendingWriteData io <> [] -> pendingWriteData io' = pendingWriteData io.
Proof.
  intros L P. destruct (lt_buffer _ _ _ _ L) as [E1 E2].
  - intros E. apply P. unfold pendingWriteData. rewrite E. destruct (_ <=? _); [done|apply drop_nil].
  - unfold pendingWriteData. by rewrite E1, E2.
Qed.

Lemma advance_ok n io fed : obj_ok (io, fed) -> pendingWriteData io <> [] -> 0 <= n <= zlen (pendingWriteData io) ->
  obj_ok (advanceWrite n io, fed ++ []) /\ write_error_ (advanceWrite n io) = write_error_ io /\
  finished_ (advanceWrite n io) = finished_ io /\ (write_pending_ (advanceWrite n io) = true -> write_pending_ io = true).
Proof.
  intros [A B C D E F] P Hn. cbn in *.
  assert (write_cursor_ io < zlen (write_buffer_ io)) as Hlt.
  { unfold pendingWriteData in P. destruct (Z.leb_spec (zlen (write_buffer_ io)) (write_cursor_ io)); [done|lia]. }
  destruct (advanceWrite_inv n io (pendingWriteData io)) as (H1 & H2 & H3 & H4 & H5); [lia|done|done|done|].
  unfold advanceWrite in *. destruct (_ <=? _); (split; [|done]); split; cbn in *; rewrite ?app_nil_r; try done; try lia.
  intros Ee. destruct (C Ee) as [Cp _]. apply H5. rewrite Cp. destruct (write_buffer_ io); [|done]. change (zlen []) with 0 in Hlt. lia.
Qed.

Section Writable.
Context (fd : Z) (ctx : ConnCtx) (id : nat) (l : loop) (Q : unit -> loop -> Prop).
Hypothesis C : connections l !! fd = Some ctx.
Hypothesis S : state ctx = Active.
Hypothesis Ci : conn_io ctx = Some id.
Hypothesis I : interest l !! fd = (if epoll_events ctx =? 0 then None else Some (epoll_events ctx)).
Hypothesis M : mask_ok (epoll_events ctx) (body_complete ctx).
Hypothesis HQ : forall l', inv (fun _ => False) l' -> Q tt l'.

Lemma close_active l1 io fed : rest_ok (fun _ => False) fd (Some id) l1 -> objects l1 !! id = Some (io, fed) -> lwp (close_conn fd ctx) Q l1.
Proof. intros R O. eapply close_conn_spec; [rewrite Ci; exact R| |auto]. rewrite Ci. intros ? [= <-]. by rewrite O. Qed.

Lemma idle_or_close_spec io fed l1 :
  rest_ok (fun _ => False) fd (Some id) l1 -> connections l1 = connections l -> interest l1 = interest l ->
  objects l1 !! id = Some (io, fed) -> body_ok (received ctx) (body_complete ctx) io fed ->
  (write_error_ io = true -> 0 < counter l1) -> (write_pending_ io = true -> 0 < counter l1) ->
  lwp (idle_or_close fd ctx id) Q l1.
Proof.
  intros R C1 I1 O B He Hp. unfold idle_or_close. apply lwp_bind. eapply lwp_io_get; [exact R|exact O|]. intros io2 l2 R2 C2 I2 O2 L2 Ok2.
  pose proof (lt_counter _ _ _ _ L2) as Hn. destruct (isFinished io2) eqn:Fin; [by eapply close_active|].
  eapply update_epoll_spec; [exact R2|rewrite C2, C1; exact C|by rewrite I2, I1|]. intros l3 R3 C3 I3 O3 N3.
  apply HQ. eapply inv_active; [exact R3|rewrite C3; apply lookup_insert_eq|done..|by rewrite O3| |by eapply body_later|].
  { cbn. destruct (body_complete ctx); by left. }
  right. rewrite N3.
  assert (write_error_ io2 = true -> 0 < counter l2) as He2.
  { intros X. apply (lt_error _ _ _ _ L2) in X as [X|X]; [|done]. specialize (He X). lia. }
  assert (write_pending_ io2 = true -> 0 < counter l2) as Hp2.
  { intros X. apply (lt_pending _ _ _ _ L2) in X as [X|X]; [|done]. specialize (Hp X). lia. }
  split; [done|]. intros X. right. destruct X as [X|X]; [auto|].
  destruct (unfinished io2 fed (counter l2)) as [Y|Y]; auto.
Qed.

Lemma on_writable_active s io fed :
  rest_ok (fun _ => False) fd (Some id) l -> objects l !! id = Some (io, fed) ->
  body_ok (received ctx) (body_complete ctx) io fed -> awake (epoll_events ctx) io (counter l) ->
  lwp (on_writable fd s) Q l.
Proof.
  intros R O B A. unfold on_writable. apply lwp_bind, lwp_get. rewrite C, Ci.
  apply lwp_bind. eapply lwp_io_get; [exact R|exact O|]. intros io1 l1 R1 C1 I1 O1 L1 Ok1.
  pose proof (awake_later _ _ _ _ _ L1 A) as A1. pose proof (body_later _ _ _ _ _ _ _ L1 B) as B1.
  destruct (pendingWriteData io1) as [|x data] eqn:P.
  { eapply idle_or_close_spec; [exact R1|done|done|exact O1|done|apply A1|]. intros X.
    destruct (write_error_ io1) eqn:E; [by apply A1|]. pose proof (pending_nil _ _ Ok1 P E). congruence. }
  destruct s as [| |n].
  - apply lwp_bind. eapply lwp_io_do; [exact R1|exact O1|intros ? ? _; apply obj_ok_writeError|]. intros io2 l2 R2 C2 I2 O2 L2 Ok2.
    by eapply close_active.
  - apply lwp_ret, HQ. eapply inv_active; [exact R1|by rewrite C1|done|done|by rewrite I1|exact O1|done|exact B1|by right].
  - cbv zeta. set (k := Z.max 0 _). apply lwp_bind, lwp_modify, lwp_bind. rewrite <- P in *.
    assert (pendingWriteData io1 <> []) as Pn by (by rewrite P).
    assert (0 <= k <= zlen (pendingWriteData io1)) as Hk by (subst k; rewrite P; zlen_pos; lia).
    assert (rest_ok (fun _ => False) fd (Some id) (add_wire fd (take (Z.to_nat k) (pendingWriteData io1)) l1)) as R1'.
    { eapply rest_frame; [exact R1|done|apply (rk_workers _ _ _ _ R1)|done|done|done|apply (rk_objects _ _ _ _ R1)|done]. }
    eapply lwp_io_do; [exact R1'|exact O1| |].
    { intros io2 m L2 Ok2. pose proof (pending_later _ _ _ _ L2 Pn) as P2. apply advance_ok; by rewrite ?P2. }
    intros io2 l2 R2 C2 I2 O2 L2 Ok2. pose proof (pending_later _ _ _ _ L2 Pn) as P2.
    destruct (advance_ok k io2 fed Ok2) as (_ & F1 & F2 & F3); [by rewrite P2..|].
    rewrite app_nil_r in O2. pose proof (awake_later _ _ _ _ _ L2 A1) as A2. pose proof (body_later _ _ _ _ _ _ _ L2 B1) as B2.
    assert (awake (epoll_events ctx) (advanceWrite k io2) (counter l2)) as A2'.
    { destruct A2 as [X Y]. split; rewrite ?F1, ?F2; [done|]. intros [Z|Z]; apply Y; auto. }
    assert (body_ok (received ctx) (body_complete ctx) (advanceWrite k io2) fed) as B2'.
    { unfold advanceWrite. by destruct (_ <=? _). }
    apply lwp_bind. eapply lwp_io_get; [exact R2|exact O2|]. intros io3 l3 R3 C3 I3 O3 L3 Ok3.
    pose proof (awake_later _ _ _ _ _ L3 A2') as A3. pose proof (body_later _ _ _ _ _ _ _ L3 B2') as B3.
    assert (connections l3 = connections l) as C30 by (rewrite C3, C2; exact C1). assert (interest l3 = interest l) as I30 by (rewrite I3, I2; exact I1).
    unfold isWritePending. destruct (write_pending_ io3) eqn:P3.
    + apply lwp_ret, HQ. eapply inv_active; [exact R3|by rewrite C30|done|done|by rewrite I30|exact O3|done|exact B3|by right].
    + eapply idle_or_close_spec; [exact R3|done|done|exact O3|exact B3|apply A3|congruence].
Qed.
End Writable.

Lemma on_writable_spec fd s l (Q : unit -> loop -> Prop) :
  inv (fun _ => False) l -> (forall l', inv (fun _ => False) l' -> Q tt l') -> lwp (on_writable fd s) Q l.
Proof.
  intros Iv HQ. destruct (connections l !! fd) as [ctx|] eqn:C.
  2: { unfold on_writable. apply lwp_bind, lwp_get. rewrite C. by apply lwp_ret, HQ. }
  destruct (inv_split _ _ _ _ Iv C) as [R [KI K]]. destruct (state ctx) eqn:S.
  - destruct K as [K _]. unfold on_writable. apply lwp_bind, lwp_get. rewrite C, K. by apply lwp_ret, HQ.
  - destruct K as (id & io & fed & Kc & Ko & Km & Kb & [[]|Ka]). rewrite Kc in R. by eapply on_writable_active.
Qed.

Lemma on_client_spec fd ev r s l : inv (fun _ => False) l -> inv (fun _ => False) (on_client fd ev r s l).2.
Proof.
  intros Iv. change (lwp (on_client fd ev r s) (fun _ l' => inv (fun _ => False) l') l). unfold on_client.
  apply lwp_bind, lwp_get. destruct (connections l !! fd) as [ctx|] eqn:C; [|by apply lwp_ret].
  destruct (inv_split _ _ _ _ Iv C) as [R K]. destruct (has_ev EPOLLERR ev || has_ev EPOLLHUP ev).
  { eapply close_conn_spec; [exact R|intros id; by eapply conn_object|done]. }
  assert (forall (b : bool) l1, inv (fun _ => False) l1 ->
    lwp (if b then mret tt else if has_ev EPOLLOUT ev then on_writable fd s else mret tt) (fun _ l' => inv (fun _ => False) l') l1) as Rest.
  { intros b l1 I1. destruct b; [by apply lwp_ret|]. destruct (has_ev EPOLLOUT ev); [by apply on_writable_spec|by apply lwp_ret]. }
  apply lwp_bind. destruct (has_ev EPOLLIN ev); [by apply (on_readable_spec fd ctx)|by apply lwp_ret, (Rest false)].
Qed.

(** ** Reachable states *)

(** What may happen in a state: the kernel accepts on a descriptor that is not in use, the
    scan visits the whole table, a client event may carry anything, and workers write
    strings that a machine can hold. *)
Definition possible (e : event) (l : loop) : Prop :=
  match e with
  | EAccept fd _ => connections l !! fd = None
  | EEventfd order => forall fd, is_Some (connections l !! fd) -> fd ∈ order
  | EClient _ _ _ _ => True
  | EWorkers ss => small_steps ss
  end.

Inductive reachable : loop -> Prop :=
| reach_start ws : Forall small_steps ws -> reachable (start ws)
| reach_step l e : reachable l -> possible e l -> reachable (step e l).

Lemma start_inv ws : Forall small_steps ws -> inv (fun _ => False) (start ws).
Proof. intros F. split; cbn; try done; intros fd; rewrite ?lookup_empty; try done. Qed.

Lemma loop_step_inv e l : inv (fun _ => False) l -> possible e l -> inv (fun _ => False) (step e l).
Proof.
  intros I P. destruct e as [fd added|order|fd ev r s|ss]; cbn in *.
  - by apply on_accept_spec.
  - by apply on_eventfd_spec.
  - by apply on_client_spec.
  - pose proof (worker_steps_rel ss l P (iv_counter _ _ I) (iv_objects _ _ I)) as S.
    eapply inv_steps; [exact I|exact S|]. rewrite (sr_workers _ _ S). apply (iv_workers _ _ I).
Qed.

Lemma reachable_inv l : reachable l -> inv (fun _ => False) l.
Proof. induction 1; [by apply start_inv|by apply loop_step_inv]. Qed.

(** C12. The event loop loses no connection and no wake-up.  In every state that any sequence
    of accepts, eventfd and client events can reach, with any worker steps between any two
    of them and between any two accesses of a handler to a shared object: the epoll set
    holds exactly the events that the table of connections records, for descriptors in the
    table; a connection whose request has not fully arrived is registered for reading; and
    when a worker has failed, has output to be sent or has finished, the connection waits
    for EPOLLOUT or the eventfd is readable, so the loop will look at it.  No two
    connections share an object. *)
Theorem event_loop_wakes_up (l : loop) :
  reachable l ->
  (forall fd, interest l !! fd =
     match connections l !! fd with
     | Some ctx => if epoll_events ctx =? 0 then None else Some (epoll_events ctx)
     | None => None
     end) /\
  (forall fd ctx, connections l !! fd = Some ctx -> body_complete ctx = false -> has_ev EPOLLIN (epoll_events ctx) = true) /\
  (forall fd ctx id, connections l !! fd = Some ctx -> conn_io ctx = Some id ->
     exists io fed, objects l !! id = Some (io, fed) /\
       (hasError io = true -> 0 < counter l) /\
       (isWritePending io = true \/ isFinished io = true -> has_ev EPOLLOUT (epoll_events ctx) = true \/ 0 < counter l)) /\
  (forall fd1 fd2 c1 c2 id, connections l !! fd1 = Some c1 -> connections l !! fd2 = Some c2 ->
     conn_io c1 = Some id -> conn_io c2 = Some id -> fd1 = fd2).
Proof.
  intros R%reachable_inv. repeat split.
  - intros fd. destruct (connections l !! fd) as [ctx|] eqn:C; [by destruct (iv_conns _ _ R _ _ C)|].
    destruct (interest l !! fd) eqn:E; [|done]. destruct (iv_interest _ _ R fd) as [? X]; [by rewrite E|congruence].
  - intros fd ctx C B. destruct (iv_conns _ _ R _ _ C) as [_ K]. destruct (state ctx).
    + destruct K as (_ & -> & _). done.
    + destruct K as (id & io & fed & _ & _ & M & _). rewrite B in M. by destruct M as [-> | ->].
  - intros fd ctx id C Ci. destruct (iv_conns _ _ R _ _ C) as [_ K]. destruct (state ctx); [destruct K as [K _]; congruence|].
    destruct K as (id' & io & fed & K1 & K2 & _ & _ & [[]|[A1 A2]]). assert (id' = id) as -> by congruence.
    exists io, fed. split; [done|]. split; [done|]. intros [X|X]; apply A2; [by left|right]. unfold isFinished in X. by apply andb_prop in X as [-> _].
  - intros fd1 fd2 c1 c2 id C1 C2 E1 E2. destruct (iv_distinct _ _ R _ _ _ _ C1 C2); congruence.
Qed.

(** C13. A worker gets the request that arrived.  In every reachable state, for a connection
    whose head is complete: the bytes received so far are the head, which is exactly the
    part up to the first blank line, and a rest; the announced length is the one of the
    head; the prefix and the bytes fed to the worker are the first bytes of the rest, never
    more than were announced; while the body is not complete they are all of the rest, and
    when it is complete they are the announced number of bytes unless the client stopped
    sending.  What the worker has not read yet is the end of what was fed. *)
Theorem request_reaches_worker (l : loop) (fd : Z) (ctx : ConnCtx) (id : nat) :
  reachable l -> connections l !! fd = Some ctx -> conn_io ctx = Some id ->
  exists io fed body,
    objects l !! id = Some (io, fed) /\
    received ctx = header_data_ io ++ body /\ head_end (received ctx) = Some (length (header_data_ io)) /\
    content_length_ io = extract_content_length (header_data_ io) /\
    body_prefix_ io ++ fed `prefix_of` take (Z.to_nat (content_length_ io)) body /\
    bodyBytesReceived io = zlen (body_prefix_ io ++ fed) /\
    (body_complete ctx = false -> body_prefix_ io ++ fed = body /\ zlen body < content_length_ io) /\
    (body_complete ctx = true -> bodyBytesReceived io = content_length_ io \/ read_eof_ io = true) /\
    read_chunk_ io `suffix_of` fed.
Proof.
  intros R%reachable_inv C Ci. destruct (iv_conns _ _ R _ _ C) as [_ K]. destruct (state ctx); [destruct K as [K _]; congruence|].
  destruct K as (id' & io & fed & K1 & K2 & _ & (body & B1 & B2 & B3 & B4 & B5) & _). assert (id' = id) as -> by congruence.
  pose proof (iv_objects _ _ R _ _ K2) as Ok. pose proof (oo_fed _ Ok) as Hf. cbn in Hf. exists io, fed, body.
  repeat (split; [done|]). split; [|split; [|exact (oo_unread _ Ok)]].
  - intros E. by rewrite E in B5.
  - intros E. rewrite E in B5. unfold bodyBytesReceived. by rewrite Hf.
Qed.

(** ** Behind the loop *)

Lemma worker_steps_history ss : forall l, closed (worker_steps ss l) = closed l /\ connections (worker_steps ss l) = connections l.
Proof.
  induction ss as [|[id op] ss IH]; intros l; [done|].
  change (worker_steps ((id, op) :: ss) l) with (worker_steps ss (worker_step (id, op) l)). destruct (IH (worker_step (id, op) l)) as [-> ->].
  unfold worker_step. cbn. destruct (objects l !! id) as [[io fed]|]; [|done]. by destruct (worker_effect op io) as [io' []].
Qed.

Lemma io_call_history {A} id new (f : ConnectionIO -> A * ConnectionIO) l :
  closed (io_call id new f l).2 = closed l /\ connections (io_call id new f l).2 = connections l.
Proof.
  unfold io_call. set (l0 := set_workers _ l). destruct (worker_steps_history (hd [] (workers l)) l0) as [E1 E2].
  destruct (objects _ !! id) as [[io past]|]; [destruct (f io)|]; split; first [exact E1|exact E2].
Qed.

Lemma close_conn_history fd ctx l :
  closed (close_conn fd ctx l).2 = closed l ++ [fd] /\ connections (close_conn fd ctx l).2 = delete fd (connections l).
Proof.
  change (lwp (close_conn fd ctx) (fun _ l' => closed l' = closed l ++ [fd] /\ connections l' = delete fd (connections l)) l).
  assert (forall id f l1, closed (io_do id [] f l1).2 = closed l1 /\ connections (io_do id [] f l1).2 = connections l1) as Io
    by (intros id f l1; apply io_call_history).
  unfold close_conn. apply lwp_bind, (lwp_mono _ (fun _ l1 => closed l1 = closed l /\ connections l1 = connections l)).
  { by destruct (epoll_events ctx =? 0). }
  intros _ l1 [E1 E2]. apply lwp_bind, (lwp_mono _ (fun _ l1 => closed l1 = closed l /\ connections l1 = connections l)).
  - destruct (conn_io ctx) as [id|]; [|done]. unfold lwp, mbind, L_bind. destruct (Io id feedError l1) as [E3 E4].
    destruct (io_do id [] feedError l1) as [u l2]. destruct (Io id writeError l2) as [E5 E6]. cbn in *. split; congruence.
  - intros _ l2 [E3 E4]. apply lwp_bind, lwp_modify, lwp_modify. cbn. by rewrite E3, E4.
Qed.

Lemma close_all_history fds : forall l, NoDup fds -> (forall fd, fd ∈ fds -> is_Some (connections l !! fd)) ->
  closed (close_all fds l).2 = closed l ++ fds.
Proof.
  induction fds as [|fd fds IH]; intros l Hd Hin; [cbn; by rewrite app_nil_r|]. apply NoDup_cons in Hd as [Hn Hd].
  destruct (Hin fd) as [ctx C]; [by left|]. cbn [close_all]. unfold mbind, L_bind at 1. cbn [get]. rewrite C.
  destruct (close_conn_history fd ctx l) as [E1 E2]. unfold mbind, L_bind. destruct (close_conn fd ctx l) as [u l1]. cbn in E1, E2.
  rewrite IH, E1; [by rewrite <- app_assoc|done|]. intros x X. rewrite E2, lookup_delete_ne; [apply Hin; by right|]. by intros <-.
Qed.

(** A released worker never waits. *)
Lemma released_runs io : released io -> (forall n, is_Some (readBodyChunk n io)) /\ (forall d, is_Some (writeData d io)).
Proof.
  intros [R W]. split.
  - intros n. unfold readBodyChunk, read_ready. rewrite R, orb_true_r. cbn. destruct (read_chunk_ io), (empty_status io); eauto.
  - intros d. unfold writeData. destruct d; [eauto|]. rewrite W. destruct (write_buffer_ io); eauto.
Qed.

(** C37. Shutting down lets every worker go.  In every reachable state the clean-up behind
    the loop closes exactly the descriptors of the table, each once, and empties the table
    and the epoll set; and from then on, whatever the workers do, no call of any of them on
    any [ConnectionIO] that was ever made blocks, so the pool can be drained. *)
Theorem clean_up_releases_workers (l : loop) (order : list Z) :
  reachable l -> NoDup order -> (forall fd, is_Some (connections l !! fd) <-> fd ∈ order) ->
  let l' := (clean_up order l).2 in
  connections l' = ∅ /\ interest l' = ∅ /\ closed l' = closed l ++ order /\
  forall ss id io fed, small_steps ss -> objects (worker_steps ss l') !! id = Some (io, fed) ->
    (forall n, is_Some (readBodyChunk n io)) /\ (forall d, is_Some (writeData d io)).
Proof.
  intros R%reachable_inv Hd Ho l'. pose proof (close_all_history order l Hd (fun fd => proj2 (Ho fd))) as Hc.
  assert (lwp (clean_up order) (fun _ l' => closed l' = closed (close_all order l).2 /\ connections l' = ∅ /\ inv (fun _ => False) l') l) as H.
  { unfold clean_up. apply lwp_bind. unfold lwp at 1. apply lwp_modify. split; [done|]. split; [done|].
    change (lwp (close_all order) (fun _ l1 => inv (fun _ => False) (set_connections ∅ l1)) l). eapply close_all_spec; [exact R|].
    intros l1 I1 D1. assert (connections l1 = ∅) as C1.
    { apply map_eq. intros fd. rewrite lookup_empty. destruct (connections l1 !! fd) eqn:E; [|done].
      destruct (D1 fd) as [X N]; [by rewrite E|]. by apply Ho in X. }
    rewrite <- C1. by destruct l1. }
  destruct H as (H1 & H2 & H3). fold l' in H1, H2, H3. split; [done|]. split; [|split; [by rewrite H1|]].
  - apply map_eq. intros fd. rewrite lookup_empty. destruct (interest l' !! fd) eqn:E; [|done].
    destruct (iv_interest _ _ H3 fd) as [? X]; [by rewrite E|]. by rewrite H2, lookup_empty in X.
  - intros ss id io fed Hs Hl. pose proof (worker_steps_rel ss l' Hs (iv_counter _ _ H3) (iv_objects _ _ H3)) as S.
    destruct (sr_back _ _ _ S Hl) as (io0 & fed0 & E0 & L). apply released_runs. eapply later_released; [exact L|].
    destruct (iv_gone _ _ H3 _ _ _ E0) as [|(fd & ctx & C & _)]; [done|]. by rewrite H2, lookup_empty in C.
Qed.

(** A POST in three pieces, the worker's first read between them. *)
Definition post_head : list Z := str "POST / HTTP/1.1" ++ crlf ++ str "Content-Length: 3" ++ crlf ++ crlf.
Definition post_events : list event :=
  [EAccept 7 true; EClient 7 EPOLLIN (Recv (take 20 post_head)) SendAgain;
   EClient 7 EPOLLIN (Recv (drop 20 post_head ++ [97])) SendAgain; EWorkers [(0%nat, WRead 1)];
   EClient 7 EPOLLIN (Recv [98; 99; 100]) SendAgain; EWorkers [(0%nat, WRead 1); (0%nat, WWrite [1; 2; 3])]].

Lemma post_reachable n : reachable (run (take n post_events) (start [])).
Proof.
  assert (forall es l, reachable l -> Forall (fun e => match e with EAccept _ _ | EEventfd _ => False | EClient _ _ _ _ => True | EWorkers ss => small_steps ss end) es ->
    reachable (run es l)) as H.
  { induction es as [|e es IH]; intros l R F; [done|]. apply Forall_cons in F as [F1 F]. apply IH; [|done]. apply reach_step; [done|]. by destruct e. }
  destruct n as [|n]; [by apply reach_start|]. cbn [post_events take run foldl]. fold (run (take n (tl post_events))).
  apply (H (take n (tl post_events))).
  - apply reach_step; [by apply reach_start|done].
  - apply Forall_take. repeat constructor.
Qed.

Lemma event_loop_wakes_up_witness :
  let l := run post_events (start []) in
  interest l !! 7 = None /\ counter l = 1 /\
  exists ctx io fed, connections l !! 7 = Some ctx /\ conn_io ctx = Some 0%nat /\ objects l !! 0%nat = Some (io, fed) /\
    (isWritePending io = true \/ isFinished io = true -> has_ev EPOLLOUT (epoll_events ctx) = true \/ 0 < counter l).
Proof.
  intros l. split; [vm_compute; reflexivity|]. split; [vm_compute; reflexivity|].
  destruct (connections l !! 7) as [ctx|] eqn:C; [|vm_compute in C; discriminate].
  assert (conn_io ctx = Some 0%nat) as Ci by (vm_compute in C; injection C as <-; reflexivity).
  destruct (event_loop_wakes_up l (post_reachable 6)) as (_ & _ & H & _).
  destruct (H 7 ctx 0%nat C Ci) as (io & fed & O & _ & W). exists ctx, io, fed.
  split; [reflexivity|]. split; [exact Ci|]. split; [exact O|exact W].
Defined.

Lemma request_reaches_worker_witness :
  let l := run post_events (start []) in
  exists ctx io fed body,
    connections l !! 7 = Some ctx /\ objects l !! 0%nat = Some (io, fed) /\ received ctx = header_data_ io ++ body /\
    body_prefix_ io ++ fed `prefix_of` take 3 body /\ body_prefix_ io ++ fed = str "abc".
Proof.
  intros l. destruct (connections l !! 7) as [ctx|] eqn:C; [|vm_compute in C; discriminate].
  assert (conn_io ctx = Some 0%nat) as Ci by (vm_compute in C; injection C as <-; reflexivity).
  destruct (request_reaches_worker l 7 ctx 0%nat (post_reachable 6) C Ci) as (io & fed & body & O & B1 & _ & _ & B2 & _).
  assert (content_length_ io = 3 /\ body_prefix_ io ++ fed = str "abc") as [E1 E2].
  { vm_compute in O. injection O as <- <-. split; reflexivity. }
  exists ctx, io, fed, body. split; [reflexivity|]. split; [exact O|]. split; [exact B1|]. rewrite E1 in B2. split; [exact B2|exact E2].
Defined.

(** The same request: its worker waits for nothing more, and descriptor 7 is closed. *)
Lemma clean_up_releases_workers_witness :
  let l := run post_events (start []) in
  let l' := (clean_up [7] l).2 in
  closed l' = [7] /\ exists io fed, objects l' !! 0%nat = Some (io, fed) /\ is_Some (readBodyChunk 10 io) /\ is_Some (writeData [1] io).
Proof.
  intros l l'. destruct (clean_up_releases_workers l [7] (post_reachable 6)) as (_ & _ & C & F).
  - apply NoDup_singleton.
  - assert (map_to_list (connections l) = [(7, default new_ConnCtx (connections l !! 7))]) as E by (vm_compute; reflexivity).
    intros fd. rewrite list_elem_of_singleton. split.
    + intros [ctx X]. apply elem_of_map_to_list in X. rewrite E in X. apply list_elem_of_singleton in X. exact (f_equal fst X).
    + intros ->. vm_compute. eauto.
  - split; [etrans; [exact C|vm_compute; reflexivity]|]. destruct (objects l' !! 0%nat) as [[io fed]|] eqn:O; [|vm_compute in O; discriminate].
    destruct (F [] 0%nat io fed (Forall_nil_2 _) O) as [F1 F2]. exists io, fed. split; [reflexivity|]. split; [apply F1|apply F2].
Defined.

(** ** What the loop gets wrong *)

(** One [epoll_wait] may report the eventfd, the listener and descriptor 7 together.  The
    first handler closes the finished connection on 7, the second accepts a new one that
    gets the number 7 again, and the third, which carries what was reported of the old
    connection, closes the new one before a byte of it was read. *)
Example stale_event_closes_new_connection :
  let early := run (take 3 post_events) (start []) in
  let batch := [EWorkers [(0%nat, WFinish)]; EEventfd [7]; EAccept 7 true; EClient 7 (Z.lor EPOLLIN EPOLLHUP) RecvAgain SendAgain] in
  let l := run batch early in
  closed early = [] /\ closed (run (take 2 batch) early) = [7] /\ is_Some (connections (run (take 3 batch) early) !! 7) /\
  closed l = [7; 7] /\ connections l !! 7 = None.
Proof. vm_compute. repeat split; eauto. Qed.

(** The limit on the head is tested before the head is looked for, so a head of 38 bytes is
    refused when the end of it arrives together with much of the body. *)
Example body_counts_as_header :
  let l := run [EAccept 7 true; EClient 7 EPOLLIN (Recv (take 20 post_head)) SendAgain;
                EClient 7 EPOLLIN (Recv (drop 20 post_head ++ replicate (Z.to_nat 65518) 97)) SendAgain] (start []) in
  length post_head = 38%nat /\ wire l = [(7, response_431)] /\ closed l = [7].
Proof. vm_compute. repeat split. Qed.
