(* ===== verification/Sys.v ===== *)
(** * Programs of system calls

    What main.cpp and lsapilib.c do around their loops is a sequence of system calls whose
    answers decide how it goes on: a program of type [sys].  A trace is the calls of one
    run with their answers; the descriptors it has open, and a weakest precondition over
    traces with the rules for its common forms, are in this file too. *)

From stdpp Require Export gmap.
From S2P Require Export Modules.

Open Scope Z_scope.

(** ** Programs of system calls *)

Definition AF_UNIX : Z := 1.
Definition AF_INET : Z := 2.
Definition AF_INET6 : Z := 10.
Definition INADDR_ANY : Z := 0.
Definition INADDR_LOOPBACK : Z := 2130706433.

(** [sizeof(sun_path)]. *)
Definition SUN_PATH : Z := 108.

(** A filled [struct sockaddr]: the path as a string, an address and a port as numbers, the
    sixteen bytes of an address of version 6. *)
Inductive sockaddr :=
| SockUnix (path : list Z)
| SockIn (address port : Z)
| SockIn6 (address : list Z) (port : Z).

(** Every answer is an integer; a truth value is 1 or 0. *)
Inductive syscall :=
| SysStat (path : list Z)
| SysUmask (mask : Z)
| SysOpen (path : list Z) (mode : Z)
| SysOpenLog (path : list Z)
| SysSigaction (sig : Z)
| SysSocket (family : Z)
| SysCloexec (fd : Z)
| SysReuseAddr (fd : Z)
| SysBind (fd : Z) (address : sockaddr)
| SysListen (fd backlog : Z)
| SysChmod (path : list Z) (mode : Z)
| SysUnlink (path : list Z)
| SysMakeDirs (path : list Z)
| SysClose (fd : Z)
| SysShutdown (fd : Z)
| SysEpollCreate
| SysEventfd
| SysGetFlags (fd : Z)
| SysSetFlags (fd flags : Z)
| SysEpollAdd (ep fd events : Z)
| SysGetHandler (sig : Z)
| SysSetHandler (sig : Z)
| SysAccept (fd : Z)
| SysPeerFamily (fd : Z)
| SysNodelay (fd : Z)
| SysPeerName (fd : Z)
| SysSetDumpable (v : Z)
| RunLsapi (path : list Z) (envs : environment)
| NewManager
| SetEnvironment (envs : environment)
| LoadModule (path : list Z) (module_name : name)
| StartPool (n : Z)
| EventLoop (ep ev fd : Z)
| ShutdownPool
| ResetManager.

Inductive sys (A : Type) :=
| Return (a : A)
| Ask (c : syscall) (k : Z -> sys A).

Arguments Return {A} a.
Arguments Ask {A} c k.

Fixpoint sys_bind_ {A B} (f : A -> sys B) (m : sys A) : sys B :=
  match m with
  | Return a => f a
  | Ask c k => Ask c (fun r => sys_bind_ f (k r))
  end.

#[export] Instance sys_ret : MRet sys := @Return.
#[export] Instance sys_bind : MBind sys := @sys_bind_.

Definition ask (c : syscall) : sys Z := Ask c Return.

(** A run against a list of answers: the calls made with their answers, and the result
    ([None]: the answers do not last). *)
Fixpoint replay {A} (m : sys A) (answers : list Z) : option (list (syscall * Z) * A) :=
  match m with
  | Return a => Some ([], a)
  | Ask c k =>
      match answers with
      | [] => None
      | r :: answers => '(tr, a) ← replay (k r) answers; Some ((c, r) :: tr, a)
      end
  end.

(** ** Traces *)

Abbreviation trace := (list (syscall * Z)).

(** Whatever the answers, the trace and the result satisfy [Q]. *)
Fixpoint twp {A} (m : sys A) (Q : trace -> A -> Prop) : Prop :=
  match m with
  | Return a => Q [] a
  | Ask c k => forall r, twp (k r) (fun tr a => Q ((c, r) :: tr) a)
  end.

Lemma twp_replay {A} (m : sys A) : forall Q answers tr a, twp m Q -> replay m answers = Some (tr, a) -> Q tr a.
Proof.
  induction m as [a0|c k IH]; intros Q answers tr a H R; cbn in *; [by injection R as <- <-|].
  destruct answers as [|r answers]; [done|]. destruct (replay (k r) answers) as [[tr1 a1]|] eqn:E; [|done]. injection R as <- <-.
  by apply (IH r _ _ _ _ (H r)) in E.
Qed.

Lemma twp_mono {A} (m : sys A) : forall Q Q' : trace -> A -> Prop, twp m Q -> (forall tr a, Q tr a -> Q' tr a) -> twp m Q'.
Proof. induction m as [a|c k IH]; intros Q Q' H HQ; cbn in *; [auto|]. intros r. eapply IH; [apply H|]. cbn. auto. Qed.

Lemma twp_bind {A B} (m : sys A) (f : A -> sys B) : forall Q,
  twp m (fun tr1 a => twp (f a) (fun tr2 b => Q (tr1 ++ tr2) b)) -> twp (m ≫= f) Q.
Proof. induction m as [a|c k IH]; intros Q H; [exact H|]. intros r. apply IH. exact (H r). Qed.

Lemma twp_ask {B} c (f : Z -> sys B) Q : (forall r, twp (f r) (fun tr b => Q ((c, r) :: tr) b)) -> twp (ask c ≫= f) Q.
Proof. done. Qed.

Ltac twp :=
  repeat
    match goal with
    | |- twp (ask _ ≫= _) _ => apply twp_ask; intros ?
    | |- twp (ask _) _ => intros ?
    | |- twp (mret _) _ => cbn [twp mret sys_ret]
    | |- twp (if ?a <? ?b then _ else _) _ => destruct (Z.ltb_spec a b)
    | |- twp (if ?a <=? ?b then _ else _) _ => destruct (Z.leb_spec a b)
    | |- twp (if ?a =? ?b then _ else _) _ => destruct (Z.eqb_spec a b)
    | |- twp (if negb (?a =? ?b) then _ else _) _ => destruct (Z.eqb_spec a b); cbn [negb]
    end.

(** What every call of a program satisfies, and its result. *)
Definition calls {A} (P : syscall -> Prop) (m : sys A) (R : A -> Prop) : Prop := twp m (fun tr a => Forall (fun x => P x.1) tr /\ R a).

Lemma calls_ret {A} P (a : A) (R : A -> Prop) : R a -> calls P (mret a) R.
Proof. by split; [constructor|]. Qed.

Lemma calls_mono {A} P (m : sys A) (R R' : A -> Prop) : calls P m R -> (forall a, R a -> R' a) -> calls P m R'.
Proof. intros H HR. eapply twp_mono; [exact H|]. intros tr a [? ?]. auto. Qed.

Lemma calls_bind {A B} P (m : sys A) (f : A -> sys B) (R : B -> Prop) : calls P m (fun a => calls P (f a) R) -> calls P (m ≫= f) R.
Proof.
  intros H. apply twp_bind. eapply twp_mono; [exact H|]. intros tr a [F H']. eapply twp_mono; [exact H'|].
  intros tr' b [F' HR]. split; [by apply Forall_app|done].
Qed.

Lemma calls_ask {B} P c (f : Z -> sys B) (R : B -> Prop) : P c -> (forall r, calls P (f r) R) -> calls P (ask c ≫= f) R.
Proof.
  intros Hc H. apply twp_ask. intros r. eapply twp_mono; [exact (H r)|]. intros tr b [F HR]. split; [by constructor|done].
Qed.

Lemma calls_ask_ret P c (R : Z -> Prop) : P c -> (forall r, R r) -> calls P (ask c) R.
Proof. intros Hc H r. split; [by repeat constructor|apply H]. Qed.

Ltac calls :=
  repeat
    match goal with
    | |- calls _ (ask _ ≫= _) _ => apply calls_ask; [try first [exact I|assumption|cbn; lia]|intros ?]
    | |- calls _ (ask _) _ => apply calls_ask_ret; [try first [exact I|assumption|cbn; lia]|intros ?; try exact I]
    | |- calls _ (mret _) _ => apply calls_ret; try exact I
    | |- calls _ (if ?a <? ?b then _ else _) _ => destruct (Z.ltb_spec a b)
    | |- calls _ (if ?a <=? ?b then _ else _) _ => destruct (Z.leb_spec a b)
    | |- calls _ (if ?a =? ?b then _ else _) _ => destruct (Z.eqb_spec a b)
    | |- calls _ (if negb (?a =? ?b) then _ else _) _ => destruct (Z.eqb_spec a b); cbn [negb]
    end.

(** The descriptors that a trace gives and those it closes. *)
Definition opens (tr : trace) : list Z :=
  omap (fun x => match x.1 with
    | SysOpen _ _ | SysSocket _ | SysEpollCreate | SysEventfd => if 0 <=? x.2 then Some x.2 else None
    | _ => None end) tr.
Definition closes (tr : trace) : list Z := omap (fun x => match x.1 with SysClose fd => Some fd | _ => None end) tr.

Definition succeeded (x : syscall * Z) : Prop :=
  match x.1 with
  | LoadModule _ _ | StartPool _ => x.2 <> 0
  | SysSocket _ | SysReuseAddr _ | SysBind _ _ | SysListen _ _ | SysEpollCreate | SysEventfd | SysEpollAdd _ _ _ => 0 <= x.2
  | SysChmod _ _ | SysMakeDirs _ => x.2 = 0
  | _ => True
  end.

(** A trace in which every call succeeded: its calls, and the descriptors it gives and closes. *)
Record did (cs : list syscall) (os cl : list Z) (tr : trace) : Prop := {
  did_calls : tr.*1 = cs;
  did_opens : opens tr = os;
  did_closes : closes tr = cl;
  did_succeed : Forall succeeded tr
}.

Lemma did_nil : did [] [] [] [].
Proof. by split. Qed.

Lemma did_app cs os cl tr cs' os' cl' tr' : did cs os cl tr -> did cs' os' cl' tr' -> did (cs ++ cs') (os ++ os') (cl ++ cl') (tr ++ tr').
Proof.
  intros [A B C D] [A' B' C' D']. unfold opens, closes in *. split; unfold opens, closes; rewrite ?fmap_app, ?omap_app; try congruence.
  by apply Forall_app.
Qed.

Lemma did_cons c r cs os cl tr : succeeded (c, r) -> did cs os cl tr ->
  did (c :: cs) (opens [(c, r)] ++ os) (closes [(c, r)] ++ cl) ((c, r) :: tr).
Proof. intros H D. apply (did_app [c] _ _ [(c, r)]); [|done]. split; [done..|]. by constructor. Qed.

(** A descriptor is one that the system gave, an address fits its structure, a mode has nine
    bits, a pool is one that a vector can hold. *)
Definition typed_call (c : syscall) : Prop :=
  match c with
  | SysReuseAddr fd | SysListen fd _ | SysClose fd | SysShutdown fd | SysGetFlags fd | SysSetFlags fd _ => 0 <= fd
  | SysBind fd (SockIn _ port) | SysBind fd (SockIn6 _ port) => 0 <= fd /\ 0 <= port < 2 ^ 16
  | SysBind fd (SockUnix path) => 0 <= fd /\ zlen path < SUN_PATH
  | SysCloexec fd => 0 <= fd
  | SysChmod _ mode | SysOpen _ mode => 0 <= mode <= 511
  | SysEpollAdd ep fd _ => 0 <= ep /\ 0 <= fd
  | EventLoop ep ev fd => 0 <= ep /\ 0 <= ev /\ 0 <= fd
  | StartPool n => 0 <= n < 2 ^ 60
  | LoadModule path _ | RunLsapi path _ => path <> []
  | _ => True
  end.

(** ** Descriptors *)

(** The descriptors a call works on, other than to close them. *)
Definition uses (c : syscall) : list Z :=
  match c with
  | SysCloexec fd | SysReuseAddr fd | SysBind fd _ | SysListen fd _ | SysShutdown fd | SysGetFlags fd | SysSetFlags fd _
  | SysAccept fd | SysPeerFamily fd | SysNodelay fd | SysPeerName fd => [fd]
  | SysEpollAdd ep fd _ => [ep; fd]
  | EventLoop ep ev fd => [ep; ev; fd]
  | _ => []
  end.

(** A list without the first occurrence of a number. *)
Fixpoint remove_first (fd : Z) (l : list Z) : list Z :=
  match l with
  | [] => []
  | x :: l => if x =? fd then l else x :: remove_first fd l
  end.

(** The descriptors that the system has given in a trace and that were not closed since: a
    number that was given twice has to be closed twice. *)
Definition after_call (open : list Z) (x : syscall * Z) : list Z :=
  match x.1 with SysClose fd => remove_first fd open | _ => opens [x] ++ open end.
Definition still_open (tr : trace) : list Z := foldl after_call [] tr.

(** What is known of the trace so far: what is open, what was ever given, and whether a
    close was of a descriptor that was not open. *)
Record fd_state := mkFds { fs_open : list Z; fs_given : list Z; fs_twice : bool }.

Definition fd_step (f : fd_state) (x : syscall * Z) : fd_state :=
  mkFds (after_call (fs_open f) x) (opens [x] ++ fs_given f)
    (fs_twice f || match x.1 with SysClose fd => negb (bool_decide (fd ∈ fs_open f)) | _ => false end).

Definition fd_ok (c : syscall) (f : fd_state) : Prop :=
  Forall (fun fd => fd ∈ fs_open f) (uses c) /\ match c with SysClose fd => fd ∈ fs_given f | _ => True end.

(** Every call is on descriptors it may be on, whatever the answers. *)
Fixpoint fwp {A} (m : sys A) (f : fd_state) (Q : fd_state -> A -> Prop) : Prop :=
  match m with
  | Return a => Q f a
  | Ask c k => fd_ok c f /\ forall r, fwp (k r) (fd_step f (c, r)) Q
  end.

Lemma fwp_mono {A} (m : sys A) : forall f (Q Q' : fd_state -> A -> Prop), fwp m f Q -> (forall f a, Q f a -> Q' f a) -> fwp m f Q'.
Proof. induction m as [a|c k IH]; intros f Q Q' H HQ; cbn in *; [auto|]. destruct H as [H1 H2]. split; [done|]. intros r. by eapply IH. Qed.

Lemma fwp_bind {A B} (m : sys A) (g : A -> sys B) : forall f Q, fwp m f (fun f' a => fwp (g a) f' Q) -> fwp (m ≫= g) f Q.
Proof. induction m as [a|c k IH]; intros f Q H; [exact H|]. destruct H as [H1 H2]. split; [done|]. intros r. apply IH, H2. Qed.

Lemma fwp_ask {B} c (g : Z -> sys B) f Q : fd_ok c f -> (forall r, fwp (g r) (fd_step f (c, r)) Q) -> fwp (ask c ≫= g) f Q.
Proof. by split. Qed.

Lemma fwp_replay {A} (m : sys A) : forall f Q answers tr a, fwp m f Q -> replay m answers = Some (tr, a) ->
  Q (foldl fd_step f tr) a /\ forall pre x post, tr = pre ++ x :: post -> fd_ok x.1 (foldl fd_step f pre).
Proof.
  induction m as [a0|c k IH]; intros f Q answers tr a H R; cbn in *.
  - injection R as <- <-. split; [done|]. intros [] x post E; discriminate E.
  - destruct answers as [|r answers]; [done|]. destruct (replay (k r) answers) as [[tr1 a1]|] eqn:E; [|done]. injection R as <- <-.
    destruct H as [H1 H2]. destruct (IH r _ _ _ _ _ (H2 r) E) as [H3 H4]. split; [exact H3|].
    intros [|y pre] x post Ep; injection Ep as <- Ep; [exact H1|]. by apply (H4 pre x post).
Qed.

(** The folds of [fd_step]. *)
Lemma fd_step_open tr : forall f, fs_open (foldl fd_step f tr) = foldl after_call (fs_open f) tr.
Proof. induction tr as [|x tr IH]; intros f; [done|]. cbn [foldl]. by rewrite IH. Qed.

Lemma fd_step_given tr fd : forall f, fd ∈ fs_given (foldl fd_step f tr) <-> fd ∈ opens tr \/ fd ∈ fs_given f.
Proof.
  induction tr as [|x tr IH]; intros f; cbn [foldl].
  - split; [by right|by intros [X%elem_of_nil|X]].
  - rewrite IH. change (opens (x :: tr)) with (opens ([x] ++ tr)). unfold opens. rewrite omap_app. cbn [fs_given fd_step]. unfold opens.
    rewrite !elem_of_app. tauto.
Qed.

Lemma fd_step_twice tr : forall f, fs_twice (foldl fd_step f tr) = false ->
  fs_twice f = false /\ forall pre fd r post, tr = pre ++ (SysClose fd, r) :: post -> fd ∈ foldl after_call (fs_open f) pre.
Proof.
  induction tr as [|x tr IH]; intros f H; cbn [foldl] in H.
  - split; [done|]. intros [] fd r post E; discriminate E.
  - destruct (IH _ H) as [H1 H2]. apply orb_false_elim in H1 as [H1 H3]. split; [done|].
    intros [|y pre] fd r post E; injection E as -> E.
    + cbn in H3. apply negb_false_iff, bool_decide_eq_true in H3. exact H3.
    + exact (H2 pre fd r post E).
Qed.

Definition no_fds : fd_state := mkFds [] [] false.

(** The state is kept, but for what was ever given. *)
Definition fds_kept (f f' : fd_state) : Prop :=
  fs_open f' = fs_open f /\ fs_twice f' = fs_twice f /\ forall fd, fd ∈ fs_given f -> fd ∈ fs_given f'.

Lemma fds_kept_refl f : fds_kept f f.
Proof. done. Qed.
Lemma fds_kept_trans f g h : fds_kept f g -> fds_kept g h -> fds_kept f h.
Proof. intros (A & B & C) (A' & B' & C'). split; [congruence|]. split; [congruence|auto]. Qed.

(** A call that neither gives nor takes a descriptor. *)
Definition plain (c : syscall) : Prop :=
  match c with SysOpen _ _ | SysSocket _ | SysEpollCreate | SysEventfd | SysClose _ => False | _ => True end.

Lemma fd_step_plain f c r : plain c -> fd_step f (c, r) = f.
Proof.
  intros P. destruct f as [o g t]. unfold fd_step, after_call, opens. cbn. by destruct c; try done; cbn; rewrite orb_false_r.
Qed.

Lemma fwp_plain {B} c (g : Z -> sys B) f Q : plain c -> fd_ok c f -> (forall r, fwp (g r) f Q) -> fwp (ask c ≫= g) f Q.
Proof. intros P H1 H2. apply fwp_ask; [done|]. intros r. by rewrite fd_step_plain. Qed.

Lemma fwp_plain_end c f (Q : fd_state -> Z -> Prop) : plain c -> fd_ok c f -> (forall r, Q f r) -> fwp (ask c) f Q.
Proof. intros P H1 H2. split; [done|]. intros r. rewrite fd_step_plain by done. apply H2. Qed.

(** A call without a descriptor. *)
Lemma fd_ok_none c f : plain c -> uses c = [] -> fd_ok c f.
Proof. intros P U. split; [rewrite U; constructor|]. by destruct c. Qed.

Lemma fd_step_close f fd r : fd ∈ fs_open f -> fd_step f (SysClose fd, r) = mkFds (remove_first fd (fs_open f)) (fs_given f) (fs_twice f).
Proof. intros H. unfold fd_step, after_call. cbn. by rewrite bool_decide_eq_true_2, orb_false_r. Qed.

(** A call that gives a descriptor, or fails. *)
Definition gives (c : syscall) : Prop := match c with SysOpen _ _ | SysSocket _ | SysEpollCreate | SysEventfd => True | _ => False end.

Lemma fd_step_gives f c r : gives c ->
  fd_step f (c, r) = if 0 <=? r then mkFds (r :: fs_open f) (r :: fs_given f) (fs_twice f) else f.
Proof.
  intros G. destruct f as [o g t]. unfold fd_step, after_call, opens. destruct c; try done; cbn; rewrite orb_false_r; by destruct (0 <=? r).
Qed.

Lemma fwp_gives {B} c (g : Z -> sys B) f Q : gives c ->
  (forall r, 0 <= r -> fwp (g r) (mkFds (r :: fs_open f) (r :: fs_given f) (fs_twice f)) Q) ->
  (forall r, r < 0 -> fwp (g r) f Q) -> fwp (ask c ≫= g) f Q.
Proof.
  intros G H1 H2. apply fwp_ask; [split; [by destruct c; try done; constructor|by destruct c]|]. intros r. rewrite fd_step_gives by done.
  destruct (Z.leb_spec 0 r); auto.
Qed.
