(* ===== verification/Main.v ===== *)
(** * The process: command line, listeners, start and end

    [main] of main.cpp with [HttpServer] but for its request handling, and [log_init] of
    log.h: the parser of the command line as a function, and the rest as a program of
    system calls whose answers come from outside.  The components that have files of their
    own (module manager, thread pool, event loop, LSAPI loop) are calls too. *)

From S2P Require Export EventLoop LsapiLoop Sys.

Open Scope Z_scope.

(** ** The command line *)

Definition DEFAULT_PORT : Z := 8080.
Definition DEFAULT_UDS_PATH : list Z := str "/tmp/lswasm.sock".
Definition BACKLOG : Z := 128.

Record options := mkOptions {
  port : Z;
  wasm_module_path : list Z;
  uds_path : list Z;
  sock_perm : Z;
  wasm_envs : environment;
  debug : bool;
  port_specified : bool;
  lsapi_mode : bool;
  num_workers : Z;
  body_pacifier : bool
}.

Definition default_options : options := mkOptions DEFAULT_PORT [] DEFAULT_UDS_PATH 438 ∅ false false false 0 false.

Definition set_port (v : Z) (o : options) : options :=
  mkOptions v (wasm_module_path o) (uds_path o) (sock_perm o) (wasm_envs o) (debug o) true (lsapi_mode o) (num_workers o) (body_pacifier o).
Definition set_module (v : list Z) (o : options) : options :=
  mkOptions (port o) v (uds_path o) (sock_perm o) (wasm_envs o) (debug o) (port_specified o) (lsapi_mode o) (num_workers o) (body_pacifier o).
Definition set_uds (v : list Z) (o : options) : options :=
  mkOptions (port o) (wasm_module_path o) v (sock_perm o) (wasm_envs o) (debug o) (port_specified o) (lsapi_mode o) (num_workers o) (body_pacifier o).
Definition set_perm (v : Z) (o : options) : options :=
  mkOptions (port o) (wasm_module_path o) (uds_path o) v (wasm_envs o) (debug o) (port_specified o) (lsapi_mode o) (num_workers o) (body_pacifier o).
Definition set_env (key value : list Z) (o : options) : options :=
  mkOptions (port o) (wasm_module_path o) (uds_path o) (sock_perm o) (<[key := value]> (wasm_envs o)) (debug o) (port_specified o) (lsapi_mode o) (num_workers o) (body_pacifier o).
Definition set_num_workers (v : Z) (o : options) : options :=
  mkOptions (port o) (wasm_module_path o) (uds_path o) (sock_perm o) (wasm_envs o) (debug o) (port_specified o) (lsapi_mode o) v (body_pacifier o).
Definition set_debug (o : options) : options :=
  mkOptions (port o) (wasm_module_path o) (uds_path o) (sock_perm o) (wasm_envs o) true (port_specified o) (lsapi_mode o) (num_workers o) (body_pacifier o).
Definition set_lsapi (o : options) : options :=
  mkOptions (port o) (wasm_module_path o) (uds_path o) (sock_perm o) (wasm_envs o) (debug o) (port_specified o) true (num_workers o) (body_pacifier o).
Definition set_pacifier (o : options) : options :=
  mkOptions (port o) (wasm_module_path o) (uds_path o) (sock_perm o) (wasm_envs o) (debug o) (port_specified o) (lsapi_mode o) (num_workers o) true.

Definition sign_of (s : list Z) : bool * list Z :=
  match s with
  | 45 :: s => (true, s)
  | 43 :: s => (false, s)
  | _ => (false, s)
  end.

(** [std::stoi]; it throws when there is no number or no [int] holds it. *)
Definition stoi (s : list Z) : option Z :=
  let '(neg, s) := sign_of (skip_space s) in
  match span HttpUtils.is_digit s with
  | ([], _) => None
  | (ds, _) =>
      let v := if neg then - from_base 10 ds else from_base 10 ds in
      if (- 2 ^ 31 <=? v) && (v <? 2 ^ 31) then Some v else None
  end.

Definition is_octal (c : Z) : bool := (48 <=? c) && (c <=? 55).

(** [strtoul(s, &end, 8)] with what is left at [end]; [None]: no number. *)
Definition strtoul8 (s : list Z) : option (Z * list Z) :=
  let '(neg, s) := sign_of (skip_space s) in
  match span is_octal s with
  | ([], _) => None
  | (ds, rest) =>
      let v := from_base 8 ds in
      Some (if 2 ^ 64 <=? v then 2 ^ 64 - 1 else if neg then u64 (- v) else v, rest)
  end.

(** How an argument goes on: with the options behind it, with an exit code, or with an
    exception that nothing catches. *)
Inductive parsed := Parsed (o : options) | Quit (code : Z) | Threw.

Definition parse_perm (val : list Z) (o : options) : parsed :=
  match strtoul8 val with
  | Some (v, []) => if 511 <? v then Quit 1 else Parsed (set_perm v o)
  | _ => Quit 1
  end.

Definition parse_env (env_str : list Z) (o : options) : parsed :=
  match span (fun c => negb (c =? 61)) env_str with
  | (_, []) => Quit 1
  | (key, _ :: value) => Parsed (set_env key value o)
  end.

(** The tests that want an argument behind; [None]: the argument is none of these. *)
Definition parse_valued (arg val : list Z) (o : options) : option parsed :=
  if bool_decide (arg = str "--port") then Some (match stoi val with Some v => Parsed (set_port v o) | None => Threw end)
  else if bool_decide (arg = str "--uds") then Some (Parsed (set_uds val o))
  else if bool_decide (arg = str "--sock-perm") then Some (parse_perm val o)
  else if bool_decide (arg = str "--module") then Some (Parsed (set_module val o))
  else if bool_decide (arg = str "--env") then Some (parse_env val o)
  else if bool_decide (arg = str "--workers") then
    Some (match stoi val with Some v => Parsed (set_num_workers (u64 v) o) | None => Threw end)
  else None.

(** The others.  What is not known is passed over. *)
Definition parse_flag (arg : list Z) (o : options) : parsed :=
  if bool_decide (arg = str "--lsapi") then Parsed (set_lsapi o)
  else if bool_decide (arg = str "--body-pacifier") then Parsed (set_pacifier o)
  else if bool_decide (arg = str "--debug") then Parsed (set_debug o)
  else if bool_decide (arg = str "--version") then Quit 0
  else if bool_decide (arg = str "--help") then Quit 0
  else Parsed o.

Fixpoint parse_args (args : list (list Z)) (o : options) : parsed :=
  match args with
  | [] => Parsed o
  | arg :: rest =>
      match rest with
      | [] => parse_flag arg o
      | val :: rest' =>
          match parse_valued arg val o with
          | Some (Parsed o) => parse_args rest' o
          | Some stop => stop
          | None =>
              match parse_flag arg o with
              | Parsed o => parse_args rest o
              | stop => stop
              end
          end
      end
  end.

(** ** Logging *)

Definition DOLOG_PATH : list Z := str "/tmp/lswasm.dolog".
Definition LOG_PATH : list Z := str "/tmp/lswasm.log".

Definition create_log : sys unit :=
  old_umask ← ask (SysUmask 0);
  fd ← ask (SysOpen LOG_PATH 438);
  ask (SysUmask old_umask) ;;
  if 0 <=? fd then ask (SysClose fd) ;; mret tt else mret tt.

(** The answer is [g_logging_enabled]. *)
Definition log_init (debug : bool) : sys bool :=
  enable ← (if debug then mret true else r ← ask (SysStat DOLOG_PATH); mret (r =? 0));
  if enable : bool then
    r ← ask (SysStat LOG_PATH);
    (if r =? 0 then mret tt else create_log) ;;
    r ← ask (SysOpenLog LOG_PATH);
    mret (negb (r =? 0))
  else mret false.

(** ** The server *)

Record HttpServer := mkServer {
  tcp_mode : bool;
  port_ : Z;
  uds_path_ : list Z;
  sock_perm_ : Z;
  server_socket_ : Z
}.

Definition server_tcp (port : Z) : HttpServer := mkServer true port [] 438 (-1).
Definition server_uds (path : list Z) (sock_perm : Z) : HttpServer := mkServer false DEFAULT_PORT path sock_perm (-1).
Definition set_server_socket (fd : Z) (s : HttpServer) : HttpServer := mkServer (tcp_mode s) (port_ s) (uds_path_ s) (sock_perm_ s) fd.

Definition unlink_path (path : list Z) : sys unit := if is_nil path then mret tt else ask (SysUnlink path) ;; mret tt.

Definition cleanup_uds (s : HttpServer) : sys unit := unlink_path (uds_path_ s).

(** [~HttpServer]. *)
Definition destroy_server (s : HttpServer) : sys unit :=
  (if 0 <=? server_socket_ s then ask (SysClose (server_socket_ s)) ;; mret tt else mret tt) ;;
  cleanup_uds s.

(** The ways out of [start_tcp] and [start_uds] behind [socket]. *)
Definition fail_start (s : HttpServer) : sys (bool * HttpServer) := ask (SysClose (server_socket_ s)) ;; mret (false, s).
Definition fail_uds (s : HttpServer) : sys (bool * HttpServer) :=
  ask (SysClose (server_socket_ s)) ;; cleanup_uds s ;; mret (false, s).

Definition start_tcp (s : HttpServer) : sys (bool * HttpServer) :=
  fd ← ask (SysSocket AF_INET);
  let s := set_server_socket fd s in
  if fd <? 0 then mret (false, s)
  else
    r ← ask (SysReuseAddr fd);
    if r <? 0 then fail_start s
    else
      r ← ask (SysBind fd (SockIn INADDR_ANY (u16 (port_ s))));
      if r <? 0 then fail_start s
      else
        r ← ask (SysListen fd BACKLOG);
        if r <? 0 then fail_start s else mret (true, s).

(** [std::filesystem::path::parent_path]: without the last name and the slashes before it,
    but for the root. *)
Fixpoint drop_slashes (rev : list Z) : list Z :=
  match rev with
  | 47 :: rev' => drop_slashes rev'
  | _ => rev
  end.

Definition parent_path (path : list Z) : list Z :=
  match span (fun c => negb (c =? 47)) (reverse path) with
  | (_, []) => []
  | (_, slashes) => match drop_slashes slashes with [] => [47] | rev => reverse rev end
  end.

Definition listen_uds (s : HttpServer) : sys (bool * HttpServer) :=
  r ← ask (SysBind (server_socket_ s) (SockUnix (uds_path_ s)));
  if r <? 0 then fail_start s
  else
    r ← ask (SysChmod (uds_path_ s) (sock_perm_ s));
    if negb (r =? 0) then fail_uds s
    else
      r ← ask (SysListen (server_socket_ s) BACKLOG);
      if r <? 0 then fail_uds s else mret (true, s).

Definition start_uds (s : HttpServer) : sys (bool * HttpServer) :=
  fd ← ask (SysSocket AF_UNIX);
  let s := set_server_socket fd s in
  if fd <? 0 then mret (false, s)
  else
    let parent := parent_path (uds_path_ s) in
    ec ← (if is_nil parent then mret 0 else ask (SysMakeDirs parent));
    if negb (ec =? 0) then fail_start s
    else
      ask (SysUnlink (uds_path_ s)) ;;
      if SUN_PATH <=? zlen (uds_path_ s) then fail_start s else listen_uds s.

Definition start_server (s : HttpServer) : sys (bool * HttpServer) := if tcp_mode s then start_tcp s else start_uds s.

Definition set_nonblocking (fd : Z) : sys unit :=
  flags ← ask (SysGetFlags fd);
  ask (SysSetFlags fd (Z.lor (if flags <? 0 then 0 else flags) 2048)) ;;
  mret tt.

Definition close_both (ep ev : Z) : sys unit := ask (SysClose ev) ;; ask (SysClose ep) ;; mret tt.

(** [accept_connections] around its loop ([EventLoop.step], [EventLoop.clean_up]). *)
Definition accept_connections (server_socket : Z) : sys unit :=
  ep ← ask SysEpollCreate;
  if ep <? 0 then mret tt
  else
    ev ← ask SysEventfd;
    if ev <? 0 then ask (SysClose ep) ;; mret tt
    else
      set_nonblocking server_socket ;;
      r ← ask (SysEpollAdd ep server_socket EPOLLIN);
      if r <? 0 then close_both ep ev
      else
        r ← ask (SysEpollAdd ep ev EPOLLIN);
        if r <? 0 then close_both ep ev
        else ask (EventLoop ep ev server_socket) ;; close_both ep ev.

(** The handler of SIGINT and SIGTERM, with the value of [g_shutdown] behind it. *)
Definition signal_handler (sig g_server_socket : Z) (g_shutdown : bool) : sys bool :=
  if (sig =? 2) || (sig =? 15) then
    if 0 <=? g_server_socket then ask (SysShutdown g_server_socket) ;; mret true else mret true
  else mret g_shutdown.

(** ** [main] *)

(** The process exits, or an exception ends it. *)
Inductive ending := Exit (code : Z) | Terminated.

(** A vector of threads has at most 2^60 - 1 elements; [reserve] throws before that, and so
    does the start of a thread (the answer 0). *)
Definition make_pool (num_workers : Z) : sys bool :=
  if 2 ^ 60 <=? num_workers then mret false else r ← ask (StartPool num_workers); mret (negb (r =? 0)).

Definition make_server (o : options) : HttpServer :=
  if bool_decide (uds_path o <> DEFAULT_UDS_PATH) || negb (port_specified o) then server_uds (uds_path o) (sock_perm o)
  else server_tcp (port o).

(** Behind the start of the pool.  [HttpServer] has a destructor and no move, so
    [make_unique] copies the one that the factory gave and that one is destroyed. *)
Definition serve (o : options) : sys ending :=
  let s := make_server o in
  destroy_server s ;;
  '(ok, s) ← start_server s;
  if negb (ok : bool) then destroy_server s ;; ask ShutdownPool ;; mret (Exit 1)
  else
    accept_connections (server_socket_ s) ;;
    ask ShutdownPool ;;
    destroy_server s ;;
    unlink_path (uds_path_ s) ;;
    ask ResetManager ;;
    ask ShutdownPool ;;
    mret (Exit 0).

Definition run_http (o : options) : sys ending :=
  ask NewManager ;;
  (if bool_decide (wasm_envs o = ∅) then mret tt else ask (SetEnvironment (wasm_envs o)) ;; mret tt) ;;
  loaded ← ask (LoadModule (wasm_module_path o) custom_filter);
  if loaded =? 0 then mret (Exit 1)
  else
    made ← make_pool (num_workers o);
    if made : bool then serve o else mret Terminated.

Definition run_options (o : options) : sys ending :=
  if lsapi_mode o && port_specified o then mret (Exit 1)
  else
    log_init (debug o) ;;
    if is_nil (wasm_module_path o) then mret (Exit 1)
    else
      ask (SysSigaction 2) ;;
      ask (SysSigaction 15) ;;
      if lsapi_mode o then code ← ask (RunLsapi (wasm_module_path o) (wasm_envs o)); mret (Exit code)
      else run_http o.

Definition main (args : list (list Z)) : sys ending :=
  match parse_args args default_options with
  | Parsed o => run_options o
  | Quit code => mret (Exit code)
  | Threw => mret Terminated
  end.
