(* ===== verification/MainSpec.v ===== *)
(** * What the process does with its command line

    The parser reads back what was written, the calls that [main] makes are well formed
    whatever the system answers, and when the server serves it does so on the listener that
    the options name and gives everything back. *)

From S2P Require Import HttpUtilsSpec.
From S2P Require Export Main.

Open Scope Z_scope.

(** ** Numbers *)

(** A run of digits has no blank and no sign before it. *)
Lemma digits_first l : Forall (fun c => 48 <= c < 58) l -> l <> [] -> sign_of (skip_space l) = (false, l).
Proof.
  destruct l as [|c l]; [done|]. intros [H _]%Forall_cons _. cbn [skip_space].
  assert (is_space c = false) as -> by (unfold is_space; lia).
  unfold sign_of. destruct c as [|p|p]; try lia. do 6 (destruct p as [p|p|]; try lia; try done).
Qed.

Definition print_int (n : Z) : list Z := if n <? 0 then 45 :: dec (- n) else dec n.
Definition print_octal (n : Z) : list Z := to_base 8 22 n.

Lemma stoi_print n : - 2 ^ 31 <= n < 2 ^ 31 -> stoi (print_int n) = Some n.
Proof.
  intros H. unfold stoi, print_int. destruct (Z.ltb_spec n 0) as [L|L].
  - destruct (dec_digits (- n)) as (E1 & E2 & E3 & F); [lia|]. cbn [skip_space is_space]. change (is_space 45) with false. cbn [sign_of].
    rewrite E1. destruct (dec (- n)) as [|d ds]; [done|]. rewrite E2. rewrite (proj2 (andb_true_iff _ _)); [f_equal; lia|lia].
  - destruct (dec_digits n) as (E1 & E2 & E3 & F); [lia|]. rewrite (digits_first _ F E3), E1.
    destruct (dec n) as [|d ds]; [done|]. rewrite E2. rewrite (proj2 (andb_true_iff _ _)); [done|lia].
Qed.

Lemma strtoul8_print n : 0 <= n < 8 ^ 20 -> strtoul8 (print_octal n) = Some (n, []).
Proof.
  intros H. unfold strtoul8, print_octal. pose proof (to_base_chars 8 22 n ltac:(lia) ltac:(lia)) as F.
  pose proof (to_base_not_nil 8 21 n) as N. pose proof (from_to_base 8 21 n ltac:(lia) ltac:(lia)) as E.
  set (ds := to_base 8 22 n) in *. rewrite digits_first; [|eapply Forall_impl; [exact F|cbn; lia]|done].
  rewrite span_all by (eapply Forall_impl; [exact F|]; cbn; intros c Hc; unfold is_octal; rewrite andb_true_iff, !Z.leb_le; lia).
  clearbody ds. destruct ds as [|d ds]; [done|]. rewrite E. by rewrite (proj2 (Z.leb_gt _ _)) by lia.
Qed.

(** ** The command line reads back *)

(** What can be said on a command line: an option with its value, a flag, or a word that is
    no option. *)
Inductive setting :=
| SetPort (n : Z)
| SetUds (path : list Z)
| SetPerm (mode : Z)
| SetModule (path : list Z)
| SetEnv (key value : list Z)
| SetWorkers (n : Z)
| SetLsapi
| SetPacifier
| SetDebug
| OtherWord (w : list Z).

Definition words (s : setting) : list (list Z) :=
  match s with
  | SetPort n => [str "--port"; print_int n]
  | SetUds p => [str "--uds"; p]
  | SetPerm m => [str "--sock-perm"; print_octal m]
  | SetModule p => [str "--module"; p]
  | SetEnv k v => [str "--env"; k ++ 61 :: v]
  | SetWorkers n => [str "--workers"; print_int n]
  | SetLsapi => [str "--lsapi"]
  | SetPacifier => [str "--body-pacifier"]
  | SetDebug => [str "--debug"]
  | OtherWord w => [w]
  end.

Definition option_words : list (list Z) :=
  [str "--port"; str "--uds"; str "--sock-perm"; str "--module"; str "--env"; str "--workers"; str "--lsapi";
   str "--body-pacifier"; str "--debug"; str "--version"; str "--help"].

Definition valid (s : setting) : Prop :=
  match s with
  | SetPort n | SetWorkers n => - 2 ^ 31 <= n < 2 ^ 31
  | SetPerm m => 0 <= m <= 511
  | SetEnv k _ => 61 ∉ k
  | OtherWord w => w ∉ option_words
  | _ => True
  end.

Definition set (o : options) (s : setting) : options :=
  match s with
  | SetPort n => set_port n o
  | SetUds p => set_uds p o
  | SetPerm m => set_perm m o
  | SetModule p => set_module p o
  | SetEnv k v => set_env k v o
  | SetWorkers n => set_num_workers (u64 n) o
  | SetLsapi => set_lsapi o
  | SetPacifier => set_pacifier o
  | SetDebug => set_debug o
  | OtherWord _ => o
  end.

Lemma parse_value_step arg val rest o o' : parse_valued arg val o = Some (Parsed o') ->
  parse_args (arg :: val :: rest) o = parse_args rest o'.
Proof. intros E. cbn [parse_args]. by rewrite E. Qed.

Lemma parse_flag_step arg rest o o' : (forall val, parse_valued arg val o = None) -> parse_flag arg o = Parsed o' ->
  parse_args (arg :: rest) o = parse_args rest o'.
Proof. intros E F. cbn [parse_args]. destruct rest as [|val rest]; [by rewrite F|]. by rewrite E, F. Qed.

Lemma other_word w o : w ∉ option_words -> (forall val, parse_valued w val o = None) /\ parse_flag w o = Parsed o.
Proof.
  intros N. unfold option_words in N. repeat (apply not_elem_of_cons in N as [? N]).
  split; [intros val; unfold parse_valued|unfold parse_flag]; by rewrite !bool_decide_eq_false_2.
Qed.

(** C35. The command line reads back.  Written as arguments, any sequence of settings (an
    option with a value that its type holds, a flag, or a word that is no option) parses,
    and to the options that setting one after the other gives: the last one of an option
    wins, every [--env] is kept under its key, words that are no option change nothing. *)
Theorem options_roundtrip (l : list setting) (o : options) : Forall valid l ->
  parse_args (mjoin (words <$> l)) o = Parsed (foldl set o l).
Proof.
  intros F. revert o. induction F as [|s l Hs F IH]; intros o; [done|]. cbn [foldl]. rewrite <- IH.
  change (mjoin (words <$> s :: l)) with (words s ++ mjoin (words <$> l)). destruct s as [n|p|m|p|k v|n| | | |w]; cbn [words app].
  - apply parse_value_step. unfold parse_valued. rewrite bool_decide_eq_true_2 by done. by rewrite stoi_print.
  - by apply parse_value_step.
  - apply parse_value_step. change (parse_valued _ _ _) with (Some (parse_perm (print_octal m) o)). cbn in Hs. unfold parse_perm.
    rewrite strtoul8_print by lia. by rewrite (proj2 (Z.ltb_ge _ _)) by lia.
  - by apply parse_value_step.
  - apply parse_value_step. change (parse_valued _ _ _) with (Some (parse_env (k ++ 61 :: v) o)). unfold parse_env.
    rewrite span_stop; [done| |done]. apply Forall_forall. intros c Hc. apply negb_true_iff, Z.eqb_neq. by intros ->.
  - apply parse_value_step. change (parse_valued _ _ _) with (Some (match stoi (print_int n) with Some v => Parsed (set_num_workers (u64 v) o) | None => Threw end)).
    by rewrite stoi_print.
  - by apply parse_flag_step.
  - by apply parse_flag_step.
  - by apply parse_flag_step.
  - destruct (other_word w o Hs). by apply parse_flag_step.
Qed.

Definition some_settings : list setting :=
  [OtherWord (str "serve"); SetPort 1; SetModule (str "f.wasm"); SetEnv (str "K") (str "a=b"); SetPerm 432; SetPort (-7); SetWorkers 8; SetDebug].

Lemma options_roundtrip_witness :
  parse_args (mjoin (words <$> some_settings)) default_options =
    Parsed (mkOptions (-7) (str "f.wasm") DEFAULT_UDS_PATH 432 {[str "K" := str "a=b"]} true true false 8 false).
Proof.
  rewrite (options_roundtrip some_settings default_options).
  - vm_compute. reflexivity.
  - unfold some_settings. repeat constructor; cbn; try lia; intros X; repeat (apply elem_of_cons in X as [X|X]; [discriminate X|]); by apply elem_of_nil in X.
Defined.

(** ** Types of the calls *)

(** The parser gives values of the types that the program has for them. *)
Record typed_options (o : options) : Prop := {
  ty_port : - 2 ^ 31 <= port o < 2 ^ 31;
  ty_perm : 0 <= sock_perm o <= 511;
  ty_workers : 0 <= num_workers o < 2 ^ 64
}.

Lemma stoi_range s v : stoi s = Some v -> - 2 ^ 31 <= v < 2 ^ 31.
Proof.
  unfold stoi. destruct (sign_of (skip_space s)) as [neg l]. destruct (span _ l) as [[|d ds] r]; [done|]. set (x := if neg then _ else _).
  destruct ((- 2 ^ 31 <=? x) && (x <? 2 ^ 31)) eqn:E; [|done]. intros [= <-]. apply andb_prop in E as [E1 E2]. lia.
Qed.

Lemma u64_bounds v : 0 <= u64 v < 2 ^ 64.
Proof. unfold u64. apply Z.mod_pos_bound. lia. Qed.

Lemma from_base_pos b l : 0 < b -> 0 <= from_base b l.
Proof.
  intros Hb. unfold from_base. assert (forall a, 0 <= a -> 0 <= foldl (fun a c => b * a + default 0 (digit_val c)) a l) as H; [|by apply H].
  induction l as [|c l IH]; intros a Ha; [done|]. cbn. apply IH. assert (0 <= default 0 (digit_val c)); [|nia].
  unfold digit_val. destruct ((48 <=? c) && (c <=? 57)) eqn:E1; [cbn; lia|]. destruct ((97 <=? c) && (c <=? 102)) eqn:E2; cbn; lia.
Qed.

Lemma strtoul8_range s v r : strtoul8 s = Some (v, r) -> 0 <= v < 2 ^ 64.
Proof.
  unfold strtoul8. destruct (sign_of (skip_space s)) as [neg l]. destruct (span is_octal l) as [[|d ds] r']; [done|]. intros [= <- _].
  pose proof (from_base_pos 8 (d :: ds)). destruct (Z.leb_spec (2 ^ 64) (from_base 8 (d :: ds))); [lia|]. destruct neg; [apply u64_bounds|lia].
Qed.

Lemma parse_valued_typed arg val o o' : typed_options o -> parse_valued arg val o = Some (Parsed o') -> typed_options o'.
Proof.
  intros [P M W]. unfold parse_valued.
  destruct (bool_decide _); [destruct (stoi val) as [v|] eqn:E; [|done]; intros [= <-]; split; try done; by apply (stoi_range val)|].
  destruct (bool_decide _); [by intros [= <-]|].
  destruct (bool_decide _).
  { unfold parse_perm. destruct (strtoul8 val) as [[v [|]]|] eqn:E; try done. destruct (Z.ltb_spec 511 v); [done|]. intros [= <-].
    apply strtoul8_range in E. by split; cbn; try lia. }
  destruct (bool_decide _); [by intros [= <-]|].
  destruct (bool_decide _); [unfold parse_env; destruct (span _ val) as [k [|]]; [done|by intros [= <-]]|].
  destruct (bool_decide _); [|done]. destruct (stoi val) as [v|]; [|done]. intros [= <-]. split; [done..|apply u64_bounds].
Qed.

Lemma parse_flag_typed arg o o' : typed_options o -> parse_flag arg o = Parsed o' -> typed_options o'.
Proof. intros [P M W]. unfold parse_flag. repeat (destruct (bool_decide _); [by try intros [= <-]|]). by intros [= <-]. Qed.

Lemma parse_args_typed n : forall args o o', (length args <= n)%nat -> typed_options o -> parse_args args o = Parsed o' -> typed_options o'.
Proof.
  induction n as [|n IH]; intros args o o' Hn T E; (destruct args as [|arg rest]; [by injection E as <-|]); cbn in Hn; [lia|].
  cbn [parse_args] in E. destruct rest as [|val rest]; [by eapply parse_flag_typed|]. cbn in Hn.
  destruct (parse_valued arg val o) as [[o1|c|]|] eqn:V; try done.
  - eapply (IH rest o1); [lia|by eapply parse_valued_typed|done].
  - destruct (parse_flag arg o) as [o1|c|] eqn:F; try done. eapply (IH (val :: rest) o1); [cbn; lia|by eapply parse_flag_typed|done].
Qed.

Lemma parsed_typed args o : parse_args args default_options = Parsed o -> typed_options o.
Proof. by apply (parse_args_typed (length args)). Qed.

Lemma log_init_typed debug : calls typed_call (log_init debug) (fun _ => True).
Proof.
  unfold log_init. apply calls_bind, (calls_mono _ _ (fun _ => True)).
  { destruct debug; calls. }
  intros enable _. destruct enable; [|by apply calls_ret]. apply calls_ask; [done|]. intros r. apply calls_bind, (calls_mono _ _ (fun _ => True)); [|intros _ _; calls].
  destruct (r =? 0); [by apply calls_ret|]. unfold create_log. calls.
Qed.

Lemma signal_handler_typed sig fd b : calls typed_call (signal_handler sig fd b) (fun b' => b' = b || ((sig =? 2) || (sig =? 15))).
Proof.
  unfold signal_handler. destruct ((sig =? 2) || (sig =? 15)) eqn:E; calls; by rewrite ?orb_true_r, ?orb_false_r.
Qed.

Lemma unlink_typed path : calls typed_call (unlink_path path) (fun _ => True).
Proof. unfold unlink_path. destruct (is_nil path); calls. Qed.

Lemma destroy_typed s : calls typed_call (destroy_server s) (fun _ => True).
Proof. unfold destroy_server. apply calls_bind. calls; apply unlink_typed. Qed.

(** What a started server has kept. *)
Definition started (s : HttpServer) (x : bool * HttpServer) : Prop :=
  exists fd, x.2 = set_server_socket fd s /\ (x.1 = true -> 0 <= fd).

Lemma start_typed s : 0 <= sock_perm_ s <= 511 -> calls typed_call (start_server s) (started s).
Proof.
  intros Hp. assert (forall fd b, 0 <= fd -> started s (b, set_server_socket fd s)) as Hs by (intros fd b H; by exists fd).
  assert (forall fd, 0 <= fd -> calls typed_call (fail_start (set_server_socket fd s)) (started s)) as Hg by (intros fd H; unfold fail_start; calls; auto).
  assert (forall fd, 0 <= fd -> calls typed_call (fail_uds (set_server_socket fd s)) (started s)) as Hu.
  { intros fd H. unfold fail_uds, cleanup_uds. calls. apply calls_bind. eapply calls_mono; [apply unlink_typed|]. intros _ _. calls. auto. }
  unfold start_server. destruct (tcp_mode s); [unfold start_tcp|unfold start_uds]; (apply calls_ask; [done|intros fd]).
  - destruct (Z.ltb_spec fd 0); [apply calls_ret; by exists fd|]. calls; auto.
    cbn. split; [done|]. unfold u16. apply Z.mod_pos_bound. lia.
  - destruct (Z.ltb_spec fd 0); [apply calls_ret; by exists fd|]. apply calls_bind, (calls_mono _ _ (fun _ => True)).
    { destruct (is_nil _); calls. }
    intros ec _. destruct (Z.eqb_spec ec 0); cbn [negb]; [|auto]. apply calls_ask; [done|]. intros _.
    destruct (Z.leb_spec SUN_PATH (zlen (uds_path_ (set_server_socket fd s)))); [auto|]. unfold listen_uds. calls; auto. done.
Qed.

Lemma accept_typed fd : 0 <= fd -> calls typed_call (accept_connections fd) (fun _ => True).
Proof. intros H. unfold accept_connections, close_both, set_nonblocking. calls. apply calls_bind. calls. Qed.

Lemma serve_typed o : typed_options o -> calls typed_call (serve o) (fun _ => True).
Proof.
  intros T. unfold serve. cbv zeta. apply calls_bind. eapply calls_mono; [apply destroy_typed|]. intros _ _.
  apply calls_bind. eapply calls_mono; [apply start_typed|].
  { unfold make_server. destruct (_ || _); cbn; [apply (ty_perm _ T)|lia]. }
  intros [ok s] (fd & E & Hfd). cbn in E, Hfd. subst s. destruct ok; cbn [negb].
  - apply calls_bind. eapply calls_mono; [apply accept_typed; by apply Hfd|]. intros _ _. calls. apply calls_bind.
    eapply calls_mono; [apply destroy_typed|]. intros _ _. apply calls_bind. eapply calls_mono; [apply unlink_typed|]. intros _ _. calls.
  - apply calls_bind. eapply calls_mono; [apply destroy_typed|]. intros _ _. calls.
Qed.

(** ** The descriptors of a run *)

Lemma main_typed args : calls typed_call (main args) (fun _ => True).
Proof.
  unfold main. destruct (parse_args args default_options) as [o|c|] eqn:E; [|by apply calls_ret..].
  pose proof (parsed_typed _ _ E) as T. unfold run_options. destruct (lsapi_mode o && port_specified o); [by apply calls_ret|].
  apply calls_bind. eapply calls_mono; [apply log_init_typed|]. intros _ _. destruct (wasm_module_path o) as [|x path] eqn:Ep; [by apply calls_ret|].
  cbn [is_nil]. calls. destruct (lsapi_mode o); [calls; discriminate|]. unfold run_http. rewrite Ep. calls. apply calls_bind, (calls_mono _ _ (fun _ => True)).
  { destruct (bool_decide _); calls. }
  intros _ _. calls; [done|]. apply calls_bind, (calls_mono _ _ (fun _ => True)).
  { unfold make_pool. calls. cbn. pose proof (ty_workers _ T). lia. }
  intros made _. destruct made; [by apply serve_typed|by apply calls_ret].
Qed.

(** The next step of a program that neither gives nor takes a descriptor. *)
Ltac fplain := first [apply fwp_plain; [exact I|first [by apply fd_ok_none|split; [by repeat constructor|exact I]]|intros ?]
                     |apply fwp_plain_end; [exact I|by apply fd_ok_none|intros ?]].

Lemma unlink_fds path f : fwp (unlink_path path) f (fun f' _ => f' = f).
Proof. unfold unlink_path. destruct (is_nil path); [done|]. by fplain. Qed.

Lemma log_init_fds debug f : fwp (log_init debug) f (fun f' _ => fds_kept f f').
Proof.
  unfold log_init. apply fwp_bind, (fwp_mono _ _ (fun f' _ => f' = f)).
  { destruct debug; [done|]. by fplain. }
  intros f' enable ->. destruct enable; [|apply fds_kept_refl]. fplain. apply fwp_bind, (fwp_mono _ _ (fun f' _ => fds_kept f f')).
  { destruct (_ =? 0); [apply fds_kept_refl|]. unfold create_log. fplain. apply fwp_gives; [done|..]; intros fd Hfd; fplain.
    - rewrite (proj2 (Z.leb_le _ _)) by done. apply fwp_ask; [split; [constructor|]; cbn; by constructor|]. intros ?.
      rewrite fd_step_close by (cbn; by constructor). cbn. rewrite Z.eqb_refl. split; [done|]. split; [done|]. intros x Hx. by constructor.
    - rewrite (proj2 (Z.leb_gt _ _)) by done. apply fds_kept_refl. }
  intros f' _ K. fplain. exact K.
Qed.

(** The destructor closes the descriptor of the server once more. *)
Lemma destroy_fds s f : (0 <= server_socket_ s -> server_socket_ s ∈ fs_given f) -> fwp (destroy_server s) f (fun f' _ =>
  f' = if 0 <=? server_socket_ s then fd_step f (SysClose (server_socket_ s), 0) else f).
Proof.
  intros G. unfold destroy_server. apply fwp_bind. destruct (Z.leb_spec 0 (server_socket_ s)).
  - apply fwp_ask; [split; [constructor|by apply G]|]. intros r. cbn [fwp mret sys_ret]. eapply fwp_mono; [apply unlink_fds|]. by intros f' _ ->.
  - cbn [fwp mret sys_ret]. eapply fwp_mono; [apply unlink_fds|]. by intros f' _ ->.
Qed.

(** A start either fails and has closed what it opened, or has the listener open. *)
Definition start_fds (s : HttpServer) (f f' : fd_state) (x : bool * HttpServer) : Prop :=
  exists fd, x.2 = set_server_socket fd s /\
    if x.1 then f' = mkFds (fd :: fs_open f) (fd :: fs_given f) (fs_twice f) /\ 0 <= fd
    else fds_kept f f' /\ (0 <= fd -> fd ∈ fs_given f').

Lemma start_server_fds s f : fwp (start_server s) f (start_fds s f).
Proof.
  assert (forall fd, 0 <= fd -> let g := mkFds (fd :: fs_open f) (fd :: fs_given f) (fs_twice f) in
    fwp (fail_start (set_server_socket fd s)) g (start_fds s f)) as Hg.
  { intros fd H g. unfold fail_start. apply fwp_ask; [split; [constructor|by constructor]|]. intros r.
    rewrite fd_step_close by (by constructor). exists fd. split; [done|]. cbn. rewrite Z.eqb_refl.
    split; [|by constructor]. split; [done|]. split; [done|]. intros x Hx. by constructor. }
  assert (forall fd, 0 <= fd -> let g := mkFds (fd :: fs_open f) (fd :: fs_given f) (fs_twice f) in
    fwp (fail_uds (set_server_socket fd s)) g (start_fds s f)) as Hu.
  { intros fd H g. unfold fail_uds, cleanup_uds. apply fwp_ask; [split; [constructor|by constructor]|]. intros r.
    rewrite fd_step_close by (by constructor). apply fwp_bind. eapply fwp_mono; [apply unlink_fds|]. intros f' _ ->.
    exists fd. split; [done|]. cbn. rewrite Z.eqb_refl.
    split; [|by constructor]. split; [done|]. split; [done|]. intros x Hx. by constructor. }
  unfold start_server. destruct (tcp_mode s); [unfold start_tcp|unfold start_uds];
    (apply fwp_gives; [done|..]; intros fd H;
     [rewrite (proj2 (Z.ltb_ge _ _)) by done|rewrite (proj2 (Z.ltb_lt _ _)) by done; exists fd; split; [done|]; split; [apply fds_kept_refl|lia]]).
  - repeat (fplain; match goal with |- fwp (if ?b then _ else _) _ _ => destruct b; [by apply Hg|] end). by exists fd.
  - apply fwp_bind, (fwp_mono _ _ (fun f' _ => f' = mkFds (fd :: fs_open f) (fd :: fs_given f) (fs_twice f))).
    { destruct (is_nil _); [done|]. by fplain. }
    intros f' ec ->. destruct (negb _); [by apply Hg|]. fplain. destruct (SUN_PATH <=? _); [by apply Hg|]. unfold listen_uds.
    repeat (fplain; match goal with |- fwp (if ?b then _ else _) _ _ => destruct b; [first [by apply Hg|by apply Hu]|] end). by exists fd.
Qed.

Lemma accept_fds fd f : fd ∈ fs_open f -> fwp (accept_connections fd) f (fun f' _ => fds_kept f f').
Proof.
  intros H. unfold accept_connections.
  apply fwp_gives; [done|..]; intros ep He; [rewrite (proj2 (Z.ltb_ge _ _)) by done|rewrite (proj2 (Z.ltb_lt _ _)) by done; apply fds_kept_refl].
  set (g1 := mkFds (ep :: fs_open f) _ _). apply fwp_gives; [done|..]; intros ev Hv; [rewrite (proj2 (Z.ltb_ge _ _)) by done|rewrite (proj2 (Z.ltb_lt _ _)) by done].
  2: { apply fwp_ask; [split; [constructor|]; cbn; by constructor|]. intros r. rewrite fd_step_close by (cbn; by constructor). cbn. rewrite Z.eqb_refl.
       split; [done|]. split; [done|]. intros x Hx. by constructor. }
  set (g2 := mkFds (ev :: fs_open g1) _ _).
  assert (fwp (close_both ep ev) g2 (fun f' _ => fds_kept f f')) as Hc.
  { unfold close_both. apply fwp_ask; [split; [constructor|]; cbn; by constructor|]. intros r. rewrite fd_step_close by (cbn; by constructor).
    apply fwp_ask; [split; [constructor|]; cbn; by repeat constructor|]. cbn. rewrite Z.eqb_refl. intros r'. rewrite fd_step_close by (cbn; by constructor).
    cbn. rewrite Z.eqb_refl. split; [done|]. split; [done|]. intros x Hx. by repeat constructor. }
  assert (fd ∈ fs_open g2 /\ ep ∈ fs_open g2 /\ ev ∈ fs_open g2) as (O1 & O2 & O3) by (cbn; repeat split; by repeat constructor).
  clearbody g2. apply fwp_bind, (fwp_mono _ _ (fun f' _ => f' = g2)).
  { unfold set_nonblocking. do 2 (apply fwp_plain; [exact I|split; [by constructor|exact I]|intros ?]). done. }
  intros f' _ ->. apply fwp_plain; [exact I|split; [by repeat constructor|exact I]|intros ?]. destruct (_ <? 0); [exact Hc|].
  apply fwp_plain; [exact I|split; [by repeat constructor|exact I]|intros ?]. destruct (_ <? 0); [exact Hc|].
  apply fwp_plain; [exact I|split; [by repeat constructor|exact I]|intros ?]. exact Hc.
Qed.

(** A close of what is not open happens only when the server could not be started. *)
Definition once_unless_failed (f : fd_state) (e : ending) : Prop := e <> Exit 1 -> fs_twice f = false.

Lemma make_server_closed o : server_socket_ (make_server o) = -1.
Proof. unfold make_server. by destruct (_ || _). Qed.

Lemma serve_fds o f : fs_twice f = false -> fwp (serve o) f once_unless_failed.
Proof.
  intros Ht. unfold serve. cbv zeta. pose proof (make_server_closed o) as Es. set (s := make_server o) in *. clearbody s.
  apply fwp_bind. eapply fwp_mono; [apply destroy_fds; lia|]. rewrite Es. cbn [Z.leb Z.compare]. intros f' _ ->.
  apply fwp_bind. eapply fwp_mono; [apply start_server_fds|]. intros f1 [ok s'] (fd & E & H1). cbn [fst snd] in E, H1. subst s'.
  destruct ok; cbn [negb].
  - destruct H1 as [-> Hfd]. apply fwp_bind. eapply fwp_mono; [apply accept_fds; cbn; by constructor|]. intros f2 _ (O2 & T2 & G2). cbn in O2, T2, G2.
    fplain. apply fwp_bind. eapply fwp_mono; [apply destroy_fds; cbn; intros _; apply G2; by constructor|]. cbn [server_socket_ set_server_socket].
    rewrite (proj2 (Z.leb_le _ _)) by done. intros f3 _ ->. apply fwp_bind. eapply fwp_mono; [apply unlink_fds|]. intros f4 _ ->.
    do 2 fplain. intros _. rewrite fd_step_close by (rewrite O2; by constructor). cbn. congruence.
  - destruct H1 as [_ Hfd]. apply fwp_bind. eapply fwp_mono; [apply destroy_fds; exact Hfd|]. intros f2 _ _. fplain. by intros [].
Qed.

Lemma main_fds args : fwp (main args) no_fds once_unless_failed.
Proof.
  unfold main. destruct (parse_args args default_options) as [o|c|]; [|by intros ?..]. unfold run_options.
  destruct (_ && _); [by intros ?|]. apply fwp_bind. eapply fwp_mono; [apply log_init_fds|]. intros f _ (_ & T & _). cbn in T.
  destruct (is_nil _); [by intros ?|]. do 2 fplain. destruct (lsapi_mode o); [fplain; by intros ?|]. unfold run_http. fplain.
  apply fwp_bind, (fwp_mono _ _ (fun f' _ => f' = f)). { destruct (bool_decide _); [done|]. by fplain. }
  intros f' _ ->. fplain. destruct (_ =? 0); [by intros ?|]. apply fwp_bind, (fwp_mono _ _ (fun f' _ => f' = f)).
  { unfold make_pool. destruct (_ <=? _); [done|]. by fplain. }
  intros f' made ->. destruct made; [by apply serve_fds|by intros ?].
Qed.

(** C21. Every call of [main] is well typed.  Whatever the command line and whatever the
    system answers, every call that works on descriptors works on ones that the system
    gave before and that were not closed since; a close is of a descriptor that the system
    gave before, and, unless the process exits with 1, of one not closed since (a listener
    that could not be set up is closed a second time, [failed_bind_closes_twice]); a bound
    path fits [sun_path] with its NUL, a bound port has 16 bits, a mode has nine bits, the
    module has a path, and the pool is asked for no more threads than a vector can hold. *)
Theorem main_calls_typed (args : list (list Z)) (answers : list Z) (tr : trace) (e : ending) :
  replay (main args) answers = Some (tr, e) ->
  Forall (fun x => typed_call x.1) tr /\
  forall before c r behind, tr = before ++ (c, r) :: behind ->
    Forall (fun fd => fd ∈ still_open before) (uses c) /\
    forall fd, c = SysClose fd -> fd ∈ opens before /\ (e <> Exit 1 -> fd ∈ still_open before).
Proof.
  intros R. split; [by destruct (twp_replay _ _ _ _ _ (main_typed args) R)|].
  destruct (fwp_replay _ _ _ _ _ _ (main_fds args) R) as [Once Ok]. intros before c r behind E.
  destruct (Ok before (c, r) behind E) as [U G]. cbn [fst] in U, G. rewrite fd_step_open in U. split; [exact U|].
  intros fd ->. apply fd_step_given in G as [G|G]; [|by apply elem_of_nil in G]. split; [exact G|]. intros N.
  destruct (fd_step_twice _ _ (Once N)) as [_ H]. exact (H before fd r behind E).
Qed.

(** ** Serving *)

Definition log_call (c : syscall) : Prop :=
  match c with SysStat _ | SysUmask _ | SysOpen _ _ | SysOpenLog _ | SysClose _ => True | _ => False end.

Definition no_loop (tr : trace) : Prop := Forall (fun x => match x.1 with EventLoop _ _ _ => False | _ => True end) tr.

Definition unlinks (path : list Z) : list syscall := if is_nil path then [] else [SysUnlink path].

Definition listen_calls (s : HttpServer) (fd : Z) : list syscall :=
  if tcp_mode s then [SysSocket AF_INET; SysReuseAddr fd; SysBind fd (SockIn INADDR_ANY (u16 (port_ s))); SysListen fd BACKLOG]
  else
    SysSocket AF_UNIX :: (if is_nil (parent_path (uds_path_ s)) then [] else [SysMakeDirs (parent_path (uds_path_ s))]) ++
    [SysUnlink (uds_path_ s); SysBind fd (SockUnix (uds_path_ s)); SysChmod (uds_path_ s) (sock_perm_ s); SysListen fd BACKLOG].

Definition loop_calls (ep ev fd flags : Z) : list syscall :=
  [SysEpollCreate; SysEventfd; SysGetFlags fd; SysSetFlags fd (Z.lor flags 2048); SysEpollAdd ep fd EPOLLIN; SysEpollAdd ep ev EPOLLIN;
   EventLoop ep ev fd; SysClose ev; SysClose ep].

(** Before the listener is made, and behind the loop; [path] is that of its socket file. *)
Definition calls_before (o : options) (path : list Z) : list syscall :=
  [SysSigaction 2; SysSigaction 15; NewManager] ++ (if bool_decide (wasm_envs o = ∅) then [] else [SetEnvironment (wasm_envs o)]) ++
  [LoadModule (wasm_module_path o) custom_filter; StartPool (num_workers o)] ++ unlinks path.
Definition calls_behind (path : list Z) (fd : Z) : list syscall :=
  [ShutdownPool; SysClose fd] ++ unlinks path ++ unlinks path ++ [ResetManager; ShutdownPool].

(** The listener a command line asks for, as the help and the README have it: when [--port]
    and [--uds] are given, only [--uds] is used; when neither is, a socket at the default
    path. *)
Inductive listener := ListenTcp (port : Z) | ListenUds (path : list Z) (mode : Z).

Definition asked_listener (args : list (list Z)) (o : options) : listener :=
  if bool_decide (str "--uds" ∈ args) then ListenUds (uds_path o) (sock_perm o)
  else if port_specified o then ListenTcp (port o)
  else ListenUds DEFAULT_UDS_PATH (sock_perm o).

Definition listener_path (l : listener) : list Z := match l with ListenTcp _ => [] | ListenUds path _ => path end.

Definition listener_calls (l : listener) (fd : Z) : list syscall :=
  match l with
  | ListenTcp port => [SysSocket AF_INET; SysReuseAddr fd; SysBind fd (SockIn INADDR_ANY (port mod 2 ^ 16)); SysListen fd BACKLOG]
  | ListenUds path mode =>
      SysSocket AF_UNIX :: (if is_nil (parent_path path) then [] else [SysMakeDirs (parent_path path)]) ++
      [SysUnlink path; SysBind fd (SockUnix path); SysChmod path mode; SysListen fd BACKLOG]
  end.

(** The one command line on which the code does otherwise: [--uds] with the default path. *)
Definition names_default_path (args : list (list Z)) (o : options) : Prop :=
  str "--uds" ∈ args /\ port_specified o = true /\ uds_path o = DEFAULT_UDS_PATH.

Lemma parse_valued_uds arg val o o' : arg <> str "--uds" -> parse_valued arg val o = Some (Parsed o') -> uds_path o' = uds_path o.
Proof.
  intros N. unfold parse_valued.
  destruct (bool_decide _); [destruct (stoi val); [|done]; by intros [= <-]|].
  rewrite (bool_decide_eq_false_2 (arg = str "--uds")) by done.
  destruct (bool_decide _).
  { unfold parse_perm. destruct (strtoul8 val) as [[v [|]]|]; try done. destruct (511 <? v); [done|]. by intros [= <-]. }
  destruct (bool_decide _); [by intros [= <-]|].
  destruct (bool_decide _); [unfold parse_env; destruct (span _ val) as [k [|]]; [done|by intros [= <-]]|].
  destruct (bool_decide _); [|done]. destruct (stoi val); [|done]. by intros [= <-].
Qed.

Lemma parse_flag_uds arg o o' : parse_flag arg o = Parsed o' -> uds_path o' = uds_path o.
Proof. unfold parse_flag. repeat (destruct (bool_decide _); [by try intros [= <-]|]). by intros [= <-]. Qed.

Lemma parse_args_uds n : forall args o o', (length args <= n)%nat -> str "--uds" ∉ args -> parse_args args o = Parsed o' -> uds_path o' = uds_path o.
Proof.
  induction n as [|n IH]; intros args o o' Hn N E; (destruct args as [|arg rest]; [by injection E as <-|]); cbn in Hn; [lia|].
  apply not_elem_of_cons in N as [N1 N2].
  cbn [parse_args] in E. destruct rest as [|val rest]; [by eapply parse_flag_uds|]. cbn in Hn. pose proof N2 as [_ N3]%not_elem_of_cons.
  destruct (parse_valued arg val o) as [[o1|c|]|] eqn:V; try done.
  - rewrite <- (parse_valued_uds arg val o o1) by done. eapply (IH rest o1); [lia|done|done].
  - destruct (parse_flag arg o) as [o1|c|] eqn:F; try done. rewrite <- (parse_flag_uds _ _ _ F). eapply (IH (val :: rest) o1); [cbn; lia|done|done].
Qed.

(** The server that [main] makes is the one asked for. *)
Lemma make_server_asked args o fd : parse_args args default_options = Parsed o -> ~ names_default_path args o ->
  listen_calls (make_server o) fd = listener_calls (asked_listener args o) fd /\ uds_path_ (make_server o) = listener_path (asked_listener args o).
Proof.
  intros E N. unfold asked_listener, make_server. destruct (bool_decide_reflect (str "--uds" ∈ args)) as [H|H].
  - assert (bool_decide (uds_path o <> DEFAULT_UDS_PATH) || negb (port_specified o) = true) as ->; [|done].
    destruct (port_specified o) eqn:P; [|by rewrite orb_true_r]. rewrite bool_decide_eq_true_2; [done|]. intros X. by apply N.
  - apply (parse_args_uds (length args)) in E; [|done|done]. change (uds_path default_options) with DEFAULT_UDS_PATH in E.
    rewrite E, bool_decide_eq_false_2 by (by intros []). by destruct (port_specified o).
Qed.

Lemma log_init_trace debug : twp (log_init debug) (fun tr _ => Forall (fun x => log_call x.1) tr /\ closes tr = opens tr).
Proof.
  assert (forall tr c r, log_call c -> opens [(c, r)] = [] -> closes [(c, r)] = [] ->
    Forall (fun x => log_call x.1) tr /\ closes tr = opens tr ->
    Forall (fun x => log_call x.1) ((c, r) :: tr) /\ closes ((c, r) :: tr) = opens ((c, r) :: tr)) as Step.
  { intros tr c r Hc Ho Hcl [F E]. split; [by constructor|]. change ((c, r) :: tr) with ([(c, r)] ++ tr).
    unfold closes, opens in *. by rewrite !omap_app, Ho, Hcl, E. }
  unfold log_init, create_log. apply twp_bind.
  assert (forall enable : bool, twp (if enable then r ← ask (SysStat LOG_PATH);
    (if r =? 0 then mret tt else create_log) ;; r ← ask (SysOpenLog LOG_PATH); mret (negb (r =? 0)) else mret false)
    (fun tr _ => Forall (fun x => log_call x.1) tr /\ closes tr = opens tr)) as Rest.
  { intros enable. destruct enable; [|by split]. apply twp_ask. intros r. apply twp_bind.
    destruct (r =? 0); [|unfold create_log]; twp; try (by repeat split; repeat constructor).
    - split; [by repeat constructor|]. unfold closes, opens. cbn. by rewrite (proj2 (Z.leb_le _ _)).
    - split; [by repeat constructor|]. unfold closes, opens. cbn. by rewrite (proj2 (Z.leb_gt _ _)). }
  destruct debug; [apply Rest|]. apply twp_ask. intros r. cbn [twp mret sys_ret]. eapply twp_mono; [apply Rest|]. intros tr a H. by apply Step.
Qed.

Lemma no_loop_app tr tr' : no_loop tr -> no_loop tr' -> no_loop (tr ++ tr').
Proof. intros. by apply Forall_app. Qed.

Lemma no_loop_cons c r tr : match c with EventLoop _ _ _ => False | _ => True end -> no_loop tr -> no_loop ((c, r) :: tr).
Proof. intros. by constructor. Qed.

Lemma unlink_trace path : twp (unlink_path path) (fun tr _ => did (unlinks path) [] [] tr /\ no_loop tr).
Proof. unfold unlink_path, unlinks. destruct (is_nil path); twp; by repeat constructor. Qed.

Lemma destroy_server_trace s : 0 <= server_socket_ s \/ server_socket_ s = -1 -> twp (destroy_server s) (fun tr _ =>
  did ((if server_socket_ s =? -1 then [] else [SysClose (server_socket_ s)]) ++ unlinks (uds_path_ s)) []
    (if server_socket_ s =? -1 then [] else [server_socket_ s]) tr /\ no_loop tr).
Proof.
  intros Hs. unfold destroy_server. apply twp_bind. destruct (Z.leb_spec 0 (server_socket_ s)); twp.
  - eapply twp_mono; [apply unlink_trace|]. intros tr _ [D N]. rewrite (proj2 (Z.eqb_neq _ _)) by lia.
    split; [|by apply no_loop_cons]. apply (did_cons (SysClose (server_socket_ s)) r _ [] [] tr); [done|exact D].
  - eapply twp_mono; [apply unlink_trace|]. intros tr _ [D N]. by rewrite (proj2 (Z.eqb_eq _ _)) by lia.
Qed.

(** A start either fails, or has made the calls of the listener. *)
Lemma start_trace s : twp (start_server s) (fun tr x =>
  no_loop tr /\ exists fd, x.2 = set_server_socket fd s /\ (x.1 = true -> 0 <= fd /\ did (listen_calls s fd) [fd] [] tr)).
Proof.
  assert (forall fd, twp (fail_start (set_server_socket fd s)) (fun tr x => no_loop tr /\ x = (false, set_server_socket fd s))) as Hg.
  { intros fd. unfold fail_start. twp. by repeat constructor. }
  assert (forall fd, twp (fail_uds (set_server_socket fd s)) (fun tr x => no_loop tr /\ x = (false, set_server_socket fd s))) as Hu.
  { intros fd. unfold fail_uds, cleanup_uds. twp. apply twp_bind. eapply twp_mono; [apply unlink_trace|]. intros tr _ [_ N]. twp.
    split; [|done]. apply no_loop_cons; [done|]. apply no_loop_app; [done|constructor]. }
  unfold start_server, listen_calls. destruct (tcp_mode s) eqn:Em; [unfold start_tcp|unfold start_uds]; apply twp_ask; intros fd.
  - destruct (Z.ltb_spec fd 0); [split; [by repeat constructor|by exists fd]|]. twp.
    all: try (eapply twp_mono; [apply Hg|]; intros tr x [N ->]; split; [by repeat apply no_loop_cons|by exists fd]).
    split; [by repeat constructor|]. exists fd. split; [done|]. intros _. split; [done|].
    split; [done|unfold opens; cbn; by rewrite (proj2 (Z.leb_le _ _)) by lia|done|by repeat constructor].
  - destruct (Z.ltb_spec fd 0); [split; [by repeat constructor|by exists fd]|]. apply twp_bind.
    set (par := parent_path (uds_path_ (set_server_socket fd s))). change (parent_path (uds_path_ s)) with par.
    apply (twp_mono _ (fun tr ec => no_loop tr /\ (ec = 0 -> did (if is_nil par then [] else [SysMakeDirs par]) [] [] tr))).
    { destruct (is_nil par); twp; by repeat constructor. }
    intros tr1 ec [N1 D1]. destruct (Z.eqb_spec ec 0) as [->|N]; cbn [negb].
    2: { eapply twp_mono; [apply Hg|]. intros tr x [N' ->]. split; [by apply no_loop_cons, no_loop_app|by exists fd]. }
    specialize (D1 eq_refl). apply twp_ask. intros r. destruct (Z.leb_spec SUN_PATH (zlen (uds_path_ (set_server_socket fd s)))).
    { eapply twp_mono; [apply Hg|]. intros tr x [N' ->]. split; [apply no_loop_cons, no_loop_app; [done..|by apply no_loop_cons]|by exists fd]. }
    unfold listen_uds. twp.
    all: try (eapply twp_mono; [first [apply Hg|apply Hu]|]; intros tr x [N' ->];
      split; [apply no_loop_cons; [done|]; apply no_loop_app; [done|]; by repeat apply no_loop_cons|by exists fd]).
    split; [apply no_loop_cons; [done|]; apply no_loop_app; [done|]; by repeat constructor|]. exists fd. split; [done|]. intros _. split; [done|].
    replace [fd] with (opens [(SysSocket AF_UNIX, fd)] ++ [] ++ []) by (unfold opens; cbn; by rewrite (proj2 (Z.leb_le _ _)) by lia).
    apply (did_cons (SysSocket AF_UNIX) fd _ ([] ++ []) ([] ++ [])); [exact H|]. apply (did_app _ [] [] _ _ [] []); [exact D1|]. split; [done..|]. by repeat constructor.
Qed.

Lemma accept_trace fd : twp (accept_connections fd) (fun tr _ =>
  no_loop tr \/ exists ep ev flags, did (loop_calls ep ev fd flags) [ep; ev] [ev; ep] tr).
Proof.
  unfold accept_connections, close_both, set_nonblocking. twp; try (left; by repeat constructor). apply twp_bind. twp; try (left; by repeat constructor).
  all: right; eexists _, _, _; split; [done|unfold opens; cbn; rewrite !(proj2 (Z.leb_le _ _)) by lia; done|done|by repeat constructor].
Qed.

Definition has_loop (tr : trace) : Prop := exists ep ev fd, EventLoop ep ev fd ∈ tr.*1.

Lemma no_loop_has tr : no_loop tr -> ~ has_loop tr.
Proof.
  intros N (ep & ev & fd & H). apply list_elem_of_fmap in H as ([c r] & E & H). cbn in E. subst c. unfold no_loop in N. rewrite Forall_forall in N.
  by apply N in H.
Qed.

Lemma has_loop_app tr tr' : no_loop tr -> has_loop (tr ++ tr') -> has_loop tr'.
Proof.
  intros N (ep & ev & fd & H). rewrite fmap_app in H. apply elem_of_app in H as [H|H]; [|by exists ep, ev, fd].
  destruct (no_loop_has _ N). by exists ep, ev, fd.
Qed.

(** What [main] has done when it served, behind the set-up of the log. *)
Definition served (o : options) (tr : trace) (e : ending) : Prop :=
  e = Exit 0 /\ exists fd ep ev flags,
    did (calls_before o (uds_path_ (make_server o)) ++ listen_calls (make_server o) fd ++ loop_calls ep ev fd flags ++ calls_behind (uds_path_ (make_server o)) fd)
      [fd; ep; ev] [ev; ep; fd] tr.

Lemma served_fields o fd : uds_path_ (set_server_socket fd (make_server o)) = uds_path_ (make_server o) /\
  listen_calls (set_server_socket fd (make_server o)) = listen_calls (make_server o) /\ server_socket_ (make_server o) = -1.
Proof. unfold make_server. by destruct (_ || _). Qed.

Lemma destroy_no_loop s : twp (destroy_server s) (fun tr _ => no_loop tr).
Proof.
  unfold destroy_server. apply twp_bind. destruct (0 <=? server_socket_ s); twp; (eapply twp_mono; [apply unlink_trace|]); intros tr _ [_ N]; [|done].
  by apply no_loop_cons.
Qed.

(** The calls from the end of the loop to the exit. *)
Lemma behind_trace s fd : 0 <= fd ->
  twp (ask ShutdownPool ;; destroy_server (set_server_socket fd s) ;; unlink_path (uds_path_ (set_server_socket fd s)) ;; ask ResetManager ;; ask ShutdownPool ;; mret (Exit 0))
    (fun tr e => e = Exit 0 /\ no_loop tr /\ did (calls_behind (uds_path_ s) fd) [] [fd] tr).
Proof.
  intros Hfd. twp. apply twp_bind. eapply twp_mono; [apply destroy_server_trace; by left|]. intros tr1 _ [D1 N1].
  apply twp_bind. eapply twp_mono; [apply unlink_trace|]. intros tr2 _ [D2 N2]. twp. cbn [server_socket_ set_server_socket uds_path_] in D1, D2.
  rewrite (proj2 (Z.eqb_neq fd (-1))) in D1 by lia. split; [done|]. split.
  - apply no_loop_cons; [done|]. apply no_loop_app; [done|]. apply no_loop_app; [done|]. by repeat constructor.
  - unfold calls_behind. set (u := unlinks (uds_path_ s)) in *. change ([ShutdownPool; SysClose fd] ++ ?x) with (ShutdownPool :: [SysClose fd] ++ x).
    rewrite (app_assoc [SysClose fd]). apply (did_cons ShutdownPool r _ [] [fd]); [done|].
    apply (did_app _ [] [fd] _ _ [] []); [exact D1|]. apply (did_app _ [] [] _ _ [] []); [exact D2|]. by repeat constructor.
Qed.

Lemma serve_trace o : twp (serve o) (fun tr e => has_loop tr -> e = Exit 0 /\ exists fd ep ev flags,
  did (unlinks (uds_path_ (make_server o)) ++ listen_calls (make_server o) fd ++ loop_calls ep ev fd flags ++ calls_behind (uds_path_ (make_server o)) fd)
    [fd; ep; ev] [ev; ep; fd] tr).
Proof.
  unfold serve. cbv zeta. destruct (served_fields o 0) as (_ & _ & Es). set (s := make_server o) in *.
  apply twp_bind. eapply twp_mono; [apply destroy_server_trace; by right|]. intros tr1 _ [D1 N1]. rewrite Es in D1. cbn in D1.
  apply twp_bind. eapply twp_mono; [apply start_trace|]. intros tr2 [ok s'] (N2 & fd & E & Hok). cbn in E, Hok. subst s'.
  destruct ok; cbn [negb].
  - destruct (Hok eq_refl) as [Hfd D2]. apply twp_bind. eapply twp_mono; [apply accept_trace|]. intros tr3 [] H3.
    eapply twp_mono; [by apply behind_trace|]. intros tr4 e (-> & N4 & D4) Hl. split; [done|].
    apply has_loop_app in Hl; [|done]. apply has_loop_app in Hl; [|done]. destruct H3 as [N3|(ep & ev & flags & D3)].
    { apply has_loop_app in Hl; [|done]. by apply no_loop_has in Hl. }
    exists fd, ep, ev, flags. apply (did_app _ [] [] _ _ [fd; ep; ev] [ev; ep; fd]); [exact D1|].
    apply (did_app _ [fd] [] _ _ [ep; ev] [ev; ep; fd]); [exact D2|]. by apply (did_app _ [ep; ev] [ev; ep] _ _ [] [fd]).
  - apply twp_bind. eapply twp_mono; [apply destroy_no_loop|]. intros tr3 [] N3. twp. intros Hl. exfalso.
    do 3 (apply has_loop_app in Hl; [|done]). revert Hl. apply no_loop_has. by repeat constructor.
Qed.

Lemma run_http_trace o : twp (run_http o) (fun tr e => has_loop tr -> e = Exit 0 /\ exists fd ep ev flags,
  did (drop 2 (calls_before o (uds_path_ (make_server o))) ++ listen_calls (make_server o) fd ++ loop_calls ep ev fd flags ++ calls_behind (uds_path_ (make_server o)) fd)
    [fd; ep; ev] [ev; ep; fd] tr).
Proof.
  unfold run_http. apply twp_ask. intros r0. apply twp_bind.
  apply (twp_mono _ (fun tr _ => no_loop tr /\ did (if bool_decide (wasm_envs o = ∅) then [] else [SetEnvironment (wasm_envs o)]) [] [] tr)).
  { destruct (bool_decide _); twp; by repeat constructor. }
  intros tr1 _ [N1 D1]. apply twp_ask. intros r1. destruct (Z.eqb_spec r1 0) as [_|L].
  { intros Hl. exfalso. apply (has_loop_app [_]) in Hl; [|by repeat constructor]. apply has_loop_app in Hl; [|done].
    revert Hl. apply no_loop_has. by repeat constructor. }
  apply twp_bind. unfold make_pool. destruct (Z.leb_spec (2 ^ 60) (num_workers o)).
  { intros Hl. exfalso. apply (has_loop_app [_]) in Hl; [|by repeat constructor]. apply has_loop_app in Hl; [|done].
    revert Hl. apply no_loop_has. by repeat constructor. }
  apply twp_ask. intros r2. destruct (Z.eqb_spec r2 0) as [_|P]; cbn [negb twp mret sys_ret].
  { intros Hl. exfalso. apply (has_loop_app [_]) in Hl; [|by repeat constructor]. apply has_loop_app in Hl; [|done].
    revert Hl. apply no_loop_has. by repeat constructor. }
  eapply twp_mono; [apply serve_trace|]. intros tr2 e H2 Hl.
  apply (has_loop_app [_]) in Hl; [|by repeat constructor]. apply has_loop_app in Hl; [|done]. apply (has_loop_app [_; _]) in Hl; [|by repeat constructor].
  destruct (H2 Hl) as (-> & fd & ep & ev & flags & D2). split; [done|]. exists fd, ep, ev, flags.
  unfold calls_before. cbn [app drop]. rewrite <- !app_assoc. apply (did_cons NewManager r0 _ [fd; ep; ev] [ev; ep; fd]); [done|].
  apply (did_app _ [] [] _ _ [fd; ep; ev] [ev; ep; fd]); [exact D1|].
  apply (did_cons (LoadModule _ _) r1 _ [fd; ep; ev] [ev; ep; fd]); [exact L|]. by apply (did_cons (StartPool _) r2 _ [fd; ep; ev] [ev; ep; fd]).
Qed.

(** C20. When the server serves, it serves what the command line asks for.  If, whatever the
    system answers, the event loop is entered at all, then the command line was parsed to
    options, and behind the set-up of the log the calls are exactly these: the signals, the
    module manager with the environment of the options, the module of the options, the
    pool of their size; the listener the help and the README promise for the command line
    (only [--uds] when it is given, the port modulo 2^16 when only [--port] is, the default
    path otherwise; for a socket in the file system the directory and the permissions),
    listening; the loop on that listener; and at the end the pool is drained, every
    descriptor that was given is closed, once, the socket file is removed and the manager
    released, and the process exits with 0.  Each of those calls had succeeded.  One command
    line is excepted, on which the code does not do what they promise: [--port] with a
    [--uds] that names the default path listens on TCP
    ([default_uds_with_port_is_tcp]). *)
Theorem main_serves (args : list (list Z)) (answers : list Z) (tr : trace) (e : ending) (ep ev fd : Z) :
  replay (main args) answers = Some (tr, e) -> EventLoop ep ev fd ∈ tr.*1 ->
  (forall o, parse_args args default_options = Parsed o -> ~ names_default_path args o) ->
  exists o log run flags,
    parse_args args default_options = Parsed o /\ lsapi_mode o = false /\ wasm_module_path o <> [] /\ e = Exit 0 /\
    tr = log ++ run /\ Forall (fun x => log_call x.1) log /\
    (let l := asked_listener args o in
     run.*1 = calls_before o (listener_path l) ++ listener_calls l fd ++ loop_calls ep ev fd flags ++ calls_behind (listener_path l) fd) /\
    Forall succeeded run /\ opens tr = opens log ++ [fd; ep; ev] /\ closes tr ≡ₚ opens tr.
Proof.
  intros R Hl Hd. assert (twp (main args) (fun tr e => has_loop tr -> exists o log run, parse_args args default_options = Parsed o /\
    lsapi_mode o = false /\ wasm_module_path o <> [] /\ tr = log ++ run /\ Forall (fun x => log_call x.1) log /\ closes log = opens log /\ served o run e)) as H.
  2: { destruct (twp_replay _ _ _ _ _ H R) as (o & log & run & P & Lm & Pm & -> & Fl & Bl & -> & fd' & ep' & ev' & flags & [D1 D2 D3 D4]); [by exists ep, ev, fd|].
       assert (fd' = fd /\ ep' = ep /\ ev' = ev) as (-> & -> & ->).
       { rewrite fmap_app, D1 in Hl. apply elem_of_app in Hl as [Hl|Hl].
         - apply list_elem_of_fmap in Hl as ([c r] & E & Hl). rewrite Forall_forall in Fl. apply Fl in Hl. cbn in E. by subst c.
         - clear -Hl. unfold calls_before, listen_calls, loop_calls, calls_behind, unlinks in Hl.
           destruct (bool_decide _), (is_nil (uds_path_ _)), (tcp_mode _); try destruct (is_nil (parent_path (uds_path_ (make_server o)))); cbn in Hl;
             repeat (apply elem_of_cons in Hl as [Hl|Hl]; [first [discriminate Hl|by injection Hl]|]); by apply elem_of_nil in Hl. }
       destruct (make_server_asked args o fd P (Hd o P)) as [El Ep]. rewrite El, Ep in D1.
       exists o, log, run, flags. do 4 (split; [done|]). split; [done|]. split; [done|]. split; [done|]. split; [done|].
       unfold opens, closes in *. rewrite !omap_app, D2, D3, Bl. split; [done|]. apply Permutation_app_head. solve_Permutation. }
  clear R Hl Hd. unfold main. destruct (parse_args args default_options) as [o|c|] eqn:E; [|by intros (? & ? & ? & X); apply elem_of_nil in X..].
  unfold run_options. destruct (lsapi_mode o && port_specified o); [by intros (? & ? & ? & X); apply elem_of_nil in X|].
  apply twp_bind. eapply twp_mono; [apply log_init_trace|]. intros log _ [Fl Bl].
  assert (no_loop log) as Nl by (eapply Forall_impl; [exact Fl|]; intros [c r]; by destruct c).
  destruct (wasm_module_path o) as [|x path] eqn:Em; cbn [is_nil].
  { intros Hl. apply has_loop_app in Hl; [|done]. by apply no_loop_has in Hl; [|constructor]. }
  apply twp_ask. intros r1. apply twp_ask. intros r2. destruct (lsapi_mode o) eqn:Elm.
  { twp. intros Hl. apply has_loop_app in Hl; [|done]. by apply no_loop_has in Hl; [|repeat constructor]. }
  eapply twp_mono; [apply run_http_trace|]. intros tr' e' H' Hl. apply has_loop_app in Hl; [|done]. apply (has_loop_app [_; _]) in Hl; [|by repeat constructor].
  destruct (H' Hl) as (-> & fd' & ep' & ev' & flags & D). exists o, log, ((SysSigaction 2, r1) :: (SysSigaction 15, r2) :: tr').
  do 2 (split; [done|]). split; [congruence|]. do 3 (split; [done|]). split; [done|]. exists fd', ep', ev', flags.
  change (calls_before o (uds_path_ (make_server o))) with (SysSigaction 2 :: SysSigaction 15 :: drop 2 (calls_before o (uds_path_ (make_server o)))).
  apply (did_cons (SysSigaction 2) r1 _ [fd'; ep'; ev'] [ev'; ep'; fd']); [done|]. by apply (did_cons (SysSigaction 15) r2 _ [fd'; ep'; ev'] [ev'; ep'; fd']).
Qed.

(** ** Runs *)

Definition http_args : list (list Z) := [str "--module"; str "f.wasm"; str "--port"; str "9000"; str "--workers"; str "4"].
(** No log; the module loads, the pool starts; socket 5, epoll 6, eventfd 7. *)
Definition http_answers : list Z := [-1; 0; 0; 0; 1; 1; 5; 0; 0; 0; 6; 7; 2; 0; 0; 0; 0; 0; 0; 0; 0; 0; 0].
Definition http_run : option (trace * ending) := replay (main http_args) http_answers.

Lemma main_serves_witness : exists tr,
  replay (main http_args) http_answers = Some (tr, Exit 0) /\ EventLoop 6 7 5 ∈ tr.*1 /\ closes tr ≡ₚ opens tr.
Proof.
  destruct (replay (main http_args) http_answers) as [[tr e]|] eqn:R; [|vm_compute in R; discriminate].
  assert (EventLoop 6 7 5 ∈ tr.*1) as L by (vm_compute in R; injection R as <- _; cbn; repeat (apply elem_of_cons; first [left; reflexivity|right])).
  destruct (main_serves http_args http_answers tr e 6 7 5 R L) as (o & log & r & flags & _ & _ & _ & -> & _ & _ & _ & _ & _ & P).
  { intros o _ (X & _). apply (bool_decide_eq_true_2 _) in X. vm_compute in X. discriminate X. }
  exists tr. split; [reflexivity|]. split; [exact L|exact P].
Defined.

Lemma main_calls_typed_witness : exists tr,
  replay (main http_args) http_answers = Some (tr, Exit 0) /\ length tr = 23%nat /\ Forall (fun x => typed_call x.1) tr /\
  still_open (take 16 tr) = [7; 6; 5] /\ tr !! 16%nat = Some (EventLoop 6 7 5, 0) /\ Forall (fun fd => fd ∈ still_open (take 16 tr)) [6; 7; 5].
Proof.
  destruct (replay (main http_args) http_answers) as [[tr e]|] eqn:R; [|vm_compute in R; discriminate].
  destruct (main_calls_typed http_args http_answers tr e R) as [F D].
  assert (e = Exit 0 /\ length tr = 23%nat /\ still_open (take 16 tr) = [7; 6; 5] /\ tr !! 16%nat = Some (EventLoop 6 7 5, 0)) as (-> & Hn & Ho & Hl)
    by (vm_compute in R; injection R as <- <-; repeat split; reflexivity).
  exists tr. split; [reflexivity|]. split; [exact Hn|]. split; [exact F|]. split; [exact Ho|]. split; [exact Hl|].
  exact (proj1 (D (take 16 tr) (EventLoop 6 7 5) 0 (drop 17 tr) (eq_sym (take_drop_middle tr 16 _ Hl)))).
Defined.

(** ** What [main] gets wrong *)

Definition calls_of (r : option (trace * ending)) : option (list syscall * ending) := '(tr, e) ← r; Some (tr.*1, e).

(** When [bind] fails, [start_tcp] closes the socket but keeps its number, and the
    destructor closes that number again. *)
Example failed_bind_closes_twice :
  calls_of (replay (main http_args) [-1; 0; 0; 0; 1; 1; 5; 0; -1; 0; 0; 0]) =
    Some ([SysStat DOLOG_PATH; SysSigaction 2; SysSigaction 15; NewManager; LoadModule (str "f.wasm") custom_filter; StartPool 4;
           SysSocket AF_INET; SysReuseAddr 5; SysBind 5 (SockIn INADDR_ANY 9000); SysClose 5; SysClose 5; ShutdownPool], Exit 1).
Proof. vm_compute. reflexivity. Qed.

(** A server that cannot make its epoll set ends as if it had served. *)
Example failed_epoll_exits_with_0 :
  snd <$> replay (main http_args) [-1; 0; 0; 0; 1; 1; 5; 0; 0; 0; -1; 0; 0; 0; 0] = Some (Exit 0).
Proof. vm_compute. reflexivity. Qed.

(** The documented default path with [--port] listens on TCP, although [--uds] was given. *)
Example default_uds_with_port_is_tcp : forall o,
  parse_args [str "--uds"; str "/tmp/lswasm.sock"; str "--port"; str "9000"] default_options = Parsed o -> tcp_mode (make_server o) = true.
Proof. intros o E. vm_compute in E. injection E as <-. vm_compute. reflexivity. Qed.

(** Ports are cut to 16 bits, a word for a number or a negative number of workers ends the
    process by an exception, and a mode may be a negative number that wraps. *)
Example odd_numbers :
  (forall o, parse_args [str "--port"; str "74616"] default_options = Parsed o -> listen_calls (make_server o) 5 !! 2%nat = Some (SysBind 5 (SockIn INADDR_ANY 9080))) /\
  main [str "--module"; str "f.wasm"; str "--port"; str "http"] = Return Terminated /\
  snd <$> replay (main [str "--module"; str "f.wasm"; str "--workers"; str "-1"]) [-1; 0; 0; 0; 1] = Some Terminated /\
  parse_args [str "--sock-perm"; str "-1777777777777777777177"] default_options = Parsed (set_perm 385 default_options).
Proof. split; [intros o E; vm_compute in E; injection E as <-; reflexivity|]. vm_compute. done. Qed.
