(* ===== verification/LsapiSys.v ===== *)
(** * The sockets and signals of lsapilib.c

    [LSAPI_ParseSockAddr], [LSAPI_CreateListenSock] and the wrappers of single system calls
    ([lsapi_set_nblock], [lsapi_signal], [lsapi_accept], [isPipe],
    [lsapi_enable_core_dump]) as programs of system calls, and what the first two promise. *)

From S2P Require Import HttpUtilsSpec.
From S2P Require Export Env Sys.

Open Scope Z_scope.

(** ** Addresses *)

(** What [LSAPI_ParseSockAddr] writes: the bytes of [sun_path], or an address and a port. *)
Inductive raw_addr := RawUnix (sun_path : list Z) | RawAddr (a : sockaddr).

Definition AF_of (a : raw_addr) : Z :=
  match a with
  | RawUnix _ | RawAddr (SockUnix _) => AF_UNIX
  | RawAddr (SockIn _ _) => AF_INET
  | RawAddr (SockIn6 _ _) => AF_INET6
  end.

Definition INADDR_BROADCAST : Z := 2 ^ 32 - 1.

(** [strncpy] of a string into [sun_path]. *)
Definition strncpy_path (s : list Z) : list Z := take (Z.to_nat SUN_PATH) (s ++ replicate (Z.to_nat SUN_PATH) 0).

Definition parse_port (tail : list Z) : option Z :=
  let port := atoi (match tail with 58 :: tail => tail | _ => tail end) in
  if (port <=? 0) || (65535 <? port) then None else Some port.

Section Addresses.
(** [inet_addr] of the C library, and [getaddrinfo] for the two families. *)
Context (inet_addr : list Z -> Z) (getaddrinfo : list Z -> option Z) (getaddrinfo6 : list Z -> option (list Z)).

(** What is known of a host without a lookup. *)
Definition known_host (host : list Z) : option Z :=
  match host with
  | 42 :: _ => Some INADDR_ANY
  | _ =>
      if header_name_eq host (str "localhost") then Some INADDR_LOOPBACK
      else if inet_addr host =? INADDR_BROADCAST then None else Some (inet_addr host)
  end.

Definition LSAPI_ParseSockAddr (pBind : list Z) : option raw_addr :=
  let achAddr := take 255 (skip_space pBind) in
  match achAddr with
  | 47 :: _ => Some (RawUnix (strncpy_path achAddr))
  | 91 :: p =>
      match span (fun c => negb (c =? 93)) p with
      | (_, []) => None
      | (p, _ :: pEnd) =>
          port ← parse_port pEnd;
          a ← getaddrinfo6 (match p with 42 :: _ => str "::" | _ => p end);
          Some (RawAddr (SockIn6 a port))
      end
  | _ =>
      match span (fun c => negb (c =? 58)) achAddr with
      | (_, []) => None
      | (p, _ :: pEnd) =>
          port ← parse_port pEnd;
          a ← (match known_host p with Some a => Some a | None => getaddrinfo p end);
          Some (RawAddr (SockIn a port))
      end
  end.

(** ** Listening *)

(** What [bind] reads of an address. *)
Definition bound (a : raw_addr) : sockaddr :=
  match a with
  | RawUnix p => SockUnix (span (fun c => negb (c =? 0)) p).1
  | RawAddr a => a
  end.

Definition listen_on (family : Z) (a : sockaddr) (backlog : Z) : sys Z :=
  fd ← ask (SysSocket family);
  if fd =? -1 then mret (-1)
  else
    ask (SysCloexec fd) ;;
    r ← ask (SysReuseAddr fd);
    r ← (if r =? 0 then
           r ← ask (SysBind fd a);
           if r =? 0 then ask (SysListen fd backlog) else mret r
         else mret r);
    if r =? 0 then mret fd else ask (SysClose fd) ;; mret (-1).

(** [None]: [unlink] reads behind [sun_path]. *)
Definition LSAPI_CreateListenSock2 (a : raw_addr) (backlog : Z) : option (sys Z) :=
  match a with
  | RawUnix p => path ← c_str p; Some (ask (SysUnlink path) ;; listen_on AF_UNIX (bound a) backlog)
  | RawAddr (SockUnix path) => Some (ask (SysUnlink path) ;; listen_on AF_UNIX (bound a) backlog)
  | RawAddr _ => Some (listen_on (AF_of a) (bound a) backlog)
  end.

Definition LSAPI_CreateListenSock (pBind : list Z) (backlog : Z) : option (sys Z) :=
  match LSAPI_ParseSockAddr pBind with
  | None => Some (mret (-1))
  | Some a => LSAPI_CreateListenSock2 a backlog
  end.
End Addresses.

(** ** Single calls *)

Definition O_NONBLOCK : Z := 2048.

Definition lsapi_set_nblock (fd : Z) (nonblock : bool) : sys Z :=
  val ← ask (SysGetFlags fd);
  if nonblock then
    if Z.land val O_NONBLOCK =? 0 then ask (SysSetFlags fd (Z.lor val O_NONBLOCK)) else mret 0
  else
    if Z.land val O_NONBLOCK =? 0 then mret 0 else ask (SysSetFlags fd (Z.land val (Z.lnot O_NONBLOCK))).

(** A handler is installed where there is the default one (the answer 0). *)
Definition lsapi_signal (signo : Z) : sys unit :=
  h ← ask (SysGetHandler signo);
  if h =? 0 then ask (SysSetHandler signo) ;; mret tt else mret tt.

Definition lsapi_accept (fdListen : Z) : sys Z :=
  fd ← ask (SysAccept fdListen);
  if fd =? -1 then mret fd
  else
    family ← ask (SysPeerFamily fd);
    (if family =? AF_INET then ask (SysNodelay fd) ;; mret tt else mret tt) ;;
    mret fd.

(** The answer of [getpeername] is 0 or the error. *)
Definition ENOTCONN : Z := 107.
Definition isPipe (fd : Z) : sys bool := e ← ask (SysPeerName fd); mret (negb (e =? ENOTCONN)).

Definition lsapi_enable_core_dump (s_enable_core_dump : Z) : sys unit := ask (SysSetDumpable s_enable_core_dump) ;; mret tt.

(** ** What they promise *)

(** An address as it is written. *)
Inductive address :=
| AtPath (path : list Z)
| AnyHost (port : Z)
| LocalHost (port : Z)
| Numeric (host : list Z) (port : Z)
| Named (host : list Z) (port : Z)
| AnyHost6 (port : Z)
| Host6 (host : list Z) (port : Z).

Definition port_text (port : Z) : list Z := 58 :: dec port.

Definition write_address (a : address) : list Z :=
  match a with
  | AtPath p => 47 :: p
  | AnyHost port => 42 :: port_text port
  | LocalHost port => str "localhost" ++ port_text port
  | Numeric host port | Named host port => host ++ port_text port
  | AnyHost6 port => str "[*]" ++ port_text port
  | Host6 host port => 91 :: host ++ 93 :: port_text port
  end.

Section Promises.
Context (inet_addr : list Z -> Z) (getaddrinfo : list Z -> option Z) (getaddrinfo6 : list Z -> option (list Z)).

Definition good_port (port : Z) : Prop := 1 <= port <= 65535.

(** A host of version 4 that can be told from the other forms: short, without a colon, and
    not beginning with a blank, a slash, a bracket or a star. *)
Definition plain_host (host : list Z) : Prop :=
  (58 ∉ host) /\ zlen host <= 230 /\ header_name_eq host (str "localhost") = false /\
  match host with [] => False | c :: _ => is_space c = false /\ c <> 47 /\ c <> 91 /\ c <> 42 end.

(** It can be told from the other forms, and the library knows its host. *)
Definition good_address (a : address) : Prop :=
  match a with
  | AtPath p => zlen p < SUN_PATH - 1 /\ (0 ∉ p)
  | AnyHost port | LocalHost port => good_port port
  | Numeric host port => good_port port /\ plain_host host /\ inet_addr host <> INADDR_BROADCAST
  | Named host port => good_port port /\ plain_host host /\ inet_addr host = INADDR_BROADCAST /\ is_Some (getaddrinfo host)
  | AnyHost6 port => good_port port /\ is_Some (getaddrinfo6 (str "::"))
  | Host6 host port => good_port port /\ (93 ∉ host) /\ zlen host <= 230 /\ is_Some (getaddrinfo6 host) /\ hd 0 host <> 42
  end.

Definition address_meaning (a : address) : sockaddr :=
  match a with
  | AtPath p => SockUnix (47 :: p)
  | AnyHost port => SockIn INADDR_ANY port
  | LocalHost port => SockIn INADDR_LOOPBACK port
  | Numeric host port => SockIn (inet_addr host) port
  | Named host port => SockIn (default 0 (getaddrinfo host)) port
  | AnyHost6 port => SockIn6 (default [] (getaddrinfo6 (str "::"))) port
  | Host6 host port => SockIn6 (default [] (getaddrinfo6 host)) port
  end.

Lemma digits_val_from_base l : Forall (fun c => 48 <= c < 58) l -> forall a, digits_val a l = foldl (fun a c => 10 * a + default 0 (digit_val c)) a l.
Proof.
  induction l as [|c l IH]; intros F a; [done|]. apply Forall_cons in F as [H F]. cbn [digits_val foldl]. unfold digit_val, ReqParse.is_digit.
  rewrite (proj2 (Z.leb_le 48 c)), (proj2 (Z.leb_le c 57)) by lia. cbn. by apply IH.
Qed.

Lemma atoi_dec n : 0 <= n < 2 ^ 31 -> atoi (dec n) = n.
Proof.
  intros H. destruct (dec_digits n) as (_ & E & N & F); [lia|]. unfold atoi, strtoll.
  assert (skip_space (dec n) = dec n) as ->.
  { destruct (dec n) as [|c l]; [done|]. apply Forall_cons in F as [Hc _]. cbn [skip_space]. by replace (is_space c) with false by (unfold is_space; lia). }
  assert (match dec n with 45 :: s => - digits_val 0 s | 43 :: s => digits_val 0 s | _ => digits_val 0 (dec n) end = n) as ->.
  { pose proof (digits_val_from_base _ F 0) as D. change (foldl _ 0 (dec n)) with (from_base 10 (dec n)) in D. rewrite E in D.
    destruct (dec n) as [|c l]; [done|]. apply Forall_cons in F as [Hc _]. destruct c as [|p|p]; try lia. do 6 (destruct p as [p|p|]; try lia; try done). }
  unfold s32. rewrite Z.max_r, Z.min_l by lia. rewrite Z.mod_small by lia. lia.
Qed.

Lemma parse_port_text port : good_port port -> parse_port (dec port) = Some port.
Proof.
  intros H. unfold good_port in H. destruct (dec_digits port) as (_ & _ & N & F); [lia|]. unfold parse_port.
  assert (match dec port with 58 :: tail => tail | _ => dec port end = dec port) as ->.
  { destruct (dec port) as [|c l]; [done|]. apply Forall_cons in F as [Hc _]. destruct c as [|p|p]; try lia. do 6 (destruct p as [p|p|]; try lia; try done). }
  rewrite atoi_dec by lia. rewrite (proj2 (Z.leb_gt _ _)), (proj2 (Z.ltb_ge _ _)) by lia. done.
Qed.

Lemma span_not c l r : c ∉ l -> span (fun x => negb (x =? c)) (l ++ c :: r) = (l, c :: r).
Proof.
  intros H. apply span_stop; [|by rewrite Z.eqb_refl]. apply Forall_forall. intros x Hx. apply negb_true_iff, Z.eqb_neq. by intros ->.
Qed.

(** A path that fits is kept, with its NUL. *)
Lemma strncpy_path_fits p : zlen p < SUN_PATH -> 0 ∉ p ->
  c_str (strncpy_path p) = Some p /\ bound (RawUnix (strncpy_path p)) = SockUnix p.
Proof.
  unfold strncpy_path, SUN_PATH, zlen. intros H N. change (Z.to_nat 108) with 108%nat.
  assert (exists k, take 108 (p ++ replicate 108 0) = p ++ 0 :: replicate k 0) as [k ->].
  { exists (107 - length p)%nat. rewrite take_app_ge by lia. rewrite take_replicate. f_equal.
    replace ((108 - length p) `min` 108)%nat with (S (107 - length p)) by lia. done. }
  split; [|cbn; by rewrite span_not].
  clear H. induction p as [|c p IH]; [done|]. apply not_elem_of_cons in N as [Hc N]. cbn. rewrite (proj2 (Z.eqb_neq c 0)) by done. by rewrite IH.
Qed.

Lemma dec_length n : zlen (dec n) <= 20.
Proof.
  unfold dec. assert (forall fuel z, (length (to_base 10 fuel z) <= fuel)%nat) as H; [|specialize (H 20%nat n); unfold zlen; lia].
  induction fuel as [|fuel IH]; intros z; cbn; [lia|]. destruct (z <? 10); [cbn; lia|]. rewrite length_app. specialize (IH (z / 10)). cbn. lia.
Qed.

Lemma skip_blanks b s : Forall (fun c => is_space c = true) b -> match s with [] => True | c :: _ => is_space c = false end -> skip_space (b ++ s) = s.
Proof.
  intros F H. induction F as [|c b Hc F IH]; cbn [app]; [|cbn; by rewrite Hc].
  destruct s as [|c s]; [done|]. cbn. by rewrite H.
Qed.

Lemma other_first {T} (A : T) (B : list Z -> T) (D : T) s : match s with [] => True | c :: _ => c <> 47 /\ c <> 91 end ->
  match s with 47 :: _ => A | 91 :: p => B p | _ => D end = D.
Proof.
  destruct s as [|c s]; [done|]. intros [N1 N2]. destruct c as [|q|q]; try done. do 7 (destruct q as [q|q|]; try done).
Qed.

Lemma parse_port_colon port : good_port port -> parse_port (58 :: dec port) = parse_port (dec port).
Proof.
  intros H. rewrite parse_port_text by done. unfold good_port in H. unfold parse_port. rewrite atoi_dec by lia.
  rewrite (proj2 (Z.leb_gt _ _)), (proj2 (Z.ltb_ge _ _)) by lia. done.
Qed.

(** What [bind] reads; and a path has its NUL. *)
Definition reads_as (raw : raw_addr) (m : sockaddr) : Prop :=
  bound raw = m /\
  match raw with
  | RawUnix p => exists q, c_str p = Some q /\ bound raw = SockUnix q
  | RawAddr (SockUnix _) => False
  | RawAddr _ => True
  end.

(** What becomes of a plain host: a number, or a name that is looked up. *)
Definition known_host_or_name (host : list Z) : option Z :=
  if inet_addr host =? INADDR_BROADCAST then getaddrinfo host else Some (inet_addr host).

Lemma plain_host_reads host port a : good_port port -> plain_host host -> known_host_or_name host = Some a ->
  match host ++ port_text port with
  | 47 :: _ => Some (RawUnix (strncpy_path (host ++ port_text port)))
  | 91 :: p =>
      match span (fun c => negb (c =? 93)) p with
      | (_, []) => None
      | (p, _ :: pEnd) =>
          port ← parse_port pEnd;
          a ← getaddrinfo6 (match p with 42 :: _ => str "::" | _ => p end);
          Some (RawAddr (SockIn6 a port))
      end
  | _ =>
      match span (fun c => negb (c =? 58)) (host ++ port_text port) with
      | (_, []) => None
      | (p, _ :: pEnd) =>
          port ← parse_port pEnd;
          a ← (match known_host inet_addr p with Some a => Some a | None => getaddrinfo p end);
          Some (RawAddr (SockIn a port))
      end
  end = Some (RawAddr (SockIn a port)).
Proof.
  intros G1 (G2 & _ & G3 & G5) K. destruct host as [|c host]; [done|]. destruct G5 as (_ & N1 & N2 & N3).
  rewrite other_first by done. unfold port_text. rewrite (span_not 58 (c :: host)), (parse_port_text port G1) by done. cbn [mbind option_bind].
  assert (known_host inet_addr (c :: host) = if inet_addr (c :: host) =? INADDR_BROADCAST then None else Some (inet_addr (c :: host))) as ->.
  { unfold known_host. rewrite G3. destruct c as [|q|q]; try done. do 6 (destruct q as [q|q|]; try done). }
  unfold known_host_or_name in K. destruct (_ =? _); [by rewrite K|by injection K as ->].
Qed.

(** An address reads back as what it means, whatever blanks come before it. *)
Lemma address_reads_back (blanks : list Z) (a : address) :
  Forall (fun c => is_space c = true) blanks -> good_address a ->
  exists raw, LSAPI_ParseSockAddr inet_addr getaddrinfo getaddrinfo6 (blanks ++ write_address a) = Some raw /\
    reads_as raw (address_meaning a).
Proof.
  intros F G. unfold LSAPI_ParseSockAddr.
  assert (take 255 (skip_space (blanks ++ write_address a)) = write_address a) as ->.
  { rewrite skip_blanks; [|done|].
    - apply take_ge. assert (forall port, length (port_text port) <= 21)%nat as L.
      { intros port. pose proof (dec_length port) as L. unfold zlen in L. unfold port_text. cbn [length]. lia. }
      destruct a as [p|port|port|host port|host port|port|host port]; cbn [write_address good_address] in *; try specialize (L port);
        unfold plain_host in *; destruct_and?; unfold SUN_PATH, zlen in *; try (set (t := port_text port) in *; clearbody t);
        rewrite ?length_cons, ?length_app, ?length_cons; try change (length (str "localhost")) with 9%nat;
        try change (length (str "[*]")) with 3%nat; lia.
    - destruct a as [p|port|port|host port|host port|port|host port]; try done; (destruct G as (_ & (_ & _ & _ & G) & _); destruct host; [done|apply G]). }
  destruct a as [p|port|port|host port|host port|port|host port]; cbn [write_address address_meaning good_address] in *.
  - destruct G as [G N]. eexists. split; [done|]. destruct (strncpy_path_fits (47 :: p)) as [E1 E2].
    { rewrite zlen_cons. lia. }
    { by apply not_elem_of_cons. }
    split; [done|]. by exists (47 :: p).
  - exists (RawAddr (SockIn INADDR_ANY port)). split; [|done]. change (42 :: port_text port) with ([42] ++ 58 :: dec port). rewrite span_not by (by intros ?%list_elem_of_singleton). by rewrite parse_port_text.
  - exists (RawAddr (SockIn INADDR_LOOPBACK port)). split; [|done]. rewrite other_first by done. unfold port_text.
    rewrite span_not; [by rewrite parse_port_text|]. by apply (bool_decide_unpack _).
  - destruct G as (G1 & P & G4). exists (RawAddr (SockIn (inet_addr host) port)). split; [|done].
    apply plain_host_reads; [done..|]. unfold known_host_or_name. by rewrite (proj2 (Z.eqb_neq _ _)).
  - destruct G as (G1 & P & G4 & (a4 & G5)). exists (RawAddr (SockIn a4 port)). rewrite G5. split; [|done].
    apply plain_host_reads; [done..|]. unfold known_host_or_name. by rewrite G4.
  - destruct G as (G1 & a6 & G2). exists (RawAddr (SockIn6 a6 port)). rewrite G2. split; [|done]. unfold port_text.
    change (str "[*]" ++ 58 :: dec port) with (91 :: [42] ++ 93 :: 58 :: dec port). cbv iota.
    rewrite span_not by (by intros ?%list_elem_of_singleton). rewrite (parse_port_colon port G1), (parse_port_text port G1). cbn [mbind option_bind]. by rewrite G2.
  - destruct G as (G1 & G2 & _ & (a6 & G3) & G4). exists (RawAddr (SockIn6 a6 port)). rewrite G3. split; [|done]. unfold port_text.
    rewrite (span_not 93 host), (parse_port_colon port G1), (parse_port_text port G1) by done. cbn [mbind option_bind].
    assert (match host with 42 :: _ => str "::" | _ => host end = host) as ->.
    { destruct host as [|c host]; [done|]. cbn in G4. destruct c as [|q|q]; try done. do 6 (destruct q as [q|q|]; try done). }
    by rewrite G3.
Qed.

(** ** The listener *)

Definition listener_calls (fd : Z) (a : sockaddr) (backlog : Z) : list syscall :=
  match a with
  | SockUnix p => [SysUnlink p; SysSocket AF_UNIX]
  | SockIn _ _ => [SysSocket AF_INET]
  | SockIn6 _ _ => [SysSocket AF_INET6]
  end ++ [SysCloexec fd; SysReuseAddr fd; SysBind fd a; SysListen fd backlog].

Lemma listen_on_trace family a backlog : twp (listen_on family a backlog) (fun tr r => Forall (fun x => -1 <= x.2) tr ->
  (r = -1 /\ closes tr = opens tr) \/
  (0 <= r /\ did ([SysSocket family] ++ [SysCloexec r; SysReuseAddr r; SysBind r a; SysListen r backlog]) [r] [] tr)).
Proof.
  assert (forall fd, -1 <= fd -> fd <> -1 -> (if 0 <=? fd then Some fd else None) = Some fd) as Hfd.
  { intros fd H1 H2. by rewrite (proj2 (Z.leb_le _ _)) by lia. }
  unfold listen_on. apply twp_ask. intros fd. destruct (Z.eqb_spec fd (-1)) as [->|N]; [intros _; by left|].
  apply twp_ask. intros r0. apply twp_ask. intros r1. apply twp_bind.
  apply (twp_mono _ (fun tr r => (r <> 0 -> opens tr = [] /\ closes tr = []) /\ (r = 0 -> tr = [(SysBind fd a, 0); (SysListen fd backlog, 0)] /\ r1 = 0))).
  { destruct (Z.eqb_spec r1 0) as [->|N1]; [|by split]. apply twp_ask. intros r2. destruct (Z.eqb_spec r2 0) as [->|N2]; [|by split].
    intros r3. split; [done|]. by intros ->. }
  intros tr r [H1 H2]. destruct (Z.eqb_spec r 0) as [->|Nr]; twp; intros F.
  - destruct H2 as [-> ->]; [done|]. apply Forall_cons in F as [F _]. cbn in F. right. split; [lia|].
    split; [done|unfold opens; cbn; by rewrite Hfd|done|]. repeat constructor; cbn; lia.
  - apply Forall_cons in F as [F _]. cbn in F. left. split; [done|]. destruct (H1 Nr) as [E1 E2].
    assert (opens (tr ++ [(SysClose fd, r2)]) = [] /\ closes (tr ++ [(SysClose fd, r2)]) = [fd]) as [E3 E4].
    { unfold opens, closes in *. by rewrite !omap_app, E1, E2. }
    unfold opens, closes in *. cbn in *. by rewrite E3, E4, Hfd.
Qed.

(** C34. The LSAPI listener is the one that was asked for, or nothing.  For an address that is
    written as a path of at most 106 bytes behind its slash, as [*], [localhost], a host of
    at most 230 bytes that is a number or a name the resolver knows (and does not begin
    with a star), [[*]] or such a host of version 6 in brackets, each host with a port from
    1 to 65535, and with any blanks before it: whatever the system answers,
    [LSAPI_CreateListenSock] either answers -1 and has closed what it opened, or answers the
    one descriptor it opened, on which it has set close-on-exec, bound exactly the address
    that was written, after removing a stale socket file, and listens with the backlog.
    Longer paths ([long_path_undefined]) and hosts that begin with a star ([star_prefix])
    are not covered: the code goes wrong on them. *)
Theorem lsapi_listener (blanks : list Z) (a : address) (backlog : Z) :
  Forall (fun c => is_space c = true) blanks -> good_address a ->
  exists m, LSAPI_CreateListenSock inet_addr getaddrinfo getaddrinfo6 (blanks ++ write_address a) backlog = Some m /\
    forall answers tr r, replay m answers = Some (tr, r) -> Forall (fun x => -1 <= x.2) tr ->
      (r = -1 /\ closes tr = opens tr) \/
      (0 <= r /\ did (listener_calls r (address_meaning a) backlog) [r] [] tr).
Proof.
  intros F G. destruct (address_reads_back blanks a F G) as (raw & E & B & C). unfold LSAPI_CreateListenSock. rewrite E. rewrite <- B.
  destruct raw as [p|[p|ip port|ip port]]; [|done|..]; cbn [LSAPI_CreateListenSock2].
  - destruct C as (q & Cs & Eq). rewrite Cs. cbn [mbind option_bind]. eexists. split; [done|]. intros answers tr r R.
    revert R. rewrite Eq. apply (twp_replay _ (fun tr r => Forall (fun x => -1 <= x.2) tr -> (r = -1 /\ closes tr = opens tr) \/
      (0 <= r /\ did (listener_calls r (SockUnix q) backlog) [r] [] tr))).
    apply twp_ask. intros r0. eapply twp_mono; [apply listen_on_trace|]. intros tr1 r1 H F1. apply Forall_cons in F1 as [_ F1].
    destruct (H F1) as [[-> Ec]|[Hr D]]; [by left|right]. split; [done|]. by apply (did_cons (SysUnlink q) r0 _ [r1] [] tr1).
  - eexists. split; [done|]. intros answers tr r R. exact (twp_replay _ _ _ _ _ (listen_on_trace _ _ _) R).
  - eexists. split; [done|]. intros answers tr r R. exact (twp_replay _ _ _ _ _ (listen_on_trace _ _ _) R).
Qed.
End Promises.

(** ** The flag of a descriptor *)

Lemma nonblock_bit i : 0 <= i -> Z.testbit O_NONBLOCK i = (i =? 11).
Proof. intros H. change O_NONBLOCK with (2 ^ 11). rewrite Z.pow2_bits_eqb by lia. apply Z.eqb_sym. Qed.

Lemma nonblock_test val : (Z.land val O_NONBLOCK =? 0) = negb (Z.testbit val 11).
Proof.
  destruct (Z.testbit val 11) eqn:E; cbn.
  - apply Z.eqb_neq. intros X. apply (f_equal (fun z => Z.testbit z 11)) in X. rewrite Z.land_spec, E, Z.bits_0 in X. discriminate X.
  - apply Z.eqb_eq, Z.bits_inj'. intros i Hi. rewrite Z.land_spec, Z.bits_0, nonblock_bit by done.
    destruct (Z.eqb_spec i 11) as [->|]; [by rewrite E|apply andb_false_r].
Qed.

(** Afterwards, if the call succeeds, the flag is as asked for and no other has changed;
    nothing is set where it was so before. *)
Lemma set_nblock_trace fd nonblock : twp (lsapi_set_nblock fd nonblock) (fun tr _ => exists val,
  if Bool.eqb (Z.testbit val 11) nonblock then tr = [(SysGetFlags fd, val)]
  else exists flags r, tr = [(SysGetFlags fd, val); (SysSetFlags fd flags, r)] /\
    forall i, 0 <= i -> Z.testbit flags i = if i =? 11 then nonblock else Z.testbit val i).
Proof.
  unfold lsapi_set_nblock. apply twp_ask. intros val. rewrite nonblock_test.
  destruct nonblock, (Z.testbit val 11) eqn:E; cbn [negb]; try (exists val; by rewrite E); intros r; exists val; rewrite E; cbn; eexists _, r; (split; [done|]);
    intros i Hi.
  - rewrite Z.lor_spec, nonblock_bit by done. destruct (i =? 11); [apply orb_true_r|apply orb_false_r].
  - rewrite Z.land_spec, Z.lnot_spec, nonblock_bit by done. destruct (i =? 11); [apply andb_false_r|apply andb_true_r].
Qed.

(** ** Examples *)

(** A library that knows one numeric host and one name. *)
Definition inet_addr1 (host : list Z) : Z := if bool_decide (host = str "10.0.0.1") then 167772161 else INADDR_BROADCAST.
Definition getaddrinfo1 (host : list Z) : option Z := if bool_decide (host = str "db") then Some 5 else None.
Definition getaddrinfo6_1 (host : list Z) : option (list Z) := if bool_decide (host = str "::") then Some (replicate 16 0) else None.

Lemma lsapi_listener_witness : exists m tr,
  LSAPI_CreateListenSock inet_addr1 getaddrinfo1 getaddrinfo6_1 (str " db:7080") 10 = Some m /\
  replay m [4; 0; 0; 0; 0] = Some (tr, 4) /\
  did [SysSocket AF_INET; SysCloexec 4; SysReuseAddr 4; SysBind 4 (SockIn 5 7080); SysListen 4 10] [4] [] tr.
Proof.
  destruct (lsapi_listener inet_addr1 getaddrinfo1 getaddrinfo6_1 [32] (Named (str "db") 7080) 10) as (m & E & H).
  - repeat constructor.
  - cbn [good_address]. split; [unfold good_port; lia|]. split; [|split; [reflexivity|vm_compute; by eexists]].
    split; [by apply (bool_decide_unpack _)|]. split; [vm_compute; discriminate|]. split; [reflexivity|]. vm_compute. repeat split; discriminate.
  - exists m. destruct (replay m [4; 0; 0; 0; 0]) as [[tr r]|] eqn:R.
    + exists tr. assert (r = 4 /\ Forall (fun x => -1 <= x.2) tr) as [-> F].
      { vm_compute in E. injection E as <-. vm_compute in R. injection R as <- <-. split; [reflexivity|]. repeat constructor; cbn; lia. }
      split; [exact E|]. split; [reflexivity|]. destruct (H _ _ _ R F) as [[X _]|[_ D]]; [discriminate X|exact D].
    + exfalso. vm_compute in E. injection E as <-. vm_compute in R. discriminate R.
Defined.

(** A path of 108 bytes fills [sun_path] without a NUL, and [unlink] reads behind it. *)
Example long_path_undefined :
  LSAPI_CreateListenSock inet_addr1 getaddrinfo1 getaddrinfo6_1 (47 :: replicate 107 97) 10 = None.
Proof. vm_compute. reflexivity. Qed.

(** A host is any host when it only starts with a star. *)
Example star_prefix : LSAPI_ParseSockAddr inet_addr1 getaddrinfo1 getaddrinfo6_1 (str "*.example.com:80") = Some (RawAddr (SockIn INADDR_ANY 80)).
Proof. vm_compute. reflexivity. Qed.
